(* ===== verification/_CoqProject ===== *)
-Q . S2P
Prelude.v
Strings.v
Numerals.v
Base62.v
Base64.v
Hex.v
TokenKey.v
Profile.v
RawToken.v
StringBuilder.v
TokenInfo.v
TokenCache.v
TokenQueue.v
TokenManager.v
TokenRoutes.v
GrpcStream.v
ProtoEncode.v
ResponseDecoder.v
RepMove.v
DisplayName.v
Settings.v
ProxyPool.v
Models.v
Floats.v
DebugLog.v
LogManager.v
Version.v
Ntp.v
UpstreamErrors.v
CompletionDecoder.v
Auth.v
LogRoutes.v
ChatModels.v
AnswerStream.v
AnswerOpenai.v
AnswerAnthropic.v
Adapter.v
AdapterOpenai.v
AdapterAnthropic.v
Adapters.v
ChatService.v
UsageTask.v
DefaultInstructions.v
Chars.v
DotEnv.v
NaturalArgs.v
IpAddr.v
Launch.v
DurationFmt.v
Frontend.v
Router.v
Requests.v
Upstream.v
Completions.v
ProjectAge.v
Services.v
