(* ===== verification/Prelude.v ===== *)
(** * A verification library for cursor-api: overview and shared vocabulary

    The program is an HTTP server that offers public chat interfaces on top of an
    upstream service.  It keeps a pool of access tokens, chooses one for every
    request, turns requests into protobuf messages sent as framed gRPC streams,
    and turns the streamed answers back.  This library models the parts with a
    logic of their own, function by function, and proves what makes them correct.

    ** The parts and the files

    From the bottom up; every file names the source files it models, and keeps
    the names of the source for its definitions.

    - [Prelude] (this file): machine integers, [result] and [outcome], bytes,
      strings, decimal texts.  [Numerals]: positional numerals of fixed length.
    - Texts and identifiers.  [Base62] ([src/src/common/utils/base62.rs]),
      [Base64] ([base64.rs]), [Hex] ([hex.rs], [checksum.rs] and
      [src/src/app/model/hash.rs], [checksum.rs], [timestamp_header.rs]),
      [TokenKey] (user identifiers, randomness, subjects, providers and token keys
      of [src/src/app/model/token.rs], [token/cache.rs] and [token/provider.rs]),
      [Profile] (account profiles, [src/src/common/model/userinfo.rs] and its
      modules), [RawToken] (the payload visitor of [src/src/common/model/token.rs],
      [stringify.rs], and raw tokens), [StringBuilder] ([string_builder.rs]).
    - Tokens.  [TokenInfo] (the records of [src/src/app/model.rs]), [TokenCache]
      (the reference-counted cells of [src/src/app/model/token/cache.rs] and the
      races of their operations), [TokenQueue] (the round-robin queue,
      [src/src/app/model/state/token/queue.rs]), [TokenManager] (slots, indexes,
      aliases, free identifiers, saving and loading,
      [src/src/app/model/state/token.rs]), [TokenRoutes] (the administration
      handlers, [src/src/core/route/tokens.rs]).
    - Requests.  [Auth] (which tokens serve a request, the middlewares, dynamic
      keys and what the chat services take from a request: [src/src/core/auth],
      [src/src/core/config.rs], parts of [src/src/core/service.rs]), [Settings]
      (environment values, the global configuration and its handler,
      [src/src/app/config.rs], [src/src/app/model/config.rs]), [Models] (the registry
      of models, its update and the resolver of names, [src/src/core/constant.rs],
      [src/src/core/model/resolver.rs]), [DisplayName]
      ([src/src/core/constant/display_name.rs]), [RepMove] ([src/crates/rep_move]),
      [ProxyPool] (named proxies and their clients,
      [src/src/app/model/proxy_pool.rs], [src/src/core/route/proxies.rs]).
    - Streams.  [GrpcStream] (the incremental decoder, [src/crates/grpc-stream/src/]),
      [ProtoEncode] (the framed encoder, [src/src/common/utils/proto_encode.rs]),
      [ResponseDecoder] (the decoder of chat answers and its two clients,
      [src/src/core/stream/decoder.rs]), [CompletionDecoder] (code completions,
      [src/src/core/stream/decoder/cpp.rs] and [direct.rs]), [UpstreamErrors] (errors
      of the upstream service, [src/src/core/error]).
    - Records and clocks.  [LogManager] (the actor of the request log,
      [src/src/app/model/log]), [LogRoutes] (its handlers,
      [src/src/core/route/logs.rs]), [DebugLog] (the task that orders and writes
      debug messages, [src/src/app/lazy/log.rs]), [Version]
      ([src/src/app/model/version.rs]), [Ntp] ([src/src/common/model/ntp.rs]),
      [Floats] (the [f64] operations), [Strings] (operations of [str]).
    - Chats.  [ChatModels] (the request and answer types of the two public
      interfaces, [src/src/core/model]), [Adapter], [AdapterOpenai],
      [AdapterAnthropic] and [Adapters] (the conversion of a conversation into the
      upstream request, [src/src/core/adapter]), [AnswerStream], [AnswerOpenai] and
      [AnswerAnthropic] (the rendering of an answer, streamed or at once), and
      [ChatService] (a whole request with its log entry and its counters), all from
      [src/src/core/service.rs]; [UsageTask] (the check of the usage behind an
      answer), [DefaultInstructions] ([src/src/app/model/default_instructions.rs]).
    - Upstream.  [Requests] (addresses, headers and bodies of every request,
      [src/src/common/client.rs], [src/src/app/lazy.rs]), [Upstream] (the
      conversations for new tokens, profiles and usage,
      [src/src/common/utils.rs]), [Completions] (the handlers of code completions,
      [src/src/core/service/cpp.rs]), [Services] (the other handlers of
      [src/src/core/route/token.rs] and [utils.rs]).
    - The start.  [Chars] (texts as characters), [DotEnv] (the environment files,
      [src/patch/dotenvy-0.15.7]), [NaturalArgs] ([src/src/natural_args.rs]), [IpAddr]
      (addresses of the standard library), [Launch] ([main] of [src/src/main.rs] and
      its renewal task), [Frontend] (the web pages, [src/src/app/frontend.rs]),
      [Router] (the route table, [src/src/app/route.rs]), [DurationFmt] (the running
      time in words, [src/src/common/utils/duration_fmt.rs]), [ProjectAge]
      ([src/src/common/time.rs]).

    The handlers call the manager, the manager calls the queue and both use the
    token records; a token record holds a raw token, whose key is printed by
    [TokenKey] over [Base64] and [Hex].  [Auth] asks the manager, the log and the
    settings for the tokens of a request; the log holds the tokens of the requests
    it records.  The encoder and the decoder of frames meet in [ProtoEncode]; the
    decoders of answers and of completions sit on the frames and turn upstream
    errors into canonical ones.  [Models] reads the settings and [DisplayName].
    [ChatService] takes what [Auth] left, an adapter, the encoder, the decoder and a
    renderer, and writes to the log; [Adapters] proves it against the interface
    [Interface], which the two public interfaces implement.  [Router] puts [Auth]'s
    checks around the handlers and adds the pages of [Frontend]; [Launch] runs
    [NaturalArgs], [DotEnv], [Version] and [Settings] first.  [Upstream] talks over
    the requests of [Requests] and is proved against the handler's specification in
    [TokenRoutes]; [Completions] joins it to the codecs and to [CompletionDecoder].

    ** How code is rendered

    - A [uN] is a [Z] with its wrap-around written out ([wrap], [in_uint]); lengths
      and positions that a vector bounds are [nat].  The build target is 64-bit and
      little-endian, and arithmetic wraps, as in the release profile.
    - [Result] is [result].  Code that may panic, or that calls [unsafe] functions
      with a precondition, returns an [outcome]: [Ret], [Panic], or [Undef] when a
      precondition of an unsafe operation fails.  A theorem that ends in [Ret] thus
      says that no unchecked access, [unwrap_unchecked] or [assert_unchecked]
      fails.  Uninitialised memory is [option].
    - A method that changes [self] returns the new value.  A handler is a function
      from the locked state to the new one and the response; what the outside world
      answers, random values and the clock are arguments.
    - A loop over a collection or a fixed number of turns is a [Fixpoint] on it.
      The other loops take fuel: one more than the base-2 logarithm for decimal
      texts ([dec_fuel_enough], and [push_digits] of [TokenManager] likewise), one
      more than the bytes of the buffer for the stream decoder (each turn consumes
      five) and for the decoders above it, one more than the length in
      [has_word_from] of [TokenRoutes], one more than the waiting messages in
      [DebugLog], one more than the entries for the eviction of [LogManager], where
      [None] is a loop that is still running (with a limit of zero it never ends).
      Reading an environment file takes one more than its lines, and a value one
      more than its characters ([load_total]); the pieces of an IP address are
      counted by the loop itself.
      Running out is never the answer of a theorem that says what is returned.
    - A function that sends requests is a term of type [net] ([Upstream]): what it
      asks, with what it does for every answer.  [run] lets it talk to a server that
      answers by the whole conversation so far; [join] interleaves two.  Its loops of
      polls take one more than their five turns.
    - A streamed answer that waits for a lock its own task holds never ends: that is
      the flag of [serve] in [ResponseDecoder], and [None] of [later_chunk] and the
      body [Unfinished] in [AnswerStream].
    - A background task is the function that handles one event, iterated over a
      sequence of events in any order ([LogManager], [DebugLog]); an [f64] is a
      number of the standard library's specification of binary64 ([Floats]).
    - Code outside the repository is a parameter with named laws: base64 and
      JSON ([RawToken]), prost and gzip ([ProtoEncode] and the decoders), time
      zones and the text of a raw token ([TokenInfo]), the CBOR form of a key
      and SHA-256 ([Auth]), the clients of proxies and the order of a hash map
      ([ProxyPool], [Frontend]), images ([Adapter]), the printer of JSON
      ([AnswerStream]), the file system and archives ([Frontend]), header values and
      UUIDs ([Requests]); axum's router is the class [Axum] with its laws.  Each theorem
      with such a law has a witness at a concrete implementation.

    ** What the theorems show

    - The manager ([TokenManager]) is safe: every sequence of operations under
      distinct token keys keeps its invariant and never reaches undefined
      behaviour; adding and removing refine the same operations on an abstract
      table of entries; aliases behave as a partial bijection; saving and loading
      give the same tokens.  The proviso on keys is needed, and the handlers do not
      establish it: [duplicate_key_undefined], [duplicate_requests_undefined].
    - The queue ([TokenQueue]) returns the first usable token in rotation, starves
      none, and keeps its rotation when a token is removed.
    - The handlers ([TokenRoutes]) change exactly what the request names, count
      correctly and keep the manager's invariant.
    - The cache ([TokenCache]) shares one cell per token and is safe as long as no
      count reaches zero twice before the first cleanup; two threads can make it do
      so, and then it frees twice.
    - The stream decoder ([GrpcStream]) gives the same messages however the stream
      is cut, its iterator is exact and fused, and encoding then decoding is the
      identity; the encoder that works in uninitialised memory equals the simple one.
    - The decoders of answers and of completions ([ResponseDecoder],
      [CompletionDecoder]) give the same events however the stream is cut; tool
      calls are reassembled from their parts; [serve_aligned] and [serve_faults] say
      when the streamed client keeps up with the decoder and how it can fail: it
      loses the only chunk of a short answer, and a short chunk behind the first
      result makes it wait for a lock that it holds, so that the stream hangs.  An
      upstream error has one canonical form, computed without undefined behaviour
      for every list of details ([UpstreamErrors]).
    - [Auth]: every request is served with the tokens its text entitles it to, or
      refused with the error of its kind; a key that was built carries the settings
      that were asked for and is served with the token it was built from
      ([built_key_served]); the services find what the middleware must leave for them,
      except the settings, which most requests lack ([request_settings]).
    - [Models]: the registry's index always agrees with its list, names resolve as
      documented, and the updates that leave stale names are exhibited.
      [DisplayName] equals a specification by rules.  [Settings]: the handler's
      outcome for every request, and what each field really does.
    - [ProxyPool]: the pool is safe and every request does what it says, except the
      one that replaces all proxies by none, which is undefined
      ([proxy_requests_answered]).
    - [LogManager] refines a bounded table of entries with the tokens they use, and
      its loops end; [LogRoutes] shows a caller only what belongs to his key.
      [DebugLog] writes every message exactly once, but a late message can block it
      ([late_message_blocks]).  [Version] has an exact binary form; a
      measurement of [Ntp] stays within the ranges of its types for any datagram.
    - Answers.  For an answer that thinks, writes and ends, received in chunks of
      whole frames, what a client reads from the stream is what it would get at once
      ([stream_equals_once]), and the events of the other interface rebuild an answer
      of thoughts and text ([events_rebuild_answer]); [stream_faults] and
      [tool_calls_rendered] show where this fails for other answers and other cuts.
      The making of a request fails exactly at the first image that comes to an error
      ([openai_conversation], [anthropic_conversation]); otherwise the conversation
      keeps order, roles and texts, with a user first, and both interfaces make the
      same upstream conversation of the same messages ([adapters_agree]).  A request
      comes to a reply exactly when its settings are there and its conversion and its
      answer return; then it is logged once, the number of active requests is what it
      was, and the status of its entry and the errors follow from the reply
      ([request_accounted]); the usage check is safe alone but not beside other
      operations ([usage_check_race]).
    - The start: a valid environment file gives exactly its variables, any sequence
      of commands that is written down is read back, the server listens where it is
      told ([serving_safe]), and the header and keys are renewed in time
      ([renewal_schedule]).  Every page is served and every path replaced as the
      registry says, unless a path is on both sides of a replacement, and an error
      names what is wrong ([pages_served]); the checks
      are around their handlers whatever the pages replace ([routes_guarded]), and
      it is decided exactly when the routes can be registered ([router_starts]).  A request
      upstream carries exactly its headers although they share one buffer
      ([client_request_built]); those for code completion name the wrong host.
    - Conversations: a new token is fetched within seven requests and five seconds
      whatever the service answers, and only a received token replaces the old one
      ([new_token_conversation]); the search for a usage ends likewise
      ([usage_polled]); a profile does not depend on the order in which its requests
      get on ([profile_any_order]).  A completion request is sent once and always
      answered ([completion_answered]); the events of its stream reach the client
      however it is cut, and it is said exactly when a cut adds the message that the
      stream is empty ([completion_stream_served]).  The age of the project is
      counted wrongly before the 23rd of a month ([project_age_exact]).
    - The codecs round trip on their whole domains, with the exact conditions where
      they do not ([token_key_decimal_misread], [legacy_user_id_detection], and
      [raw_token_roundtrip] for the texts that become another user's token), and
      the payload visitor accepts the fields of a token in any order.

    ** What is not modelled

    Networking, the web framework, files and generated protobuf types are outside;
    vendored crates are too, except the base-32 code of ulid, the time arithmetic of
    chrono that [Ntp] uses, the parser of dotenvy, and what the builder of reqwest
    keeps of a request.  String interning, leaked memory, the health report and the
    files served as they are have no logic of their own.  Within the modelled files,
    serde derives, most [Display] texts of errors, printed messages and capacities of
    vectors are left out.  Some files are outside the module tree and not compiled:
    [validity_range.rs] and [state/log.rs] of [src/src/app/model], and
    [src/src/core/middleware].

    ** This file

    Machine integers, results and outcomes, bytes and strings, decimal numerals,
    and the list, bit and byte-order lemmas used by several components. *)
From stdpp Require Export base prelude list strings gmap fin_maps.
From Stdlib Require Export ZArith Lia.
From Stdlib Require Import Ascii.

#[global] Open Scope Z_scope.
Create HintDb rust discriminated.

(** [lia] reasons about [/] and [mod]. *)
#[global] Ltac Zify.zify_post_hook ::= Z.to_euclidean_division_equations.

(** ** Machine integers *)

(** Unsigned wrap-around at width [w], as Rust's release arithmetic does. *)
Definition wrap (w x : Z) : Z := x mod 2 ^ w.

Definition in_uint (w x : Z) : Prop := 0 <= x < 2 ^ w.

#[export] Instance in_uint_dec w x : Decision (in_uint w x).
Proof. unfold in_uint. apply _. Defined.

(** Two's complement reading of a [w]-bit value. *)
Definition to_signed (w x : Z) : Z :=
  let y := x mod 2 ^ w in if y <? 2 ^ (w - 1) then y else y - 2 ^ w.

Abbreviation u8 := (in_uint 8) (only parsing).
Abbreviation u32 := (in_uint 32) (only parsing).
Abbreviation u64 := (in_uint 64) (only parsing).
Abbreviation u128 := (in_uint 128) (only parsing).

Definition USIZE_BITS : Z := 64.

(** ** Results and outcomes *)

(** Rust's [Result<A, E>]. *)
Inductive result (E A : Type) : Type :=
| Ok (a : A)
| Err (e : E).
Arguments Ok {E A} a.
Arguments Err {E A} e.

#[export] Instance result_ret E : MRet (result E) := fun A a => Ok a.
#[export] Instance result_bind E : MBind (result E) :=
  fun A B f m => match m with Ok a => f a | Err e => Err e end.
#[export] Instance result_fmap E : FMap (result E) :=
  fun A B f m => match m with Ok a => Ok (f a) | Err e => Err e end.

Definition ok_or {E A} (o : option A) (e : E) : result E A :=
  match o with Some a => Ok a | None => Err e end.
Definition to_option {E A} (r : result E A) : option A :=
  match r with Ok a => Some a | Err _ => None end.
Definition map_err {E F A} (f : E -> F) (r : result E A) : result F A :=
  match r with Ok a => Ok a | Err e => Err (f e) end.

(** What running a piece of code gives: a value, a panic (or abort), or
    undefined behaviour when the precondition of an [unsafe] operation fails. *)
Inductive outcome (A : Type) : Type :=
| Ret (a : A)
| Panic
| Undef.
Arguments Ret {A} a.
Arguments Panic {A}.
Arguments Undef {A}.

#[export] Instance outcome_ret : MRet outcome := fun A a => Ret a.
#[export] Instance outcome_bind : MBind outcome :=
  fun A B f m => match m with Ret a => f a | Panic => Panic | Undef => Undef end.

(** [unwrap_unchecked] on an option. *)
Definition unchecked {A} (o : option A) : outcome A :=
  match o with Some a => Ret a | None => Undef end.
(** [unwrap]/[expect] on an option. *)
Definition unwrap {A} (o : option A) : outcome A :=
  match o with Some a => Ret a | None => Panic end.

Definition returns {A} (o : outcome A) : Prop := exists a, o = Ret a.

Lemma bind_Ok {E A B} (m : result E A) (f : A -> result E B) b :
  m ≫= f = Ok b <-> exists a, m = Ok a /\ f a = Ok b.
Proof. destruct m; cbn; split; [eauto|by intros (? & [= ->] & ?)|done|by intros (? & ? & ?)]. Qed.
Lemma bind_Ret {A B} (m : outcome A) (f : A -> outcome B) b :
  m ≫= f = Ret b <-> exists a, m = Ret a /\ f a = Ret b.
Proof.
  destruct m; cbn; split; [eauto|by intros (? & [= ->] & ?)|done|by intros (? & ? & ?)|done|
    by intros (? & ? & ?)].
Qed.
Lemma ok_or_Ok {E A} (o : option A) (e : E) a : ok_or o e = Ok a <-> o = Some a.
Proof. destruct o; cbn; split; congruence. Qed.
Lemma map_err_Ok {E F A} (f : E -> F) (r : result E A) a : map_err f r = Ok a <-> r = Ok a.
Proof. destruct r; cbn; split; congruence. Qed.
Lemma unchecked_Ret {A} (o : option A) a : unchecked o = Ret a <-> o = Some a.
Proof. destruct o; cbn; split; congruence. Qed.
Lemma unwrap_Ret {A} (o : option A) a : unwrap o = Ret a <-> o = Some a.
Proof. destruct o; cbn; split; congruence. Qed.
Lemma to_option_Some {E A} (r : result E A) a : to_option r = Some a <-> r = Ok a.
Proof. destruct r; cbn; split; congruence. Qed.

(** Invert a computation that succeeds: [H : m = Ok _], [Ret _] or [Some _]. *)
Ltac bind_inv H :=
  repeat (
    lazymatch type of H with
    | Ok _ = Ok _ => fail
    | Ret _ = Ret _ => fail
    | Some _ = Some _ => fail
    | _ => idtac
    end;
    first
    [ discriminate H
    | let x := fresh "x" in let E := fresh "E" in
      first [apply bind_Ok in H as (x & E & H) | apply bind_Ret in H as (x & E & H)
            | apply bind_Some in H as (x & E & H)];
      try first [apply ok_or_Ok in E | apply map_err_Ok in E | apply unchecked_Ret in E
                | apply unwrap_Ret in E]
    | match type of H with
      | context [match ?x with _ => _ end] => destruct x eqn:?; try discriminate H
      end ]).

(** The length of a vector, as the integer the code computes with. *)
Definition zlen {A} (l : list A) : Z := Z.of_nat (length l).

(** ** Bytes and strings *)

Abbreviation bytes := (list Z) (only parsing).
Definition is_bytes (bs : bytes) : Prop := Forall (in_uint 8) bs.
#[export] Instance is_bytes_dec bs : Decision (is_bytes bs).
Proof. unfold is_bytes. apply _. Defined.

Definition byte_of_ascii (a : ascii) : Z := Z.of_N (N_of_ascii a).
Definition ascii_of_byte (b : Z) : ascii := ascii_of_N (Z.to_N b).

(** [str::as_bytes]: a [string] is the list of its UTF-8 bytes. *)
Fixpoint as_bytes (s : string) : bytes :=
  match s with
  | EmptyString => []
  | String a s' => byte_of_ascii a :: as_bytes s'
  end.
Fixpoint from_bytes (bs : bytes) : string :=
  match bs with
  | [] => EmptyString
  | b :: bs' => String (ascii_of_byte b) (from_bytes bs')
  end.

(** [u8::is_ascii_digit] and its siblings. *)
Definition is_ascii_digit (b : Z) : bool := (48 <=? b) && (b <=? 57).
Definition is_ascii_lower (b : Z) : bool := (97 <=? b) && (b <=? 122).
Definition is_ascii_upper (b : Z) : bool := (65 <=? b) && (b <=? 90).
Definition is_ascii_alphabetic (b : Z) : bool := is_ascii_lower b || is_ascii_upper b.
Definition is_ascii_alphanumeric (b : Z) : bool := is_ascii_alphabetic b || is_ascii_digit b.

(** Little-endian and big-endian readings of a byte list. *)
Fixpoint le_value (bs : bytes) : Z :=
  match bs with [] => 0 | b :: bs' => b + 256 * le_value bs' end.
Definition be_value (bs : bytes) : Z := fold_left (fun acc b => acc * 256 + b) bs 0.
Fixpoint le_bytes (n : nat) (x : Z) : bytes :=
  match n with O => [] | S n' => x mod 256 :: le_bytes n' (x / 256) end.
Definition be_bytes (n : nat) (x : Z) : bytes := rev (le_bytes n x).

(** The loop that fills a decoding table: [lut[charset[i]] = i] for [n] indices
    starting at [i]. *)
Fixpoint fill_lut (charset : bytes) (n i : nat) (lut : list Z) : list Z :=
  match n with
  | O => lut
  | S n' => fill_lut charset n' (S i) (<[Z.to_nat (charset !!! i) := Z.of_nat i]> lut)
  end.

(** ** Decimal numerals (what [Display] prints for an unsigned integer) *)

Definition digit_ascii (d : Z) : ascii := ascii_of_byte (48 + d).

(** The least significant digit first; [fuel] bounds the number of digits. *)
Fixpoint dec_digits_rev (fuel : nat) (n : Z) : list Z :=
  match fuel with
  | O => []
  | S f => if n =? 0 then [] else n mod 10 :: dec_digits_rev f (n / 10)
  end.
Definition dec_fuel (n : Z) : nat := S (Z.to_nat (Z.log2 n)).
Definition dec_digits (n : Z) : list Z :=
  if n =? 0 then [0] else rev (dec_digits_rev (dec_fuel n) n).
Definition to_dec (n : Z) : string := from_bytes ((fun d => 48 + d) <$> dec_digits n).

Definition dec_value (ds : list Z) : Z := fold_left (fun acc d => acc * 10 + d) ds 0.

(** [str::parse::<uN>()]: an optional plus sign and digits; fails on the empty
    string, on a byte that is not a digit and on overflow of the width. *)
Fixpoint parse_digits (w : Z) (acc : Z) (bs : bytes) : option Z :=
  match bs with
  | [] => Some acc
  | b :: bs' =>
      if is_ascii_digit b then
        let acc' := acc * 10 + (b - 48) in
        if acc' <? 2 ^ w then parse_digits w acc' bs' else None
      else None
  end.
Definition parse_uint (w : Z) (s : string) : option Z :=
  match as_bytes s with
  | [] => None
  | 43 :: ((_ :: _) as digits) => parse_digits w 0 digits
  | bs => parse_digits w 0 bs
  end.

(** ** Integer lemmas *)

Lemma wrap_small w x : in_uint w x -> wrap w x = x.
Proof. intros H. apply Z.mod_small, H. Qed.

Lemma wrap_range w x : 0 <= w -> in_uint w (wrap w x).
Proof. intros H. apply Z.mod_pos_bound. lia. Qed.

Lemma wrap_wrap w x : 0 <= w -> wrap w (wrap w x) = wrap w x.
Proof. intros H. apply wrap_small, wrap_range, H. Qed.
#[export] Hint Resolve wrap_range : rust.

Lemma shiftr_div x k : 0 <= k -> Z.shiftr x k = x / 2 ^ k.
Proof. apply Z.shiftr_div_pow2. Qed.
Lemma land_mask x k : 0 <= k -> Z.land x (Z.ones k) = x mod 2 ^ k.
Proof. apply Z.land_ones. Qed.

(** [(a << k) | b] is addition when [b] fits below the shift. *)
Lemma lor_shiftl_add a b k :
  0 <= k -> 0 <= b < 2 ^ k -> Z.lor (Z.shiftl a k) b = a * 2 ^ k + b.
Proof.
  intros Hk Hb. rewrite <- Z.shiftl_mul_pow2 by lia.
  symmetry. rewrite Z.add_nocarry_lxor, Z.lxor_lor; [done| |];
  apply Z.bits_inj'; intros i Hi; rewrite Z.land_spec, Z.bits_0;
  (destruct (Z.lt_ge_cases i k);
   [rewrite Z.shiftl_spec_low by lia; done|]);
  replace b with (b mod 2 ^ k) by (apply Z.mod_small; lia);
  rewrite Z.mod_pow2_bits_high by lia; apply andb_false_r.
Qed.

(** ** Byte and string lemmas *)

Lemma byte_of_ascii_u8 a : in_uint 8 (byte_of_ascii a).
Proof.
  unfold in_uint, byte_of_ascii. pose proof (N_ascii_bounded a). lia.
Qed.
Lemma ascii_of_byte_of_ascii a : ascii_of_byte (byte_of_ascii a) = a.
Proof. unfold ascii_of_byte, byte_of_ascii. rewrite N2Z.id. apply ascii_N_embedding. Qed.
Lemma byte_of_ascii_of_byte b : in_uint 8 b -> byte_of_ascii (ascii_of_byte b) = b.
Proof.
  unfold in_uint, ascii_of_byte, byte_of_ascii. intros H.
  rewrite N_ascii_embedding by lia. lia.
Qed.

Lemma as_bytes_u8 s : is_bytes (as_bytes s).
Proof. induction s; constructor; auto using byte_of_ascii_u8. Qed.
Lemma from_bytes_as_bytes s : from_bytes (as_bytes s) = s.
Proof. induction s as [|a s IH]; cbn; [done|]. by rewrite ascii_of_byte_of_ascii, IH. Qed.
Lemma as_bytes_from_bytes bs : is_bytes bs -> as_bytes (from_bytes bs) = bs.
Proof.
  induction 1 as [|b bs Hb _ IH]; cbn; [done|]. by rewrite byte_of_ascii_of_byte, IH.
Qed.
Lemma as_bytes_inj s t : as_bytes s = as_bytes t -> s = t.
Proof.
  intros H. rewrite <- (from_bytes_as_bytes s), <- (from_bytes_as_bytes t). by rewrite H.
Qed.
Lemma as_bytes_app s t : as_bytes (s +:+ t) = as_bytes s ++ as_bytes t.
Proof. induction s as [|a s IH]; simpl; [done|]. by rewrite IH. Qed.
Lemma length_as_bytes s : length (as_bytes s) = String.length s.
Proof. induction s as [|a s IH]; simpl; [done|]. by rewrite IH. Qed.
#[export] Hint Resolve byte_of_ascii_u8 as_bytes_u8 : rust.

Lemma length_le_bytes n x : length (le_bytes n x) = n.
Proof. revert x; induction n as [|n IH]; intros x; cbn; [done|]. by rewrite IH. Qed.
Lemma le_bytes_u8 n x : is_bytes (le_bytes n x).
Proof.
  revert x; induction n as [|n IH]; intros x; constructor; [|apply IH].
  unfold in_uint. change (2 ^ 8) with 256. lia.
Qed.
Lemma le_value_le_bytes n x : le_value (le_bytes n x) = x mod 256 ^ Z.of_nat n.
Proof.
  revert x; induction n as [|n IH]; intros x; cbn [le_bytes le_value].
  - by rewrite Z.mod_1_r.
  - rewrite IH, Nat2Z.inj_succ, Z.pow_succ_r by lia.
    rewrite Z.rem_mul_r by lia. lia.
Qed.
Lemma le_bytes_le_value bs : is_bytes bs -> le_bytes (length bs) (le_value bs) = bs.
Proof.
  induction 1 as [|b bs Hb _ IH]; cbn [length le_bytes le_value]; [done|].
  unfold in_uint in Hb. f_equal; [lia|].
  transitivity (le_bytes (length bs) (le_value bs)); [|exact IH]. f_equal. lia.
Qed.
Lemma le_value_range bs : is_bytes bs -> 0 <= le_value bs < 256 ^ Z.of_nat (length bs).
Proof.
  induction 1 as [|b bs Hb _ IH]; cbn [length le_value]; [lia|].
  unfold in_uint in Hb. rewrite Nat2Z.inj_succ, Z.pow_succ_r by lia. lia.
Qed.
Lemma le_value_inj bs1 bs2 :
  is_bytes bs1 -> is_bytes bs2 -> length bs1 = length bs2 ->
  le_value bs1 = le_value bs2 -> bs1 = bs2.
Proof.
  intros H1 H2 Hl Hv. rewrite <- (le_bytes_le_value bs1), <- (le_bytes_le_value bs2) by done.
  by rewrite Hl, Hv.
Qed.

Lemma be_value_rev bs : be_value bs = le_value (rev bs).
Proof.
  induction bs as [|b bs IH] using rev_ind; [done|].
  unfold be_value. rewrite fold_left_app, rev_app_distr. cbn. fold (be_value bs). rewrite IH. lia.
Qed.
Lemma is_bytes_rev bs : is_bytes bs -> is_bytes (rev bs).
Proof. unfold is_bytes. rewrite !Forall_forall. intros H x Hx. apply H.
  apply list_elem_of_In. apply list_elem_of_In in Hx. by apply in_rev. Qed.
Lemma be_bytes_be_value bs : is_bytes bs -> be_bytes (length bs) (be_value bs) = bs.
Proof.
  intros H. unfold be_bytes. rewrite be_value_rev, <- (length_rev bs).
  rewrite le_bytes_le_value by (by apply is_bytes_rev). apply rev_involutive.
Qed.
Lemma length_be_bytes n x : length (be_bytes n x) = n.
Proof. unfold be_bytes. by rewrite length_rev, length_le_bytes. Qed.
Lemma be_bytes_u8 n x : is_bytes (be_bytes n x).
Proof. apply is_bytes_rev, le_bytes_u8. Qed.
Lemma be_value_be_bytes n x : be_value (be_bytes n x) = x mod 256 ^ Z.of_nat n.
Proof. unfold be_bytes. rewrite be_value_rev, rev_involutive. apply le_value_le_bytes. Qed.
Lemma be_value_range bs : is_bytes bs -> 0 <= be_value bs < 256 ^ Z.of_nat (length bs).
Proof.
  intros H. rewrite be_value_rev, <- (length_rev bs). by apply le_value_range, is_bytes_rev.
Qed.

Lemma list_eq_length_of_lookup {A B} (l : list A) (k : list B) :
  (forall i, is_Some (l !! i) <-> is_Some (k !! i)) -> length l = length k.
Proof.
  intros H. apply Nat.le_antisymm; apply Nat.nlt_ge; intros L;
    apply lookup_lt_is_Some in L; apply H, lookup_lt_is_Some in L; lia.
Qed.

(** Induction three bytes, or four characters, at a time. *)
Lemma list_ind3 {A} (P : list A -> Prop) :
  P [] -> (forall x, P [x]) -> (forall x y, P [x; y]) ->
  (forall x y z l, P l -> P (x :: y :: z :: l)) -> forall l, P l.
Proof.
  intros H0 H1 H2 H3. fix IH 1. intros [|x [|y [|z l]]]; [apply H0|apply H1|apply H2|apply H3, IH].
Qed.
Lemma list_ind4 {A} (P : list A -> Prop) :
  P [] -> (forall x, P [x]) -> (forall x y, P [x; y]) -> (forall x y z, P [x; y; z]) ->
  (forall x y z t l, P l -> P (x :: y :: z :: t :: l)) -> forall l, P l.
Proof.
  intros H0 H1 H2 H3 H4. fix IH 1. intros [|x [|y [|z [|t l]]]]; [apply H0|apply H1|apply H2|apply H3|apply H4, IH].
Qed.

(** Decide a closed proposition by evaluation. *)
Ltac by_decision := refine (bool_decide_unpack _ _); vm_compute; exact I.

(** Split the [Forall] facts about literal lists. *)
Ltac forall_inv :=
  repeat match goal with
  | H : is_bytes _ |- _ => unfold is_bytes in H
  | H : Forall _ (_ :: _) |- _ => apply Forall_cons in H as [? H]
  | H : Forall _ [] |- _ => clear H
  end; unfold in_uint in *.
