(* ===== verification/Strings.v ===== *)
(** * Operations of [str]

    The operations of the standard library on strings that several parts of the
    program use, on the UTF-8 bytes of the string, with their lemmas. *)
From S2P Require Import Prelude.

(** ** Prefixes, suffixes and separators *)

Definition strip_prefix (p s : bytes) : option bytes :=
  if bool_decide (take (length p) s = p) then Some (drop (length p) s) else None.

Definition strip_suffix (p s : bytes) : option bytes :=
  if bool_decide (drop (length s - length p) s = p) then Some (take (length s - length p) s) else None.

(** [str::split_once] at a one-byte separator. *)
Fixpoint split_once (sep : Z) (s : bytes) : option (bytes * bytes) :=
  match s with
  | [] => None
  | b :: s' => if b =? sep then Some ([], s') else
                 p ← split_once sep s'; Some (b :: p.1, p.2)
  end.

(** [str::split] at a one-byte separator. *)
Fixpoint split_on (sep : Z) (s : bytes) : list bytes :=
  match s with
  | [] => [[]]
  | b :: s =>
      if b =? sep then [] :: split_on sep s
      else match split_on sep s with p :: ps => (b :: p) :: ps | [] => [[b]] end
  end.
(** [str::contains]. *)
Fixpoint occurs (pat s : bytes) : bool :=
  bool_decide (take (length pat) s = pat) || match s with [] => false | _ :: s => occurs pat s end.

(** [join]. *)
Fixpoint join_with (sep : bytes) (ps : list bytes) : bytes :=
  match ps with
  | [] => []
  | [p] => p
  | p :: ps => p ++ sep ++ join_with sep ps
  end.

(** ** Case and white space *)

(** [u8::to_ascii_lowercase]. *)
Definition to_lower (b : Z) : Z := if is_ascii_upper b then b + 32 else b.

Definition to_ascii_lowercase (s : bytes) : bytes := to_lower <$> s.

(** The characters with the property White_Space, as UTF-8. *)
Definition WHITE_SPACE : list bytes :=
  [[9]; [10]; [11]; [12]; [13]; [32]; [194; 133]; [194; 160]; [225; 154; 128]] ++
  ((fun k => [226; 128; k]) <$> [128; 129; 130; 131; 132; 133; 134; 135; 136; 137; 138; 168; 169; 175]) ++
  [[226; 129; 159]; [227; 128; 128]].

Fixpoint strip_first (f : bytes -> option bytes) (ps : list bytes) (s : bytes) : option bytes :=
  match ps with
  | [] => None
  | p :: ps => if bool_decide (take (length p) s = p) then f (drop (length p) s) else strip_first f ps s
  end.

(** [trim_start]: [fuel] is the length of the text, as every step removes a byte. *)
Fixpoint trim_loop (ps : list bytes) (fuel : nat) (s : bytes) : bytes :=
  match fuel with
  | O => s
  | S fuel => match strip_first Some ps s with Some s => trim_loop ps fuel s | None => s end
  end.
Definition trim_start (s : bytes) : bytes := trim_loop WHITE_SPACE (length s) s.
Definition trim_end (s : bytes) : bytes := rev (trim_loop (@rev Z <$> WHITE_SPACE) (length s) (rev s)).
Definition trim (s : bytes) : bytes := trim_end (trim_start s).

(** [split_whitespace]: the words between white space. *)
Fixpoint words_loop (fuel : nat) (word : bytes) (s : bytes) : list bytes :=
  let flush := match word with [] => [] | _ => [rev word] end in
  match fuel with
  | O => flush
  | S fuel =>
      match s with
      | [] => flush
      | b :: s' =>
          match strip_first Some WHITE_SPACE s with
          | Some rest => flush ++ words_loop fuel [] rest
          | None => words_loop fuel (b :: word) s'
          end
      end
  end.
Definition split_whitespace (s : bytes) : list bytes := words_loop (S (length s)) [] s.

(** ** Lemmas *)

Lemma forallb_Forall {A} (f : A -> bool) l : forallb f l = true <-> Forall (fun x => f x = true) l.
Proof.
  induction l as [|x l IH]; [done|]. cbn [forallb]. by rewrite andb_true_iff, IH, Forall_cons.
Qed.

Lemma strip_prefix_Some p s rest : strip_prefix p s = Some rest <-> s = p ++ rest.
Proof.
  unfold strip_prefix. case_bool_decide as E; split.
  - intros [= <-]. rewrite <- E at 1. by rewrite take_drop.
  - intros ->. by rewrite drop_app_length.
  - done.
  - intros ->. by rewrite take_app_length in E.
Qed.
Lemma strip_prefix_app p s : strip_prefix p (p ++ s) = Some s.
Proof. by apply strip_prefix_Some. Qed.

Lemma split_once_app sep a b :
  Forall (fun x => x <> sep) a -> split_once sep (a ++ sep :: b) = Some (a, b).
Proof.
  induction 1 as [|x a Hx _ IH]; cbn [app split_once].
  - by rewrite Z.eqb_refl.
  - rewrite (proj2 (Z.eqb_neq _ _) Hx), IH. done.
Qed.
Lemma split_once_none sep s : Forall (fun x => x <> sep) s -> split_once sep s = None.
Proof.
  induction 1 as [|x s Hx _ IH]; [done|]. cbn [split_once]. by rewrite (proj2 (Z.eqb_neq _ _) Hx), IH.
Qed.
Lemma split_on_app sep a b : Forall (fun x => x <> sep) a -> split_on sep (a ++ sep :: b) = a :: split_on sep b.
Proof.
  induction 1 as [|x a Hx _ IH]; cbn [app split_on]; [by rewrite Z.eqb_refl|].
  by rewrite (proj2 (Z.eqb_neq _ _) Hx), IH.
Qed.
Lemma split_on_none sep a : Forall (fun x => x <> sep) a -> split_on sep a = [a].
Proof.
  induction 1 as [|x a Hx _ IH]; [done|]. cbn [split_on]. by rewrite (proj2 (Z.eqb_neq _ _) Hx), IH.
Qed.
Lemma split_on_cons sep s : exists p ps, split_on sep s = p :: ps.
Proof. induction s as [|b s (p & ps & IH)]; cbn; [eauto|]. rewrite IH. destruct (b =? sep); eauto. Qed.
Lemma split_on_length sep s : (length s + 1 = length (split_on sep s) + list_sum (length <$> split_on sep s))%nat.
Proof.
  induction s as [|b s IH]; [done|]. cbn [split_on]. destruct (split_on_cons sep s) as (p & ps & E).
  rewrite E in *. destruct (b =? sep); cbn in *; lia.
Qed.

(** ** Trimming *)

Lemma strip_first_suffix ps s t : strip_first Some ps s = Some t -> exists p, s = p ++ t.
Proof.
  induction ps as [|p ps IH]; cbn; [done|]. case_bool_decide as E; [|done].
  intros [= <-]. exists p. rewrite <- E at 1. by rewrite take_drop.
Qed.
Lemma trim_loop_suffix ps fuel s : exists p, s = p ++ trim_loop ps fuel s.
Proof.
  revert s. induction fuel as [|fuel IH]; intros s; cbn [trim_loop]; [by exists []|].
  destruct (strip_first Some ps s) as [t|] eqn:E; [|by exists []].
  apply strip_first_suffix in E as [p ->]. destruct (IH t) as [q Hq]. exists (p ++ q). by rewrite <- app_assoc, <- Hq.
Qed.
Lemma trim_start_suffix s : exists p, s = p ++ trim_start s.
Proof. apply trim_loop_suffix. Qed.
Lemma trim_end_prefix s : exists q, s = trim_end s ++ q.
Proof.
  unfold trim_end. destruct (trim_loop_suffix (@rev Z <$> WHITE_SPACE) (length s) (rev s)) as [p Hp].
  exists (rev p). rewrite <- (rev_involutive s) at 1. by rewrite Hp at 1; rewrite rev_app_distr.
Qed.
(** The trimmed text is a part of the text. *)
Lemma trim_part s : exists p q, s = p ++ trim s ++ q /\ length p = (length s - length (trim_start s))%nat.
Proof.
  destruct (trim_start_suffix s) as [p Hp], (trim_end_prefix (trim_start s)) as [q Hq].
  exists p, q. unfold trim. split; [by rewrite <- Hq|].
  apply (f_equal length) in Hp. rewrite length_app in Hp. lia.
Qed.

Lemma split_on_join sep ps : ps <> [] -> Forall (Forall (fun x => x <> sep)) ps -> split_on sep (join_with [sep] ps) = ps.
Proof.
  intros Hne H. induction H as [|p ps Hp Hps IH]; [done|]. destruct ps as [|q ps]; cbn [join_with].
  - by apply split_on_none.
  - cbn [app]. rewrite split_on_app by done. f_equal. by apply IH.
Qed.

Lemma strip_suffix_app p s : strip_suffix p (s ++ p) = Some s.
Proof.
  unfold strip_suffix. rewrite length_app, Nat.add_sub, drop_app_length, take_app_length.
  by rewrite bool_decide_eq_true_2.
Qed.
Lemma strip_suffix_Some p s rest : strip_suffix p s = Some rest <-> s = rest ++ p.
Proof.
  split; [|intros ->; apply strip_suffix_app]. unfold strip_suffix. case_bool_decide as E; [|done].
  intros [= <-]. rewrite <- E at 2. by rewrite take_drop.
Qed.
