(* ===== verification/Numerals.v ===== *)
(** * Numerals

    Positional numerals of fixed length (for the base-62 and base-32 codes), and
    lemmas on [to_dec] (what [Display] and [itoa] print for an unsigned integer)
    and [parse_uint] ([str::parse] at an unsigned type): printing then parsing,
    injectivity, and the number of digits. *)
From S2P Require Import Prelude.

(** ** Fixed-length positional numerals in base [B] *)

(** The [n] digits of [x], most significant first, and the value of digits. *)
Fixpoint digits (B : Z) (n : nat) (x : Z) : list Z :=
  match n with O => [] | S n' => digits B n' (x / B) ++ [x mod B] end.
Definition positional (B : Z) (ds : list Z) : Z := fold_left (fun acc d => acc * B + d) ds 0.

Section positional.
Context (B : Z) (HB : 1 < B).

Lemma length_digits n x : length (digits B n x) = n.
Proof.
  revert x; induction n as [|n IH]; intros x; cbn; [done|].
  rewrite length_app, IH. cbn. lia.
Qed.

Lemma digits_range n x : Forall (fun d => 0 <= d < B) (digits B n x).
Proof.
  revert x; induction n as [|n IH]; intros x; cbn; [constructor|].
  apply Forall_app; split; [apply IH|]. constructor; [|constructor].
  apply Z.mod_pos_bound. lia.
Qed.

Lemma pow_B_pos n : 0 < B ^ Z.of_nat n.
Proof. apply Z.pow_pos_nonneg; lia. Qed.

Lemma digits_app m n x : digits B (m + n) x = digits B m (x / B ^ Z.of_nat n) ++ digits B n x.
Proof.
  revert x; induction n as [|n IH]; intros x.
  - rewrite Nat.add_0_r, Z.div_1_r. cbn. by rewrite app_nil_r.
  - rewrite Nat.add_succ_r. cbn [digits]. rewrite IH, app_assoc. do 2 f_equal.
    pose proof (pow_B_pos n).
    rewrite Nat2Z.inj_succ, Z.pow_succ_r, Z.div_div by lia. done.
Qed.

Lemma digits_mod n x : digits B n (x mod B ^ Z.of_nat n) = digits B n x.
Proof.
  revert x; induction n as [|n IH]; intros x; cbn [digits]; [done|].
  rewrite Nat2Z.inj_succ, Z.pow_succ_r by lia. pose proof (pow_B_pos n).
  rewrite Z.rem_mul_r by lia. set (y := (x / B) mod B ^ Z.of_nat n).
  pose proof (Z.mod_pos_bound x B ltac:(lia)).
  rewrite (Z.mul_comm B y), Z.div_add, Z.mod_add by lia.
  rewrite (Z.div_small (x mod B)), (Z.mod_small (x mod B)) by lia. subst y.
  by rewrite Z.add_0_l, IH.
Qed.

Lemma positional_app acc ds :
  fold_left (fun acc d => acc * B + d) ds acc = acc * B ^ Z.of_nat (length ds) + positional B ds.
Proof.
  unfold positional. revert acc; induction ds as [|d ds IH]; intros acc; cbn [fold_left length].
  - lia.
  - rewrite IH, (IH (0 * B + d)), Nat2Z.inj_succ, Z.pow_succ_r by lia. ring.
Qed.

Lemma positional_snoc ds d : positional B (ds ++ [d]) = positional B ds * B + d.
Proof. unfold positional. by rewrite fold_left_app. Qed.

Lemma positional_cons d ds :
  positional B (d :: ds) = d * B ^ Z.of_nat (length ds) + positional B ds.
Proof. unfold positional at 1. cbn [fold_left]. rewrite positional_app. lia. Qed.

Lemma positional_digits n x : positional B (digits B n x) = x mod B ^ Z.of_nat n.
Proof.
  revert x; induction n as [|n IH]; intros x; cbn [digits]; [by rewrite Z.mod_1_r|].
  rewrite positional_snoc, IH, Nat2Z.inj_succ, Z.pow_succ_r by lia.
  pose proof (pow_B_pos n). rewrite (Z.rem_mul_r x B); lia.
Qed.

Lemma digits_positional ds :
  Forall (fun d => 0 <= d < B) ds -> digits B (length ds) (positional B ds) = ds.
Proof.
  induction ds as [|d ds IH] using rev_ind; [done|]. rewrite Forall_app, Forall_singleton.
  intros [H1 H2]. rewrite length_app, Nat.add_comm. cbn [length Nat.add digits].
  rewrite positional_snoc, Z.div_add_l, (Z.div_small d), Z.add_0_r by lia.
  rewrite IH by done. do 2 f_equal. rewrite Z.add_comm, Z.mod_add by lia. apply Z.mod_small. lia.
Qed.

Lemma positional_nonneg ds : Forall (fun d => 0 <= d < B) ds -> 0 <= positional B ds.
Proof.
  intros H. rewrite <- (digits_positional ds H), positional_digits.
  apply Z.mod_pos_bound, pow_B_pos.
Qed.
End positional.

(** ** Decimal numerals *)

Lemma dec_digits_rev_range fuel n : Forall (fun d => 0 <= d < 10) (dec_digits_rev fuel n).
Proof.
  revert n; induction fuel as [|f IH]; intros n; cbn; [constructor|].
  destruct (n =? 0); constructor; [lia|apply IH].
Qed.

(** Value of a list of digits with the least significant first. *)
Fixpoint value_rev (ds : list Z) : Z :=
  match ds with [] => 0 | d :: ds' => d + 10 * value_rev ds' end.

Lemma value_rev_digits fuel n :
  0 <= n < 2 ^ Z.of_nat fuel -> value_rev (dec_digits_rev fuel n) = n.
Proof.
  revert n; induction fuel as [|f IH]; intros n Hn; cbn [dec_digits_rev].
  - cbn in *. lia.
  - destruct (Z.eqb_spec n 0) as [->|Hz]; [done|]. cbn [value_rev].
    rewrite Nat2Z.inj_succ, Z.pow_succ_r in Hn by lia. rewrite IH by lia. lia.
Qed.

Lemma dec_fuel_enough n : 0 <= n -> n < 2 ^ Z.of_nat (dec_fuel n).
Proof.
  intros Hn. unfold dec_fuel. rewrite Nat2Z.inj_succ, Z2Nat.id by apply Z.log2_nonneg.
  destruct (Z.eq_dec n 0) as [->|]; [done|]. apply Z.log2_spec. lia.
Qed.

Lemma fold_dec_rev ds : fold_left (fun acc d => acc * 10 + d) (rev ds) 0 = value_rev ds.
Proof.
  induction ds as [|d ds IH]; [done|]. cbn [rev value_rev]. rewrite fold_left_app, IH. cbn. lia.
Qed.

Lemma dec_digits_value n : 0 <= n -> dec_value (dec_digits n) = n.
Proof.
  intros Hn. unfold dec_value, dec_digits. destruct (Z.eqb_spec n 0) as [->|]; [done|].
  rewrite fold_dec_rev. apply value_rev_digits. split; [done|by apply dec_fuel_enough].
Qed.

Lemma dec_digits_range n : Forall (fun d => 0 <= d < 10) (dec_digits n).
Proof.
  unfold dec_digits. destruct (n =? 0); [repeat constructor; lia|].
  rewrite Forall_forall. intros d Hd. apply list_elem_of_In, in_rev, list_elem_of_In in Hd.
  pose proof (dec_digits_rev_range (dec_fuel n) n) as H. rewrite Forall_forall in H. auto.
Qed.

Lemma dec_digits_cons n : exists d ds, dec_digits n = d :: ds.
Proof.
  unfold dec_digits. destruct (Z.eqb_spec n 0); [eauto|].
  destruct (rev _) as [|d ds] eqn:E; [|eauto]. exfalso.
  apply (f_equal (@rev Z)) in E. rewrite rev_involutive in E. unfold dec_fuel in E.
  cbn [dec_digits_rev] in E. destruct (Z.eqb_spec n 0); done.
Qed.

Definition dec_bytes (n : Z) : bytes := (fun d => 48 + d) <$> dec_digits n.

Lemma dec_bytes_digits n : Forall (fun b => is_ascii_digit b = true) (dec_bytes n).
Proof.
  apply Forall_fmap. eapply Forall_impl; [apply dec_digits_range|]. intros d Hd. cbv beta in *. unfold compose.
  unfold is_ascii_digit. rewrite andb_true_iff, !Z.leb_le. lia.
Qed.

Lemma digit_u8 b : is_ascii_digit b = true -> in_uint 8 b.
Proof. unfold is_ascii_digit, in_uint. rewrite andb_true_iff, !Z.leb_le. lia. Qed.

Lemma dec_bytes_u8 n : is_bytes (dec_bytes n).
Proof. eapply Forall_impl; [apply dec_bytes_digits|apply digit_u8]. Qed.

Lemma as_bytes_to_dec n : as_bytes (to_dec n) = dec_bytes n.
Proof. apply as_bytes_from_bytes, dec_bytes_u8. Qed.

Lemma parse_digits_dec w acc ds :
  Forall (fun d => 0 <= d < 10) ds -> 0 <= acc ->
  fold_left (fun acc d => acc * 10 + d) ds acc < 2 ^ w ->
  parse_digits w acc ((fun d => 48 + d) <$> ds) = Some (fold_left (fun acc d => acc * 10 + d) ds acc).
Proof.
  intros Hd. revert acc. induction Hd as [|d ds Hd Hds IH]; intros acc Ha Hlt; [done|].
  cbn [fmap list_fmap parse_digits fold_left] in *.
  replace (is_ascii_digit (48 + d)) with true
    by (symmetry; unfold is_ascii_digit; rewrite andb_true_iff, !Z.leb_le; lia).
  replace (acc * 10 + (48 + d - 48)) with (acc * 10 + d) by lia.
  assert (M : acc * 10 + d <= fold_left (fun acc d => acc * 10 + d) ds (acc * 10 + d)).
  { assert (G : forall a, 0 <= a -> a <= fold_left (fun acc d => acc * 10 + d) ds a).
    { clear -Hds. induction Hds as [|e es He _ IHs]; intros a Ha; cbn; [lia|].
      specialize (IHs (a * 10 + e) ltac:(lia)). lia. }
    apply G. lia. }
  destruct (Z.ltb_spec (acc * 10 + d) (2 ^ w)); [|lia]. apply IH; lia.
Qed.

Lemma parse_uint_digits w bs :
  bs <> [] -> Forall (fun b => is_ascii_digit b = true) bs ->
  parse_uint w (from_bytes bs) = parse_digits w 0 bs.
Proof.
  intros Hn Hd. unfold parse_uint.
  rewrite as_bytes_from_bytes by (eapply Forall_impl; [exact Hd|apply digit_u8]).
  destruct bs as [|b bs]; [done|]. apply Forall_cons in Hd as [Hb _].
  assert (b <> 43) by (intros ->; done).
  destruct b as [|p|p]; [done| |done].
  repeat (destruct p as [p|p|]; try done; try (destruct bs; done)).
Qed.

Lemma parse_to_dec w n : 0 <= n < 2 ^ w -> parse_uint w (to_dec n) = Some n.
Proof.
  intros Hn. unfold to_dec. destruct (dec_digits_cons n) as (d & ds & E).
  rewrite parse_uint_digits; [|by rewrite E|apply dec_bytes_digits].
  rewrite parse_digits_dec; [|apply dec_digits_range|done|].
  - f_equal. apply dec_digits_value. lia.
  - fold (dec_value (dec_digits n)). rewrite dec_digits_value; lia.
Qed.

Lemma to_dec_inj n m : 0 <= n -> 0 <= m -> to_dec n = to_dec m -> n = m.
Proof.
  intros Hn Hm E. rewrite <- (dec_digits_value n Hn), <- (dec_digits_value m Hm). f_equal.
  apply (f_equal as_bytes) in E. rewrite !as_bytes_to_dec in E. unfold dec_bytes in E.
  assert (I : Inj eq eq (fun d => 48 + d)) by (intros x y; lia).
  exact (list_fmap_eq_inj _ I _ _ E).
Qed.

Lemma length_digits_rev_bound fuel n k :
  0 <= n < 10 ^ Z.of_nat k -> (length (dec_digits_rev fuel n) <= k)%nat.
Proof.
  revert n k; induction fuel as [|f IH]; intros n k Hn; cbn; [lia|].
  destruct (Z.eqb_spec n 0); cbn; [lia|]. destruct k as [|k]; [cbn in Hn; lia|].
  rewrite Nat2Z.inj_succ, Z.pow_succ_r in Hn by lia. specialize (IH (n / 10) k ltac:(lia)). lia.
Qed.

Lemma length_to_dec n k :
  (0 < k)%nat -> 0 <= n < 10 ^ Z.of_nat k -> (String.length (to_dec n) <= k)%nat.
Proof.
  intros Hk Hn. rewrite <- length_as_bytes, as_bytes_to_dec. unfold dec_bytes.
  rewrite length_fmap. unfold dec_digits. destruct (n =? 0); [cbn; lia|].
  rewrite length_rev. by apply length_digits_rev_bound.
Qed.
