(* ===== verification/Base62.v ===== *)
(** * Fixed-length base62 (src/src/common/utils/base62.rs)

    The codec of 128-bit identifiers: [encode_fixed] splits a [u128] with two
    multiply-and-shift divisions by 62^10 and writes 22 characters into the
    caller's buffer; [decode_fixed] accumulates with checked arithmetic.  The
    theorems: the fast division is exact on every [u128], the output does not
    depend on the buffer's former contents, the two functions are inverse on
    all of [u128] and on all accepted buffers, and each error is returned
    exactly when its condition holds. *)
From S2P Require Import Prelude Numerals.

(** ** Definitions *)

Definition BASE : Z := 62.
Definition BASE62_LEN : nat := 22.
Definition BASE_TO_10 : Z := 839299365868340224.
Definition DIV_BASE_TO_10_MULTIPLY : Z := 233718071534448225491982379416108680074.
Definition DIV_BASE_TO_10_SHIFT : Z := 59.

Definition CHARSET : bytes :=
  as_bytes "0123456789ABCDEFGHIJKLMNOPQRSTUVWXYZabcdefghijklmnopqrstuvwxyz".

Definition DECODE_LUT : list Z := fill_lut CHARSET 62 0 (replicate 256 255).

Inductive DecodeError : Type :=
| ArithmeticOverflow
| InvalidCharacter (byte : Z) (position : nat).

(** Every operation below is on [u128] and wraps at 128 bits. *)
Definition mulh (x y : Z) : Z :=
  let x_lo := wrap 64 x in
  let x_hi := Z.shiftr x 64 in
  let y_lo := wrap 64 y in
  let y_hi := Z.shiftr y 64 in
  let z0 := wrap 128 (x_lo * y_lo) in
  let z1 := wrap 128 (x_lo * y_hi) in
  let z2 := wrap 128 (x_hi * y_lo) in
  let z3 := wrap 128 (x_hi * y_hi) in
  let carry := wrap 128 (wrap 128 (Z.shiftr z0 64 + wrap 64 z1) + wrap 64 z2) in
  wrap 128 (wrap 128 (wrap 128 (z3 + Z.shiftr z1 64) + Z.shiftr z2 64) + Z.shiftr carry 64).

Definition fast_div_base_to_10 (num : Z) : Z * Z :=
  let quotient := Z.shiftr (mulh num DIV_BASE_TO_10_MULTIPLY) DIV_BASE_TO_10_SHIFT in
  let remainder := wrap 128 (num - wrap 128 (quotient * BASE_TO_10)) in
  (quotient, wrap 64 remainder).

(** [for i in (0..len).rev()]: [n] counts the positions still to write, the
    next one being [n - 1]; [ptr] is the offset of the chunk in the buffer. *)
Fixpoint encode_u64_chunk (num : Z) (n : nat) (ptr : nat) (buf : bytes) : bytes :=
  match n with
  | O => buf
  | S i =>
      let digit := num mod BASE in
      encode_u64_chunk (num / BASE) i ptr (<[(ptr + i)%nat := CHARSET !!! Z.to_nat digit]> buf)
  end.

Definition encode_fixed (num : Z) (buf : bytes) : bytes :=
  let '(quotient, low) := fast_div_base_to_10 num in
  let '(high, mid) := fast_div_base_to_10 quotient in
  let buf := encode_u64_chunk low 10 12 buf in
  let buf := encode_u64_chunk mid 10 2 buf in
  encode_u64_chunk (wrap 64 high) 2 0 buf.

Definition checked_u128 (x : Z) : option Z := if x <? 2 ^ 128 then Some x else None.

(** [result.checked_mul(BASE).and_then(|r| r.checked_add(value))]. *)
Definition accumulate (r value : Z) : option Z :=
  r ← checked_u128 (r * BASE); checked_u128 (r + value).

Fixpoint decode_loop (position : nat) (result : Z) (buf : bytes)
  : Prelude.result DecodeError Z :=
  match buf with
  | [] => Ok result
  | byte :: buf' =>
      let value := DECODE_LUT !!! Z.to_nat byte in
      if value =? 255 then Err (InvalidCharacter byte position)
      else match accumulate result value with
           | None => Err ArithmeticOverflow
           | Some r => decode_loop (S position) r buf'
           end
  end.

Definition decode_fixed (buf : bytes) : Prelude.result DecodeError Z := decode_loop 0 0 buf.

(** ** Specification: positional numerals *)

Definition encode_spec (num : Z) : bytes :=
  (fun d => CHARSET !!! Z.to_nat d) <$> digits 62 BASE62_LEN num.

Definition value_of (byte : Z) : Z := DECODE_LUT !!! Z.to_nat byte.
Definition valid_char (byte : Z) : Prop := value_of byte <> 255.
Abbreviation value62 := (positional 62).

(** ** Tables *)

Lemma charset_lut_check :
  forallb (fun i => (DECODE_LUT !!! Z.to_nat (CHARSET !!! i)) =? Z.of_nat i)
    (seq 0 62) = true.
Proof. vm_compute. reflexivity. Qed.

Lemma lut_charset_check :
  forallb (fun b => let v := DECODE_LUT !!! b in
            (v =? 255) || ((v <? 62) && (0 <=? v) && (CHARSET !!! Z.to_nat v =? Z.of_nat b)))
    (seq 0 256) = true.
Proof. vm_compute. reflexivity. Qed.

Lemma charset_u8_check : forallb (fun b => (0 <=? b) && (b <? 256)) CHARSET = true.
Proof. vm_compute. reflexivity. Qed.

Lemma value_of_char d : 0 <= d < 62 -> value_of (CHARSET !!! Z.to_nat d) = d.
Proof.
  intros Hd. pose proof charset_lut_check as H. rewrite forallb_forall in H.
  specialize (H (Z.to_nat d)). unfold value_of.
  rewrite (proj1 (Z.eqb_eq _ _) (H ltac:(apply in_seq; lia))). lia.
Qed.

Lemma value_of_valid b :
  in_uint 8 b -> valid_char b -> 0 <= value_of b < 62 /\ CHARSET !!! Z.to_nat (value_of b) = b.
Proof.
  unfold in_uint. intros Hb Hv. pose proof lut_charset_check as H. rewrite forallb_forall in H.
  specialize (H (Z.to_nat b) ltac:(apply in_seq; lia)). cbv zeta in H.
  fold (value_of b) in H. unfold valid_char in Hv.
  rewrite orb_true_iff, !andb_true_iff, !Z.eqb_eq, Z.ltb_lt, Z.leb_le in H. lia.
Qed.

Lemma charset_u8 d : 0 <= d < 62 -> in_uint 8 (CHARSET !!! Z.to_nat d).
Proof.
  intros Hd. pose proof charset_u8_check as H. rewrite forallb_forall in H.
  destruct (CHARSET !! Z.to_nat d) as [c|] eqn:E.
  - rewrite (list_lookup_total_correct _ _ _ E).
    specialize (H c (proj1 (list_elem_of_In _ _) (list_elem_of_lookup_2 _ _ _ E))).
    unfold in_uint. lia.
  - apply lookup_ge_None in E. change (length CHARSET) with 62%nat in E. lia.
Qed.

(** ** The fast division *)

Lemma mulh_exact x y : in_uint 128 x -> in_uint 128 y -> mulh x y = (x * y) / 2 ^ 128.
Proof.
  unfold in_uint, mulh. intros Hx Hy. rewrite !shiftr_div by lia. unfold wrap.
  set (xl := x mod 2 ^ 64). set (xh := x / 2 ^ 64).
  set (yl := y mod 2 ^ 64). set (yh := y / 2 ^ 64).
  assert (Ex : x = xh * 2 ^ 64 + xl) by (subst xl xh; lia).
  assert (Ey : y = yh * 2 ^ 64 + yl) by (subst yl yh; lia).
  assert (Bxl : 0 <= xl < 2 ^ 64) by (subst xl; lia).
  assert (Byl : 0 <= yl < 2 ^ 64) by (subst yl; lia).
  assert (Bxh : 0 <= xh < 2 ^ 64) by (subst xh; lia).
  assert (Byh : 0 <= yh < 2 ^ 64) by (subst yh; lia).
  clearbody xl xh yl yh.
  assert (P : forall a b, 0 <= a < 2 ^ 64 -> 0 <= b < 2 ^ 64 ->
              0 <= a * b <= (2 ^ 64 - 1) * (2 ^ 64 - 1)) by (intros; nia).
  pose proof (P xl yl Bxl Byl) as P0. pose proof (P xl yh Bxl Byh) as P1.
  pose proof (P xh yl Bxh Byl) as P2. pose proof (P xh yh Bxh Byh) as P3.
  assert (E : x * y = xh * yh * 2 ^ 128 + (xl * yh + xh * yl) * 2 ^ 64 + xl * yl)
    by (rewrite Ex, Ey; ring).
  rewrite E. clear E Ex Ey Hx Hy x y P.
  set (z0 := xl * yl) in *. set (z1 := xl * yh) in *.
  set (z2 := xh * yl) in *. set (z3 := xh * yh) in *. clearbody z0 z1 z2 z3.
  rewrite (Z.mod_small z0), (Z.mod_small z1), (Z.mod_small z2), (Z.mod_small z3) by lia.
  lia.
Qed.

Lemma fast_div_exact num :
  in_uint 128 num -> fast_div_base_to_10 num = (num / BASE_TO_10, num mod BASE_TO_10).
Proof.
  intros Hn. unfold fast_div_base_to_10.
  rewrite mulh_exact by (done || (unfold in_uint; vm_compute; split; congruence)).
  rewrite shiftr_div by (vm_compute; congruence).
  assert (Eq : num * DIV_BASE_TO_10_MULTIPLY / 2 ^ 128 / 2 ^ DIV_BASE_TO_10_SHIFT
               = num / BASE_TO_10).
  { unfold in_uint in Hn. rewrite Z.div_div by (vm_compute; congruence || lia).
    change (2 ^ 128 * 2 ^ DIV_BASE_TO_10_SHIFT) with (2 ^ 187).
    unfold DIV_BASE_TO_10_MULTIPLY, BASE_TO_10. symmetry.
    apply (Z.div_unique _ _ _ (num * 233718071534448225491982379416108680074
      - num / 839299365868340224 * 2 ^ 187)); [left; split|]; lia. }
  rewrite Eq. unfold in_uint in Hn. unfold wrap, BASE_TO_10. f_equal. lia.
Qed.

(** ** Encoding *)

Lemma encode_chunk_spec num n ptr buf :
  (ptr + n <= length buf)%nat ->
  encode_u64_chunk num n ptr buf
  = take ptr buf ++ ((fun d => CHARSET !!! Z.to_nat d) <$> digits 62 n num)
      ++ drop (ptr + n) buf.
Proof.
  revert num buf. induction n as [|n IH]; intros num buf Hl; cbn [encode_u64_chunk digits].
  - rewrite Nat.add_0_r. cbn. by rewrite take_drop.
  - rewrite IH by (rewrite length_insert; lia). rewrite fmap_app, <- app_assoc.
    rewrite take_insert_ge by lia. do 2 f_equal. cbn.
    rewrite insert_take_drop by lia.
    rewrite drop_app_ge by (rewrite length_take; lia).
    rewrite length_take_le by lia. replace (ptr + n - (ptr + n))%nat with 0%nat by lia.
    cbn. by replace (S (ptr + n)) with (ptr + S n)%nat by lia.
Qed.

Lemma length_encode_chunk num n ptr buf :
  length (encode_u64_chunk num n ptr buf) = length buf.
Proof.
  revert num buf; induction n as [|n IH]; intros num buf; cbn; [done|].
  by rewrite IH, length_insert.
Qed.

Lemma encode_fixed_eq num buf :
  in_uint 128 num -> length buf = BASE62_LEN -> encode_fixed num buf = encode_spec num.
Proof.
  intros Hn Hl. unfold encode_fixed. rewrite fast_div_exact by done.
  assert (Hq : in_uint 128 (num / BASE_TO_10)) by (unfold in_uint, BASE_TO_10 in *; lia).
  rewrite fast_div_exact by done. unfold BASE62_LEN in Hl.
  rewrite wrap_small by (unfold in_uint, BASE_TO_10 in *; lia).
  rewrite (encode_chunk_spec _ 2 0) by (rewrite !length_encode_chunk; lia).
  rewrite (encode_chunk_spec _ 10 2) by (rewrite length_encode_chunk; lia).
  rewrite (encode_chunk_spec _ 10 12) by lia.
  do 23 (destruct buf as [|? buf]; cbn in Hl; try lia). cbn [take drop app Nat.add].
  unfold encode_spec, BASE62_LEN.
  change 22%nat with (2 + (10 + 10))%nat. rewrite digits_app by lia; rewrite !fmap_app. f_equal.
  { change (62 ^ Z.of_nat (10 + 10)) with (BASE_TO_10 * BASE_TO_10).
    rewrite <- Z.div_div by (unfold BASE_TO_10; lia). done. }
  rewrite digits_app by lia; rewrite fmap_app. change (62 ^ Z.of_nat 10) with BASE_TO_10.
  pose proof (digits_mod 62 ltac:(lia) 10 (num / BASE_TO_10)) as E1.
  pose proof (digits_mod 62 ltac:(lia) 10 num) as E2.
  change (62 ^ Z.of_nat 10) with BASE_TO_10 in E1, E2. rewrite <- E1, <- E2.
  set (l1 := digits 62 10 ((num / BASE_TO_10) mod BASE_TO_10)).
  set (l2 := digits 62 10 (num mod BASE_TO_10)).
  assert (L1 : length l1 = 10%nat) by apply length_digits.
  assert (L2 : length l2 = 10%nat) by apply length_digits.
  clearbody l1 l2.
  do 11 (destruct l1 as [|? l1]; cbn in L1; try lia).
  do 11 (destruct l2 as [|? l2]; cbn in L2; try lia). done.
Qed.

(** ** Decoding *)

Lemma accumulate_spec r v :
  0 <= r -> 0 <= v ->
  accumulate r v = if r * 62 + v <? 2 ^ 128 then Some (r * 62 + v) else None.
Proof.
  intros Hr Hv. unfold accumulate, checked_u128, BASE.
  destruct (Z.ltb_spec (r * 62) (2 ^ 128)); cbn; [done|].
  destruct (Z.ltb_spec (r * 62 + v) (2 ^ 128)); [lia|done].
Qed.

(** What [decode_fixed] reports, as a function of the prefix read so far. *)
Definition decode_post (r : Prelude.result DecodeError Z) (acc : Z) (pos : nat) (buf : bytes)
  : Prop :=
  match r with
  | Ok n => Forall valid_char buf /\ in_uint 128 n
            /\ n = fold_left (fun a d => a * 62 + d) (value_of <$> buf) acc
  | Err (InvalidCharacter b p) =>
      (pos <= p)%nat /\ buf !! (p - pos)%nat = Some b /\ ~ valid_char b
      /\ Forall valid_char (take (p - pos) buf)
      /\ fold_left (fun a d => a * 62 + d) (value_of <$> take (p - pos) buf) acc < 2 ^ 128
  | Err ArithmeticOverflow =>
      exists k, Forall valid_char (take k buf)
        /\ 2 ^ 128 <= fold_left (fun a d => a * 62 + d) (value_of <$> take k buf) acc
  end.

Lemma decode_loop_post pos acc buf :
  is_bytes buf -> in_uint 128 acc -> decode_post (decode_loop pos acc buf) acc pos buf.
Proof.
  intros Hb. revert pos acc. induction Hb as [|b buf Hb Hbuf IH]; intros pos acc Ha;
    cbn [decode_loop]; [done|]. fold (value_of b).
  destruct (Z.eqb_spec (value_of b) 255) as [E|E].
  { cbn. rewrite Nat.sub_diag. cbn. unfold valid_char, in_uint in *. split_and!; auto; lia. }
  destruct (value_of_valid b Hb E) as [Hv _]. unfold in_uint in Ha.
  rewrite accumulate_spec by lia.
  destruct (Z.ltb_spec (acc * 62 + value_of b) (2 ^ 128)) as [Hlt|Hge].
  - specialize (IH (S pos) (acc * 62 + value_of b) ltac:(unfold in_uint; lia)).
    destruct (decode_loop _ _ buf) as [n|[|b' p]]; cbn in IH |- *.
    + destruct IH as (? & ? & ?). split_and!; auto.
    + destruct IH as (k & ? & ?). exists (S k). cbn. split; [by constructor|done].
    + destruct IH as (? & ? & ? & ? & ?).
      replace (p - pos)%nat with (S (p - S pos)) by lia. cbn.
      split_and!; auto; lia.
  - exists 1%nat. change (take 1 (b :: buf)) with [b]. cbn.
    split; [by repeat constructor|lia].
Qed.

Lemma decode_fixed_ok buf n :
  is_bytes buf -> decode_fixed buf = Ok n ->
  Forall valid_char buf /\ in_uint 128 n /\ n = value62 (value_of <$> buf).
Proof.
  intros Hb E. pose proof (decode_loop_post 0 0 buf Hb ltac:(unfold in_uint; lia)) as H.
  unfold decode_fixed in E. rewrite E in H. exact H.
Qed.

Lemma decode_loop_digits pos acc ds :
  Forall (fun d => 0 <= d < 62) ds -> 0 <= acc ->
  acc * 62 ^ Z.of_nat (length ds) + value62 ds < 2 ^ 128 ->
  decode_loop pos acc ((fun d => CHARSET !!! Z.to_nat d) <$> ds)
  = Ok (acc * 62 ^ Z.of_nat (length ds) + value62 ds).
Proof.
  intros Hd. revert pos acc. induction Hd as [|d ds Hd Hds IH]; intros pos acc Ha Hlt;
    cbn [fmap list_fmap decode_loop].
  - cbn. f_equal. lia.
  - fold (value_of (CHARSET !!! Z.to_nat d)). rewrite value_of_char by done.
    destruct (Z.eqb_spec d 255); [lia|].
    assert (Ev : value62 (d :: ds) = d * 62 ^ Z.of_nat (length ds) + value62 ds).
    { apply positional_cons. }
    rewrite Ev in Hlt |- *. cbn [length] in Hlt |- *.
    rewrite Nat2Z.inj_succ, Z.pow_succ_r in Hlt |- * by lia.
    pose proof (positional_nonneg 62 ltac:(lia) ds Hds).
    assert (0 < 62 ^ Z.of_nat (length ds)) by (apply Z.pow_pos_nonneg; lia).
    rewrite accumulate_spec by lia.
    destruct (Z.ltb_spec (acc * 62 + d) (2 ^ 128)); [|nia].
    rewrite IH by (try lia; nia). f_equal. ring.
Qed.

Lemma pow62_22 : 2 ^ 128 < 62 ^ Z.of_nat BASE62_LEN.
Proof. vm_compute. reflexivity. Qed.

Lemma decode_encode_spec num :
  in_uint 128 num -> decode_fixed (encode_spec num) = Ok num.
Proof.
  unfold in_uint. intros Hn. unfold decode_fixed, encode_spec. pose proof pow62_22 as Hp.
  set (ds := digits 62 BASE62_LEN num).
  assert (Ev : value62 ds = num) by (subst ds; rewrite positional_digits by lia; apply Z.mod_small; lia).
  rewrite decode_loop_digits, ?Ev; [done|subst ds; apply digits_range; lia|lia|lia].
Qed.

Lemma encode_decode_spec buf n :
  is_bytes buf -> length buf = BASE62_LEN -> decode_fixed buf = Ok n -> encode_spec n = buf.
Proof.
  intros Hb Hl E. destruct (decode_fixed_ok buf n Hb E) as (Hv & _ & ->).
  unfold encode_spec.
  assert (Hr : Forall (fun d => 0 <= d < 62) (value_of <$> buf)).
  { apply Forall_fmap. apply Forall_forall. intros b Hin. cbn.
    rewrite Forall_forall in Hv. unfold is_bytes in Hb. rewrite Forall_forall in Hb.
    apply value_of_valid; auto. }
  rewrite <- Hl, <- (length_fmap value_of buf), digits_positional by (done || lia).
  rewrite <- list_fmap_compose. transitivity (id <$> buf); [|by rewrite list_fmap_id].
  apply list_fmap_ext. intros i b Hi. cbn.
  pose proof (list_elem_of_lookup_2 _ _ _ Hi) as Hin.
  rewrite Forall_forall in Hv. unfold is_bytes in Hb. rewrite Forall_forall in Hb.
  by apply value_of_valid; auto.
Qed.

(** ** Properties *)

(** [fast_div_base_to_10] is the exact Euclidean division by 62^10 on every
    [u128] value, and [encode_fixed] writes the 22 base-62 digits of its argument,
    most significant first and padded with '0', whatever the buffer held. *)
Theorem encode_fixed_numeral num buf :
  in_uint 128 num -> length buf = BASE62_LEN ->
  fast_div_base_to_10 num = (num / BASE_TO_10, num mod BASE_TO_10) /\
  encode_fixed num buf = encode_spec num /\
  value62 (value_of <$> encode_fixed num buf) = num.
Proof.
  intros Hn Hl. split_and!.
  - by apply fast_div_exact.
  - by apply encode_fixed_eq.
  - rewrite encode_fixed_eq by done. symmetry. eapply decode_fixed_ok.
    + unfold encode_spec. apply Forall_fmap, Forall_forall. intros d Hd. cbn.
      apply charset_u8. pose proof (digits_range 62 ltac:(lia) 22 num) as H.
      rewrite Forall_forall in H. auto.
    + by apply decode_encode_spec.
Qed.

Lemma encode_fixed_numeral_witness :
  encode_fixed (2 ^ 128 - 1) (replicate 22 0) = as_bytes "7n42DGM5Tflk9n8mt7Fhc7".
Proof.
  destruct (encode_fixed_numeral (2 ^ 128 - 1) (replicate 22 0)) as (_ & E & _);
    [unfold in_uint; lia|reflexivity|]. rewrite E. vm_compute. reflexivity.
Defined.

(** The codec is a bijection between [u128] and the accepted buffers: decoding
    what was encoded gives the number back, and encoding what was decoded gives
    the buffer back. *)
Theorem base62_roundtrip num buf n :
  in_uint 128 num -> is_bytes buf -> length buf = BASE62_LEN ->
  decode_fixed (encode_fixed num buf) = Ok num /\
  (decode_fixed buf = Ok n -> in_uint 128 n /\ encode_fixed n buf = buf).
Proof.
  intros Hn Hb Hl. split.
  - rewrite encode_fixed_eq by done. by apply decode_encode_spec.
  - intros E. destruct (decode_fixed_ok buf n Hb E) as (_ & Hr & _).
    split; [done|]. rewrite encode_fixed_eq by done. by apply encode_decode_spec.
Qed.

Lemma base62_roundtrip_witness :
  decode_fixed (encode_fixed 12345 (as_bytes "00000000000000000003D7")) = Ok 12345.
Proof.
  apply (base62_roundtrip 12345 (as_bytes "00000000000000000003D7") 12345).
  - unfold in_uint; lia.
  - apply as_bytes_u8.
  - reflexivity.
Defined.

(** [decode_fixed] reports [InvalidCharacter] at the first byte outside the
    alphabet when no prefix before it overflows, and [ArithmeticOverflow] when a
    prefix of valid characters denotes a number of more than 128 bits; it
    succeeds, with the denoted number, when neither happens. *)
Theorem decode_fixed_outcome buf :
  is_bytes buf ->
  match decode_fixed buf with
  | Ok n => Forall valid_char buf /\ in_uint 128 n /\ n = value62 (value_of <$> buf)
  | Err (InvalidCharacter b p) =>
      buf !! p = Some b /\ ~ valid_char b /\ Forall valid_char (take p buf)
      /\ value62 (value_of <$> take p buf) < 2 ^ 128
  | Err ArithmeticOverflow =>
      exists k, Forall valid_char (take k buf) /\ 2 ^ 128 <= value62 (value_of <$> take k buf)
  end.
Proof.
  intros Hb. pose proof (decode_loop_post 0 0 buf Hb ltac:(unfold in_uint; lia)) as H.
  unfold decode_fixed. destruct (decode_loop 0 0 buf) as [n|[|b p]]; [exact H|exact H|].
  cbn in H. rewrite !Nat.sub_0_r in H. destruct H as (_ & ? & ? & ? & ?). split_and!; auto.
Qed.

Lemma decode_fixed_outcome_witness :
  exists k, Forall valid_char (take k (as_bytes "zzzzzzzzzzzzzzzzzzzzzz"))
    /\ 2 ^ 128 <= value62 (value_of <$> take k (as_bytes "zzzzzzzzzzzzzzzzzzzzzz")).
Proof. exact (decode_fixed_outcome (as_bytes "zzzzzzzzzzzzzzzzzzzzzz") (as_bytes_u8 _)). Defined.
