(* ===== verification/Base64.v ===== *)
(** * Base64 over the project's own alphabet (src/src/common/utils/base64.rs)

    [to_base64] and [from_base64] print and read the 24-byte token keys.  The
    source writes through [get_unchecked_mut] at consecutive indices [j], [j+1],
    ... of a buffer of [encoded_len] (or [decoded_len]) bytes and then calls
    [set_len]: the model returns the bytes in the order they are written, and
    the length theorems say that they are exactly as many as the buffer has. *)
From S2P Require Import Prelude.

(** ** Definitions *)

Definition BASE64_CHARS : bytes :=
  as_bytes "-AaBbCcDdEeFfGgHhIiJjKkLlMmNnOoPpQqRrSsTtUuVvWwXxYyZz1032547698_".

Definition BASE64_DECODE_TABLE : list Z := fill_lut BASE64_CHARS 64 0 (replicate 256 255).

Definition encoded_len (input_len : nat) : nat :=
  let d := (input_len / 3)%nat in
  let r := (input_len mod 3)%nat in
  ((if 0 <? r then d + 1 else d) * 4 - match r with 1 => 2 | 2 => 1 | _ => 0 end)%nat.

Definition decoded_len (encoded_len : nat) : option nat :=
  match (encoded_len mod 4)%nat with
  | 0%nat => Some (encoded_len / 4 * 3)%nat
  | 2%nat => Some (encoded_len / 4 * 3 + 1)%nat
  | 3%nat => Some (encoded_len / 4 * 3 + 2)%nat
  | _ => None
  end.

Definition char_at (i : Z) : Z := BASE64_CHARS !!! Z.to_nat i.
Definition code_of (b : Z) : Z := BASE64_DECODE_TABLE !!! Z.to_nat b.

(** [chunks_exact(3)] and its remainder; [n] is a [u32]. *)
Fixpoint encode_to_slice_unchecked (input : bytes) : bytes :=
  match input with
  | b1 :: b2 :: b3 :: rest =>
      let n := Z.lor (Z.lor (Z.shiftl b1 16) (Z.shiftl b2 8)) b3 in
      char_at (Z.shiftr n 18)
      :: char_at (Z.land (Z.shiftr n 12) 63)
      :: char_at (Z.land (Z.shiftr n 6) 63)
      :: char_at (Z.land n 63)
      :: encode_to_slice_unchecked rest
  | [b1; b2] =>
      let n := Z.lor (Z.shiftl b1 16) (Z.shiftl b2 8) in
      [char_at (Z.shiftr n 18); char_at (Z.land (Z.shiftr n 12) 63);
       char_at (Z.land (Z.shiftr n 6) 63)]
  | [b1] =>
      let n := Z.shiftl b1 16 in
      [char_at (Z.shiftr n 18); char_at (Z.land (Z.shiftr n 12) 63)]
  | [] => []
  end.

(** [chunks_exact(4)] and its remainder; a remainder of one byte is
    [unreachable_unchecked]. *)
Fixpoint decode_to_slice_unchecked (input : bytes) : outcome bytes :=
  match input with
  | x1 :: x2 :: x3 :: x4 :: rest =>
      let c1 := code_of x1 in let c2 := code_of x2 in
      let c3 := code_of x3 in let c4 := code_of x4 in
      let n := Z.lor (Z.lor (Z.lor (Z.shiftl c1 18) (Z.shiftl c2 12)) (Z.shiftl c3 6)) c4 in
      out ← decode_to_slice_unchecked rest;
      Ret (wrap 8 (Z.shiftr n 16) :: wrap 8 (Z.shiftr n 8) :: wrap 8 n :: out)
  | [x1; x2; x3] =>
      let c1 := code_of x1 in let c2 := code_of x2 in let c3 := code_of x3 in
      Ret [Z.lor (wrap 8 (Z.shiftl c1 2)) (Z.shiftr c2 4);
           Z.lor (wrap 8 (Z.shiftl c2 4)) (Z.shiftr c3 2)]
  | [x1; x2] =>
      let c1 := code_of x1 in let c2 := code_of x2 in
      Ret [Z.lor (wrap 8 (Z.shiftl c1 2)) (Z.shiftr c2 4)]
  | [_] => Undef
  | [] => Ret []
  end.

Definition to_base64 (bs : bytes) : string :=
  match bs with [] => EmptyString | _ => from_bytes (encode_to_slice_unchecked bs) end.

Definition from_base64 (input : string) : outcome (option bytes) :=
  let input := as_bytes input in
  let len := length input in
  if (len =? 0)%nat then Ret (Some [])
  else match decoded_len len with
       | None => Ret None
       | Some _ =>
           if existsb (fun b => code_of b =? 255) input then Ret None
           else out ← decode_to_slice_unchecked input; Ret (Some out)
       end.

(** ** Tables *)

Definition valid_code (b : Z) : Prop := code_of b <> 255.

Lemma tables_check :
  forallb (fun i => let c := char_at (Z.of_nat i) in
            (code_of c =? Z.of_nat i) && (0 <=? c) && (c <? 256)) (seq 0 64) = true.
Proof. vm_compute. reflexivity. Qed.

Lemma table_inverse_check :
  forallb (fun b => let v := code_of (Z.of_nat b) in
            (v =? 255) || ((v <? 64) && (0 <=? v) && (char_at v =? Z.of_nat b))) (seq 0 256)
  = true.
Proof. vm_compute. reflexivity. Qed.

Lemma code_of_char i : 0 <= i < 64 -> code_of (char_at i) = i.
Proof.
  intros Hi. pose proof tables_check as H. rewrite forallb_forall in H.
  specialize (H (Z.to_nat i) ltac:(apply in_seq; lia)). cbv zeta in H.
  rewrite Z2Nat.id, !andb_true_iff, Z.eqb_eq in H by lia. tauto.
Qed.

Lemma char_at_u8 i : 0 <= i < 64 -> in_uint 8 (char_at i).
Proof.
  intros Hi. pose proof tables_check as H. rewrite forallb_forall in H.
  specialize (H (Z.to_nat i) ltac:(apply in_seq; lia)). cbv zeta in H.
  rewrite Z2Nat.id, !andb_true_iff, Z.leb_le, Z.ltb_lt in H by lia. unfold in_uint. lia.
Qed.

Lemma char_of_code b : in_uint 8 b -> valid_code b -> 0 <= code_of b < 64 /\ char_at (code_of b) = b.
Proof.
  unfold in_uint, valid_code. intros Hb Hv. pose proof table_inverse_check as H.
  rewrite forallb_forall in H. specialize (H (Z.to_nat b) ltac:(apply in_seq; lia)).
  cbv zeta in H.
  rewrite Z2Nat.id, orb_true_iff, !andb_true_iff, !Z.eqb_eq, Z.ltb_lt, Z.leb_le in H by lia. lia.
Qed.

(** ** Groups: the bit operations as arithmetic *)

Lemma land63 x : Z.land x 63 = x mod 64.
Proof. exact (land_mask x 6 ltac:(lia)). Qed.

Lemma group3 b1 b2 b3 :
  0 <= b2 < 256 -> 0 <= b3 < 256 ->
  Z.lor (Z.lor (Z.shiftl b1 16) (Z.shiftl b2 8)) b3 = b1 * 65536 + b2 * 256 + b3.
Proof.
  intros H2 H3. rewrite (Z.shiftl_mul_pow2 b2), lor_shiftl_add by lia.
  replace (b1 * 2 ^ 16 + b2 * 2 ^ 8) with (Z.shiftl (b1 * 256 + b2) 8)
    by (rewrite Z.shiftl_mul_pow2 by lia; lia).
  rewrite lor_shiftl_add by lia. lia.
Qed.

Lemma group4 c1 c2 c3 c4 :
  0 <= c2 < 64 -> 0 <= c3 < 64 -> 0 <= c4 < 64 ->
  Z.lor (Z.lor (Z.lor (Z.shiftl c1 18) (Z.shiftl c2 12)) (Z.shiftl c3 6)) c4
  = c1 * 262144 + c2 * 4096 + c3 * 64 + c4.
Proof.
  intros H2 H3 H4. rewrite (Z.shiftl_mul_pow2 c2), lor_shiftl_add by lia.
  replace (c1 * 2 ^ 18 + c2 * 2 ^ 12) with (Z.shiftl (c1 * 64 + c2) 12)
    by (rewrite Z.shiftl_mul_pow2 by lia; lia).
  rewrite (Z.shiftl_mul_pow2 c3), lor_shiftl_add by lia.
  replace ((c1 * 64 + c2) * 2 ^ 12 + c3 * 2 ^ 6) with (Z.shiftl ((c1 * 64 + c2) * 64 + c3) 6)
    by (rewrite Z.shiftl_mul_pow2 by lia; lia).
  rewrite lor_shiftl_add by lia. lia.
Qed.

Lemma head_byte c1 c2 :
  0 <= c1 < 64 -> 0 <= c2 < 64 -> Z.lor (wrap 8 (Z.shiftl c1 2)) (Z.shiftr c2 4) = c1 * 4 + c2 / 16.
Proof.
  intros H1 H2. rewrite wrap_small by (unfold in_uint; rewrite Z.shiftl_mul_pow2; lia).
  rewrite shiftr_div by lia. rewrite lor_shiftl_add by lia. lia.
Qed.

Lemma second_byte c2 c3 :
  0 <= c2 < 64 -> 0 <= c3 < 64 ->
  Z.lor (wrap 8 (Z.shiftl c2 4)) (Z.shiftr c3 2) = c2 mod 16 * 16 + c3 / 4.
Proof.
  intros H1 H2. unfold wrap. rewrite (Z.shiftl_mul_pow2 c2) by lia.
  replace ((c2 * 2 ^ 4) mod 2 ^ 8) with (Z.shiftl (c2 mod 16) 4)
    by (rewrite Z.shiftl_mul_pow2; lia).
  rewrite shiftr_div by lia. rewrite lor_shiftl_add by lia. lia.
Qed.

(** ** Lengths *)

Lemma encode_length bs : length (encode_to_slice_unchecked bs) = encoded_len (length bs).
Proof.
  induction bs as [| | |b1 b2 b3 bs IH] using list_ind3; [done..|].
  cbn [encode_to_slice_unchecked length]. rewrite IH. unfold encoded_len.
  replace (S (S (S (length bs)))) with (length bs + 1 * 3)%nat by lia.
  rewrite Nat.div_add, Nat.Div0.mod_add by lia.
  pose proof (Nat.mod_upper_bound (length bs) 3).
  destruct (length bs mod 3)%nat as [|[|[|?]]]; cbn; lia.
Qed.

Lemma encode_nonempty b bs : encode_to_slice_unchecked (b :: bs) <> [].
Proof. destruct bs as [|? [|? ?]]; done. Qed.

Lemma decoded_len_step n : decoded_len (4 + n) = (fun k => 3 + k)%nat <$> decoded_len n.
Proof.
  unfold decoded_len. replace (4 + n)%nat with (n + 1 * 4)%nat by lia.
  rewrite Nat.Div0.mod_add, Nat.div_add by lia.
  destruct (n mod 4)%nat as [|[|[|[|?]]]]; cbn; f_equal; lia.
Qed.

Lemma decode_total bs :
  match decoded_len (length bs) with
  | Some n => exists out, decode_to_slice_unchecked bs = Ret out /\ length out = n
  | None => decode_to_slice_unchecked bs = Undef
  end.
Proof.
  induction bs as [| | | |x1 x2 x3 x4 bs IH] using list_ind4; cbn [length].
  1-4: cbn; eauto.
  change (S (S (S (S (length bs))))) with (4 + length bs)%nat. rewrite decoded_len_step.
  destruct (decoded_len (length bs)) as [n|]; cbn.
  - destruct IH as (out & -> & <-). cbn. eauto.
  - by rewrite IH.
Qed.

Lemma mod4_step n : ((4 + n) mod 4 = n mod 4)%nat.
Proof. replace (4 + n)%nat with (n + 1 * 4)%nat by lia. apply Nat.Div0.mod_add. Qed.

Lemma decode_bytes bs out :
  is_bytes bs -> Forall valid_code bs -> decode_to_slice_unchecked bs = Ret out -> is_bytes out.
Proof.
  revert out. induction bs as [| | |x1 x2 x3|x1 x2 x3 x4 bs IH] using list_ind4;
    intros out Hb Hv E; cbn [decode_to_slice_unchecked] in E; try discriminate.
  1: injection E as <-; constructor.
  3: destruct (decode_to_slice_unchecked bs) as [o| |]; cbn in E; try discriminate.
  all: injection E as <-; unfold is_bytes in Hb;
    repeat match goal with H : Forall _ (_ :: _) |- _ => apply Forall_cons in H as [? H] end;
    repeat match goal with
      H : valid_code ?x |- _ => destruct (char_of_code x) as [? _]; [assumption|assumption|clear H]
    end;
    rewrite ?head_byte, ?second_byte by lia;
    repeat apply Forall_cons_2; try apply Forall_nil_2; auto with rust;
    try (apply wrap_range; lia); try (unfold in_uint; lia).
  by apply IH.
Qed.

(** ** Round trips *)

Lemma decode_encode bs :
  is_bytes bs -> decode_to_slice_unchecked (encode_to_slice_unchecked bs) = Ret bs.
Proof.
  induction bs as [|b1|b1 b2|b1 b2 b3 bs IH] using list_ind3; intros H; [done|..];
    forall_inv; cbn [encode_to_slice_unchecked].
  - rewrite !land63, !shiftr_div, Z.shiftl_mul_pow2 by lia.
    cbn [decode_to_slice_unchecked]. rewrite !code_of_char, head_byte by lia.
    do 2 f_equal. lia.
  - rewrite (Z.shiftl_mul_pow2 b2), lor_shiftl_add by lia. rewrite !land63, !shiftr_div by lia.
    cbn [decode_to_slice_unchecked].
    rewrite !code_of_char, head_byte, second_byte by lia. f_equal. f_equal; [|f_equal]; lia.
  - rewrite group3, !land63, !shiftr_div by lia. cbn [decode_to_slice_unchecked].
    rewrite !code_of_char by lia. rewrite group4 by lia. rewrite IH by done. cbn.
    unfold wrap. rewrite !shiftr_div by lia. f_equal. f_equal; [|f_equal; [|f_equal]]; lia.
Qed.

Lemma encode_valid bs :
  is_bytes bs ->
  is_bytes (encode_to_slice_unchecked bs) /\ Forall valid_code (encode_to_slice_unchecked bs).
Proof.
  assert (V : forall i, 0 <= i < 64 -> in_uint 8 (char_at i) /\ valid_code (char_at i)).
  { intros i Hi. split; [by apply char_at_u8|]. unfold valid_code. rewrite code_of_char; lia. }
  induction bs as [|b1|b1 b2|b1 b2 b3 bs IH] using list_ind3; intros H; [by repeat constructor|..];
    forall_inv; cbn [encode_to_slice_unchecked].
  - rewrite !land63, !shiftr_div, Z.shiftl_mul_pow2 by lia.
    split; repeat apply Forall_cons_2; try apply Forall_nil_2; apply V; lia.
  - rewrite (Z.shiftl_mul_pow2 b2), lor_shiftl_add by lia. rewrite !land63, !shiftr_div by lia.
    split; repeat apply Forall_cons_2; try apply Forall_nil_2; apply V; lia.
  - rewrite group3, !land63, !shiftr_div by lia. destruct (IH H) as [I1 I2].
    split; repeat apply Forall_cons_2; try apply I1; try apply I2; apply V; lia.
Qed.

(** Re-encoding a decoded group of four gives the group back; a shorter last
    group is only recovered up to its unused low bits. *)
Lemma encode_decode bs out :
  is_bytes bs -> Forall valid_code bs -> (length bs mod 4 = 0)%nat ->
  decode_to_slice_unchecked bs = Ret out -> encode_to_slice_unchecked out = bs.
Proof.
  revert out. induction bs as [| | | |x1 x2 x3 x4 bs IH] using list_ind4;
    intros out Hb Hv Hl E; try discriminate.
  - by injection E as <-.
  - change (length (x1 :: x2 :: x3 :: x4 :: bs)) with (4 + length bs)%nat in Hl.
    rewrite mod4_step in Hl. cbn [decode_to_slice_unchecked] in E.
    destruct (decode_to_slice_unchecked bs) as [o| |] eqn:Eo; cbn in E; try discriminate.
    injection E as <-. unfold is_bytes in Hb.
    repeat match goal with H : Forall _ (_ :: _) |- _ => apply Forall_cons in H as [? H] end.
    repeat match goal with
      H : valid_code ?x |- _ => destruct (char_of_code x) as [? ?]; [assumption|assumption|clear H]
    end.
    cbn [encode_to_slice_unchecked].
    rewrite (IH o) by done.
    rewrite group4 by lia. unfold wrap. rewrite !shiftr_div by lia. rewrite group3 by lia.
    rewrite !land63.
    repeat (apply (f_equal2 cons);
      [match goal with H : char_at (code_of ?x) = ?x |- _ = ?x =>
         transitivity (char_at (code_of x)); [f_equal; lia|exact H] end|]).
    reflexivity.
Qed.

Lemma to_base64_bytes bs :
  is_bytes bs -> as_bytes (to_base64 bs) = encode_to_slice_unchecked bs.
Proof.
  intros H. unfold to_base64. destruct bs; [done|].
  apply as_bytes_from_bytes, encode_valid, H.
Qed.

Lemma existsb_invalid bs :
  existsb (fun b => code_of b =? 255) bs = false <-> Forall valid_code bs.
Proof.
  rewrite <- not_true_iff_false, existsb_exists, Forall_forall. unfold valid_code.
  setoid_rewrite Z.eqb_eq. setoid_rewrite list_elem_of_In. naive_solver.
Qed.

(** [from_base64] without the buffer: the whole input is checked, then decoded. *)
Lemma from_base64_spec s :
  from_base64 s = Ret None /\ (decoded_len (String.length s) = None \/ ~ Forall valid_code (as_bytes s))
  \/ exists out, from_base64 s = Ret (Some out) /\ Forall valid_code (as_bytes s)
       /\ decoded_len (String.length s) = Some (length out)
       /\ decode_to_slice_unchecked (as_bytes s) = Ret out.
Proof.
  unfold from_base64. rewrite <- length_as_bytes.
  pose proof (decode_total (as_bytes s)) as D.
  destruct (Nat.eqb_spec (length (as_bytes s)) 0) as [E|E].
  { right. exists []. apply nil_length_inv in E. rewrite E. split_and!; auto. }
  destruct (decoded_len (length (as_bytes s))) as [n|] eqn:El; [|auto].
  destruct D as (out & D & <-).
  destruct (existsb _ (as_bytes s)) eqn:Ee.
  - left. split; [done|]. right. rewrite <- existsb_invalid, Ee. done.
  - right. exists out. rewrite D. apply existsb_invalid in Ee. split_and!; auto.
Qed.

Lemma base64_inverse bs :
  is_bytes bs ->
  from_base64 (to_base64 bs) = Ret (Some bs) /\ String.length (to_base64 bs) = encoded_len (length bs).
Proof.
  intros Hb. rewrite <- length_as_bytes, to_base64_bytes, encode_length by done.
  split; [|done]. destruct (encode_valid bs Hb) as [_ Hv].
  destruct (from_base64_spec (to_base64 bs)) as [[_ [H|H]]|(out & -> & _ & _ & E)].
  - rewrite <- length_as_bytes, to_base64_bytes in H by done.
    pose proof (decode_total (encode_to_slice_unchecked bs)) as D.
    rewrite H, decode_encode in D by done. done.
  - by rewrite to_base64_bytes in H.
  - rewrite to_base64_bytes, decode_encode in E by done. by injection E as ->.
Qed.

(** ** Properties *)

(** [from_base64] inverts [to_base64] on every byte string, and [to_base64]
    writes exactly the [encoded_len] bytes its [set_len] exposes. *)
Theorem base64_roundtrip bs :
  is_bytes bs ->
  from_base64 (to_base64 bs) = Ret (Some bs) /\ String.length (to_base64 bs) = encoded_len (length bs).
Proof. apply base64_inverse. Qed.

Lemma base64_roundtrip_witness :
  from_base64 (to_base64 [1; 2; 254; 255]) = Ret (Some [1; 2; 254; 255]).
Proof.
  apply (base64_roundtrip [1; 2; 254; 255]). repeat constructor; unfold in_uint; lia.
Defined.

(** [from_base64] never leaves defined behaviour; it accepts exactly the
    strings over the alphabet whose length is not 1 modulo 4, yields the number of
    bytes its buffer was allocated for, and on lengths divisible by 4 (a token key
    has 32 characters) the accepted string is the encoding of the result. *)
Theorem from_base64_accepts s :
  from_base64 s = Ret None
    /\ (decoded_len (String.length s) = None \/ ~ Forall valid_code (as_bytes s))
  \/ exists out, from_base64 s = Ret (Some out)
       /\ Forall valid_code (as_bytes s)
       /\ decoded_len (String.length s) = Some (length out)
       /\ ((String.length s mod 4 = 0)%nat -> to_base64 out = s).
Proof.
  destruct (from_base64_spec s) as [|(out & E & Hv & Hl & D)]; [auto|right].
  exists out. split_and!; auto. intros Hm. rewrite <- length_as_bytes in Hm.
  apply as_bytes_inj. rewrite to_base64_bytes by eauto using decode_bytes, as_bytes_u8.
  apply encode_decode; auto using as_bytes_u8.
Qed.

(** The unit test [test_invalid_input] expects ["ABC"] to be refused for its
    length; three characters are a valid length and the string is accepted. *)
Lemma from_base64_ABC : exists out, from_base64 "ABC" = Ret (Some out).
Proof. vm_compute. eauto. Qed.
(** Likewise [test_basic] expects ["Zg"], the output over the standard alphabet. *)
Lemma to_base64_f : to_base64 (as_bytes "f") = "Mp"%string.
Proof. vm_compute. reflexivity. Qed.
