(* ===== verification/Hex.v ===== *)
(** * Hexadecimal values: the tables, [Hash] and [Checksum]

    [src/src/common/utils/hex.rs], [src/src/app/model/hash.rs],
    [src/src/app/model/checksum.rs], [src/src/app/model/timestamp_header.rs] and
    the reader of timestamp headers kept in [src/src/common/utils/checksum.rs].

    A [Hash] is its 32 bytes.  Random values ([Hash::random]) are arguments.  The
    global atomic [TIMESTAMP_HEADER] is the argument [header].  The [base64]
    crate's decoder is the parameter [b64_decode] of the reader. *)
From S2P Require Import Prelude Strings.

(** ** Tables and bytes *)

Definition hex_value (i : Z) : Z :=
  if (48 <=? i) && (i <=? 57) then i - 48
  else if (97 <=? i) && (i <=? 102) then i - 97 + 10
  else if (65 <=? i) && (i <=? 70) then i - 65 + 10
  else 255.

Definition HEX_TABLE : list Z := (fun i => hex_value (Z.of_nat i)) <$> seq 0 256.

Definition hex_code (b : Z) : Z := HEX_TABLE !!! Z.to_nat b.
#[global] Arguments hex_code : simpl never.

Definition HEX_CHARS : bytes := as_bytes "0123456789abcdef".

Definition hex_to_byte (hi lo : Z) : option Z :=
  let high := hex_code hi in
  if high =? 255 then None else
  let low := hex_code lo in
  if low =? 255 then None else
  Some (Z.lor (wrap 8 (Z.shiftl high 4)) low).

Definition hi_char (byte : Z) : Z := HEX_CHARS !!! Z.to_nat (Z.shiftr byte 4).
Definition lo_char (byte : Z) : Z := HEX_CHARS !!! Z.to_nat (Z.land byte 15).

(** ** Hash *)

Inductive HashError : Type := HashInvalidLength | HashInvalidUtf8 | HashInvalidHex.

Definition Hash : Type := bytes.
Definition hash_wf (h : Hash) : Prop := is_bytes h /\ length h = 32%nat.

Definition nil_hash : Hash := replicate 32 0.
Definition is_nil (h : Hash) : bool := bool_decide (h = nil_hash).

(** [for (i, &byte) in self.0.iter().enumerate()]: two characters at [2 i] of a
    slice that starts at offset [off] of the caller's buffer. *)
Fixpoint hash_to_str (h : Hash) (i off : nat) (buf : bytes) : bytes :=
  match h with
  | [] => buf
  | byte :: h' =>
      let buf := <[(off + i * 2)%nat := hi_char byte]> buf in
      let buf := <[(off + i * 2 + 1)%nat := lo_char byte]> buf in
      hash_to_str h' (S i) off buf
  end.

(** [as_chunks_unchecked::<2>()] zipped with the destination bytes. *)
Fixpoint decode_pairs (hex : bytes) : option bytes :=
  match hex with
  | hi :: lo :: rest => b ← hex_to_byte hi lo; out ← decode_pairs rest; Some (b :: out)
  | _ => Some []
  end.

Definition hash_from_str (s : bytes) : result HashError Hash :=
  if (length s =? 64)%nat then ok_or (decode_pairs s) HashInvalidHex
  else Err HashInvalidLength.

(** ** The timestamp header *)

Definition B64_ENCODE : bytes :=
  as_bytes "ABCDEFGHIJKLMNOPQRSTUVWXYZabcdefghijklmnopqrstuvwxyz0123456789-_".

(** The unrolled assignments [bytes[k] = (bytes[k] ^ prev).wrapping_add(k)]. *)
Fixpoint obfuscate_bytes (bs : bytes) (k prev : Z) : bytes :=
  match bs with
  | [] => []
  | b :: bs' =>
      let b' := wrap 8 (Z.lxor b prev + k) in
      b' :: obfuscate_bytes bs' (k + 1) b'
  end.

Definition encode_chunk (b0 b1 b2 : Z) : bytes :=
  [B64_ENCODE !!! Z.to_nat (Z.shiftr b0 2);
   B64_ENCODE !!! Z.to_nat (Z.lor (wrap 8 (Z.shiftl (Z.land b0 3) 4)) (Z.shiftr b1 4));
   B64_ENCODE !!! Z.to_nat (Z.lor (wrap 8 (Z.shiftl (Z.land b1 15) 2)) (Z.shiftr b2 6));
   B64_ENCODE !!! Z.to_nat (Z.land b2 63)].

Definition encode_base64 (input : bytes) : bytes :=
  match input with
  | [b0; b1; b2; b3; b4; b5] => encode_chunk b0 b1 b2 ++ encode_chunk b3 b4 b5
  | _ => []
  end.

Definition timestamp_bytes (kilo_seconds : Z) : bytes :=
  [wrap 8 (Z.land (Z.shiftr kilo_seconds 8) 255); wrap 8 (Z.land kilo_seconds 255);
   wrap 8 (Z.land (Z.shiftr kilo_seconds 24) 255); wrap 8 (Z.land (Z.shiftr kilo_seconds 16) 255);
   wrap 8 (Z.land (Z.shiftr kilo_seconds 8) 255); wrap 8 (Z.land kilo_seconds 255)].

(** [new]: the stored [u64], in the little-endian order of the target. *)
Definition timestamp_new (kilo_seconds : Z) : Z :=
  le_value (encode_base64 (obfuscate_bytes (timestamp_bytes kilo_seconds) 0 165)).

(** [read] of the stored value; [update_global_with] stores [timestamp_new]. *)
Definition timestamp_read (header : Z) : bytes := le_bytes 8 header.
Definition update_global_with (kilo_seconds : Z) (header : Z) : Z := timestamp_new kilo_seconds.

(** ** Checksum *)

Inductive ChecksumError : Type := InvalidFormat | CHashError (e : HashError).

Record Checksum : Type := mkChecksum { first : Hash; second : Hash }.

Definition checksum_wf (c : Checksum) : Prop := hash_wf (first c) /\ hash_wf (second c).

(** [Checksum::random] with its two draws. *)
Definition checksum_random (r1 r2 : Hash) : Checksum := mkChecksum r1 r2.

Definition is_valid_timestamp (bs : bytes) : bool :=
  forallb (fun b => is_ascii_alphanumeric b || (b =? 45) || (b =? 95)) bs.

Fixpoint decode_hex_hash (hex : bytes) : option Hash :=
  match hex with
  | hi :: lo :: rest =>
      let high := hex_code hi in
      let low := hex_code lo in
      if (high =? 255) || (low =? 255) then None
      else out ← decode_hex_hash rest; Some (Z.lor (wrap 8 (Z.shiftl high 4)) low :: out)
  | _ => Some []
  end.

Definition sub (bs : bytes) (from n : nat) : bytes := take n (drop from bs).

Definition repair_short (r1 r2 : Hash) (bs : bytes) : Checksum :=
  if negb (is_valid_timestamp (sub bs 0 8)) then checksum_random r1 r2
  else match decode_hex_hash (sub bs 8 64) with
       | Some hash => mkChecksum hash r1
       | None => checksum_random r1 r2
       end.

Definition repair_normal (r1 r2 : Hash) (bs : bytes) : Checksum :=
  if negb (bs !!! 64%nat =? 47) then checksum_random r1 r2
  else match decode_hex_hash (sub bs 0 64) with
       | None => checksum_random r1 r2
       | Some h1 => match decode_hex_hash (sub bs 65 64) with
                    | None => checksum_random r1 r2
                    | Some h2 => mkChecksum h1 h2
                    end
       end.

Definition repair_full (r1 r2 : Hash) (bs : bytes) : Checksum :=
  if negb (is_valid_timestamp (sub bs 0 8)) then checksum_random r1 r2
  else if negb (bs !!! 72%nat =? 47) then checksum_random r1 r2
  else match decode_hex_hash (sub bs 8 64) with
       | None => checksum_random r1 r2
       | Some h1 => match decode_hex_hash (sub bs 73 64) with
                    | None => checksum_random r1 r2
                    | Some h2 => mkChecksum h1 h2
                    end
       end.

Definition repair (r1 r2 : Hash) (s : bytes) : Checksum :=
  if (length s =? 72)%nat then repair_short r1 r2 s
  else if (length s =? 129)%nat then repair_normal r1 r2 s
  else if (length s =? 137)%nat then repair_full r1 r2 s
  else checksum_random r1 r2.

(** [Checksum::to_str] into a buffer of 137 bytes. *)
Definition checksum_to_str (header : Z) (c : Checksum) (buf : bytes) : bytes :=
  let buf := timestamp_read header ++ drop 8 buf in
  let buf := hash_to_str (first c) 0 8 buf in
  let buf := <[72%nat := 47]> buf in
  hash_to_str (second c) 0 73 buf.

Definition checksum_from_str (s : bytes) : result ChecksumError Checksum :=
  let body :=
    if (length s =? 129)%nat && (s !!! 64%nat =? 47) then Some s
    else if (length s =? 137)%nat && (s !!! 72%nat =? 47) then Some (drop 8 s)
    else None in
  match body with
  | None => Err InvalidFormat
  | Some bs =>
      h1 ← map_err CHashError (hash_from_str (take 64 bs));
      h2 ← map_err CHashError (hash_from_str (drop 65 bs));
      Ok (mkChecksum h1 h2)
  end.

(** [Checksum::from_bytes] and [into_bytes]: the two hashes side by side. *)
Definition checksum_from_bytes (bs : bytes) : Checksum := mkChecksum (sub bs 0 32) (sub bs 32 32).
Definition checksum_into_bytes (c : Checksum) : bytes := first c ++ second c.

(** ** The reader of the header (common/utils/checksum.rs) *)

(** The loop carries the index, reduced modulo 256, and the previous input byte. *)
Fixpoint deobfuscate_bytes (bs : bytes) (idx : Z) (prev : Z) : bytes :=
  match bs with
  | [] => []
  | b :: bs' => Z.lxor (wrap 8 (b - idx mod 256)) prev :: deobfuscate_bytes bs' (idx + 1) b
  end.

Definition extract_time_ks (b64_decode : bytes -> option bytes) (timestamp_base64 : bytes)
  : option Z :=
  timestamp_bytes ← b64_decode timestamp_base64;
  if negb (length timestamp_bytes =? 6)%nat then None
  else match deobfuscate_bytes timestamp_bytes 0 165 with
       | [b0; b1; b2; b3; b4; b5] =>
           if negb (b0 =? b4) || negb (b1 =? b5) then None
           else Some (Z.lor (Z.lor (Z.lor (Z.shiftl b2 24) (Z.shiftl b3 16)) (Z.shiftl b4 8)) b5)
       | _ => None
       end.

Definition is_ascii_hexdigit (b : Z) : bool :=
  is_ascii_digit b || ((97 <=? b) && (b <=? 102)) || ((65 <=? b) && (b <=? 70)).

(** The match on [(len, i)], arm by arm. *)
Definition checksum_char_valid (len i : nat) (b : Z) : bool :=
  if negb (is_ascii_alphanumeric b) && negb (b =? 47) && negb (b =? 45) && negb (b =? 95) then false
  else if (len =? 72)%nat then
    if (i <=? 7)%nat then true else is_ascii_hexdigit b
  else
    if (i <=? 7)%nat then true
    else if (i <=? 71)%nat then is_ascii_hexdigit b
    else if (i =? 72)%nat then b =? 47
    else is_ascii_hexdigit b.

Definition validate_checksum (b64_decode : bytes -> option bytes) (s : bytes) : bool :=
  let len := length s in
  if negb (len =? 72)%nat && negb (len =? 137)%nat then false
  else if negb (forallb (fun '(i, b) => checksum_char_valid len i b) (imap pair s)) then false
  else match extract_time_ks b64_decode (take 8 s) with Some _ => true | None => false end.

(** ** Specification *)

(** The hexadecimal text of a byte string. *)
Definition hex_of (bs : bytes) : bytes := b ← bs; [hi_char b; lo_char b].

(** RFC 4648 base64url text of six bytes, from their big-endian value. *)
Definition rfc4648_url_6 (bs : bytes) : bytes :=
  let v := be_value bs in
  (fun k => B64_ENCODE !!! Z.to_nat ((v / 64 ^ k) mod 64)) <$> [7; 6; 5; 4; 3; 2; 1; 0].

(** ** Hexadecimal digits *)

Lemma hex_byte_check :
  forallb (fun b => match hex_to_byte (hi_char (Z.of_nat b)) (lo_char (Z.of_nat b)) with
                    | Some x => (x =? Z.of_nat b) && is_ascii_hexdigit (hi_char (Z.of_nat b))
                                && is_ascii_hexdigit (lo_char (Z.of_nat b))
                    | None => false end) (seq 0 256) = true.
Proof. vm_compute. reflexivity. Qed.

Lemma hex_digit_check :
  forallb (fun b => let v := hex_code (Z.of_nat b) in
            Bool.eqb (v =? 255) (negb (is_ascii_hexdigit (Z.of_nat b))) &&
            ((v =? 255) || ((0 <=? v) && (v <? 16)
              && (HEX_CHARS !!! Z.to_nat v =? to_lower (Z.of_nat b))))) (seq 0 256) = true.
Proof. vm_compute. reflexivity. Qed.

Lemma byte_check (P : nat -> bool) b :
  forallb P (seq 0 256) = true -> in_uint 8 b -> P (Z.to_nat b) = true.
Proof.
  unfold in_uint. intros H Hb. rewrite forallb_forall in H. apply H, in_seq. lia.
Qed.

Lemma hex_to_byte_chars b :
  in_uint 8 b -> hex_to_byte (hi_char b) (lo_char b) = Some b
    /\ is_ascii_hexdigit (hi_char b) = true /\ is_ascii_hexdigit (lo_char b) = true.
Proof.
  intros Hb. pose proof (byte_check _ b hex_byte_check Hb) as H. cbv beta in H.
  rewrite Z2Nat.id in H by apply Hb.
  destruct (hex_to_byte _ _) as [x|]; [|done].
  rewrite !andb_true_iff, Z.eqb_eq in H. destruct H as [[-> ?] ?]. auto.
Qed.

Lemma hex_digit b :
  in_uint 8 b ->
  (is_ascii_hexdigit b = false /\ hex_code b = 255)
  \/ (is_ascii_hexdigit b = true /\ 0 <= hex_code b < 16
      /\ HEX_CHARS !!! Z.to_nat (hex_code b) = to_lower b).
Proof.
  intros Hb. pose proof (byte_check _ b hex_digit_check Hb) as H. cbv beta zeta in H.
  rewrite Z2Nat.id in H by apply Hb.
  rewrite andb_true_iff, orb_true_iff, !andb_true_iff, !Z.eqb_eq, Z.ltb_lt, Z.leb_le in H.
  destruct H as [H1 H2]. apply eqb_prop in H1.
  destruct (is_ascii_hexdigit b); cbn in H1;
    [right; apply Z.eqb_neq in H1|left; apply Z.eqb_eq in H1];
    [destruct H2 as [?|[[? ?] ?]]; [congruence|]|]; auto.
Qed.

Lemma hex_to_byte_spec hi lo :
  in_uint 8 hi -> in_uint 8 lo ->
  hex_to_byte hi lo
  = if is_ascii_hexdigit hi && is_ascii_hexdigit lo
    then Some ((hex_code hi) * 16 + hex_code lo) else None.
Proof.
  intros Hh Hl. unfold hex_to_byte.
  destruct (hex_digit hi Hh) as [[-> ->]|(-> & Bh & _)]; [done|].
  destruct (Z.eqb_spec (hex_code hi) 255); [lia|].
  destruct (hex_digit lo Hl) as [[-> ->]|(-> & Bl & _)]; [done|].
  destruct (Z.eqb_spec (hex_code lo) 255); [lia|].
  set (H := hex_code hi) in *. set (L := hex_code lo) in *.
  clearbody H L. cbn [andb]. f_equal.
  rewrite wrap_small by (unfold in_uint; rewrite Z.shiftl_mul_pow2; lia).
  rewrite lor_shiftl_add by lia. lia.
Qed.

Lemma hex_chars_u8 b : in_uint 8 b -> in_uint 8 (hi_char b) /\ in_uint 8 (lo_char b).
Proof.
  intros Hb. destruct (hex_to_byte_chars b Hb) as (_ & H1 & H2).
  unfold is_ascii_hexdigit, is_ascii_digit, in_uint in *.
  rewrite !orb_true_iff, !andb_true_iff, !Z.leb_le in *. lia.
Qed.

(** ** Hashes *)

Lemma length_hex_of bs : length (hex_of bs) = (2 * length bs)%nat.
Proof. unfold hex_of. induction bs as [|b bs IH]; cbn in *; [done|]. rewrite IH. lia. Qed.

Lemma hex_of_cons b bs : hex_of (b :: bs) = hi_char b :: lo_char b :: hex_of bs.
Proof. done. Qed.

Lemma hex_of_u8 bs : is_bytes bs -> is_bytes (hex_of bs).
Proof.
  induction 1 as [|b bs Hb _ IH]; [constructor|]. rewrite hex_of_cons.
  destruct (hex_chars_u8 b Hb). by repeat apply Forall_cons_2.
Qed.

Lemma decode_pairs_hex bs : is_bytes bs -> decode_pairs (hex_of bs) = Some bs.
Proof.
  induction 1 as [|b bs Hb _ IH]; [done|]. rewrite hex_of_cons. cbn [decode_pairs].
  destruct (hex_to_byte_chars b Hb) as (-> & _). cbn. by rewrite IH.
Qed.

Lemma decode_hex_hash_pairs hex : decode_hex_hash hex = decode_pairs hex.
Proof.
  revert hex. fix IH 1. intros [|hi [|lo rest]]; [done|done|].
  cbn [decode_hex_hash decode_pairs]. unfold hex_to_byte.
  destruct (_ =? 255) eqn:E1; [done|]. destruct (hex_code lo =? 255); [done|].
  cbn. by rewrite IH.
Qed.

Lemma hash_to_str_spec h i off buf :
  (off + 2 * i + 2 * length h <= length buf)%nat ->
  hash_to_str h i off buf
  = take (off + 2 * i) buf ++ hex_of h ++ drop (off + 2 * i + 2 * length h) buf.
Proof.
  revert i buf. induction h as [|b h IH]; intros i buf Hl; cbn [length] in Hl.
  - cbn [hash_to_str hex_of length]. rewrite Nat.add_0_r. symmetry. apply take_drop.
  - cbn [hash_to_str]. rewrite IH by (rewrite !length_insert; lia). rewrite hex_of_cons.
    replace (off + i * 2)%nat with (off + 2 * i)%nat by lia.
    set (k := (off + 2 * i)%nat) in *. replace (off + 2 * S i)%nat with (S (S k)) by lia.
    replace (k + 1)%nat with (S k) by lia. cbn [length].
    rewrite !drop_insert_lt by lia. rewrite (take_S_r _ _ (lo_char b)).
    2: { apply list_lookup_insert_eq. rewrite length_insert. lia. }
    rewrite take_insert_ge by lia. rewrite (take_S_r _ _ (hi_char b)).
    2: { apply list_lookup_insert_eq. lia. }
    rewrite take_insert_ge by lia. rewrite <- !app_assoc. cbn.
    do 5 f_equal. lia.
Qed.

Lemma length_hash_to_str h i off buf : length (hash_to_str h i off buf) = length buf.
Proof.
  revert i buf. induction h as [|b h IH]; intros i buf; cbn; [done|].
  by rewrite IH, !length_insert.
Qed.

Lemma decode_pairs_spec s out :
  is_bytes s -> decode_pairs s = Some out ->
  Nat.Even (length s) ->
  Forall (fun b => is_ascii_hexdigit b = true) s /\ is_bytes out
  /\ (2 * length out = length s)%nat /\ hex_of out = to_lower <$> s.
Proof.
  revert s out. fix IH 1. intros [|hi [|lo rest]] out Hs E Hev.
  - injection E as <-. split_and!; constructor.
  - destruct Hev as [k Hk]. cbn in Hk. lia.
  - unfold is_bytes in Hs. apply Forall_cons in Hs as [Hh Hs]. apply Forall_cons in Hs as [Hl Hs].
    cbn [decode_pairs] in E. rewrite hex_to_byte_spec in E by done.
    destruct (hex_digit hi Hh) as [[Dh _]|(Dh & Bh & Ch)]; rewrite Dh in E; [done|].
    destruct (hex_digit lo Hl) as [[Dl _]|(Dl & Bl & Cl)]; rewrite Dl in E; [done|].
    cbn in E.
    destruct (decode_pairs rest) as [o|] eqn:Eo; [|done]. cbn in E. injection E as <-.
    destruct (IH rest o Hs Eo) as (R1 & R2 & R3 & R4).
    { destruct Hev as [[|k] Hk]; cbn in Hk; [lia|]. exists k. lia. }
    split_and!; try (by repeat apply Forall_cons_2); cbn [length]; try lia.
    + constructor; [unfold in_uint; lia|done].
    + rewrite hex_of_cons, R4. cbn. unfold hi_char, lo_char.
      rewrite shiftr_div by lia. change 15 with (Z.ones 4). rewrite land_mask by lia.
      rewrite <- Ch, <- Cl. repeat f_equal; lia.
Qed.

Lemma even_64 : Nat.Even 64. Proof. by exists 32%nat. Qed.

Lemma hash_from_str_hex h : hash_wf h -> hash_from_str (hex_of h) = Ok h.
Proof.
  intros [Hb Hl]. unfold hash_from_str. rewrite length_hex_of, Hl. cbn [Nat.mul Nat.add Nat.eqb].
  by rewrite decode_pairs_hex.
Qed.

(** ** Checksums *)

Lemma checksum_to_str_spec header c buf :
  checksum_wf c -> length buf = 137%nat ->
  checksum_to_str header c buf
  = timestamp_read header ++ hex_of (first c) ++ 47 :: hex_of (second c).
Proof.
  intros [[_ L1] [_ L2]] Hl. unfold checksum_to_str, timestamp_read.
  set (T := le_bytes 8 header). assert (LT : length T = 8%nat) by apply length_le_bytes.
  clearbody T. set (B := T ++ drop 8 buf).
  assert (LB : length B = 137%nat) by (subst B; rewrite length_app, length_drop; lia).
  rewrite (hash_to_str_spec (first c)) by lia.
  replace (take (8 + 2 * 0) B) with T by (subst B; by rewrite take_app_length').
  rewrite L1. set (H1 := hex_of (first c)).
  assert (LH : length H1 = 64%nat) by (subst H1; rewrite length_hex_of; lia).
  set (D := drop (8 + 2 * 0 + 2 * 32) B).
  assert (LD : length D = 65%nat) by (subst D; rewrite length_drop; lia).
  clearbody D B H1. destruct D as [|d D]; [discriminate|]. cbn in LD.
  replace (<[72%nat:=47]> (T ++ H1 ++ d :: D)) with (T ++ H1 ++ 47 :: D).
  2: { rewrite insert_app_r_alt by lia. rewrite insert_app_r_alt by lia.
       by replace (72 - length T - length H1)%nat with 0%nat by lia. }
  replace (T ++ H1 ++ 47 :: D) with ((T ++ H1 ++ [47]) ++ D) by (by rewrite <- !app_assoc).
  assert (LP : length (T ++ H1 ++ [47]) = 73%nat) by (rewrite !length_app; cbn [length]; lia).
  rewrite hash_to_str_spec by (rewrite length_app, LP; lia).
  rewrite take_app_length' by lia.
  rewrite drop_ge by (rewrite length_app, LP; lia).
  by rewrite app_nil_r, <- !app_assoc.
Qed.

Lemma length_hex_hash h : hash_wf h -> length (hex_of h) = 64%nat.
Proof. intros [_ H]. rewrite length_hex_of. lia. Qed.

Lemma timestamp_read_length header : length (timestamp_read header) = 8%nat.
Proof. apply length_le_bytes. Qed.

(** The pieces of a printed checksum. *)
Lemma checksum_text_parts t h1 h2 :
  length t = 8%nat -> length h1 = 64%nat -> length h2 = 64%nat ->
  let s := t ++ h1 ++ 47 :: h2 in
  length s = 137%nat /\ s !!! 72%nat = 47 /\ take 8 s = t /\ sub s 8 64 = h1
  /\ sub s 73 64 = h2 /\ take 64 (drop 8 s) = h1 /\ drop 65 (drop 8 s) = h2.
Proof.
  intros Lt L1 L2. cbn. rewrite !length_app. cbn [length].
  assert (D8 : drop 8 (t ++ h1 ++ 47 :: h2) = h1 ++ 47 :: h2) by (by rewrite drop_app_length').
  assert (D73 : drop 65 (h1 ++ 47 :: h2) = h2).
  { change 65%nat with (64 + 1)%nat. rewrite <- drop_drop. by rewrite drop_app_length'. }
  unfold sub. rewrite D8, D73. split_and!; auto; try lia.
  - apply list_lookup_total_correct. rewrite lookup_app_r, lookup_app_r by lia.
    by replace (72 - length t - length h1)%nat with 0%nat by lia.
  - by rewrite take_app_length'.
  - by rewrite take_app_length'.
  - change 73%nat with (8 + 65)%nat. rewrite <- drop_drop, D8, D73. by rewrite take_ge by lia.
  - by rewrite take_app_length'.
Qed.

Lemma checksum_from_str_text header c buf :
  checksum_wf c -> length buf = 137%nat ->
  checksum_from_str (checksum_to_str header c buf) = Ok c.
Proof.
  intros Hc Hl. rewrite checksum_to_str_spec by done. destruct Hc as [H1 H2].
  destruct (checksum_text_parts (timestamp_read header) (hex_of (first c)) (hex_of (second c)))
    as (E1 & E2 & _ & _ & _ & E6 & E7); auto using timestamp_read_length, length_hex_hash.
  unfold checksum_from_str. rewrite E1, E2. cbn [Nat.eqb andb Z.eqb Pos.eqb].
  rewrite E6, E7, !hash_from_str_hex by done. by destruct c.
Qed.

Lemma repair_text header c buf r1 r2 :
  checksum_wf c -> length buf = 137%nat ->
  repair r1 r2 (checksum_to_str header c buf)
  = if is_valid_timestamp (timestamp_read header) then c else checksum_random r1 r2.
Proof.
  intros Hc Hl. rewrite checksum_to_str_spec by done. destruct Hc as [H1 H2].
  destruct (checksum_text_parts (timestamp_read header) (hex_of (first c)) (hex_of (second c)))
    as (E1 & E2 & E3 & E4 & E5 & _ & _); auto using timestamp_read_length, length_hex_hash.
  unfold repair. rewrite E1. cbn [Nat.eqb]. unfold repair_full.
  replace (sub _ 0 8) with (timestamp_read header) by (unfold sub; by rewrite drop_0).
  destruct (is_valid_timestamp _); [|done]. cbn [negb]. rewrite E2. cbn [Z.eqb Pos.eqb negb].
  rewrite E4, E5, !decode_hex_hash_pairs, !decode_pairs_hex by (apply H1 || apply H2).
  by destruct c.
Qed.

(** ** Timestamps *)

Lemma lxor_u8 a b : in_uint 8 a -> in_uint 8 b -> in_uint 8 (Z.lxor a b).
Proof.
  unfold in_uint. intros Ha Hb.
  assert (0 <= Z.lxor a b) by (apply Z.lxor_nonneg; lia). split; [done|].
  destruct (Z.eq_dec (Z.lxor a b) 0) as [->|]; [lia|]. apply Z.log2_lt_pow2; [lia|].
  pose proof (Z.log2_lxor a b ltac:(lia) ltac:(lia)).
  assert (Z.log2 a < 8) by (destruct (Z.eq_dec a 0); [subst; cbn; lia|apply Z.log2_lt_pow2; lia]).
  assert (Z.log2 b < 8) by (destruct (Z.eq_dec b 0); [subst; cbn; lia|apply Z.log2_lt_pow2; lia]).
  lia.
Qed.

Lemma obfuscate_u8 bs k prev : is_bytes (obfuscate_bytes bs k prev).
Proof.
  revert k prev; induction bs as [|b bs IH]; intros k prev; cbn; [constructor|].
  constructor; [apply wrap_range; lia|apply IH].
Qed.

Lemma length_obfuscate bs k prev : length (obfuscate_bytes bs k prev) = length bs.
Proof. revert k prev; induction bs as [|b bs IH]; intros; cbn; [done|]. by rewrite IH. Qed.

Lemma deobfuscate_obfuscate bs k prev :
  is_bytes bs -> in_uint 8 prev -> 0 <= k -> k + Z.of_nat (length bs) <= 256 ->
  deobfuscate_bytes (obfuscate_bytes bs k prev) k prev = bs.
Proof.
  intros Hb. revert k prev. induction Hb as [|b bs Hb _ IH]; intros k prev Hp Hk Hl;
    cbn [obfuscate_bytes deobfuscate_bytes length] in *; [done|].
  pose proof (lxor_u8 b prev Hb Hp) as Hx. f_equal.
  - rewrite Z.mod_small by lia. unfold wrap, in_uint in *.
    replace (((Z.lxor b prev + k) mod 2 ^ 8 - k) mod 2 ^ 8) with (Z.lxor b prev) by lia.
    by rewrite Z.lxor_assoc, Z.lxor_nilpotent, Z.lxor_0_r.
  - apply IH; [apply wrap_range; lia|lia|lia].
Qed.

Lemma be_value6 b0 b1 b2 b3 b4 b5 :
  be_value [b0; b1; b2; b3; b4; b5]
  = ((((b0 * 256 + b1) * 256 + b2) * 256 + b3) * 256 + b4) * 256 + b5.
Proof. unfold be_value. cbn [fold_left]. ring. Qed.

Lemma chunk_indices b0 b1 b2 :
  in_uint 8 b0 -> in_uint 8 b1 -> in_uint 8 b2 ->
  Z.shiftr b0 2 = b0 / 4
  /\ Z.lor (wrap 8 (Z.shiftl (Z.land b0 3) 4)) (Z.shiftr b1 4) = b0 mod 4 * 16 + b1 / 16
  /\ Z.lor (wrap 8 (Z.shiftl (Z.land b1 15) 2)) (Z.shiftr b2 6) = b1 mod 16 * 4 + b2 / 64
  /\ Z.land b2 63 = b2 mod 64.
Proof.
  unfold in_uint. intros H0 H1 H2. rewrite !shiftr_div by lia.
  change 3 with (Z.ones 2). change 15 with (Z.ones 4). change 63 with (Z.ones 6).
  rewrite !land_mask by lia.
  rewrite !wrap_small by (unfold in_uint; rewrite Z.shiftl_mul_pow2; lia).
  rewrite !lor_shiftl_add by lia. lia.
Qed.

Lemma encode_base64_rfc4648 bs :
  is_bytes bs -> length bs = 6%nat -> encode_base64 bs = rfc4648_url_6 bs.
Proof.
  intros Hb Hl. destruct bs as [|b0 [|b1 [|b2 [|b3 [|b4 [|b5 [|]]]]]]]; try discriminate.
  unfold is_bytes in Hb. repeat apply Forall_cons in Hb as [? Hb].
  unfold rfc4648_url_6. rewrite be_value6. cbn [encode_base64]. unfold encode_chunk.
  destruct (chunk_indices b0 b1 b2) as (-> & -> & -> & ->); auto.
  destruct (chunk_indices b3 b4 b5) as (-> & -> & -> & ->); auto.
  unfold in_uint in *. cbn [app fmap list_fmap].
  repeat (apply (f_equal2 cons); [do 2 f_equal; lia|]). done.
Qed.

Definition url_char (b : Z) : bool := is_ascii_alphanumeric b || (b =? 45) || (b =? 95).

Lemma b64_encode_check :
  forallb (fun i => let c := B64_ENCODE !!! i in (0 <=? c) && (c <? 256) && url_char c) (seq 0 64)
  = true.
Proof. vm_compute. reflexivity. Qed.

Lemma b64_encode_char i :
  0 <= i < 64 ->
  in_uint 8 (B64_ENCODE !!! Z.to_nat i) /\ url_char (B64_ENCODE !!! Z.to_nat i) = true.
Proof.
  intros Hi. pose proof b64_encode_check as H. rewrite forallb_forall in H.
  specialize (H (Z.to_nat i) ltac:(apply in_seq; lia)). cbv zeta in H.
  rewrite !andb_true_iff, Z.leb_le, Z.ltb_lt in H. unfold in_uint. tauto.
Qed.

Lemma rfc4648_chars bs :
  is_bytes (rfc4648_url_6 bs) /\ is_valid_timestamp (rfc4648_url_6 bs) = true
  /\ length (rfc4648_url_6 bs) = 8%nat.
Proof.
  unfold rfc4648_url_6. split_and!; [| |done].
  - apply Forall_fmap, Forall_forall. intros k _. apply b64_encode_char. lia.
  - unfold is_valid_timestamp. rewrite forallb_forall. intros b Hb.
    apply list_elem_of_In, list_elem_of_fmap in Hb as (k & -> & _). apply b64_encode_char. lia.
Qed.

Lemma timestamp_bytes_u8 ks : is_bytes (timestamp_bytes ks).
Proof. repeat constructor; try apply wrap_range; lia. Qed.

(** What [read] returns after [update_global_with(ks)]. *)
Lemma timestamp_read_new ks header :
  timestamp_read (update_global_with ks header)
  = rfc4648_url_6 (obfuscate_bytes (timestamp_bytes ks) 0 165).
Proof.
  unfold update_global_with, timestamp_new, timestamp_read.
  rewrite encode_base64_rfc4648 by (apply obfuscate_u8 || by rewrite length_obfuscate).
  destruct (rfc4648_chars (obfuscate_bytes (timestamp_bytes ks) 0 165)) as (Hb & _ & Hl).
  set (l := rfc4648_url_6 _) in *. clearbody l. rewrite <- Hl. by apply le_bytes_le_value.
Qed.

(** A decoder of eight base64url characters; it shows that the hypothesis on the
    [base64] crate below can hold. *)
Definition url_decode_8 (s : bytes) : option bytes :=
  idx ← mapM (fun b => z ← list_find (fun c => c = b) B64_ENCODE; Some (Z.of_nat z.1)) s;
  Some (be_bytes 6 (fold_left (fun acc d => acc * 64 + d) idx 0)).

Lemma url_index_check :
  forallb (fun i => match list_find (fun c => c = B64_ENCODE !!! i) B64_ENCODE with
                    | Some (j, _) => (j =? i)%nat | None => false end) (seq 0 64) = true.
Proof. vm_compute. reflexivity. Qed.

Lemma url_index i :
  0 <= i < 64 ->
  (z ← list_find (fun c => c = B64_ENCODE !!! Z.to_nat i) B64_ENCODE; Some (Z.of_nat z.1)) = Some i.
Proof.
  intros Hi. pose proof url_index_check as H. rewrite forallb_forall in H.
  specialize (H (Z.to_nat i) ltac:(apply in_seq; lia)).
  destruct (list_find _ _) as [[j c]|]; [|done]. apply Nat.eqb_eq in H. subst j. cbn. f_equal. lia.
Qed.

Lemma digits64_value v :
  0 <= v < 64 ^ 8 ->
  fold_left (fun acc d => acc * 64 + d)
    ((fun k => (v / 64 ^ k) mod 64) <$> [7; 6; 5; 4; 3; 2; 1; 0]) 0 = v.
Proof.
  intros Hv.
  assert (S : forall k k', 0 <= k -> k' = k + 1 ->
            v / 64 ^ k = 64 * (v / 64 ^ k') + (v / 64 ^ k) mod 64).
  { intros k k' Hk ->. rewrite Z.pow_add_r, Z.pow_1_r, <- Z.div_div by lia. lia. }
  pose proof (S 0 1 ltac:(lia) eq_refl) as S0. pose proof (S 1 2 ltac:(lia) eq_refl) as S1. pose proof (S 2 3 ltac:(lia) eq_refl) as S2.
  pose proof (S 3 4 ltac:(lia) eq_refl) as S3. pose proof (S 4 5 ltac:(lia) eq_refl) as S4. pose proof (S 5 6 ltac:(lia) eq_refl) as S5.
  pose proof (S 6 7 ltac:(lia) eq_refl) as S6. pose proof (S 7 8 ltac:(lia) eq_refl) as S7. clear S.
  assert (E8 : v / 64 ^ 8 = 0) by (by apply Z.div_small). rewrite E8 in S7.
  assert (E0 : v / 64 ^ 0 = v) by (by rewrite Z.div_1_r). rewrite E0 in S0.
  cbn [fmap list_fmap fold_left]. rewrite E0. clear E0 E8 Hv.
  repeat match goal with |- context [?x mod 64] => generalize dependent (x mod 64); intros end.
  repeat match goal with H : context [v / 64 ^ ?k] |- _ => generalize dependent (v / 64 ^ k); intros end.
  lia.
Qed.

Lemma url_decode_8_rfc4648 bs :
  is_bytes bs -> length bs = 6%nat -> url_decode_8 (rfc4648_url_6 bs) = Some bs.
Proof.
  intros Hb Hl. unfold rfc4648_url_6, url_decode_8.
  pose proof (be_value_range bs Hb) as Hr. pose proof (be_bytes_be_value bs Hb) as Hv.
  rewrite Hl in Hr, Hv. set (v := be_value bs) in *. clearbody v.
  pose proof (digits64_value v ltac:(lia)) as D. cbn [fmap list_fmap] in D |- *.
  cbn [mapM]. rewrite !url_index by lia. cbn [mbind option_bind mret option_ret].
  rewrite D. by rewrite Hv.
Qed.

Section reader.
(** [URL_SAFE_NO_PAD.decode] of the [base64] crate. *)
Variable b64_decode : bytes -> option bytes.
(** It inverts RFC 4648 base64url on six-byte inputs. *)
Hypothesis b64_decode_rfc4648 :
  forall bs, is_bytes bs -> length bs = 6%nat -> b64_decode (rfc4648_url_6 bs) = Some bs.

Lemma extract_new_header ks header :
  extract_time_ks b64_decode (timestamp_read (update_global_with ks header)) = Some (ks mod 2 ^ 32).
Proof.
  rewrite timestamp_read_new. unfold extract_time_ks.
  rewrite b64_decode_rfc4648 by (apply obfuscate_u8 || by rewrite length_obfuscate).
  cbn [mbind option_bind]. rewrite length_obfuscate. cbn [length timestamp_bytes Nat.eqb negb].
  rewrite deobfuscate_obfuscate
    by (apply timestamp_bytes_u8 || (cbn; lia) || (unfold in_uint; lia)).
  unfold timestamp_bytes. cbn [app]. rewrite !Z.eqb_refl. cbn [negb orb]. f_equal.
  change 255 with (Z.ones 8). rewrite !land_mask, !shiftr_div by lia. unfold wrap.
  rewrite !Z.mod_mod by lia.
  set (B2 := (ks / 2 ^ 24) mod 2 ^ 8). set (B3 := (ks / 2 ^ 16) mod 2 ^ 8).
  set (B4 := (ks / 2 ^ 8) mod 2 ^ 8). set (B5 := ks mod 2 ^ 8).
  rewrite (Z.shiftl_mul_pow2 B3), lor_shiftl_add by (subst B3; lia).
  replace (B2 * 2 ^ 24 + B3 * 2 ^ 16) with (Z.shiftl (B2 * 256 + B3) 16)
    by (rewrite Z.shiftl_mul_pow2; lia).
  rewrite (Z.shiftl_mul_pow2 B4), lor_shiftl_add by (subst B4; lia).
  replace ((B2 * 256 + B3) * 2 ^ 16 + B4 * 2 ^ 8) with (Z.shiftl ((B2 * 256 + B3) * 256 + B4) 8)
    by (rewrite Z.shiftl_mul_pow2; lia).
  rewrite lor_shiftl_add by (subst B5; lia). subst B2 B3 B4 B5. lia.
Qed.
End reader.

Lemma hex_of_digits bs : is_bytes bs -> Forall (fun b => is_ascii_hexdigit b = true) (hex_of bs).
Proof.
  induction 1 as [|b bs Hb _ IH]; [constructor|]. rewrite hex_of_cons.
  destruct (hex_to_byte_chars b Hb) as (_ & ? & ?). by repeat apply Forall_cons_2.
Qed.

Lemma hexdigit_alphanumeric b : is_ascii_hexdigit b = true -> is_ascii_alphanumeric b = true.
Proof.
  unfold is_ascii_hexdigit, is_ascii_alphanumeric, is_ascii_alphabetic, is_ascii_lower,
    is_ascii_upper, is_ascii_digit.
  rewrite !orb_true_iff, !andb_true_iff, !Z.leb_le. lia.
Qed.

Lemma checksum_chars_valid t h1 h2 :
  length t = 8%nat -> length h1 = 64%nat -> length h2 = 64%nat ->
  is_valid_timestamp t = true ->
  Forall (fun b => is_ascii_hexdigit b = true) h1 ->
  Forall (fun b => is_ascii_hexdigit b = true) h2 ->
  forallb (fun '(i, b) => checksum_char_valid 137 i b) (imap pair (t ++ h1 ++ 47 :: h2)) = true.
Proof.
  intros Lt L1 L2 Ht H1 H2. rewrite forallb_forall. intros [i b] Hin.
  apply list_elem_of_In, elem_of_lookup_imap in Hin as (j & c & [= -> ->] & Hj).
  unfold is_valid_timestamp in Ht. rewrite forallb_forall in Ht.
  rewrite Forall_forall in H1, H2. unfold checksum_char_valid. cbn [Nat.eqb].
  destruct (decide (j < 8)%nat) as [J|J].
  { rewrite lookup_app_l in Hj by lia.
    specialize (Ht c (proj1 (list_elem_of_In _ _) (list_elem_of_lookup_2 _ _ _ Hj))).
    replace (j <=? 7)%nat with true by (symmetry; apply Nat.leb_le; lia).
    destruct (is_ascii_alphanumeric c), (c =? 47), (c =? 45), (c =? 95); cbn in *; done. }
  replace (j <=? 7)%nat with false by (symmetry; apply Nat.leb_gt; lia).
  rewrite lookup_app_r in Hj by lia.
  destruct (decide (j < 72)%nat) as [J2|J2].
  { rewrite lookup_app_l in Hj by lia. apply list_elem_of_lookup_2, H1 in Hj.
    rewrite (hexdigit_alphanumeric c Hj). cbn [negb andb].
    by replace (j <=? 71)%nat with true by (symmetry; apply Nat.leb_le; lia). }
  replace (j <=? 71)%nat with false by (symmetry; apply Nat.leb_gt; lia).
  rewrite lookup_app_r in Hj by lia.
  destruct (j - length t - length h1)%nat as [|k] eqn:K; cbn in Hj.
  - injection Hj as <-. replace j with 72%nat by lia. done.
  - apply list_elem_of_lookup_2, H2 in Hj. rewrite (hexdigit_alphanumeric c Hj). cbn [negb andb].
    by replace (j =? 72)%nat with false by (symmetry; apply Nat.eqb_neq; lia).
Qed.

(** ** Properties *)

(** [Hash::from_str] accepts exactly the strings of 64 hexadecimal digits, in
    either case; printing the result gives the input in lower case, and printing
    then parsing any hash gives it back, whatever the buffer held. *)
Theorem hash_roundtrip (h : Hash) (s buf : bytes) :
  hash_wf h -> is_bytes s -> length buf = 64%nat ->
  hash_from_str (hash_to_str h 0 0 buf) = Ok h /\
  (forall h', hash_from_str s = Ok h' ->
     hash_wf h' /\ length s = 64%nat /\ Forall (fun b => is_ascii_hexdigit b = true) s
     /\ hash_to_str h' 0 0 buf = to_lower <$> s).
Proof.
  assert (P : forall g, hash_wf g -> length buf = 64%nat -> hash_to_str g 0 0 buf = hex_of g).
  { intros g [_ Lg] Hl. rewrite hash_to_str_spec by lia. cbn [Nat.add Nat.mul take app].
    rewrite drop_ge by lia. apply app_nil_r. }
  intros Hh Hs Hl. split; [rewrite P by done; by apply hash_from_str_hex|].
  intros h' E. unfold hash_from_str in E.
  destruct (Nat.eqb_spec (length s) 64) as [Ls|]; [|done].
  destruct (decode_pairs s) as [o|] eqn:Ed; [|done]. injection E as <-.
  destruct (decode_pairs_spec s o Hs Ed ltac:(rewrite Ls; apply even_64)) as (D & B & L & T).
  assert (hash_wf o) by (split; [done|lia]). split_and!; auto. by rewrite P.
Qed.

Lemma hash_roundtrip_witness :
  hash_from_str (hash_to_str (replicate 32 171) 0 0 (replicate 64 0)) = Ok (replicate 32 171).
Proof.
  apply (hash_roundtrip (replicate 32 171) [] (replicate 64 0)); [|constructor|reflexivity].
  split; [|reflexivity]. repeat constructor; unfold in_uint; lia.
Defined.

(** [Checksum::from_str] inverts [to_str] whatever the global timestamp is,
    while [repair] of a printed checksum returns it exactly when the timestamp
    part is made of base64url characters and otherwise two random hashes; in
    particular a checksum printed before the first [update_global_with] (header
    0) is not repaired. *)
Theorem checksum_roundtrip header c buf r1 r2 :
  checksum_wf c -> length buf = 137%nat ->
  checksum_from_str (checksum_to_str header c buf) = Ok c /\
  repair r1 r2 (checksum_to_str header c buf)
  = (if is_valid_timestamp (timestamp_read header) then c else checksum_random r1 r2) /\
  repair r1 r2 (checksum_to_str 0 c buf) = checksum_random r1 r2.
Proof.
  intros Hc Hl. split_and!; [by apply checksum_from_str_text|by apply repair_text|].
  by rewrite repair_text.
Qed.

Lemma checksum_roundtrip_witness :
  let c := mkChecksum (replicate 32 1) (replicate 32 254) in
  checksum_from_str (checksum_to_str 7 c (replicate 137 0)) = Ok c.
Proof.
  apply (checksum_roundtrip 7 (mkChecksum (replicate 32 1) (replicate 32 254)) (replicate 137 0)
           nil_hash nil_hash); [|reflexivity].
  split; (split; [|reflexivity]); repeat constructor; unfold in_uint; lia.
Defined.

(** After [update_global_with(ks)] every printed checksum passes
    [validate_checksum], and the time read back from its header is [ks] modulo
    2^32: the base64 and the obfuscation of the writer are undone by the reader. *)
Theorem timestamp_header_roundtrip b64_decode ks header c buf :
  (forall bs, is_bytes bs -> length bs = 6%nat -> b64_decode (rfc4648_url_6 bs) = Some bs) ->
  checksum_wf c -> length buf = 137%nat ->
  let s := checksum_to_str (update_global_with ks header) c buf in
  validate_checksum b64_decode s = true
  /\ extract_time_ks b64_decode (take 8 s) = Some (ks mod 2 ^ 32).
Proof.
  intros Hd Hc Hl. cbv zeta. rewrite checksum_to_str_spec by done. destruct Hc as [H1 H2].
  destruct (checksum_text_parts (timestamp_read (update_global_with ks header))
              (hex_of (first c)) (hex_of (second c)))
    as (E1 & _ & E3 & _); auto using timestamp_read_length, length_hex_hash.
  assert (X := extract_new_header b64_decode Hd ks header).
  split; [|by rewrite E3].
  unfold validate_checksum. rewrite E3, X, E1. cbn [Nat.eqb negb andb].
  rewrite checksum_chars_valid; auto using timestamp_read_length, length_hex_hash.
  - rewrite timestamp_read_new. apply rfc4648_chars.
  - apply hex_of_digits, H1.
  - apply hex_of_digits, H2.
Qed.

Lemma timestamp_header_roundtrip_witness :
  extract_time_ks url_decode_8
    (take 8 (checksum_to_str (update_global_with 1700000 0) (mkChecksum nil_hash nil_hash)
               (replicate 137 0))) = Some 1700000.
Proof.
  assert (W : hash_wf nil_hash) by (split; [repeat constructor; unfold in_uint; lia|reflexivity]).
  exact (proj2 (timestamp_header_roundtrip url_decode_8 1700000 0 (mkChecksum nil_hash nil_hash)
                  (replicate 137 0) url_decode_8_rfc4648 (conj W W) eq_refl)).
Defined.
