(* ===== verification/TokenKey.v ===== *)
(** * Token identifiers

    [src/src/app/model/token.rs] ([Randomness], [UserId], [Subject]),
    [src/src/app/model/token/provider.rs] ([Provider]),
    [src/src/app/model/token/cache.rs] ([TokenKey]) and the base-32 code of the
    patched [ulid] crate, [src/patch/ulid-1.2.1/src/base32.rs].

    Native byte order is little-endian, as on the project's build targets: the
    [cfg(target_endian = "little")] branches are the ones modelled.  [itoa]'s
    [Buffer::format] prints the decimal numeral [to_dec].  The static list of
    providers is the argument [providers]. *)
From S2P Require Import Prelude Strings Numerals Base64 Hex.

(** ** The base-32 code of ULIDs *)

Definition ULID_LEN : nat := 26.
Definition ALPHABET : bytes := as_bytes "0123456789ABCDEFGHJKMNPQRSTVWXYZ".
Definition NO_VALUE : Z := 255.
Definition LOOKUP : list Z :=
  [
   255; 255; 255; 255; 255; 255; 255; 255; 255; 255; 255; 255; 255; 255; 255; 255; 255; 255; 
   255; 255; 255; 255; 255; 255; 255; 255; 255; 255; 255; 255; 255; 255; 255; 255; 255; 255; 
   255; 255; 255; 255; 255; 255; 255; 255; 255; 255; 255; 255; 0; 1; 2; 3; 4; 5; 6; 7; 8; 9; 
   255; 255; 255; 255; 255; 255; 255; 10; 11; 12; 13; 14; 15; 16; 17; 255; 18; 19; 255; 20; 
   21; 255; 22; 23; 24; 25; 26; 255; 27; 28; 29; 30; 31; 255; 255; 255; 255; 255; 255; 10; 
   11; 12; 13; 14; 15; 16; 17; 255; 18; 19; 255; 20; 21; 255; 22; 23; 24; 25; 26; 255; 27; 
   28; 29; 30; 31; 255; 255; 255; 255; 255; 255; 255; 255; 255; 255; 255; 255; 255; 255; 
   255; 255; 255; 255; 255; 255; 255; 255; 255; 255; 255; 255; 255; 255; 255; 255; 255; 255; 
   255; 255; 255; 255; 255; 255; 255; 255; 255; 255; 255; 255; 255; 255; 255; 255; 255; 255; 
   255; 255; 255; 255; 255; 255; 255; 255; 255; 255; 255; 255; 255; 255; 255; 255; 255; 255; 
   255; 255; 255; 255; 255; 255; 255; 255; 255; 255; 255; 255; 255; 255; 255; 255; 255; 255; 
   255; 255; 255; 255; 255; 255; 255; 255; 255; 255; 255; 255; 255; 255; 255; 255; 255; 255; 
   255; 255; 255; 255; 255; 255; 255; 255; 255; 255; 255; 255; 255; 255; 255; 255; 255; 255; 
   255; 255; 255; 255; 255; 255; 255; 255; 255; 255; 255].
Definition lookup32 (b : Z) : Z := LOOKUP !!! Z.to_nat b.
#[global] Arguments lookup32 : simpl never.

(** The loop over [i] in [0..ULID_LEN]: [n] iterations remain, so the position
    written next is [n - 1]. *)
Fixpoint encode_to_array (value : Z) (n : nat) (buffer : bytes) : bytes :=
  match n with
  | O => buffer
  | S p => encode_to_array (Z.shiftr value 5) p
             (<[p := ALPHABET !!! Z.to_nat (Z.land value 31)]> buffer)
  end.

Inductive UlidError : Type := UlidInvalidLength | UlidInvalidChar.

Fixpoint decode32_loop (value : Z) (bs : bytes) : result UlidError Z :=
  match bs with
  | [] => Ok value
  | b :: bs' =>
      let val := lookup32 b in
      if negb (val =? NO_VALUE) then decode32_loop (Z.lor (wrap 128 (Z.shiftl value 5)) val) bs'
      else Err UlidInvalidChar
  end.
Definition decode32 (encoded : bytes) : result UlidError Z :=
  if negb (length encoded =? ULID_LEN)%nat then Err UlidInvalidLength
  else decode32_loop 0 encoded.

(** ** Randomness *)

Inductive RandomnessError : Type := RInvalidLength | RInvalidFormat.

(** A [Randomness] is its [u64]. *)
Definition rand_to_bytes (r : Z) : bytes := le_bytes 8 r.
Definition rand_from_bytes (bs : bytes) : Z := le_value bs.

Definition BYTE_OFFSETS : list nat := [0; 2; 4; 6; 9; 11; 14; 16]%nat.

Fixpoint rand_write (bs : bytes) (offsets : list nat) (buf : bytes) : bytes :=
  match bs, offsets with
  | byte :: bs', pos :: offsets' =>
      rand_write bs' offsets'
        (<[(pos + 1)%nat := lo_char byte]> (<[pos := hi_char byte]> buf))
  | _, _ => buf
  end.
Definition rand_to_str (r : Z) (buf : bytes) : bytes :=
  let buf := rand_write (rand_to_bytes r) BYTE_OFFSETS buf in
  let buf := <[8%nat := 45]> buf in
  <[13%nat := 45]> buf.

Fixpoint rand_read (bs : bytes) (offsets : list nat) : result RandomnessError bytes :=
  match offsets with
  | [] => Ok []
  | pos :: offsets' =>
      b ← ok_or (hex_to_byte (bs !!! pos) (bs !!! (pos + 1)%nat)) RInvalidFormat;
      rest ← rand_read bs offsets';
      Ok (b :: rest)
  end.
Definition rand_from_str (s : bytes) : result RandomnessError Z :=
  if negb (length s =? 18)%nat then Err RInvalidLength
  else if negb (s !!! 8%nat =? 45) || negb (s !!! 13%nat =? 45) then Err RInvalidFormat
  else result ← rand_read s BYTE_OFFSETS; Ok (rand_from_bytes result).

(** ** User identifiers *)

Inductive SubjectError : Type :=
| MissingProvider | MissingUserId | SInvalidFormat | InvalidUlid | InvalidHex | UnsupportedProvider.

(** The two words of [struct UserId(u64, u64)]. *)
Record UserId : Type := mkUserId { uid0 : Z; uid1 : Z }.
Definition uid_wf (u : UserId) : Prop := in_uint 64 (uid0 u) /\ in_uint 64 (uid1 u).

Definition uid_low (u : UserId) : Z := uid0 u.
Definition uid_high (u : UserId) : Z := uid1 u.
Definition uid_from_parts (low high : Z) : UserId := mkUserId low high.
Definition uid_from_u128 (value : Z) : UserId :=
  uid_from_parts (wrap 64 value) (wrap 64 (Z.shiftr value 64)).
Definition uid_as_u128 (u : UserId) : Z := Z.lor (Z.shiftl (uid_high u) 64) (uid_low u).
(** [transmute] between [[u8; 16]] and the pair of words. *)
Definition uid_from_bytes (bs : bytes) : UserId :=
  mkUserId (le_value (take 8 bs)) (le_value (drop 8 bs)).
Definition uid_to_bytes (u : UserId) : bytes := le_bytes 8 (uid0 u) ++ le_bytes 8 (uid1 u).
Definition is_legacy (u : UserId) : bool := Z.shiftr (uid_high u) 32 =? 0.

Definition PREFIX : bytes := as_bytes "user_".

Definition uid_to_str (u : UserId) (buf : bytes) : bytes :=
  if is_legacy u then take 24 (hash_to_str (drop 4 (uid_to_bytes u)) 0 0 buf)
  else
    let buf := PREFIX ++ drop 5 buf in
    take 5 buf ++ encode_to_array (uid_as_u128 u) ULID_LEN (drop 5 buf).

Definition uid_from_str (s : bytes) : result SubjectError UserId :=
  if (length s =? 31)%nat then
    id_str ← ok_or (strip_prefix PREFIX s) SInvalidFormat;
    id ← map_err (fun _ => InvalidUlid) (decode32 id_str);
    Ok (uid_from_u128 id)
  else if (length s =? 24)%nat then
    tail ← ok_or (decode_pairs s) InvalidHex;
    Ok (uid_from_bytes (replicate 4 0 ++ tail))
  else Err MissingUserId.

(** ** Providers and subjects *)

Definition AUTH0 : string := "auth0".
Definition GOOGLE_OAUTH2 : string := "google-oauth2".
Definition GITHUB : string := "github".
Definition DEFAULT_PROVIDERS : list string := [AUTH0; GOOGLE_OAUTH2; GITHUB].

Definition provider_from_str (providers : list string) (s : string) : result SubjectError string :=
  ok_or (snd <$> list_find (fun p => s = p) providers) UnsupportedProvider.

Inductive ProviderHelper : Type := HAuth0 | HGithub | HGoogle | HOther (s : string).

Definition provider_to_helper (p : string) : ProviderHelper :=
  if String.eqb p AUTH0 then HAuth0
  else if String.eqb p GITHUB then HGithub
  else if String.eqb p GOOGLE_OAUTH2 then HGoogle
  else HOther p.
Definition provider_try_extract (providers : list string) (h : ProviderHelper)
  : result SubjectError string :=
  match h with
  | HAuth0 => provider_from_str providers AUTH0
  | HGithub => provider_from_str providers GITHUB
  | HGoogle => provider_from_str providers GOOGLE_OAUTH2
  | HOther s => provider_from_str providers s
  end.

Record Subject : Type := mkSubject { provider : string; sub_id : UserId }.

Record SubjectHelper : Type := mkSubjectHelper { h_provider : ProviderHelper; h_id : bytes }.
Definition subject_to_helper (s : Subject) : SubjectHelper :=
  mkSubjectHelper (provider_to_helper (provider s)) (uid_to_bytes (sub_id s)).
Definition subject_try_extract (providers : list string) (h : SubjectHelper)
  : result SubjectError Subject :=
  p ← provider_try_extract providers (h_provider h); Ok (mkSubject p (uid_from_bytes (h_id h))).

Definition subject_from_str (providers : list string) (s : bytes) : result SubjectError Subject :=
  parts ← ok_or (split_once 124 s) SInvalidFormat;
  let '(provider, id_str) := parts in
  match provider, id_str with
  | [], _ => Err MissingProvider
  | _, [] => Err MissingUserId
  | _, _ =>
      p ← provider_from_str providers (from_bytes provider);
      id ← map_err (fun _ => InvalidUlid) (uid_from_str id_str);
      Ok (mkSubject p id)
  end.
Definition subject_display (s : Subject) : bytes :=
  as_bytes (provider s) ++ [124] ++ uid_to_str (sub_id s) (replicate 31 0).

(** ** Token keys *)

Record TokenKey : Type := mkTokenKey { user_id : UserId; randomness : Z }.
Definition key_wf (k : TokenKey) : Prop := uid_wf (user_id k) /\ in_uint 64 (randomness k).

Definition key_to_string (k : TokenKey) : string :=
  to_base64 (uid_to_bytes (user_id k) ++ rand_to_bytes (randomness k)).

Definition key_to_string2 (k : TokenKey) : string :=
  to_dec (uid_as_u128 (user_id k)) +:+ "-" +:+ to_dec (randomness k).

(** The scan for separators: [None] when a second byte that is not a digit is met. *)
Fixpoint find_sep (i : nat) (sep_pos : option nat) (bs : bytes) : option (option nat) :=
  match bs with
  | [] => Some sep_pos
  | b :: bs' =>
      if negb (is_ascii_digit b) then
        match sep_pos with
        | None => find_sep (S i) (Some i) bs'
        | Some _ => None
        end
      else find_sep (S i) sep_pos bs'
  end.

Definition key_from_string (s : string) : outcome (option TokenKey) :=
  let bs := as_bytes s in
  if (60 <? length bs)%nat then Ret None
  else if (length bs =? 32)%nat then
    decoded ← from_base64 s;
    match decoded with
    | None => Ret None
    | Some d =>
        if (length d =? 24)%nat then
          Ret (Some (mkTokenKey (uid_from_bytes (take 16 d)) (rand_from_bytes (drop 16 d))))
        else Panic
    end
  else Ret (
    sep ← find_sep 0 None bs;
    sep_pos ← sep;
    user_id_val ← parse_uint 128 (from_bytes (take sep_pos bs));
    randomness_val ← parse_uint 64 (from_bytes (drop (S sep_pos) bs));
    Some (mkTokenKey (uid_from_u128 user_id_val) randomness_val)).

(** ** ULIDs *)

Lemma ulid_table_check :
  forallb (fun i => let c := ALPHABET !!! i in
    (lookup32 c =? Z.of_nat i) && (0 <=? c) && (c <? 256)) (seq 0 32) = true.
Proof. vm_compute. reflexivity. Qed.

Lemma lookup32_range_check :
  forallb (fun b => let v := lookup32 (Z.of_nat b) in (v =? 255) || ((0 <=? v) && (v <? 32)))
    (seq 0 256) = true.
Proof. vm_compute. reflexivity. Qed.

Definition char32 (d : Z) : Z := ALPHABET !!! Z.to_nat d.

Lemma lookup32_char d : 0 <= d < 32 -> lookup32 (char32 d) = d /\ in_uint 8 (char32 d).
Proof.
  intros Hd. pose proof ulid_table_check as H. rewrite forallb_forall in H.
  specialize (H (Z.to_nat d) ltac:(apply in_seq; lia)). cbv zeta in H. fold (char32 d) in H.
  rewrite !andb_true_iff, Z.eqb_eq, Z.leb_le, Z.ltb_lt in H. unfold in_uint. lia.
Qed.

Lemma encode32_spec value n buf :
  (n <= length buf)%nat ->
  encode_to_array value n buf = (char32 <$> digits 32 n value) ++ drop n buf.
Proof.
  revert value buf. induction n as [|n IH]; intros value buf Hl; cbn [encode_to_array digits].
  - done.
  - rewrite IH by (rewrite length_insert; lia). rewrite shiftr_div by lia.
    change 31 with (Z.ones 5). rewrite land_mask by lia.
    rewrite fmap_app, <- app_assoc. change (2 ^ 5) with 32. f_equal. cbn.
    rewrite insert_take_drop, drop_app_ge by (rewrite ?length_take; lia).
    rewrite length_take_le by lia. by rewrite Nat.sub_diag.
Qed.

Lemma decode32_digits acc ds :
  Forall (fun d => 0 <= d < 32) ds -> 0 <= acc ->
  acc * 32 ^ Z.of_nat (length ds) + positional 32 ds < 2 ^ 128 ->
  decode32_loop acc (char32 <$> ds) = Ok (acc * 32 ^ Z.of_nat (length ds) + positional 32 ds).
Proof.
  intros Hd. revert acc. induction Hd as [|d ds Hd Hds IH]; intros acc Ha Hlt;
    cbn [fmap list_fmap decode32_loop].
  - f_equal. cbn. lia.
  - destruct (lookup32_char d Hd) as [-> _]. unfold NO_VALUE.
    destruct (Z.eqb_spec d 255); [lia|]. cbn [negb].
    rewrite positional_cons in Hlt |- *. cbn [length] in Hlt |- *.
    rewrite Nat2Z.inj_succ, Z.pow_succ_r in Hlt |- * by lia.
    pose proof (positional_nonneg 32 ltac:(lia) ds Hds). pose proof (pow_B_pos 32 ltac:(lia) (length ds)).
    assert (Hs : in_uint 128 (Z.shiftl acc 5))
      by (unfold in_uint; rewrite Z.shiftl_mul_pow2 by lia; nia).
    rewrite (wrap_small _ _ Hs), lor_shiftl_add by lia. change (2 ^ 5) with 32.
    rewrite IH by lia. f_equal. ring.
Qed.

Lemma ulid_roundtrip value buf :
  in_uint 128 value -> length buf = ULID_LEN ->
  decode32 (encode_to_array value ULID_LEN buf) = Ok value.
Proof.
  unfold in_uint. intros Hv Hl. rewrite encode32_spec by lia. rewrite drop_ge by lia.
  rewrite app_nil_r. unfold decode32. rewrite length_fmap, length_digits. cbn [Nat.eqb ULID_LEN negb].
  assert (E : positional 32 (digits 32 26 value) = value).
  { rewrite positional_digits by lia. apply Z.mod_small.
    assert (2 ^ 128 < 32 ^ Z.of_nat 26) by (vm_compute; reflexivity). lia. }
  change ULID_LEN with 26%nat.
  rewrite decode32_digits, ?E; [done|apply digits_range; lia|lia|lia].
Qed.

(** ** User identifiers *)

Lemma uid_u128 u : uid_wf u -> uid_as_u128 u = uid1 u * 2 ^ 64 + uid0 u.
Proof. intros [H0 H1]. apply lor_shiftl_add; [lia|apply H0]. Qed.

Lemma uid_u128_range u : uid_wf u -> in_uint 128 (uid_as_u128 u).
Proof. intros H. rewrite uid_u128 by done. destruct H. unfold in_uint in *. lia. Qed.

Lemma uid_from_as u : uid_wf u -> uid_from_u128 (uid_as_u128 u) = u.
Proof.
  intros H. rewrite uid_u128 by done. destruct u as [a b], H as [H0 H1]. cbn in *.
  unfold uid_from_u128, uid_from_parts, wrap, in_uint in *. rewrite shiftr_div by lia. f_equal; lia.
Qed.

Lemma uid_wf_u128 v : uid_wf (uid_from_u128 v).
Proof. split; apply wrap_range; lia. Qed.

Lemma uid_as_from v : in_uint 128 v -> uid_as_u128 (uid_from_u128 v) = v.
Proof.
  intros H. rewrite uid_u128 by apply uid_wf_u128. cbn. unfold wrap, in_uint in *.
  rewrite shiftr_div by lia. lia.
Qed.

Lemma length_uid_bytes u : length (uid_to_bytes u) = 16%nat.
Proof. unfold uid_to_bytes. by rewrite length_app, !length_le_bytes. Qed.

Lemma uid_bytes_u8 u : is_bytes (uid_to_bytes u).
Proof. apply Forall_app. split; apply le_bytes_u8. Qed.

Lemma uid_from_to_bytes u : uid_wf u -> uid_from_bytes (uid_to_bytes u) = u.
Proof.
  intros [H0 H1]. unfold uid_from_bytes, uid_to_bytes.
  rewrite take_app_length', drop_app_length' by (symmetry; apply length_le_bytes).
  rewrite !le_value_le_bytes. destruct u. cbn in *. unfold in_uint in *.
  change (256 ^ Z.of_nat 8) with (2 ^ 64). f_equal; apply Z.mod_small; done.
Qed.

Lemma uid_from_bytes_wf bs : is_bytes bs -> length bs = 16%nat -> uid_wf (uid_from_bytes bs).
Proof.
  intros Hb Hl.
  assert (R : forall l, is_bytes l -> length l = 8%nat -> in_uint 64 (le_value l)).
  { intros l Hl1 Hl2. pose proof (le_value_range l Hl1) as Hr. rewrite Hl2 in Hr. exact Hr. }
  split; apply R; try (by apply Forall_take || by apply Forall_drop).
  - rewrite length_take. lia.
  - rewrite length_drop. lia.
Qed.

Lemma uid_to_from_bytes bs :
  is_bytes bs -> length bs = 16%nat -> uid_to_bytes (uid_from_bytes bs) = bs.
Proof.
  intros Hb Hl. unfold uid_to_bytes, uid_from_bytes. cbn [uid0 uid1].
  replace (le_bytes 8 (le_value (take 8 bs))) with (take 8 bs).
  2: { symmetry. rewrite <- (le_bytes_le_value (take 8 bs)) at 2 by (by apply Forall_take).
       f_equal. rewrite length_take. lia. }
  replace (le_bytes 8 (le_value (drop 8 bs))) with (drop 8 bs); [apply take_drop|].
  symmetry. rewrite <- (le_bytes_le_value (drop 8 bs)) at 2 by (by apply Forall_drop).
  f_equal. rewrite length_drop. lia.
Qed.

Lemma uid_to_str_new u buf :
  is_legacy u = false -> length buf = 31%nat ->
  uid_to_str u buf = PREFIX ++ encode_to_array (uid_as_u128 u) ULID_LEN (drop 5 buf).
Proof.
  intros E Hl. unfold uid_to_str. rewrite E.
  change 5%nat with (length PREFIX). by rewrite take_app_length, drop_app_length.
Qed.

Lemma length_encode32 v n buf : length (encode_to_array v n buf) = length buf.
Proof.
  revert v buf; induction n as [|n IH]; intros v buf; cbn; [done|]. by rewrite IH, length_insert.
Qed.

Lemma uid_str_new_roundtrip u buf :
  uid_wf u -> is_legacy u = false -> length buf = 31%nat ->
  length (uid_to_str u buf) = 31%nat /\ uid_from_str (uid_to_str u buf) = Ok u.
Proof.
  intros Hw E Hl. rewrite uid_to_str_new by done.
  assert (L : length (drop 5 buf) = ULID_LEN) by (rewrite length_drop; unfold ULID_LEN; lia).
  assert (LL : length (PREFIX ++ encode_to_array (uid_as_u128 u) ULID_LEN (drop 5 buf)) = 31%nat)
    by (rewrite length_app, length_encode32, L; done).
  split; [done|]. unfold uid_from_str. rewrite LL. cbn [Nat.eqb]. unfold strip_prefix.
  rewrite take_app_length, bool_decide_true, drop_app_length by done. cbn [ok_or mbind result_bind].
  rewrite ulid_roundtrip by (done || by apply uid_u128_range). cbn. by rewrite uid_from_as.
Qed.

(** The word that [is_legacy] inspects is the last four bytes in memory. *)
Lemma is_legacy_bytes bs :
  is_bytes bs -> length bs = 16%nat ->
  is_legacy (uid_from_bytes bs) = bool_decide (drop 12 bs = [0; 0; 0; 0]).
Proof.
  intros Hb Hl. unfold is_legacy, uid_high, uid_from_bytes. cbn [uid1].
  do 16 (destruct bs as [|? bs]; [discriminate|]). destruct bs; [|discriminate].
  unfold is_bytes in Hb. repeat apply Forall_cons in Hb as [? Hb]. unfold in_uint in *.
  cbn [drop le_value]. rewrite shiftr_div by lia.
  match goal with |- (?x =? 0) = _ => destruct (Z.eqb_spec x 0) as [E|E] end; symmetry.
  - apply bool_decide_true. repeat (apply (f_equal2 cons); [lia|]). done.
  - apply bool_decide_false. intros [= -> -> -> ->]. apply E. lia.
Qed.

(** ** Randomness *)

Lemma rand_to_str_spec r buf :
  length buf = 18%nat ->
  exists b0 b1 b2 b3 b4 b5 b6 b7, le_bytes 8 r = [b0; b1; b2; b3; b4; b5; b6; b7] /\
  rand_to_str r buf
  = hex_of [b0; b1; b2; b3] ++ [45] ++ hex_of [b4; b5] ++ [45] ++ hex_of [b6; b7].
Proof.
  intros Hl. pose proof (length_le_bytes 8 r) as L. unfold rand_to_str, rand_to_bytes.
  destruct (le_bytes 8 r) as [|b0 [|b1 [|b2 [|b3 [|b4 [|b5 [|b6 [|b7 [|]]]]]]]]]; try discriminate.
  exists b0, b1, b2, b3, b4, b5, b6, b7. split; [done|].
  do 18 (destruct buf as [|? buf]; [discriminate|]). destruct buf; [|discriminate]. reflexivity.
Qed.

Lemma rand_roundtrip r buf :
  in_uint 64 r -> length buf = 18%nat -> rand_from_str (rand_to_str r buf) = Ok r.
Proof.
  intros Hr Hl. destruct (rand_to_str_spec r buf Hl) as (b0 & b1 & b2 & b3 & b4 & b5 & b6 & b7 & E & ->).
  pose proof (le_bytes_u8 8 r) as Hb. pose proof (le_value_le_bytes 8 r) as Hv. rewrite E in Hb, Hv.
  unfold is_bytes in Hb. repeat apply Forall_cons in Hb as [? Hb].
  rewrite !hex_of_cons. change (hex_of []) with (@nil Z). cbn [app].
  unfold rand_from_str. cbn [length Nat.eqb negb].
  match goal with |- context [rand_read ?l _] => set (L := l) end.
  replace (L !!! 8%nat) with 45 by done. replace (L !!! 13%nat) with 45 by done.
  cbn [Z.eqb Pos.eqb negb orb]. unfold BYTE_OFFSETS. cbn [rand_read Nat.add].
  repeat match goal with |- context [hex_to_byte (L !!! ?i) (L !!! ?j)] =>
    let hi := eval lazy [L lookup_total list_lookup_total] in (L !!! i) in
    let lo := eval lazy [L lookup_total list_lookup_total] in (L !!! j) in
    change (L !!! i) with hi; change (L !!! j) with lo
  end.
  repeat match goal with |- context [hex_to_byte (hi_char ?b) (lo_char ?b)] =>
    rewrite (proj1 (hex_to_byte_chars b ltac:(assumption))) end.
  cbn [ok_or mbind result_bind]. unfold rand_from_bytes. rewrite Hv. f_equal. by apply Z.mod_small.
Qed.

(** ** Token keys *)

Lemma find_sep_digits i sep ds :
  Forall (fun b => is_ascii_digit b = true) ds -> find_sep i sep ds = Some sep.
Proof.
  intros H. revert i. induction H as [|b ds Hb _ IH]; intros i; cbn; [done|]. rewrite Hb. apply IH.
Qed.

Lemma find_sep_dash i ds1 ds2 :
  Forall (fun b => is_ascii_digit b = true) ds1 ->
  Forall (fun b => is_ascii_digit b = true) ds2 ->
  find_sep i None (ds1 ++ 45 :: ds2) = Some (Some (i + length ds1)%nat).
Proof.
  intros H1 H2. revert i. induction H1 as [|b ds Hb _ IH]; intros i; cbn [app find_sep length].
  - replace (is_ascii_digit 45) with false by done. cbn [negb].
    rewrite find_sep_digits by done. by rewrite Nat.add_0_r.
  - rewrite Hb. cbn [negb]. rewrite IH. do 2 f_equal. lia.
Qed.

Lemma key_string2_bytes k :
  as_bytes (key_to_string2 k)
  = dec_bytes (uid_as_u128 (user_id k)) ++ 45 :: dec_bytes (randomness k).
Proof. unfold key_to_string2. by rewrite !as_bytes_app, !as_bytes_to_dec. Qed.

Lemma key_string2_length k :
  key_wf k -> (String.length (key_to_string2 k) <= 60)%nat.
Proof.
  intros [Hu Hr]. pose proof (uid_u128_range _ Hu) as H128. unfold in_uint in *.
  rewrite <- length_as_bytes, key_string2_bytes, length_app. cbn [length].
  rewrite <- !as_bytes_to_dec, !length_as_bytes.
  pose proof (length_to_dec (uid_as_u128 (user_id k)) 39 ltac:(lia)).
  pose proof (length_to_dec (randomness k) 20 ltac:(lia)).
  assert (2 ^ 128 < 10 ^ Z.of_nat 39) by (vm_compute; reflexivity).
  assert (2 ^ 64 < 10 ^ Z.of_nat 20) by (vm_compute; reflexivity). lia.
Qed.

Lemma key_string2_roundtrip k :
  key_wf k -> String.length (key_to_string2 k) <> 32%nat ->
  key_from_string (key_to_string2 k) = Ret (Some k).
Proof.
  intros Hw Hl. pose proof (key_string2_length k Hw) as H60. destruct Hw as [Hu Hr].
  pose proof (uid_u128_range _ Hu) as H128. unfold key_from_string.
  rewrite length_as_bytes.
  destruct (Nat.ltb_spec 60 (String.length (key_to_string2 k))); [lia|].
  destruct (Nat.eqb_spec (String.length (key_to_string2 k)) 32); [done|].
  rewrite key_string2_bytes, find_sep_dash by apply dec_bytes_digits.
  cbn [mbind option_bind Nat.add]. rewrite take_app_length.
  replace (drop (S (length (dec_bytes (uid_as_u128 (user_id k)))))
             (dec_bytes (uid_as_u128 (user_id k)) ++ 45 :: dec_bytes (randomness k)))
    with (dec_bytes (randomness k)).
  2: { symmetry. change (?a ++ 45 :: ?b) with (a ++ [45] ++ b). rewrite app_assoc.
       apply drop_app_length'. rewrite length_app. cbn. lia. }
  replace (from_bytes (dec_bytes (uid_as_u128 (user_id k)))) with (to_dec (uid_as_u128 (user_id k))) by done.
  replace (from_bytes (dec_bytes (randomness k))) with (to_dec (randomness k)) by done.
  rewrite (parse_to_dec 128) by exact H128. cbn [mbind option_bind].
  rewrite (parse_to_dec 64) by exact Hr. cbn. rewrite uid_from_as by done. by destruct k.
Qed.

Lemma key_bytes_u8 k : is_bytes (uid_to_bytes (user_id k) ++ rand_to_bytes (randomness k)).
Proof. apply Forall_app. split; [apply uid_bytes_u8|apply le_bytes_u8]. Qed.

Lemma key_string_roundtrip k :
  key_wf k -> String.length (key_to_string k) = 32%nat
    /\ key_from_string (key_to_string k) = Ret (Some k).
Proof.
  intros [Hu Hr]. destruct (base64_inverse _ (key_bytes_u8 k)) as [E L].
  fold (key_to_string k) in E, L.
  rewrite length_app, length_uid_bytes in L. unfold rand_to_bytes in L.
  rewrite length_le_bytes in L. change (encoded_len (16 + 8)) with 32%nat in L. split; [done|].
  unfold key_from_string. rewrite length_as_bytes, L. cbn [Nat.ltb Nat.leb Nat.eqb].
  rewrite E. cbn [mbind outcome_bind]. rewrite length_app, length_uid_bytes. unfold rand_to_bytes.
  rewrite length_le_bytes. cbn [Nat.add Nat.eqb].
  rewrite take_app_length', drop_app_length' by (symmetry; apply length_uid_bytes).
  rewrite uid_from_to_bytes by done. unfold rand_from_bytes. rewrite le_value_le_bytes.
  rewrite Z.mod_small by exact Hr. by destruct k.
Qed.

(** ** Subjects *)

Lemma provider_from_str_elem ps p : p ∈ ps -> provider_from_str ps p = Ok p.
Proof.
  intros H. unfold provider_from_str.
  destruct (list_find (fun q => p = q) ps) as [[i q]|] eqn:E; cbn.
  - by apply list_find_Some in E as (_ & <- & _).
  - apply list_find_None in E. rewrite Forall_forall in E. by destruct (E p H).
Qed.

Lemma provider_from_str_Ok ps s p : provider_from_str ps s = Ok p -> p = s /\ s ∈ ps.
Proof.
  unfold provider_from_str. destruct (list_find _ ps) as [[i q]|] eqn:E; cbn; [|done].
  apply list_find_Some in E as (Hi & <- & _). intros [= <-].
  split; [done|]. by eapply list_elem_of_lookup_2.
Qed.

(** A provider the parser can meet again: listed, not empty and without [|]. *)
Definition provider_wf (ps : list string) (p : string) : Prop :=
  p ∈ ps /\ p <> EmptyString /\ Forall (fun b => b <> 124) (as_bytes p).

Lemma subject_str_roundtrip ps s :
  provider_wf ps (provider s) -> uid_wf (sub_id s) -> is_legacy (sub_id s) = false ->
  subject_from_str ps (subject_display s) = Ok s.
Proof.
  intros (He & Hn & Hs) Hw Hl. unfold subject_from_str, subject_display.
  change (?a ++ [124] ++ ?b) with (a ++ 124 :: b). rewrite split_once_app by done.
  cbn [ok_or mbind result_bind].
  destruct (uid_str_new_roundtrip (sub_id s) (replicate 31 0) Hw Hl eq_refl) as [L E].
  destruct (as_bytes (provider s)) as [|b bs] eqn:Eb.
  { destruct Hn. by destruct (provider s). }
  destruct (uid_to_str (sub_id s) (replicate 31 0)) as [|c cs] eqn:Ec; [done|].
  rewrite <- Eb, from_bytes_as_bytes, provider_from_str_elem by done. cbn [mbind result_bind].
  rewrite E. cbn. by destruct s.
Qed.

Lemma provider_helper_roundtrip ps p :
  p ∈ ps -> provider_try_extract ps (provider_to_helper p) = Ok p.
Proof.
  intros H. unfold provider_to_helper.
  repeat match goal with |- context [if String.eqb ?a ?b then _ else _] =>
    destruct (String.eqb_spec a b); [subst; by apply provider_from_str_elem|] end.
  by apply provider_from_str_elem.
Qed.

Lemma subject_helper_inverse ps s :
  provider s ∈ ps -> uid_wf (sub_id s) ->
  subject_try_extract ps (subject_to_helper s) = Ok s.
Proof.
  intros Hp Hw. unfold subject_try_extract, subject_to_helper. cbn [h_provider h_id].
  rewrite provider_helper_roundtrip by done. cbn [mbind result_bind].
  rewrite uid_from_to_bytes by done. by destruct s.
Qed.

(** ** Properties *)

(** Both printed forms of a token key parse back to it, except that a key
    whose decimal form [<user_id>-<randomness>] happens to have 32 characters is
    taken for base64; neither form exceeds the 60 bytes [from_string] accepts and
    the parser never panics on them. *)
Theorem token_key_roundtrip k :
  key_wf k ->
  key_from_string (key_to_string k) = Ret (Some k)
  /\ (String.length (key_to_string2 k) <= 60)%nat
  /\ (String.length (key_to_string2 k) <> 32%nat ->
      key_from_string (key_to_string2 k) = Ret (Some k)).
Proof.
  intros Hw. split_and!.
  - by apply key_string_roundtrip.
  - by apply key_string2_length.
  - by apply key_string2_roundtrip.
Qed.

Lemma token_key_roundtrip_witness :
  let k := mkTokenKey (uid_from_u128 (2 ^ 127 + 12345)) 987654321 in
  key_from_string (key_to_string2 k) = Ret (Some k).
Proof.
  assert (W : key_wf (mkTokenKey (uid_from_u128 (2 ^ 127 + 12345)) 987654321))
    by (split; [apply uid_wf_u128|cbn; unfold in_uint; lia]).
  apply (token_key_roundtrip _ W). vm_compute. discriminate.
Defined.

(** The two forms of [from_string] overlap: the decimal form of this key has
    32 characters, all of them in the base64 alphabet, and is read as another
    key. *)
Theorem token_key_decimal_misread :
  exists k k', key_wf k /\ String.length (key_to_string2 k) = 32%nat
    /\ key_from_string (key_to_string2 k) = Ret (Some k') /\ k' <> k.
Proof.
  exists (mkTokenKey (uid_from_u128 (10 ^ 27)) 123). eexists. split_and!.
  - split; [apply uid_wf_u128|cbn; unfold in_uint; lia].
  - vm_compute. reflexivity.
  - vm_compute. reflexivity.
  - vm_compute. discriminate.
Qed.

(** A user identifier in the new format prints as 31 characters and parses
    back to itself; the words, the [u128] and the bytes are interchangeable. *)
Theorem user_id_roundtrip u buf :
  uid_wf u -> length buf = 31%nat ->
  (is_legacy u = false ->
     length (uid_to_str u buf) = 31%nat /\ uid_from_str (uid_to_str u buf) = Ok u)
  /\ uid_from_u128 (uid_as_u128 u) = u /\ uid_from_bytes (uid_to_bytes u) = u.
Proof.
  intros Hw Hl. split_and!.
  - intros E. by apply uid_str_new_roundtrip.
  - by apply uid_from_as.
  - by apply uid_from_to_bytes.
Qed.

Lemma user_id_roundtrip_witness :
  let u := uid_from_u128 (2 ^ 100 + 77) in uid_from_str (uid_to_str u (replicate 31 0)) = Ok u.
Proof.
  apply (user_id_roundtrip (uid_from_u128 (2 ^ 100 + 77)) (replicate 31 0));
    [apply uid_wf_u128|reflexivity|vm_compute; reflexivity].
Defined.

(** A 24-digit legacy identifier is stored with four zero bytes in front,
    which are the low bits of the number, while [is_legacy] tests its high bits:
    an accepted legacy identifier counts as legacy only if its last four bytes are
    zero, so any other one is printed back in the 31-character form. *)
Theorem legacy_user_id_detection s u :
  is_bytes s -> length s = 24%nat -> uid_from_str s = Ok u ->
  exists out, decode_pairs s = Some out /\ uid_to_bytes u = replicate 4 0 ++ out
    /\ is_legacy u = bool_decide (drop 8 out = [0; 0; 0; 0])
    /\ (is_legacy u = false -> length (uid_to_str u (replicate 31 0)) = 31%nat).
Proof.
  intros Hs Hl E. unfold uid_from_str in E. rewrite Hl in E. cbn [Nat.eqb] in E.
  destruct (decode_pairs s) as [out|] eqn:D; [|done]. cbn in E. injection E as <-.
  destruct (decode_pairs_spec s out Hs D) as (_ & Hb & Lo & _).
  { rewrite Hl. by exists 12%nat. }
  assert (Hb' : is_bytes (replicate 4 0 ++ out))
    by (apply Forall_app; split; [repeat constructor; unfold in_uint; lia|done]).
  assert (Lb : length (replicate 4 0 ++ out) = 16%nat) by (rewrite length_app; cbn; lia).
  exists out. split_and!; [done| | |].
  - by apply uid_to_from_bytes.
  - rewrite is_legacy_bytes by done. f_equal.
  - intros F. apply uid_str_new_roundtrip; [|done|done]. by apply uid_from_bytes_wf.
Qed.

Lemma legacy_user_id_detection_witness :
  exists u, uid_from_str (as_bytes "0102030405060708090a0b0c") = Ok u
    /\ length (uid_to_str u (replicate 31 0)) = 31%nat.
Proof.
  destruct (uid_from_str (as_bytes "0102030405060708090a0b0c")) as [u|] eqn:E; [|discriminate E].
  destruct (legacy_user_id_detection (as_bytes "0102030405060708090a0b0c") u
              (as_bytes_u8 _) eq_refl E) as (out & D & _ & L & P).
  exists u. split; [reflexivity|]. apply P. rewrite L. vm_compute in D. injection D as <-.
  reflexivity.
Defined.

(** Parsing a randomness string gives back the printed value, for every
    [u64] and whatever the buffer held. *)
Theorem randomness_roundtrip r buf :
  in_uint 64 r -> length buf = 18%nat -> rand_from_str (rand_to_str r buf) = Ok r.
Proof. apply rand_roundtrip. Qed.

Lemma randomness_roundtrip_witness :
  rand_from_str (rand_to_str 81985529216486895 (replicate 18 0)) = Ok 81985529216486895.
Proof.
  apply (randomness_roundtrip 81985529216486895 (replicate 18 0));
    [unfold in_uint; lia|reflexivity].
Defined.

(** The subject of a token survives both of its encodings: the archived
    helper for every identifier, the printed form [provider|id] for an identifier
    in the new format; and parsing accepts only listed providers. *)
Theorem subject_roundtrip ps s :
  provider_wf ps (provider s) -> uid_wf (sub_id s) ->
  subject_try_extract ps (subject_to_helper s) = Ok s
  /\ (is_legacy (sub_id s) = false -> subject_from_str ps (subject_display s) = Ok s)
  /\ (forall bs s', subject_from_str ps bs = Ok s' -> provider s' ∈ ps).
Proof.
  intros Hp Hw. split_and!.
  - apply subject_helper_inverse; [apply Hp|done].
  - intros Hl. by apply subject_str_roundtrip.
  - intros bs s'. unfold subject_from_str.
    destruct (split_once 124 bs) as [[[|b p] [|c i]]|]; cbn; try done.
    destruct (provider_from_str ps _) as [q|] eqn:E; cbn; [|done].
    destruct (uid_from_str _); cbn; [|done]. intros [= <-].
    by apply provider_from_str_Ok in E as [-> ?].
Qed.

Lemma subject_roundtrip_witness :
  let s := mkSubject "auth0" (uid_from_u128 (2 ^ 100 + 77)) in
  subject_from_str DEFAULT_PROVIDERS (subject_display s) = Ok s.
Proof.
  apply (subject_roundtrip DEFAULT_PROVIDERS (mkSubject "auth0" (uid_from_u128 (2 ^ 100 + 77))));
    [|apply uid_wf_u128|vm_compute; reflexivity].
  split; [left|split; [done|]]. repeat constructor; vm_compute; discriminate.
Defined.
