(* ===== verification/Profile.v ===== *)
(** * Account profiles

    [src/src/common/model/userinfo.rs] and its modules, and
    [src/src/app/model/cpp.rs] ([GcppHost]): the data the server fetches about an
    account, the enumerations with their printed names, and the identifiers with
    a checked format.

    A [chrono::DateTime<Utc>] is the number of nanoseconds since the epoch and an
    [f64] its 64-bit pattern; the code only stores and copies them. *)
From S2P Require Import Prelude Strings Numerals Hex TokenKey.

(** A [match] on a string against constants, in order. *)
Fixpoint match_str {A} (arms : list (string * A)) (s : string) : option A :=
  match arms with
  | [] => None
  | (c, a) :: arms' => if String.eqb s c then Some a else match_str arms' s
  end.

(** What the code promises of an enumeration with printed names. *)
Class StrEnum (A : Type) := {
  from_str : string -> option A;
  as_str : A -> string;
  from_as_str a : from_str (as_str a) = Some a;
  from_str_as s a : from_str s = Some a -> as_str a = s;
}.

(** ** Subscription status *)

Inductive SubscriptionStatus : Type :=
| Trialing | Active | Incomplete | IncompleteExpired | PastDue | Canceled | Unpaid | Paused.

Definition status_from_str : string -> option SubscriptionStatus :=
  match_str [("trialing", Trialing); ("active", Active); ("incomplete", Incomplete);
             ("incomplete_expired", IncompleteExpired); ("past_due", PastDue);
             ("canceled", Canceled); ("unpaid", Unpaid); ("paused", Paused)].
Definition status_as_str (s : SubscriptionStatus) : string :=
  match s with
  | Trialing => "trialing"
  | Active => "active"
  | Incomplete => "incomplete"
  | IncompleteExpired => "incomplete_expired"
  | PastDue => "past_due"
  | Canceled => "canceled"
  | Unpaid => "unpaid"
  | Paused => "paused"
  end.

(** ** Membership *)

Inductive MembershipType : Type := Free | FreeTrial | Pro | ProPlus | Ultra | Enterprise.

Definition membership_from_str : string -> option MembershipType :=
  match_str [("free", Free); ("free_trial", FreeTrial); ("pro", Pro); ("pro_plus", ProPlus);
             ("ultra", Ultra); ("enterprise", Enterprise)].
Definition membership_as_str (m : MembershipType) : string :=
  match m with
  | Free => "free"
  | FreeTrial => "free_trial"
  | Pro => "pro"
  | ProPlus => "pro_plus"
  | Ultra => "ultra"
  | Enterprise => "enterprise"
  end.

(** ** Limits *)

Inductive LimitType : Type := LUser | LTeam.

Definition limit_from_str : string -> option LimitType :=
  match_str [("user", LUser); ("team", LTeam)].
Definition limit_as_str (l : LimitType) : string :=
  match l with LUser => "user" | LTeam => "team" end.

(** ** Completion hosts *)

Inductive GcppHost : Type := Asia | EU | US.

Definition HTTPS_PREFIX : string := "https://".
Definition CURSOR_GCPP_ASIA_HOST : string := "us-asia.gcpp.cursor.sh".
Definition CURSOR_GCPP_EU_HOST : string := "us-eu.gcpp.cursor.sh".
Definition CURSOR_GCPP_US_HOST : string := "us-only.gcpp.cursor.sh".

Definition strip_https (s : string) : string :=
  match strip_prefix (as_bytes HTTPS_PREFIX) (as_bytes s) with
  | Some rest => from_bytes rest
  | None => s
  end.
Definition gcpp_from_str (s : string) : option GcppHost :=
  match_str [(CURSOR_GCPP_ASIA_HOST, Asia); ("Asia", Asia);
             (CURSOR_GCPP_EU_HOST, EU); ("EU", EU);
             (CURSOR_GCPP_US_HOST, US); ("US", US)]%string (strip_https s).
Definition gcpp_as_str (h : GcppHost) : string :=
  match h with Asia => "Asia" | EU => "EU" | US => "US" end.
Definition gcpp_from_u8 (value : Z) : option GcppHost :=
  if value =? 0 then Some Asia
  else if value =? 1 then Some EU
  else if value =? 2 then Some US
  else None.
(** The discriminants of the [repr(u8)] enumeration. *)
Definition gcpp_as_u8 (h : GcppHost) : Z := match h with Asia => 0 | EU => 1 | US => 2 end.

(** ** Payment identifiers *)

Definition is_alphanumeric (c : Z) : bool :=
  is_ascii_upper c || is_ascii_lower c || is_ascii_digit c.

(** A [PaymentId] is its array of 14 bytes. *)
Definition payment_new (id : bytes) : option bytes :=
  let suffix := default id (strip_prefix (as_bytes "cus_") id) in
  if (length suffix =? 14)%nat then
    if forallb is_alphanumeric suffix then Some suffix else None
  else None.
Definition payment_display (p : bytes) : bytes := as_bytes "cus_" ++ p.

(** ** The records *)

Record UsageBreakdown : Type := mkUsageBreakdown
  { included : Z; bonus : Z; breakdown_total : Z }.
Record PlanUsage : Type := mkPlanUsage
  { plan_enabled : bool; plan_used : Z; plan_limit : Z; plan_remaining : Z;
    breakdown : UsageBreakdown }.
Record OnDemandUsage : Type := mkOnDemandUsage
  { od_enabled : bool; od_used : Z; od_limit : option Z; od_remaining : option Z }.
Record UsageSummary : Type := mkUsageSummary
  { plan : option PlanUsage; on_demand : option OnDemandUsage }.

Record UsageProfile : Type := mkUsageProfile
  { billing_cycle_start : Z; billing_cycle_end : Z; usage_membership_type : MembershipType;
    limit_type : LimitType; is_unlimited : bool;
    individual_usage : UsageSummary; team_usage : UsageSummary }.

Record StripeProfile : Type := mkStripeProfile
  { membership_type : MembershipType; payment_id : option bytes;
    days_remaining_on_trial : option Z; subscription_status : option SubscriptionStatus;
    verified_student : bool; trial_eligible : bool; trial_length_days : Z;
    is_on_student_plan : bool; is_on_billable_auto : bool; customer_balance : option Z;
    trial_was_cancelled : bool; is_team_member : bool;
    team_membership_type : option MembershipType;
    individual_membership_type : option MembershipType }.

Inductive PrivacyMode : Type :=
| PUnspecified | NoStorage | NoTraining | UsageDataTrainingAllowed | UsageCodebaseTrainingAllowed.
Record PrivacyModeInfo : Type := mkPrivacyModeInfo
  { privacy_mode : PrivacyMode; is_enforced_by_team : bool }.

Record UserProfile : Type := mkUserProfile
  { profile_user_id : Z; email : option string; first_name : option string;
    last_name : option string; workos_id : option UserId; team_id : option Z;
    created_at : option Z; is_enterprise_user : bool; is_on_new_pricing : bool;
    privacy_mode_info : PrivacyModeInfo }.

Definition user_alias (u : UserProfile) : option string :=
  match email u with
  | Some e => Some e
  | None =>
      match first_name u with
      | Some f => Some f
      | None => match last_name u with Some l => Some l | None => None end
      end
  end.

Inductive SessionType : Type := SUnspecified | Web | Client | Bugbot | BackgroundAgent.
Record Session : Type := mkSession
  { sess_id : bytes; sess_type : SessionType; sess_created_at : Z; sess_expires_at : Z }.

(** ** The laws *)

Lemma match_str_spec {A} (arms : list (string * A)) s a :
  match_str arms s = Some a -> (s, a) ∈ arms.
Proof.
  induction arms as [|[c b] arms IH]; cbn; [done|].
  destruct (String.eqb_spec s c); [intros [= ->]; subst; left|intros H; right; auto].
Qed.

Ltac str_enum :=
  let H := fresh in
  intros ? ? H; apply match_str_spec in H;
  repeat (apply elem_of_cons in H as [H|H]; [by injection H as -> ->|]);
  by apply elem_of_nil in H.

#[export, refine] Instance status_enum : StrEnum SubscriptionStatus :=
  {| from_str := status_from_str; as_str := status_as_str |}.
Proof. { by intros []. } { str_enum. } Defined.

#[export, refine] Instance membership_enum : StrEnum MembershipType :=
  {| from_str := membership_from_str; as_str := membership_as_str |}.
Proof. { by intros []. } { str_enum. } Defined.

#[export, refine] Instance limit_enum : StrEnum LimitType :=
  {| from_str := limit_from_str; as_str := limit_as_str |}.
Proof. { by intros []. } { str_enum. } Defined.

Section str_enum.
Context {A : Type} `{StrEnum A}.

(** Parsing is the partial inverse of printing, so printing is injective. *)
Lemma str_enum_iff s a : from_str s = Some a <-> s = as_str a.
Proof. split; [intros E; by apply from_str_as in E|intros ->; apply from_as_str]. Qed.
Lemma as_str_inj (a b : A) : as_str a = as_str b -> a = b.
Proof. intros E. apply (f_equal from_str) in E. rewrite !from_as_str in E. by injection E. Qed.
End str_enum.

Lemma payment_new_spec id p :
  payment_new id = Some p <->
  (id = p \/ id = payment_display p) /\ length p = 14%nat /\ forallb is_alphanumeric p = true.
Proof.
  unfold payment_new, payment_display. split.
  - destruct (strip_prefix _ id) as [sfx|] eqn:E; cbn;
      [apply strip_prefix_Some in E as ->|];
      (match goal with |- context [(length ?x =? 14)%nat] =>
         destruct (Nat.eqb_spec (length x) 14) as [L|L]; [|done];
         destruct (forallb is_alphanumeric x) eqn:F; [|done] end); intros [= <-]; auto.
  - intros [[-> | ->] [L F]].
    + destruct (strip_prefix _ p) as [sfx|] eqn:E; cbn [default].
      * apply strip_prefix_Some in E as ->. cbn in F. done.
      * by rewrite L, F.
    + rewrite (proj2 (strip_prefix_Some (as_bytes "cus_") _ p) eq_refl). cbn. 
      by rewrite L, F.
Qed.

(** ** Properties *)

(** The three enumerations with printed names are read back exactly: a name
    parses to a value iff it is the value's printed name. *)
Theorem enum_names_roundtrip :
  (forall s a, status_from_str s = Some a <-> s = status_as_str a)
  /\ (forall s a, membership_from_str s = Some a <-> s = membership_as_str a)
  /\ (forall s a, limit_from_str s = Some a <-> s = limit_as_str a).
Proof.
  split_and!.
  - exact (str_enum_iff (A := SubscriptionStatus)).
  - exact (str_enum_iff (A := MembershipType)).
  - exact (str_enum_iff (A := LimitType)).
Qed.

(** A payment identifier is accepted exactly as its 14 ASCII letters and
    digits, with or without the prefix [cus_], and its printed form parses back;
    a completion host parses from its name, with or without [https://], and from
    its discriminant. *)
Theorem payment_and_host_formats :
  (forall id p, payment_new id = Some p <->
     (id = p \/ id = payment_display p) /\ length p = 14%nat /\ forallb is_alphanumeric p = true)
  /\ (forall id p, payment_new id = Some p -> payment_new (payment_display p) = Some p)
  /\ (forall h, gcpp_from_str (gcpp_as_str h) = Some h
        /\ gcpp_from_str (HTTPS_PREFIX +:+ gcpp_as_str h) = Some h
        /\ gcpp_from_u8 (gcpp_as_u8 h) = Some h)
  /\ (forall s h, gcpp_from_str s = Some h ->
        strip_https s ∈ [gcpp_as_str h;
          match h with Asia => CURSOR_GCPP_ASIA_HOST | EU => CURSOR_GCPP_EU_HOST
                     | US => CURSOR_GCPP_US_HOST end]).
Proof.
  split_and!.
  - apply payment_new_spec.
  - intros id p H. apply payment_new_spec in H as (_ & L & F). apply payment_new_spec. auto.
  - by intros [].
  - intros s h H. apply match_str_spec in H.
    repeat (apply elem_of_cons in H as [H|H];
      [injection H as -> ->; rewrite !elem_of_cons; auto|]).
    by apply elem_of_nil in H.
Qed.
