(* ===== verification/RawToken.v ===== *)
(** * Raw tokens

    [src/src/app/model/token.rs] ([RawToken], its archived helper, its printed
    form and its parser), [src/src/common/model/token.rs] ([TokenPayload]) and
    [src/src/common/model/stringify.rs].

    A JSON document is what [serde_json] hands to the visitor: the entries of the
    object in order, with scalar values.  Base64 ([URL_SAFE_NO_PAD]) and the
    reading and writing of JSON text are external and are the section variables
    [b64_encode], [b64_decode], [json_print] and [json_parse]; what [io::Error]
    keeps of a visitor's error is the variable [classify]. *)
From S2P Require Import Prelude Strings Numerals Hex TokenKey.

(** ** Signed decimal numerals *)

Definition in_int (w x : Z) : Prop := - 2 ^ (w - 1) <= x < 2 ^ (w - 1).
Definition in_intb (w x : Z) : bool := (- 2 ^ (w - 1) <=? x) && (x <? 2 ^ (w - 1)).

(** [Display] for a signed integer. *)
Definition to_dec_signed (n : Z) : string :=
  if n <? 0 then "-" +:+ to_dec (- n) else to_dec n.

Fixpoint parse_digits_unbounded (acc : Z) (bs : bytes) : option Z :=
  match bs with
  | [] => Some acc
  | b :: bs' =>
      if is_ascii_digit b then parse_digits_unbounded (acc * 10 + (b - 48)) bs' else None
  end.
(** [str::parse::<iN>()]: a sign is accepted before a digit; overflow fails. *)
Definition parse_int (w : Z) (s : string) : option Z :=
  let checked (o : option Z) := n ← o; if in_intb w n then Some n else None in
  match as_bytes s with
  | [] => None
  | 43 :: b :: bs => checked (parse_digits_unbounded 0 (b :: bs))
  | 45 :: b :: bs => checked (Z.opp <$> parse_digits_unbounded 0 (b :: bs))
  | bs => checked (parse_digits_unbounded 0 bs)
  end.

(** ** JSON scalars and [Stringify] *)

Inductive jvalue : Type :=
| JNum (n : Z)
| JStr (s : string)
| JOther.

Definition stringify_i64 (n : Z) : jvalue := JStr (to_dec_signed n).
(** [NumVisitor::<i64>]: a number in range, or a string holding one. *)
Definition destringify_i64 (v : jvalue) : option Z :=
  match v with
  | JNum n => if in_intb 64 n then Some n else None
  | JStr s => parse_int 64 s
  | JOther => None
  end.
Definition stringify_u64 (n : Z) : jvalue := JStr (to_dec n).
(** [NumVisitor::<u64>] has no [visit_i64]: a negative number is refused. *)
Definition destringify_u64 (v : jvalue) : option Z :=
  match v with
  | JNum n => if (0 <=? n) && (n <? 2 ^ 64) then Some n else None
  | JStr s => parse_uint 64 s
  | JOther => None
  end.

(** ** The payload *)

Definition ISSUER : string := "https://authentication.cursor.sh".
Definition SCOPE : string := "openid profile email offline_access".
Definition AUDIENCE : string := "https://cursor.com".
Definition TYPE_SESSION : string := "session".
Definition TYPE_WEB : string := "web".

Inductive Field : Type := FSub | FTime | FRandomness | FExp | FIss | FScope | FAud | FType.
#[export] Instance Field_eq_dec : EqDecision Field.
Proof. solve_decision. Defined.

Definition field_name (f : Field) : string :=
  match f with
  | FSub => "sub" | FTime => "time" | FRandomness => "randomness" | FExp => "exp"
  | FIss => "iss" | FScope => "scope" | FAud => "aud" | FType => "type"
  end.
Definition FIELDS : list Field := [FSub; FTime; FRandomness; FExp; FIss; FScope; FAud; FType].
Definition FIELD_NAMES : list string := field_name <$> FIELDS.

Inductive PayloadError : Type :=
| UnknownField (s : string)
| DuplicateField (f : Field)
| MissingField (f : Field)
| WrongType (f : Field)
| BadSubject (e : SubjectError)
| BadRandomness (e : RandomnessError)
| ConstInvalid (f : Field).

(** [FieldVisitor::visit_str]. *)
Definition field_visit_str (value : string) : result PayloadError Field :=
  if String.eqb value "sub" then Ok FSub
  else if String.eqb value "time" then Ok FTime
  else if String.eqb value "randomness" then Ok FRandomness
  else if String.eqb value "exp" then Ok FExp
  else if String.eqb value "iss" then Ok FIss
  else if String.eqb value "scope" then Ok FScope
  else if String.eqb value "aud" then Ok FAud
  else if String.eqb value "type" then Ok FType
  else Err (UnknownField value).

Record TokenPayload : Type := mkTokenPayload
  { sub : Subject; time : Z; p_randomness : Z; exp : Z; p_is_session : bool }.

(** The local variables of [visit_map]. *)
Record VisitState : Type := mkVisitState
  { v_sub : option Subject; v_time : option Z; v_randomness : option Z; v_exp : option Z;
    v_is_session : option bool; iss_seen : bool; scope_seen : bool; aud_seen : bool }.
Definition visit_init : VisitState := mkVisitState None None None None None false false false.

(** [map.next_value::<String>()]. *)
Definition next_string (f : Field) (v : jvalue) : result PayloadError string :=
  match v with JStr s => Ok s | _ => Err (WrongType f) end.

Definition is_seen (st : VisitState) (f : Field) : bool :=
  match f with
  | FSub => bool_decide (is_Some (v_sub st))
  | FTime => bool_decide (is_Some (v_time st))
  | FRandomness => bool_decide (is_Some (v_randomness st))
  | FExp => bool_decide (is_Some (v_exp st))
  | FType => bool_decide (is_Some (v_is_session st))
  | FIss => iss_seen st
  | FScope => scope_seen st
  | FAud => aud_seen st
  end.

Section visitor.
Context (providers : list string).

(** The body of the loop after the duplicate check of each arm. *)
Definition visit_value (st : VisitState) (f : Field) (v : jvalue)
  : result PayloadError VisitState :=
  let '(mkVisitState a b c d e i s u) := st in
  match f with
  | FSub =>
      str ← next_string f v;
      x ← map_err BadSubject (subject_from_str providers (as_bytes str));
      Ok (mkVisitState (Some x) b c d e i s u)
  | FTime =>
      x ← ok_or (destringify_i64 v) (WrongType f);
      Ok (mkVisitState a (Some x) c d e i s u)
  | FRandomness =>
      str ← next_string f v;
      x ← map_err BadRandomness (rand_from_str (as_bytes str));
      Ok (mkVisitState a b (Some x) d e i s u)
  | FExp =>
      x ← match v with
          | JNum n => if in_intb 64 n then Ok n else Err (WrongType f)
          | _ => Err (WrongType f)
          end;
      Ok (mkVisitState a b c (Some x) e i s u)
  | FType =>
      value ← next_string f v;
      if String.eqb value TYPE_SESSION then Ok (mkVisitState a b c d (Some true) i s u)
      else if String.eqb value TYPE_WEB then Ok (mkVisitState a b c d (Some false) i s u)
      else Err (ConstInvalid f)
  | FIss =>
      value ← next_string f v;
      if String.eqb value ISSUER then Ok (mkVisitState a b c d e true s u)
      else Err (ConstInvalid f)
  | FScope =>
      value ← next_string f v;
      if String.eqb value SCOPE then Ok (mkVisitState a b c d e i true u)
      else Err (ConstInvalid f)
  | FAud =>
      value ← next_string f v;
      if String.eqb value AUDIENCE then Ok (mkVisitState a b c d e i s true)
      else Err (ConstInvalid f)
  end.

Fixpoint visit_loop (entries : list (string * jvalue)) (st : VisitState)
  : result PayloadError VisitState :=
  match entries with
  | [] => Ok st
  | (key, v) :: entries' =>
      f ← field_visit_str key;
      if is_seen st f then Err (DuplicateField f)
      else st' ← visit_value st f v; visit_loop entries' st'
  end.

Definition visit_map (entries : list (string * jvalue)) : result PayloadError TokenPayload :=
  st ← visit_loop entries visit_init;
  sub ← ok_or (v_sub st) (MissingField FSub);
  time ← ok_or (v_time st) (MissingField FTime);
  randomness ← ok_or (v_randomness st) (MissingField FRandomness);
  exp ← ok_or (v_exp st) (MissingField FExp);
  is_session ← ok_or (v_is_session st) (MissingField FType);
  if negb (iss_seen st) then Err (MissingField FIss)
  else if negb (scope_seen st) then Err (MissingField FScope)
  else if negb (aud_seen st) then Err (MissingField FAud)
  else Ok (mkTokenPayload sub time randomness exp is_session).
End visitor.

(** [Serialize for TokenPayload]: the fields in the order they are written. *)
Definition field_value (p : TokenPayload) (f : Field) : jvalue :=
  match f with
  | FSub => JStr (from_bytes (subject_display (sub p)))
  | FTime => stringify_i64 (time p)
  | FRandomness => JStr (from_bytes (rand_to_str (p_randomness p) (replicate 18 0)))
  | FExp => JNum (exp p)
  | FIss => JStr ISSUER
  | FScope => JStr SCOPE
  | FAud => JStr AUDIENCE
  | FType => JStr (if p_is_session p then TYPE_SESSION else TYPE_WEB)
  end.
Definition payload_serialize (p : TokenPayload) : list (string * jvalue) :=
  (fun f => (field_name f, field_value p f)) <$> FIELDS.

(** ** Raw tokens *)

Record Duration : Type := mkDuration { d_start : Z; d_end : Z }.

Record RawToken : Type := mkRawToken
  { subject : Subject; signature : bytes; duration : Duration; raw_randomness : Z;
    is_session : bool }.

(** [PartialEq for RawToken] compares the signatures only. *)
Definition raw_eqb (a b : RawToken) : bool := bool_decide (signature a = signature b).

Definition to_token_payload (r : RawToken) : TokenPayload :=
  mkTokenPayload (subject r) (d_start (duration r)) (raw_randomness r) (d_end (duration r))
    (is_session r).
Definition raw_key (r : RawToken) : TokenKey := mkTokenKey (sub_id (subject r)) (raw_randomness r).
Definition is_web (r : RawToken) : bool := negb (is_session r).

Record RawTokenHelper : Type := mkRawTokenHelper
  { rh_subject : SubjectHelper; rh_signature : bytes; rh_duration : Duration;
    rh_randomness : Z; rh_is_session : bool }.
Definition raw_to_helper (r : RawToken) : RawTokenHelper :=
  mkRawTokenHelper (subject_to_helper (subject r)) (signature r) (duration r)
    (raw_randomness r) (is_session r).
(** [__unwrap_panic!] on the subject. *)
Definition raw_extract (providers : list string) (h : RawTokenHelper) : outcome RawToken :=
  s ← unwrap (to_option (subject_try_extract providers (rh_subject h)));
  Ret (mkRawToken s (rh_signature h) (rh_duration h) (rh_randomness h) (rh_is_session h)).

Definition HEADER_B64 : bytes := as_bytes "eyJhbGciOiJIUzI1NiIsInR5cCI6IkpXVCJ9.".

Inductive TokenError : Type :=
| InvalidHeader | InvalidTokenFormat | InvalidBase64 | InvalidJson
| InvalidSubject (e : SubjectError) | InvalidRandomness (e : RandomnessError)
| InvalidSignatureLength.

Section text.
Context (providers : list string).
Context (b64_encode : bytes -> bytes) (b64_decode : bytes -> option bytes).
Context (json_print : list (string * jvalue) -> bytes)
        (json_parse : bytes -> option (list (string * jvalue))).
Context (classify : PayloadError -> TokenError).

Definition raw_display (r : RawToken) : bytes :=
  HEADER_B64 ++ b64_encode (json_print (payload_serialize (to_token_payload r)))
    ++ [46] ++ b64_encode (signature r).

Definition raw_from_str (token : bytes) : result TokenError RawToken :=
  parts ← ok_or (strip_prefix HEADER_B64 token) InvalidHeader;
  pair ← ok_or (split_once 46 parts) InvalidTokenFormat;
  let '(payload_b64, signature_b64) := pair in
  payload ← ok_or (b64_decode payload_b64) InvalidBase64;
  sig ← ok_or (b64_decode signature_b64) InvalidBase64;
  if negb (length sig =? 32)%nat then Err InvalidSignatureLength
  else
    entries ← ok_or (json_parse payload) InvalidJson;
    p ← map_err classify (visit_map providers entries);
    Ok (mkRawToken (sub p) sig (mkDuration (time p) (exp p)) (p_randomness p)
          (p_is_session p)).
End text.

(** ** Numbers *)

Lemma parse_unbounded_dec acc ds :
  Forall (fun d => 0 <= d < 10) ds ->
  parse_digits_unbounded acc ((fun d => 48 + d) <$> ds)
  = Some (fold_left (fun acc d => acc * 10 + d) ds acc).
Proof.
  intros Hd. revert acc. induction Hd as [|d ds Hd _ IH]; intros acc; [done|].
  cbn [fmap list_fmap parse_digits_unbounded fold_left].
  replace (is_ascii_digit (48 + d)) with true
    by (symmetry; unfold is_ascii_digit; rewrite andb_true_iff, !Z.leb_le; lia).
  rewrite IH. do 2 f_equal. lia.
Qed.

Lemma parse_unbounded_dec_bytes n :
  0 <= n -> parse_digits_unbounded 0 (dec_bytes n) = Some n.
Proof.
  intros Hn. unfold dec_bytes. rewrite parse_unbounded_dec by apply dec_digits_range.
  f_equal. by apply dec_digits_value.
Qed.

(** A decimal numeral starts with a digit, so it carries no sign. *)
Lemma dec_bytes_head n : exists b bs, dec_bytes n = b :: bs /\ 48 <= b <= 57.
Proof.
  destruct (dec_digits_cons n) as (d & ds & E). unfold dec_bytes.
  pose proof (dec_digits_range n) as R. rewrite E in *. apply Forall_cons in R as [R _].
  exists (48 + d), ((fun d => 48 + d) <$> ds). split; [done|lia].
Qed.

Lemma in_intb_spec w n : in_intb w n = true <-> in_int w n.
Proof. unfold in_intb, in_int. rewrite andb_true_iff, Z.leb_le, Z.ltb_lt. done. Qed.

Lemma parse_int_signed w n : in_int w n -> parse_int w (to_dec_signed n) = Some n.
Proof.
  intros Hn. apply in_intb_spec in Hn. unfold to_dec_signed.
  destruct (Z.ltb_spec n 0) as [L|L].
  - unfold parse_int. rewrite as_bytes_app, as_bytes_to_dec.
    change (as_bytes "-") with [45]. cbn [app].
    assert (P := parse_unbounded_dec_bytes (- n) ltac:(lia)).
    destruct (dec_bytes_head (- n)) as (b & bs & E & _). rewrite E in *.
    rewrite P. cbn. by rewrite Z.opp_involutive, Hn.
  - unfold parse_int. rewrite as_bytes_to_dec.
    assert (P := parse_unbounded_dec_bytes n L).
    destruct (dec_bytes_head n) as (b & bs & E & Hb). rewrite E in *.
    destruct b as [|p|p]; [lia| |lia].
    repeat (destruct p as [p|p|]; try lia); rewrite P; cbn; by rewrite Hn.
Qed.

Lemma destringify_i64_stringify n :
  in_int 64 n -> destringify_i64 (stringify_i64 n) = Some n /\ destringify_i64 (JNum n) = Some n.
Proof.
  intros H. split; cbn; [by apply parse_int_signed|]. by rewrite (proj2 (in_intb_spec 64 n) H).
Qed.

Lemma destringify_u64_stringify n :
  in_uint 64 n -> destringify_u64 (stringify_u64 n) = Some n /\ destringify_u64 (JNum n) = Some n.
Proof.
  intros H. split; cbn; [by apply parse_to_dec|]. unfold in_uint in H.
  destruct (Z.leb_spec 0 n), (Z.ltb_spec n (2 ^ 64)); try lia. done.
Qed.

(** ** The visitor *)

Lemma field_visit_name f : field_visit_str (field_name f) = Ok f.
Proof. by destruct f. Qed.
Lemma field_visit_Ok s f : field_visit_str s = Ok f -> s = field_name f.
Proof.
  unfold field_visit_str.
  repeat match goal with |- context [String.eqb s ?c] => destruct (String.eqb_spec s c) as [->|] end;
    by intros [= <-].
Qed.

Lemma is_seen_step ps st f v st' g :
  visit_value ps st f v = Ok st' -> is_seen st' g = bool_decide (g = f) || is_seen st g.
Proof.
  destruct st as [a b c d e i s u]. unfold visit_value. intros H.
  destruct f; bind_inv H; injection H as <-; destruct g; reflexivity.
Qed.

Lemma visit_loop_seen ps l st st' :
  visit_loop ps l st = Ok st' ->
  exists fs, l.*1 = field_name <$> fs /\ NoDup fs
    /\ (forall f, f ∈ fs -> is_seen st f = false)
    /\ (forall g, is_seen st' g = bool_decide (g ∈ fs) || is_seen st g).
Proof.
  revert st; induction l as [|[k v] l IH]; intros st; cbn [visit_loop].
  - intros [= <-]. exists []. split_and!; [done|constructor|intros f Hf; by apply elem_of_nil in Hf|].
    intros g. by rewrite bool_decide_false by apply not_elem_of_nil.
  - destruct (field_visit_str k) as [f|] eqn:Ek; cbn [mbind result_bind]; [|done].
    apply field_visit_Ok in Ek as ->. destruct (is_seen st f) eqn:Es; [done|].
    destruct (visit_value ps st f v) as [st1|] eqn:Ev; cbn [mbind result_bind]; [|done].
    intros H. apply IH in H as (fs & Hk & Hn & Hf & Hs).
    assert (Hstep := is_seen_step _ _ _ _ _ f Ev). rewrite bool_decide_true in Hstep by done.
    exists (f :: fs). split_and!.
    + cbn. by rewrite Hk.
    + constructor; [|done]. intros Hin. apply Hf in Hin. by rewrite Hin in Hstep.
    + intros g [->|Hg]%elem_of_cons; [done|]. apply Hf in Hg.
      rewrite (is_seen_step _ _ _ _ _ g Ev) in Hg. by apply orb_false_iff in Hg as [_ ?].
    + intros g. rewrite Hs, (is_seen_step _ _ _ _ _ g Ev).
      rewrite (bool_decide_ext (g ∈ f :: fs) (g = f \/ g ∈ fs)) by apply elem_of_cons.
      rewrite bool_decide_or. by destruct (bool_decide (g = f)), (bool_decide (g ∈ fs)).
Qed.

(** An accepted object has each of the eight fields exactly once, no other. *)
Lemma visit_map_fields ps l p :
  visit_map ps l = Ok p -> exists fs, Permutation FIELDS fs /\ l.*1 = field_name <$> fs.
Proof.
  unfold visit_map. destruct (visit_loop ps l visit_init) as [st|] eqn:E; cbn [mbind result_bind]; [|done].
  apply visit_loop_seen in E as (fs & Hk & Hn & _ & Hs). intros H.
  exists fs. split; [|done]. apply NoDup_Permutation; [by apply (bool_decide_unpack _); vm_compute|done|].
  assert (Hall : forall g, is_seen st g = true).
  { destruct st as [[]  [] [] [] [] [] [] []]; cbn in *; try done. by intros []. }
  intros g. specialize (Hall g). rewrite Hs in Hall.
  assert (is_seen visit_init g = false) as R by (by destruct g). rewrite R, orb_false_r in Hall.
  apply bool_decide_eq_true in Hall. split; [done|]. intros _. destruct g; cbn; set_solver.
Qed.

(** What the text of an identifier stands for: the first four bytes of one that
    counts as legacy are not printed, and read back as zero. *)
Definition reread_id (u : UserId) : UserId :=
  if is_legacy u then uid_from_bytes (replicate 4 0 ++ drop 4 (uid_to_bytes u)) else u.
Definition reread_subject (s : Subject) : Subject := mkSubject (provider s) (reread_id (sub_id s)).

Lemma uid_str_legacy u buf : is_legacy u = true -> length buf = 31%nat ->
  uid_to_str u buf = hex_of (drop 4 (uid_to_bytes u)).
Proof.
  intros E Hl. unfold uid_to_str. rewrite E.
  assert (length (drop 4 (uid_to_bytes u)) = 12%nat) as L by (by rewrite length_drop, length_uid_bytes).
  rewrite hash_to_str_spec by (rewrite L; lia). apply (take_app_length' (hex_of _)).
  by rewrite length_hex_of, L.
Qed.
Lemma uid_str_reread u buf : uid_wf u -> length buf = 31%nat ->
  uid_from_str (uid_to_str u buf) = Ok (reread_id u) /\ uid_to_str u buf <> [].
Proof.
  intros Hw Hl. unfold reread_id. destruct (is_legacy u) eqn:E.
  - rewrite uid_str_legacy by done.
    assert (length (hex_of (drop 4 (uid_to_bytes u))) = 24%nat) as L
      by (by rewrite length_hex_of, length_drop, length_uid_bytes).
    split; [|by intros H; rewrite H in L].
    unfold uid_from_str. rewrite L. cbn [Nat.eqb].
    rewrite decode_pairs_hex; [done|]. apply Forall_drop, uid_bytes_u8.
  - destruct (uid_str_new_roundtrip u buf Hw E Hl) as [L R]. split; [done|]. by intros H; rewrite H in L.
Qed.
Lemma subject_reread ps s : provider_wf ps (provider s) -> uid_wf (sub_id s) ->
  subject_from_str ps (subject_display s) = Ok (reread_subject s).
Proof.
  intros (He & Hn & Hs) Hw. unfold subject_from_str, subject_display.
  change (?a ++ [124] ++ ?b) with (a ++ 124 :: b). rewrite split_once_app by done.
  cbn [ok_or mbind result_bind].
  destruct (uid_str_reread (sub_id s) (replicate 31 0) Hw eq_refl) as [E Hc].
  destruct (as_bytes (provider s)) as [|b bs] eqn:Eb; [destruct Hn; by destruct (provider s)|].
  destruct (uid_to_str (sub_id s) (replicate 31 0)) as [|c cs] eqn:Ec; [done|].
  rewrite <- Eb, from_bytes_as_bytes, provider_from_str_elem by done. cbn [mbind result_bind]. by rewrite E.
Qed.
Lemma reread_same u : uid_wf u ->
  (reread_id u = u <-> (is_legacy u = true -> take 4 (uid_to_bytes u) = [0; 0; 0; 0])).
Proof.
  intros Hw. unfold reread_id. destruct (is_legacy u); [|by split].
  assert (length (uid_to_bytes u) = 16%nat) as L by apply length_uid_bytes.
  assert (is_bytes (replicate 4 0 ++ drop 4 (uid_to_bytes u))) as Hb.
  { apply Forall_app. split; [repeat constructor; unfold in_uint; lia|]. apply Forall_drop, uid_bytes_u8. }
  split.
  - intros H _. rewrite <- H, uid_to_from_bytes; [done|done|]. by rewrite length_app, length_drop, L.
  - intros H. specialize (H eq_refl). change (replicate 4 0) with [0; 0; 0; 0]. rewrite <- H, take_drop.
    by apply uid_from_to_bytes.
Qed.

Lemma subject_display_u8 s : is_bytes (subject_display s).
Proof.
  unfold subject_display.
  apply Forall_app; split; [apply as_bytes_u8|]. apply Forall_app; split;
    [repeat constructor; unfold in_uint; lia|]. destruct (is_legacy (sub_id s)) eqn:E.
  { rewrite uid_str_legacy by done. apply hex_of_u8, Forall_drop, uid_bytes_u8. }
  rewrite uid_to_str_new by done. apply Forall_app; split; [apply as_bytes_u8|].
  rewrite encode32_spec by (rewrite length_drop, length_replicate; unfold ULID_LEN; lia). apply Forall_app; split; [|by constructor].
  apply Forall_fmap. eapply Forall_impl; [apply (digits_range 32); lia|].
  intros d Hd. apply (lookup32_char d Hd).
Qed.

Lemma rand_to_str_u8 r buf : length buf = 18%nat -> is_bytes (rand_to_str r buf).
Proof.
  intros Hl. destruct (rand_to_str_spec r buf Hl) as (b0 & b1 & b2 & b3 & b4 & b5 & b6 & b7 & E & ->).
  pose proof (le_bytes_u8 8 r) as Hb. rewrite E in Hb.
  assert (D : is_bytes [45]) by (repeat constructor; unfold in_uint; lia).
  change (is_bytes ([b0; b1; b2; b3] ++ [b4; b5] ++ [b6; b7])) in Hb.
  apply Forall_app in Hb as [B1 Hb]. apply Forall_app in Hb as [B2 B3].
  apply Forall_app; split; [by apply hex_of_u8|]. apply Forall_app; split; [done|].
  apply Forall_app; split; [by apply hex_of_u8|]. apply Forall_app; split; [done|by apply hex_of_u8].
Qed.

(** Payloads whose values are in range. *)
Definition payload_wf (ps : list string) (p : TokenPayload) : Prop :=
  provider_wf ps (provider (sub p)) /\ uid_wf (sub_id (sub p))
  /\ in_int 64 (time p) /\ in_uint 64 (p_randomness p) /\ in_int 64 (exp p).

(** What the text of a payload stands for. *)
Definition reread_payload (p : TokenPayload) : TokenPayload :=
  mkTokenPayload (reread_subject (sub p)) (time p) (p_randomness p) (exp p) (p_is_session p).

(** [st] holds nothing but values of [p]. *)
Definition agrees (p : TokenPayload) (st : VisitState) : Prop :=
  v_sub st ∈ [None; Some (sub p)] /\ v_time st ∈ [None; Some (time p)]
  /\ v_randomness st ∈ [None; Some (p_randomness p)] /\ v_exp st ∈ [None; Some (exp p)]
  /\ v_is_session st ∈ [None; Some (p_is_session p)].

Lemma visit_value_field ps p st f :
  payload_wf ps p -> agrees (reread_payload p) st ->
  exists st', visit_value ps st f (field_value p f) = Ok st' /\ agrees (reread_payload p) st'.
Proof.
  intros (Hp & Hu & Ht & Hr & He) Hst. destruct st as [a b c d e i s u].
  unfold agrees, reread_payload in *. cbn in Hst. destruct f; cbn [visit_value field_value next_string mbind result_bind].
  - rewrite as_bytes_from_bytes by (by apply subject_display_u8).
    rewrite subject_reread by done. eexists; split; [reflexivity|cbn; set_solver].
  - rewrite (proj1 (destringify_i64_stringify _ Ht)). eexists; split; [reflexivity|cbn; set_solver].
  - rewrite as_bytes_from_bytes by (by apply rand_to_str_u8).
    rewrite rand_roundtrip by done. eexists; split; [reflexivity|cbn; set_solver].
  - rewrite (proj2 (in_intb_spec 64 _) He). eexists; split; [reflexivity|cbn; set_solver].
  - eexists; split; [reflexivity|cbn; set_solver].
  - eexists; split; [reflexivity|cbn; set_solver].
  - eexists; split; [reflexivity|cbn; set_solver].
  - destruct (p_is_session p); eexists; (split; [reflexivity|cbn; set_solver]).
Qed.

Definition entry (p : TokenPayload) (f : Field) : string * jvalue := (field_name f, field_value p f).

Lemma visit_loop_fields ps p fs st :
  payload_wf ps p -> NoDup fs -> (forall f, f ∈ fs -> is_seen st f = false) -> agrees (reread_payload p) st ->
  exists st', visit_loop ps (entry p <$> fs) st = Ok st' /\ agrees (reread_payload p) st'.
Proof.
  intros Hw Hn. revert st. induction Hn as [|f fs Hf _ IH]; intros st Hs Ha; [by eexists|].
  cbn [fmap list_fmap visit_loop entry]. unfold entry at 1. rewrite field_visit_name.
  cbn [mbind result_bind]. rewrite Hs by left.
  destruct (visit_value_field ps p st f Hw Ha) as (st1 & E & Ha1). rewrite E. cbn [mbind result_bind].
  apply IH; [|done]. intros g Hg. rewrite (is_seen_step _ _ _ _ _ g E), Hs by (by right).
  rewrite orb_false_r. apply bool_decide_false. by intros ->.
Qed.

(** The fields of a payload are accepted in any order. *)
Lemma visit_map_serialized ps p l :
  payload_wf ps p -> Permutation (payload_serialize p) l -> visit_map ps l = Ok (reread_payload p).
Proof.
  intros Hw Hl. change (payload_serialize p) with (map (entry p) FIELDS) in Hl.
  apply Permutation_sym, Permutation_map_inv in Hl as (fs & -> & Hfs).
  change (map (entry p) fs) with (entry p <$> fs).
  assert (Hn : NoDup fs) by (rewrite <- Hfs; by apply (bool_decide_unpack _); vm_compute).
  destruct (visit_loop_fields ps p fs visit_init Hw Hn) as (st & E & Ha);
    [by intros []|unfold agrees; cbn; set_solver|].
  assert (Hall : forall f, is_seen st f = true).
  { intros f. destruct (visit_loop_seen _ _ _ _ E) as (gs & Hk & _ & _ & Hs). rewrite Hs.
    rewrite bool_decide_true; [done|].
    assert (gs = fs) as ->.
    { rewrite <- list_fmap_compose in Hk. apply (list_fmap_eq_inj field_name) in Hk; [done|].
      intros [] []; done. }
    rewrite <- Hfs. destruct f; set_solver. }
  unfold visit_map. rewrite E. cbn [mbind result_bind]. destruct st as [a b c d e i s u].
  unfold agrees, reread_payload in Ha. cbn in Ha. rewrite !elem_of_cons, !elem_of_nil in Ha.
  pose proof (Hall FSub) as H1. pose proof (Hall FTime) as H2. pose proof (Hall FRandomness) as H3.
  pose proof (Hall FExp) as H4. pose proof (Hall FType) as H5. pose proof (Hall FIss) as H6.
  pose proof (Hall FScope) as H7. pose proof (Hall FAud) as H8. cbn in *. subst.
  apply bool_decide_eq_true in H1 as [? ->], H2 as [? ->], H3 as [? ->], H4 as [? ->], H5 as [? ->].
  cbn. destruct p. unfold reread_payload. cbn in *. naive_solver.
Qed.

(** ** Raw tokens *)

Definition raw_wf (ps : list string) (r : RawToken) : Prop :=
  payload_wf ps (to_token_payload r) /\ length (signature r) = 32%nat.

(** What the text of a token stands for. *)
Definition reread (r : RawToken) : RawToken :=
  mkRawToken (reread_subject (subject r)) (signature r) (duration r) (raw_randomness r) (is_session r).
Lemma reread_self r : uid_wf (sub_id (subject r)) ->
  (reread r = r <->
   (is_legacy (sub_id (subject r)) = true -> take 4 (uid_to_bytes (sub_id (subject r))) = [0; 0; 0; 0])).
Proof.
  intros Hu. rewrite <- (reread_same _ Hu). destruct r as [[pr u] sg du ra se]. unfold reread, reread_subject. cbn.
  split; [by intros [= H]|by intros ->].
Qed.

Lemma raw_helper_inverse ps r :
  provider (subject r) ∈ ps -> uid_wf (sub_id (subject r)) ->
  raw_extract ps (raw_to_helper r) = Ret r.
Proof.
  intros Hp Hu. unfold raw_extract, raw_to_helper. cbn [rh_subject].
  rewrite subject_helper_inverse by done. by destruct r.
Qed.

Section text_laws.
Context (ps : list string).
Context (b64_encode : bytes -> bytes) (b64_decode : bytes -> option bytes).
Context (json_print : list (string * jvalue) -> bytes)
        (json_parse : bytes -> option (list (string * jvalue))).
Context (classify : PayloadError -> TokenError).
Context (b64_inverse : forall bs, b64_decode (b64_encode bs) = Some bs)
        (b64_no_dot : forall bs, Forall (fun b => b <> 46) (b64_encode bs))
        (json_inverse : forall l, json_parse (json_print l) = Some l).

Lemma raw_text_inverse r :
  raw_wf ps r ->
  raw_from_str ps b64_decode json_parse classify (raw_display b64_encode json_print r) = Ok (reread r).
Proof using b64_inverse b64_no_dot json_inverse.
  intros [Hp Hs]. unfold raw_from_str, raw_display.
  rewrite (proj2 (strip_prefix_Some HEADER_B64 _ _) eq_refl). cbn [ok_or mbind result_bind].
  change (?a ++ [46] ++ ?b) with (a ++ 46 :: b). rewrite split_once_app by done.
  cbn [ok_or mbind result_bind]. rewrite !b64_inverse. cbn [ok_or mbind result_bind].
  rewrite Hs. cbn [Nat.eqb negb]. rewrite json_inverse. cbn [ok_or mbind result_bind].
  rewrite (visit_map_serialized ps _ _ Hp) by done. cbn. by destruct r as [? ? [] ? ?].
Qed.
End text_laws.

(** ** Properties *)

(** A payload is accepted with its eight fields in any order, and gives the
    value that was written, as far as the identifier prints all of it
    ([reread_id]); an object that is accepted, whatever it holds, has
    each of the eight fields exactly once and no other. *)
Theorem payload_fields_any_order ps p :
  payload_wf ps p ->
  (forall l, Permutation (payload_serialize p) l -> visit_map ps l = Ok (reread_payload p))
  /\ (forall l q, visit_map ps l = Ok q -> Permutation FIELD_NAMES l.*1).
Proof.
  intros Hp. split; [intros l; by apply visit_map_serialized|].
  intros l q H. apply visit_map_fields in H as (fs & Hf & ->). unfold FIELD_NAMES. by rewrite Hf.
Qed.

Definition example_payload : TokenPayload :=
  mkTokenPayload (mkSubject "auth0" (uid_from_u128 (2 ^ 100 + 77))) 1700000000 81985529216486895
    (-5) true.

Lemma example_payload_wf : payload_wf DEFAULT_PROVIDERS example_payload.
Proof.
  split; [split; [left|split; [done|]]|].
  - repeat constructor; vm_compute; discriminate.
  - split; [apply uid_wf_u128|]. unfold in_int, in_uint. cbn. split_and!; try lia.
Qed.

Lemma payload_fields_any_order_witness :
  visit_map DEFAULT_PROVIDERS (rev (payload_serialize example_payload)) = Ok example_payload.
Proof.
  apply (payload_fields_any_order DEFAULT_PROVIDERS example_payload example_payload_wf).
  apply Permutation_rev.
Defined.

(** C21: given the documented laws of the base64 and JSON codecs, the text of a token
    with values in range parses, and its archived helper gives the token back.  What
    the text gives back is the token with its identifier reread ([reread]): the same
    token exactly when the identifier does not count as legacy or its first four bytes
    are zero.  The text of any other legacy identifier drops these bytes, so that the
    token that is read is another user's. *)
Theorem raw_token_roundtrip ps b64_encode b64_decode json_print json_parse classify r :
  (forall bs, b64_decode (b64_encode bs) = Some bs) ->
  (forall bs, Forall (fun b => b <> 46) (b64_encode bs)) ->
  (forall l, json_parse (json_print l) = Some l) ->
  raw_wf ps r ->
  raw_from_str ps b64_decode json_parse classify (raw_display b64_encode json_print r) = Ok (reread r)
  /\ (reread r = r <->
      (is_legacy (sub_id (subject r)) = true -> take 4 (uid_to_bytes (sub_id (subject r))) = [0; 0; 0; 0]))
  /\ raw_extract ps (raw_to_helper r) = Ret r.
Proof.
  intros Hb Hd Hj Hr. split; [by apply raw_text_inverse|].
  destruct Hr as [(Hp & Hu & _) _]. split; [by apply reread_self|]. apply raw_helper_inverse; [apply Hp|done].
Qed.

(** A concrete codec for the witness: a sequence of integers in unary, and an
    object as its number in an enumeration of the objects. *)
Definition unary_encode (bs : bytes) : bytes :=
  b ← bs; (if b <? 0 then 1 else 2) :: replicate (Z.to_nat (Z.abs b)) 0 ++ [3].
Fixpoint unary_decode_loop (sign : Z) (n : Z) (bs : bytes) : option bytes :=
  match bs with
  | [] => Some []
  | b :: bs' =>
      if b =? 0 then unary_decode_loop sign (n + 1) bs'
      else if b =? 1 then unary_decode_loop (-1) 0 bs'
      else if b =? 2 then unary_decode_loop 1 0 bs'
      else rest ← unary_decode_loop 1 0 bs'; Some (sign * n :: rest)
  end.

Lemma unary_decode_zeros s n k bs :
  unary_decode_loop s n (replicate k 0 ++ bs) = unary_decode_loop s (n + Z.of_nat k) bs.
Proof.
  revert n; induction k as [|k IH]; intros n; cbn [replicate app unary_decode_loop].
  - f_equal. lia.
  - cbn [Z.eqb]. rewrite IH. f_equal. lia.
Qed.

Lemma unary_encode_cons b bs :
  unary_encode (b :: bs)
  = (if b <? 0 then 1 else 2) :: replicate (Z.to_nat (Z.abs b)) 0 ++ 3 :: unary_encode bs.
Proof. unfold unary_encode. rewrite bind_cons. cbn [app]. f_equal. by rewrite <- app_assoc. Qed.

Lemma unary_inverse bs : unary_decode_loop 1 0 (unary_encode bs) = Some bs.
Proof.
  induction bs as [|b bs IH]; [done|]. rewrite unary_encode_cons. cbn [unary_decode_loop].
  destruct (Z.ltb_spec b 0); cbn [Z.eqb Pos.eqb]; rewrite unary_decode_zeros;
    cbn [app unary_decode_loop Z.eqb Pos.eqb]; rewrite IH; cbn [mbind option_bind]; do 2 f_equal; lia.
Qed.

Lemma unary_no_dot bs : Forall (fun b => b <> 46) (unary_encode bs).
Proof.
  induction bs as [|b bs IH]; [constructor|]. rewrite unary_encode_cons. constructor; [by destruct (b <? 0)|].
  apply Forall_app. split; [by apply Forall_replicate|]. by constructor.
Qed.

Definition jvalue_to_sum (v : jvalue) : Z + (string + unit) :=
  match v with JNum n => inl n | JStr s => inr (inl s) | JOther => inr (inr ()) end.
Definition jvalue_of_sum (v : Z + (string + unit)) : jvalue :=
  match v with inl n => JNum n | inr (inl s) => JStr s | inr (inr _) => JOther end.
#[export] Instance jvalue_eq_dec : EqDecision jvalue.
Proof. solve_decision. Defined.
#[export] Instance jvalue_countable : Countable jvalue.
Proof. refine (inj_countable' jvalue_to_sum jvalue_of_sum _). by intros []. Defined.
Definition enum_print (l : list (string * jvalue)) : bytes := [Zpos (encode l)].
Definition enum_parse (bs : bytes) : option (list (string * jvalue)) :=
  match bs with [Zpos p] => decode p | _ => None end.

Lemma raw_token_roundtrip_witness :
  let token u := mkRawToken (mkSubject "auth0" u) (replicate 32 7) (mkDuration 1700000000 (-5)) 81985529216486895 true in
  let parse := raw_from_str DEFAULT_PROVIDERS (unary_decode_loop 1 0) enum_parse (fun _ => InvalidJson) in
  let print := raw_display unary_encode enum_print in
  parse (print (token (uid_from_u128 (2 ^ 100 + 77)))) = Ok (token (uid_from_u128 (2 ^ 100 + 77))) /\
  parse (print (token (uid_from_u128 (2 ^ 32 + 77)))) = Ok (token (uid_from_u128 (2 ^ 32))).
Proof.
  assert (Hw : forall n, raw_wf DEFAULT_PROVIDERS (mkRawToken (mkSubject "auth0" (uid_from_u128 n)) (replicate 32 7)
    (mkDuration 1700000000 (-5)) 81985529216486895 true)).
  { intros n. split; [|done]. destruct example_payload_wf as (Hp & _ & H). split_and!; [exact Hp|apply uid_wf_u128|apply H..]. }
  assert (H := fun n => proj1 (raw_token_roundtrip DEFAULT_PROVIDERS unary_encode (unary_decode_loop 1 0) enum_print enum_parse
    (fun _ => InvalidJson) _ unary_inverse unary_no_dot (fun l => decode_encode l) (Hw n))).
  intros token parse print. split; [exact (H (2 ^ 100 + 77))|exact (H (2 ^ 32 + 77))].
Defined.

(** A 64-bit integer written as a string is read back, and a plain JSON number
    in range is read as itself. *)
Theorem stringify_roundtrip n :
  (in_int 64 n -> destringify_i64 (stringify_i64 n) = Some n /\ destringify_i64 (JNum n) = Some n)
  /\ (in_uint 64 n ->
        destringify_u64 (stringify_u64 n) = Some n /\ destringify_u64 (JNum n) = Some n).
Proof. split; [apply destringify_i64_stringify|apply destringify_u64_stringify]. Qed.

Lemma stringify_roundtrip_witness :
  destringify_i64 (stringify_i64 (-9007199254740993)) = Some (-9007199254740993).
Proof. apply (stringify_roundtrip (-9007199254740993)). unfold in_int. lia. Defined.
