(* ===== verification/StringBuilder.v ===== *)
(** * The string builder

    [src/src/common/utils/string_builder.rs]: a builder whose storage starts as a
    vector of borrowed strings and turns into a vector of [Cow]s at the first
    owned part.  The [MaybeUninit] of the borrowed variant is an [option]: reading
    it while it is [None] is undefined. [total_len] is a wrapping [usize]. *)
From S2P Require Import Prelude.

Inductive Cow : Type := CBorrowed (s : string) | COwned (s : string).
Definition cow_str (c : Cow) : string := match c with CBorrowed s => s | COwned s => s end.
Definition str_len (s : string) : Z := Z.of_nat (String.length s).

Inductive Storage : Type :=
| Borrowed (v : option (list string))
| Mixed (v : list Cow).

Record StringBuilder : Type := mkStringBuilder { storage : Storage; total_len : Z }.

Definition builder_new : StringBuilder := mkStringBuilder (Borrowed (Some [])) 0.

Definition push_part (b : StringBuilder) (part : Cow) : outcome StringBuilder :=
  let n := wrap 64 (total_len b + str_len (cow_str part)) in
  match storage b with
  | Mixed v => Ret (mkStringBuilder (Mixed (v ++ [part])) n)
  | Borrowed maybe_vec =>
      match part with
      | CBorrowed s =>
          v ← unchecked maybe_vec; Ret (mkStringBuilder (Borrowed (Some (v ++ [s]))) n)
      | COwned s =>
          old_vec ← unchecked maybe_vec;
          Ret (mkStringBuilder (Mixed (List.map CBorrowed old_vec ++ [COwned s])) n)
      end
  end.

(** [append] and [append_mut] differ in how they take the builder. *)
Definition append (b : StringBuilder) (part : Cow) : outcome StringBuilder := push_part b part.

Fixpoint push_strs (result : string) (parts : list string) : string :=
  match parts with [] => result | p :: ps => push_strs (result +:+ p) ps end.

Definition build (b : StringBuilder) : outcome string :=
  if total_len b =? 0 then Ret EmptyString
  else
    match storage b with
    | Borrowed maybe_parts =>
        parts ← unchecked maybe_parts;
        match parts with
        | [p] => Ret p
        | _ => Ret (push_strs EmptyString parts)
        end
    | Mixed parts =>
        match parts with
        | [p] => Ret (cow_str p)
        | _ => Ret (push_strs EmptyString (List.map cow_str parts))
        end
    end.

Definition builder_len (b : StringBuilder) : Z := total_len b.
Definition is_empty (b : StringBuilder) : bool := total_len b =? 0.
Definition clear (b : StringBuilder) : StringBuilder := builder_new.

Definition parts_len (b : StringBuilder) : outcome nat :=
  match storage b with
  | Borrowed v => v ← unchecked v; Ret (length v)
  | Mixed v => Ret (length v)
  end.

Record JoinBuilder : Type := mkJoinBuilder
  { builder : StringBuilder; separator : string; separator_total_len : Z }.

Definition saturating_mul (a b : Z) : Z := Z.min (a * b) (2 ^ 64 - 1).

Definition join_with (b : StringBuilder) (sep : string) : outcome JoinBuilder :=
  parts_count ← parts_len b;
  let total_sep_len :=
    if (0 <? parts_count)%nat then saturating_mul (str_len sep) (Z.of_nat (parts_count - 1)) else 0 in
  Ret (mkJoinBuilder b sep total_sep_len).

Fixpoint push_separated (result sep : string) (parts : list string) : string :=
  match parts with [] => result | p :: ps => push_separated (result +:+ sep +:+ p) sep ps end.
Definition push_joined (sep : string) (parts : list string) : string :=
  match parts with [] => EmptyString | first :: rest => push_separated first sep rest end.

Definition join_build (j : JoinBuilder) : outcome string :=
  if is_empty (builder j) then Ret EmptyString
  else
    n ← parts_len (builder j);
    if (n =? 1)%nat then build (builder j)
    else
      match storage (builder j) with
      | Borrowed parts => v ← unchecked parts; Ret (push_joined (separator j) v)
      | Mixed v => Ret (push_joined (separator j) (List.map cow_str v))
      end.

(** The loops of [concat] and [join] over an iterator. *)
Fixpoint append_all (b : StringBuilder) (parts : list Cow) : outcome StringBuilder :=
  match parts with
  | [] => Ret b
  | p :: ps => b ← append b p; append_all b ps
  end.
Definition concat (parts : list Cow) : outcome string := b ← append_all builder_new parts; build b.
Definition join (sep : string) (parts : list Cow) : outcome string :=
  b ← append_all builder_new parts; j ← join_with b sep; join_build j.

(** ** The invariant *)

Definition sum_len (parts : list Cow) : Z := foldr (fun p n => str_len (cow_str p) + n) 0 parts.

Definition is_borrowed (c : Cow) : bool := match c with CBorrowed _ => true | COwned _ => false end.

(** [b] holds [parts]: borrowed storage as long as no part is owned. *)
Definition holds (b : StringBuilder) (parts : list Cow) : Prop :=
  total_len b = wrap 64 (sum_len parts)
  /\ storage b = if forallb is_borrowed parts then Borrowed (Some (cow_str <$> parts)) else Mixed parts.

Lemma sum_len_app p q : sum_len (p ++ q) = sum_len p + sum_len q.
Proof. unfold sum_len. induction p as [|a p IH]; cbn; [done|]. rewrite IH. lia. Qed.

Lemma sum_len_nonneg p : 0 <= sum_len p.
Proof.
  induction p as [|a p IH]; cbn; [lia|]. fold (sum_len p). pose proof (Nat2Z.is_nonneg (String.length (cow_str a))).
  unfold str_len at 1. lia.
Qed.

Lemma borrowed_map parts :
  forallb is_borrowed parts = true -> List.map CBorrowed (cow_str <$> parts) = parts.
Proof.
  induction parts as [|[s|s] parts IH]; cbn; [done| |done]. intros H. by rewrite IH.
Qed.

Lemma push_part_holds b parts p :
  holds b parts -> exists b', push_part b p = Ret b' /\ holds b' (parts ++ [p]).
Proof.
  intros [Hn Hs]. unfold push_part. rewrite Hs, Hn.
  assert (N : wrap 64 (wrap 64 (sum_len parts) + str_len (cow_str p)) = wrap 64 (sum_len (parts ++ [p]))).
  { rewrite sum_len_app. unfold wrap. rewrite Zplus_mod_idemp_l.
    unfold sum_len at 3. cbn [foldr]. by rewrite Z.add_0_r. }
  rewrite N. unfold holds. rewrite forallb_app. destruct (forallb is_borrowed parts) eqn:F.
  - destruct p as [s|s]; cbn; (eexists; split; [reflexivity|]); (split; [done|]); cbn.
    + by rewrite fmap_app.
    + by rewrite borrowed_map.
  - eexists. split; [reflexivity|]. by split.
Qed.

Lemma append_all_holds b parts more :
  holds b parts -> exists b', append_all b more = Ret b' /\ holds b' (parts ++ more).
Proof.
  revert b parts. induction more as [|p ps IH]; intros b parts H; cbn [append_all].
  { exists b. by rewrite app_nil_r. }
  destruct (push_part_holds b parts p H) as (b1 & E & H1). unfold append. rewrite E. cbn [mbind outcome_bind].
  destruct (IH b1 _ H1) as (b2 & E2 & H2). exists b2. split; [done|].
  by rewrite <- app_assoc in H2.
Qed.

Lemma builder_new_holds : holds builder_new [].
Proof. by split. Qed.

(** ** Results *)

Definition concat_spec (parts : list string) : string := foldr (fun p s => p +:+ s) EmptyString parts.
Fixpoint join_spec (sep : string) (parts : list string) : string :=
  match parts with
  | [] => EmptyString
  | [p] => p
  | p :: ps => p +:+ sep +:+ join_spec sep ps
  end.

Lemma string_app_assoc (a b c : string) : (a +:+ b) +:+ c = a +:+ (b +:+ c).
Proof. apply as_bytes_inj. by rewrite !as_bytes_app, app_assoc. Qed.
Lemma string_app_nil (a : string) : a +:+ EmptyString = a.
Proof. apply as_bytes_inj. by rewrite as_bytes_app, app_nil_r. Qed.

Lemma concat_spec_app a b : concat_spec (a ++ b) = concat_spec a +:+ concat_spec b.
Proof. induction a as [|x a IH]; [done|]. cbn. fold (concat_spec (a ++ b)). by rewrite IH, string_app_assoc. Qed.
Lemma push_strs_spec r parts : push_strs r parts = r +:+ concat_spec parts.
Proof.
  revert r; induction parts as [|p ps IH]; intros r; cbn [push_strs concat_spec foldr].
  - symmetry. apply string_app_nil.
  - rewrite IH. apply string_app_assoc.
Qed.

Lemma push_separated_spec r sep parts :
  push_separated r sep parts = join_spec sep (r :: parts).
Proof.
  revert r; induction parts as [|p ps IH]; intros r; cbn [push_separated]; [done|].
  rewrite IH. destruct ps as [|q ps]; cbn [join_spec]; [done|]. by rewrite !string_app_assoc.
Qed.

Lemma push_joined_spec sep parts : push_joined sep parts = join_spec sep parts.
Proof. destruct parts as [|p ps]; [done|]. apply push_separated_spec. Qed.

Lemma sum_len_zero parts : sum_len parts = 0 -> concat_spec (cow_str <$> parts) = EmptyString.
Proof.
  induction parts as [|p ps IH]; intros H; [done|]. cbn in H. fold (sum_len ps) in H.
  pose proof (sum_len_nonneg ps) as N. unfold str_len in H. unfold concat_spec in *. cbn.
  destruct (cow_str p) as [|a s] eqn:E; cbn in *; [|lia]. apply IH. lia.
Qed.

Lemma build_holds b parts :
  holds b parts -> sum_len parts < 2 ^ 64 -> build b = Ret (concat_spec (cow_str <$> parts)).
Proof.
  intros [Hn Hs] Hlt. pose proof (sum_len_nonneg parts) as N. unfold build. rewrite Hn.
  rewrite wrap_small by (unfold in_uint; lia). destruct (Z.eqb_spec (sum_len parts) 0) as [E|E].
  { by rewrite sum_len_zero. }
  rewrite Hs. destruct (forallb is_borrowed parts).
  - cbn [unchecked mbind outcome_bind]. destruct parts as [|p [|q ps]]; cbn [fmap list_fmap]; [done| |].
    + cbn. by rewrite string_app_nil.
    + f_equal. apply push_strs_spec.
  - destruct parts as [|p [|q ps]]; [done| |].
    + cbn. by rewrite string_app_nil.
    + f_equal. apply push_strs_spec.
Qed.

Lemma parts_len_holds b parts : holds b parts -> parts_len b = Ret (length parts).
Proof.
  intros [_ Hs]. unfold parts_len. rewrite Hs. destruct (forallb is_borrowed parts); cbn; [|done].
  by rewrite length_fmap.
Qed.

Lemma join_build_holds b parts sep :
  holds b parts -> sum_len parts < 2 ^ 64 ->
  (j ← join_with b sep; join_build j)
  = Ret (if sum_len parts =? 0 then EmptyString else join_spec sep (cow_str <$> parts)).
Proof.
  intros H Hlt. pose proof (sum_len_nonneg parts) as N. unfold join_with.
  rewrite (parts_len_holds _ _ H). cbn [mbind outcome_bind]. unfold join_build, is_empty. cbn [builder separator].
  pose proof H as [Hn Hs]. rewrite Hn. rewrite wrap_small by (unfold in_uint; lia).
  destruct (Z.eqb_spec (sum_len parts) 0) as [E|E]; [done|].
  rewrite (parts_len_holds _ _ H). cbn [mbind outcome_bind].
  destruct (Nat.eqb_spec (length parts) 1) as [L|L].
  - rewrite (build_holds _ _ H Hlt). destruct parts as [|p [|q ps]]; try done. cbn. by rewrite string_app_nil.
  - rewrite Hs. destruct (forallb is_borrowed parts); cbn [unchecked mbind outcome_bind];
      f_equal; apply push_joined_spec.
Qed.

(** Concatenation through the builder, for the messages of the handlers. *)
Lemma concat_parts parts :
  sum_len parts < 2 ^ 64 -> concat parts = Ret (concat_spec (cow_str <$> parts)).
Proof.
  intros Hlt. unfold concat. destruct (append_all_holds _ [] parts builder_new_holds) as (b & E & H).
  rewrite E. cbn [mbind outcome_bind]. by apply build_holds.
Qed.

(** ** Properties *)

(** Building concatenates the parts in order, whichever of them are borrowed
    or owned, the vector in [MaybeUninit] is never read uninitialised, and the
    reported length is that of the result. *)
Theorem builder_concatenates parts :
  sum_len parts < 2 ^ 64 ->
  concat parts = Ret (concat_spec (cow_str <$> parts))
  /\ exists b, append_all builder_new parts = Ret b
       /\ builder_len b = str_len (concat_spec (cow_str <$> parts))
       /\ storage b = if forallb is_borrowed parts then Borrowed (Some (cow_str <$> parts)) else Mixed parts.
Proof.
  intros Hlt. split; [by apply concat_parts|].
  destruct (append_all_holds _ [] parts builder_new_holds) as (b & E & Hn & Hs). exists b.
  split_and!; [done| |done]. unfold builder_len. rewrite Hn. cbn [app].
  pose proof (sum_len_nonneg parts). rewrite wrap_small by (unfold in_uint; lia).
  clear. unfold sum_len, str_len. induction parts as [|p ps IH]; [done|]. cbn [foldr fmap list_fmap concat_spec].
  rewrite IH. rewrite <- !length_as_bytes, as_bytes_app, length_app. unfold concat_spec. lia.
Qed.

Lemma builder_concatenates_witness :
  concat [CBorrowed "ab"; COwned "cd"; CBorrowed EmptyString] = Ret "abcd"%string.
Proof. apply (builder_concatenates [CBorrowed "ab"; COwned "cd"; CBorrowed EmptyString]). vm_compute. reflexivity. Defined.

(** Joining puts the separator between consecutive parts, except that the
    result is empty when all the parts are, however many there are. *)
Theorem join_separates sep parts :
  sum_len parts < 2 ^ 64 ->
  join sep parts = Ret (if sum_len parts =? 0 then EmptyString else join_spec sep (cow_str <$> parts)).
Proof.
  intros Hlt. unfold join. destruct (append_all_holds _ [] parts builder_new_holds) as (b & E & H).
  rewrite E. cbn [mbind outcome_bind]. by apply join_build_holds.
Qed.

Lemma join_separates_witness :
  join "," [CBorrowed EmptyString; COwned "b"] = Ret ",b"%string /\ join "," [CBorrowed EmptyString; CBorrowed EmptyString] = Ret EmptyString.
Proof.
  split; [apply (join_separates "," [CBorrowed EmptyString; COwned "b"])
         |apply (join_separates "," [CBorrowed EmptyString; CBorrowed EmptyString])]; vm_compute; reflexivity.
Defined.
