(* ===== verification/TokenInfo.v ===== *)
(** * Token records

    [src/src/app/model.rs] ([ExtToken], [TokenInfo], their archived helpers and
    the merge request), [src/src/app/model/state/token/queue.rs] ([TokenHealth],
    [QueueType]), [src/src/app/model/alias.rs] and the lookup that [Token::new] of
    [src/src/app/model/token/cache.rs] makes in the token pool.

    A [uuid::Uuid] is its 128-bit number and a time zone its IANA name; reading a
    name is external ([tz_parse]), and so is the text of a raw token
    ([raw_to_string], see [RawToken.raw_display]). *)
From S2P Require Import Prelude Numerals Hex TokenKey Profile RawToken.

(** ** Aliases *)

Definition UNNAMED : string := "unnamed".
Definition UNNAMED_PATTERN : string := "unnamed-".

Definition starts_with (s pat : string) : bool :=
  bool_decide (take (String.length pat) (as_bytes s) = as_bytes pat).
Definition is_unnamed (alias : string) : bool := starts_with alias UNNAMED_PATTERN.

(** ** Health *)

Record TokenHealth : Type := mkTokenHealth { backoff_until : Z; consecutive_failures : Z }.
Definition health_new : TokenHealth := mkTokenHealth 0 0.
Definition is_available (now_secs : Z) (h : TokenHealth) : bool := backoff_until h <=? now_secs.
Definition set_backoff (now_secs seconds : Z) (h : TokenHealth) : TokenHealth :=
  mkTokenHealth (wrap 64 (now_secs + seconds)) (consecutive_failures h).
Definition set_permanent_backoff (h : TokenHealth) : TokenHealth :=
  mkTokenHealth (2 ^ 64 - 1) (consecutive_failures h).
Definition clear_backoff (h : TokenHealth) : TokenHealth := mkTokenHealth 0 0.
Definition inc_failures (h : TokenHealth) : TokenHealth * Z :=
  let n := wrap 32 (consecutive_failures h + 1) in (mkTokenHealth (backoff_until h) n, n).

Record TokenStatus : Type := mkTokenStatus { enabled : bool; health : TokenHealth }.
Definition status_default : TokenStatus := mkTokenStatus true health_new.

Inductive QueueType : Type := PrivilegedPaid | PrivilegedFree | NormalPaid | NormalFree.
Definition as_index (q : QueueType) : nat :=
  match q with PrivilegedPaid => 0 | PrivilegedFree => 1 | NormalPaid => 2 | NormalFree => 3 end.

(** ** Tokens *)

(** A [Token] is the record it points to. *)
Record Token : Type := mkToken { raw : RawToken; str : string }.
Definition token_key (t : Token) : TokenKey := raw_key (raw t).

#[export] Instance UserId_eq_dec : EqDecision UserId.
Proof. solve_decision. Defined.
#[export] Instance UserId_countable : Countable UserId.
Proof.
  refine (inj_countable' (fun u => (uid0 u, uid1 u)) (fun p => mkUserId p.1 p.2) _). by intros [].
Defined.
#[export] Instance TokenKey_eq_dec : EqDecision TokenKey.
Proof. solve_decision. Defined.
#[export] Instance TokenKey_countable : Countable TokenKey.
Proof.
  refine (inj_countable' (fun k => (user_id k, randomness k)) (fun p => mkTokenKey p.1 p.2) _).
  by intros [].
Defined.

(** The pool of live tokens, by key. *)
Abbreviation TokenPool := (gmap TokenKey Token) (only parsing).

(** [Token::new]: a pooled token with the same key and signature is reused,
    otherwise a new one is made and takes the place of the pooled one. *)
Definition token_new (raw_to_string : RawToken -> string) (r : RawToken) (s : option string)
  (pool : TokenPool) : Token * TokenPool :=
  let fresh := mkToken r (default (raw_to_string r) s) in
  match pool !! raw_key r with
  | Some t => if raw_eqb (raw t) r then (t, pool) else (fresh, <[raw_key r := fresh]> pool)
  | None => (fresh, <[raw_key r := fresh]> pool)
  end.

Record ExtToken : Type := mkExtToken
  { primary_token : Token; secondary_token : option Token; checksum : Checksum;
    client_key : Hash; config_version : option Z; session_id : Z; proxy : option string;
    timezone : option string; gcpp_host : option GcppHost }.

(** [ExtToken::clone] does not copy the secondary token. *)
Definition ext_clone (e : ExtToken) : ExtToken :=
  mkExtToken (primary_token e) None (checksum e) (client_key e) (config_version e) (session_id e)
    (proxy e) (timezone e) (gcpp_host e).
Definition clone_without_config_version (e : ExtToken) : ExtToken :=
  mkExtToken (primary_token e) None (checksum e) (client_key e) None (session_id e)
    (proxy e) (timezone e) (gcpp_host e).
Definition get_timezone (GENERAL_TIMEZONE : string) (e : ExtToken) : string :=
  match timezone e with Some tz => tz | None => GENERAL_TIMEZONE end.
Definition get_gcpp_host (GENERAL_GCPP_HOST : GcppHost) (e : ExtToken) : GcppHost :=
  match gcpp_host e with Some gh => gh | None => GENERAL_GCPP_HOST end.

Record UnextToken : Type := mkUnextToken { u_primary : Token; u_secondary : option Token }.
Definition store_unext (e : ExtToken) : UnextToken :=
  mkUnextToken (primary_token e) (secondary_token e).
Definition web_token (u : UnextToken) : Token :=
  match u_secondary u with Some t => t | None => u_primary u end.
Definition session_token (u : UnextToken) : Token := u_primary u.
Definition format_workos_cursor_session_token (u : UnextToken) : bytes :=
  let token := web_token u in
  as_bytes "WorkosCursorSessionToken=" ++ uid_to_str (sub_id (subject (raw token))) (replicate 31 0)
    ++ as_bytes "%3A%3A" ++ as_bytes (str token).
Definition format_bearer_token (u : UnextToken) : bytes :=
  as_bytes "Bearer " ++ as_bytes (str (session_token u)).

Record TokenInfo : Type := mkTokenInfo
  { bundle : ExtToken; status : TokenStatus; usage : option UsageProfile;
    user : option UserProfile; stripe : option StripeProfile; sessions : list Session }.
Definition info_key (t : TokenInfo) : TokenKey := token_key (primary_token (bundle t)).
Definition is_enabled (t : TokenInfo) : bool := enabled (status t).

Definition with_bundle (b : ExtToken) (t : TokenInfo) : TokenInfo :=
  mkTokenInfo b (status t) (usage t) (user t) (stripe t) (sessions t).
Definition with_status (s : TokenStatus) (t : TokenInfo) : TokenInfo :=
  mkTokenInfo (bundle t) s (usage t) (user t) (stripe t) (sessions t).

(** ** The archived forms *)

Record ExtTokenHelper : Type := mkExtTokenHelper
  { eh_primary : RawTokenHelper; eh_secondary : option RawTokenHelper; eh_checksum : Checksum;
    eh_client_key : Hash; eh_config_version : option Z; eh_session_id : Z;
    eh_proxy : option string; eh_timezone : option string; eh_gcpp_host : option GcppHost }.
Definition ext_helper_new (e : ExtToken) : ExtTokenHelper :=
  mkExtTokenHelper (raw_to_helper (raw (primary_token e)))
    ((fun t => raw_to_helper (raw t)) <$> secondary_token e) (checksum e) (client_key e)
    (config_version e) (session_id e) (proxy e) (timezone e) (gcpp_host e).

Record TokenInfoHelper : Type := mkTokenInfoHelper
  { th_alias : string; th_bundle : ExtTokenHelper; th_status : TokenStatus;
    th_usage : option UsageProfile; th_user : option UserProfile;
    th_stripe : option StripeProfile; th_sessions : list Session }.
Definition info_helper_new (t : TokenInfo) (alias : string) : TokenInfoHelper :=
  mkTokenInfoHelper alias (ext_helper_new (bundle t)) (status t) (usage t) (user t) (stripe t)
    (sessions t).

Section extract.
Context (providers : list string) (tz_parse : string -> option string).
Context (raw_to_string : RawToken -> string).

(** [Option::map] of a step that may panic. *)
Definition outcome_option {A B} (f : A -> outcome B) (o : option A) : outcome (option B) :=
  match o with Some a => b ← f a; Ret (Some b) | None => Ret None end.

Definition ext_extract (h : ExtTokenHelper) (pool : TokenPool) : outcome (ExtToken * TokenPool) :=
  r ← raw_extract providers (eh_primary h);
  let '(primary, pool) := token_new raw_to_string r None pool in
  second ← outcome_option (raw_extract providers) (eh_secondary h);
  let '(secondary, pool) :=
    match second with
    | Some r => let '(t, pool) := token_new raw_to_string r None pool in (Some t, pool)
    | None => (None, pool)
    end in
  tz ← outcome_option (fun s => unwrap (tz_parse s)) (eh_timezone h);
  Ret (mkExtToken primary secondary (eh_checksum h) (eh_client_key h) (eh_config_version h)
         (eh_session_id h) (eh_proxy h) tz (eh_gcpp_host h), pool).

Definition info_extract (h : TokenInfoHelper) (pool : TokenPool)
  : outcome (TokenInfo * string * TokenPool) :=
  p ← ext_extract (th_bundle h) pool;
  let '(b, pool) := p in
  Ret (mkTokenInfo b (th_status h) (th_usage h) (th_user h) (th_stripe h) (th_sessions h),
       th_alias h, pool).
End extract.

(** ** The merge request *)

Record MergeInfo : Type := mkMergeInfo
  { m_primary_token : option Token; m_secondary_token : option Token;
    m_checksum : option Checksum; m_client_key : option Hash; m_config_version : option Z;
    m_session_id : option Z; m_proxy : option string; m_timezone : option string;
    m_gcpp_host : option GcppHost }.

Definition is_none {A} (o : option A) : bool := match o with None => true | Some _ => false end.
Definition has_some (m : MergeInfo) : bool :=
  negb (is_none (m_primary_token m) && is_none (m_secondary_token m) && is_none (m_checksum m)
        && is_none (m_client_key m) && is_none (m_config_version m) && is_none (m_session_id m)
        && is_none (m_proxy m) && is_none (m_timezone m) && is_none (m_gcpp_host m)).

(** ** Lemmas *)

Lemma starts_with_spec s pat : starts_with s pat = true <-> exists rest, s = pat +:+ rest.
Proof.
  unfold starts_with. rewrite bool_decide_eq_true. rewrite <- length_as_bytes. split.
  - intros E. exists (from_bytes (drop (length (as_bytes pat)) (as_bytes s))).
    apply as_bytes_inj. rewrite as_bytes_app, as_bytes_from_bytes, <- E at 1.
    + by rewrite E, <- E at 1; rewrite take_drop.
    + apply Forall_drop, as_bytes_u8.
  - intros [rest ->]. by rewrite as_bytes_app, take_app_length.
Qed.

(** ** Reading the archived form back *)

Section reload.
Context (providers : list string) (tz_parse : string -> option string).
Context (raw_to_string : RawToken -> string).

Definition bundle_tokens (e : ExtToken) : list Token :=
  primary_token e :: option_list (secondary_token e).

(** The parts of a record that loading parses again: listed providers, a known
    time zone, and texts that are those of the raw tokens. *)
Definition token_reloadable (u : Token) : Prop :=
  provider (subject (raw u)) ∈ providers /\ uid_wf (sub_id (subject (raw u)))
  /\ str u = raw_to_string (raw u).
Definition bundle_reloadable (e : ExtToken) : Prop :=
  Forall token_reloadable (bundle_tokens e)
  /\ (forall tz, timezone e = Some tz -> tz_parse tz = Some tz).

(** Tokens with the same key and signature are one token: what the pool of live
    tokens ensures. *)
Definition coherent (us : list Token) : Prop :=
  forall u v, u ∈ us -> v ∈ us -> token_key u = token_key v -> signature (raw u) = signature (raw v) -> u = v.

Definition pool_of (us : list Token) (pool : TokenPool) : Prop :=
  forall k u, pool !! k = Some u -> u ∈ us /\ token_key u = k.

Lemma token_new_reload us u pool :
  coherent us -> pool_of us pool -> u ∈ us -> str u = raw_to_string (raw u) ->
  exists pool', token_new raw_to_string (raw u) None pool = (u, pool') /\ pool_of us pool'.
Proof.
  intros Hc Hp Hu Hs. unfold token_new. cbn [from_option].
  assert (F : mkToken (raw u) (raw_to_string (raw u)) = u) by (rewrite <- Hs; by destruct u).
  assert (Hi : pool_of us (<[raw_key (raw u) := u]> pool)).
  { intros k v H. apply lookup_insert_Some in H as [[<- <-]|[_ H]]; [done|by apply Hp]. }
  rewrite F. destruct (pool !! raw_key (raw u)) as [v|] eqn:E; [|eauto].
  apply Hp in E as [Hv Ek]. unfold raw_eqb. case_bool_decide as S; [|eauto].
  exists pool. split; [|done]. f_equal. by apply Hc.
Qed.

Lemma raw_extract_reload u : token_reloadable u ->
  raw_extract providers (raw_to_helper (raw u)) = Ret (raw u).
Proof. intros (Hp & Hu & _). by apply raw_helper_inverse. Qed.

Lemma ext_extract_reload us e pool :
  coherent us -> pool_of us pool -> (forall u, u ∈ bundle_tokens e -> u ∈ us) -> bundle_reloadable e ->
  exists pool', ext_extract providers tz_parse raw_to_string (ext_helper_new e) pool = Ret (e, pool')
    /\ pool_of us pool'.
Proof.
  intros Hc Hp Hus [Ht Htz]. destruct e as [p s cs ck cv si px tz gh].
  unfold bundle_tokens in *. cbn [primary_token secondary_token option_list timezone] in *.
  apply Forall_cons in Ht as [Hpt Hst].
  unfold ext_extract, ext_helper_new. cbn [eh_primary primary_token secondary_token eh_secondary eh_timezone timezone].
  rewrite raw_extract_reload by done. cbn [mbind outcome_bind].
  destruct (token_new_reload us p pool Hc Hp) as (pool1 & E1 & Hp1); [apply Hus; left|apply Hpt|].
  rewrite E1. assert (Etz : outcome_option (fun s => unwrap (tz_parse s)) tz = Ret tz).
  { destruct tz as [z|]; cbn; [|done]. by rewrite Htz. }
  destruct s as [s|]; cbn [fmap option_fmap option_map outcome_option].
  - apply Forall_cons in Hst as [Hst _]. rewrite raw_extract_reload by done. cbn [mbind outcome_bind].
    destruct (token_new_reload us s pool1 Hc Hp1) as (pool2 & E2 & Hp2);
      [apply Hus; right; left|apply Hst|].
    rewrite E2, Etz. cbn. eauto.
  - cbn [mbind outcome_bind]. rewrite Etz. cbn. eauto.
Qed.
End reload.

(** ** A sample record, for concrete inputs *)

Definition sample_token (k : Z) : Token :=
  mkToken (mkRawToken (mkSubject "auth0" (uid_from_u128 (2 ^ 100 + k))) (replicate 32 k)
             (mkDuration 0 100) k true) "token".
Definition sample (k : Z) : TokenInfo :=
  mkTokenInfo (mkExtToken (sample_token k) None (mkChecksum (replicate 32 1) (replicate 32 2))
                 (replicate 32 3) None 7 None None None)
    status_default None None None [].
