(* ===== verification/TokenCache.v ===== *)
(** * The reference-counted token cache

    [src/src/app/model/token/cache.rs]: [TokenInner], [Token::new], [Clone] and
    [Drop] for [Token], and the global [TOKEN_MAP].

    The heap maps the address of an allocated [TokenInner] to its content; an
    address that is not in it is not allocated, and reading it is undefined
    behaviour.  Threads interleave at the critical sections: the read-locked part
    of [new], its write-locked part, the increment of [clone], the decrement that
    starts [drop] and the write-locked part that ends it are one event each.  The
    tokens alive in the program are [handles]; the drops between their two parts
    are [pending].  [string_max] is [TokenInner::STRING_MAX_LEN], which depends on
    the compiler's layout; [raw_to_string] is [RawToken::to_string].  The
    allocator returns any address that is not allocated.

    [TokenInfo.token_new] is what a single-threaded client sees of [new]. *)
From S2P Require Import Prelude TokenKey RawToken TokenInfo.

Definition ISIZE_MAX : Z := 2 ^ 63 - 1.

Record TokenInner : Type := mkInner { in_raw : RawToken; in_string : string; count : Z }.
Definition set_count (c : TokenInner) (n : Z) : TokenInner := mkInner (in_raw c) (in_string c) n.

Abbreviation ptr := positive (only parsing).
Record CacheState : Type := mkCache
  { heap : gmap ptr TokenInner; token_map : gmap TokenKey ptr;
    handles : gmap nat ptr; pending : gmap nat ptr }.
Definition cache_init : CacheState := mkCache ∅ ∅ ∅ ∅.

Inductive event : Type :=
| NewFast (h : nat) (r : RawToken)
| NewSlow (h : nat) (r : RawToken) (s : option string) (p : ptr)
| CloneToken (h h' : nat)
| DropDec (h : nat)
| DropClean (h : nat).

(** [inner.count.fetch_add(1)] with the overflow check, for a new handle [h]. *)
Definition acquire (st : CacheState) (h : nat) (p : ptr) : outcome CacheState :=
  inner ← unchecked (heap st !! p);
  let old := count inner in
  if old >? ISIZE_MAX then Panic else
  Ret (mkCache (<[p := set_count inner (wrap 64 (old + 1))]> (heap st)) (token_map st)
         (<[h := p]> (handles st)) (pending st)).

(** [cache.get(&key)] and the comparison of the raw tokens. *)
Definition lookup_raw (st : CacheState) (r : RawToken) : outcome (option ptr) :=
  match token_map st !! raw_key r with
  | None => Ret None
  | Some p =>
      inner ← unchecked (heap st !! p);
      Ret (if raw_eqb (in_raw inner) r then Some p else None)
  end.

Section Cache.
Context (raw_to_string : RawToken -> string) (string_max : Z).

(** The fast path of [new], under the read lock; [None] when it misses. *)
Definition new_fast (st : CacheState) (h : nat) (r : RawToken) : outcome CacheState :=
  o ← lookup_raw st r;
  match o with Some p => acquire st h p | None => Ret st end.

(** The slow path of [new], under the write lock; the allocator gives [p]. *)
Definition new_slow (st : CacheState) (h : nat) (r : RawToken) (s : option string) (p : ptr)
    : outcome CacheState :=
  o ← lookup_raw st r;
  match o with
  | Some q => acquire st h q
  | None =>
      let s := default (raw_to_string r) s in
      if Z.of_nat (String.length s) >? string_max then Panic else
      Ret (mkCache (<[p := mkInner r s 1]> (heap st)) (<[raw_key r := p]> (token_map st))
             (<[h := p]> (handles st)) (pending st))
  end.

(** The decrement of [drop]. *)
Definition drop_dec (st : CacheState) (h : nat) (p : ptr) : outcome CacheState :=
  inner ← unchecked (heap st !! p);
  let old := count inner in
  let heap' := <[p := set_count inner (wrap 64 (old - 1))]> (heap st) in
  Ret (mkCache heap' (token_map st) (delete h (handles st))
         (if old =? 1 then <[h := p]> (pending st) else pending st)).

(** The rest of [drop], under the write lock. *)
Definition drop_clean (st : CacheState) (h : nat) (p : ptr) : outcome CacheState :=
  inner ← unchecked (heap st !! p);
  if negb (count inner =? 0) then
    Ret (mkCache (heap st) (token_map st) (handles st) (delete h (pending st)))
  else
    Ret (mkCache (delete p (heap st)) (delete (raw_key (in_raw inner)) (token_map st))
           (handles st) (delete h (pending st))).

Definition unused (st : CacheState) (h : nat) : bool :=
  bool_decide (handles st !! h = None /\ pending st !! h = None).

(** One event; [None] when it cannot happen in [st]. *)
Definition step (st : CacheState) (e : event) : option (outcome CacheState) :=
  match e with
  | NewFast h r => if unused st h then Some (new_fast st h r) else None
  | NewSlow h r s p =>
      if unused st h && bool_decide (heap st !! p = None) then Some (new_slow st h r s p) else None
  | CloneToken h h' =>
      if unused st h' then p ← handles st !! h; Some (acquire st h' p) else None
  | DropDec h => p ← handles st !! h; Some (drop_dec st h p)
  | DropClean h => p ← pending st !! h; Some (drop_clean st h p)
  end.

Fixpoint run (st : CacheState) (es : list event) : option (outcome CacheState) :=
  match es with
  | [] => Some (Ret st)
  | e :: es =>
      o ← step st e;
      match o with
      | Ret st' => run st' es
      | Panic => Some Panic
      | Undef => Some Undef
      end
  end.
End Cache.

(** ** The invariant *)

(** How many of the handles point to [p]. *)
Definition refs (p : ptr) (hs : gmap nat ptr) : Z :=
  Z.of_nat (size (filter (fun kv => kv.2 = p) hs)).

Record cache_wf (st : CacheState) : Prop := mkCacheWf {
  wf_handles h p : handles st !! h = Some p -> is_Some (heap st !! p);
  wf_count p c : heap st !! p = Some c -> count c = refs p (handles st) /\ count c <= 2 ^ 63;
  wf_map k p : token_map st !! k = Some p ->
    exists c, heap st !! p = Some c /\ raw_key (in_raw c) = k;
  wf_pending h p : pending st !! h = Some p -> is_Some (heap st !! p);
  wf_pending_inj h h' p : pending st !! h = Some p -> pending st !! h' = Some p -> h = h';
}.

(** No count reaches zero while the cleanup of an earlier zero is under way. *)
Definition calm (st : CacheState) (e : event) : bool :=
  match e with
  | DropDec h =>
      match p ← handles st !! h; c ← heap st !! p; Some (p, c) with
      | Some (p, c) =>
          negb (count c =? 1) || bool_decide (map_Forall (fun _ q => q <> p) (pending st))
      | None => true
      end
  | _ => true
  end.

(** The raw tokens of a run. *)
Definition event_raw (e : event) : list RawToken :=
  match e with NewFast _ r | NewSlow _ r _ _ => [r] | _ => [] end.
(** The key identifies the token among [rs]. *)
Definition keys_identify (rs : list RawToken) : bool :=
  forallb (fun r1 => forallb (fun r2 =>
    implb (bool_decide (raw_key r1 = raw_key r2)) (raw_eqb r1 r2)) rs) rs.

(** Every allocated token is the one its key leads to. *)
Definition interned (rs : list RawToken) (st : CacheState) : Prop :=
  forall p c, heap st !! p = Some c ->
    In (in_raw c) rs /\ token_map st !! raw_key (in_raw c) = Some p.

Lemma keys_identify_eq rs r1 r2 :
  keys_identify rs = true -> In r1 rs -> In r2 rs -> raw_key r1 = raw_key r2 -> raw_eqb r1 r2 = true.
Proof.
  unfold keys_identify. rewrite forallb_forall. intros H H1 H2 Hk.
  specialize (H _ H1). rewrite forallb_forall in H. specialize (H _ H2).
  by rewrite bool_decide_true in H.
Qed.

Lemma calm_dec st h p c :
  calm st (DropDec h) = true -> handles st !! h = Some p -> heap st !! p = Some c -> count c = 1 ->
  forall h', pending st !! h' <> Some p.
Proof.
  unfold calm. intros H Hh Hp Hc. rewrite Hh in H. cbn in H. rewrite Hp in H. cbn in H.
  rewrite Hc in H. cbn in H. apply bool_decide_eq_true in H. intros h' E. by apply H in E.
Qed.

(** ** Reference counts *)

Lemma refs_insert h p q hs :
  hs !! h = None -> refs q (<[h := p]> hs) = refs q hs + (if decide (p = q) then 1 else 0).
Proof.
  intros H. unfold refs. destruct (decide (p = q)) as [->|Hne].
  - rewrite map_filter_insert_True by done. rewrite map_size_insert_None; [lia|].
    rewrite map_lookup_filter, H. done.
  - rewrite map_filter_insert_not' by (try done; intros ? E; by rewrite H in E). lia.
Qed.

Lemma refs_delete h p q hs :
  hs !! h = Some p -> refs q (delete h hs) = refs q hs - (if decide (p = q) then 1 else 0).
Proof.
  intros H. rewrite <- (insert_delete_id hs h p H) at 2.
  rewrite refs_insert by apply lookup_delete_eq. lia.
Qed.

Lemma refs_nonneg p hs : 0 <= refs p hs.
Proof. unfold refs. lia. Qed.

Lemma refs_pos h p hs : hs !! h = Some p -> 0 < refs p hs.
Proof.
  intros H. pose proof (refs_delete h p p hs H) as E. rewrite decide_True in E by done.
  pose proof (refs_nonneg p (delete h hs)). lia.
Qed.
#[export] Hint Resolve refs_nonneg : rust.

(** ** Each part of the operations keeps the invariant *)

Lemma lookup_raw_wf st r :
  cache_wf st ->
  lookup_raw st r = Ret None \/
  exists p c, lookup_raw st r = Ret (Some p) /\ token_map st !! raw_key r = Some p /\
    heap st !! p = Some c /\ raw_eqb (in_raw c) r = true.
Proof.
  intros W. unfold lookup_raw. destruct (token_map st !! raw_key r) as [p|] eqn:E; [|by left].
  destruct (wf_map _ W _ _ E) as (c & Hc & _). rewrite Hc. cbn.
  destruct (raw_eqb (in_raw c) r) eqn:Eq; [right|by left]. exists p, c. auto.
Qed.

Lemma acquire_wf st h p c :
  cache_wf st -> handles st !! h = None -> heap st !! p = Some c ->
  acquire st h p = Panic \/ exists st', acquire st h p = Ret st' /\ cache_wf st' /\
    token_map st' = token_map st /\ pending st' = pending st /\
    handles st' = <[h := p]> (handles st) /\
    heap st' = <[p := set_count c (count c + 1)]> (heap st).
Proof.
  intros W Hh Hp. unfold acquire. rewrite Hp. cbn [unchecked mbind outcome_bind].
  rewrite Z.gtb_ltb. destruct (Z.ltb_spec ISIZE_MAX (count c)) as [|Hc]; [by left|right].
  destruct (wf_count _ W _ _ Hp) as [Hr _]. pose proof (refs_nonneg p (handles st)).
  unfold ISIZE_MAX in Hc. rewrite wrap_small by (unfold in_uint; lia).
  eexists. split_and!; [done| |done..]. constructor; cbn [heap token_map handles pending].
  - intros h' q. destruct (decide (h' = h)) as [->|Hne].
    + rewrite lookup_insert_eq. intros [= <-]. rewrite lookup_insert_eq. eauto.
    + rewrite lookup_insert_ne by done. intros H'. apply (wf_handles _ W) in H'.
      destruct (decide (q = p)) as [->|]; [rewrite lookup_insert_eq; eauto|by rewrite lookup_insert_ne].
  - intros q c'. rewrite refs_insert by done. destruct (decide (p = q)) as [<-|Hne].
    + rewrite lookup_insert_eq. intros [= <-]. cbn. lia.
    + rewrite lookup_insert_ne by done. intros Hq. rewrite Z.add_0_r. by apply (wf_count _ W).
  - intros k q Hk. destruct (wf_map _ W _ _ Hk) as (c' & Hq & Hkey).
    destruct (decide (p = q)) as [<-|]; [|rewrite lookup_insert_ne by done; eauto].
    rewrite lookup_insert_eq. eexists. split; [done|]. by simplify_eq.
  - intros h' q Hq. apply (wf_pending _ W) in Hq.
    destruct (decide (q = p)) as [->|]; [rewrite lookup_insert_eq; eauto|by rewrite lookup_insert_ne].
  - apply (wf_pending_inj _ W).
Qed.

Lemma alloc_wf st h r s p :
  cache_wf st -> handles st !! h = None -> heap st !! p = None ->
  cache_wf (mkCache (<[p := mkInner r s 1]> (heap st)) (<[raw_key r := p]> (token_map st))
              (<[h := p]> (handles st)) (pending st)).
Proof.
  intros W Hh Hp.
  assert (Hold : forall q, is_Some (heap st !! q) -> q <> p) by (intros q [? E] ->; by rewrite E in Hp).
  assert (H0 : refs p (handles st) = 0).
  { destruct (Z.eq_dec (refs p (handles st)) 0) as [|Hnz]; [done|]. exfalso.
    unfold refs in Hnz. destruct (decide (filter (fun kv => kv.2 = p) (handles st) = ∅)) as [E|E].
    - rewrite E, map_size_empty in Hnz. done.
    - apply map_choose in E as (i & q & E). apply map_lookup_filter_Some in E as [E Hq].
      cbn in Hq. subst q. by apply (wf_handles _ W), Hold in E. }
  constructor; cbn [heap token_map handles pending].
  - intros h' q. destruct (decide (h' = h)) as [->|Hne].
    + rewrite lookup_insert_eq. intros [= <-]. rewrite lookup_insert_eq. eauto.
    + rewrite lookup_insert_ne by done. intros H'. apply (wf_handles _ W) in H'.
      rewrite lookup_insert_ne; [done|]. intros ->. by apply Hold in H'.
  - intros q c. rewrite refs_insert by done. destruct (decide (p = q)) as [<-|Hne].
    + rewrite lookup_insert_eq. intros [= <-]. cbn. lia.
    + rewrite lookup_insert_ne by done. intros Hq. rewrite Z.add_0_r. by apply (wf_count _ W).
  - intros k q. destruct (decide (k = raw_key r)) as [->|Hk].
    + rewrite lookup_insert_eq. intros [= <-]. rewrite lookup_insert_eq. eauto.
    + rewrite lookup_insert_ne by done. intros H'. destruct (wf_map _ W _ _ H') as (c & Hq & Hkey).
      rewrite lookup_insert_ne; [eauto|]. intros ->. by rewrite Hp in Hq.
  - intros h' q Hq. apply (wf_pending _ W) in Hq. pose proof (Hold _ Hq).
    by rewrite lookup_insert_ne by congruence.
  - apply (wf_pending_inj _ W).
Qed.

Lemma drop_dec_wf st h p :
  cache_wf st -> calm st (DropDec h) = true -> handles st !! h = Some p ->
  exists c st', heap st !! p = Some c /\ drop_dec st h p = Ret st' /\ cache_wf st' /\
    token_map st' = token_map st /\ handles st' = delete h (handles st) /\
    heap st' = <[p := set_count c (count c - 1)]> (heap st).
Proof.
  intros W Hcalm Hh. destruct (wf_handles _ W _ _ Hh) as [c Hc].
  pose proof (calm_dec _ _ _ _ Hcalm Hh Hc) as Hlast.
  destruct (wf_count _ W _ _ Hc) as [Hr Hle]. pose proof (refs_pos _ _ _ Hh) as Hpos.
  unfold drop_dec. rewrite Hc. cbn [unchecked mbind outcome_bind].
  rewrite wrap_small by (unfold in_uint; lia).
  assert (Hrefs : forall q, refs q (delete h (handles st)) =
    refs q (handles st) - (if decide (p = q) then 1 else 0)) by (intros; by apply refs_delete).
  assert (Hlook : forall q, is_Some (heap st !! q) ->
    is_Some (<[p := set_count c (count c - 1)]> (heap st) !! q)).
  { intros q Hq. destruct (decide (q = p)) as [->|]; [rewrite lookup_insert_eq; eauto|by rewrite lookup_insert_ne]. }
  do 2 eexists. split_and!; [done|done| |done..].
  constructor; cbn [heap token_map handles pending].
  - intros h' q Hq. apply lookup_delete_Some in Hq as [_ Hq]. by apply Hlook, (wf_handles _ W h').
  - intros q c'. rewrite Hrefs. destruct (decide (p = q)) as [<-|Hne].
    + rewrite lookup_insert_eq. intros [= <-]. cbn. lia.
    + rewrite lookup_insert_ne, Z.sub_0_r by done. apply (wf_count _ W).
  - intros k q Hk. destruct (wf_map _ W _ _ Hk) as (c' & Hq & Hkey).
    destruct (decide (p = q)) as [<-|]; [|rewrite lookup_insert_ne by done; eauto].
    rewrite lookup_insert_eq. eexists. split; [done|]. by simplify_eq.
  - intros h' q. destruct (count c =? 1);
      [destruct (decide (h' = h)) as [->|];
       [rewrite lookup_insert_eq; intros [= <-]; by apply Hlook|rewrite lookup_insert_ne by done]|];
      intros Hq; by apply Hlook, (wf_pending _ W h').
  - intros h1 h2 q. destruct (Z.eqb_spec (count c) 1) as [H1|]; [|apply (wf_pending_inj _ W)].
    specialize (Hlast H1). rewrite !lookup_insert.
    repeat case_decide; subst; intros E1 E2; simplify_eq; try done;
      [by apply Hlast in E2|by apply Hlast in E1|by eapply (wf_pending_inj _ W)].
Qed.

Lemma drop_clean_wf st h p :
  cache_wf st -> pending st !! h = Some p ->
  exists c st', heap st !! p = Some c /\ drop_clean st h p = Ret st' /\ cache_wf st' /\
    handles st' = handles st /\
    (if count c =? 0
     then heap st' = delete p (heap st) /\ token_map st' = delete (raw_key (in_raw c)) (token_map st)
     else heap st' = heap st /\ token_map st' = token_map st).
Proof.
  intros W Hh. destruct (wf_pending _ W _ _ Hh) as [c Hc].
  destruct (wf_count _ W _ _ Hc) as [Hr Hle].
  unfold drop_clean. rewrite Hc. cbn [unchecked mbind outcome_bind].
  assert (Hne : forall h' q, delete h (pending st) !! h' = Some q -> pending st !! h' = Some q /\ p <> q).
  { intros h' q Hq. apply lookup_delete_Some in Hq as [Hd Hq]. split; [done|]. intros <-.
    by apply Hd, (wf_pending_inj _ W _ _ p). }
  assert (Hinj : forall h1 h2 q, delete h (pending st) !! h1 = Some q ->
    delete h (pending st) !! h2 = Some q -> h1 = h2).
  { intros h1 h2 q H1 H2. apply Hne in H1 as [H1 _], H2 as [H2 _]. by eapply (wf_pending_inj _ W). }
  exists c. destruct (Z.eqb_spec (count c) 0) as [H0|]; cbn [negb]; eexists;
    (split_and!; [done|done| |done..]); constructor; cbn [heap token_map handles pending]; try done.
  - intros h' q Hq. rewrite lookup_delete_ne; [by apply (wf_handles _ W h')|].
    intros ->. apply refs_pos in Hq. lia.
  - intros q c' Hq. apply lookup_delete_Some in Hq as [_ Hq]. by apply (wf_count _ W).
  - intros k q Hk. apply lookup_delete_Some in Hk as [Hk Hq].
    destruct (wf_map _ W _ _ Hq) as (c' & Hc' & Hkey). exists c'.
    rewrite lookup_delete_ne; [done|]. intros ->. simplify_eq.
  - intros h' q Hq. apply Hne in Hq as [Hq ?]. rewrite lookup_delete_ne by done.
    by apply (wf_pending _ W h').
  - apply (wf_handles _ W).
  - apply (wf_count _ W).
  - apply (wf_map _ W).
  - intros h' q Hq. apply Hne in Hq as [Hq _]. by apply (wf_pending _ W h').
Qed.

(** ** Whole events and runs *)

Section Runs.
Context (raw_to_string : RawToken -> string) (string_max : Z).
Abbreviation step := (step raw_to_string string_max).
Abbreviation run := (run raw_to_string string_max).

Fixpoint calm_run (st : CacheState) (es : list event) : bool :=
  match es with
  | [] => true
  | e :: es => calm st e && match step st e with Some (Ret st') => calm_run st' es | _ => true end
  end.

(** What an event does to the invariant: [o] is its outcome. *)
Definition keeps (rs : list RawToken) (st : CacheState) (o : outcome CacheState) : Prop :=
  o = Panic \/ exists st', o = Ret st' /\ cache_wf st' /\
    (keys_identify rs = true -> interned rs st -> interned rs st').

Lemma keeps_acquire rs st h p c :
  cache_wf st -> handles st !! h = None -> heap st !! p = Some c -> keeps rs st (acquire st h p).
Proof.
  intros W Hh Hp. destruct (acquire_wf st h p c W Hh Hp) as [->|(st' & -> & W' & Hm & _ & _ & Hheap)];
    [by left|right].
  exists st'. split_and!; [done..|]. intros _ Hi q c'. rewrite Hm, Hheap.
  destruct (decide (p = q)) as [<-|].
  - rewrite lookup_insert_eq. intros [= <-]. exact (Hi _ _ Hp).
  - rewrite lookup_insert_ne by done. apply Hi.
Qed.

Lemma keeps_fast rs st h r : cache_wf st -> handles st !! h = None -> keeps rs st (new_fast st h r).
Proof.
  intros W Hh. unfold new_fast.
  destruct (lookup_raw_wf st r W) as [->|(p & c & -> & _ & Hp & _)]; cbn [mbind outcome_bind].
  - right. eauto.
  - by eapply keeps_acquire.
Qed.

Lemma keeps_slow rs st h r s p :
  cache_wf st -> handles st !! h = None -> heap st !! p = None -> In r rs ->
  keeps rs st (new_slow raw_to_string string_max st h r s p).
Proof.
  intros W Hh Hp Hr. unfold new_slow.
  destruct (lookup_raw_wf st r W) as [E|(q & c & -> & _ & Hq & _)]; [|by eapply keeps_acquire].
  rewrite E. cbn [mbind outcome_bind]. destruct (_ >? string_max); [by left|right].
  eexists. split_and!; [done|by apply alloc_wf|]. intros Hrs Hi q c. cbn [heap token_map].
  destruct (decide (p = q)) as [<-|Hne].
  - rewrite lookup_insert_eq. intros [= <-]. cbn. by rewrite lookup_insert_eq.
  - rewrite lookup_insert_ne by done. intros Hq. destruct (Hi _ _ Hq) as [Hin Hm]. split; [done|].
    rewrite lookup_insert_ne; [done|]. intros Hk. unfold lookup_raw in E. rewrite Hk, Hm, Hq in E.
    cbn in E. by rewrite (keys_identify_eq rs _ _ Hrs Hin Hr) in E.
Qed.

Lemma keeps_dec rs st h p :
  cache_wf st -> calm st (DropDec h) = true -> handles st !! h = Some p -> keeps rs st (drop_dec st h p).
Proof.
  intros W Hc Hh. destruct (drop_dec_wf st h p W Hc Hh) as (c & st' & Hp & -> & W' & Hm & _ & Hheap).
  right. exists st'. split_and!; [done..|]. intros _ Hi q c'. rewrite Hm, Hheap.
  destruct (decide (p = q)) as [<-|].
  - rewrite lookup_insert_eq. intros [= <-]. exact (Hi _ _ Hp).
  - rewrite lookup_insert_ne by done. apply Hi.
Qed.

Lemma keeps_clean rs st h p :
  cache_wf st -> pending st !! h = Some p -> keeps rs st (drop_clean st h p).
Proof.
  intros W Hh. destruct (drop_clean_wf st h p W Hh) as (c & st' & Hp & -> & W' & _ & Hif).
  right. exists st'. split_and!; [done..|]. intros _ Hi q c'.
  destruct (count c =? 0); destruct Hif as [-> ->]; [|apply Hi].
  intros Hq. apply lookup_delete_Some in Hq as [Hne Hq]. destruct (Hi _ _ Hq) as [Hin Hm].
  split; [done|]. rewrite lookup_delete_ne; [done|]. intros Hk.
  destruct (Hi _ _ Hp) as [_ Hmp]. congruence.
Qed.

Lemma step_keeps rs st e o :
  cache_wf st -> calm st e = true -> (forall r, In r (event_raw e) -> In r rs) ->
  step st e = Some o -> keeps rs st o.
Proof.
  intros W Hc Hr. destruct e as [h r|h r s p|h h'|h|h]; cbn [TokenCache.step]; unfold unused.
  - case_bool_decide as Hu; [|done]. intros [= <-]. apply keeps_fast; [done|apply Hu].
  - case_bool_decide as Hu; [|done]. case_bool_decide as Hp; [|done]. intros [= <-].
    apply keeps_slow; [done|apply Hu|done|]. apply Hr. by left.
  - case_bool_decide as Hu; [|done]. intros (p & Hh & [= <-])%bind_Some.
    destruct (wf_handles _ W _ _ Hh) as [c Hp]. eapply keeps_acquire; [done|apply Hu|done].
  - intros (p & Hh & [= <-])%bind_Some. by apply keeps_dec.
  - intros (p & Hh & [= <-])%bind_Some. by apply keeps_clean.
Qed.

Lemma run_keeps rs es : forall st o,
  cache_wf st -> calm_run st es = true -> (forall r, In r (es ≫= event_raw) -> In r rs) ->
  run st es = Some o -> keeps rs st o.
Proof.
  induction es as [|e es IH]; intros st o W Hc Hr; cbn [calm_run TokenCache.run] in *.
  - intros [= <-]. right. eauto.
  - apply andb_true_iff in Hc as [Hc Hcs]. cbn in Hr.
    assert (Hr1 : forall r, In r (event_raw e) -> In r rs) by (intros r H; apply Hr, in_or_app; by left).
    intros (o1 & Hs & Hrun)%bind_Some.
    destruct (step_keeps rs st e o1 W Hc Hr1 Hs) as [->|(st1 & -> & W1 & Hi1)]; [injection Hrun as <-; by left|].
    rewrite Hs in Hcs. destruct (IH st1 o W1 Hcs) as [->|(st2 & -> & W2 & Hi2)]; [|done|by left|].
    + intros r H. apply Hr, in_or_app. by right.
    + right. exists st2. auto.
Qed.
End Runs.

Lemma cache_init_wf : cache_wf cache_init.
Proof.
  constructor; cbn; try done; intros *; rewrite ?lookup_empty; try done; by intros [=].
Qed.
Lemma interned_init rs : interned rs cache_init.
Proof. intros p c. cbn. by rewrite lookup_empty. Qed.

(** ** Properties *)

(** C24: the cache never touches freed memory in any interleaving in which no
    count reaches zero while the cleanup of an earlier zero is still waiting for
    the lock: the run ends in an abort on overflow or an over-long string, or in
    a state where every live token points to an allocated one whose count is the
    number of tokens sharing it, and where the map holds no dangling pointer. *)
Theorem cache_safe raw_to_string string_max es o :
  calm_run raw_to_string string_max cache_init es = true ->
  run raw_to_string string_max cache_init es = Some o ->
  o = Panic \/ exists st, o = Ret st /\ cache_wf st.
Proof.
  intros Hc Hr.
  destruct (run_keeps raw_to_string string_max (es ≫= event_raw) es cache_init o)
    as [->|(st & -> & W & _)]; eauto using cache_init_wf.
Qed.

(** Tokens are interned: in such an interleaving, when a key identifies the
    token among those used, two live tokens are equal as pointers, which is how
    [PartialEq] compares them, exactly when their keys are equal. *)
Theorem cache_interns raw_to_string string_max es st h1 p1 h2 p2 c1 c2 :
  keys_identify (es ≫= event_raw) = true ->
  calm_run raw_to_string string_max cache_init es = true ->
  run raw_to_string string_max cache_init es = Some (Ret st) ->
  handles st !! h1 = Some p1 -> heap st !! p1 = Some c1 ->
  handles st !! h2 = Some p2 -> heap st !! p2 = Some c2 ->
  p1 = p2 <-> raw_key (in_raw c1) = raw_key (in_raw c2).
Proof.
  intros Hk Hc Hr _ H1 _ H2.
  destruct (run_keeps raw_to_string string_max (es ≫= event_raw) es cache_init (Ret st))
    as [|(st' & [= <-] & W & Hi)]; [apply cache_init_wf|done|done|done|done|].
  specialize (Hi Hk (interned_init _)). split.
  - intros <-. congruence.
  - intros Heq. destruct (Hi _ _ H1) as [_ M1], (Hi _ _ H2) as [_ M2]. congruence.
Qed.

Lemma raw_eqb_refl r : raw_eqb r r = true.
Proof. by apply bool_decide_true. Qed.

Lemma run_step raw_to_string string_max st e st' es :
  step raw_to_string string_max st e = Some (Ret st') ->
  run raw_to_string string_max st (e :: es) = run raw_to_string string_max st' es.
Proof. intros H. cbn [run]. by rewrite H. Qed.

Lemma waiting_cleanups raw_to_string string_max st h1 h2 p c :
  h1 <> h2 -> pending st !! h1 = Some p -> pending st !! h2 = Some p ->
  heap st !! p = Some c -> count c = 0 ->
  run raw_to_string string_max st [DropClean h1; DropClean h2] = Some Undef.
Proof.
  intros Hne H1 H2 Hp Hc. cbn [run step]. rewrite H1. cbn [mbind option_bind].
  unfold drop_clean at 1. rewrite Hp. cbn [unchecked mbind outcome_bind]. rewrite Hc.
  cbn [Z.eqb negb mbind option_bind pending]. rewrite lookup_delete_ne, H2 by done.
  cbn [mbind option_bind]. unfold drop_clean. cbn [heap]. by rewrite lookup_delete_eq.
Qed.

(** The states on the way to the race, for a token [r] at address 1. *)
Definition race_state (r : RawToken) (s : string) (n : Z) (hs ps : gmap nat ptr) : CacheState :=
  mkCache {[1%positive := mkInner r s n]} {[raw_key r := 1%positive]} hs ps.

Lemma race_new raw_to_string string_max r s :
  Z.of_nat (String.length s) <= string_max ->
  step raw_to_string string_max cache_init (NewSlow 0 r (Some s) 1) =
    Some (Ret (race_state r s 1 {[0%nat := 1%positive]} ∅)).
Proof.
  intros Hs. cbn [step].
  change (unused cache_init 0 && bool_decide (heap cache_init !! 1%positive = None)) with true.
  cbv iota. unfold new_slow, lookup_raw. cbn [token_map cache_init]. rewrite lookup_empty.
  cbn [mbind outcome_bind default]. by rewrite Z.gtb_ltb, (proj2 (Z.ltb_ge _ _)) by done.
Qed.
Lemma race_drop raw_to_string string_max r s h ps :
  step raw_to_string string_max (race_state r s 1 {[h := 1%positive]} ps) (DropDec h) =
    Some (Ret (race_state r s 0 ∅ (<[h := 1%positive]> ps))).
Proof.
  unfold race_state. cbn [step handles]. rewrite lookup_singleton_eq. cbn [mbind option_bind].
  unfold drop_dec. cbn [heap handles pending token_map]. rewrite lookup_singleton_eq.
  cbn [unchecked mbind outcome_bind count Z.eqb Pos.eqb].
  by rewrite insert_singleton_eq, delete_singleton_eq.
Qed.
Lemma race_hit raw_to_string string_max r s h ps :
  ps !! h = None ->
  step raw_to_string string_max (race_state r s 0 ∅ ps) (NewFast h r) =
    Some (Ret (race_state r s 1 {[h := 1%positive]} ps)).
Proof.
  intros Hh. unfold race_state. cbn [step]. unfold unused. cbn [handles pending].
  rewrite bool_decide_true by (split; [apply lookup_empty|done]).
  unfold new_fast, lookup_raw. cbn [token_map heap]. rewrite !lookup_singleton_eq.
  cbn [unchecked mbind outcome_bind in_raw]. rewrite raw_eqb_refl.
  unfold acquire. cbn [heap handles pending token_map]. rewrite lookup_singleton_eq.
  cbn [unchecked mbind outcome_bind count]. change (0 >? ISIZE_MAX) with false. cbv iota.
  by rewrite insert_singleton_eq.
Qed.

(** The double check of [drop] does not make it safe.  Two cleanups waiting
    for the same unreferenced token are a use after free, and two threads get
    there: one drops the last token, the other takes it from the cache and drops
    it again before the first has the lock. *)
Theorem double_cleanup_undefined raw_to_string string_max :
  (forall st h1 h2 p c, h1 <> h2 -> pending st !! h1 = Some p -> pending st !! h2 = Some p ->
     heap st !! p = Some c -> count c = 0 ->
     run raw_to_string string_max st [DropClean h1; DropClean h2] = Some Undef) /\
  (forall r s, Z.of_nat (String.length s) <= string_max ->
     run raw_to_string string_max cache_init
       [NewSlow 0 r (Some s) 1; DropDec 0; NewFast 1 r; DropDec 1; DropClean 0; DropClean 1] =
     Some Undef).
Proof.
  split; [intros *; apply waiting_cleanups|]. intros r s Hs.
  assert (Hh : (<[0%nat := 1%positive]> ∅ : gmap nat ptr) !! 1%nat = None) by by vm_compute.
  rewrite (run_step _ _ _ _ _ _ (race_new _ _ r s Hs)), (run_step _ _ _ _ _ _ (race_drop _ _ r s _ _)).
  rewrite (run_step _ _ _ _ _ _ (race_hit _ _ r s 1 _ Hh)), (run_step _ _ _ _ _ _ (race_drop _ _ r s _ _)).
  by eapply waiting_cleanups.
Qed.

(** When a token takes the place of another with the same key, the drop of the
    older one removes the entry of the newer: the newer is alive and no longer
    found, and the same token made again differs from it as a pointer. *)
Definition clash (sig : Z) : RawToken :=
  mkRawToken (sub example_payload) (replicate 32 sig) (mkDuration 1700000000 (-5)) 77 true.
Example overwritten_token_lost :
  exists st, run (fun _ => EmptyString) 100 cache_init
      [NewSlow 0 (clash 1) None 1; NewSlow 1 (clash 2) None 2; DropDec 0; DropClean 0;
       NewFast 3 (clash 2); NewSlow 2 (clash 2) None 3] = Some (Ret st) /\
    handles st !! 1%nat = Some 2%positive /\ handles st !! 2%nat = Some 3%positive /\
    in_raw <$> heap st !! 2%positive = in_raw <$> heap st !! 3%positive.
Proof. eexists. split; [vm_compute; reflexivity|]. split_and!; vm_compute; reflexivity. Qed.

(** A run with a resurrected token, which is calm. *)
Definition calm_example : list event :=
  [NewSlow 0 (clash 1) None 1; CloneToken 0 1; DropDec 0; DropDec 1; NewFast 2 (clash 1);
   DropClean 1; NewSlow 3 (mkRawToken (sub example_payload) (replicate 32 9) (mkDuration 1 2) 78 true) None 2;
   CloneToken 2 4; DropDec 4].

Lemma cache_safe_witness :
  exists o, run (fun _ => EmptyString) 100 cache_init calm_example = Some o /\
    (o = Panic \/ exists st, o = Ret st /\ cache_wf st).
Proof.
  eexists. split; [vm_compute; reflexivity|].
  apply (cache_safe (fun _ => EmptyString) 100 calm_example); vm_compute; reflexivity.
Defined.

Lemma cache_interns_witness :
  exists st p c, run (fun _ => EmptyString) 100 cache_init calm_example = Some (Ret st) /\
    handles st !! 2%nat = Some p /\ heap st !! p = Some c /\
    (p = p <-> raw_key (in_raw c) = raw_key (in_raw c)).
Proof.
  do 3 eexists. split; [vm_compute; reflexivity|].
  split; [vm_compute; reflexivity|]. split; [vm_compute; reflexivity|].
  eapply (cache_interns (fun _ => EmptyString) 100 calm_example _ 2 _ 2); vm_compute; reflexivity.
Defined.

Lemma double_cleanup_undefined_witness :
  run (fun _ => EmptyString) 100 cache_init
    [NewSlow 0 (clash 1) (Some "t"%string) 1; DropDec 0; NewFast 1 (clash 1); DropDec 1;
     DropClean 0; DropClean 1] = Some Undef.
Proof. apply (proj2 (double_cleanup_undefined (fun _ => EmptyString) 100)). vm_compute. discriminate. Defined.
