(* ===== verification/TokenQueue.v ===== *)
(** * The round-robin queue

    [src/src/app/model/state/token/queue.rs] with the [horizon] feature, which is
    the default: the queue holds the identifiers of the live tokens, a map from
    token keys to positions, and one global head per queue type.

    Positions and identifiers are [nat]: a [Vec] has fewer than 2^63 elements, so
    [start + i] does not overflow.  The four heads are atomics that are only read
    and written one at a time; they are the list [heads]. *)
From S2P Require Import Prelude TokenKey TokenInfo.

(** The slots of the manager: [Vec<Option<TokenInfo>>]. *)
Abbreviation Slots := (list (option TokenInfo)) (only parsing).

(** [slice::get_unchecked] and the unchecked write. *)
Definition get_unchecked {A} (l : list A) (i : nat) : outcome A := unchecked (l !! i).
Definition set_unchecked {A} (l : list A) (i : nat) (x : A) : outcome (list A) :=
  if decide (i < length l)%nat then Ret (<[i := x]> l) else Undef.

Record TokenQueue : Type := mkTokenQueue { vec : list nat; map : gmap TokenKey nat }.

Definition QUEUE_HEADS : list nat := [0; 0; 0; 0]%nat.

Definition queue_new : TokenQueue := mkTokenQueue [] ∅.

Definition push (q : TokenQueue) (key : TokenKey) (token_id : nat) : TokenQueue :=
  mkTokenQueue (vec q ++ [token_id]) (<[key := length (vec q)]> (map q)).

(** The [bool] is the returned value: whether [new_key] was not in the map. *)
Definition set_key (q : TokenQueue) (old_key new_key : TokenKey) : bool * TokenQueue :=
  match map q !! old_key with
  | None => (false, q)
  | Some vec_index =>
      let m := delete old_key (map q) in
      (bool_decide (m !! new_key = None), mkTokenQueue (vec q) (<[new_key := vec_index]> m))
  end.

(** The loop over the elements after the removed one. *)
Fixpoint reindex (slots : Slots) (ids : list nat) (i : nat) (m : gmap TokenKey nat)
  : outcome (gmap TokenKey nat) :=
  match ids with
  | [] => Ret m
  | id :: ids' =>
      slot ← get_unchecked slots id;
      token ← unchecked slot;
      let key := info_key token in
      _ ← unchecked (m !! key);
      reindex slots ids' (S i) (<[key := i]> m)
  end.

Definition shift_head (vec_index current : nat) : nat :=
  if (vec_index <? current)%nat then (current - 1)%nat else current.

Definition queue_remove (q : TokenQueue) (heads : list nat) (key : TokenKey) (slots : Slots)
  : outcome (option nat * TokenQueue * list nat) :=
  match map q !! key with
  | None => Ret (None, q, heads)
  | Some vec_index =>
      let m := delete key (map q) in
      let heads := shift_head vec_index <$> heads in
      removed ← unwrap (vec q !! vec_index);
      let v := take vec_index (vec q) ++ drop (S vec_index) (vec q) in
      m ← reindex slots (drop vec_index v) vec_index m;
      Ret (Some removed, mkTokenQueue v m, heads)
  end.

(** The loop of [select]: [n] of the [len] iterations remain. *)
Fixpoint select_loop (now_secs : Z) (slots : Slots) (v : list nat) (start i n : nat)
  : outcome (option (ExtToken * nat)) :=
  match n with
  | O => Ret None
  | S n' =>
      let index := ((start + i) mod length v)%nat in
      mgr_key ← get_unchecked v index;
      slot ← get_unchecked slots mgr_key;
      token ← unchecked slot;
      if negb (is_enabled token) || negb (is_available now_secs (health (status token)))
      then select_loop now_secs slots v start (S i) n'
      else Ret (Some (ext_clone (bundle token), ((index + 1) mod length v)%nat))
  end.

Definition queue_select (now_secs : Z) (q : TokenQueue) (heads : list nat) (qt : QueueType)
  (slots : Slots) : outcome (option ExtToken * list nat) :=
  match vec q with
  | [] => Ret (None, heads)
  | _ =>
      start ← get_unchecked heads (as_index qt);
      r ← select_loop now_secs slots (vec q) start 0 (length (vec q));
      match r with
      | Some (token, head) => Ret (Some token, <[as_index qt := head]> heads)
      | None => Ret (None, heads)
      end
  end.

(** ** The invariant *)

Definition live (slots : Slots) (i : nat) (t : TokenInfo) : Prop := slots !! i = Some (Some t).

(** The queue holds each live identifier once, and the map locates it by key. *)
Record queue_wf (slots : Slots) (q : TokenQueue) : Prop := {
  qw_nodup : NoDup (vec q);
  qw_live : forall i, i ∈ vec q <-> exists t, live slots i t;
  qw_map : forall k j, map q !! k = Some j <->
             exists i t, vec q !! j = Some i /\ live slots i t /\ info_key t = k;
}.

(** Two live tokens never share a key. *)
Definition keys_distinct (slots : Slots) : Prop :=
  forall i j t u, live slots i t -> live slots j u -> info_key t = info_key u -> i = j.

Lemma live_fun slots i t u : live slots i t -> live slots i u -> t = u.
Proof. unfold live. congruence. Qed.

Lemma queue_keys_distinct slots q : queue_wf slots q -> keys_distinct slots.
Proof.
  intros [Hn Hl Hm] i j t u Hi Hj E.
  destruct (list_elem_of_lookup_1 _ _ (proj2 (Hl i) (ex_intro _ t Hi))) as [a Ha].
  destruct (list_elem_of_lookup_1 _ _ (proj2 (Hl j) (ex_intro _ u Hj))) as [b Hb].
  assert (Ma : map q !! info_key t = Some a) by (apply Hm; eauto).
  assert (Mb : map q !! info_key t = Some b) by (apply Hm; exists j, u; auto).
  rewrite Ma in Mb. injection Mb as <-. congruence.
Qed.

Lemma queue_position slots q i t :
  queue_wf slots q -> live slots i t ->
  exists j, vec q !! j = Some i /\ map q !! info_key t = Some j.
Proof.
  intros [Hn Hl Hm] Hi.
  destruct (list_elem_of_lookup_1 _ _ (proj2 (Hl i) (ex_intro _ t Hi))) as [a Ha].
  exists a. split; [done|]. apply Hm. eauto.
Qed.

Lemma live_insert slots i j x t :
  (i < length slots)%nat ->
  live (<[i := x]> slots) j t <-> (j = i /\ x = Some t) \/ (j <> i /\ live slots j t).
Proof.
  intros Hi. unfold live. destruct (decide (j = i)) as [->|Hj].
  - rewrite list_lookup_insert_eq by done. naive_solver.
  - rewrite list_lookup_insert_ne by done. naive_solver.
Qed.

Lemma live_lt slots i t : live slots i t -> (i < length slots)%nat.
Proof. apply lookup_lt_Some. Qed.

(** ** Push *)

(** Putting a token with a new key into a dead slot and at the end of the queue. *)
Lemma push_wf slots q id t :
  queue_wf slots q -> (id < length slots)%nat -> slots !! id = Some None ->
  (forall i u, live slots i u -> info_key u <> info_key t) ->
  queue_wf (<[id := Some t]> slots) (push q (info_key t) id).
Proof.
  intros [Hn Hl Hm] Hid Hdead Hk.
  assert (Hnot : id ∉ vec q) by (intros [u Hu]%Hl; unfold live in Hu; congruence).
  split; cbn [vec map push].
  - apply NoDup_app. split_and!; [done| |apply NoDup_singleton]. set_solver.
  - intros i. rewrite elem_of_app, list_elem_of_singleton, Hl. split.
    + intros [[u Hu]| ->]; [exists u|exists t]; apply live_insert; auto.
      right. split; [|done]. intros ->. apply Hnot, Hl. eauto.
    + intros [u Hu]. apply live_insert in Hu as [[-> _]|[_ Hu]]; eauto.
  - intros k j. rewrite lookup_insert_Some, Hm. split.
    + intros [[<- <-]|(Hne & i & u & Hj & Hu & <-)].
      * exists id, t. rewrite lookup_app_r, Nat.sub_diag by lia. split_and!; [done| |done].
        apply live_insert; auto.
      * exists i, u. split_and!; [by apply lookup_app_l_Some| |done].
        apply live_insert; [done|]. right. split; [|done]. intros ->. unfold live in Hu. congruence.
    + intros (i & u & Hj & Hu & <-). apply live_insert in Hu as [[-> [= <-]]|[Hne Hu]]; [|..]; [left|right|done].
      * split; [done|]. apply lookup_app_Some in Hj as [Hj|[Hle Hj]].
        { apply list_elem_of_lookup_2 in Hj. done. }
        apply list_lookup_singleton_Some in Hj. lia.
      * split; [by apply not_eq_sym, (Hk i u Hu)|]. exists i, u. split_and!; [|done|done].
        apply lookup_app_Some in Hj as [Hj|[Hle Hj]]; [done|].
        apply list_lookup_singleton_Some in Hj as [_ ->]. done.
Qed.

(** ** Changing a key *)

(** The key of the token in a slot changes from the one the queue knows. *)
Lemma set_key_wf slots q id t t' :
  queue_wf slots q -> live slots id t ->
  (forall i u, live slots i u -> i <> id -> info_key u <> info_key t') ->
  info_key t' <> info_key t ->
  exists q', set_key q (info_key t) (info_key t') = (true, q')
    /\ vec q' = vec q /\ queue_wf (<[id := Some t']> slots) q'.
Proof.
  intros Hq Hid Hk Hne. pose proof (queue_keys_distinct _ _ Hq) as Hd.
  destruct (queue_position _ _ _ _ Hq Hid) as (p & Hp & Hmp).
  pose proof (live_lt _ _ _ Hid) as Hlt. destruct Hq as [Hn Hl Hm].
  assert (Hfree : map q !! info_key t' = None).
  { destruct (map q !! info_key t') as [j|] eqn:E; [|done].
    apply Hm in E as (i & u & _ & Hu & Ek). destruct (decide (i = id)) as [->|Hi].
    - rewrite (live_fun _ _ _ _ Hu Hid) in Ek. done.
    - by destruct (Hk i u Hu Hi). }
  unfold set_key. rewrite Hmp, lookup_delete_ne, Hfree by done. rewrite bool_decide_true by done.
  eexists. split_and!; [reflexivity|done|]. split; cbn [vec map].
  - done.
  - intros i. rewrite Hl. split.
    + intros [u Hu]. destruct (decide (i = id)) as [->|Hi];
        [exists t'|exists u]; apply live_insert; auto.
    + intros [u Hu]. apply live_insert in Hu as [[-> _]|[_ Hu]]; eauto.
  - intros k j. rewrite lookup_insert_Some, lookup_delete_Some, Hm. split.
    + intros [[<- <-]|(Hk1 & Hk2 & i & u & Hj & Hu & <-)].
      * exists id, t'. split_and!; [done| |done]. apply live_insert; auto.
      * exists i, u. split_and!; [done| |done]. apply live_insert; [done|]. right. split; [|done].
        intros ->. by rewrite (live_fun _ _ _ _ Hu Hid) in Hk2.
    + intros (i & u & Hj & Hu & <-). apply live_insert in Hu as [[-> [= <-]]|[Hi Hu]]; [left|right|done].
      * split; [done|]. eapply NoDup_lookup; eauto.
      * split_and!; [by apply not_eq_sym, (Hk i u)| |eauto].
        intros E. apply Hi. by eapply Hd.
Qed.

(** ** Removal *)

Lemma reindex_spec slots ids i m :
  keys_distinct slots -> NoDup ids -> (forall id, id ∈ ids -> exists t, live slots id t /\ is_Some (m !! info_key t)) ->
  exists m', reindex slots ids i m = Ret m' /\
    forall k j, m' !! k = Some j <->
      (exists p id t, ids !! p = Some id /\ live slots id t /\ info_key t = k /\ j = (i + p)%nat)
      \/ (m !! k = Some j /\ forall id t, id ∈ ids -> live slots id t -> info_key t <> k).
Proof.
  intros Hd Hn. revert i m. induction Hn as [|id ids Hid Hn IH]; intros i m Hlive; cbn [reindex].
  - exists m. split; [done|]. intros k j. split.
    + intros H. right. split; [done|]. intros id t Hin. by apply elem_of_nil in Hin.
    + intros [(p & id & t & Hp & _)|[H _]]; [done|done].
  - destruct (Hlive id ltac:(left)) as (t & Ht & Hs). unfold get_unchecked.
    rewrite Ht. destruct Hs as [j0 Hj0]. cbn [unchecked mbind outcome_bind]. rewrite Hj0.
    cbn [unchecked mbind outcome_bind].
    destruct (IH (S i) (<[info_key t := i]> m)) as (m' & E & Hm').
    { intros id' Hin. destruct (Hlive id' ltac:(by right)) as (t' & Ht' & Hs'). exists t'. split; [done|].
      rewrite lookup_insert_is_Some'. auto. }
    exists m'. split; [done|]. intros k j. rewrite Hm'. split.
    + intros [(p & id' & t' & Hp & Ht' & <- & ->)|[Hk Hno]].
      * left. exists (S p), id', t'. split_and!; [done|done|done|lia].
      * apply lookup_insert_Some in Hk as [[<- <-]|[Hne Hk]].
        -- left. exists 0%nat, id, t. split_and!; [done|done|done|lia].
        -- right. split; [done|]. intros id' t' [->|Hin]%elem_of_cons Ht'; [|eauto].
           by rewrite (live_fun _ _ _ _ Ht' Ht).
    + intros [(p & id' & t' & Hp & Ht' & <- & ->)|[Hk Hno]].
      * destruct p as [|p]; cbn in Hp.
        -- injection Hp as <-. rewrite (live_fun _ _ _ _ Ht' Ht). right. split.
           ++ rewrite lookup_insert_eq. f_equal. lia.
           ++ intros id' u Hin Hu E'. apply Hid. by rewrite <- (Hd _ _ _ _ Hu Ht E').
        -- left. exists p, id', t'. split_and!; [done|done|done|lia].
      * right. split; [|intros id' u Hin; apply Hno; by right].
        rewrite lookup_insert_ne; [done|]. apply (Hno id t); [left|done].
Qed.

Lemma queue_remove_wf slots q heads id t :
  queue_wf slots q -> live slots id t ->
  exists v1 v2 q', vec q = v1 ++ id :: v2 /\ vec q' = v1 ++ v2
    /\ queue_remove q heads (info_key t) (<[id := None]> slots)
       = Ret (Some id, q', shift_head (length v1) <$> heads)
    /\ queue_wf (<[id := None]> slots) q'.
Proof.
  intros Hq Hid. pose proof (queue_keys_distinct _ _ Hq) as Hd.
  destruct (queue_position _ _ _ _ Hq Hid) as (p & Hp & Hmp).
  pose proof (live_lt _ _ _ Hid) as Hlt. pose proof Hq as [Hn Hl Hm].
  assert (Lp : length (take p (vec q)) = p)
    by (rewrite length_take; apply lookup_lt_Some in Hp; lia).
  pose proof (take_drop_middle _ _ _ Hp) as Ev.
  set (v1 := take p (vec q)) in *. set (v2 := drop (S p) (vec q)) in *.
  unfold queue_remove. rewrite Hmp, Hp. cbn [unwrap mbind outcome_bind]. fold v1 v2.
  rewrite (drop_app_length' v1) by done.
  assert (Hd' : keys_distinct (<[id := None]> slots)).
  { intros i j u w Hu Hw. apply live_insert in Hu as [[_ ?]|[_ Hu]], Hw as [[_ ?]|[_ Hw]]; try done.
    by apply Hd. }
  rewrite <- Ev in Hn. pose proof Hn as Hn'.
  apply NoDup_app in Hn' as (N1 & N12 & N2). apply NoDup_cons in N2 as [Ni N2].
  assert (Live : forall i, i ∈ v1 ++ v2 <-> exists u, live (<[id := None]> slots) i u).
  { intros i. transitivity (i ∈ vec q /\ i <> id).
    - rewrite <- Ev. rewrite !elem_of_app, elem_of_cons. split; [|naive_solver].
      intros [Hi|Hi]; (split; [by auto|]); intros ->; [apply (N12 id Hi); left|done].
    - rewrite Hl. split.
      + intros [[u Hu] Hi]. exists u. apply live_insert; auto.
      + intros [u Hu]. apply live_insert in Hu as [[_ ?]|[Hi Hu]]; [done|eauto|done]. }
  destruct (reindex_spec (<[id := None]> slots) v2 p (delete (info_key t) (map q)) Hd' N2)
    as (m' & E & Hm').
  { intros i Hi. destruct (proj1 (Live i)) as [u Hu]; [set_solver|]. exists u. split; [done|].
    apply live_insert in Hu as [[_ ?]|[Hne Hu]]; [done| |done].
    destruct (queue_position slots q i u Hq Hu) as (j & _ & Hj).
    exists j. apply lookup_delete_Some. split; [|done]. intros Ek. apply Hne. symmetry.
    by eapply Hd. }
  rewrite E. cbn [mbind outcome_bind].
  exists v1, v2, (mkTokenQueue (v1 ++ v2) m'). split_and!; [done|done|by rewrite Lp|].
  split; cbn [vec map]; [|done|].
  - apply NoDup_app. split_and!; [done| |done]. intros i Hi Hi2. apply (N12 i Hi). by right.
  - intros k j. rewrite Hm', lookup_delete_Some, Hm, <- Ev. split.
    + intros [(i & w & u & Hi & Hu & <- & ->)|[(Hk & i & u & Hj & Hu & <-) Hno]].
      * exists w, u. split_and!; [|done|done]. rewrite lookup_app_r by lia. rewrite Lp.
        by replace (p + i - p)%nat with i by lia.
      * assert (Hi : i <> id) by (intros ->; by rewrite (live_fun _ _ _ _ Hu Hid) in Hk).
        assert (Hu' : live (<[id := None]> slots) i u) by (apply live_insert; auto).
        exists i, u. split_and!; [|done|done]. apply lookup_app_Some in Hj as [Hj|[Hle Hj]].
        { by apply lookup_app_l_Some. }
        apply lookup_cons_Some in Hj as [[_ ->]|[_ Hj]]; [done|].
        apply list_elem_of_lookup_2 in Hj. by destruct (Hno i u Hj Hu').
    + intros (i & u & Hj & Hu & <-). apply lookup_app_Some in Hj as [Hj|[Hle Hj]].
      * right. apply live_insert in Hu as [[_ ?]|[Hne Hu]]; [done| |done]. split.
        -- split; [intros Ek; apply Hne; symmetry; by eapply Hd|].
           exists i, u. split_and!; [by apply lookup_app_l_Some|done|done].
        -- intros i' u' Hi' Hu' Ek. apply live_insert in Hu' as [[_ ?]|[Hne' Hu']]; [done| |done].
           assert (i' = i) as -> by (by eapply Hd).
           apply list_elem_of_lookup_2 in Hj. apply (N12 i Hj). by right.
      * left. exists (j - p)%nat, i, u. rewrite Lp in Hle, Hj. split_and!; [done|done|done|lia].
Qed.

(** ** Rotation: the order in which [select] looks at the tokens *)

Definition rotation {A} (start : nat) (v : list A) : list A :=
  let h := (start mod length v)%nat in drop h v ++ take h v.

Lemma length_rotation {A} s (v : list A) : length (rotation s v) = length v.
Proof. unfold rotation. rewrite length_app, length_drop, length_take. lia. Qed.

Lemma rotation_lookup {A} s (v : list A) i :
  (i < length v)%nat -> rotation s v !! i = v !! ((s + i) mod length v)%nat.
Proof.
  intros Hi. unfold rotation. set (h := (s mod length v)%nat).
  assert (Hh : (h < length v)%nat) by (apply Nat.mod_upper_bound; lia).
  replace ((s + i) mod length v)%nat with ((h + i) mod length v)%nat
    by (subst h; rewrite Nat.Div0.add_mod_idemp_l; done).
  destruct (decide (i < length v - h)%nat) as [L|L].
  - rewrite lookup_app_l by (rewrite length_drop; lia). rewrite lookup_drop.
    by rewrite Nat.mod_small by lia.
  - rewrite lookup_app_r by (rewrite length_drop; lia). rewrite length_drop.
    rewrite lookup_take_lt by lia. f_equal.
    replace (h + i)%nat with ((i - (length v - h)) + 1 * length v)%nat by lia.
    rewrite Nat.Div0.mod_add. rewrite Nat.mod_small by lia. done.
Qed.

Lemma rotation_elem {A} s (v : list A) x : x ∈ rotation s v <-> x ∈ v.
Proof.
  unfold rotation. rewrite elem_of_app. rewrite <- (take_drop (s mod length v) v) at 5.
  rewrite elem_of_app. tauto.
Qed.

Lemma filter_absent (x : nat) (l : list nat) : x ∉ l -> filter (fun i : nat => i <> x) l = l.
Proof.
  induction l as [|y l IH]; intros Hx; [done|]. rewrite filter_cons_True by set_solver.
  by rewrite IH by set_solver.
Qed.

Lemma filter_remove (x : nat) (l1 l2 : list nat) :
  x ∉ l1 -> x ∉ l2 -> filter (fun i : nat => i <> x) (l1 ++ x :: l2) = l1 ++ l2.
Proof.
  intros H1 H2. rewrite filter_app, filter_cons_False by (by intros ?).
  by rewrite !filter_absent.
Qed.

Lemma rotation_le {A} h (v : list A) : (h < length v)%nat -> rotation h v = drop h v ++ take h v.
Proof. intros H. unfold rotation. by rewrite Nat.mod_small. Qed.
Lemma rotation_len {A} (v : list A) : rotation (length v) v = v.
Proof. unfold rotation. by rewrite Nat.Div0.mod_same, drop_0, take_0, app_nil_r. Qed.

(** Removing an element leaves the others in the order in which a head not
    beyond the end was about to visit them. *)
Lemma rotation_remove h (v1 v2 : list nat) id :
  id ∉ v1 -> id ∉ v2 -> (h <= length (v1 ++ id :: v2))%nat ->
  rotation (shift_head (length v1) h) (v1 ++ v2)
  = filter (fun i : nat => i <> id) (rotation h (v1 ++ id :: v2)).
Proof.
  intros I1 I2 Hh. pose proof (length_app v1 (id :: v2)) as L. cbn [length] in L.
  pose proof (length_app v1 v2) as L'. unfold shift_head.
  assert (D : forall n l, id ∉ l -> id ∉ drop n l /\ id ∉ take n l)
    by (intros n l H; rewrite <- (take_drop n l) in H; set_solver).
  destruct (decide (h = length (v1 ++ id :: v2))) as [->|Hne].
  - rewrite rotation_len, filter_remove by done.
    destruct (Nat.ltb_spec (length v1) (length (v1 ++ id :: v2))); [|lia].
    replace (length (v1 ++ id :: v2) - 1)%nat with (length (v1 ++ v2)) by lia. apply rotation_len.
  - rewrite (rotation_le h (v1 ++ id :: v2)) by lia.
    destruct (Nat.ltb_spec (length v1) h) as [G|G].
    + rewrite rotation_le by lia. rewrite !drop_app_ge, !take_app_ge by lia.
      replace (h - length v1)%nat with (S (h - 1 - length v1)) by lia. cbn [drop take].
      rewrite (app_assoc _ v1 (id :: _)), filter_remove; [by rewrite <- app_assoc| |by apply D].
      rewrite elem_of_app. intros [H|H]; [|done]. by apply (D _ v2 I2) in H.
    + rewrite drop_app_le, take_app_le by lia. rewrite <- app_assoc. cbn [app].
      rewrite filter_remove; [|by apply D|rewrite elem_of_app; intros [H|H]; [done|by apply (D _ v1 I1) in H]].
      destruct (decide (h = length (v1 ++ v2))) as [E|E].
      * rewrite E, rotation_len. assert (v2 = []) as -> by (destruct v2; cbn in *; [done|lia]).
        rewrite app_nil_r. by rewrite drop_ge, take_ge by lia.
      * rewrite rotation_le by lia. rewrite drop_app_le, take_app_le by lia. by rewrite app_assoc.
Qed.

(** ** Selection *)

Definition usable (now_secs : Z) (t : TokenInfo) : bool :=
  is_enabled t && is_available now_secs (health (status t)).

Definition usable_id (now_secs : Z) (slots : Slots) (id : nat) : bool :=
  match slots !! id with Some (Some t) => usable now_secs t | _ => false end.

(** What selection promises: the first usable token in the order of rotation, and
    the head just after it. *)
Definition select_spec (now_secs : Z) (slots : Slots) (v : list nat) (heads : list nat)
  (qt : QueueType) (r : option ExtToken * list nat) : Prop :=
  let start := (heads !!! as_index qt : nat) in
  match list_find (fun id => usable_id now_secs slots id = true) (rotation start v) with
  | Some (k, id) => exists t, live slots id t
      /\ r = (Some (ext_clone (bundle t)), <[as_index qt := ((start + k + 1) mod length v)%nat]> heads)
  | None => r = (None, heads)
  end.

Lemma select_loop_spec now slots v start i n :
  (forall id, id ∈ v -> exists t, live slots id t) -> (i + n = length v)%nat ->
  match list_find (fun id => usable_id now slots id = true) (drop i (rotation start v)) with
  | Some (k, id) => exists t, live slots id t /\ select_loop now slots v start i n
      = Ret (Some (ext_clone (bundle t), ((start + (i + k) + 1) mod length v)%nat))
  | None => select_loop now slots v start i n = Ret None
  end.
Proof.
  intros Hlive. revert i; induction n as [|n IH]; intros i Hi; cbn [select_loop].
  - rewrite drop_ge by (rewrite length_rotation; lia). done.
  - assert (Li : (i < length v)%nat) by lia.
    destruct (lookup_lt_is_Some_2 (rotation start v) i) as [id Hid]; [by rewrite length_rotation|].
    rewrite (drop_S _ _ _ Hid). rewrite rotation_lookup in Hid by done.
    unfold get_unchecked. rewrite Hid. cbn [unchecked mbind outcome_bind].
    destruct (Hlive id) as [t Ht]; [by eapply list_elem_of_lookup_2|]. rewrite Ht.
    cbn [unchecked mbind outcome_bind].
    replace (negb (is_enabled t) || negb (is_available now (health (status t))))
      with (negb (usable now t)) by (unfold usable; by rewrite negb_andb).
    assert (Hu : usable_id now slots id = usable now t) by (unfold usable_id; by rewrite Ht).
    destruct (usable now t) eqn:U; cbn [negb list_find].
    + rewrite decide_True by done. exists t. split; [done|]. do 3 f_equal.
      rewrite Nat.Div0.add_mod_idemp_l. f_equal. lia.
    + rewrite decide_False by congruence. specialize (IH (S i) ltac:(lia)).
      destruct (list_find _ (drop (S i) _)) as [[k id']|]; cbn; [|done].
      destruct IH as (u & Hu' & E). exists u. split; [done|]. rewrite E. do 4 f_equal. lia.
Qed.

Lemma queue_select_spec now slots q heads qt :
  queue_wf slots q -> length heads = 4%nat ->
  exists r, queue_select now q heads qt slots = Ret r /\ select_spec now slots (vec q) heads qt r.
Proof.
  intros Hq Hh. assert (Hlive : forall id, id ∈ vec q -> exists t, live slots id t)
    by (intros id; apply Hq).
  unfold queue_select, select_spec. destruct (vec q) as [|v0 v] eqn:Ev.
  { exists (None, heads). split; [reflexivity|]. unfold rotation. by rewrite drop_nil, take_nil. }
  destruct (lookup_lt_is_Some_2 heads (as_index qt)) as [h Eh]; [rewrite Hh; destruct qt; cbn; lia|].
  unfold get_unchecked. rewrite Eh, (list_lookup_total_correct _ _ _ Eh).
  cbn [unchecked mbind outcome_bind]. rewrite <- Ev in *.
  pose proof (select_loop_spec now slots (vec q) h 0 (length (vec q)) Hlive eq_refl) as H.
  rewrite drop_0 in H. destruct (list_find _ _) as [[k id]|].
  - destruct H as (t & Ht & ->). eexists. split; [reflexivity|]. exists t. split; [done|].
    done.
  - rewrite H. eexists. by split.
Qed.

(** Repeated selection. *)
Fixpoint select_n (now_secs : Z) (q : TokenQueue) (slots : Slots) (qt : QueueType) (n : nat)
  (heads : list nat) : outcome (list nat) :=
  match n with
  | O => Ret heads
  | S n' => r ← queue_select now_secs q heads qt slots; select_n now_secs q slots qt n' (snd r)
  end.

(** A usable token at distance [d] from the head is reached within [d] selections. *)
Lemma select_reaches now slots q qt id t d heads :
  queue_wf slots q -> live slots id t -> usable now t = true -> length heads = 4%nat ->
  (d < length (vec q))%nat -> rotation (heads !!! as_index qt) (vec q) !! d = Some id ->
  exists n heads', (n <= d)%nat /\ select_n now q slots qt n heads = Ret heads'
    /\ length heads' = 4%nat
    /\ (queue_select now q heads' qt slots ≫= fun r => Ret (fst r)) = Ret (Some (ext_clone (bundle t))).
Proof.
  intros Hq Ht Hu. revert heads. induction d as [d IH] using lt_wf_ind. intros heads Hh Hd Hr.
  destruct (queue_select_spec now slots q heads qt Hq Hh) as (r & E & S). unfold select_spec in S.
  set (start := (heads !!! as_index qt : nat)) in *.
  assert (Hid : usable_id now slots id = true) by (unfold usable_id; by rewrite Ht).
  destruct (list_find _ _) as [[k id']|] eqn:F.
  2: { apply list_find_None in F. rewrite Forall_lookup in F. by apply F in Hr. }
  apply list_find_Some in F as (Hk & _ & Hmin). destruct S as (t' & Ht' & ->).
  destruct (decide (k = d)) as [->|Hne].
  { exists 0%nat, heads. split_and!; [lia|done|done|]. rewrite E. cbn.
    rewrite Hk in Hr. injection Hr as ->. by rewrite (live_fun _ _ _ _ Ht Ht'). }
  assert (k < d)%nat.
  { destruct (decide (d < k)%nat); [|lia]. by destruct (Hmin d id Hr). }
  set (heads' := <[as_index qt := ((start + k + 1) mod length (vec q))%nat]> heads).
  assert (Hs : heads' !!! as_index qt = ((start + k + 1) mod length (vec q))%nat).
  { apply list_lookup_total_correct, list_lookup_insert_eq. rewrite Hh. destruct qt; cbn; lia. }
  destruct (IH (d - k - 1)%nat ltac:(lia) heads') as (n & heads2 & Hn & En & L2 & Sel).
  - subst heads'. by rewrite length_insert.
  - lia.
  - rewrite Hs, rotation_lookup by lia. rewrite rotation_lookup in Hr by done. rewrite <- Hr. f_equal.
    rewrite Nat.Div0.add_mod_idemp_l. f_equal. lia.
  - exists (S n), heads2. split_and!; [lia| |done|done]. cbn [select_n]. rewrite E.
    cbn [mbind outcome_bind snd]. exact En.
Qed.

(** ** Properties *)

Lemma sample_queue_wf :
  queue_wf [Some (sample 1); Some (sample 2); Some (sample 3)]
    (push (push (push queue_new (info_key (sample 1)) 0) (info_key (sample 2)) 1)
       (info_key (sample 3)) 2).
Proof.
  set (D := [None; None; None] : Slots).
  assert (W0 : queue_wf D queue_new).
  { assert (L : forall i t, ~ live D i t) by (intros [|[|[|i]]] t H; discriminate H).
    split; cbn [vec map queue_new]; [constructor| |].
    - intros i. split; [intros H; by apply elem_of_nil in H|intros [t H]; by apply L in H].
    - intros k j. rewrite lookup_empty. split; [done|]. intros (i & t & _ & H & _). by apply L in H. }
  assert (K : forall a b : Z, bool_decide (info_key (sample a) = info_key (sample b)) = false ->
                 info_key (sample a) <> info_key (sample b)) by (intros a b H; by case_bool_decide).
  assert (W1 := push_wf D queue_new 0 (sample 1) W0).
  assert (W2 := push_wf [Some (sample 1); None; None] (push queue_new (info_key (sample 1)) 0) 1 (sample 2)).
  assert (W3 := push_wf [Some (sample 1); Some (sample 2); None]
    (push (push queue_new (info_key (sample 1)) 0) (info_key (sample 2)) 1) 2 (sample 3)).
  apply W3; [apply W2; [apply W1| | |]| | |]; try (cbn; lia); try reflexivity.
  - intros [|[|[|i]]] u H; discriminate H.
  - intros [|[|[|i]]] u H; try discriminate H. injection H as <-. apply K. vm_compute. reflexivity.
  - intros [|[|[|i]]] u H; try discriminate H; injection H as <-; apply K; vm_compute; reflexivity.
Qed.

(** C7: selection never leaves defined behaviour on a well-formed queue: it gives
    the first token, in the order of rotation from the head of its queue type,
    that is enabled and not backing off, moves that head just behind it, and
    gives none, moving nothing, when no token is usable. *)
Theorem select_first_usable now slots q heads qt :
  queue_wf slots q -> length heads = 4%nat ->
  exists r, queue_select now q heads qt slots = Ret r /\ select_spec now slots (vec q) heads qt r.
Proof. apply queue_select_spec. Qed.

Lemma select_first_usable_witness :
  exists r, queue_select 0 (push (push (push queue_new (info_key (sample 1)) 0) (info_key (sample 2)) 1)
                              (info_key (sample 3)) 2)
              [0; 0; 4; 0]%nat NormalPaid [Some (sample 1); Some (sample 2); Some (sample 3)] = Ret r
    /\ r = (Some (ext_clone (bundle (sample 2))), [0; 0; 2; 0]%nat).
Proof.
  destruct (select_first_usable 0 [Some (sample 1); Some (sample 2); Some (sample 3)]
              (push (push (push queue_new (info_key (sample 1)) 0) (info_key (sample 2)) 1)
                 (info_key (sample 3)) 2) [0; 0; 4; 0]%nat NormalPaid sample_queue_wf eq_refl)
    as (r & E & t & Ht & ->).
  exists (Some (ext_clone (bundle t)), [0; 0; 2; 0]%nat). split; [exact E|]. injection Ht as <-. reflexivity.
Defined.

(** C8: selection is fair: as long as the tokens do not change, a usable token is
    returned after fewer selections than the queue has tokens, wherever the head
    stands. *)
Theorem select_fair now slots q heads qt id t :
  queue_wf slots q -> length heads = 4%nat -> live slots id t -> usable now t = true ->
  exists n heads', (n < length (vec q))%nat /\ select_n now q slots qt n heads = Ret heads'
    /\ (queue_select now q heads' qt slots ≫= fun r => Ret (fst r))
       = Ret (Some (ext_clone (bundle t))).
Proof.
  intros Hq Hh Ht Hu. assert (Hi : id ∈ rotation (heads !!! as_index qt) (vec q))
    by (apply rotation_elem, (qw_live _ _ Hq); eauto).
  apply list_elem_of_lookup_1 in Hi as [d Hd].
  assert (L : (d < length (vec q))%nat) by (apply lookup_lt_Some in Hd; by rewrite length_rotation in Hd).
  destruct (select_reaches now slots q qt id t d heads Hq Ht Hu Hh L Hd) as (n & h' & Hn & E & _ & S).
  exists n, h'. split_and!; [lia|done|done].
Qed.

Lemma select_fair_witness :
  exists n heads', (n < 3)%nat
    /\ select_n 0 (push (push (push queue_new (info_key (sample 1)) 0) (info_key (sample 2)) 1)
                     (info_key (sample 3)) 2)
         [Some (sample 1); Some (sample 2); Some (sample 3)] NormalFree n QUEUE_HEADS = Ret heads'.
Proof.
  destruct (select_fair 0 [Some (sample 1); Some (sample 2); Some (sample 3)]
              (push (push (push queue_new (info_key (sample 1)) 0) (info_key (sample 2)) 1)
                 (info_key (sample 3)) 2) QUEUE_HEADS NormalFree 2 (sample 3)
              sample_queue_wf eq_refl eq_refl eq_refl) as (n & h & Hn & E & _).
  exists n, h. split; [exact Hn|exact E].
Defined.

(** C9: removing a live token succeeds and leaves the queue well formed over the
    emptied slot; every head that is not beyond the end still faces the remaining
    tokens in the order in which it was about to visit them. *)
Theorem remove_keeps_rotation slots q heads id t :
  queue_wf slots q -> live slots id t ->
  exists q' heads', queue_remove q heads (info_key t) (<[id := None]> slots) = Ret (Some id, q', heads')
    /\ queue_wf (<[id := None]> slots) q'
    /\ length heads' = length heads
    /\ forall i h h', heads !! i = Some h -> heads' !! i = Some h' -> (h <= length (vec q))%nat ->
         (h' <= length (vec q'))%nat
         /\ rotation h' (vec q') = filter (fun j : nat => j <> id) (rotation h (vec q)).
Proof.
  intros Hq Ht. destruct (queue_remove_wf slots q heads id t Hq Ht) as (v1 & v2 & q' & Ev & Ev' & E & Hq').
  exists q', (shift_head (length v1) <$> heads). split_and!; [done|done|by rewrite length_fmap|].
  intros i h h' Hh Hh' Hle. rewrite list_lookup_fmap, Hh in Hh'. injection Hh' as <-.
  rewrite Ev' , Ev in *. split.
  - rewrite length_app in Hle |- *. cbn in Hle. unfold shift_head. destruct (Nat.ltb_spec (length v1) h); lia.
  - pose proof (qw_nodup _ _ Hq) as N. rewrite Ev in N. apply NoDup_app in N as (_ & N1 & N2).
    apply NoDup_cons in N2 as [N2 _]. apply rotation_remove; [|done|done].
    intros Hi. apply (N1 id Hi). left.
Qed.

Lemma remove_keeps_rotation_witness :
  exists q' heads', queue_remove
      (push (push (push queue_new (info_key (sample 1)) 0) (info_key (sample 2)) 1) (info_key (sample 3)) 2)
      [0; 1; 2; 3]%nat (info_key (sample 2)) [Some (sample 1); None; Some (sample 3)]
    = Ret (Some 1%nat, q', heads') /\ length heads' = 4%nat.
Proof.
  destruct (remove_keeps_rotation [Some (sample 1); Some (sample 2); Some (sample 3)]
              (push (push (push queue_new (info_key (sample 1)) 0) (info_key (sample 2)) 1)
                 (info_key (sample 3)) 2) [0; 1; 2; 3]%nat 1 (sample 2) sample_queue_wf eq_refl)
    as (q' & h & E & _ & L & _).
  exists q', h. split; [exact E|exact L].
Defined.
