(* ===== verification/TokenManager.v ===== *)
(** * The token manager

    [src/src/app/model/state/token.rs] with the [horizon] feature: slots indexed
    by identifier, the index by token key, the two alias indexes, the queue of
    free identifiers and the selection queue.  Unchecked accesses are [Undef] when
    their precondition fails.  The global heads of the queues outlive a manager
    and are passed separately. *)
From Stdlib Require Import Sorted.
From S2P Require Import Prelude Numerals Hex TokenKey RawToken TokenInfo TokenQueue.

Inductive ManagerError : Type := AliasExists | InvalidId.

Record TokenManager : Type := mkTokenManager
  { tokens : list (option TokenInfo); id_map : gmap TokenKey nat; alias_map : gmap string nat;
    id_to_alias : list (option string); free_ids : list nat; queue : TokenQueue }.

Definition manager_new : TokenManager := mkTokenManager [] ∅ ∅ [] [] queue_new.

(** The loop that pushes digits, least significant first. *)
Fixpoint push_digits (fuel : nat) (n : Z) : bytes :=
  match fuel with
  | O => []
  | S f => if n =? 0 then [] else (48 + n mod 10) :: push_digits f (n / 10)
  end.
Definition generate_unnamed_alias (id : nat) : string :=
  if (id =? 0)%nat then UNNAMED_PATTERN +:+ "0"
  else UNNAMED_PATTERN +:+ from_bytes (rev (push_digits (dec_fuel (Z.of_nat id)) (Z.of_nat id))).

(** Unnamed tokens get an alias made from their identifier. *)
Definition resolve_alias (alias : string) (id : nat) : string :=
  if String.eqb alias UNNAMED || starts_with alias UNNAMED_PATTERN
  then generate_unnamed_alias id else alias.

(** The identifier the next token gets. *)
Definition next_id (m : TokenManager) : nat := default (length (tokens m)) (head (free_ids m)).

Definition add (m : TokenManager) (token_info : TokenInfo) (alias : string)
  : outcome (result ManagerError nat * TokenManager) :=
  let alias := resolve_alias alias (next_id m) in
  if decide (is_Some (alias_map m !! alias)) then Ret (Err AliasExists, m)
  else
    let '(id, tokens1, id_to_alias1, free_ids1) :=
      match free_ids m with
      | reused_id :: rest => (reused_id, tokens m, id_to_alias m, rest)
      | [] => (length (tokens m), tokens m ++ [None], id_to_alias m ++ [None], [])
      end in
    let key := info_key token_info in
    let id_map1 := <[key := id]> (id_map m) in
    let queue1 := push (queue m) key id in
    tokens2 ← set_unchecked tokens1 id (Some token_info);
    let alias_map1 := <[alias := id]> (alias_map m) in
    id_to_alias2 ← set_unchecked id_to_alias1 id (Some alias);
    Ret (Ok id, mkTokenManager tokens2 id_map1 alias_map1 id_to_alias2 free_ids1 queue1).

Definition get_by_alias (m : TokenManager) (alias : string) : outcome (option TokenInfo) :=
  match alias_map m !! alias with
  | None => Ret None
  | Some id => slot ← get_unchecked (tokens m) id; t ← unchecked slot; Ret (Some t)
  end.

Definition remove (m : TokenManager) (heads : list nat) (id : nat)
  : outcome (option TokenInfo * TokenManager * list nat) :=
  match tokens m !! id with
  | Some (Some token_info) =>
      let tokens1 := <[id := None]> (tokens m) in
      let key := info_key token_info in
      let id_map1 := delete key (id_map m) in
      r ← queue_remove (queue m) heads key tokens1;
      let '(_, queue1, heads1) := r in
      slot ← get_unchecked (id_to_alias m) id;
      alias ← unchecked slot;
      let id_to_alias1 := <[id := None]> (id_to_alias m) in
      let alias_map1 := delete alias (alias_map m) in
      Ret (Some token_info,
           mkTokenManager tokens1 id_map1 alias_map1 id_to_alias1 (free_ids m ++ [id]) queue1,
           heads1)
  | _ => Ret (None, m, heads)
  end.

Definition set_alias (m : TokenManager) (id : nat) (alias : string)
  : outcome (result ManagerError unit * TokenManager) :=
  match tokens m !! id with
  | Some (Some _) =>
      let alias := resolve_alias alias id in
      if decide (is_Some (alias_map m !! alias)) then Ret (Err AliasExists, m)
      else
        slot ← get_unchecked (id_to_alias m) id;
        old_alias ← unchecked slot;
        let alias_map1 := <[alias := id]> (delete old_alias (alias_map m)) in
        id_to_alias1 ← set_unchecked (<[id := None]> (id_to_alias m)) id (Some alias);
        Ret (Ok (), mkTokenManager (tokens m) (id_map m) alias_map1 id_to_alias1 (free_ids m)
                      (queue m))
  | _ => Ret (Err InvalidId, m)
  end.

Definition with_tokens (m : TokenManager) (ts : list (option TokenInfo)) : TokenManager :=
  mkTokenManager ts (id_map m) (alias_map m) (id_to_alias m) (free_ids m) (queue m).

(** [tokens_mut().get_unchecked_mut(id)] followed by the update [f] of the token. *)
Definition update_token (m : TokenManager) (id : nat) (f : TokenInfo -> TokenInfo)
  : outcome TokenManager :=
  slot ← get_unchecked (tokens m) id;
  t ← unchecked slot;
  Ret (with_tokens m (<[id := Some (f t)]> (tokens m))).

(** [TokenWriter::drop], [old_key] being the key when the writer was made. *)
Definition writer_drop (m : TokenManager) (old_key key : TokenKey) : outcome TokenManager :=
  if decide (key <> old_key) then
    match id_map m !! old_key with
    | Some i =>
        let id_map1 := <[key := i]> (delete old_key (id_map m)) in
        let '(ok, queue1) := set_key (queue m) old_key key in
        if (ok : bool) then
          Ret (mkTokenManager (tokens m) id_map1 (alias_map m) (id_to_alias m) (free_ids m) queue1)
        else Undef
    | None => Undef
    end
  else Ret m.

(** [tokens_mut().into_token_writer(id)], the update [f] of the bundle through the
    writer, and the end of the writer's life. *)
Definition write_token (m : TokenManager) (id : nat) (f : ExtToken -> ExtToken)
  : outcome TokenManager :=
  slot ← get_unchecked (tokens m) id;
  t ← unchecked slot;
  let b := f (bundle t) in
  writer_drop (with_tokens m (<[id := Some (with_bundle b t)]> (tokens m)))
    (info_key t) (token_key (primary_token b)).

Definition select (now_secs : Z) (m : TokenManager) (heads : list nat) (qt : QueueType)
  : outcome (option ExtToken * list nat) :=
  queue_select now_secs (queue m) heads qt (tokens m).

(** The loop of [list] (and of [save]) over the slots from position [id] on. *)
Fixpoint list_from (aliases : list (option string)) (id : nat) (slots : list (option TokenInfo))
  : outcome (list (nat * string * TokenInfo)) :=
  match slots with
  | [] => Ret []
  | None :: rest => list_from aliases (S id) rest
  | Some token :: rest =>
      slot ← get_unchecked aliases id;
      alias ← unchecked slot;
      l ← list_from aliases (S id) rest;
      Ret ((id, alias, token) :: l)
  end.
Definition list_tokens (m : TokenManager) : outcome (list (nat * string * TokenInfo)) :=
  list_from (id_to_alias m) 0 (tokens m).

(** [client_keys] and [session_ids] are the random values drawn for each slot. *)
Definition update_client_key (client_keys : nat -> Hash) (session_ids : nat -> Z) (m : TokenManager)
  : TokenManager :=
  with_tokens m (imap (fun i slot =>
    (fun t => let b := bundle t in
      with_bundle (mkExtToken (primary_token b) (secondary_token b) (checksum b) (client_keys i)
                     (config_version b) (session_ids i) (proxy b) (timezone b) (gcpp_host b)) t)
    <$> slot) (tokens m)).

(** The value that [save] archives. *)
Definition save_entry (p : nat * string * TokenInfo) : TokenInfoHelper :=
  let '(_, alias, token_info) := p in info_helper_new token_info alias.
Definition save (m : TokenManager) : outcome (list TokenInfoHelper) :=
  l ← list_tokens m; Ret (List.map save_entry l).

Section load.
Context (providers : list string) (tz_parse : string -> option string).
Context (raw_to_string : RawToken -> string).

Fixpoint load_loop (helpers : list TokenInfoHelper) (m : TokenManager) (pool : TokenPool)
  : outcome (result ManagerError TokenManager) :=
  match helpers with
  | [] => Ret (Ok m)
  | h :: rest =>
      x ← info_extract providers tz_parse raw_to_string h pool;
      let '(token_info, alias, pool) := x in
      r ← add m token_info alias;
      match r with
      | (Ok _, m) => load_loop rest m pool
      | (Err e, _) => Ret (Err e)
      end
  end.
Definition load (helpers : list TokenInfoHelper) (pool : TokenPool)
  : outcome (result ManagerError TokenManager) := load_loop helpers manager_new pool.
End load.

(** ** Aliases *)

Lemma push_digits_spec fuel n : push_digits fuel n = (fun d => 48 + d) <$> dec_digits_rev fuel n.
Proof.
  revert n; induction fuel as [|f IH]; intros n; cbn; [done|].
  destruct (n =? 0); [done|]. cbn. by rewrite IH.
Qed.

Lemma generate_unnamed_alias_spec id :
  generate_unnamed_alias id = UNNAMED_PATTERN +:+ to_dec (Z.of_nat id).
Proof.
  unfold generate_unnamed_alias. destruct (Nat.eqb_spec id 0) as [->|H]; [done|]. f_equal.
  unfold to_dec, dec_digits. destruct (Z.eqb_spec (Z.of_nat id) 0); [lia|]. f_equal.
  rewrite push_digits_spec. symmetry. apply map_rev.
Qed.

Lemma generate_unnamed_alias_inj i j :
  generate_unnamed_alias i = generate_unnamed_alias j -> i = j.
Proof.
  rewrite !generate_unnamed_alias_spec. intros E.
  assert (E' : to_dec (Z.of_nat i) = to_dec (Z.of_nat j)) by (by injection E).
  apply to_dec_inj in E'; lia.
Qed.

Lemma generate_unnamed_alias_pattern i :
  starts_with (generate_unnamed_alias i) UNNAMED_PATTERN = true.
Proof. apply starts_with_spec. rewrite generate_unnamed_alias_spec. eauto. Qed.

Lemma resolve_alias_pattern alias id :
  starts_with (resolve_alias alias id) UNNAMED_PATTERN = true ->
  resolve_alias alias id = generate_unnamed_alias id.
Proof.
  unfold resolve_alias. destruct (starts_with alias UNNAMED_PATTERN) eqn:E.
  - by rewrite orb_true_r.
  - rewrite orb_false_r. destruct (String.eqb alias UNNAMED); congruence.
Qed.

(** ** The invariant *)

Record manager_wf (m : TokenManager) : Prop := {
  mw_len : length (id_to_alias m) = length (tokens m);
  mw_slot : forall i, (exists a, id_to_alias m !! i = Some (Some a)) <-> exists t, live (tokens m) i t;
  mw_ids : forall k i, id_map m !! k = Some i <-> exists t, live (tokens m) i t /\ info_key t = k;
  mw_alias : forall a i, alias_map m !! a = Some i <-> id_to_alias m !! i = Some (Some a);
  mw_free_nodup : NoDup (free_ids m);
  mw_free : forall i, i ∈ free_ids m <-> tokens m !! i = Some None;
  mw_queue : queue_wf (tokens m) (queue m);
  mw_unnamed : forall a i, alias_map m !! a = Some i ->
    starts_with a UNNAMED_PATTERN = true -> a = generate_unnamed_alias i;
}.

Lemma manager_new_wf : manager_wf manager_new.
Proof.
  assert (L : forall i t, ~ live [] i t) by (intros i t H; discriminate H).
  split; cbn [tokens id_map alias_map id_to_alias free_ids queue manager_new].
  - done.
  - intros i. split; [intros [a H]; discriminate H|intros [t H]; by apply L in H].
  - intros k i. rewrite lookup_empty. split; [done|]. intros (t & H & _). by apply L in H.
  - intros a i. by rewrite lookup_empty, lookup_nil.
  - constructor.
  - intros i. rewrite lookup_nil. split; [|done]. intros H. by apply elem_of_nil in H.
  - split; cbn [vec map queue_new]; [constructor| |].
    + intros i. split; [intros H; by apply elem_of_nil in H|]. intros [t H]. by apply L in H.
    + intros k j. rewrite lookup_empty. split; [done|]. intros (i & t & _ & H & _). by apply L in H.
  - intros a i. by rewrite lookup_empty.
Qed.

(** The abstract contents: what identifier [i] stands for. *)
Definition entry (m : TokenManager) (i : nat) : option (string * TokenInfo) :=
  match tokens m !! i, id_to_alias m !! i with
  | Some (Some t), Some (Some a) => Some (a, t)
  | _, _ => None
  end.

Lemma entry_Some m i a t :
  entry m i = Some (a, t) <-> live (tokens m) i t /\ id_to_alias m !! i = Some (Some a).
Proof.
  unfold entry, live. destruct (tokens m !! i) as [[u|]|], (id_to_alias m !! i) as [[b|]|]; naive_solver.
Qed.

Lemma live_entry m i t :
  manager_wf m -> live (tokens m) i t -> exists a, entry m i = Some (a, t).
Proof.
  intros Hm Hi. destruct (proj2 (mw_slot m Hm i) (ex_intro _ t Hi)) as [a Ha].
  exists a. by apply entry_Some.
Qed.

(** No live token has the key of [t]. *)
Definition fresh_key (m : TokenManager) (t : TokenInfo) : Prop := id_map m !! info_key t = None.

Lemma fresh_key_live m t i u :
  manager_wf m -> fresh_key m t -> live (tokens m) i u -> info_key u <> info_key t.
Proof.
  intros Hm Hf Hu E. assert (H : id_map m !! info_key t = Some i) by (apply (mw_ids m Hm); eauto).
  by rewrite Hf in H.
Qed.

Lemma manager_keys_distinct m : manager_wf m -> keys_distinct (tokens m).
Proof. intros Hm. eapply queue_keys_distinct, mw_queue, Hm. Qed.

Lemma set_unchecked_lt {A} (l : list A) i x :
  (i < length l)%nat -> set_unchecked l i x = Ret (<[i := x]> l).
Proof. intros H. unfold set_unchecked. by rewrite decide_True. Qed.

Lemma queue_wf_ext slots slots' q :
  (forall i t, live slots' i t <-> live slots i t) -> queue_wf slots q -> queue_wf slots' q.
Proof. intros E [Hn Hl Hm]. split; [done|..]; intros *; setoid_rewrite E; auto. Qed.

(** Without a free identifier, [add] first pushes an empty slot, which is then the
    free one. *)
Definition grow (m : TokenManager) : TokenManager :=
  mkTokenManager (tokens m ++ [None]) (id_map m) (alias_map m) (id_to_alias m ++ [None])
    [length (tokens m)] (queue m).

Lemma live_snoc slots i t : live (slots ++ [None]) i t <-> live slots i t.
Proof.
  unfold live. rewrite lookup_app_Some, list_lookup_singleton_Some. naive_solver.
Qed.

Lemma live_snoc_ex slots i (P : TokenInfo -> Prop) :
  (exists t, live slots i t /\ P t) <-> (exists t, live (slots ++ [None]) i t /\ P t).
Proof. split; intros (t & Ht & Hp); exists t; (split; [by apply live_snoc|done]). Qed.

Lemma snoc_None {A} (l : list (option A)) i a :
  (l ++ [None]) !! i = Some (Some a) <-> l !! i = Some (Some a).
Proof. rewrite lookup_app_Some, list_lookup_singleton_Some. naive_solver. Qed.

Lemma grow_wf m : manager_wf m -> free_ids m = [] -> manager_wf (grow m).
Proof.
  intros [Hlen Hslot Hids Hal Hfn Hf Hq Hu] E. split; cbn.
  - rewrite !length_app. cbn. lia.
  - intros i. transitivity (exists a, id_to_alias m !! i = Some (Some a)).
    + split; intros [a Ha]; exists a; by apply snoc_None.
    + rewrite Hslot. split; intros [t Ht]; exists t; by apply live_snoc.
  - intros k i. rewrite Hids. apply (live_snoc_ex (tokens m) i (fun t => info_key t = k)).
  - intros a i. rewrite snoc_None. apply Hal.
  - apply NoDup_singleton.
  - intros i. rewrite list_elem_of_singleton, lookup_app_Some, list_lookup_singleton_Some. split.
    + intros ->. right. split; [done|]. split; [lia|done].
    + intros [H|(? & ? & _)]; [|lia]. apply Hf in H. rewrite E in H. by apply elem_of_nil in H.
  - eapply queue_wf_ext; [|exact Hq]. intros. apply live_snoc.
  - done.
Qed.

Lemma add_grow m t alias : free_ids m = [] -> add m t alias = add (grow m) t alias \/
  (exists j, alias_map m !! resolve_alias alias (next_id m) = Some j).
Proof.
  intros E. unfold add, next_id, grow. cbn [free_ids tokens head from_option]. rewrite E. cbn.
  case_decide as D; [right; exact D|left]. done.
Qed.

(** ** Adding *)

Lemma lookup_insert_slot {A} (l : list A) i j x y :
  (i < length l)%nat -> <[i := x]> l !! j = Some y <-> (j = i /\ x = y) \/ (j <> i /\ l !! j = Some y).
Proof.
  intros Hi. destruct (decide (j = i)) as [->|Hj].
  - rewrite list_lookup_insert_eq by done. naive_solver.
  - rewrite list_lookup_insert_ne by done. naive_solver.
Qed.

Lemma add_reuse m t alias id rest :
  manager_wf m -> free_ids m = id :: rest -> fresh_key m t ->
  alias_map m !! resolve_alias alias id = None ->
  exists m', add m t alias = Ret (Ok id, m') /\ manager_wf m'
    /\ tokens m' = <[id := Some t]> (tokens m)
    /\ id_to_alias m' = <[id := Some (resolve_alias alias id)]> (id_to_alias m)
    /\ free_ids m' = rest /\ vec (queue m') = vec (queue m) ++ [id].
Proof.
  intros Hm Ef Hk Ha. pose proof (mw_free m Hm id) as Hdead. rewrite Ef in Hdead.
  assert (Hid : tokens m !! id = Some None) by (apply Hdead; left).
  pose proof (lookup_lt_Some _ _ _ Hid) as Lt.
  assert (La : (id < length (id_to_alias m))%nat) by (rewrite (mw_len m Hm); done).
  assert (Hna : forall a, id_to_alias m !! id <> Some (Some a)).
  { intros a H. destruct (proj1 (mw_slot m Hm id) (ex_intro _ a H)) as [u Hu].
    unfold live in Hu. congruence. }
  assert (Hfk := fresh_key_live m t). set (al := resolve_alias alias id) in *.
  unfold add, next_id. rewrite Ef. cbn [head from_option Datatypes.id]. fold al.
    rewrite decide_False by (rewrite Ha; by intros [? [=]]). rewrite !set_unchecked_lt by done.
  cbn [mbind outcome_bind]. eexists. split; [reflexivity|].
  cbn [tokens id_to_alias free_ids queue vec push]. split_and!; try done.
  specialize (fun i u => Hfk i u Hm Hk). destruct Hm as [Hlen Hslot Hids Hal Hfn Hf Hq Hu]. rewrite Ef in Hfn.
  apply NoDup_cons in Hfn as [Hni Hnr].
  split; cbn [tokens id_map alias_map id_to_alias free_ids queue].
  - by rewrite !length_insert.
  - intros i. split.
    + intros [a H]. apply lookup_insert_slot in H as [[-> _]|[Hne H]]; [| |done].
      * exists t. apply live_insert; auto.
      * destruct (proj1 (Hslot i) (ex_intro _ a H)) as [u Hu']. exists u. apply live_insert; auto.
    + intros [u H]. apply live_insert in H as [[-> _]|[Hne H]]; [| |done].
      * exists al. apply lookup_insert_slot; auto.
      * destruct (proj2 (Hslot i) (ex_intro _ u H)) as [a Ha']. exists a. apply lookup_insert_slot; auto.
  - intros k i. rewrite lookup_insert_Some, Hids. split.
    + intros [[<- <-]|(Hne & u & Hu' & <-)].
      * exists t. split; [apply live_insert; auto|done].
      * exists u. split; [|done]. apply live_insert; [done|]. right. split; [|done].
        intros ->. unfold live in Hu'. congruence.
    + intros (u & H & <-). apply live_insert in H as [[-> [= <-]]|[Hne H]]; [auto| |done].
      right. split; [|eauto]. by apply not_eq_sym, (Hfk i u).
  - intros a i. rewrite lookup_insert_Some, Hal, lookup_insert_slot by done. split.
    + intros [[-> ->]|[Hne H]]; [auto|]. right. split; [|done]. intros ->. by apply Hna in H.
    + intros [[-> [= ->]]|[Hne H]]; [auto|]. right. split; [|done]. intros ->.
      apply Hal in H. by rewrite Ha in H.
  - done.
  - intros i. rewrite lookup_insert_slot by done. split.
    + intros Hi. right. split; [by intros ->|]. apply Hf. rewrite Ef. by right.
    + intros [[-> ?]|[Hne H]]; [done|]. apply Hf in H. rewrite Ef in H. set_solver.
  - apply push_wf; [done|done|done|]. exact Hfk.
  - intros a i. rewrite lookup_insert_Some. intros [[<- <-]|[_ H]]; [|by apply Hu].
    apply resolve_alias_pattern.
Qed.

(** What [add] promises: the token is refused exactly when its alias is taken;
    otherwise it gets the next identifier, all other entries stay, the identifier
    leaves the free queue, and the token joins the end of the rotation. *)
Record added (m m' : TokenManager) (t : TokenInfo) (alias : string) (id : nat) : Prop := {
  ad_wf : manager_wf m';
  ad_entry : forall i, entry m' i = if decide (i = id) then Some (resolve_alias alias id, t) else entry m i;
  ad_free : free_ids m' = tail (free_ids m);
  ad_vec : vec (queue m') = vec (queue m) ++ [id];
  ad_len : length (tokens m') = Nat.max (length (tokens m)) (S id);
}.

Lemma entry_insert m m' id a t :
  length (id_to_alias m) = length (tokens m) -> (id < length (tokens m))%nat ->
  tokens m' = <[id := Some t]> (tokens m) -> id_to_alias m' = <[id := Some a]> (id_to_alias m) ->
  forall i, entry m' i = if decide (i = id) then Some (a, t) else entry m i.
Proof.
  intros Hl Hid Et Ea i. unfold entry. rewrite Et, Ea. case_decide as D.
  - subst. by rewrite !list_lookup_insert_eq by lia.
  - by rewrite !list_lookup_insert_ne by done.
Qed.

Lemma entry_grow m i : length (id_to_alias m) = length (tokens m) -> entry (grow m) i = entry m i.
Proof.
  intros Hl. unfold entry, grow. cbn [tokens id_to_alias].
  destruct (decide (i < length (tokens m))%nat) as [L|L].
  - by rewrite !lookup_app_l by lia.
  - rewrite (lookup_ge_None_2 (tokens m) i) by lia.
    destruct ((tokens m ++ [None]) !! i) as [[u|]|] eqn:E; [|done|done].
    apply (live_snoc (tokens m) i u) in E. apply lookup_lt_Some in E. lia.
Qed.

Lemma add_spec m t alias :
  manager_wf m -> fresh_key m t ->
  let id := next_id m in
  match alias_map m !! resolve_alias alias id with
  | Some _ => add m t alias = Ret (Err AliasExists, m)
  | None => exists m', add m t alias = Ret (Ok id, m') /\ added m m' t alias id
  end.
Proof.
  intros Hm Hk. cbv zeta. destruct (alias_map m !! resolve_alias alias (next_id m)) as [j|] eqn:Ea.
  { unfold add. rewrite decide_True by (rewrite Ea; by eexists). done. }
  assert (exists m1 rest, free_ids m1 = next_id m :: rest /\ manager_wf m1 /\ add m t alias = add m1 t alias
    /\ alias_map m1 = alias_map m /\ id_map m1 = id_map m /\ rest = tail (free_ids m)
    /\ (forall i, entry m1 i = entry m i) /\ vec (queue m1) = vec (queue m)
    /\ length (tokens m1) = Nat.max (length (tokens m)) (S (next_id m)))
    as (m1 & rest & Ef & Hm1 & Eadd & E1 & E2 & Er & E3 & E4 & E5).
  { destruct (free_ids m) as [|id rest] eqn:Ef.
    - exists (grow m), []. unfold next_id. rewrite Ef. cbn [head from_option tail Datatypes.id].
      split_and!; try done; [by apply grow_wf| | |].
      + destruct (add_grow m t alias Ef) as [E|[j E]]; [done|]. congruence.
      + intros i. apply entry_grow, Hm.
      + cbn. rewrite length_app. cbn. lia.
    - exists m, rest. unfold next_id. rewrite Ef. cbn [head from_option tail Datatypes.id]. split_and!; try done.
      assert (L : tokens m !! id = Some None) by (apply (mw_free m Hm); rewrite Ef; left).
      apply lookup_lt_Some in L. lia. }
  assert (L : tokens m1 !! next_id m = Some None) by (apply (mw_free m1 Hm1); rewrite Ef; left).
  apply lookup_lt_Some in L.
  destruct (add_reuse m1 t alias (next_id m) rest Hm1 Ef) as (m' & E & Hwf & Et & Eal & Efr & Ev);
    [unfold fresh_key; by rewrite E2|by rewrite E1|].
  exists m'. split; [by rewrite Eadd|]. split; [done| | | |].
  - intros i. rewrite <- E3. apply entry_insert; [apply Hm1|done|done|done].
  - by rewrite Efr.
  - by rewrite Ev, E4.
  - by rewrite Et, length_insert.
Qed.

(** An unnamed token is never refused. *)
Lemma add_unnamed m alias :
  manager_wf m -> alias = UNNAMED \/ starts_with alias UNNAMED_PATTERN = true ->
  alias_map m !! resolve_alias alias (next_id m) = None.
Proof.
  intros Hm Ha. assert (E : resolve_alias alias (next_id m) = generate_unnamed_alias (next_id m)).
  { unfold resolve_alias. destruct Ha as [->|Ha]; [done|]. by rewrite Ha, orb_true_r. }
  rewrite E. destruct (alias_map m !! _) as [i|] eqn:L; [|done]. exfalso.
  pose proof (mw_unnamed m Hm _ _ L (generate_unnamed_alias_pattern _)) as G.
  apply generate_unnamed_alias_inj in G. apply (mw_alias m Hm) in L.
  destruct (proj1 (mw_slot m Hm i) (ex_intro _ _ L)) as [t Ht]. rewrite <- G in Ht. unfold next_id in Ht.
  destruct (free_ids m) as [|id rest] eqn:Ef; cbn in Ht.
  - apply lookup_lt_Some in Ht. lia.
  - assert (D : tokens m !! id = Some None) by (apply (mw_free m Hm); rewrite Ef; left).
    unfold live in Ht. congruence.
Qed.

(** ** Removing *)

(** What [remove] promises: the entry disappears, all others stay, its identifier
    waits behind the free ones, and the rotation loses exactly that token. *)
Record removed (m m' : TokenManager) (heads heads' : list nat) (id : nat) : Prop := {
  rm_wf : manager_wf m';
  rm_entry : forall i, entry m' i = if decide (i = id) then None else entry m i;
  rm_free : free_ids m' = free_ids m ++ [id];
  rm_vec : exists v1 v2, vec (queue m) = v1 ++ id :: v2 /\ vec (queue m') = v1 ++ v2
             /\ heads' = shift_head (length v1) <$> heads;
  rm_len : length (tokens m') = length (tokens m);
}.

Lemma live_delete slots i j t :
  (i < length slots)%nat -> live (<[i := None]> slots) j t <-> j <> i /\ live slots j t.
Proof. intros Hi. rewrite live_insert by done. naive_solver. Qed.

Lemma remove_spec m heads id :
  manager_wf m ->
  match entry m id with
  | None => remove m heads id = Ret (None, m, heads)
  | Some (_, t) => exists m' heads', remove m heads id = Ret (Some t, m', heads')
                     /\ removed m m' heads heads' id
  end.
Proof.
  intros Hm. destruct (entry m id) as [[a t]|] eqn:E.
  2: { unfold remove. destruct (tokens m !! id) as [[t|]|] eqn:Et; try done.
       destruct (live_entry m id t Hm Et) as [a Ha]. congruence. }
  apply entry_Some in E as [Ht Ha].
  destruct (queue_remove_wf _ _ heads _ _ (mw_queue m Hm) Ht) as (v1 & v2 & q' & Ev & Ev' & Eq & Hq').
  pose proof (live_lt _ _ _ Ht) as Lt. pose proof (manager_keys_distinct m Hm) as Hd.
  unfold remove. pose proof Ht as Ht0. unfold live in Ht0. rewrite Ht0, Eq.
  cbn [mbind outcome_bind]. unfold get_unchecked. rewrite Ha. cbn [unchecked mbind outcome_bind].
  do 2 eexists. split; [reflexivity|].
  destruct Hm as [Hlen Hslot Hids Hal Hfn Hf Hq Hu].
  assert (La : (id < length (id_to_alias m))%nat) by lia.
  split; cbn [tokens id_map alias_map id_to_alias free_ids queue].
  2: { intros i. unfold entry. cbn [tokens id_to_alias]. case_decide as D.
       - subst. by rewrite list_lookup_insert_eq.
       - by rewrite !list_lookup_insert_ne. }
  2: done.
  2: by exists v1, v2.
  2: by rewrite length_insert.
  split; cbn [tokens id_map alias_map id_to_alias free_ids queue].
  - by rewrite !length_insert.
  - intros i. split.
    + intros [b H]. apply lookup_insert_slot in H as [[_ ?]|[Hne H]]; [done| |done].
      destruct (proj1 (Hslot i) (ex_intro _ b H)) as [u Hu']. exists u. by apply live_delete.
    + intros [u H]. apply live_delete in H as [Hne H]; [|done].
      destruct (proj2 (Hslot i) (ex_intro _ u H)) as [b Hb]. exists b. apply lookup_insert_slot; auto.
  - intros k i. rewrite lookup_delete_Some, Hids. split.
    + intros [Hk (u & Hu' & <-)]. exists u. split; [|done]. apply live_delete; [done|]. split; [|done].
      intros ->. by rewrite (live_fun _ _ _ _ Hu' Ht) in Hk.
    + intros (u & H & <-). apply live_delete in H as [Hne H]; [|done]. split; [|eauto].
      intros Ek. apply Hne. symmetry. by eapply Hd.
  - intros b i. rewrite lookup_delete_Some, Hal, lookup_insert_slot by done. split.
    + intros [Hne H]. right. split; [|done]. intros ->. rewrite Ha in H. congruence.
    + intros [[_ ?]|[Hne H]]; [done|]. split; [|done]. intros ->. apply Hal in H, Ha. congruence.
  - apply NoDup_app. split_and!; [done| |apply NoDup_singleton]. intros i Hi Hi'.
    apply list_elem_of_singleton in Hi' as ->. apply Hf in Hi. congruence.
  - intros i. rewrite elem_of_app, list_elem_of_singleton, Hf, lookup_insert_slot by done.
    destruct (decide (i = id)) as [->|]; naive_solver.
  - done.
  - intros b i. rewrite lookup_delete_Some. intros [_ H]. by apply Hu.
Qed.

(** ** Renaming *)

Lemma set_alias_spec m id alias :
  manager_wf m ->
  match entry m id with
  | None => set_alias m id alias = Ret (Err InvalidId, m)
  | Some (_, t) =>
      match alias_map m !! resolve_alias alias id with
      | Some _ => set_alias m id alias = Ret (Err AliasExists, m)
      | None => exists m', set_alias m id alias = Ret (Ok (), m') /\ manager_wf m'
          /\ (forall i, entry m' i = if decide (i = id) then Some (resolve_alias alias id, t)
                                     else entry m i)
          /\ tokens m' = tokens m /\ free_ids m' = free_ids m /\ queue m' = queue m
      end
  end.
Proof.
  intros Hm. destruct (entry m id) as [[a t]|] eqn:E.
  2: { unfold set_alias. destruct (tokens m !! id) as [[t|]|] eqn:Et; try done.
       destruct (live_entry m id t Hm Et) as [a Ha]. congruence. }
  apply entry_Some in E as [Ht Ha]. pose proof Ht as Ht0. unfold live in Ht0.
  destruct (alias_map m !! resolve_alias alias id) as [j|] eqn:Ea.
  { unfold set_alias. rewrite Ht0, decide_True by (rewrite Ea; by eexists). done. }
  pose proof (live_lt _ _ _ Ht) as Lt.
  assert (La : (id < length (id_to_alias m))%nat) by (by rewrite (mw_len m Hm)).
  unfold set_alias. rewrite Ht0. set (al := resolve_alias alias id) in *.
  rewrite decide_False by (rewrite Ea; by intros [? [=]]). unfold get_unchecked. rewrite Ha.
  cbn [unchecked mbind outcome_bind]. rewrite set_unchecked_lt by (by rewrite length_insert).
  cbn [mbind outcome_bind]. rewrite list_insert_insert_eq. eexists. split; [reflexivity|].
  cbn [tokens free_ids queue]. split_and!; try done.
  2: { apply entry_insert; cbn; [apply Hm|done|symmetry; by apply list_insert_id|done]. }
  destruct Hm as [Hlen Hslot Hids Hal Hfn Hf Hq Hu].
  split; cbn [tokens id_map alias_map id_to_alias free_ids queue]; try done.
  - by rewrite length_insert.
  - intros i. rewrite <- Hslot. split.
    + intros [b H]. apply lookup_insert_slot in H as [[-> _]|[_ H]]; eauto.
    + intros [b H]. destruct (decide (i = id)) as [->|]; [exists al|exists b];
        apply lookup_insert_slot; auto.
  - intros b i. rewrite lookup_insert_Some, lookup_delete_Some, Hal, lookup_insert_slot by done. split.
    + intros [[-> ->]|(Hne & Hne' & H)]; [auto|]. right. split; [|done]. intros ->. congruence.
    + intros [[-> [= ->]]|[Hne H]]; [auto|]. right. split_and!; [| |done].
      * intros ->. apply Hal in H. congruence.
      * intros ->. apply Hal in H, Ha. congruence.
  - intros b i. rewrite lookup_insert_Some, lookup_delete_Some.
    intros [[<- <-]|(_ & _ & H)]; [|by apply Hu]. apply resolve_alias_pattern.
Qed.

(** ** Reading *)

Lemma get_by_alias_spec m alias :
  manager_wf m ->
  (exists id t, entry m id = Some (alias, t) /\ get_by_alias m alias = Ret (Some t))
  \/ ((forall id t, entry m id <> Some (alias, t)) /\ get_by_alias m alias = Ret None).
Proof.
  intros Hm. unfold get_by_alias. destruct (alias_map m !! alias) as [id|] eqn:E; [left|right].
  - apply (mw_alias m Hm) in E. destruct (proj1 (mw_slot m Hm id) (ex_intro _ _ E)) as [t Ht].
    exists id, t. split; [by apply entry_Some|]. unfold get_unchecked. by rewrite Ht.
  - split; [|done]. intros id t H. apply entry_Some in H as [_ H]. apply (mw_alias m Hm) in H. congruence.
Qed.

Lemma list_from_spec als off slots :
  (forall i t, live slots i t -> exists a, als !! (off + i)%nat = Some (Some a)) ->
  exists l, list_from als off slots = Ret l
    /\ (forall id a t, (id, a, t) ∈ l <->
          exists i, id = (off + i)%nat /\ live slots i t /\ als !! id = Some (Some a))
    /\ Forall (fun p => (off <= p.1.1)%nat) l /\ StronglySorted (fun p q => (p.1.1 < q.1.1)%nat) l.
Proof.
  revert off; induction slots as [|slot slots IH]; intros off H; cbn [list_from].
  { exists []. split_and!; [done| |constructor|constructor]. intros id a t. split.
    - intros Hin. by apply elem_of_nil in Hin.
    - intros (i & _ & Hi & _). discriminate Hi. }
  destruct (IH (S off)) as (l & E & Hl & Hf & Hs).
  { intros i t Hi. destruct (H (S i) t Hi) as [a Ha]. exists a. by rewrite <- Nat.add_succ_comm in Ha. }
  assert (Sh : forall id a t, (exists i, id = (S off + i)%nat /\ live slots i t /\ als !! id = Some (Some a))
    <-> exists i, id = (off + S i)%nat /\ live (slot :: slots) (S i) t /\ als !! id = Some (Some a)).
  { intros id a t. split; intros (i & -> & Hi & Ha); exists i; (split; [lia|]); split; try done. }
  assert (Hf' : Forall (fun p : nat * string * TokenInfo => (off < p.1.1)%nat) l)
    by (eapply Forall_impl; [exact Hf|]; cbn; lia).
  assert (Hf'' : Forall (fun p : nat * string * TokenInfo => (off <= p.1.1)%nat) l)
    by (eapply Forall_impl; [exact Hf|]; cbn; lia).
  destruct slot as [t|].
  - destruct (H 0%nat t eq_refl) as [a Ha]. rewrite Nat.add_0_r in Ha. unfold get_unchecked.
    rewrite Ha. cbn [unchecked mbind outcome_bind]. rewrite E. cbn [mbind outcome_bind].
    eexists. split_and!; [reflexivity| |by constructor|by constructor].
    intros id b u. rewrite elem_of_cons, Hl, Sh. split.
    + intros [[= -> -> ->]|(i & Hi)]; [|eauto]. exists 0%nat. split_and!; [lia|done|done].
    + intros ([|i] & Eid & Hi & Hb); [left|right; eauto]. rewrite Nat.add_0_r in Eid. subst.
      unfold live in Hi. cbn in Hi. congruence.
  - exists l. split_and!; [done| |done|done]. intros id b u. rewrite Hl, Sh. split.
    + intros (i & Hi). eauto.
    + intros ([|i] & Eid & Hi & Hb); [discriminate Hi|eauto].
Qed.

(** [list] gives every entry once, in the order of identifiers. *)
Lemma list_tokens_spec m :
  manager_wf m ->
  exists l, list_tokens m = Ret l
    /\ (forall id a t, (id, a, t) ∈ l <-> entry m id = Some (a, t))
    /\ StronglySorted (fun p q => (p.1.1 < q.1.1)%nat) l.
Proof.
  intros Hm. destruct (list_from_spec (id_to_alias m) 0 (tokens m)) as (l & E & Hl & _ & Hs).
  { intros i t Ht. apply (mw_slot m Hm). eauto. }
  exists l. split_and!; [done| |done]. intros id a t. rewrite Hl, entry_Some. split.
  - intros (i & -> & Hi & Ha). done.
  - intros [Ht Ha]. by exists id.
Qed.

(** ** Updating tokens in place *)

(** Replacing tokens by tokens with the same keys. *)
Lemma map_wf m ts (g : nat -> TokenInfo -> TokenInfo) :
  manager_wf m -> (forall i, ts !! i = fmap (M := option) (fmap (M := option) (g i)) (tokens m !! i)) ->
  (forall i t, live (tokens m) i t -> info_key (g i t) = info_key t) ->
  manager_wf (with_tokens m ts).
Proof.
  intros Hm Hts Ek. destruct Hm as [Hlen Hslot Hids Hal Hfn Hf Hq Hu].
  assert (L : forall i u, live ts i u <-> exists t, live (tokens m) i t /\ u = g i t).
  { intros i u. unfold live. rewrite Hts. destruct (tokens m !! i) as [[t|]|]; cbn; naive_solver. }
  assert (L1 : forall i, (exists u, live ts i u) <-> exists t, live (tokens m) i t).
  { intros i. setoid_rewrite L. naive_solver. }
  assert (K : forall i k, (exists u, live ts i u /\ info_key u = k)
    <-> exists t, live (tokens m) i t /\ info_key t = k).
  { intros i k. setoid_rewrite L. split.
    - intros (u & (t & Ht & ->) & <-). exists t. by rewrite Ek.
    - intros (t & Ht & <-). exists (g i t). rewrite Ek by done. eauto. }
  split; cbn; try done.
  - rewrite Hlen. apply list_eq_length_of_lookup. intros i. by rewrite Hts, fmap_is_Some.
  - intros i. by rewrite Hslot, L1.
  - intros k i. by rewrite Hids, K.
  - intros i. rewrite Hf, Hts. destruct (tokens m !! i) as [[t|]|]; cbn; naive_solver.
  - destruct Hq as [Qn Ql Qm]. split; [done|..].
    + intros i. by rewrite Ql, L1.
    + intros k j. rewrite Qm. split; intros (i & u & Hj & Hi & Eu);
        [destruct (proj2 (K i k)) as (w & Hw & Ew)|destruct (proj1 (K i k)) as (w & Hw & Ew)]; eauto.
Qed.

Lemma update_wf m id t t' :
  manager_wf m -> live (tokens m) id t -> info_key t' = info_key t ->
  manager_wf (with_tokens m (<[id := Some t']> (tokens m))).
Proof.
  intros Hm Ht Ek. pose proof (live_lt _ _ _ Ht) as Lt.
  apply (map_wf m _ (fun i u => if decide (i = id) then t' else u)); [done| |].
  - intros i. unfold live in Ht. case_decide as D.
    + subst. by rewrite list_lookup_insert_eq, Ht by done.
    + rewrite list_lookup_insert_ne by done. by destruct (tokens m !! i) as [[u|]|].
  - intros i u Hi. case_decide; [|done]. subst. by rewrite (live_fun _ _ _ _ Hi Ht).
Qed.

Lemma entry_update m id t' a t :
  entry m id = Some (a, t) ->
  forall i, entry (with_tokens m (<[id := Some t']> (tokens m))) i
            = if decide (i = id) then Some (a, t') else entry m i.
Proof.
  intros E i. apply entry_Some in E as [Ht Ha]. pose proof (live_lt _ _ _ Ht) as Lt.
  unfold entry. cbn. case_decide as D.
  - subst. by rewrite list_lookup_insert_eq, Ha.
  - by rewrite list_lookup_insert_ne.
Qed.

(** An update that keeps the key of the token. *)
Lemma update_token_spec m id a t f :
  manager_wf m -> entry m id = Some (a, t) -> info_key (f t) = info_key t ->
  exists m', update_token m id f = Ret m' /\ manager_wf m'
    /\ forall i, entry m' i = if decide (i = id) then Some (a, f t) else entry m i.
Proof.
  intros Hm E Ek. pose proof E as E0. apply entry_Some in E0 as [Ht _].
  unfold update_token, get_unchecked. rewrite Ht. cbn [unchecked mbind outcome_bind].
  eexists. split_and!; [reflexivity|by eapply update_wf|by eapply entry_update].
Qed.

(** A write through a [TokenWriter] keeps the indexes consistent as long as the
    new key is not the key of another token. *)
Lemma write_token_spec m id a t f :
  manager_wf m -> entry m id = Some (a, t) ->
  let t' := with_bundle (f (bundle t)) t in
  info_key t' = info_key t \/ fresh_key m t' ->
  exists m', write_token m id f = Ret m' /\ manager_wf m'
    /\ forall i, entry m' i = if decide (i = id) then Some (a, t') else entry m i.
Proof.
  intros Hm E t' Hk. pose proof E as E0. apply entry_Some in E0 as [Ht Ha].
  pose proof (live_lt _ _ _ Ht) as Lt. unfold write_token, get_unchecked. rewrite Ht.
  cbn [unchecked mbind outcome_bind]. fold t'. change (token_key (primary_token (f (bundle t)))) with (info_key t').
  unfold writer_drop. destruct (decide (info_key t' = info_key t)) as [Ek|Ek].
  { rewrite decide_False by auto. eexists. split_and!; [reflexivity|by eapply update_wf|by eapply entry_update]. }
  destruct Hk as [Hk|Hk]; [done|]. rewrite decide_True by done. cbn [id_map with_tokens queue].
  assert (Hfk := fun i u => fresh_key_live m t' i u Hm Hk).
  assert (Hid : id_map m !! info_key t = Some id) by (apply (mw_ids m Hm); eauto). rewrite Hid.
  destruct (set_key_wf (tokens m) (queue m) id t t' (mw_queue m Hm) Ht (fun i u Hi _ => Hfk i u Hi) Ek)
    as (q' & Eq & Ev & Hq'). rewrite Eq. eexists. split; [reflexivity|].
  split; [|by eapply (entry_update m id t')].
  destruct Hm as [Hlen Hslot Hids Hal Hfn Hf Hq Hu].
  split; cbn [tokens id_map alias_map id_to_alias free_ids queue with_tokens]; try done.
  - by rewrite length_insert.
  - intros i. rewrite Hslot. split.
    + intros [u Hi]. destruct (decide (i = id)) as [->|]; [exists t'|exists u]; apply live_insert; auto.
    + intros [u Hi]. apply live_insert in Hi as [[-> _]|[_ Hi]]; eauto.
  - intros k i. rewrite lookup_insert_Some, lookup_delete_Some, Hids. split.
    + intros [[<- <-]|(Hk1 & Hk2 & u & Hi & <-)].
      * exists t'. split; [apply live_insert; auto|done].
      * exists u. split; [|done]. apply live_insert; [done|]. right. split; [|done].
        intros ->. by rewrite (live_fun _ _ _ _ Hi Ht) in Hk2.
    + intros (u & Hi & <-). apply live_insert in Hi as [[-> [= <-]]|[Hne Hi]]; [auto| |done].
      right. split_and!; [by apply not_eq_sym, (Hfk i u)| |eauto].
      intros Ek'. assert (Hi' : id_map m !! info_key u = Some i) by (apply Hids; eauto).
      rewrite <- Ek' in Hi'. congruence.
  - intros i. rewrite Hf, lookup_insert_slot by done. unfold live in Ht. split.
    + intros H. right. split; [|done]. intros ->. congruence.
    + intros [[_ ?]|[_ H]]; [done|done].
Qed.

Lemma update_client_key_spec ks ss m :
  manager_wf m ->
  manager_wf (update_client_key ks ss m)
  /\ forall i a t, entry m i = Some (a, t) -> exists t', entry (update_client_key ks ss m) i = Some (a, t')
       /\ client_key (bundle t') = ks i /\ session_id (bundle t') = ss i
       /\ primary_token (bundle t') = primary_token (bundle t) /\ status t' = status t.
Proof.
  intros Hm. split.
  - unfold update_client_key. eapply map_wf; [done| |].
    + intros i. rewrite list_lookup_imap. reflexivity.
    + done.
  - intros i a t H. apply entry_Some in H as [Ht Ha]. eexists. split; [apply entry_Some; split|]; cbn.
    + unfold live. rewrite list_lookup_imap, Ht. reflexivity.
    + done.
    + done.
Qed.

(** ** Runs *)

(** The manager and the global heads. *)
Record World : Type := mkWorld { mgr : TokenManager; heads : list nat }.

Inductive op : Type :=
| OpAdd (t : TokenInfo) (alias : string)
| OpRemove (id : nat)
| OpSetAlias (id : nat) (alias : string)
| OpUpdate (id : nat) (f : TokenInfo -> TokenInfo)
| OpWrite (id : nat) (f : ExtToken -> ExtToken)
| OpGet (alias : string)
| OpSelect (now_secs : Z) (qt : QueueType)
| OpList
| OpUpdateClientKey (ks : nat -> Hash) (ss : nat -> Z).

Definition exec (o : op) (w : World) : outcome World :=
  match o with
  | OpAdd t alias => r ← add (mgr w) t alias; Ret (mkWorld (snd r) (heads w))
  | OpRemove id =>
      r ← remove (mgr w) (heads w) id; let '(_, m, h) := r in Ret (mkWorld m h)
  | OpSetAlias id alias => r ← set_alias (mgr w) id alias; Ret (mkWorld (snd r) (heads w))
  | OpUpdate id f => m ← update_token (mgr w) id f; Ret (mkWorld m (heads w))
  | OpWrite id f => m ← write_token (mgr w) id f; Ret (mkWorld m (heads w))
  | OpGet alias => _ ← get_by_alias (mgr w) alias; Ret w
  | OpSelect now qt => r ← select now (mgr w) (heads w) qt; Ret (mkWorld (mgr w) (snd r))
  | OpList => _ ← list_tokens (mgr w); Ret w
  | OpUpdateClientKey ks ss => Ret (mkWorld (update_client_key ks ss (mgr w)) (heads w))
  end.

(** What the callers owe: a token is added under a key no other token has, an
    update goes to a live token and keeps its key, and a write gives it its old
    key or a new one. *)
Definition admissible (o : op) (m : TokenManager) : Prop :=
  match o with
  | OpAdd t _ => fresh_key m t
  | OpUpdate id f => exists a t, entry m id = Some (a, t) /\ info_key (f t) = info_key t
  | OpWrite id f => exists a t, entry m id = Some (a, t) /\
      let t' := with_bundle (f (bundle t)) t in info_key t' = info_key t \/ fresh_key m t'
  | _ => True
  end.

Fixpoint exec_all (os : list op) (w : World) : outcome World :=
  match os with
  | [] => Ret w
  | o :: os' => w' ← exec o w; exec_all os' w'
  end.
Fixpoint admissible_all (os : list op) (w : World) : Prop :=
  match os with
  | [] => True
  | o :: os' => admissible o (mgr w) /\ forall w', exec o w = Ret w' -> admissible_all os' w'
  end.

(** The heads stay within the queue, its end included. *)
Record world_wf (w : World) : Prop := {
  ww_mgr : manager_wf (mgr w);
  ww_four : length (heads w) = 4%nat;
  ww_heads : Forall (fun h => (h <= length (vec (queue (mgr w))))%nat) (heads w);
}.

Lemma live_vec_pos m : manager_wf m -> forall i, i ∈ vec (queue m) <-> exists t, live (tokens m) i t.
Proof. intros Hm. apply (mw_queue m Hm). Qed.

Lemma vec_same m m' :
  manager_wf m -> manager_wf m' -> (forall i, is_Some (entry m' i) <-> is_Some (entry m i)) ->
  length (vec (queue m')) = length (vec (queue m)).
Proof.
  intros Hm Hm' E. apply Permutation_length. apply NoDup_Permutation; [apply Hm'|apply Hm|].
  intros i. rewrite !live_vec_pos by done. split; intros [t Ht].
  - destruct (live_entry m' i t Hm' Ht) as [a Ha]. destruct (proj1 (E i)) as [[b u] Hb]; [eauto|].
    apply entry_Some in Hb as [Hu _]. eauto.
  - destruct (live_entry m i t Hm Ht) as [a Ha]. destruct (proj2 (E i)) as [[b u] Hb]; [eauto|].
    apply entry_Some in Hb as [Hu _]. eauto.
Qed.

Lemma entry_override_some m m' id x :
  is_Some (entry m id) -> (forall i, entry m' i = if decide (i = id) then Some x else entry m i) ->
  forall i, is_Some (entry m' i) <-> is_Some (entry m i).
Proof.
  intros Hs E i. rewrite E. case_decide; [subst|done]. split; [done|]. by eexists.
Qed.

Lemma shift_head_le vi h n : (vi < n)%nat -> (h <= n)%nat -> (shift_head vi h <= n - 1)%nat.
Proof. intros H1 H2. unfold shift_head. destruct (Nat.ltb_spec vi h); lia. Qed.

Lemma world_update w m' :
  world_wf w -> manager_wf m' -> (forall i, is_Some (entry m' i) <-> is_Some (entry (mgr w) i)) ->
  world_wf (mkWorld m' (heads w)).
Proof.
  intros [Hm Hf Hh] Hm' E. split; cbn; [done|done|]. by rewrite (vec_same (mgr w) m').
Qed.

Lemma exec_safe o w :
  world_wf w -> admissible o (mgr w) -> exists w', exec o w = Ret w' /\ world_wf w'.
Proof.
  intros Hw Ha. pose proof Hw as [Hm Hf Hh]. destruct o as [t al|id|id al|id f|id f|al|now qt| |ks ss];
    cbn [exec admissible] in *.
  - pose proof (add_spec _ t al Hm Ha) as H. cbv zeta in H.
    destruct (alias_map (mgr w) !! _); [rewrite H|destruct H as (m' & -> & H)];
      (eexists; split; [reflexivity|]); cbn [snd]; [by destruct w|].
    split; cbn; [apply H|done|]. rewrite (ad_vec _ _ _ _ _ H), length_app.
    eapply Forall_impl; [exact Hh|]. cbn. lia.
  - pose proof (remove_spec _ (heads w) id Hm) as H. destruct (entry (mgr w) id) as [[a t]|].
    + destruct H as (m' & h' & -> & H). eexists. split; [reflexivity|].
      destruct (rm_vec _ _ _ _ _ H) as (v1 & v2 & E1 & E2 & ->). split; cbn; [apply H|by rewrite length_fmap|].
      apply Forall_fmap. eapply Forall_impl; [exact Hh|]. intros h Hle. unfold compose.
      rewrite E1 in Hle. rewrite E2. rewrite length_app in Hle |- *. cbn in Hle.
      pose proof (shift_head_le (length v1) h (length v1 + S (length v2))). lia.
    + rewrite H. eexists. split; [reflexivity|]. by destruct w.
  - pose proof (set_alias_spec _ id al Hm) as H. destruct (entry (mgr w) id) as [[a t]|] eqn:E;
      [destruct (alias_map (mgr w) !! _)|]; [|destruct H as (m' & -> & Hm' & He & _)|];
      try rewrite H; (eexists; split; [reflexivity|]); cbn [snd]; try (by destruct w).
    apply world_update; [done|done|]. eapply entry_override_some; [by eexists|exact He].
  - destruct Ha as (a & t & E & Ek). destruct (update_token_spec _ id a t f Hm E Ek) as (m' & -> & Hm' & He).
    eexists. split; [reflexivity|]. apply world_update; [done|done|].
    eapply entry_override_some; [by eexists|exact He].
  - destruct Ha as (a & t & E & Ek). destruct (write_token_spec _ id a t f Hm E Ek) as (m' & -> & Hm' & He).
    eexists. split; [reflexivity|]. apply world_update; [done|done|].
    eapply entry_override_some; [by eexists|exact He].
  - destruct (get_by_alias_spec _ al Hm) as [(i & t & _ & ->)|[_ ->]]; by exists w.
  - destruct (queue_select_spec now _ _ (heads w) qt (mw_queue _ Hm) Hf) as (r & E & S).
    unfold select. rewrite E. eexists. split; [reflexivity|]. unfold select_spec in S.
    destruct (list_find _ _) as [[k i]|] eqn:F; [destruct S as (t & Ht & ->)|subst r; by destruct w].
    split; cbn; [done|by rewrite length_insert|]. apply Forall_insert; [done|].
    assert (i ∈ vec (queue (mgr w))) as Hi by (apply live_vec_pos; eauto).
    apply Nat.lt_le_incl, Nat.mod_upper_bound. destruct (vec (queue (mgr w))); [by apply elem_of_nil in Hi|done].
  - destruct (list_tokens_spec _ Hm) as (l & -> & _). by exists w.
  - destruct (update_client_key_spec ks ss _ Hm) as [Hm' He]. eexists. split; [reflexivity|].
    split; cbn; done.
Qed.

Lemma exec_all_safe os w :
  world_wf w -> admissible_all os w -> exists w', exec_all os w = Ret w' /\ world_wf w'.
Proof.
  revert w; induction os as [|o os IH]; intros w Hw Ha; cbn; [by exists w|].
  destruct Ha as [Ho Hos]. destruct (exec_safe o w Hw Ho) as (w1 & E & Hw1). rewrite E. cbn. auto.
Qed.

Lemma world_new_wf : world_wf (mkWorld manager_new QUEUE_HEADS).
Proof. split; [apply manager_new_wf|done|]. cbn. repeat constructor. Qed.

(** ** Saving and loading *)

Section reload.
Context (providers : list string) (tz_parse : string -> option string).
Context (raw_to_string : RawToken -> string).

(** The tokens of a record, and what loading needs of them. *)
Definition tokens_of (t : TokenInfo) : list Token := bundle_tokens (bundle t).
Definition reloadable (t : TokenInfo) : Prop := bundle_reloadable providers tz_parse raw_to_string (bundle t).

Lemma info_extract_reload us t alias pool :
  coherent us -> pool_of us pool -> (forall u, u ∈ tokens_of t -> u ∈ us) -> reloadable t ->
  exists pool', info_extract providers tz_parse raw_to_string (info_helper_new t alias) pool
    = Ret (t, alias, pool') /\ pool_of us pool'.
Proof.
  intros Hc Hp Hus Hr. destruct t as [b st us' usr str' ses].
  destruct (ext_extract_reload providers tz_parse raw_to_string us b pool Hc Hp Hus Hr) as (pool' & E & Hp').
  exists pool'. unfold info_extract, info_helper_new. cbn [th_bundle bundle]. by rewrite E.
Qed.

Definition reload_entry (k : nat) (p : nat * string * TokenInfo) : string * TokenInfo :=
  let '(_, alias, t) := p in (resolve_alias alias k, t).

(** The state after some of the saved entries have been added again. *)
Definition reloaded (l : list (nat * string * TokenInfo)) (m : TokenManager) : Prop :=
  manager_wf m /\ free_ids m = [] /\ length (tokens m) = length l
  /\ forall k, entry m k = reload_entry k <$> l !! k.

(** Saved entries: distinct identifiers, aliases and keys. *)
Definition distinct_entries (l : list (nat * string * TokenInfo)) : Prop :=
  forall j k p q, l !! j = Some p -> l !! k = Some q ->
    p.1.2 = q.1.2 \/ info_key p.2 = info_key q.2 -> j = k.

Lemma reload_add l p m :
  reloaded l m -> distinct_entries (l ++ [p]) ->
  exists m', add m p.2 p.1.2 = Ret (Ok (length l), m') /\ reloaded (l ++ [p]) m'.
Proof.
  intros (Hm & Hf & Hl & He) Hd. destruct p as [[id a] t]. cbn [fst snd].
  assert (Hn : next_id m = length l) by (unfold next_id; by rewrite Hf).
  assert (Hlast : (l ++ [(id, a, t)]) !! length l = Some (id, a, t))
    by (rewrite lookup_app_r, Nat.sub_diag by lia; done).
  assert (Hfresh : fresh_key m t).
  { unfold fresh_key. destruct (id_map m !! info_key t) as [i|] eqn:E; [|done]. exfalso.
    apply (mw_ids m Hm) in E as (u & Hu & Ek). destruct (live_entry m i u Hm Hu) as [b Hb].
    rewrite He in Hb. destruct (l !! i) as [[[id' a'] u']|] eqn:Ei; cbn in Hb; [|done].
    injection Hb as _ ->. assert (i = length l) as ->.
    { eapply (Hd i (length l)); [by apply lookup_app_l_Some|exact Hlast|right; exact Ek]. }
    apply lookup_lt_Some in Ei. lia. }
  assert (Hal : alias_map m !! resolve_alias a (length l) = None).
  { destruct (decide (a = UNNAMED \/ starts_with a UNNAMED_PATTERN = true)) as [Hun|Hnamed].
    { rewrite <- Hn. by apply add_unnamed. }
    assert (Er : forall k, resolve_alias a k = a).
    { intros k. unfold resolve_alias. destruct (String.eqb_spec a UNNAMED); [tauto|].
      destruct (starts_with a UNNAMED_PATTERN); [tauto|done]. }
    rewrite Er. destruct (alias_map m !! a) as [i|] eqn:E; [|done]. exfalso.
    apply (mw_alias m Hm) in E. destruct (proj1 (mw_slot m Hm i) (ex_intro _ _ E)) as [u Hu].
    assert (Hb : entry m i = Some (a, u)) by (by apply entry_Some). rewrite He in Hb.
    destruct (l !! i) as [[[id' a'] u']|] eqn:Ei; cbn in Hb; [|done]. injection Hb as Ea _.
    assert (a' = a) as ->.
    { unfold resolve_alias in Ea. destruct (_ || _); [|done]. exfalso. apply Hnamed. right.
      rewrite <- Ea. apply generate_unnamed_alias_pattern. }
    assert (i = length l) as ->.
    { eapply (Hd i (length l)); [by apply lookup_app_l_Some|exact Hlast|by left]. }
    apply lookup_lt_Some in Ei. lia. }
  pose proof (add_spec m t a Hm Hfresh) as H. cbv zeta in H. rewrite Hn, Hal in H.
  destruct H as (m' & E & [Wf Ent Fr Vc Ln]). exists m'. split; [done|]. split; [done|].
  split; [by rewrite Fr, Hf|]. split; [rewrite Ln, length_app; cbn; lia|].
  intros k. rewrite Ent. case_decide as D.
  - subst. by rewrite Hlast.
  - rewrite He. destruct (decide (k < length l)%nat) as [Lt|Ge].
    + by rewrite lookup_app_l.
    + rewrite (lookup_ge_None_2 l) by lia. rewrite lookup_ge_None_2; [done|]. rewrite length_app. cbn. lia.
Qed.

Lemma load_loop_reload us l2 l1 m pool :
  coherent us -> pool_of us pool -> reloaded l1 m -> distinct_entries (l1 ++ l2) ->
  Forall (fun p => reloadable p.2 /\ forall u, u ∈ tokens_of p.2 -> u ∈ us) l2 ->
  exists m', load_loop providers tz_parse raw_to_string (List.map save_entry l2) m pool = Ret (Ok m')
    /\ reloaded (l1 ++ l2) m'.
Proof.
  intros Hc. revert l1 m pool. induction l2 as [|[[id a] t] l2 IH]; intros l1 m pool Hp Hr Hd Hf;
    cbn [List.map load_loop save_entry].
  { exists m. split; [done|]. by rewrite app_nil_r. }
  apply Forall_cons in Hf as [[Hrel Hus] Hf]. cbn [snd] in *.
  destruct (info_extract_reload us t a pool Hc Hp Hus Hrel) as (pool1 & E & Hp1). rewrite E.
  cbn [mbind outcome_bind].
  change (l1 ++ (id, a, t) :: l2) with (l1 ++ [(id, a, t)] ++ l2) in *. rewrite app_assoc in Hd |- *.
  destruct (reload_add l1 (id, a, t) m Hr) as (m1 & Ea & Hr1).
  { intros j k p q Hj Hk. apply Hd; by apply lookup_app_l_Some. }
  cbn [fst snd] in Ea. rewrite Ea. cbn [mbind outcome_bind]. by apply IH.
Qed.
End reload.

Lemma list_distinct m l :
  manager_wf m -> (forall id a t, (id, a, t) ∈ l <-> entry m id = Some (a, t)) ->
  StronglySorted (fun p q => (p.1.1 < q.1.1)%nat) l -> distinct_entries l.
Proof.
  intros Hm Hl Hs j k [[i a] t] [[i' a'] t'] Hj Hk E. cbn in E.
  pose proof (list_elem_of_lookup_2 _ _ _ Hj) as H1. pose proof (list_elem_of_lookup_2 _ _ _ Hk) as H2.
  apply Hl, entry_Some in H1 as [L1 A1], H2 as [L2 A2].
  assert (i = i') as <-.
  { destruct E as [->|E].
    - apply (mw_alias m Hm) in A1, A2. congruence.
    - by eapply (manager_keys_distinct m Hm). }
  assert (Lt : forall x y p q, l !! x = Some p -> l !! y = Some q -> (x < y)%nat -> (p.1.1 < q.1.1)%nat).
  { clear -Hs. induction Hs as [|p l Hs IH Hall]; intros x y q r Hx Hy Hxy; [done|].
    destruct x as [|x], y as [|y]; cbn in *; try lia.
    - injection Hx as ->. rewrite Forall_lookup in Hall. by apply (Hall y).
    - apply (IH x y); [done|done|lia]. }
  destruct (Nat.lt_total j k) as [H|[H|H]]; [|done|].
  - pose proof (Lt _ _ _ _ Hj Hk H) as C. cbn in C. lia.
  - pose proof (Lt _ _ _ _ Hk Hj H) as C. cbn in C. lia.
Qed.

(** ** Properties *)

(** A run used by the witnesses: three tokens, a rename, a removal, a reuse. *)
Definition sample_run : list op :=
  [OpAdd (sample 1) "unnamed"; OpAdd (sample 2) "b"; OpAdd (sample 3) "unnamed-0";
   OpSetAlias 1 "bee"; OpRemove 0; OpSelect 0 NormalPaid; OpAdd (sample 4) "unnamed"; OpList].

(** A decision procedure for runs without updates. *)
Definition admissible_b (o : op) (m : TokenManager) : bool :=
  match o with
  | OpAdd t _ => bool_decide (id_map m !! info_key t = None)
  | OpUpdate _ _ | OpWrite _ _ => false
  | _ => true
  end.
Fixpoint admissible_all_b (os : list op) (w : World) : bool :=
  match os with
  | [] => true
  | o :: os' =>
      admissible_b o (mgr w) && match exec o w with Ret w' => admissible_all_b os' w' | _ => true end
  end.

Lemma admissible_all_b_true os w : admissible_all_b os w = true -> admissible_all os w.
Proof.
  revert w; induction os as [|o os IH]; intros w; cbn; [done|].
  intros [H1 H2]%andb_prop. split.
  - destruct o; cbn in *; try done. by apply bool_decide_eq_true in H1.
  - intros w' E. rewrite E in H2. by apply IH.
Qed.

Lemma sample_run_admissible : admissible_all sample_run (mkWorld manager_new QUEUE_HEADS).
Proof. apply admissible_all_b_true. vm_compute. reflexivity. Qed.

Definition sample_world : World :=
  match exec_all sample_run (mkWorld manager_new QUEUE_HEADS) with
  | Ret w => w
  | _ => mkWorld manager_new QUEUE_HEADS
  end.

Lemma sample_world_wf : world_wf sample_world.
Proof.
  destruct (exec_all_safe sample_run _ world_new_wf sample_run_admissible) as (w & E & Hw).
  unfold sample_world. by rewrite E.
Qed.

(** C1: the manager is memory safe: whatever sequence of operations is applied to
    a new manager, with tokens added or rekeyed only under keys no other token
    has, no unchecked access fails, nothing panics, and the invariant that ties
    the slots, the indexes, the free identifiers and the queue together holds at
    the end. *)
Theorem manager_safe os :
  admissible_all os (mkWorld manager_new QUEUE_HEADS) ->
  exists w, exec_all os (mkWorld manager_new QUEUE_HEADS) = Ret w /\ world_wf w.
Proof. apply exec_all_safe, world_new_wf. Qed.

Lemma manager_safe_witness :
  exists w, exec_all sample_run (mkWorld manager_new QUEUE_HEADS) = Ret w /\ world_wf w.
Proof. apply (manager_safe sample_run). apply sample_run_admissible. Defined.

(** The proviso on keys is needed: adding two tokens with one key succeeds,
    and removing one of them then leaves the queue with a dead identifier, which
    the next selection dereferences; rekeying a token to a key in use is
    undefined at once. *)
Theorem duplicate_key_undefined :
  (exists w, exec_all [OpAdd (sample 1) "a"; OpAdd (sample 1) "b"; OpRemove 0]
               (mkWorld manager_new QUEUE_HEADS) = Ret w
     /\ select 0 (mgr w) (heads w) NormalPaid = Undef)
  /\ exec_all [OpAdd (sample 1) "a"; OpAdd (sample 2) "b";
               OpWrite 1 (fun _ => bundle (sample 1))] (mkWorld manager_new QUEUE_HEADS) = Undef.
Proof.
  split; [|by vm_compute]. eexists. split; [vm_compute; reflexivity|by vm_compute].
Qed.

(** C2: adding a token under a fresh key refines insertion into the table of
    entries: it is refused, with nothing changed, exactly when its alias is
    taken, which never happens to an unnamed token; otherwise it gets the oldest
    free identifier or a new one, and no other entry changes. *)
Theorem add_refines m t alias :
  manager_wf m -> fresh_key m t ->
  let id := next_id m in
  entry m id = None
  /\ match alias_map m !! resolve_alias alias id with
     | Some _ => add m t alias = Ret (Err AliasExists, m)
     | None => exists m', add m t alias = Ret (Ok id, m') /\ added m m' t alias id
     end
  /\ (alias = UNNAMED \/ starts_with alias UNNAMED_PATTERN = true ->
      exists m', add m t alias = Ret (Ok id, m')
        /\ entry m' id = Some (UNNAMED_PATTERN +:+ to_dec (Z.of_nat id), t)).
Proof.
  intros Hm Hk id. split_and!; [|by apply add_spec|].
  - unfold id, next_id, entry. destruct (free_ids m) as [|i rest] eqn:E; cbn.
    + by rewrite lookup_ge_None_2.
    + assert (D : tokens m !! i = Some None) by (apply (mw_free m Hm); rewrite E; left). by rewrite D.
  - intros Hu. pose proof (add_spec m t alias Hm Hk) as H. cbv zeta in H.
    rewrite (add_unnamed m alias Hm Hu) in H. destruct H as (m' & E & A). exists m'. split; [done|].
    rewrite (ad_entry _ _ _ _ _ A). rewrite decide_True by done. do 2 f_equal.
    rewrite <- generate_unnamed_alias_spec. unfold resolve_alias.
    destruct Hu as [->|Hu]; [done|]. by rewrite Hu, orb_true_r.
Qed.

Lemma add_refines_witness :
  exists m', add (mgr sample_world) (sample 5) "unnamed" = Ret (Ok 3%nat, m')
    /\ entry m' 3 = Some ("unnamed-3"%string, sample 5).
Proof.
  destruct (add_refines (mgr sample_world) (sample 5) "unnamed" (ww_mgr _ sample_world_wf))
    as (_ & _ & H); [by vm_compute|].
  destruct (H (or_introl eq_refl)) as (m' & E & A). exists m'. split; [exact E|exact A].
Defined.

(** C4: removing refines deletion from the table of entries: the token is handed
    back, only its entry disappears, its identifier is queued behind the other
    free ones, and an identifier without an entry changes nothing. *)
Theorem remove_refines m heads id :
  manager_wf m ->
  match entry m id with
  | None => remove m heads id = Ret (None, m, heads)
  | Some (_, t) => exists m' heads', remove m heads id = Ret (Some t, m', heads')
                     /\ removed m m' heads heads' id
  end.
Proof. apply remove_spec. Qed.

Lemma remove_refines_witness :
  exists m' heads', remove (mgr sample_world) (heads sample_world) 1 = Ret (Some (sample 2), m', heads')
    /\ manager_wf m'.
Proof.
  pose proof (remove_refines (mgr sample_world) (heads sample_world) 1 (ww_mgr _ sample_world_wf)) as H.
  replace (entry (mgr sample_world) 1) with (Some ("bee"%string, sample 2)) in H
    by (vm_compute; reflexivity).
  destruct H as (m' & h & E & [W _ _ _ _]). exists m', h. split; [exact E|exact W].
Defined.

(** Renaming answers [InvalidId] without an entry and [AliasExists] when the
    resolved alias is taken, even by the token itself; otherwise only the alias
    of that entry changes. Looking an alias up gives its token, and listing gives
    every entry once in the order of identifiers. *)
Theorem alias_operations m id alias :
  manager_wf m ->
  match entry m id with
  | None => set_alias m id alias = Ret (Err InvalidId, m)
  | Some (_, t) =>
      match alias_map m !! resolve_alias alias id with
      | Some _ => set_alias m id alias = Ret (Err AliasExists, m)
      | None => exists m', set_alias m id alias = Ret (Ok (), m') /\ manager_wf m'
          /\ (forall i, entry m' i = if decide (i = id) then Some (resolve_alias alias id, t)
                                     else entry m i)
          /\ get_by_alias m' (resolve_alias alias id) = Ret (Some t)
      end
  end
  /\ exists l, list_tokens m = Ret l
       /\ (forall i a t, (i, a, t) ∈ l <-> entry m i = Some (a, t))
       /\ StronglySorted (fun p q => (p.1.1 < q.1.1)%nat) l.
Proof.
  intros Hm. split; [|by apply list_tokens_spec].
  pose proof (set_alias_spec m id alias Hm) as H. destruct (entry m id) as [[a t]|] eqn:E; [|done].
  destruct (alias_map m !! _) as [|] eqn:Ea; [done|]. destruct H as (m' & E' & Hm' & He & _).
  exists m'. split_and!; [done|done|done|].
  assert (Hid : entry m' id = Some (resolve_alias alias id, t)) by (by rewrite He, decide_True).
  destruct (get_by_alias_spec m' (resolve_alias alias id) Hm') as [(i & u & Hi & ->)|[Hno _]].
  - do 2 f_equal. apply entry_Some in Hi as [Hu Hi], Hid as [Ht Hid].
    apply (mw_alias m' Hm') in Hi, Hid. assert (i = id) as -> by congruence. by eapply live_fun.
  - by apply Hno in Hid.
Qed.

Lemma alias_operations_witness :
  set_alias (mgr sample_world) 1 "bee" = Ret (Err AliasExists, mgr sample_world)
  /\ exists l, list_tokens (mgr sample_world) = Ret l
       /\ (forall i a t, (i, a, t) ∈ l <-> entry (mgr sample_world) i = Some (a, t)).
Proof.
  destruct (alias_operations (mgr sample_world) 1 "bee" (ww_mgr _ sample_world_wf)) as [H (l & E & Hl & _)].
  replace (entry (mgr sample_world) 1) with (Some ("bee"%string, sample 2)) in H
    by (vm_compute; reflexivity).
  cbv beta iota in H. replace (alias_map (mgr sample_world) !! resolve_alias "bee" 1) with (Some 1%nat) in H
    by (vm_compute; reflexivity).
  split; [exact H|]. exists l. split; [exact E|exact Hl].
Defined.

(** C6: a manager survives saving and loading: when its providers and time zones
    can be read again, its texts are those of the raw tokens and equal keys and
    signatures mean equal tokens, loading what [save] wrote gives a manager with
    the same tokens in the same order under identifiers without gaps, with the
    same aliases except that unnamed tokens are renamed after their new
    identifiers. *)
Theorem save_load_roundtrip providers tz_parse raw_to_string m us :
  manager_wf m -> coherent us ->
  (forall id a t, entry m id = Some (a, t) ->
     reloadable providers tz_parse raw_to_string t /\ forall u, u ∈ tokens_of t -> u ∈ us) ->
  exists l helpers m', list_tokens m = Ret l /\ save m = Ret helpers
    /\ load providers tz_parse raw_to_string helpers ∅ = Ret (Ok m')
    /\ manager_wf m' /\ length (tokens m') = length l
    /\ forall k, entry m' k = (fun p => (resolve_alias p.1.2 k, p.2)) <$> l !! k.
Proof.
  intros Hm Hc Hrel. destruct (list_tokens_spec m Hm) as (l & E & Hl & Hs).
  assert (Hf : Forall (fun p => reloadable providers tz_parse raw_to_string p.2
                         /\ forall u, u ∈ tokens_of p.2 -> u ∈ us) l).
  { apply Forall_forall. intros [[id a] t] H. apply Hl in H. by apply Hrel in H. }
  destruct (load_loop_reload providers tz_parse raw_to_string us l [] manager_new ∅ Hc)
    as (m' & El & Hm' & _ & Hlen & He).
  - intros k u H. by rewrite lookup_empty in H.
  - split_and!; [apply manager_new_wf|done|done|]. intros k. unfold entry, manager_new. cbn.
    by rewrite !lookup_nil.
  - cbn. by eapply list_distinct.
  - done.
  - exists l, (List.map save_entry l), m'. split_and!; try done.
    + unfold save. by rewrite E.
    + intros k. rewrite He. cbn. by destruct (l !! k) as [[[id a] t]|].
Qed.

Lemma sample_reloadable k :
  reloadable DEFAULT_PROVIDERS Some (fun _ => "token"%string) (sample k).
Proof.
  split.
  - change (tokens_of (sample k)) with [sample_token k]. constructor; [|constructor].
    split; [left|split; [apply uid_wf_u128|reflexivity]].
  - intros tz H. discriminate H.
Qed.

Lemma save_load_roundtrip_witness :
  exists helpers m', save (mgr sample_world) = Ret helpers
    /\ load DEFAULT_PROVIDERS Some (fun _ => "token"%string) helpers ∅ = Ret (Ok m')
    /\ manager_wf m'.
Proof.
  destruct (save_load_roundtrip DEFAULT_PROVIDERS Some (fun _ => "token"%string) (mgr sample_world)
              [sample_token 4; sample_token 2; sample_token 3] (ww_mgr _ sample_world_wf))
    as (l & hs & m' & _ & E1 & E2 & W & _).
  - intros u v Hu Hv _ E. rewrite !elem_of_cons, !elem_of_nil in Hu, Hv.
    destruct Hu as [-> | [-> | [-> | []]]], Hv as [-> | [-> | [-> | []]]];
      solve [vm_compute in E; discriminate E] || reflexivity.
  - intros id a t H.
    assert (Ht : exists k, k ∈ [4; 2; 3] /\ t = sample k).
    { destruct id as [|[|[|id]]]; vm_compute in H; try discriminate H; injection H as _ <-;
        [exists 4|exists 2|exists 3]; (split; [set_solver|vm_compute; reflexivity]). }
    destruct Ht as (k & Hk & ->). split; [apply sample_reloadable|].
    intros u Hu. change (tokens_of (sample k)) with [sample_token k] in Hu.
    apply list_elem_of_singleton in Hu as ->.
    change [sample_token 4; sample_token 2; sample_token 3] with (sample_token <$> [4; 2; 3]).
    by apply list_elem_of_fmap_2.
  - exists hs, m'. split; [exact E1|split; [exact E2|exact W]].
Defined.
