(* ===== verification/TokenRoutes.v ===== *)
(** * The token administration handlers

    [src/src/core/route/tokens.rs], with [get_token_profile] and [get_new_token]
    of [src/src/common/utils.rs].

    A handler runs under the write lock of the manager, so it is a function from
    the manager (and the global heads) to the new one and the response.  What the
    outside world does is an argument: [io] is the result of writing the token
    file, the answers of the remote services are given per position in the
    request's loop, and so are the random values drawn.  A JSON object or set in a
    request is the list of its members in the order in which the code iterates
    over it. *)
From S2P Require Import Prelude Numerals Hex TokenKey Profile RawToken StringBuilder TokenInfo.
From S2P Require Import TokenQueue TokenManager.

(** ** Responses *)

Inductive StatusCode : Type := INTERNAL_SERVER_ERROR | BAD_REQUEST.
Inductive ApiStatus : Type := Success | Error.
Record GenericError : Type := mkGenericError
  { ge_status : ApiStatus; ge_error : string; ge_message : string }.
Record CommonResponse : Type := mkCommonResponse { cr_status : ApiStatus; cr_message : string }.
Record TokensAddResponse : Type := mkTokensAddResponse { tokens_count : nat; add_message : string }.
Record TokensDeleteResponse : Type := mkTokensDeleteResponse
  { td_status : ApiStatus; failed_tokens : option (list string) }.

Definition Failure : Type := (StatusCode * GenericError)%type.

Definition SET_SUCCESS : string := "已设置".
Definition SET_FAILURE_COUNT : string := "个令牌设置失败".
Definition UPDATE_SUCCESS : string := "已更新".
Definition UPDATE_FAILURE_COUNT : string := "个令牌更新失败".
Definition no_tokens_provided : Failure :=
  (BAD_REQUEST, mkGenericError Error "No tokens provided" "未提供任何令牌").
Definition save_failed (error message : string) : Failure :=
  (INTERNAL_SERVER_ERROR, mkGenericError Error error message).

(** A file operation: [None] on success, the error's text otherwise. *)
Definition Io : Type := option string.

(** [token_manager.save().await]. *)
Definition do_save (io : Io) (m : TokenManager) : outcome Io := _ ← save m; Ret io.

(** The counters are [u32]. *)
Definition inc (n : Z) : Z := wrap 32 (n + 1).

(** The five-part message: text, count, text, count, text. *)
Definition counts_message (before : string) (updated : Z) (middle : string) (failed : Z)
  (after : string) : outcome string :=
  concat [CBorrowed before; COwned (to_dec updated); CBorrowed middle; COwned (to_dec failed);
          CBorrowed after].

(** Save if something changed, then answer. *)
Definition finish (io : Io) (m : TokenManager) (updated : Z) (failure : string -> Failure)
  (message : outcome string) : outcome (result Failure CommonResponse * TokenManager) :=
  let answer := msg ← message; Ret (Ok (mkCommonResponse Success msg), m) in
  if 0 <? updated then
    r ← do_save io m;
    match r with
    | Some e => Ret (Err (failure e), m)
    | None => answer
    end
  else answer.

(** ** Listing, replacing and adding *)

Definition handle_get_tokens (m : TokenManager) : outcome (list (nat * string * TokenInfo)) :=
  list_tokens m.

(** The loops that add and ignore refusals. *)
Fixpoint add_all (ts : list (string * TokenInfo)) (m : TokenManager) : outcome TokenManager :=
  match ts with
  | [] => Ret m
  | (alias, token_info) :: ts' => r ← add m token_info alias; add_all ts' (snd r)
  end.

Definition handle_set_tokens (io : Io) (request : list (string * TokenInfo))
  : outcome (result StatusCode TokensAddResponse * TokenManager) :=
  m ← add_all request manager_new;
  let count := length (tokens m) in
  r ← do_save io m;
  match r with
  | Some _ => Ret (Err INTERNAL_SERVER_ERROR, m)
  | None => Ret (Ok (mkTokensAddResponse count "Token files have been updated and reloaded"), m)
  end.

Record AddTokenInfo : Type := mkAddTokenInfo
  { at_alias : option string; at_token : string; at_checksum : option string;
    at_client_key : option string; at_config_version : option string;
    at_session_id : option string; at_proxy : option string; at_timezone : option string;
    at_gcpp_host : option string }.

(** The rest of a UTF-8 text after one [char::is_whitespace] character. *)
Definition skip_white (bs : bytes) : option bytes :=
  match bs with
  | 194 :: b :: r => if (b =? 133) || (b =? 160) then Some r else None
  | 225 :: 154 :: 128 :: r => Some r
  | 226 :: 128 :: b :: r =>
      if ((128 <=? b) && (b <=? 138)) || (b =? 168) || (b =? 169) || (b =? 175) then Some r else None
  | 226 :: 129 :: 159 :: r => Some r
  | 227 :: 128 :: 128 :: r => Some r
  | b :: r => if ((9 <=? b) && (b <=? 13)) || (b =? 32) then Some r else None
  | [] => None
  end.
(** [s.split_whitespace().next().is_some()]: some character is not white. *)
Fixpoint has_word_from (fuel : nat) (bs : bytes) : bool :=
  match fuel with
  | O => false
  | S f => match bs with
           | [] => false
           | _ => match skip_white bs with Some r => has_word_from f r | None => true end
           end
  end.
Definition has_word (s : string) : bool := has_word_from (S (String.length s)) (as_bytes s).

Section add_tokens.
Context (raw_from_string : string -> result TokenError RawToken).
Context (uuid_parse : string -> option Z) (tz_parse : string -> option string).
Context (raw_to_string : RawToken -> string).
(** The random hashes (two for a checksum, one key) and session identifiers. *)
Context (draw_hash : nat -> nat -> Hash) (draw_uuid : nat -> Z).

Definition make_token (i : nat) (enabled_flag : bool) (x : AddTokenInfo) (t : Token) : TokenInfo :=
  mkTokenInfo
    (mkExtToken t None
       (match at_checksum x with
        | Some s => repair (draw_hash i 0) (draw_hash i 1) (as_bytes s)
        | None => checksum_random (draw_hash i 0) (draw_hash i 1)
        end)
       (default (draw_hash i 2) (s ← at_client_key x; to_option (hash_from_str (as_bytes s))))
       (s ← at_config_version x; uuid_parse s)
       (default (draw_uuid i) (s ← at_session_id x; uuid_parse s))
       (at_proxy x)
       (s ← at_timezone x; tz_parse s)
       (s ← at_gcpp_host x; gcpp_from_str s))
    (mkTokenStatus enabled_flag health_new) None None None [].

(** The loop over the request; [existing] are the texts of the stored tokens. *)
Fixpoint collect_new (i : nat) (enabled_flag : bool) (existing : list string)
  (xs : list AddTokenInfo) (pool : TokenPool) : list (string * TokenInfo) :=
  match xs with
  | [] => []
  | x :: xs' =>
      if bool_decide (at_token x ∈ existing) then collect_new (S i) enabled_flag existing xs' pool
      else
        match raw_from_string (at_token x) with
        | Err _ => collect_new (S i) enabled_flag existing xs' pool
        | Ok r =>
            let '(t, pool) := token_new raw_to_string r (Some (at_token x)) pool in
            let alias := match at_alias x with
                         | Some s => if has_word s then s else UNNAMED
                         | None => UNNAMED
                         end in
            (alias, make_token i enabled_flag x t) :: collect_new (S i) enabled_flag existing xs' pool
        end
  end.

Definition existing_tokens (m : TokenManager) : list string :=
  slot ← tokens m; match slot with Some t => [str (primary_token (bundle t))] | None => [] end.

Definition handle_add_tokens (io : Io) (m : TokenManager) (pool : TokenPool)
  (request : list AddTokenInfo) (enabled_flag : bool)
  : outcome (result Failure TokensAddResponse * TokenManager) :=
  let new_tokens := collect_new 0 enabled_flag (existing_tokens m) request pool in
  match new_tokens with
  | [] => Ret (Ok (mkTokensAddResponse (length (tokens m)) "No new tokens were added"), m)
  | _ =>
      m ← add_all new_tokens m;
      let count := length (tokens m) in
      r ← do_save io m;
      match r with
      | Some _ => Ret (Err (save_failed "Failed to save token data" "无法保存令牌数据"), m)
      | None => Ret (Ok (mkTokensAddResponse count "New tokens have been added and reloaded"), m)
      end
  end.
End add_tokens.

(** ** Deleting *)

Fixpoint delete_loop (aliases : list string) (m : TokenManager) (heads : list nat)
  (has_updates : bool) (failed : option (list string))
  : outcome (TokenManager * list nat * bool * option (list string)) :=
  match aliases with
  | [] => Ret (m, heads, has_updates, failed)
  | alias :: rest =>
      match alias_map m !! alias with
      | Some id =>
          r ← remove m heads id;
          let '(_, m, heads) := r in
          delete_loop rest m heads true failed
      | None =>
          delete_loop rest m heads has_updates ((fun l => l ++ [alias]) <$> failed)
      end
  end.

Definition handle_delete_tokens (io : Io) (m : TokenManager) (heads : list nat)
  (aliases : list string) (include_failed_tokens : bool)
  : outcome (result Failure TokensDeleteResponse * TokenManager * list nat) :=
  r ← delete_loop aliases m heads false (if include_failed_tokens then Some [] else None);
  let '(m, heads, has_updates, failed) := r in
  let answer := (Ok (mkTokensDeleteResponse Success failed), m, heads) in
  if (has_updates : bool) then
    s ← do_save io m;
    match s with
    | Some _ =>
        Ret (Err (INTERNAL_SERVER_ERROR,
                  mkGenericError Success "Failed to save token data" "无法保存令牌数据"), m, heads)
    | None => Ret answer
    end
  else Ret answer.

(** ** Updating fields of the named tokens *)

(** The loop of the status, proxy and time zone handlers: [f] is the assignment. *)
Fixpoint update_loop (f : TokenInfo -> TokenInfo) (aliases : list string) (m : TokenManager)
  (updated failed : Z) : outcome (TokenManager * Z * Z) :=
  match aliases with
  | [] => Ret (m, updated, failed)
  | alias :: rest =>
      match alias_map m !! alias with
      | Some id => m ← update_token m id f; update_loop f rest m (inc updated) failed
      | None => update_loop f rest m updated (inc failed)
      end
  end.

Definition with_proxy (p : option string) (t : TokenInfo) : TokenInfo :=
  let b := bundle t in
  with_bundle (mkExtToken (primary_token b) (secondary_token b) (checksum b) (client_key b)
                 (config_version b) (session_id b) p (timezone b) (gcpp_host b)) t.
Definition with_timezone (tz : option string) (t : TokenInfo) : TokenInfo :=
  let b := bundle t in
  with_bundle (mkExtToken (primary_token b) (secondary_token b) (checksum b) (client_key b)
                 (config_version b) (session_id b) (proxy b) tz (gcpp_host b)) t.
Definition with_config_version (v : option Z) (t : TokenInfo) : TokenInfo :=
  let b := bundle t in
  with_bundle (mkExtToken (primary_token b) (secondary_token b) (checksum b) (client_key b)
                 v (session_id b) (proxy b) (timezone b) (gcpp_host b)) t.

Definition Answer : Type := outcome (result Failure CommonResponse * TokenManager).

Definition handle_set_tokens_status (io : Io) (m : TokenManager) (aliases : list string)
  (st : TokenStatus) : Answer :=
  match aliases with
  | [] => Ret (Err no_tokens_provided, m)
  | _ =>
      r ← update_loop (with_status st) aliases m 0 0;
      let '(m, updated, failed) := r in
      finish io m updated
        (fun _ => save_failed "Failed to save token statuses" "无法保存令牌状态数据")
        (counts_message SET_SUCCESS updated "个令牌状态, " failed SET_FAILURE_COUNT)
  end.

Definition handle_set_tokens_proxy (io : Io) (m : TokenManager) (aliases : list string)
  (p : option string) : Answer :=
  match aliases with
  | [] => Ret (Err no_tokens_provided, m)
  | _ =>
      r ← update_loop (with_proxy p) aliases m 0 0;
      let '(m, updated, failed) := r in
      finish io m updated
        (fun _ => save_failed "Failed to save token proxies" "无法保存令牌代理数据")
        (counts_message SET_SUCCESS updated "个令牌代理, " failed SET_FAILURE_COUNT)
  end.

Definition handle_set_tokens_timezone (io : Io) (m : TokenManager) (aliases : list string)
  (tz : option string) : Answer :=
  match aliases with
  | [] => Ret (Err no_tokens_provided, m)
  | _ =>
      r ← update_loop (with_timezone tz) aliases m 0 0;
      let '(m, updated, failed) := r in
      finish io m updated
        (fun _ => save_failed "Failed to save token timezones" "无法保存令牌时区数据")
        (counts_message SET_SUCCESS updated "个令牌时区, " failed SET_FAILURE_COUNT)
  end.

(** ** Renaming *)

Fixpoint alias_loop (request : list (string * string)) (m : TokenManager) (updated failed : Z)
  : outcome (TokenManager * Z * Z) :=
  match request with
  | [] => Ret (m, updated, failed)
  | (old_alias, new_alias) :: rest =>
      match alias_map m !! old_alias with
      | Some token_id =>
          r ← set_alias m token_id new_alias;
          match r with
          | (Ok _, m) => alias_loop rest m (inc updated) failed
          | (Err AliasExists, m) => alias_loop rest m updated (inc failed)
          | (Err InvalidId, m) => alias_loop rest m updated (inc failed)
          end
      | None => alias_loop rest m updated (inc failed)
      end
  end.

Definition handle_set_tokens_alias (io : Io) (m : TokenManager) (request : list (string * string))
  : Answer :=
  match request with
  | [] => Ret (Err no_tokens_provided, m)
  | _ =>
      r ← alias_loop request m 0 0;
      let '(m, updated, failed) := r in
      finish io m updated (fun e => save_failed "Failed to save token aliases" e)
        (counts_message SET_SUCCESS updated "个令牌别名, " failed SET_FAILURE_COUNT)
  end.

(** ** Merging *)

Definition merge_bundle (x : MergeInfo) (b : ExtToken) : ExtToken :=
  mkExtToken (default (primary_token b) (m_primary_token x))
    (match m_secondary_token x with Some t => Some t | None => secondary_token b end)
    (default (checksum b) (m_checksum x)) (default (client_key b) (m_client_key x))
    (match m_config_version x with Some v => Some v | None => config_version b end)
    (default (session_id b) (m_session_id x))
    (match m_proxy x with Some v => Some v | None => proxy b end)
    (match m_timezone x with Some v => Some v | None => timezone b end)
    (match m_gcpp_host x with Some v => Some v | None => gcpp_host b end).

Fixpoint merge_loop (request : list (string * MergeInfo)) (m : TokenManager) (updated failed : Z)
  : outcome (TokenManager * Z * Z) :=
  match request with
  | [] => Ret (m, updated, failed)
  | (alias, x) :: rest =>
      match (if has_some x then alias_map m !! alias else None) with
      | Some id => m ← write_token m id (merge_bundle x); merge_loop rest m (inc updated) failed
      | None => merge_loop rest m updated (inc failed)
      end
  end.

Definition handle_merge_tokens (io : Io) (m : TokenManager) (request : list (string * MergeInfo))
  : Answer :=
  match request with
  | [] => Ret (Err no_tokens_provided, m)
  | _ =>
      r ← merge_loop request m 0 0;
      let '(m, updated, failed) := r in
      finish io m updated (fun _ => save_failed "Failed to save tokens" "无法保存令牌数据")
        (counts_message "已合并" updated "个令牌, " failed "个令牌合并失败")
  end.

(** ** Refreshing *)

(** [get_new_token], given what the remote services answer to a refresh and to an
    upgrade: whether it succeeded, and the bundle it leaves. *)
Definition get_new_token (refresh_token upgrade_token : ExtToken -> option Token) (e : ExtToken)
  : bool * ExtToken :=
  let set (p : Token) (s : option Token) :=
    mkExtToken p s (checksum e) (client_key e) (config_version e) (session_id e) (proxy e)
      (timezone e) (gcpp_host e) in
  let session := is_session (raw (primary_token e)) in
  match (if session then refresh_token e else upgrade_token e) with
  | Some new_token =>
      if negb session && is_none (secondary_token e) then
        (true, set new_token (Some (primary_token e)))
      else (true, set new_token (secondary_token e))
  | None =>
      if session && negb (is_none (secondary_token e)) then
        match upgrade_token e with
        | Some new_token => (true, set new_token (secondary_token e))
        | None => (false, e)
        end
      else (false, e)
  end.

Section remote.
(** The answers, by position in the request's loop. *)
Context (refresh_token upgrade_token : nat -> ExtToken -> option Token).
Context (get_server_config : nat -> ExtToken -> option Z).

(** The writer of token [id] is given to [get_new_token]. *)
Definition refresh_at (i : nat) (m : TokenManager) (id : nat) : outcome (bool * TokenManager) :=
  slot ← get_unchecked (tokens m) id;
  t ← unchecked slot;
  let '(ok, b) := get_new_token (refresh_token i) (upgrade_token i) (bundle t) in
  m ← write_token m id (fun _ => b);
  Ret (ok, m).

Fixpoint refresh_loop (i : nat) (aliases : list string) (m : TokenManager) (updated failed : Z)
  : outcome (TokenManager * Z * Z) :=
  match aliases with
  | [] => Ret (m, updated, failed)
  | alias :: rest =>
      match alias_map m !! alias with
      | Some id =>
          r ← refresh_at i m id;
          let '(ok, m) := r in
          if (ok : bool) then refresh_loop (S i) rest m (inc updated) failed
          else refresh_loop (S i) rest m updated (inc failed)
      | None => refresh_loop (S i) rest m updated (inc failed)
      end
  end.

Definition handle_refresh_tokens (io : Io) (m : TokenManager) (aliases : list string) : Answer :=
  match aliases with
  | [] => Ret (Err no_tokens_provided, m)
  | _ =>
      r ← refresh_loop 0 aliases m 0 0;
      let '(m, updated, failed) := r in
      finish io m updated (fun _ => save_failed "Failed to save tokens" "无法保存令牌数据")
        (counts_message "已刷新" updated "个令牌, " failed "个令牌刷新失败")
  end.

Fixpoint config_version_loop (i : nat) (aliases : list string) (m : TokenManager)
  (updated failed short : Z) : outcome (TokenManager * Z * Z * Z) :=
  match aliases with
  | [] => Ret (m, updated, failed, short)
  | alias :: rest =>
      match alias_map m !! alias with
      | Some id =>
          slot ← get_unchecked (tokens m) id;
          info ← unchecked slot;
          if is_web (raw (primary_token (bundle info))) then
            config_version_loop (S i) rest m updated (inc failed) (inc short)
          else
            match get_server_config i (clone_without_config_version (bundle info)) with
            | Some v =>
                m ← update_token m id (with_config_version (Some v));
                config_version_loop (S i) rest m (inc updated) failed short
            | None => config_version_loop (S i) rest m updated (inc failed) short
            end
      | None => config_version_loop (S i) rest m updated (inc failed) short
      end
  end.

Definition handle_update_tokens_config_version (io : Io) (m : TokenManager) (aliases : list string)
  : Answer :=
  match aliases with
  | [] => Ret (Err no_tokens_provided, m)
  | _ =>
      r ← config_version_loop 0 aliases m 0 0 0;
      let '(m, updated, failed, short) := r in
      let head := [CBorrowed UPDATE_SUCCESS; CBorrowed (to_dec updated);
                   CBorrowed "个令牌配置版本；"; CBorrowed (to_dec failed)] in
      finish io m updated
        (fun _ => save_failed "Failed to save token profiles" "无法保存令牌配置版本数据")
        (if 0 <? short then
           concat (head ++ [CBorrowed "个令牌更新失败，其中有"; CBorrowed (to_dec short);
                            CBorrowed "个令牌是非会话令牌"])
         else concat (head ++ [CBorrowed UPDATE_FAILURE_COUNT]))
  end.

(** ** Profiles *)

(** What the services answer about an account. *)
Record NetProfile : Type := mkNetProfile
  { np_usage : option UsageProfile; np_stripe : option StripeProfile; np_user : option UserProfile;
    np_is_on_new_pricing : option bool; np_privacy_mode : option PrivacyModeInfo;
    np_sessions : option (list Session) }.

Definition get_token_profile (include_sessions : bool) (n : NetProfile)
  : option UsageProfile * option StripeProfile * option UserProfile * option (list Session) :=
  let user := (fun u =>
    mkUserProfile (profile_user_id u) (email u) (first_name u) (last_name u) (workos_id u)
      (team_id u) (created_at u) (is_enterprise_user u)
      (default true (np_is_on_new_pricing n))
      (default (mkPrivacyModeInfo PUnspecified false) (np_privacy_mode n))) <$> np_user n in
  (np_usage n, np_stripe n, user, if include_sessions then np_sessions n else None).

Context (profile_answer : nat -> ExtToken -> NetProfile).

Definition with_profile (p : option UsageProfile * option StripeProfile * option UserProfile
  * option (list Session)) (t : TokenInfo) : TokenInfo :=
  let '(usage, stripe, user, sess) := p in
  mkTokenInfo (bundle t) (status t) usage user stripe (default (sessions t) sess).

(** [capacity] is that of the vector of renames, written without a check. *)
Fixpoint profile_loop (capacity i : nat) (aliases : list string) (m : TokenManager)
  (updaters : list (nat * string)) (updated failed : Z)
  : outcome (TokenManager * list (nat * string) * Z * Z) :=
  match aliases with
  | [] => Ret (m, updaters, updated, failed)
  | alias :: rest =>
      match alias_map m !! alias with
      | Some id =>
          slot ← get_unchecked (id_to_alias m) id;
          name ← unchecked slot;
          slot ← get_unchecked (tokens m) id;
          token_info ← unchecked slot;
          let p := get_token_profile true (profile_answer i (bundle token_info)) in
          updaters ←
            match (if is_unnamed name then u ← p.1.2; user_alias u else None) with
            | Some new_alias =>
                if (length updaters <? capacity)%nat then Ret (updaters ++ [(id, new_alias)]) else Undef
            | None => Ret updaters
            end;
          m ← update_token m id (with_profile p);
          profile_loop capacity (S i) rest m updaters (inc updated) failed
      | None => profile_loop capacity (S i) rest m updaters updated (inc failed)
      end
  end.

Fixpoint apply_updaters (updaters : list (nat * string)) (m : TokenManager) : outcome TokenManager :=
  match updaters with
  | [] => Ret m
  | (id, alias) :: rest => r ← set_alias m id alias; apply_updaters rest (snd r)
  end.

Definition handle_update_tokens_profile (io : Io) (m : TokenManager) (aliases : list string) : Answer :=
  match aliases with
  | [] => Ret (Err no_tokens_provided, m)
  | _ =>
      r ← profile_loop (length aliases) 0 aliases m [] 0 0;
      let '(m, updaters, updated, failed) := r in
      m ← apply_updaters updaters m;
      finish io m updated
        (fun _ => save_failed "Failed to save token profiles" "无法保存令牌配置数据")
        (counts_message UPDATE_SUCCESS updated "个令牌配置, " failed UPDATE_FAILURE_COUNT)
  end.
End remote.

(** ** Counting and messages *)

Definition message (before : string) (updated : Z) (middle : string) (failed : Z) (after : string)
  : string := before +:+ to_dec updated +:+ middle +:+ to_dec failed +:+ after.

Lemma counts_message_spec before u middle f after :
  str_len before + str_len middle + str_len after <= 1000 -> in_uint 32 u -> in_uint 32 f ->
  counts_message before u middle f after = Ret (message before u middle f after).
Proof.
  intros Hl Hu Hf. unfold counts_message, in_uint in *.
  pose proof (length_to_dec u 10 ltac:(lia) ltac:(cbn; lia)) as Lu.
  pose proof (length_to_dec f 10 ltac:(lia) ltac:(cbn; lia)) as Lf.
  rewrite concat_parts.
  - f_equal. unfold concat_spec, message. cbn [fmap list_fmap foldr cow_str].
    by rewrite string_app_nil.
  - unfold sum_len, str_len in *. cbn [foldr cow_str]. lia.
Qed.

Lemma inc_wrap u n : in_uint 32 u -> 0 <= n -> wrap 32 (inc u + n) = wrap 32 (u + (n + 1)).
Proof. intros Hu Hn. unfold inc, wrap. rewrite Zplus_mod_idemp_l. f_equal. lia. Qed.

Lemma inc_u32 n : in_uint 32 (inc n).
Proof. apply wrap_range. lia. Qed.

(** Equal results up to arithmetic inside the counters. *)
Ltac same_counts :=
  match goal with
  | |- Ret (?m, wrap 32 ?a, wrap 32 ?b) = Ret (?m, wrap 32 ?c, wrap 32 ?d) =>
      replace c with a by lia; replace d with b by lia; reflexivity
  end.

(** The named aliases that exist, and the others. *)
Definition known (m : TokenManager) (aliases : list string) : Z :=
  Z.of_nat (length (filter (fun a => is_Some (alias_map m !! a)) aliases)).
Definition unknown (m : TokenManager) (aliases : list string) : Z :=
  Z.of_nat (length (filter (fun a => alias_map m !! a = None) aliases)).

Lemma known_cons m a l :
  known m (a :: l) = (if alias_map m !! a then 1 else 0) + known m l
  /\ unknown m (a :: l) = (if alias_map m !! a then 0 else 1) + unknown m l.
Proof.
  unfold known, unknown. rewrite !filter_cons. destruct (alias_map m !! a) as [i|].
  - rewrite decide_True, decide_False by (done || by eexists). cbn [length]. lia.
  - rewrite decide_False, decide_True by (done || by intros [? [=]]). cbn [length]. lia.
Qed.

Lemma known_nonneg m l : 0 <= known m l /\ 0 <= unknown m l.
Proof. unfold known, unknown. lia. Qed.

Lemma alias_map_entry m a i :
  manager_wf m -> alias_map m !! a = Some i <-> exists t, entry m i = Some (a, t).
Proof.
  intros Hm. rewrite (mw_alias m Hm). split.
  - intros H. destruct (proj1 (mw_slot m Hm i) (ex_intro _ a H)) as [t Ht]. exists t. by apply entry_Some.
  - intros [t H]. by apply entry_Some in H as [_ H].
Qed.

(** ** The field handlers *)

(** [f] is applied to exactly the tokens whose alias is listed. *)
Definition fields_updated (f : TokenInfo -> TokenInfo) (aliases : list string) (m m' : TokenManager) : Prop :=
  manager_wf m' /\ forall i, entry m' i =
    (fun p : string * TokenInfo => if decide (p.1 ∈ aliases) then (p.1, f p.2) else p) <$> entry m i.

(** Assigning [x] makes it the field's value and changes no other field: the old
    value put back gives the old record. *)
Definition lens_laws {A} (get : TokenInfo -> A) (set : A -> TokenInfo -> TokenInfo) : Prop :=
  forall x t, get (set x t) = x /\ set (get t) (set x t) = t.
Lemma setters_lens :
  lens_laws status with_status /\ lens_laws (fun t => proxy (bundle t)) with_proxy
  /\ lens_laws (fun t => timezone (bundle t)) with_timezone.
Proof. split_and!; intros x [[]]; done. Qed.

Lemma update_token_alias_map m id f m' :
  update_token m id f = Ret m' -> alias_map m' = alias_map m.
Proof.
  unfold update_token. intros H. bind_inv H. by injection H as <-.
Qed.

Lemma update_loop_spec f aliases m u v :
  manager_wf m -> (forall t, info_key (f t) = info_key t) -> (forall t, f (f t) = f t) ->
  in_uint 32 u -> in_uint 32 v ->
  exists m', update_loop f aliases m u v
             = Ret (m', wrap 32 (u + known m aliases), wrap 32 (v + unknown m aliases))
    /\ fields_updated f aliases m m'.
Proof.
  intros Hm Hk Hf. revert m u v Hm. induction aliases as [|a l IH]; intros m u v Hm Hu Hv; cbn [update_loop].
  - exists m. unfold known, unknown. cbn. rewrite !Z.add_0_r, !wrap_small by done. split; [done|]. split; [done|].
    intros i. destruct (entry m i) as [[b t]|]; [|done]. cbn. rewrite decide_False; [done|]. apply not_elem_of_nil.
  - destruct (known_cons m a l) as [-> ->]. pose proof (known_nonneg m l) as [N1 N2].
    destruct (alias_map m !! a) as [id|] eqn:E.
    + pose proof E as E0. apply (alias_map_entry m a id Hm) in E0 as [t Ht].
      destruct (update_token_spec m id a t f Hm Ht (Hk t)) as (m1 & E1 & Hm1 & He1). rewrite E1.
      cbn [mbind outcome_bind]. pose proof (update_token_alias_map _ _ _ _ E1) as Ea.
      destruct (IH m1 (inc u) v Hm1 (inc_u32 u) Hv) as (m2 & E2 & Hm2 & He2). exists m2. split.
      * rewrite E2. unfold known, unknown. rewrite Ea. fold (known m l). fold (unknown m l).
        rewrite inc_wrap by done. by rewrite Z.add_0_l, (Z.add_comm 1).
      * split; [done|]. intros i. rewrite He2, He1. case_decide as D.
        -- subst. rewrite Ht. cbn. rewrite (decide_True (P := a ∈ a :: l)) by left.
           case_decide; [by rewrite Hf|done].
        -- destruct (entry m i) as [[b w]|] eqn:Ei; [|done]. cbn.
           destruct (decide (b ∈ l)) as [Hb|Hb].
           ++ rewrite decide_True; [done|by right].
           ++ rewrite decide_False; [done|]. intros [->|Hb']%elem_of_cons; [|done].
              apply D. assert (Ei' : alias_map m !! a = Some i) by (apply alias_map_entry; eauto). congruence.
    + destruct (IH m u (inc v) Hm Hu (inc_u32 v)) as (m2 & E2 & Hm2 & He2). exists m2. split.
      * rewrite E2. rewrite inc_wrap by done. by rewrite Z.add_0_l, (Z.add_comm 1).
      * split; [done|]. intros i. rewrite He2. destruct (entry m i) as [[b w]|] eqn:Ei; [|done]. cbn.
        destruct (decide (b ∈ l)) as [Hb|Hb].
        -- rewrite decide_True; [done|by right].
        -- rewrite decide_False; [done|]. intros [->|Hb']%elem_of_cons; [|done].
           assert (Ei' : alias_map m !! a = Some i) by (apply alias_map_entry; eauto). congruence.
Qed.

Lemma do_save_wf io m : manager_wf m -> do_save io m = Ret io.
Proof.
  intros Hm. unfold do_save, save. destruct (list_tokens_spec m Hm) as (l & -> & _). done.
Qed.

(** What [finish] answers on a well-formed manager. *)
Lemma finish_spec io m u failure msg :
  manager_wf m ->
  finish io m u failure (Ret msg)
  = Ret (match io with
         | Some e => if 0 <? u then Err (failure e) else Ok (mkCommonResponse Success msg)
         | None => Ok (mkCommonResponse Success msg)
         end, m).
Proof.
  intros Hm. unfold finish. rewrite (do_save_wf io m Hm). cbn [mbind outcome_bind].
  destruct (0 <? u), io; done.
Qed.

(** The answer of a handler that counted [u] successes and [v] failures. *)
Definition counted (io : Io) (u : Z) (failure : string -> Failure) (msg : string)
  : result Failure CommonResponse :=
  match io with
  | Some e => if 0 <? u then Err (failure e) else Ok (mkCommonResponse Success msg)
  | None => Ok (mkCommonResponse Success msg)
  end.

Lemma field_handler io f aliases m failure before middle after :
  manager_wf m -> (forall t, info_key (f t) = info_key t) -> (forall t, f (f t) = f t) ->
  str_len before + str_len middle + str_len after <= 1000 ->
  let u := wrap 32 (known m aliases) in
  let v := wrap 32 (unknown m aliases) in
  exists m', (r ← update_loop f aliases m 0 0;
              let '(m, updated, failed) := r in
              finish io m updated failure (counts_message before updated middle failed after))
             = Ret (counted io u failure (message before u middle v after), m')
    /\ fields_updated f aliases m m'.
Proof.
  intros Hm Hk Hf Hl u v.
  destruct (update_loop_spec f aliases m 0 0 Hm Hk Hf) as (m' & E & Hu); [unfold in_uint; lia..|].
  exists m'. split; [|done]. rewrite E. cbn [mbind outcome_bind]. rewrite !Z.add_0_l.
  rewrite counts_message_spec by (done || apply wrap_range; lia). apply finish_spec, Hu.
Qed.

(** ** Deleting *)

(** The aliases that are not (or no longer) there when their turn comes. *)
Fixpoint missing (present : gset string) (aliases : list string) : list string :=
  match aliases with
  | [] => []
  | a :: l => if decide (a ∈ present) then missing (present ∖ {[a]}) l else a :: missing present l
  end.

Lemma removed_dom m m' heads heads' id a t :
  manager_wf m -> entry m id = Some (a, t) -> removed m m' heads heads' id ->
  dom (alias_map m') = dom (alias_map m) ∖ {[a]}.
Proof.
  intros Hm E [Hm' He _ _ _]. apply set_eq. intros b.
  rewrite elem_of_difference, not_elem_of_singleton, !elem_of_dom. split.
  - intros [i Hi]. apply (alias_map_entry m' b i Hm') in Hi as [u Hu]. rewrite He in Hu.
    case_decide as D; [done|]. assert (Hb : alias_map m !! b = Some i) by (apply alias_map_entry; eauto).
    split; [by exists i|]. intros ->. apply D.
    assert (alias_map m !! a = Some id) by (apply alias_map_entry; eauto). congruence.
  - intros [[i Hi] Hne]. exists i. apply (alias_map_entry m b i Hm) in Hi as [u Hu].
    apply alias_map_entry; [done|]. exists u. rewrite He. rewrite decide_False; [done|].
    intros ->. congruence.
Qed.

Lemma delete_loop_spec aliases m heads upd failed :
  manager_wf m ->
  exists m' heads', delete_loop aliases m heads upd failed
      = Ret (m', heads', upd || existsb (fun a => bool_decide (a ∈ dom (alias_map m))) aliases,
             (fun l => l ++ missing (dom (alias_map m)) aliases) <$> failed)
    /\ manager_wf m'
    /\ forall i, entry m' i =
         match entry m i with Some (a, t) => if decide (a ∈ aliases) then None else Some (a, t) | None => None end.
Proof.
  revert m heads upd failed. induction aliases as [|a l IH]; intros m heads upd failed Hm; cbn [delete_loop missing existsb].
  - exists m, heads. rewrite orb_false_r. split_and!; [|done|].
    + destruct failed; cbn; by rewrite ?app_nil_r.
    + intros i. destruct (entry m i) as [[b t]|]; [|done]. by rewrite decide_False by apply not_elem_of_nil.
  - destruct (alias_map m !! a) as [id|] eqn:E.
    + assert (Hd : a ∈ dom (alias_map m)) by (apply elem_of_dom; eauto).
      pose proof E as E0. apply (alias_map_entry m a id Hm) in E0 as [t Ht].
      pose proof (remove_spec m heads id Hm) as R. rewrite Ht in R. destruct R as (m1 & h1 & E1 & R).
      rewrite E1. cbn [mbind outcome_bind]. pose proof (removed_dom _ _ _ _ _ _ _ Hm Ht R) as Dm.
      destruct (IH m1 h1 true failed (rm_wf _ _ _ _ _ R)) as (m2 & h2 & E2 & Hm2 & He2).
      exists m2, h2. rewrite E2, Dm, decide_True, bool_decide_true by done. rewrite !orb_true_l, orb_true_r.
      split_and!; [done|done|]. intros i. rewrite He2, (rm_entry _ _ _ _ _ R). case_decide as D.
      * subst. rewrite Ht. by rewrite decide_True by left.
      * destruct (entry m i) as [[b w]|] eqn:Ei; [|done].
        destruct (decide (b ∈ l)); [by rewrite decide_True by (by right)|].
        rewrite decide_False; [done|]. intros [->|?]%elem_of_cons; [|done]. apply D.
        assert (alias_map m !! a = Some i) by (apply alias_map_entry; eauto). congruence.
    + assert (Hd : a ∉ dom (alias_map m)) by (by apply not_elem_of_dom).
      destruct (IH m heads upd ((fun l => l ++ [a]) <$> failed) Hm) as (m2 & h2 & E2 & Hm2 & He2).
      exists m2, h2. rewrite E2, decide_False, bool_decide_false by done. split_and!; [|done|].
      * destruct failed; cbn; by rewrite <- ?app_assoc.
      * intros i. rewrite He2. destruct (entry m i) as [[b w]|] eqn:Ei; [|done].
        destruct (decide (b ∈ l)); [by rewrite decide_True by (by right)|].
        rewrite decide_False; [done|]. intros [->|?]%elem_of_cons; [|done].
        assert (alias_map m !! a = Some i) by (apply alias_map_entry; eauto). congruence.
Qed.

(** ** Merging *)

Lemma write_token_alias_map m id f m' :
  write_token m id f = Ret m' -> alias_map m' = alias_map m.
Proof.
  unfold write_token, writer_drop. intros H. bind_inv H; by injection H as <-.
Qed.

Definition merge_for (request : list (string * MergeInfo)) (a : string) : option MergeInfo :=
  p ← list_find (fun p : string * MergeInfo => p.1 = a) request;
  let x := p.2.2 in if has_some x then Some x else None.

Definition merged (request : list (string * MergeInfo)) (p : string * TokenInfo) : string * TokenInfo :=
  match merge_for request p.1 with
  | Some x => (p.1, with_bundle (merge_bundle x (bundle p.2)) p.2)
  | None => p
  end.

(** The fields of a bundle after a merge: each one is the given value, if any. *)
Record fields_merged (x : MergeInfo) (b b' : ExtToken) : Prop := mkFieldsMerged {
  fm_primary : primary_token b' = default (primary_token b) (m_primary_token x);
  fm_secondary : secondary_token b' = m_secondary_token x ∪ secondary_token b;
  fm_checksum : checksum b' = default (checksum b) (m_checksum x);
  fm_client_key : client_key b' = default (client_key b) (m_client_key x);
  fm_config_version : config_version b' = m_config_version x ∪ config_version b;
  fm_session_id : session_id b' = default (session_id b) (m_session_id x);
  fm_proxy : proxy b' = m_proxy x ∪ proxy b;
  fm_timezone : timezone b' = m_timezone x ∪ timezone b;
  fm_gcpp_host : gcpp_host b' = m_gcpp_host x ∪ gcpp_host b;
}.
Lemma merge_bundle_fields x b : fields_merged x b (merge_bundle x b).
Proof.
  split; cbn; [done| |done|done| |done| | | ].
  - by destruct (m_secondary_token x), (secondary_token b).
  - by destruct (m_config_version x), (config_version b).
  - by destruct (m_proxy x), (proxy b).
  - by destruct (m_timezone x), (timezone b).
  - by destruct (m_gcpp_host x), (gcpp_host b).
Qed.

(** What a merge makes of an entry. *)
Definition entry_merged (request : list (string * MergeInfo)) (old new : option (string * TokenInfo)) : Prop :=
  match old with
  | None => new = None
  | Some (a, t) =>
      match merge_for request a with
      | Some x => exists b', new = Some (a, with_bundle b' t) /\ fields_merged x (bundle t) b'
      | None => new = Some (a, t)
      end
  end.
Lemma merged_entry request old : entry_merged request old (merged request <$> old).
Proof.
  destruct old as [[a t]|]; [|done]. unfold entry_merged, merged. cbn.
  destruct (merge_for request a); [|done]. eauto using merge_bundle_fields.
Qed.

Definition mergeable (m : TokenManager) (p : string * MergeInfo) : bool :=
  has_some p.2 && bool_decide (is_Some (alias_map m !! p.1)).

Lemma merge_for_cons a x l b :
  merge_for ((a, x) :: l) b
  = if decide (a = b) then if has_some x then Some x else None else merge_for l b.
Proof.
  unfold merge_for. cbn [list_find fst]. case_decide; [done|].
  destruct (list_find _ l) as [[i q]|]; done.
Qed.

Lemma merge_for_absent l a : a ∉ l.*1 -> merge_for l a = None.
Proof.
  induction l as [|[b x] l IH]; intros H; [done|]. cbn in H. rewrite merge_for_cons, decide_False by set_solver.
  apply IH. set_solver.
Qed.

Lemma merge_loop_spec request m u v :
  manager_wf m -> NoDup request.*1 -> Forall (fun p => m_primary_token p.2 = None) request ->
  in_uint 32 u -> in_uint 32 v ->
  let n := Z.of_nat (length (filter (fun p => mergeable m p = true) request)) in
  exists m', merge_loop request m u v
      = Ret (m', wrap 32 (u + n), wrap 32 (v + (Z.of_nat (length request) - n)))
    /\ manager_wf m' /\ forall i, entry m' i = merged request <$> entry m i.
Proof.
  intros Hm Hn Hp. revert m u v Hm. induction request as [|[a x] l IH]; intros m u v Hm Hu Hv; cbn [merge_loop].
  { exists m. cbn. rewrite Z.sub_diag, !Z.add_0_r, !wrap_small by done. split_and!; [done|done|].
    intros i. by destruct (entry m i). }
  cbn [fmap list_fmap fst] in Hn. apply NoDup_cons in Hn as [Ha Hn]. apply Forall_cons in Hp as [Hx Hp].
  specialize (IH Hn Hp). cbn [snd] in Hx. rewrite filter_cons.
  assert (Le : forall m, (length (filter (fun p => mergeable m p = true) l) <= length l)%nat)
    by (intros; apply length_filter).
  destruct (if has_some x then alias_map m !! a else None) as [id|] eqn:E.
  - destruct (has_some x) eqn:Hs; [|done]. pose proof E as E0.
    apply (alias_map_entry m a id Hm) in E0 as [t Ht].
    destruct (write_token_spec m id a t (merge_bundle x) Hm Ht) as (m1 & E1 & Hm1 & He1).
    { left. unfold info_key. cbn. by rewrite Hx. }
    rewrite E1. cbn [mbind outcome_bind]. pose proof (write_token_alias_map _ _ _ _ E1) as Ea.
    destruct (IH m1 (inc u) v Hm1 (inc_u32 u) Hv) as (m2 & E2 & Hm2 & He2). exists m2.
    assert (Em : forall p, mergeable m1 p = mergeable m p) by (intros p; unfold mergeable; by rewrite Ea).
    assert (En : length (filter (fun p => mergeable m1 p = true) l) = length (filter (fun p => mergeable m p = true) l))
      by (f_equal; apply list_filter_iff; intros p; by rewrite Em).
    rewrite En in E2. rewrite decide_True by (unfold mergeable; cbn; by rewrite Hs, bool_decide_true by (by eexists)).
    cbn [length]. split_and!; [|done|].
    + rewrite E2, inc_wrap by (done || lia). same_counts.
    + intros i. rewrite He2, He1. case_decide as D.
      * subst. rewrite Ht. cbn. unfold merged. cbn [fst]. rewrite merge_for_cons, decide_True, Hs by done.
        by rewrite merge_for_absent.
      * destruct (entry m i) as [[b w]|] eqn:Ei; [|done]. cbn. unfold merged. cbn [fst].
        rewrite merge_for_cons, decide_False; [done|]. intros <-. apply D.
        assert (alias_map m !! a = Some i) by (apply alias_map_entry; eauto). congruence.
  - rewrite decide_False.
    2: { unfold mergeable. cbn. intros [Hs Hi]%andb_prop. apply bool_decide_eq_true in Hi as [j Hj].
         rewrite Hs in E. congruence. }
    destruct (IH m u (inc v) Hm Hu (inc_u32 v)) as (m2 & E2 & Hm2 & He2). exists m2. split_and!; [|done|].
    + rewrite E2. specialize (Le m). cbn [length]. rewrite inc_wrap by (done || lia). same_counts.
    + intros i. rewrite He2. destruct (entry m i) as [[b w]|] eqn:Ei; [|done]. cbn. unfold merged. cbn [fst].
      rewrite merge_for_cons. case_decide as D; [|done]. subst b. rewrite merge_for_absent by done.
      destruct (has_some x) eqn:Hs; [|done]. exfalso.
      assert (alias_map m !! a = Some i) by (apply alias_map_entry; eauto). congruence.
Qed.

(** ** Renaming and profiles *)

Lemma set_alias_safe m id alias :
  manager_wf m -> exists r m', set_alias m id alias = Ret (r, m') /\ manager_wf m' /\ tokens m' = tokens m.
Proof.
  intros Hm. pose proof (set_alias_spec m id alias Hm) as H.
  destruct (entry m id) as [[a t]|]; [|by eexists _, m].
  destruct (alias_map m !! _); [by eexists _, m|].
  destruct H as (m' & E & Hm' & _ & Ht & _). by exists (Ok ()), m'.
Qed.

(** Each pair counts once, as renamed or as refused. *)
Lemma alias_loop_spec request m u v :
  manager_wf m -> in_uint 32 u -> in_uint 32 v ->
  exists m' k, alias_loop request m u v
      = Ret (m', wrap 32 (u + k), wrap 32 (v + (Z.of_nat (length request) - k)))
    /\ 0 <= k <= Z.of_nat (length request) /\ manager_wf m' /\ tokens m' = tokens m.
Proof.
  revert m u v. induction request as [|[a b] l IH]; intros m u v Hm Hu Hv; cbn [alias_loop].
  { exists m, 0. cbn. rewrite !Z.add_0_r, !wrap_small by done. split_and!; [done|lia|lia|done|done]. }
  assert (Fail : exists m' k, alias_loop l m u (inc v)
      = Ret (m', wrap 32 (u + k), wrap 32 (v + (Z.of_nat (S (length l)) - k)))
    /\ 0 <= k <= Z.of_nat (S (length l)) /\ manager_wf m' /\ tokens m' = tokens m).
  { destruct (IH m u (inc v) Hm Hu (inc_u32 v)) as (m2 & k & E2 & Hk & Hm2 & Ht2). exists m2, k.
    split_and!; [|lia|lia|done|done]. rewrite E2. rewrite inc_wrap by (done || lia). same_counts. }
  destruct (alias_map m !! a) as [id|]; [|exact Fail].
  pose proof (set_alias_spec m id b Hm) as H. destruct (entry m id) as [[c t]|];
    [|rewrite H; cbn [mbind outcome_bind]; exact Fail].
  destruct (alias_map m !! _); [rewrite H; cbn [mbind outcome_bind]; exact Fail|].
  destruct H as (m1 & -> & Hm1 & _ & Ht1 & _). cbn [mbind outcome_bind].
  destruct (IH m1 (inc u) v Hm1 (inc_u32 u) Hv) as (m2 & k & E2 & Hk & Hm2 & Ht2). exists m2, (k + 1).
  cbn [length]. split_and!; [|lia|lia|done|congruence]. rewrite E2. rewrite inc_wrap by (done || lia). same_counts.
Qed.

Lemma apply_updaters_safe l m :
  manager_wf m -> exists m', apply_updaters l m = Ret m' /\ manager_wf m' /\ tokens m' = tokens m.
Proof.
  revert m; induction l as [|[id a] l IH]; intros m Hm; cbn [apply_updaters]; [by exists m|].
  destruct (set_alias_safe m id a Hm) as (r & m1 & E & Hm1 & Ht1). rewrite E. cbn [mbind outcome_bind snd].
  destruct (IH m1 Hm1) as (m2 & E2 & Hm2 & Ht2). exists m2. split_and!; [done|done|congruence].
Qed.

(** Keys, texts and statuses are those of before. *)
Definition same_bundles (m m' : TokenManager) : Prop :=
  forall i, (fun t => (bundle t, status t)) <$> (s ← tokens m' !! i; s)
            = (fun t => (bundle t, status t)) <$> (s ← tokens m !! i; s).

Lemma profile_loop_spec answers capacity i aliases m updaters u v :
  manager_wf m -> (length updaters + length aliases <= capacity)%nat -> in_uint 32 u -> in_uint 32 v ->
  exists m' upd', profile_loop answers capacity i aliases m updaters u v
      = Ret (m', upd', wrap 32 (u + known m aliases), wrap 32 (v + unknown m aliases))
    /\ manager_wf m' /\ same_bundles m m'.
Proof.
  revert i m updaters u v. induction aliases as [|a l IH]; intros i m upd u v Hm Hc Hu Hv; cbn [profile_loop].
  - exists m, upd. unfold known, unknown. cbn. by rewrite !Z.add_0_r, !wrap_small by done.
  - destruct (known_cons m a l) as [-> ->]. pose proof (known_nonneg m l) as [N1 N2]. cbn [length] in Hc.
    destruct (alias_map m !! a) as [id|] eqn:E.
    + apply (alias_map_entry m a id Hm) in E as [t Ht]. pose proof Ht as Ht0.
      apply entry_Some in Ht0 as [L A]. unfold get_unchecked. rewrite A. cbn [unchecked mbind outcome_bind].
      rewrite L. cbn [unchecked mbind outcome_bind].
      set (p := get_token_profile true (answers i (bundle t))).
      assert (U : exists upd', (match (if is_unnamed a then u0 ← p.1.2; user_alias u0 else None) with
          | Some new_alias => if (length upd <? capacity)%nat then Ret (upd ++ [(id, new_alias)]) else Undef
          | None => Ret upd end) = Ret upd' /\ (length upd' <= S (length upd))%nat).
      { destruct (if is_unnamed a then _ else _) as [na|]; [|by exists upd; auto].
        destruct (Nat.ltb_spec (length upd) capacity); [|lia]. eexists. split; [reflexivity|].
        rewrite length_app. cbn. lia. }
      destruct U as (upd' & EU & LU).
      destruct (update_token_spec m id a t (with_profile p) Hm Ht) as (m1 & E1 & Hm1 & He1).
      { unfold with_profile. by destruct p as [[[? ?] ?] ?]. }
      cbv zeta. rewrite EU. cbn [mbind outcome_bind]. rewrite E1. cbn [mbind outcome_bind].
      pose proof (update_token_alias_map _ _ _ _ E1) as Ea.
      destruct (IH (S i) m1 upd' (inc u) v Hm1) as (m2 & upd2 & E2 & Hm2 & Hb2); [lia|apply inc_u32|done|].
      exists m2, upd2. split_and!; [|done|].
      * rewrite E2. unfold known, unknown. rewrite Ea. fold (known m l). fold (unknown m l).
        rewrite inc_wrap by done. by rewrite Z.add_0_l, (Z.add_comm 1).
      * intros j. rewrite Hb2. unfold update_token, get_unchecked in E1. rewrite L in E1.
        cbn in E1. injection E1 as <-. cbn [tokens with_tokens].
        destruct (decide (j = id)) as [->|Hj].
        -- rewrite list_lookup_insert_eq by (by apply live_lt in L). unfold live in L. rewrite L. cbn.
           unfold with_profile. by destruct p as [[[? ?] ?] ?].
        -- by rewrite list_lookup_insert_ne.
    + destruct (IH (S i) m upd u (inc v) Hm) as (m2 & upd2 & E2 & Hm2 & Hb2); [lia|done|apply inc_u32|].
      exists m2, upd2. split_and!; [|done|done].
      rewrite E2. rewrite inc_wrap by done. by rewrite Z.add_0_l, (Z.add_comm 1).
Qed.

(** ** Refreshing *)

Lemma refresh_at_spec refresh upgrade i m id a t :
  manager_wf m -> entry m id = Some (a, t) ->
  let r := get_new_token (refresh i) (upgrade i) (bundle t) in
  let t' := with_bundle r.2 t in
  info_key t' = info_key t \/ fresh_key m t' ->
  exists m', refresh_at refresh upgrade i m id = Ret (r.1, m') /\ manager_wf m'
    /\ forall j, entry m' j = if decide (j = id) then Some (a, t') else entry m j.
Proof.
  intros Hm E r t' Hk. pose proof E as E0. apply entry_Some in E0 as [L _].
  unfold refresh_at, get_unchecked. rewrite L. cbn [unchecked mbind outcome_bind]. fold r.
  destruct (write_token_spec m id a t (fun _ => r.2) Hm E Hk) as (m' & E' & Hm' & He').
  exists m'. destruct r as [ok b]. cbn in *. rewrite E'. done.
Qed.

(** ** Properties *)

Definition sample_mgr : TokenManager := mgr sample_world.
Lemma sample_mgr_wf : manager_wf sample_mgr.
Proof. apply sample_world_wf. Qed.

(** Setting the status, the proxy or the time zone of a list of aliases
    changes that field of exactly the tokens whose alias is listed and nothing
    else (the assignments obey the laws of a lens), keeps the manager consistent, and answers with the numbers of known and
    unknown aliases of the list; an empty list is refused, and a failed save is
    reported only if something was updated. *)
Theorem field_handlers_update io m aliases st px tz :
  manager_wf m -> aliases <> [] ->
  let u := wrap 32 (known m aliases) in
  let v := wrap 32 (unknown m aliases) in
  (exists m', handle_set_tokens_status io m aliases st
     = Ret (counted io u (fun _ => save_failed "Failed to save token statuses" "无法保存令牌状态数据")
              (message SET_SUCCESS u "个令牌状态, " v SET_FAILURE_COUNT), m')
     /\ fields_updated (with_status st) aliases m m')
  /\ (exists m', handle_set_tokens_proxy io m aliases px
     = Ret (counted io u (fun _ => save_failed "Failed to save token proxies" "无法保存令牌代理数据")
              (message SET_SUCCESS u "个令牌代理, " v SET_FAILURE_COUNT), m')
     /\ fields_updated (with_proxy px) aliases m m')
  /\ (exists m', handle_set_tokens_timezone io m aliases tz
     = Ret (counted io u (fun _ => save_failed "Failed to save token timezones" "无法保存令牌时区数据")
              (message SET_SUCCESS u "个令牌时区, " v SET_FAILURE_COUNT), m')
     /\ fields_updated (with_timezone tz) aliases m m')
  /\ handle_set_tokens_status io m [] st = Ret (Err no_tokens_provided, m)
  /\ lens_laws status with_status /\ lens_laws (fun t => proxy (bundle t)) with_proxy
  /\ lens_laws (fun t => timezone (bundle t)) with_timezone.
Proof.
  intros Hm Hne u v. destruct aliases as [|a l]; [done|].
  pose proof setters_lens as (L1 & L2 & L3).
  split_and!; [| | |done..]; apply field_handler; (done || (vm_compute; discriminate)).
Qed.

Lemma field_handlers_update_witness :
  exists m', handle_set_tokens_proxy None sample_mgr ["bee"; "nobody"] (Some "socks5://h"%string)
    = Ret (Ok (mkCommonResponse Success "已设置1个令牌代理, 1个令牌设置失败"), m').
Proof.
  destruct (field_handlers_update None sample_mgr ["bee"; "nobody"]%string status_default
              (Some "socks5://h"%string) None sample_mgr_wf ltac:(done)) as (_ & (m' & E & _) & _).
  exists m'. rewrite E. vm_compute. reflexivity.
Defined.

(** C10: deleting a list of aliases removes the entries it names and no other,
    keeps the manager consistent, reports on request the aliases that were not
    there when their turn came, and saves, with the possible failure, exactly
    when something was removed. *)
Theorem delete_handler_removes io m heads aliases flag :
  manager_wf m ->
  let some_known := existsb (fun a => bool_decide (a ∈ dom (alias_map m))) aliases in
  let failed := if flag : bool then Some (missing (dom (alias_map m)) aliases) else None in
  exists m' heads', handle_delete_tokens io m heads aliases flag
      = Ret (match io with
             | Some _ => if some_known
                 then Err (INTERNAL_SERVER_ERROR, mkGenericError Success "Failed to save token data" "无法保存令牌数据")
                 else Ok (mkTokensDeleteResponse Success failed)
             | None => Ok (mkTokensDeleteResponse Success failed)
             end, m', heads')
    /\ manager_wf m'
    /\ forall i, entry m' i =
         match entry m i with Some (a, t) => if decide (a ∈ aliases) then None else Some (a, t) | None => None end.
Proof.
  intros Hm some_known failed. unfold handle_delete_tokens.
  destruct (delete_loop_spec aliases m heads false (if flag then Some [] else None) Hm)
    as (m' & h' & E & Hm' & He). exists m', h'. rewrite E. cbn [mbind outcome_bind]. rewrite orb_false_l.
  fold some_known. split; [|done].
  replace ((fun l => l ++ missing (dom (alias_map m)) aliases) <$> (if flag then Some [] else None))
    with failed by (by destruct flag).
  rewrite (do_save_wf io m' Hm'). cbn [mbind outcome_bind]. by destruct some_known, io.
Qed.

Lemma delete_handler_removes_witness :
  exists m' heads', handle_delete_tokens None sample_mgr QUEUE_HEADS ["bee"; "bee"; "nobody"] true
    = Ret (Ok (mkTokensDeleteResponse Success (Some ["bee"; "nobody"]%string)), m', heads').
Proof.
  destruct (delete_handler_removes None sample_mgr QUEUE_HEADS ["bee"; "bee"; "nobody"]%string true
              sample_mgr_wf) as (m' & h' & E & _).
  exists m', h'. rewrite E. vm_compute. reflexivity.
Defined.

(** C11: a merge request that replaces no primary token changes, of each named
    token, exactly the given fields, counts the entries with something to merge
    and a known alias, and keeps the manager consistent. *)
Theorem merge_handler_merges io m request :
  manager_wf m -> request <> [] -> NoDup request.*1 ->
  Forall (fun p : string * MergeInfo => m_primary_token p.2 = None) request ->
  let n := Z.of_nat (length (filter (fun p => mergeable m p = true) request)) in
  let u := wrap 32 n in
  let v := wrap 32 (Z.of_nat (length request) - n) in
  exists m', handle_merge_tokens io m request
      = Ret (counted io u (fun _ => save_failed "Failed to save tokens" "无法保存令牌数据")
               (message "已合并" u "个令牌, " v "个令牌合并失败"), m')
    /\ manager_wf m' /\ forall i, entry_merged request (entry m i) (entry m' i).
Proof.
  intros Hm Hne Hn Hp n u v.
  destruct (merge_loop_spec request m 0 0 Hm Hn Hp) as (m' & E & Hm' & He); [unfold in_uint; lia..|].
  exists m'. split; [|split; [done|intros i; rewrite He; apply merged_entry]].
  destruct request as [|p l]; [done|]. unfold handle_merge_tokens. rewrite E.
  cbn [mbind outcome_bind]. rewrite !Z.add_0_l. fold n u v.
  rewrite counts_message_spec by first [apply wrap_range; lia | vm_compute; discriminate].
  by apply finish_spec.
Qed.

Definition sample_merge : MergeInfo :=
  mkMergeInfo None (Some (sample_token 9)) None None None (Some 5) None None (Some EU).

Lemma merge_handler_merges_witness :
  exists m', handle_merge_tokens None sample_mgr [("bee"%string, sample_merge); ("nobody"%string, sample_merge)]
    = Ret (Ok (mkCommonResponse Success "已合并1个令牌, 1个令牌合并失败"), m').
Proof.
  destruct (merge_handler_merges None sample_mgr
              [("bee"%string, sample_merge); ("nobody"%string, sample_merge)] sample_mgr_wf) as (m' & E & _).
  - done.
  - by apply (bool_decide_unpack _); vm_compute.
  - by repeat constructor.
  - exists m'. rewrite E. vm_compute. reflexivity.
Defined.

(** Getting a new token either fails and leaves the bundle as it was, or puts
    the answer of the service in the primary place; the old primary token becomes
    the secondary one exactly when it is a web token and there was none. Only a
    session token is refreshed, and it falls back on an upgrade when it has a
    secondary token. At a live identifier the writer then keeps the manager
    consistent, provided the new key is not that of another token. *)
Theorem refresh_outcomes refresh upgrade i m id a t :
  manager_wf m -> entry m id = Some (a, t) ->
  let e := bundle t in
  let r := get_new_token (refresh i) (upgrade i) e in
  let session := is_session (raw (primary_token e)) in
  (r.1 = false -> r.2 = e)
  /\ (r.1 = true ->
        Some (primary_token r.2) = (if session then (match refresh i e with Some x => Some x | None => upgrade i e end)
                                    else upgrade i e)
        /\ secondary_token r.2 = (if negb session && is_none (secondary_token e)
                                  then Some (primary_token e) else secondary_token e))
  /\ (r.1 = true <->
        (if session then is_Some (refresh i e) \/ (is_Some (secondary_token e) /\ is_Some (upgrade i e))
         else is_Some (upgrade i e)))
  /\ (let t' := with_bundle r.2 t in
      info_key t' = info_key t \/ fresh_key m t' ->
      exists m', refresh_at refresh upgrade i m id = Ret (r.1, m') /\ manager_wf m'
        /\ forall j, entry m' j = if decide (j = id) then Some (a, t') else entry m j).
Proof.
  intros Hm E e r session.
  assert (R : r = get_new_token (refresh i) (upgrade i) e) by done. clearbody r.
  unfold get_new_token in R. cbv zeta in R. fold session in R.
  split_and!.
  - subst r. destruct session, (refresh i e), (upgrade i e), (secondary_token e); cbn; done.
  - subst r. destruct session, (refresh i e), (upgrade i e), (secondary_token e); cbn; done.
  - subst r. destruct session, (refresh i e) as [x|], (upgrade i e) as [y|], (secondary_token e) as [z|]; cbn;
      split; intros H; try done; try (by eexists); try (by left; eexists); try (by right; split; eexists);
      (destruct H as [[? [=]]|[[? [=]] [? [=]]]] || destruct H as [? [=]]).
  - intros Hk. subst r. by apply refresh_at_spec.
Qed.

Lemma refresh_outcomes_witness :
  exists m', refresh_at (fun _ _ => Some (sample_token 8)) (fun _ _ => None) 0 sample_mgr 1
    = Ret (true, m') /\ manager_wf m'.
Proof.
  destruct (refresh_outcomes (fun _ _ => Some (sample_token 8)) (fun _ _ => None) 0 sample_mgr 1 "bee"
              (sample 2) sample_mgr_wf ltac:(vm_compute; reflexivity)) as (_ & _ & _ & H).
  destruct H as (m' & E & W & _); [right; vm_compute; reflexivity|].
  exists m'. split; [exact E|exact W].
Defined.

(** Renaming and fetching profiles never leave defined behaviour, whatever the
    request and the answers: the manager stays consistent, every pair of a rename
    request is counted once, the vector of pending renames never outgrows its
    capacity, and the tokens' bundles and statuses do not change. *)
Theorem rename_and_profile_safe io m request aliases answers :
  manager_wf m -> request <> [] -> aliases <> [] ->
  (exists m' k, 0 <= k <= Z.of_nat (length request) /\
     let u := wrap 32 k in let v := wrap 32 (Z.of_nat (length request) - k) in
     handle_set_tokens_alias io m request
     = Ret (counted io u (save_failed "Failed to save token aliases")
              (message SET_SUCCESS u "个令牌别名, " v SET_FAILURE_COUNT), m')
     /\ manager_wf m' /\ tokens m' = tokens m)
  /\ (exists m', let u := wrap 32 (known m aliases) in let v := wrap 32 (unknown m aliases) in
     handle_update_tokens_profile answers io m aliases
     = Ret (counted io u (fun _ => save_failed "Failed to save token profiles" "无法保存令牌配置数据")
              (message UPDATE_SUCCESS u "个令牌配置, " v UPDATE_FAILURE_COUNT), m')
     /\ manager_wf m' /\ same_bundles m m').
Proof.
  intros Hm Hr Ha. split.
  - destruct (alias_loop_spec request m 0 0 Hm) as (m' & k & E & Hk & Hm' & Ht); [unfold in_uint; lia..|].
    exists m', k. cbv zeta. split_and!; [lia|lia| |done|done]. destruct request as [|p l]; [done|].
    unfold handle_set_tokens_alias. rewrite E. cbn [mbind outcome_bind]. rewrite !Z.add_0_l.
    rewrite counts_message_spec by first [apply wrap_range; lia | vm_compute; discriminate]. by apply finish_spec.
  - destruct (profile_loop_spec answers (length aliases) 0 aliases m [] 0 0 Hm) as (m1 & upd & E & Hm1 & Hb);
      [cbn; lia|unfold in_uint; lia..|].
    destruct (apply_updaters_safe upd m1 Hm1) as (m2 & E2 & Hm2 & Ht2). exists m2. cbv zeta.
    split_and!; [|done|intros i; rewrite Ht2; apply Hb]. destruct aliases as [|p l]; [done|].
    unfold handle_update_tokens_profile. rewrite E. cbn [mbind outcome_bind]. rewrite E2.
    cbn [mbind outcome_bind]. rewrite !Z.add_0_l.
    rewrite counts_message_spec by first [apply wrap_range; lia | vm_compute; discriminate]. by apply finish_spec.
Qed.

Lemma rename_and_profile_safe_witness :
  exists m', handle_update_tokens_profile
      (fun _ _ => mkNetProfile None None None None None None) None sample_mgr ["bee"; "unnamed-2"]
    = Ret (Ok (mkCommonResponse Success "已更新2个令牌配置, 0个令牌更新失败"), m').
Proof.
  destruct (rename_and_profile_safe None sample_mgr [("bee"%string, "b"%string)] ["bee"; "unnamed-2"]%string
              (fun _ _ => mkNetProfile None None None None None None) sample_mgr_wf) as [_ (m' & E & _)];
    [done|done|].
  exists m'. rewrite E. vm_compute. reflexivity.
Defined.

(** The handlers do not keep token keys distinct: setting two tokens with one
    key succeeds, deleting one of them succeeds, and the next selection is
    undefined; merging the primary token of one alias into another is undefined
    at once. *)
Theorem duplicate_requests_undefined :
  (exists m m' heads',
     handle_set_tokens None [("a", sample 1); ("b", sample 1)]%string
       = Ret (Ok (mkTokensAddResponse 2 "Token files have been updated and reloaded"), m)
     /\ handle_delete_tokens None m QUEUE_HEADS ["a"%string] false
       = Ret (Ok (mkTokensDeleteResponse Success None), m', heads')
     /\ select 0 m' heads' PrivilegedFree = Undef)
  /\ (exists m,
     handle_set_tokens None [("a", sample 1); ("b", sample 2)]%string
       = Ret (Ok (mkTokensAddResponse 2 "Token files have been updated and reloaded"), m)
     /\ handle_merge_tokens None m
          [("b"%string, mkMergeInfo (Some (sample_token 1)) None None None None None None None None)] = Undef).
Proof.
  split.
  - do 3 eexists. split_and!; [vm_compute; reflexivity|vm_compute; reflexivity|by vm_compute].
  - eexists. split; [vm_compute; reflexivity|by vm_compute].
Qed.
