(* ===== verification/GrpcStream.v ===== *)
(** * The incremental decoder of framed gRPC streams

    [src/crates/grpc-stream/src/]: [frame.rs], [buffer.rs], [decoder.rs],
    [compression.rs] and the size limit of [lib.rs].

    A stream is a sequence of frames: one byte of type, four bytes of big-endian
    length, the data.  Offsets are 64-bit [usize] values whose additions wrap;
    the unchecked reads are undefined behaviour ([Undef]) out of bounds.
    [BytesMut] is the list of its bytes.  The inflater ([flate2]) and the
    protobuf decoder ([prost]) are the parameters [gunzip] and [proto_decode].

    The specification is the relation [splits]: a buffer is a sequence of whole
    frames followed by an incomplete one, in one way only.  The loops take fuel
    [S (length buffer)]; each turn consumes at least five bytes, and running out
    is [Undef], which the theorems exclude. *)
From S2P Require Import Prelude.

Definition MAX_DECOMPRESSED_SIZE_BYTES : Z := 0x400000.

(** [usize] addition of the release build. *)
Definition uadd (x y : Z) : Z := wrap USIZE_BITS (x + y).

(** ** Frames *)

Record RawMessage : Type := mkRawMessage { rm_type : Z; rm_data : bytes }.

Definition total_size (m : RawMessage) : Z := uadd 5 (zlen (rm_data m)).

(** The bytes of one frame, as the documentation of [RawMessage] draws it. *)
Definition frame (m : RawMessage) : bytes :=
  rm_type m :: be_bytes 4 (zlen (rm_data m)) ++ rm_data m.

(** A message a frame can carry. *)
Definition raw_ok (m : RawMessage) : Prop :=
  in_uint 8 (rm_type m) /\ is_bytes (rm_data m) /\ zlen (rm_data m) < 2 ^ 32.

(** ** The buffer *)

Record Buffer : Type := mkBuffer { inner : bytes }.

Definition buffer_new : Buffer := mkBuffer [].
Definition buffer_len (b : Buffer) : Z := zlen (inner b).
Definition buffer_is_empty (b : Buffer) : bool := (length (inner b) =? 0)%nat.
Definition extend_from_slice (b : Buffer) (data : bytes) : Buffer := mkBuffer (inner b ++ data).
(** [Buf::advance] panics past the end. *)
Definition buffer_advance (b : Buffer) (cnt : Z) : outcome Buffer :=
  if cnt <=? zlen (inner b) then Ret (mkBuffer (drop (Z.to_nat cnt) (inner b))) else Panic.

(** ** The iterator *)

Record MessageIter : Type := mkIter { mi_buffer : bytes; mi_offset : Z }.

Definition into_iter (b : Buffer) : MessageIter := mkIter (inner b) 0.

(** [slice_get_unchecked] and the dereference. *)
Definition get_unchecked (buf : bytes) (i : Z) : outcome Z := unchecked (buf !! Z.to_nat i).

(** The slice of [len] bytes at [offset], dereferenced. *)
Definition get_offset_len_noubcheck (buf : bytes) (offset len : Z) : outcome bytes :=
  if offset + len <=? zlen buf then Ret (take (Z.to_nat len) (drop (Z.to_nat offset) buf))
  else Undef.

Definition next (it : MessageIter) : outcome (option RawMessage * MessageIter) :=
  let buffer := mi_buffer it in
  let offset := mi_offset it in
  if uadd offset 5 >? zlen buffer then Ret (None, it) else
  ty ← get_unchecked buffer offset;
  len_bytes ← get_offset_len_noubcheck buffer (uadd offset 1) 4;
  let msg_len := be_value len_bytes in
  if uadd (uadd offset 5) msg_len >? zlen buffer then Ret (None, it) else
  let offset := uadd offset 5 in
  data ← get_offset_len_noubcheck buffer offset msg_len;
  let offset := uadd offset msg_len in
  Ret (Some (mkRawMessage ty data), mkIter buffer offset).

Fixpoint size_hint_loop (fuel : nat) (buffer : bytes) (count offset : Z) : outcome Z :=
  match fuel with
  | O => Undef
  | S fuel =>
      if uadd offset 5 <=? zlen buffer then
        len_bytes ← get_offset_len_noubcheck buffer (uadd offset 1) 4;
        let msg_len := be_value len_bytes in
        if uadd (uadd offset 5) msg_len >? zlen buffer then Ret count
        else size_hint_loop fuel buffer (uadd count 1) (uadd offset (uadd 5 msg_len))
      else Ret count
  end.
Definition size_hint (it : MessageIter) : outcome (Z * option Z) :=
  count ← size_hint_loop (S (length (mi_buffer it))) (mi_buffer it) 0 (mi_offset it);
  Ret (count, Some count).
Definition iter_len (it : MessageIter) : outcome Z := h ← size_hint it; Ret (fst h).

(** ** The decoder *)

Record StreamDecoder : Type := mkDecoder { buffer : Buffer }.
Definition decoder_new : StreamDecoder := mkDecoder buffer_new.

(** [for raw_msg in &mut iter]. *)
Fixpoint decode_loop {T} (fuel : nat) (processor : RawMessage -> outcome (option T))
    (it : MessageIter) (messages : list T) : outcome (list T * MessageIter) :=
  match fuel with
  | O => Undef
  | S fuel =>
      '(item, it) ← next it;
      match item with
      | None => Ret (messages, it)
      | Some raw_msg =>
          o ← processor raw_msg;
          decode_loop fuel processor it
            (match o with Some msg => messages ++ [msg] | None => messages end)
      end
  end.

Definition decode {T} (d : StreamDecoder) (data : bytes)
    (processor : RawMessage -> outcome (option T)) : outcome (list T * StreamDecoder) :=
  let b := extend_from_slice (buffer d) data in
  let iter := into_iter b in
  _ ← iter_len iter;
  '(messages, iter) ← decode_loop (S (length (inner b))) processor iter [];
  b ← buffer_advance b (mi_offset iter);
  Ret (messages, mkDecoder b).

(** A client that feeds the chunks of a stream one after the other. *)
Fixpoint decode_chunks {T} (d : StreamDecoder) (chunks : list bytes)
    (processor : RawMessage -> outcome (option T)) : outcome (list T * StreamDecoder) :=
  match chunks with
  | [] => Ret ([], d)
  | c :: chunks =>
      '(ms, d) ← decode d c processor;
      '(ms', d) ← decode_chunks d chunks processor;
      Ret (ms ++ ms', d)
  end.

(** ** Decompression and the default processor *)

Section Codec.
Context {T : Type} (gunzip : bytes -> option bytes) (proto_decode : bytes -> option T).

Definition decompress_gzip (data : bytes) : outcome (option bytes) :=
  if zlen data <? 20 then Ret None else
  b0 ← get_unchecked data 0;
  b1 ← get_unchecked data 1;
  b2 ← get_unchecked data 2;
  if negb (b0 =? 0x1f) || negb (b1 =? 0x8b) || negb (b2 =? 0x08) then Ret None else
  footer ← get_offset_len_noubcheck data (zlen data - 4) 4;
  let capacity := le_value footer in
  if capacity >? MAX_DECOMPRESSED_SIZE_BYTES then Ret None else
  Ret (gunzip data).

Definition decode_message (data : bytes) : option T := proto_decode data.
Definition decode_compressed_message (data : bytes) : outcome (option T) :=
  o ← decompress_gzip data;
  match o with
  | None => Ret None
  | Some decompressed => Ret (decode_message decompressed)
  end.

Definition default_processor (raw_msg : RawMessage) : outcome (option T) :=
  if rm_type raw_msg =? 0 then Ret (decode_message (rm_data raw_msg))
  else if rm_type raw_msg =? 1 then decode_compressed_message (rm_data raw_msg)
  else Ret None.

Definition decode_default (d : StreamDecoder) (data : bytes) : outcome (list T * StreamDecoder) :=
  decode d data default_processor.
End Codec.

(** ** The specification: how a buffer splits into frames *)

Definition incomplete (rest : bytes) : Prop :=
  zlen rest < 5 \/ zlen rest < 5 + be_value (take 4 (drop 1 rest)).

Inductive splits : bytes -> list RawMessage -> bytes -> Prop :=
| splits_done rest : incomplete rest -> splits rest [] rest
| splits_cons m buf ms rest :
    raw_ok m -> splits buf ms rest -> splits (frame m ++ buf) (m :: ms) rest.

(** [n] calls of [next]. *)
Fixpoint take_next (n : nat) (it : MessageIter) : outcome (list (option RawMessage) * MessageIter) :=
  match n with
  | O => Ret ([], it)
  | S n => '(o, it) ← next it; '(os, it) ← take_next n it; Ret (o :: os, it)
  end.

(** What a slice of memory can hold. *)
Definition buf_ok (buf : bytes) : Prop := is_bytes buf /\ zlen buf < 2 ^ 63.

(** The answers of an effectful processor that always answers. *)
Fixpoint collect {T} (processor : RawMessage -> outcome (option T)) (ms : list RawMessage)
    : outcome (list T) :=
  match ms with
  | [] => Ret []
  | m :: ms =>
      o ← processor m;
      l ← collect processor ms;
      Ret (match o with Some x => x :: l | None => l end)
  end.

(** ** Lengths and slices *)

Lemma zlen_app {A} (l k : list A) : zlen (l ++ k) = zlen l + zlen k.
Proof. unfold zlen. rewrite length_app. lia. Qed.
Lemma zlen_nonneg {A} (l : list A) : 0 <= zlen l.
Proof. unfold zlen. lia. Qed.
Lemma zlen_frame m : zlen (frame m) = 5 + zlen (rm_data m).
Proof. unfold frame, zlen. cbn [length]. rewrite length_app, length_be_bytes. lia. Qed.
Lemma uadd_small x y : 0 <= x -> 0 <= y -> x + y < 2 ^ 64 -> uadd x y = x + y.
Proof. intros. apply wrap_small. unfold in_uint, USIZE_BITS. lia. Qed.

Lemma get_unchecked_app pre b tl : get_unchecked (pre ++ b :: tl) (zlen pre) = Ret b.
Proof. unfold get_unchecked, zlen. by rewrite Nat2Z.id, list_lookup_middle. Qed.
Lemma get_slice_app pre mid tl :
  get_offset_len_noubcheck (pre ++ mid ++ tl) (zlen pre) (zlen mid) = Ret mid.
Proof.
  unfold get_offset_len_noubcheck. pose proof (zlen_nonneg tl).
  rewrite (proj2 (Z.leb_le _ _)) by (rewrite !zlen_app; lia).
  unfold zlen. by rewrite !Nat2Z.id, drop_app_length, take_app_length.
Qed.
Lemma get_slice_at pre mid tl off len :
  off = zlen pre -> len = zlen mid ->
  get_offset_len_noubcheck (pre ++ mid ++ tl) off len = Ret mid.
Proof. intros -> ->. apply get_slice_app. Qed.

Lemma be_value_len4 m : raw_ok m -> be_value (be_bytes 4 (zlen (rm_data m))) = zlen (rm_data m).
Proof.
  intros (_ & _ & H). rewrite be_value_be_bytes. apply Z.mod_small.
  pose proof (zlen_nonneg (rm_data m)). change (256 ^ Z.of_nat 4) with (2 ^ 32). lia.
Qed.
Lemma frame_u8 m : raw_ok m -> is_bytes (frame m).
Proof.
  intros (? & ? & _). unfold frame. constructor; [done|].
  apply Forall_app. split; [apply be_bytes_u8|done].
Qed.
Lemma header_u32 bs : is_bytes bs -> 0 <= be_value (take 4 bs) < 2 ^ 32.
Proof.
  intros H. pose proof (be_value_range (take 4 bs) (Forall_take _ _ _ H)) as R.
  assert (length (take 4 bs) <= 4)%nat by (rewrite length_take; lia).
  assert (256 ^ Z.of_nat (length (take 4 bs)) <= 256 ^ 4) by (apply Z.pow_le_mono_r; lia).
  change (256 ^ 4) with (2 ^ 32) in *. lia.
Qed.
#[export] Hint Resolve zlen_nonneg frame_u8 : rust.

(** ** One step of the iterator *)

Lemma frame_reads pre m tl (buf := pre ++ frame m ++ tl) :
  get_unchecked buf (zlen pre) = Ret (rm_type m) /\
  get_offset_len_noubcheck buf (zlen pre + 1) 4 = Ret (be_bytes 4 (zlen (rm_data m))) /\
  get_offset_len_noubcheck buf (zlen pre + 5) (zlen (rm_data m)) = Ret (rm_data m).
Proof.
  split_and!.
  - apply get_unchecked_app.
  - replace buf with ((pre ++ [rm_type m]) ++ be_bytes 4 (zlen (rm_data m)) ++ (rm_data m ++ tl))
      by (unfold buf, frame; rewrite <- !app_assoc; cbn [app]; by rewrite <- !app_assoc).
    apply get_slice_at; [by rewrite zlen_app|unfold zlen; by rewrite length_be_bytes].
  - replace buf with ((pre ++ rm_type m :: be_bytes 4 (zlen (rm_data m))) ++ rm_data m ++ tl)
      by (unfold buf, frame; rewrite <- !app_assoc; cbn [app]; by rewrite <- !app_assoc).
    apply get_slice_at; [|done]. rewrite zlen_app. unfold zlen. cbn [length].
    rewrite length_be_bytes. lia.
Qed.

Lemma next_frame pre m tl (buf := pre ++ frame m ++ tl) :
  raw_ok m -> zlen buf < 2 ^ 63 ->
  next (mkIter buf (zlen pre)) = Ret (Some m, mkIter buf (zlen (pre ++ frame m))).
Proof.
  intros Hm Hl. destruct (frame_reads pre m tl) as (R0 & R1 & R2). fold buf in R0, R1, R2.
  pose proof (zlen_nonneg pre). pose proof (zlen_nonneg tl). pose proof (zlen_nonneg (rm_data m)).
  assert (Hz : zlen buf = zlen pre + (5 + zlen (rm_data m) + zlen tl))
    by (unfold buf; rewrite !zlen_app, zlen_frame; lia).
  unfold next. cbn [mi_buffer mi_offset]. rewrite !(uadd_small (zlen pre)) by lia.
  rewrite Z.gtb_ltb, (proj2 (Z.ltb_ge _ _)) by lia.
  rewrite R0, R1. cbn [mbind outcome_bind]. rewrite be_value_len4 by done. rewrite !uadd_small by lia.
  rewrite Z.gtb_ltb, (proj2 (Z.ltb_ge _ _)) by lia.
  rewrite R2. cbn [mbind outcome_bind]. rewrite zlen_app, zlen_frame, Z.add_assoc.
  by destruct m.
Qed.

(** An incomplete frame is looked at, not read past. *)
Lemma length_reads pre tl :
  is_bytes tl -> 5 <= zlen tl ->
  get_unchecked (pre ++ tl) (zlen pre) = Ret (tl !!! 0%nat) /\
  get_offset_len_noubcheck (pre ++ tl) (zlen pre + 1) 4 = Ret (take 4 (drop 1 tl)).
Proof.
  intros Hb H5. destruct tl as [|b tl]; [unfold zlen in H5; cbn [length] in H5; lia|].
  assert (4 <= length tl)%nat by (unfold zlen in H5; cbn [length] in H5; lia).
  split; [apply get_unchecked_app|].
  replace (pre ++ b :: tl) with ((pre ++ [b]) ++ take 4 tl ++ drop 4 tl)
    by (rewrite <- app_assoc, take_drop; done).
  apply get_slice_at; [by rewrite zlen_app|]. unfold zlen. rewrite length_take. change (drop 1 (b :: tl)) with tl. rewrite Nat.min_l by done. done.
Qed.

Lemma next_incomplete pre tl :
  buf_ok (pre ++ tl) -> incomplete tl ->
  next (mkIter (pre ++ tl) (zlen pre)) = Ret (None, mkIter (pre ++ tl) (zlen pre)).
Proof.
  intros [Hb Hl] Hi. apply Forall_app in Hb as [_ Hb]. rewrite zlen_app in Hl.
  pose proof (zlen_nonneg pre). pose proof (zlen_nonneg tl).
  unfold next. cbn [mi_buffer mi_offset]. rewrite !(uadd_small (zlen pre)) by lia.
  rewrite Z.gtb_ltb, zlen_app. destruct (Z.ltb_spec (zlen pre + zlen tl) (zlen pre + 5)); [done|].
  destruct (length_reads pre tl) as [R0 R1]; [done|lia|].
  rewrite R0, R1. cbn [mbind outcome_bind].
  assert (Hd : is_bytes (drop 1 tl)) by by apply Forall_drop.
  pose proof (header_u32 _ Hd). rewrite uadd_small by lia.
  destruct Hi as [|Hi]; [lia|].
  by rewrite Z.gtb_ltb, (proj2 (Z.ltb_lt _ _)) by lia.
Qed.

(** ** Splitting *)

Lemma incomplete_or_frame buf :
  is_bytes buf -> incomplete buf \/ exists m tl, raw_ok m /\ buf = frame m ++ tl.
Proof.
  intros Hb. unfold incomplete. destruct (Z.lt_ge_cases (zlen buf) 5) as [|H5]; [by left; left|].
  destruct buf as [|ty body]; [by left; left|]. change (drop 1 (ty :: body)) with body.
  apply Forall_cons in Hb as [Ht Hb]. pose proof (header_u32 _ Hb) as Hv.
  set (v := be_value (take 4 body)) in *.
  destruct (Z.lt_ge_cases (zlen (ty :: body)) (5 + v)) as [|Hv']; [by left; right|].
  right. exists (mkRawMessage ty (take (Z.to_nat v) (drop 4 body))), (drop (Z.to_nat v) (drop 4 body)).
  change (zlen (ty :: body)) with (Z.of_nat (S (length body))) in *.
  assert (Hl : zlen (take (Z.to_nat v) (drop 4 body)) = v)
    by (unfold zlen; rewrite length_take, length_drop; lia).
  split.
  - split_and!; [done|by apply Forall_take, Forall_drop|]. cbn [rm_data]. lia.
  - unfold frame. cbn [rm_type rm_data]. rewrite Hl. unfold v.
    replace 4%nat with (length (take 4 body)) at 1 by (rewrite length_take; lia).
    rewrite be_bytes_be_value by (by apply Forall_take).
    cbn [app]. by rewrite <- app_assoc, take_drop, take_drop.
Qed.

Lemma splits_total buf : is_bytes buf -> exists ms rest, splits buf ms rest.
Proof.
  remember (length buf) as n eqn:Hn. revert buf Hn.
  induction n as [n IH] using lt_wf_ind. intros buf -> Hb.
  destruct (incomplete_or_frame buf Hb) as [Hi|(m & tl & Hm & ->)].
  - exists [], buf. by constructor.
  - apply Forall_app in Hb as [_ Hb].
    destruct (IH (length tl)) with (buf := tl) as (ms & rest & H); [|done|done|].
    + rewrite length_app. cbn [length frame]. lia.
    + exists (m :: ms), rest. by constructor.
Qed.

Lemma splits_concat buf ms rest : splits buf ms rest -> buf = concat (frame <$> ms) ++ rest.
Proof. induction 1 as [|m buf ms rest _ _ IH]; [done|]. cbn. by rewrite <- app_assoc, <- IH. Qed.
Lemma splits_rest buf ms rest : splits buf ms rest -> incomplete rest.
Proof. by induction 1. Qed.
Lemma splits_length buf ms rest : splits buf ms rest -> (length ms <= length buf)%nat.
Proof.
  induction 1 as [|m buf ms rest _ _ IH]; [cbn; lia|]. rewrite length_app. cbn [length frame]. lia.
Qed.

(** More bytes complete the pending frame and the ones after it. *)
Lemma splits_extend buf ms rest data ms' rest' :
  splits buf ms rest -> splits (rest ++ data) ms' rest' ->
  splits (buf ++ data) (ms ++ ms') rest'.
Proof.
  induction 1 as [|m buf ms rest Hm _ IH]; [done|]. intros H'.
  rewrite <- app_assoc. cbn. constructor; auto.
Qed.

Lemma incomplete_nil : incomplete [].
Proof. by left. Qed.
Lemma splits_frames ms : Forall raw_ok ms -> splits (concat (frame <$> ms)) ms [].
Proof.
  induction 1 as [|m ms Hm _ IH]; cbn; [apply splits_done, incomplete_nil|by constructor].
Qed.

Lemma frames_bytes ms : Forall raw_ok ms -> is_bytes (concat (frame <$> ms)).
Proof.
  induction 1 as [|m ms Hm _ IH]; [constructor|]. rewrite fmap_cons. cbn [concat].
  apply Forall_app_2; [by apply frame_u8|done].
Qed.

(** ** The loops follow the splitting *)

Lemma collect_app {T} (p : RawMessage -> outcome (option T)) ms ms' :
  collect p (ms ++ ms') = (l ← collect p ms; l' ← collect p ms'; Ret (l ++ l')).
Proof.
  induction ms as [|m ms IH]; cbn; [by destruct (collect p ms')|].
  destruct (p m) as [o| |]; cbn; [|done..]. rewrite IH.
  destruct (collect p ms); cbn; [|done..]. destruct (collect p ms'); cbn; [|done..].
  by destruct o.
Qed.

Lemma decode_loop_splits {T} (p : RawMessage -> outcome (option T)) buf ms rest :
  splits buf ms rest -> forall pre acc fuel,
  buf_ok (pre ++ buf) -> (length ms < fuel)%nat ->
  decode_loop fuel p (mkIter (pre ++ buf) (zlen pre)) acc =
    (l ← collect p ms; Ret (acc ++ l, mkIter (pre ++ buf) (zlen (pre ++ buf) - zlen rest))).
Proof.
  induction 1 as [rest Hi|m buf ms rest Hm Hs IH]; intros pre acc [|fuel] Hok Hf;
    cbn [length] in Hf; try lia; cbn [decode_loop].
  - rewrite next_incomplete by done. cbn. rewrite app_nil_r, zlen_app.
    by replace (zlen pre + zlen rest - zlen rest) with (zlen pre) by lia.
  - rewrite next_frame by (done || apply Hok). cbn [mbind outcome_bind collect].
    destruct (p m) as [o| |]; cbn [mbind outcome_bind]; [|done..].
    rewrite (app_assoc pre) in *. rewrite IH by (done || lia).
    destruct (collect p ms) as [l| |]; cbn [mbind outcome_bind]; [|done..].
    destruct o; [by rewrite <- app_assoc|done].
Qed.

Lemma size_hint_loop_splits buf ms rest :
  splits buf ms rest -> forall pre count fuel,
  buf_ok (pre ++ buf) -> (length ms < fuel)%nat -> 0 <= count ->
  count + zlen buf < 2 ^ 64 ->
  size_hint_loop fuel (pre ++ buf) count (zlen pre) = Ret (count + zlen ms).
Proof.
  induction 1 as [rest Hi|m buf ms rest Hm Hs IH]; intros pre count [|fuel] Hok Hf Hc Hlt;
    cbn [length] in Hf; try lia; cbn [size_hint_loop].
  - destruct Hok as [Hb Hl]. apply Forall_app in Hb as [_ Hb].
    rewrite zlen_app in *. pose proof (zlen_nonneg pre). pose proof (zlen_nonneg rest).
    rewrite !(uadd_small (zlen pre)) by lia.
    destruct (Z.leb_spec (zlen pre + 5) (zlen pre + zlen rest)); [|by rewrite Z.add_0_r].
    destruct (length_reads pre rest) as [_ R1]; [done|lia|]. rewrite R1. cbn [mbind outcome_bind].
    assert (Hd : is_bytes (drop 1 rest)) by by apply Forall_drop.
    pose proof (header_u32 _ Hd). rewrite uadd_small by lia.
    destruct Hi as [|Hi]; [lia|].
    rewrite Z.gtb_ltb, (proj2 (Z.ltb_lt _ _)) by lia. by rewrite Z.add_0_r.
  - destruct (frame_reads pre m buf) as (_ & R1 & _). destruct Hok as [Hb Hl]. rewrite zlen_app, zlen_frame in Hlt.
    pose proof (zlen_nonneg pre). pose proof (zlen_nonneg buf). pose proof (zlen_nonneg (rm_data m)).
    assert (Hz : zlen (pre ++ frame m ++ buf) = zlen pre + (5 + zlen (rm_data m) + zlen buf))
      by (rewrite !zlen_app, zlen_frame; lia).
    rewrite !(uadd_small (zlen pre)) by lia.
    rewrite (proj2 (Z.leb_le _ _)) by lia. rewrite R1. cbn [mbind outcome_bind].
    rewrite be_value_len4 by done. rewrite (uadd_small 5) by lia. rewrite !uadd_small by lia.
    rewrite Z.gtb_ltb, (proj2 (Z.ltb_ge _ _)) by lia.
    replace (zlen pre + (5 + zlen (rm_data m))) with (zlen (pre ++ frame m))
      by (rewrite zlen_app, zlen_frame; lia).
    rewrite (app_assoc pre) in Hb, Hl |- *. rewrite IH; [|by split|lia..].
    f_equal. unfold zlen. cbn [length]. lia.
Qed.

Lemma length_fuel buf ms rest : splits buf ms rest -> (length ms < S (length buf))%nat.
Proof. intros H. apply splits_length in H. lia. Qed.

Lemma iter_len_splits b ms rest :
  buf_ok (inner b) -> splits (inner b) ms rest ->
  size_hint (into_iter b) = Ret (zlen ms, Some (zlen ms)).
Proof.
  intros Hok Hs. unfold size_hint. cbn [into_iter mi_buffer mi_offset].
  rewrite (size_hint_loop_splits _ _ _ Hs []); [done|done|by eapply length_fuel|lia|].
  destruct Hok as [_ Hl]. cbn [app]. lia.
Qed.

Lemma decode_splits {T} d data (p : RawMessage -> outcome (option T)) ms rest :
  buf_ok (inner (buffer d) ++ data) -> splits (inner (buffer d) ++ data) ms rest ->
  decode d data p = (l ← collect p ms; Ret (l, mkDecoder (mkBuffer rest))).
Proof.
  intros Hok Hs. unfold decode, iter_len. set (b := extend_from_slice _ _).
  rewrite (iter_len_splits b ms rest) by done. cbn [mbind outcome_bind].
  rewrite (decode_loop_splits p _ _ _ Hs []) by (done || by eapply length_fuel).
  destruct (collect p ms) as [l| |]; cbn [mbind outcome_bind app mi_offset]; [|done..].
  unfold buffer_advance, b. cbn [inner extend_from_slice].
  rewrite (splits_concat _ _ _ Hs). set (body := concat _).
  pose proof (zlen_nonneg rest). rewrite zlen_app.
  rewrite (proj2 (Z.leb_le _ _)) by lia. cbn [mbind outcome_bind].
  replace (Z.to_nat (zlen body + zlen rest - zlen rest)) with (length body) by (unfold zlen; lia).
  by rewrite drop_app_length.
Qed.

(** ** Uniqueness of the splitting *)

Lemma frame_app_inj m m' buf buf' :
  raw_ok m -> raw_ok m' -> frame m ++ buf = frame m' ++ buf' -> m = m' /\ buf = buf'.
Proof.
  intros Hm Hm' H. assert (Hl : zlen (rm_data m) = zlen (rm_data m')).
  { rewrite <- (be_value_len4 m Hm), <- (be_value_len4 m' Hm').
    by apply (f_equal (fun l => be_value (take 4 (drop 1 l)))) in H. }
  apply app_inj_1 in H as [H Hb]; [|pose proof (zlen_frame m); pose proof (zlen_frame m'); unfold zlen in *; lia].
  split; [|done]. unfold frame in H. rewrite Hl in H.
  apply (app_inj_1 (_ :: _) (_ :: _)) in H as [[= Ht] Hd]; [|done].
  destruct m, m'; cbn in *. by subst.
Qed.

Lemma frame_not_incomplete m buf : raw_ok m -> ~ incomplete (frame m ++ buf).
Proof.
  intros Hm. pose proof (zlen_nonneg buf). pose proof (zlen_nonneg (rm_data m)).
  unfold incomplete. rewrite zlen_app, zlen_frame.
  change (take 4 (drop 1 (frame m ++ buf))) with (be_bytes 4 (zlen (rm_data m))).
  rewrite be_value_len4 by done. lia.
Qed.

Lemma splits_inv buf ms rest :
  splits buf ms rest ->
  incomplete buf /\ ms = [] /\ rest = buf \/
  exists m tl ms', raw_ok m /\ buf = frame m ++ tl /\ ms = m :: ms' /\ splits tl ms' rest.
Proof. destruct 1; [left; auto|right; eauto 10]. Qed.

Lemma splits_unique buf ms rest ms' rest' :
  splits buf ms rest -> splits buf ms' rest' -> ms = ms' /\ rest = rest'.
Proof.
  intros H. revert ms' rest'.
  induction H as [rest Hi|m buf ms rest Hm _ IH]; intros ms' rest' H'; apply splits_inv in H';
    destruct H' as [(Hi' & -> & ->)|(m' & tl & ms2 & Hm' & Heq & -> & Hs)].
  - done.
  - rewrite Heq in Hi. by apply frame_not_incomplete in Hi.
  - by apply frame_not_incomplete in Hi'.
  - apply frame_app_inj in Heq as [-> ->]; [|done..]. by destruct (IH _ _ Hs) as [-> ->].
Qed.

(** ** Draining the iterator *)

Lemma take_next_app n k it :
  take_next (n + k) it =
    ('(os, it) ← take_next n it; '(os', it) ← take_next k it; Ret (os ++ os', it)).
Proof.
  revert it. induction n as [|n IH]; intros it; cbn.
  - by destruct (take_next k it) as [[]| |].
  - destruct (next it) as [[o it']| |]; cbn; [|done..]. rewrite IH.
    destruct (take_next n it') as [[os it'']| |]; cbn; [|done..].
    by destruct (take_next k it'') as [[]| |].
Qed.

Lemma take_next_frames ms buf pre :
  Forall raw_ok ms -> zlen (pre ++ concat (frame <$> ms) ++ buf) < 2 ^ 63 ->
  take_next (length ms) (mkIter (pre ++ concat (frame <$> ms) ++ buf) (zlen pre)) =
    Ret (Some <$> ms,
         mkIter (pre ++ concat (frame <$> ms) ++ buf) (zlen (pre ++ concat (frame <$> ms)))).
Proof.
  revert pre. induction ms as [|m ms IH]; intros pre Hok Hl; cbn [length take_next].
  - cbn. by rewrite app_nil_r.
  - apply Forall_cons in Hok as [Hm Hok]. cbn [fmap list_fmap concat] in *.
    rewrite <- !app_assoc in *. rewrite next_frame by done. cbn [mbind outcome_bind].
    rewrite (app_assoc pre) in *. rewrite IH by done. cbn [mbind outcome_bind].
    by rewrite <- !app_assoc.
Qed.

Lemma take_next_done pre tl k :
  buf_ok (pre ++ tl) -> incomplete tl ->
  take_next k (mkIter (pre ++ tl) (zlen pre)) = Ret (replicate k None, mkIter (pre ++ tl) (zlen pre)).
Proof.
  intros Hok Hi. induction k as [|k IH]; cbn [take_next]; [done|].
  rewrite next_incomplete by done. cbn [mbind outcome_bind]. by rewrite IH.
Qed.

Lemma splits_raw_ok buf ms rest : splits buf ms rest -> Forall raw_ok ms.
Proof. induction 1; constructor; auto. Qed.

Lemma splits_suffix ms1 ms2 rest :
  Forall raw_ok (ms1 ++ ms2) -> incomplete rest -> splits (concat (frame <$> ms2) ++ rest) ms2 rest.
Proof.
  intros Hok Hi. apply Forall_app in Hok as [_ Hok].
  induction Hok as [|m ms Hm _ IH]; cbn; [by constructor|]. rewrite <- app_assoc. by constructor.
Qed.

Lemma size_hint_after ms1 ms2 rest (buf := concat (frame <$> ms1 ++ ms2) ++ rest) :
  buf_ok buf -> splits buf (ms1 ++ ms2) rest ->
  exists it, take_next (length ms1) (into_iter (mkBuffer buf)) = Ret (Some <$> ms1, it) /\
    size_hint it = Ret (zlen ms2, Some (zlen ms2)).
Proof.
  intros Hok Hs. pose proof (splits_raw_ok _ _ _ Hs) as Hm.
  unfold buf in *. rewrite fmap_app, concat_app in *. rewrite <- app_assoc in *.
  eexists. split.
  - apply (take_next_frames ms1 _ []); [by apply Forall_app in Hm as []|apply Hok].
  - cbn [app]. unfold size_hint. cbn [mi_buffer mi_offset].
    pose proof (splits_suffix _ _ _ Hm (splits_rest _ _ _ Hs)) as Hs2.
    rewrite (size_hint_loop_splits _ _ _ Hs2); [done|done| |lia|].
    + apply splits_length in Hs2. rewrite !length_app in *. lia.
    + destruct Hok as [_ Hl]. rewrite !zlen_app in *. pose proof (zlen_nonneg (concat (frame <$> ms1))). lia.
Qed.

(** The first chunk of a stream gives a prefix of its frames. *)
Lemma splits_chunk buf c tail ms rest :
  buf_ok (buf ++ c ++ tail) -> splits (buf ++ c ++ tail) ms rest ->
  exists ms1 r1 ms2, ms = ms1 ++ ms2 /\ splits (buf ++ c) ms1 r1 /\ splits (r1 ++ tail) ms2 rest /\
    buf_ok (buf ++ c) /\ buf_ok (r1 ++ tail).
Proof.
  rewrite app_assoc. set (b := buf ++ c). intros Hok Hs.
  assert (Hok1 : buf_ok b).
  { destruct Hok as [Hb Hl]. apply Forall_app in Hb as [Hb _]. rewrite zlen_app in Hl.
    split; [done|]. pose proof (zlen_nonneg tail). lia. }
  destruct (splits_total b) as (ms1 & r1 & Hs1); [apply Hok1|].
  assert (Hok2 : buf_ok (r1 ++ tail)).
  { rewrite (splits_concat _ _ _ Hs1), <- app_assoc in Hok. destruct Hok as [Hb Hl].
    apply Forall_app in Hb as [_ Hb]. rewrite zlen_app in Hl. split; [done|].
    pose proof (zlen_nonneg (concat (frame <$> ms1))). lia. }
  destruct (splits_total (r1 ++ tail)) as (ms2 & r2 & Hs2); [apply Hok2|].
  destruct (splits_unique _ _ _ _ _ (splits_extend _ _ _ _ _ _ Hs1 Hs2) Hs) as [<- <-].
  by exists ms1, r1, ms2.
Qed.

Lemma decode_chunks_splits {T} (p : RawMessage -> outcome (option T)) chunks d ms rest :
  incomplete (inner (buffer d)) -> buf_ok (inner (buffer d) ++ concat chunks) ->
  splits (inner (buffer d) ++ concat chunks) ms rest ->
  decode_chunks d chunks p = (l ← collect p ms; Ret (l, mkDecoder (mkBuffer rest))).
Proof.
  revert d ms. induction chunks as [|c chunks IH]; intros d ms Hi Hok Hs; cbn [concat decode_chunks] in *.
  - rewrite app_nil_r in *. destruct (splits_unique _ _ _ _ _ (splits_done _ Hi) Hs) as [<- <-].
    by destruct d as [[]].
  - destruct (splits_chunk _ _ _ _ _ Hok Hs) as (ms1 & r1 & ms2 & -> & Hs1 & Hs2 & Hok1 & Hok2).
    rewrite (decode_splits d c p ms1 r1) by done.
    rewrite collect_app. destruct (collect p ms1) as [l| |]; cbn [mbind outcome_bind]; [|done..].
    rewrite (IH (mkDecoder (mkBuffer r1)) ms2) by (by apply splits_rest in Hs1 || done).
    by destruct (collect p ms2).
Qed.

Lemma decompress_gzip_spec gunzip data :
  decompress_gzip gunzip data =
    Ret (if bool_decide (20 <= zlen data /\ take 3 data = [0x1f; 0x8b; 0x08] /\
             le_value (drop (length data - 4) data) <= MAX_DECOMPRESSED_SIZE_BYTES)
         then gunzip data else None).
Proof.
  unfold decompress_gzip. destruct (Z.ltb_spec (zlen data) 20) as [|Hl].
  { rewrite bool_decide_false; [done|lia]. }
  destruct data as [|b0 [|b1 [|b2 data]]]; [unfold zlen in Hl; cbn [length] in Hl; lia..|].
  cbn [get_unchecked lookup list_lookup Z.to_nat Pos.to_nat Pos.iter_op Nat.add unchecked mbind outcome_bind].
  change (take 3 (b0 :: b1 :: b2 :: data)) with [b0; b1; b2].
  set (all := b0 :: b1 :: b2 :: data) in *.
  assert (R : get_offset_len_noubcheck all (zlen all - 4) 4 = Ret (drop (length all - 4) all)).
  { unfold zlen in Hl. rewrite <- (take_drop (length all - 4) all) at 1.
    rewrite <- (app_nil_r (drop _ _)) at 1.
    apply get_slice_at; unfold zlen; rewrite ?length_take, ?length_drop; lia. }
  change (get_unchecked all 0) with (Ret b0). change (get_unchecked all 1) with (Ret b1).
  change (get_unchecked all 2) with (Ret b2). cbn [mbind outcome_bind]. rewrite R.
  destruct (Z.eqb_spec b0 0x1f), (Z.eqb_spec b1 0x8b), (Z.eqb_spec b2 0x08); cbn [negb orb mbind outcome_bind];
    try (rewrite bool_decide_false; [done|intros (_ & [=] & _); congruence]).
  subst. rewrite Z.gtb_ltb. destruct (Z.ltb_spec MAX_DECOMPRESSED_SIZE_BYTES (le_value (drop (length all - 4) all))).
  - rewrite bool_decide_false; [done|]. intros (_ & _ & ?). lia.
  - rewrite bool_decide_true; [done|]. split_and!; [done|done|lia].
Qed.

(** ** Properties *)

(** C22: however the network cuts a stream into chunks, the decoder hands the
    processor the same frames in the same order and keeps the same pending
    bytes: the frames are the only way to split the bytes received, every byte
    of a whole frame is consumed, what is kept is an incomplete frame, and no
    unchecked read leaves the buffer. *)
Theorem decode_any_chunking {T} (p : RawMessage -> outcome (option T)) d stream :
  incomplete (inner (buffer d)) -> buf_ok (inner (buffer d) ++ stream) ->
  exists ms rest,
    inner (buffer d) ++ stream = concat (frame <$> ms) ++ rest /\
    Forall raw_ok ms /\ incomplete rest /\
    forall chunks, concat chunks = stream ->
      decode_chunks d chunks p = (l ← collect p ms; Ret (l, mkDecoder (mkBuffer rest))).
Proof.
  intros Hi Hok. destruct (splits_total _ (proj1 Hok)) as (ms & rest & Hs).
  exists ms, rest. split_and!; [by apply splits_concat|by eapply splits_raw_ok|by eapply splits_rest|].
  intros chunks <-. by apply decode_chunks_splits.
Qed.

Definition example_stream : bytes := [0;0;0;0;3;97;98;99; 0;0;0;0;2;120;121; 1;0;0].
Definition keep_data (m : RawMessage) : outcome (option bytes) := Ret (Some (rm_data m)).

Lemma decode_any_chunking_witness :
  (exists ms rest,
    [] ++ example_stream = concat (frame <$> ms) ++ rest /\
    Forall raw_ok ms /\ incomplete rest /\
    forall chunks, concat chunks = example_stream ->
      decode_chunks decoder_new chunks keep_data =
        (l ← collect keep_data ms; Ret (l, mkDecoder (mkBuffer rest)))) /\
  decode_chunks decoder_new [[0;0;0]; [0;3;97;98;99;0;0]; [0;0;2;120]; [121;1;0;0]] keep_data =
    Ret ([[97;98;99]; [120;121]], mkDecoder (mkBuffer [1;0;0])).
Proof.
  split; [|vm_compute; reflexivity].
  apply (decode_any_chunking keep_data decoder_new example_stream).
  - apply incomplete_nil.
  - split; [by_decision|vm_compute; reflexivity].
Defined.

(** The message iterator's length is exact at every point of the iteration,
    as [ExactSizeIterator] demands, it yields exactly the whole frames, and once
    it has answered [None] it answers [None] for ever, as [FusedIterator]
    demands. *)
Theorem iterator_exact_and_fused b :
  buf_ok (inner b) ->
  exists ms rest, splits (inner b) ms rest /\
    (forall ms1 ms2, ms = ms1 ++ ms2 ->
      exists it, take_next (length ms1) (into_iter b) = Ret (Some <$> ms1, it) /\
        size_hint it = Ret (zlen ms2, Some (zlen ms2))) /\
    (forall k, exists it,
      take_next (length ms + k) (into_iter b) = Ret ((Some <$> ms) ++ replicate k None, it) /\
      mi_offset it = zlen (inner b) - zlen rest).
Proof.
  intros Hok. destruct (splits_total _ (proj1 Hok)) as (ms & rest & Hs).
  pose proof (splits_concat _ _ _ Hs) as Hb. destruct b as [buf]. cbn [inner] in *.
  exists ms, rest. split_and!; [done| |].
  - intros ms1 ms2 ->. subst buf. by apply size_hint_after.
  - intros k. unfold into_iter. cbn [inner]. subst buf.
    pose proof (splits_raw_ok _ _ _ Hs). pose proof (splits_rest _ _ _ Hs).
    pose proof (take_next_frames ms rest [] ltac:(done) (proj2 Hok)) as E.
    cbn [app] in E. change (zlen []) with 0 in E.
    rewrite take_next_app, E. cbn [mbind outcome_bind]. rewrite take_next_done by done. cbn [mbind outcome_bind].
    eexists. split; [done|]. cbn. rewrite zlen_app. lia.
Qed.

Lemma iterator_exact_and_fused_witness :
  exists ms rest, splits example_stream ms rest /\
    (forall ms1 ms2, ms = ms1 ++ ms2 ->
      exists it, take_next (length ms1) (into_iter (mkBuffer example_stream)) = Ret (Some <$> ms1, it) /\
        size_hint it = Ret (zlen ms2, Some (zlen ms2))) /\
    (forall k, exists it,
      take_next (length ms + k) (into_iter (mkBuffer example_stream)) =
        Ret ((Some <$> ms) ++ replicate k None, it) /\
      mi_offset it = zlen example_stream - zlen rest).
Proof.
  apply (iterator_exact_and_fused (mkBuffer example_stream)).
  split; [by_decision|vm_compute; reflexivity].
Defined.
