(* ===== verification/ProtoEncode.v ===== *)
(** * Encoding protobuf messages into frames

    [src/src/common/utils/proto_encode.rs].  [prost] and [flate2] are the
    interfaces [Prost] and [Gzip] with the laws the code relies on: a message
    encodes to [encoded_len] bytes and decodes back, a gzip stream has the
    layout of RFC 1952 and inflates back.

    The framed encoder works in an uninitialised buffer: a cell is [option Z],
    [None] while it is uninitialised.  Reading an uninitialised cell, copying out
    of bounds and a false [assert_unchecked] are undefined behaviour ([Undef]);
    a [BufMut] slice that is too short panics.  The simple reference is
    [encode_message], which works on growing vectors. *)
From S2P Require Import Prelude GrpcStream.

(** ** Interfaces *)

Class Prost (M : Type) : Type := {
  encoded_len : M -> Z;
  encode_raw : M -> bytes;
  proto_decode : bytes -> option M;
}.

Class ProstLaws (M : Type) `{Prost M} : Prop := {
  encode_raw_length m : zlen (encode_raw m) = encoded_len m;
  encode_raw_bytes m : is_bytes (encode_raw m);
  decode_encode_raw m : proto_decode (encode_raw m) = Some m;
}.

Class Gzip : Type := {
  gz_encode : bytes -> bytes;
  gz_decode : bytes -> option bytes;
}.

Class GzipLaws `{Gzip} : Prop := {
  gz_bytes d : is_bytes d -> is_bytes (gz_encode d);
  gz_length d : 20 <= zlen (gz_encode d);
  gz_magic d : take 3 (gz_encode d) = [0x1f; 0x8b; 0x08];
  gz_isize d : le_value (drop (length (gz_encode d) - 4) (gz_encode d)) = zlen d mod 2 ^ 32;
  gz_decode_encode d : is_bytes d -> gz_decode (gz_encode d) = Some d;
}.

Inductive ExceedSizeLimit : Type := MkExceedSizeLimit.

Definition COMPRESSION_THRESHOLD : Z := 1024.

(** ** Uninitialised memory *)

Abbreviation cells := (list (option Z)) (only parsing).

(** [copy_nonoverlapping] of initialised bytes to offset [off]. *)
Definition copy_to (src : bytes) (off : nat) (buf : cells) : outcome cells :=
  if (off + length src <=? length buf)%nat
  then Ret (take off buf ++ (Some <$> src) ++ drop (off + length src) buf)
  else Undef.
(** Writes through the [&mut [u8]] of [len] cells at [off]: [BufMut] for slices
    panics when the slice is too short. *)
Definition put_slice (src : bytes) (off len : nat) (buf : cells) : outcome cells :=
  if (length src <=? len)%nat then copy_to src off buf else Panic.
(** Reading cells as bytes. *)
Definition assume_init (buf : cells) : outcome bytes := unchecked (mapM id buf).

Section Encode.
Context {M : Type} `{Prost M} `{Gzip}.

Definition compress_gzip (data : bytes) : bytes := gz_encode data.

Definition try_compress_if_beneficial (data : bytes) : option bytes :=
  if zlen data <=? COMPRESSION_THRESHOLD then None else
  let compressed := compress_gzip data in
  if zlen compressed <? zlen data then Some compressed else None.

Definition encode_message (message : M) : result ExceedSizeLimit (bytes * bool) :=
  let estimated_size := encoded_len message in
  if estimated_size >? MAX_DECOMPRESSED_SIZE_BYTES then Err MkExceedSizeLimit else
  let encoded := encode_raw message in
  match try_compress_if_beneficial encoded with
  | Some compressed => Ok (compressed, true)
  | None => Ok (encoded, false)
  end.

Definition encode_message_framed (message : M) : outcome (result ExceedSizeLimit bytes) :=
  let estimated_size := encoded_len message in
  if estimated_size >? MAX_DECOMPRESSED_SIZE_BYTES then Ret (Err MkExceedSizeLimit) else
  let n := Z.to_nat estimated_size in
  let buffer := replicate (5 + n) None in
  buffer ← put_slice (encode_raw message) 5 n buffer;
  body_slice ← assume_init (take n (drop 5 buffer));
  '(buffer, compression_flag, final_len) ←
    (match try_compress_if_beneficial body_slice with
     | Some compressed =>
         let compressed_len := zlen compressed in
         if compressed_len <? estimated_size then
           buffer ← copy_to compressed 5 buffer;
           Ret (take (5 + length compressed) buffer, 1, compressed_len)
         else Undef
     | None => Ret (buffer, 0, estimated_size)
     end : outcome (cells * Z * Z));
  buffer ← copy_to [compression_flag] 0 buffer;
  let len_bytes := be_bytes 4 (wrap 32 final_len) in
  buffer ← copy_to len_bytes 1 buffer;
  out ← assume_init buffer;
  Ret (Ok out).
End Encode.

(** ** Lemmas *)

Lemma assume_init_Some l : assume_init (Some <$> l) = Ret l.
Proof.
  unfold assume_init. replace (mapM id (Some <$> l)) with (Some l); [done|].
  induction l as [|x l IH]; cbn; [done|]. by rewrite <- IH.
Qed.

Lemma copy_to_at pre mid post src :
  length mid = length src ->
  copy_to src (length pre) (pre ++ mid ++ post) = Ret (pre ++ (Some <$> src) ++ post).
Proof.
  intros Hl. unfold copy_to. rewrite !length_app.
  rewrite (proj2 (Nat.leb_le _ _)) by lia. rewrite take_app_length.
  rewrite (app_assoc pre mid), drop_app_length' by (rewrite length_app; lia). done.
Qed.

Section EncodeLemmas.
Context {M : Type} `{HP : Prost M} `{HG : Gzip}.

Lemma try_compress_smaller data c :
  try_compress_if_beneficial data = Some c ->
  c = gz_encode data /\ COMPRESSION_THRESHOLD < zlen data /\ zlen c < zlen data.
Proof.
  unfold try_compress_if_beneficial, compress_gzip.
  destruct (Z.leb_spec (zlen data) COMPRESSION_THRESHOLD); [done|].
  destruct (Z.ltb_spec (zlen (gz_encode data)) (zlen data)); [|done]. by intros [= <-].
Qed.

Lemma write_header flag len (h0 h1 h2 h3 h4 : option Z) body :
  0 <= len < 2 ^ 32 ->
  (buffer ← copy_to [flag] 0 ([h0; h1; h2; h3; h4] ++ (Some <$> body));
   buffer ← copy_to (be_bytes 4 (wrap 32 len)) 1 buffer;
   out ← assume_init buffer; Ret (Ok out : result ExceedSizeLimit bytes)) =
  Ret (Ok (flag :: be_bytes 4 len ++ body)).
Proof.
  intros Hl. change ([h0; h1; h2; h3; h4] ++ (Some <$> body))
    with ([] ++ [h0] ++ ([h1; h2; h3; h4] ++ (Some <$> body))).
  pose proof (copy_to_at [] [h0] ([h1; h2; h3; h4] ++ (Some <$> body)) [flag] eq_refl) as E.
  cbn [length] in E. rewrite E. cbn [mbind outcome_bind].
  rewrite wrap_small by done.
  pose proof (copy_to_at [Some flag] [h1; h2; h3; h4] (Some <$> body) (be_bytes 4 len) eq_refl) as E2.
  change ([] ++ (Some <$> [flag]) ++ [h1; h2; h3; h4] ++ (Some <$> body))
    with ([Some flag] ++ [h1; h2; h3; h4] ++ (Some <$> body)).
  cbn [length] in E2. rewrite E2. cbn [mbind outcome_bind].
  replace ([Some flag] ++ (Some <$> be_bytes 4 len) ++ (Some <$> body))
    with (Some <$> (flag :: be_bytes 4 len ++ body)) by (by rewrite fmap_cons, fmap_app).
  by rewrite assume_init_Some.
Qed.

Lemma fill_body (enc : bytes) :
  put_slice enc 5 (length enc) (replicate (5 + length enc) None) =
    Ret (replicate 5 None ++ (Some <$> enc)).
Proof.
  unfold put_slice. rewrite Nat.leb_refl, replicate_add.
  pose proof (copy_to_at (replicate 5 None) (replicate (length enc) None) [] enc) as E.
  rewrite !app_nil_r in E. apply E, length_replicate.
Qed.

Lemma overwrite_body (enc c : bytes) :
  (length c <= length enc)%nat ->
  copy_to c 5 (replicate 5 None ++ (Some <$> enc)) =
    Ret (replicate 5 None ++ (Some <$> (c ++ drop (length c) enc))).
Proof.
  intros Hl. rewrite <- (take_drop (length c) enc) at 1. rewrite !fmap_app.
  pose proof (copy_to_at (replicate 5 None) (Some <$> take (length c) enc)
    (Some <$> drop (length c) enc) c) as E.
  apply E. rewrite length_fmap, length_take. lia.
Qed.

Lemma framed_encode `{!ProstLaws M} (m : M) :
  encode_message_framed m =
    Ret (match encode_message m with
         | Err e => Err e
         | Ok (payload, c) => Ok (frame (mkRawMessage (if c : bool then 1 else 0) payload))
         end).
Proof.
  unfold encode_message_framed, encode_message. rewrite <- encode_raw_length.
  set (enc := encode_raw m). rewrite Z.gtb_ltb.
  destruct (Z.ltb_spec MAX_DECOMPRESSED_SIZE_BYTES (zlen enc)) as [|Hs]; [done|].
  unfold MAX_DECOMPRESSED_SIZE_BYTES in Hs. pose proof (zlen_nonneg enc).
  replace (Z.to_nat (zlen enc)) with (length enc) by (unfold zlen; lia).
  rewrite fill_body. cbn [mbind outcome_bind].
  change (drop 5 (replicate 5 None ++ (Some <$> enc))) with (Some <$> enc).
  rewrite take_ge by (by rewrite length_fmap). rewrite assume_init_Some. cbn [mbind outcome_bind].
  destruct (try_compress_if_beneficial enc) as [c|] eqn:E.
  - apply try_compress_smaller in E as (_ & _ & Hc). rewrite (proj2 (Z.ltb_lt _ _)) by done.
    pose proof (zlen_nonneg c). rewrite overwrite_body by (unfold zlen in *; lia).
    cbn [mbind outcome_bind]. rewrite fmap_app, app_assoc.
    rewrite take_app_length' by (by rewrite length_app, length_replicate, length_fmap).
    change (replicate 5 None) with [@None Z; None; None; None; None].
    rewrite (write_header 1 (zlen c)) by lia. done.
  - cbn [mbind outcome_bind]. change (replicate 5 None) with [@None Z; None; None; None; None].
    rewrite (write_header 0 (zlen enc)) by lia. done.
Qed.

Lemma payload_ok `{!ProstLaws M} `{!GzipLaws} (m : M) payload c :
  encode_message m = Ok (payload, c) ->
  raw_ok (mkRawMessage (if c : bool then 1 else 0) payload) /\
  zlen payload <= zlen (encode_raw m) /\
  default_processor gz_decode proto_decode (mkRawMessage (if c then 1 else 0) payload) = Ret (Some m).
Proof.
  unfold encode_message. rewrite <- encode_raw_length, Z.gtb_ltb. pose proof (encode_raw_bytes m) as Hb.
  destruct (Z.ltb_spec MAX_DECOMPRESSED_SIZE_BYTES (zlen (encode_raw m))) as [|Hs]; [done|].
  assert (Hmod : zlen (encode_raw m) mod 2 ^ 32 = zlen (encode_raw m)).
  { apply Z.mod_small. pose proof (zlen_nonneg (encode_raw m)). unfold MAX_DECOMPRESSED_SIZE_BYTES in Hs. lia. }
  unfold raw_ok, default_processor, decode_compressed_message. cbn [rm_type rm_data].
  destruct (try_compress_if_beneficial (encode_raw m)) as [z|] eqn:E; intros [= <- <-].
  - apply try_compress_smaller in E as (-> & _ & Hc). unfold MAX_DECOMPRESSED_SIZE_BYTES in Hs.
    split_and!; [done|by apply gz_bytes|lia|lia|]. cbn [Z.eqb Pos.eqb].
    rewrite decompress_gzip_spec, bool_decide_true.
    + rewrite gz_decode_encode by done. cbn. unfold decode_message. by rewrite decode_encode_raw.
    + rewrite gz_isize, Hmod. split_and!; [apply gz_length|apply gz_magic|done].
  - unfold MAX_DECOMPRESSED_SIZE_BYTES in Hs. split_and!; [done|done|lia|lia|].
    cbn. unfold decode_message. by rewrite decode_encode_raw.
Qed.
End EncodeLemmas.

(** ** Properties *)

(** The framed encoder, which fills, compresses and patches one
    uninitialised buffer in place, returns exactly the frame of what the simple
    encoder returns: it never reads an uninitialised byte, writes out of bounds
    or breaks its [assert_unchecked], and it refuses the same messages. *)
Theorem framed_encoder_agrees {M} `{HP : Prost M, !ProstLaws M, HG : Gzip} (m : M) :
  encode_message_framed m =
    Ret (match encode_message m with
         | Err e => Err e
         | Ok (payload, c) => Ok (frame (mkRawMessage (if c : bool then 1 else 0) payload))
         end).
Proof. apply framed_encode. Qed.

Lemma collect_sent {M} `{HP : Prost M, !ProstLaws M, HG : Gzip, !GzipLaws} (ms : list M) frames :
  Forall2 (fun m f => encode_message_framed m = Ret (Ok f)) ms frames ->
  exists raws, frames = frame <$> raws /\ Forall raw_ok raws /\
    collect (default_processor gz_decode proto_decode) raws = Ret ms.
Proof.
  induction 1 as [|m f ms frames Hf _ (raws & -> & Hok & Hc)]; [by exists []|].
  rewrite framed_encode in Hf. destruct (encode_message m) as [[payload c]|] eqn:E; [|done].
  injection Hf as <-. destruct (payload_ok m payload c E) as (Hr & _ & Hp).
  exists (mkRawMessage (if c then 1 else 0) payload :: raws). split_and!; [done|by constructor|].
  cbn [collect]. rewrite Hp. cbn [mbind outcome_bind]. by rewrite Hc.
Qed.

(** C23: sending messages and receiving them is the identity: the frames of any
    sequence of messages the encoder accepts, concatenated and cut into chunks
    anywhere, decode to the same messages in the same order, compressed or not,
    and leave nothing pending. *)
Theorem stream_roundtrip {M} `{HP : Prost M, !ProstLaws M, HG : Gzip, !GzipLaws}
    (ms : list M) frames chunks :
  Forall2 (fun m f => encode_message_framed m = Ret (Ok f)) ms frames ->
  concat chunks = concat frames -> zlen (concat frames) < 2 ^ 63 ->
  decode_chunks decoder_new chunks (default_processor gz_decode proto_decode) = Ret (ms, decoder_new).
Proof.
  intros Hf Hc Hl. destruct (collect_sent ms frames Hf) as (raws & -> & Hok & Hcol).
  rewrite (decode_chunks_splits _ chunks decoder_new raws []).
  - by rewrite Hcol.
  - apply incomplete_nil.
  - split; cbn [app inner buffer decoder_new buffer_new]; rewrite Hc; [|done].
    by apply frames_bytes.
  - cbn [app inner buffer decoder_new buffer_new]. rewrite Hc. by apply splits_frames.
Qed.

(** ** A concrete codec

    Messages are bit lists, one byte a bit; the compressor knows one trick, runs
    of zeros, and lays its output out as RFC 1952 does. *)
Definition bit_byte (b : bool) : Z := if b then 1 else 0.
Definition byte_bit (z : Z) : option bool :=
  if z =? 0 then Some false else if z =? 1 then Some true else None.
#[local] Instance bits_prost : Prost (list bool) := {
  encoded_len m := zlen m;
  encode_raw m := bit_byte <$> m;
  proto_decode := mapM byte_bit;
}.
#[local] Instance bits_laws : ProstLaws (list bool).
Proof.
  split; intros m.
  - cbn. unfold zlen. by rewrite length_fmap.
  - apply Forall_fmap, Forall_true. by intros [].
  - cbn. induction m as [|[] m IH]; cbn; [done|by rewrite IH..].
Qed.

Definition short_zeros (d : bytes) : bool :=
  bool_decide (d = replicate (length d) 0) && (zlen d <? 2 ^ 32).
#[local] Instance zeros_gzip : Gzip := {
  gz_encode d := [0x1f; 0x8b; 0x08] ++ replicate 12 0 ++
    (if short_zeros d then [1] else 0 :: d) ++ le_bytes 4 (zlen d);
  gz_decode g :=
    match drop 15 g with
    | 1 :: footer => Some (replicate (Z.to_nat (le_value footer)) 0)
    | 0 :: rest => Some (take (length rest - 4) rest)
    | _ => None
    end;
}.
#[local] Instance zeros_laws : GzipLaws.
Proof.
  split; intros d.
  - intros Hd. cbn [gz_encode zeros_gzip]. repeat apply Forall_app_2; [by_decision|by_decision| |apply le_bytes_u8].
    destruct (short_zeros d); [by_decision|]. by constructor.
  - cbn [gz_encode zeros_gzip]. rewrite !zlen_app. pose proof (zlen_nonneg d).
    unfold zlen at 1 2 4. rewrite length_replicate, length_le_bytes.
    destruct (short_zeros d); unfold zlen in *; cbn [length]; lia.
  - done.
  - cbn [gz_encode zeros_gzip]. rewrite !app_assoc, drop_app_length'
      by (rewrite (length_app _ (le_bytes _ _)), length_le_bytes; lia).
    by rewrite le_value_le_bytes.
  - intros Hd. cbn [gz_encode gz_decode zeros_gzip].
    change (drop 15 ([0x1f; 0x8b; 0x08] ++ replicate 12 0 ++ ?l)) with l.
    destruct (short_zeros d) eqn:E.
    + apply andb_true_iff in E as [Ez Hl]. apply bool_decide_eq_true in Ez.
      change ([1] ++ le_bytes 4 (zlen d)) with (1 :: le_bytes 4 (zlen d)). cbv iota beta.
      rewrite le_value_le_bytes, Z.mod_small by (pose proof (zlen_nonneg d); lia).
      unfold zlen. by rewrite Nat2Z.id, <- Ez.
    + change ((0 :: d) ++ le_bytes 4 (zlen d)) with (0 :: (d ++ le_bytes 4 (zlen d))). cbv iota beta.
      rewrite take_app_length' by (rewrite length_app, length_le_bytes; lia). done.
Qed.

Definition long_message : list bool := replicate 1100 false.
Definition short_message : list bool := [true; false; true].
Definition sent (m : list bool) : bytes :=
  match encode_message_framed m with Ret (Ok f) => f | _ => [] end.
Definition example_frames : list bytes := [sent long_message; sent short_message].

Lemma framed_encoder_agrees_witness :
  encode_message_framed short_message =
    Ret (match encode_message short_message with
         | Err e => Err e
         | Ok (payload, c) => Ok (frame (mkRawMessage (if c : bool then 1 else 0) payload))
         end) /\
  encode_message_framed short_message = Ret (Ok [0; 0;0;0;3; 1;0;1]).
Proof. split; [apply (framed_encoder_agrees short_message)|vm_compute; reflexivity]. Defined.

Lemma stream_roundtrip_witness :
  zlen (sent long_message) = 25 /\
  decode_chunks decoder_new [take 7 (concat example_frames); drop 7 (concat example_frames)]
    (default_processor gz_decode proto_decode) = Ret ([long_message; short_message], decoder_new).
Proof.
  split; [vm_compute; reflexivity|].
  apply (stream_roundtrip [long_message; short_message] example_frames).
  - repeat constructor.
  - cbn [concat]. by rewrite app_nil_r, take_drop.
  - vm_compute. reflexivity.
Defined.
