(* ===== verification/ResponseDecoder.v ===== *)
(** * The decoder of streamed answers and its clients

    [src/src/core/stream/decoder.rs] and [decoder/utils.rs], the tool identifiers
    of [src/src/core/model/tool_id_parser.rs], and the two ways in which
    [src/src/core/service.rs] drives the decoder: [collect_all] for an answer given
    at once, [serve] for a streamed one, which tells whether the stream hangs:
    for a short chunk the source locks the decoder while it holds it.

    The decoder sits above the frames of [GrpcStream].  The protobuf and JSON
    decoders and the inflater are the parameters [decode_wrapper], [cursor_error]
    and [gunzip]; a [String] is the list of its UTF-8 bytes.  The clock is the
    argument [delay]: the seconds (an [f32] pattern) before the [n]-th content
    message.  [ContentStart] exists in test builds only.

    [str::get_unchecked] at an offset that is not a character boundary is
    undefined behaviour ([Undef]).  The loop over the frames has the fuel of
    [GrpcStream.decode_loop]. *)
From S2P Require Import Prelude StringBuilder GrpcStream.

(** ** Messages *)

Record WebReference : Type := mkWebReference { title : string; url : string; chunk : string }.

Inductive Thinking : Type :=
| ThinkingText (s : string)
| ThinkingSignature (s : string)
| RedactedThinking (s : string).

Record ToolCall : Type := mkToolCall { tc_id : string; tc_name : string; tc_input : string }.

Inductive StreamMessage : Type :=
| MWebReference (refs : list WebReference)
| MThinking (t : Thinking)
| MContent (s : string)
| MToolCall (c : ToolCall)
| MStreamEnd.

(** The protobuf messages, as far as the decoder reads them. *)
Record McpTool : Type := mkMcpTool { mt_name : string }.
Record ClientSideToolV2Call : Type := mkCall
  { tool_call_id : string; is_streaming : bool; is_last_message : bool; raw_args : string;
    model_call_id : option string; mcp_tools : option (list McpTool) }.
Record ProtoThinking : Type := mkProtoThinking
  { pt_text : string; pt_signature : string; pt_redacted_thinking : string }.
Record StreamUnifiedChatResponse : Type := mkChatResponse
  { text : string; web_citation : option (list WebReference); thinking : option ProtoThinking }.
Inductive Response : Type :=
| RToolCall (c : ClientSideToolV2Call)
| RChat (r : StreamUnifiedChatResponse).

(** [From<conversation_message::Thinking>]. *)
Definition thinking_into (t : ProtoThinking) : Thinking :=
  if negb (String.eqb (pt_text t) EmptyString) then ThinkingText (pt_text t)
  else if negb (String.eqb (pt_signature t) EmptyString) then ThinkingSignature (pt_signature t)
  else if negb (String.eqb (pt_redacted_thinking t) EmptyString)
       then RedactedThinking (pt_redacted_thinking t)
  else ThinkingText (pt_text t).

Definition newline : string := from_bytes [10].

(** The parts one web reference adds, with the number it gets. *)
Definition web_ref_parts (i : nat) (r : WebReference) : list Cow :=
  [COwned (to_dec (Z.of_nat (i + 1))); CBorrowed ". ["; CBorrowed (title r); CBorrowed "](";
   CBorrowed (url r); CBorrowed ")<"; CBorrowed (chunk r); CBorrowed (">" +:+ newline)].
Fixpoint append_web_refs (b : StringBuilder) (i : nat) (refs : list WebReference)
    : outcome StringBuilder :=
  match refs with
  | [] => Ret b
  | r :: refs => b ← append_all b (web_ref_parts i r); append_web_refs b (S i) refs
  end.

Definition convert_web_ref_to_content (msg : StreamMessage) : outcome StreamMessage :=
  match msg with
  | MWebReference [] => Ret (MContent EmptyString)
  | MWebReference refs =>
      b ← append builder_new (CBorrowed ("WebReferences:" +:+ newline));
      b ← append_web_refs b 0 refs;
      b ← append b (CBorrowed newline);
      s ← build b;
      Ret (MContent s)
  | other => Ret other
  end.

(** ** Tool identifiers *)

Definition TOOL_DELIMITER : string := newline +:+ "mc_".
Definition tool_id_format (tool_call_id : string) (model_call_id : option string) : string :=
  match model_call_id with
  | Some m => tool_call_id +:+ TOOL_DELIMITER +:+ m
  | None => tool_call_id
  end.

(** ** Tool calls *)

(** The scan of [has_space_after_separator]. *)
Fixpoint scan_separator (in_string : bool) (json : bytes) : bool :=
  match json with
  | [] => false
  | byte :: rest =>
      if in_string then
        if byte =? 92 then match rest with [] => false | _ :: rest => scan_separator true rest end
        else scan_separator (negb (byte =? 34)) rest
      else
        if byte =? 34 then scan_separator true rest
        else if (byte =? 58) || (byte =? 44) then
          match rest with [] => false | next :: _ => next =? 32 end
        else scan_separator false rest
  end.
Definition has_space_after_separator (json : bytes) : bool := scan_separator false json.

(** [str::is_char_boundary] and [str::get_unchecked(i..)]. *)
Definition is_continuation (b : Z) : bool := (128 <=? b) && (b <? 192).
Definition is_char_boundary (s : bytes) (i : nat) : bool :=
  (i =? 0)%nat || (i =? length s)%nat ||
  match s !! i with Some b => negb (is_continuation b) | None => false end.
Definition str_get_unchecked_from (s : bytes) (i : nat) : outcome bytes :=
  if is_char_boundary s i then Ret (drop i s) else Undef.

Definition INCREMENTAL_COPY_THRESHOLD : nat := 64.

(** [ptr::copy] of [count] bytes at [from] to the front, then [set_len]. *)
Definition move_to_front (v : bytes) (from count : nat) : bytes :=
  take count (take count (drop from v) ++ drop count v).

Record Context : Type := mkContext { raw_args_len : nat; processed : bool }.

Definition handle_tool_call (response : ClientSideToolV2Call) (ctx : Context)
    : outcome (option StreamMessage * Context) :=
  let finish (result : option string) (ctx : Context) :=
    let id := tool_id_format (tool_call_id response) (model_call_id response) in
    let name := default EmptyString (tools ← mcp_tools response; tool ← head tools; Some (mt_name tool)) in
    Ret ((fun input => MToolCall (mkToolCall id name input)) <$> result, ctx) in
  let processed' := is_last_message response || processed ctx in
  let args_bytes := as_bytes (raw_args response) in
  if is_streaming response then
    if negb (has_space_after_separator args_bytes) then Ret (None, ctx) else
    let len := length args_bytes in
    match Nat.compare len (raw_args_len ctx) with
    | Gt =>
        args ← str_get_unchecked_from args_bytes (raw_args_len ctx);
        let input :=
          if (INCREMENTAL_COPY_THRESHOLD <? length args)%nat
          then move_to_front args_bytes (raw_args_len ctx) (len - raw_args_len ctx)
          else args in
        finish (Some (from_bytes input)) (mkContext len processed')
    | Eq => Ret (None, ctx)
    | Lt => finish None (mkContext (raw_args_len ctx) processed')
    end
  else finish (Some (raw_args response)) (mkContext (raw_args_len ctx) true).

(** ** The decoder *)

Record StreamDecoder : Type := mkStreamDecoder
  { sd_buffer : Buffer; first_result : option (list StreamMessage);
    content_delays : option (string * list (Z * Z)); thinking_content : option string;
    context : Context; empty_stream_count : Z;
    first_result_ready : bool; first_result_taken : bool; has_seen_content : bool }.

Definition stream_decoder_new : StreamDecoder :=
  mkStreamDecoder buffer_new None None None (mkContext 0 false) 0 false false false.

Definition no_first_cache (d : StreamDecoder) : StreamDecoder :=
  mkStreamDecoder (sd_buffer d) (first_result d) (content_delays d) (thinking_content d) (context d)
    (empty_stream_count d) true true (has_seen_content d).

Definition get_empty_stream_count (d : StreamDecoder) : Z := empty_stream_count d.
Definition is_first_result_ready (d : StreamDecoder) : bool := first_result_ready d.
Definition is_tool_processed (d : StreamDecoder) : bool := processed (context d).

Definition take_first_result (d : StreamDecoder) : option (list StreamMessage) * StreamDecoder :=
  if negb (buffer_is_empty (sd_buffer d)) then (None, d) else
  (first_result d,
   mkStreamDecoder (sd_buffer d) None (content_delays d) (thinking_content d) (context d)
     (empty_stream_count d) (first_result_ready d)
     (match first_result d with Some _ => true | None => first_result_taken d end)
     (has_seen_content d)).

Definition take_content_delays (d : StreamDecoder) : option (string * list (Z * Z)) * StreamDecoder :=
  (content_delays d,
   mkStreamDecoder (sd_buffer d) (first_result d) None (thinking_content d) (context d)
     (empty_stream_count d) (first_result_ready d) (first_result_taken d) (has_seen_content d)).
Definition take_thinking_content (d : StreamDecoder) : option string * StreamDecoder :=
  (thinking_content d,
   mkStreamDecoder (sd_buffer d) (first_result d) (content_delays d) None (context d)
     (empty_stream_count d) (first_result_ready d) (first_result_taken d) (has_seen_content d)).

(** Functional updates of the fields [decode] writes. *)
Definition set_buffer (b : Buffer) (d : StreamDecoder) : StreamDecoder :=
  mkStreamDecoder b (first_result d) (content_delays d) (thinking_content d) (context d)
    (empty_stream_count d) (first_result_ready d) (first_result_taken d) (has_seen_content d).
Definition set_count (n : Z) (d : StreamDecoder) : StreamDecoder :=
  mkStreamDecoder (sd_buffer d) (first_result d) (content_delays d) (thinking_content d) (context d)
    n (first_result_ready d) (first_result_taken d) (has_seen_content d).
Definition set_context (c : Context) (d : StreamDecoder) : StreamDecoder :=
  mkStreamDecoder (sd_buffer d) (first_result d) (content_delays d) (thinking_content d) c
    (empty_stream_count d) (first_result_ready d) (first_result_taken d) (has_seen_content d).
Definition set_first (r : option (list StreamMessage)) (ready : bool) (d : StreamDecoder) : StreamDecoder :=
  mkStreamDecoder (sd_buffer d) r (content_delays d) (thinking_content d) (context d)
    (empty_stream_count d) ready (first_result_taken d) (has_seen_content d).
Definition set_delays (c : option (string * list (Z * Z))) (d : StreamDecoder) : StreamDecoder :=
  mkStreamDecoder (sd_buffer d) (first_result d) c (thinking_content d) (context d)
    (empty_stream_count d) (first_result_ready d) (first_result_taken d) (has_seen_content d).
Definition set_thinking (t : option string) (d : StreamDecoder) : StreamDecoder :=
  mkStreamDecoder (sd_buffer d) (first_result d) (content_delays d) t (context d)
    (empty_stream_count d) (first_result_ready d) (first_result_taken d) (has_seen_content d).
Definition set_seen (d : StreamDecoder) : StreamDecoder :=
  mkStreamDecoder (sd_buffer d) (first_result d) (content_delays d) (thinking_content d) (context d)
    (empty_stream_count d) (first_result_ready d) (first_result_taken d) true.

Definition reset_empty_stream_count (d : StreamDecoder) : StreamDecoder :=
  if empty_stream_count d >? 0 then set_count 0 d else d.

(** [content.chars().count()]. *)
Definition chars_count (s : string) : Z := zlen (filter (fun b => is_continuation b = false) (as_bytes s)).

(** What [decode] notes about a message before it is converted. *)
Definition note_message (delay : nat -> Z) (msg : StreamMessage) (d : StreamDecoder) : outcome StreamDecoder :=
  match msg with
  | MContent content =>
      let d := set_seen d in
      '(s, l) ← unwrap (content_delays d);
      Ret (set_delays (Some (s +:+ content, l ++ [(wrap 32 (chars_count content), delay (length l))])) d)
  | MThinking (ThinkingText t) =>
      Ret (set_thinking (Some (default EmptyString (thinking_content d) +:+ t)) d)
  | _ => Ret d
  end.

Section Decoder.
Context {E : Type} (gunzip : bytes -> option bytes).
Context (decode_wrapper : bytes -> option (option Response)) (cursor_error : bytes -> option E).
Context (delay : nat -> Z).

Inductive StreamError : Type := Upstream (e : E) | EmptyStream.

Definition handle_text_message (msg_data : bytes) (ctx : Context)
    : outcome (option StreamMessage * Context) :=
  match decode_wrapper msg_data with
  | Some (Some (RToolCall response)) => handle_tool_call response ctx
  | Some (Some (RChat response)) =>
      Ret (if negb (String.eqb (text response) EmptyString) then Some (MContent (text response))
           else match thinking response with
                | Some t => Some (MThinking (thinking_into t))
                | None => MWebReference <$> web_citation response
                end, ctx)
  | _ => Ret (None, ctx)
  end.

Definition handle_json_message (msg_data : bytes) : result StreamError (option StreamMessage) :=
  if (length msg_data =? 2)%nat then Ok (Some MStreamEnd) else
  match cursor_error msg_data with Some error => Err (Upstream error) | None => Ok None end.

Definition process_message (raw_msg : RawMessage) (ctx : Context)
    : outcome (result StreamError (option StreamMessage) * Context) :=
  let is_compressed := negb (Z.land (rm_type raw_msg) 1 =? 0) in
  let t := Z.shiftr (rm_type raw_msg) 1 in
  msg_data ← (if is_compressed then decompress_gzip gunzip (rm_data raw_msg)
              else Ret (Some (rm_data raw_msg)));
  match msg_data with
  | None => Ret (Ok None, ctx)
  | Some msg_data =>
      if t =? 0 then '(m, ctx) ← handle_text_message msg_data ctx; Ret (Ok m, ctx)
      else if t =? 1 then Ret (handle_json_message msg_data, ctx)
      else Ret (Ok None, ctx)
  end.

(** The [while let] loop of [decode]. *)
Fixpoint decode_frames (fuel : nat) (convert_web_ref : bool) (it : MessageIter) (d : StreamDecoder)
    (messages : list StreamMessage)
    : outcome (result StreamError (list StreamMessage * MessageIter) * StreamDecoder) :=
  match fuel with
  | O => Undef
  | S fuel =>
      '(item, it) ← next it;
      match item with
      | None => Ret (Ok (messages, it), d)
      | Some raw_msg =>
          if (length (rm_data raw_msg) =? 0)%nat then decode_frames fuel convert_web_ref it d messages
          else if processed (context d) then decode_frames fuel convert_web_ref it d messages
          else
            '(r, ctx) ← process_message raw_msg (context d);
            let d := set_context ctx d in
            match r with
            | Err e => Ret (Err e, d)
            | Ok None => decode_frames fuel convert_web_ref it d messages
            | Ok (Some msg) =>
                d ← note_message delay msg d;
                msg ← (if convert_web_ref then convert_web_ref_to_content msg else Ret msg);
                let messages := messages ++ [msg] in
                let messages := if processed (context d) then messages ++ [MStreamEnd] else messages in
                decode_frames fuel convert_web_ref it d messages
            end
      end
  end.

(** The end of [decode]: what is kept for the first result and what is given. *)
Definition cache_first (messages : list StreamMessage) (d : StreamDecoder)
    : list StreamMessage * StreamDecoder :=
  let '(messages, first) :=
    if negb (first_result_taken d) && negb (length messages =? 0)%nat then
      match first_result d with
      | None => ([], Some messages)
      | Some first =>
          if negb (first_result_ready d) then ([], Some (first ++ messages))
          else (messages, Some first)
      end
    else (messages, first_result d) in
  let ready :=
    if negb (first_result_ready d)
    then bool_decide (is_Some first) && negb (first_result_taken d) && has_seen_content d
    else first_result_ready d in
  (messages, set_first first ready d).

Definition decode (d : StreamDecoder) (data : bytes) (convert_web_ref : bool)
    : outcome (result StreamError (list StreamMessage) * StreamDecoder) :=
  let empty := (length data =? 0)%nat in
  let d := if empty then d else set_buffer (extend_from_slice (sd_buffer d) data) d in
  if empty || (buffer_len (sd_buffer d) <? 5) then
    Ret (Err EmptyStream, set_count (wrap 64 (empty_stream_count d + 1)) d)
  else
    let d := reset_empty_stream_count d in
    let iter := into_iter (sd_buffer d) in
    _ ← iter_len iter;
    let d := match content_delays d with
             | Some _ => d
             | None => set_delays (Some (EmptyString, [])) d
             end in
    '(r, d) ← decode_frames (S (length (inner (sd_buffer d)))) convert_web_ref iter d [];
    match r with
    | Err e => Ret (Err e, d)
    | Ok (messages, iter) =>
        b ← buffer_advance (sd_buffer d) (mi_offset iter);
        let '(messages, d) := cache_first messages (set_buffer b d) in
        Ret (Ok messages, d)
    end.

(** ** The clients *)

(** The answer given at once: [while let Some(chunk)]; an empty stream is only
    reported on the console, an upstream error ends the request. *)
Fixpoint collect_all (d : StreamDecoder) (convert_web_ref : bool) (chunks : list bytes)
    : outcome (result E (list StreamMessage) * StreamDecoder) :=
  match chunks with
  | [] => Ret (Ok [], d)
  | c :: chunks =>
      '(r, d) ← decode d c convert_web_ref;
      match r with
      | Ok messages =>
          '(r', d) ← collect_all d convert_web_ref chunks;
          Ret (match r' with Ok l => Ok (messages ++ l) | Err e => Err e end, d)
      | Err EmptyStream => collect_all d convert_web_ref chunks
      | Err (Upstream e) => Ret (Err e, d)
      end
  end.

Inductive Failure : Type := FUpstream (e : E) | FNoResponse.

(** The streamed answer, before the response starts: chunks are decoded until the
    first result is ready. *)
Fixpoint first_phase (d : StreamDecoder) (convert_web_ref : bool) (chunks : list bytes)
    : outcome (result Failure (StreamDecoder * list bytes)) :=
  if is_first_result_ready d then Ret (Ok (d, chunks)) else
  match chunks with
  | [] => Ret (Err FNoResponse)
  | c :: chunks =>
      '(r, d) ← decode d c convert_web_ref;
      match r with
      | Err (Upstream e) => Ret (Err (FUpstream e))
      | _ => first_phase d convert_web_ref chunks
      end
  end.

(** What the response carries: messages, or the text of an upstream error. *)
Inductive Emitted : Type := EMessage (m : StreamMessage) | EError (e : E).

(** [process_messages] stops behind the end of the stream. *)
Fixpoint upto_end (l : list StreamMessage) : list StreamMessage :=
  match l with
  | [] => []
  | MStreamEnd :: _ => [MStreamEnd]
  | m :: l => m :: upto_end l
  end.
Definition is_end_message (m : StreamMessage) : bool := match m with MStreamEnd => true | _ => false end.

(** The later chunks, until the stream is dropped because its end was written; and
    whether the stream hangs.  The guard of [decoder.lock().await.decode(..)] lives
    as long as the [match] on its result, and the arm of an empty stream takes the
    lock again: it waits for itself, and nothing is given from then on. *)
Fixpoint later_chunks (d : StreamDecoder) (convert_web_ref is_end : bool) (chunks : list bytes)
    : outcome (list Emitted * bool) :=
  match chunks with
  | [] => Ret ([], false)
  | c :: chunks =>
      '(r, d) ← decode d c convert_web_ref;
      match r with
      | Ok messages =>
          let '(first, d) := take_first_result d in
          let out := upto_end (default [] first) ++ upto_end messages in
          if is_end || existsb is_end_message out then Ret (EMessage <$> out, false) else
          '(l, hangs) ← later_chunks d convert_web_ref is_end chunks;
          Ret ((EMessage <$> out) ++ l, hangs)
      | Err EmptyStream => Ret ([], true)
      | Err (Upstream e) =>
          '(l, hangs) ← later_chunks d convert_web_ref true chunks;
          Ret (EError e :: l, hangs)
      end
  end.

Definition serve (convert_web_ref : bool) (chunks : list bytes) : outcome (result Failure (list Emitted * bool)) :=
  r ← first_phase stream_decoder_new convert_web_ref chunks;
  match r with
  | Err f => Ret (Err f)
  | Ok (d, chunks) => l ← later_chunks d convert_web_ref false chunks; Ret (Ok l)
  end.

(** ** The specification: the messages of a sequence of frames *)

Definition is_content (m : StreamMessage) : bool := match m with MContent _ => true | _ => false end.

(** The messages, and whether one of them is content of the model's own. *)
Fixpoint frames_out (convert_web_ref : bool) (ctx : Context) (ms : list RawMessage)
    : outcome (result StreamError (list StreamMessage * bool) * Context) :=
  match ms with
  | [] => Ret (Ok ([], false), ctx)
  | raw_msg :: ms =>
      if (length (rm_data raw_msg) =? 0)%nat || processed ctx then frames_out convert_web_ref ctx ms else
      '(r, ctx) ← process_message raw_msg ctx;
      match r with
      | Err e => Ret (Err e, ctx)
      | Ok None => frames_out convert_web_ref ctx ms
      | Ok (Some msg) =>
          out ← (if convert_web_ref then convert_web_ref_to_content msg else Ret msg);
          '(r, ctx') ← frames_out convert_web_ref ctx ms;
          Ret (match r with
               | Ok (l, seen) =>
                   Ok (out :: (if processed ctx then [MStreamEnd] else []) ++ l, is_content msg || seen)
               | Err e => Err e
               end, ctx')
      end
  end.
End Decoder.

(** ** One call of the decoder *)

Section Lemmas.
Context {E : Type} (gunzip : bytes -> option bytes).
Context (decode_wrapper : bytes -> option (option Response)) (cursor_error : bytes -> option E).
Context (delay : nat -> Z).
Abbreviation process_message := (process_message gunzip decode_wrapper cursor_error).
Abbreviation decode_frames := (decode_frames gunzip decode_wrapper cursor_error delay).
Abbreviation frames_out := (frames_out gunzip decode_wrapper cursor_error).
Abbreviation decode := (decode gunzip decode_wrapper cursor_error delay).
Abbreviation collect_all := (collect_all gunzip decode_wrapper cursor_error delay).
Abbreviation first_phase := (first_phase gunzip decode_wrapper cursor_error delay).
Abbreviation later_chunks := (later_chunks gunzip decode_wrapper cursor_error delay).
Abbreviation serve := (serve gunzip decode_wrapper cursor_error delay).

(** The loop changes neither the buffer nor the caching state. *)
Definition same_cache (d d' : StreamDecoder) : Prop :=
  sd_buffer d' = sd_buffer d /\ first_result d' = first_result d /\
  first_result_ready d' = first_result_ready d /\ first_result_taken d' = first_result_taken d.

Lemma same_cache_refl d : same_cache d d.
Proof. by split_and!. Qed.
Lemma same_cache_trans d1 d2 d3 : same_cache d1 d2 -> same_cache d2 d3 -> same_cache d1 d3.
Proof. unfold same_cache. intros (-> & -> & -> & ->). done. Qed.

Lemma note_message_spec msg d :
  is_Some (content_delays d) ->
  exists d', note_message delay msg d = Ret d' /\ same_cache d d' /\ context d' = context d /\
    is_Some (content_delays d') /\ has_seen_content d' = is_content msg || has_seen_content d.
Proof.
  intros [[s l] Hs]. destruct msg as [r|[t|t|t]|c|c|]; cbn [note_message is_content orb];
    [by exists d; eauto using same_cache_refl| |
     by exists d; eauto using same_cache_refl|by exists d; eauto using same_cache_refl| |
     by exists d; eauto using same_cache_refl|by exists d; eauto using same_cache_refl].
  - eexists. split_and!; [done|done|done|cbn; eauto|done].
  - cbn [content_delays set_seen]. rewrite Hs. cbn [unwrap mbind outcome_bind].
    eexists. split_and!; [done|done|done|cbn; eauto|done].
Qed.

(** How the loop answers, given what its frames mean. *)
Definition loop_answer (acc : list StreamMessage) (it : MessageIter) (d : StreamDecoder)
    (spec : outcome (result (StreamError (E:=E)) (list StreamMessage * bool) * Context))
    (o : outcome (result (StreamError (E:=E)) (list StreamMessage * MessageIter) * StreamDecoder)) : Prop :=
  match spec with
  | Ret (Ok (l, seen), ctx) =>
      exists d', o = Ret (Ok (acc ++ l, it), d') /\ same_cache d d' /\ context d' = ctx /\
        has_seen_content d' = has_seen_content d || seen
  | Ret (Err e, ctx) => exists d', o = Ret (Err e, d') /\ same_cache d d' /\ context d' = ctx
  | Panic => o = Panic
  | Undef => o = Undef
  end.

Lemma decode_frames_spec conv buf ms rest :
  splits buf ms rest -> forall pre d acc fuel,
  buf_ok (pre ++ buf) -> (length ms < fuel)%nat -> is_Some (content_delays d) ->
  loop_answer acc (mkIter (pre ++ buf) (zlen (pre ++ buf) - zlen rest)) d
    (frames_out conv (context d) ms) (decode_frames fuel conv (mkIter (pre ++ buf) (zlen pre)) d acc).
Proof.
  induction 1 as [rest Hi|m buf ms rest Hm Hs IH]; intros pre d acc [|fuel] Hok Hf Hd;
    cbn [length] in Hf; try lia; cbn [ResponseDecoder.decode_frames ResponseDecoder.frames_out].
  - rewrite next_incomplete by done. cbn [mbind outcome_bind loop_answer].
    exists d. rewrite app_nil_r, orb_false_r, zlen_app.
    replace (zlen pre + zlen rest - zlen rest) with (zlen pre) by lia.
    eauto using same_cache_refl.
  - rewrite next_frame by (done || apply Hok). cbn [mbind outcome_bind].
    rewrite (app_assoc pre) in *.
    assert (Hskip : forall d' acc', is_Some (content_delays d') ->
      loop_answer acc' (mkIter ((pre ++ frame m) ++ buf) (zlen ((pre ++ frame m) ++ buf) - zlen rest)) d'
        (frames_out conv (context d') ms)
        (decode_frames fuel conv (mkIter ((pre ++ frame m) ++ buf) (zlen (pre ++ frame m))) d' acc'))
      by (intros; apply IH; (done || lia)).
    destruct (length (rm_data m) =? 0)%nat; [by apply Hskip|].
    destruct (processed (context d)) eqn:Hp; [by apply Hskip|]. cbn [orb].
    destruct (process_message m (context d)) as [[r ctx]| |]; cbn [mbind outcome_bind loop_answer]; [|done..].
    set (d1 := set_context ctx d). assert (S1 : same_cache d d1) by (by split_and!).
    change ctx with (context d1) at 1 2 3.
    destruct r as [[msg|]|e]; [|exact (Hskip d1 acc Hd)|by exists d1].
    destruct (note_message_spec msg d1 Hd) as (d2 & -> & S2 & Hc & Hd2 & Hseen). cbn [mbind outcome_bind].
    destruct (if conv then convert_web_ref_to_content msg else Ret msg) as [out| |];
      cbn [mbind outcome_bind]; [|done..].
    rewrite <- Hc. set (acc' := if processed (context d2) then (acc ++ [out]) ++ [MStreamEnd] else acc ++ [out]).
    pose proof (Hskip d2 acc' Hd2) as HI.
    destruct (frames_out conv (context d2) ms) as [[[[l seen]|e] ctx2]| |]; cbn [mbind outcome_bind loop_answer] in *;
      [| |done|done].
    + destruct HI as (d3 & -> & S3 & <- & Hs3). exists d3. split_and!; [|by eauto using same_cache_trans|done|].
      * do 4 f_equal. unfold acc'. by destruct (processed (context d2)); rewrite <- ?app_assoc.
      * rewrite Hs3, Hseen. by rewrite <- orb_assoc, orb_comm, <- orb_assoc, (orb_comm seen).
    + destruct HI as (d3 & -> & S3 & <-). exists d3. eauto using same_cache_trans.
Qed.

(** What [decode] prepares before the loop. *)
Lemma prepared d d1 :
  d1 = (let d := reset_empty_stream_count d in
        match content_delays d with Some _ => d | None => set_delays (Some (EmptyString, [])) d end) ->
  same_cache d d1 /\ context d1 = context d /\ has_seen_content d1 = has_seen_content d /\
  is_Some (content_delays d1).
Proof.
  intros ->. cbv zeta. unfold reset_empty_stream_count.
  destruct (empty_stream_count d >? 0); cbn [content_delays set_count];
    destruct (content_delays d) eqn:Hd; split_and!; try done; cbn; rewrite ?Hd; eauto.
Qed.

(** A call of [decode] without bytes, or with too few for the header of a frame. *)
Lemma decode_short conv d c : c = [] \/ zlen (inner (sd_buffer d)) + zlen c < 5 ->
  exists d', decode d c conv = Ret (Err EmptyStream, d').
Proof.
  intros Hc. unfold ResponseDecoder.decode. destruct c as [|b c]; [by eexists|]. destruct Hc as [Hc|Hc]; [done|].
  cbn [length Nat.eqb orb]. unfold buffer_len, extend_from_slice. cbn [sd_buffer set_buffer inner].
  rewrite zlen_app, (proj2 (Z.ltb_lt _ _)) by done. by eexists.
Qed.

(** A call of [decode] with more bytes than the header of a frame. *)
Lemma decode_spec conv d data ms rest :
  data <> [] -> buf_ok (inner (sd_buffer d) ++ data) -> 5 <= zlen (inner (sd_buffer d) ++ data) ->
  splits (inner (sd_buffer d) ++ data) ms rest ->
  match frames_out conv (context d) ms with
  | Ret (Ok (l, seen), ctx) =>
      exists d1, same_cache (set_buffer (mkBuffer rest) d) d1 /\ context d1 = ctx /\
        has_seen_content d1 = has_seen_content d || seen /\
        decode d data conv = let '(messages, d2) := cache_first l d1 in Ret (Ok messages, d2)
  | Ret (Err e, ctx) => exists d', decode d data conv = Ret (Err e, d')
  | Panic => decode d data conv = Panic
  | Undef => decode d data conv = Undef
  end.
Proof.
  intros Hne Hok H5 Hs. unfold ResponseDecoder.decode.
  destruct (Nat.eqb_spec (length data) 0) as [Hz|_]; [by apply nil_length_inv in Hz|].
  set (d0 := set_buffer (extend_from_slice (sd_buffer d) data) d).
  cbn [orb]. unfold buffer_len. change (inner (sd_buffer d0)) with (inner (sd_buffer d) ++ data).
  rewrite (proj2 (Z.ltb_ge _ _)) by done. cbv zeta.
  set (d1 := match content_delays _ with Some _ => _ | None => _ end).
  destruct (prepared d0 d1 eq_refl) as (S1 & Hc & Hseen & Hd1).
  assert (Hb : sd_buffer (reset_empty_stream_count d0) = mkBuffer (inner (sd_buffer d) ++ data))
    by (unfold reset_empty_stream_count; by destruct (_ >? 0)).
  destruct S1 as (Sb & S1). assert (Hb1 : sd_buffer d1 = mkBuffer (inner (sd_buffer d) ++ data)) by by rewrite Sb.
  rewrite Hb. unfold iter_len.
  rewrite (iter_len_splits (mkBuffer (inner (sd_buffer d) ++ data)) ms rest) by done.
  cbn [mbind outcome_bind]. rewrite Hb1. cbn [inner].
  pose proof (decode_frames_spec conv _ _ _ Hs [] d1 [] (S (length (inner (sd_buffer d) ++ data)))
    Hok (length_fuel _ _ _ Hs) Hd1) as HL.
  cbn [app] in HL. change (zlen []) with 0 in HL. change (context d) with (context d0). rewrite <- Hc.
  unfold into_iter. cbn [inner].
  destruct (frames_out conv (context d1) ms) as [[[[l seen]|e] ctx]| |]; cbn [loop_answer] in HL;
    [| |by rewrite HL|by rewrite HL].
  - destruct HL as (d2 & -> & (S2 & S2') & Hc2 & Hs2). cbn [mbind outcome_bind].
    rewrite S2, Hb1. unfold buffer_advance. cbn [inner mi_offset].
    set (all := inner (sd_buffer d) ++ data) in *. pose proof (zlen_nonneg rest).
    rewrite (proj2 (Z.leb_le _ _)) by lia. cbn [mbind outcome_bind].
    replace (drop (Z.to_nat (zlen all - zlen rest)) all) with rest.
    2: { rewrite (splits_concat _ _ _ Hs). set (body := List.concat _). rewrite zlen_app.
         replace (Z.to_nat (zlen body + zlen rest - zlen rest)) with (length body) by (unfold zlen; lia).
         by rewrite drop_app_length. }
    exists (set_buffer (mkBuffer rest) d2). split_and!; [|done|by cbn; rewrite Hs2, Hseen|].
    + destruct S1 as (E1 & E2 & E3), S2' as (F1 & F2 & F3). unfold same_cache. cbn in *.
      by rewrite F1, F2, F3, E1, E2, E3.
    + done.
  - destruct HL as (d2 & -> & _). by exists d2.
Qed.

Lemma decode_any conv d data ms rest :
  incomplete (inner (sd_buffer d)) -> buf_ok (inner (sd_buffer d) ++ data) ->
  splits (inner (sd_buffer d) ++ data) ms rest ->
  match frames_out conv (context d) ms with
  | Ret (Ok (l, seen), ctx) =>
      exists d1, same_cache (set_buffer (mkBuffer rest) d) d1 /\ context d1 = ctx /\
        has_seen_content d1 = has_seen_content d || seen /\
        (decode d data conv = (let '(messages, d2) := cache_first l d1 in Ret (Ok messages, d2)) \/
         l = [] /\ decode d data conv = Ret (Err EmptyStream, d1))
  | Ret (Err e, ctx) => exists d', decode d data conv = Ret (Err e, d')
  | Panic => decode d data conv = Panic
  | Undef => decode d data conv = Undef
  end.
Proof.
  intros Hi Hok Hs. set (buf := inner (sd_buffer d)) in *.
  destruct (decide (data <> [] /\ 5 <= zlen (buf ++ data))) as [[Hne H5]|Hshort].
  - pose proof (decode_spec conv d data ms rest Hne Hok H5 Hs) as H.
    destruct (frames_out conv (context d) ms) as [[[[l seen]|e] ctx]| |]; [|done..].
    destruct H as (d1 & ? & ? & ? & ?). exists d1. auto.
  - assert (Hinc : incomplete (buf ++ data)).
    { destruct (decide (data = [])) as [->|Hd]; [by rewrite app_nil_r|]. left.
      destruct (Z.lt_ge_cases (zlen (buf ++ data)) 5); [done|]. exfalso. apply Hshort. split; [done|lia]. }
    destruct (splits_unique _ _ _ _ _ (splits_done _ Hinc) Hs) as [<- <-].
    cbn [ResponseDecoder.frames_out].
    set (d0 := if (length data =? 0)%nat then d else set_buffer (extend_from_slice (sd_buffer d) data) d).
    assert (Hb : inner (sd_buffer d0) = buf ++ data).
    { unfold d0. destruct data; [|done]. cbn. by rewrite app_nil_r. }
    exists (ResponseDecoder.set_count (wrap 64 (empty_stream_count d0 + 1)) d0).
    split_and!.
    + unfold same_cache. cbn. rewrite <- Hb. unfold d0. destruct data; cbn; destruct d as [[]]; done.
    + unfold d0. by destruct data.
    + rewrite orb_false_r. unfold d0. by destruct data.
    + right. split; [done|]. unfold ResponseDecoder.decode. fold d0.
      assert (Hc : (length data =? 0)%nat || (buffer_len (sd_buffer d0) <? 5) = true); [|by rewrite Hc].
      unfold buffer_len. rewrite Hb. destruct data as [|x data]; [done|]. cbn [length Nat.eqb orb].
      apply Z.ltb_lt. destruct (Z.lt_ge_cases (zlen (buf ++ x :: data)) 5); [done|].
      exfalso. apply Hshort. split; [done|lia].
Qed.

(** ** Frames in sequence *)

Lemma frames_out_app conv ctx ms ms' :
  frames_out conv ctx (ms ++ ms') =
    ('(r, ctx) ← frames_out conv ctx ms;
     match r with
     | Err e => Ret (Err e, ctx)
     | Ok (l, seen) =>
         '(r', ctx) ← frames_out conv ctx ms';
         Ret (match r' with Ok (l', seen') => Ok (l ++ l', seen || seen') | Err e => Err e end, ctx)
     end).
Proof.
  revert ctx. induction ms as [|m ms IH]; intros ctx; cbn [app ResponseDecoder.frames_out].
  - cbn. by destruct (frames_out conv ctx ms') as [[[[]|] ?]| |].
  - destruct (_ || processed ctx); [apply IH|].
    destruct (process_message m ctx) as [[r ctx1]| |]; cbn [mbind outcome_bind]; [|done..].
    destruct r as [[msg|]|e]; [|apply IH|done].
    destruct (if conv then _ else _) as [out| |]; cbn [mbind outcome_bind]; [|done..].
    rewrite IH. destruct (frames_out conv ctx1 ms) as [[[[l seen]|e] ctx2]| |]; cbn [mbind outcome_bind]; [|done..].
    destruct (frames_out conv ctx2 ms') as [[[[l' seen']|e] ctx3]| |]; cbn [mbind outcome_bind]; [|done..].
    cbn [app]; by rewrite <- app_assoc, orb_assoc.
Qed.

Lemma frames_out_upstream conv ctx ms e ctx' :
  frames_out conv ctx ms = Ret (Err e, ctx') -> exists u, e = Upstream u.
Proof.
  revert ctx. induction ms as [|m ms IH]; intros ctx; cbn [ResponseDecoder.frames_out]; [done|].
  destruct (_ || processed ctx); [apply IH|].
  destruct (process_message m ctx) as [[r ctx1]| |] eqn:Hp; cbn [mbind outcome_bind]; [|done..].
  destruct r as [[msg|]|e']; [|apply IH|].
  - destruct (if conv then _ else _) as [out| |]; cbn [mbind outcome_bind]; [|done..].
    destruct (frames_out conv ctx1 ms) as [[[[l seen]|e2] ctx2]| |] eqn:Hf; cbn [mbind outcome_bind]; [done| |done..].
    intros [= <- <-]. by apply IH in Hf.
  - intros [= <- <-]. unfold ResponseDecoder.process_message in Hp.
    destruct (if negb _ then _ else _) as [[data|]| |]; cbn [mbind outcome_bind] in Hp; try done.
    destruct (Z.shiftr _ _ =? 0).
    { destruct (handle_text_message decode_wrapper data ctx) as [[]| |]; done. }
    destruct (Z.shiftr _ _ =? 1); [|done]. injection Hp as Hp _.
    unfold handle_json_message in Hp. repeat case_match; try done. injection Hp as <-. eauto.
Qed.

(** ** The answer given at once *)

Lemma cache_first_taken l d :
  first_result_taken d = true -> first_result_ready d = true ->
  cache_first l d = (l, set_first (first_result d) true d).
Proof. unfold cache_first. by intros -> ->. Qed.

Lemma collect_spec conv chunks : forall d ms rest,
  first_result_taken d = true -> first_result_ready d = true ->
  incomplete (inner (sd_buffer d)) -> buf_ok (inner (sd_buffer d) ++ List.concat chunks) ->
  splits (inner (sd_buffer d) ++ List.concat chunks) ms rest ->
  match frames_out conv (context d) ms with
  | Ret (Ok (l, _), ctx) => exists d', collect_all d conv chunks = Ret (Ok l, d') /\
      inner (sd_buffer d') = rest /\ context d' = ctx
  | Ret (Err (Upstream e), _) => exists d', collect_all d conv chunks = Ret (Err e, d')
  | Ret (Err EmptyStream, _) => False
  | Panic => collect_all d conv chunks = Panic
  | Undef => collect_all d conv chunks = Undef
  end.
Proof.
  induction chunks as [|c chunks IH]; intros d ms rest Ht Hr Hi Hok Hs;
    cbn [List.concat ResponseDecoder.collect_all] in *.
  - rewrite app_nil_r in *. destruct (splits_unique _ _ _ _ _ (splits_done _ Hi) Hs) as [<- <-].
    cbn. by exists d.
  - destruct (splits_chunk _ _ _ _ _ Hok Hs) as (ms1 & r1 & ms2 & -> & Hs1 & Hs2 & Hok1 & Hok2).
    pose proof (decode_any conv d c ms1 r1 Hi Hok1 Hs1) as HD. rewrite frames_out_app.
    destruct (frames_out conv (context d) ms1) as [[[[l seen]|e] ctx]| |] eqn:F;
      cbn [mbind outcome_bind]; [| |by rewrite HD|by rewrite HD].
    + destruct HD as (d1 & (Sb & Sf & Sr & St) & Hc & _ & HD).
      cbn in Sb, Sf, Sr, St. rewrite Ht in St. rewrite Hr in Sr.
      assert (HI : forall d2, sd_buffer d2 = mkBuffer r1 -> context d2 = ctx ->
        first_result_taken d2 = true -> first_result_ready d2 = true -> _) by
        (intros d2 B C T R; refine (IH d2 ms2 rest T R _ _ _); rewrite B; cbn [inner];
         [by eapply splits_rest|done|done]).
      destruct HD as [HD|[-> HD]]; rewrite HD.
      * rewrite cache_first_taken by done. cbn [mbind outcome_bind].
        specialize (HI (set_first (first_result d1) true d1) Sb Hc St eq_refl).
        cbn [context set_first] in HI. rewrite Hc in HI.
        destruct (frames_out conv ctx ms2) as [[[[l' seen']|[e|]] ctx']| |]; cbn [mbind outcome_bind];
          [|destruct HI as (d' & ->); by exists d'|done|by rewrite HI|by rewrite HI].
        destruct HI as (d' & -> & ? & ?). by exists d'.
      * cbn [mbind outcome_bind]. specialize (HI d1 Sb Hc St Sr). rewrite Hc in HI.
        destruct (frames_out conv ctx ms2) as [[[[l' seen']|[e|]] ctx']| |]; cbn [mbind outcome_bind app];
          [|done|done|done|done].
        destruct HI as (d' & -> & ? & ?). by exists d'.
    + destruct (frames_out_upstream _ _ _ _ _ F) as [u ->]. destruct HD as [d' ->].
      cbn [mbind outcome_bind]. by exists d'.
Qed.

(** ** The streamed answer *)

Lemma cache_first_unready l d :
  first_result_ready d = false -> has_seen_content d = false ->
  exists m f, cache_first l d = (m, set_first f false d).
Proof.
  intros Hr Hs. unfold cache_first. rewrite Hr, Hs. cbn [negb].
  destruct (negb (first_result_taken d) && negb (length l =? 0)%nat);
    [destruct (first_result d)|]; rewrite andb_false_r; eauto.
Qed.

Lemma first_phase_silent conv chunks : forall d ms rest l ctx,
  first_result_ready d = false -> has_seen_content d = false ->
  incomplete (inner (sd_buffer d)) -> buf_ok (inner (sd_buffer d) ++ List.concat chunks) ->
  splits (inner (sd_buffer d) ++ List.concat chunks) ms rest ->
  frames_out conv (context d) ms = Ret (Ok (l, false), ctx) ->
  first_phase d conv chunks = Ret (Err FNoResponse).
Proof.
  induction chunks as [|c chunks IH]; intros d ms rest l ctx Hr Hn Hi Hok Hs HF;
    cbn [List.concat ResponseDecoder.first_phase] in *; unfold is_first_result_ready; rewrite Hr; [done|].
  destruct (splits_chunk _ _ _ _ _ Hok Hs) as (ms1 & r1 & ms2 & -> & Hs1 & Hs2 & Hok1 & Hok2).
  pose proof (decode_any conv d c ms1 r1 Hi Hok1 Hs1) as HD. rewrite frames_out_app in HF.
  destruct (frames_out conv (context d) ms1) as [[[[l1 seen]|e] ctx1]| |]; cbn [mbind outcome_bind] in HF; [|done..].
  destruct (frames_out conv ctx1 ms2) as [[[[l2 seen2]|e] ctx2]| |] eqn:F2; cbn [mbind outcome_bind] in HF; [|done..].
  injection HF as _ Hor _. apply orb_false_iff in Hor as [-> ->].
  destruct HD as (d1 & (Sb & _ & Sr & St) & Hc & Hseen & HD). rewrite orb_false_r in Hseen.
  cbn in Sb, Sr. rewrite Hr in Sr. rewrite Hn in Hseen.
  assert (HI : forall d2, sd_buffer d2 = mkBuffer r1 -> context d2 = ctx1 ->
    first_result_ready d2 = false -> has_seen_content d2 = false -> first_phase d2 conv chunks = Ret (Err FNoResponse)).
  { intros d2 B C R S. eapply IH; [done|done|rewrite B|rewrite B|rewrite B|rewrite C; exact F2];
      cbn [inner]; [by eapply splits_rest|done|exact Hs2]. }
  destruct HD as [->|[-> ->]].
  - destruct (cache_first_unready l1 d1 Sr Hseen) as (m & f & ->). cbn [mbind outcome_bind]. by apply HI.
  - cbn [mbind outcome_bind]. by apply HI.
Qed.

(** Chunks that end where frames end. *)
Definition chunk_of (g : list RawMessage) : bytes := List.concat (frame <$> g).
Definition group_ok (g : list RawMessage) : Prop :=
  g <> [] /\ Forall raw_ok g /\ zlen (chunk_of g) < 2 ^ 63.

Lemma group_decode conv d g l seen ctx :
  inner (sd_buffer d) = [] -> group_ok g -> frames_out conv (context d) g = Ret (Ok (l, seen), ctx) ->
  exists d1, same_cache (set_buffer (mkBuffer []) d) d1 /\ context d1 = ctx /\
    has_seen_content d1 = has_seen_content d || seen /\
    decode d (chunk_of g) conv = let '(messages, d2) := cache_first l d1 in Ret (Ok messages, d2).
Proof.
  intros Hb (Hne & Hok & Hlen) HF.
  assert (H5 : 5 <= zlen (chunk_of g)).
  { destruct g as [|m g]; [done|]. unfold chunk_of. rewrite fmap_cons. cbn [List.concat].
    rewrite zlen_app, zlen_frame. pose proof (zlen_nonneg (rm_data m)).
    pose proof (zlen_nonneg (List.concat (frame <$> g))). lia. }
  pose proof (decode_spec conv d (chunk_of g) g []) as HD. rewrite Hb, HF in HD. apply HD; cbn [app].
  - intros E0. by rewrite E0 in H5.
  - split; [by apply frames_bytes|done].
  - done.
  - by apply splits_frames.
Qed.

(** Before the first result is ready: [acc] has been kept. *)
Definition caching (acc : list StreamMessage) (d : StreamDecoder) : Prop :=
  first_result_taken d = false /\ first_result_ready d = false /\ has_seen_content d = false /\
  inner (sd_buffer d) = [] /\
  first_result d = match acc with [] => None | _ => Some acc end.
(** When it is ready, and after it has been taken. *)
Definition ready (acc : list StreamMessage) (d : StreamDecoder) : Prop :=
  first_result_taken d = false /\ first_result_ready d = true /\
  inner (sd_buffer d) = [] /\ first_result d = Some acc.
Definition taken (d : StreamDecoder) : Prop :=
  first_result_taken d = true /\ first_result_ready d = true /\
  inner (sd_buffer d) = [] /\ first_result d = None.

Lemma frames_seen_nonempty conv ctx g l ctx' :
  frames_out conv ctx g = Ret (Ok (l, true), ctx') -> l <> [].
Proof.
  revert ctx l. induction g as [|m g IH]; intros ctx l; cbn [ResponseDecoder.frames_out]; [done|].
  destruct (_ || processed ctx); [apply IH|].
  destruct (process_message m ctx) as [[[[msg|]|e] ctx1]| |]; cbn [mbind outcome_bind]; [|apply IH|done..].
  destruct (if conv then _ else _) as [out| |]; cbn [mbind outcome_bind]; [|done..].
  destruct (frames_out conv ctx1 g) as [[[[l' seen]|e] ctx2]| |]; cbn [mbind outcome_bind]; [|done..].
  by intros [= <- _ _].
Qed.

(** One chunk while caching. *)
Lemma caching_step conv acc d g l seen ctx :
  caching acc d -> group_ok g -> frames_out conv (context d) g = Ret (Ok (l, seen), ctx) ->
  exists d1, decode d (chunk_of g) conv = Ret (Ok [], d1) /\ context d1 = ctx /\
    if seen then ready (acc ++ l) d1 else caching (acc ++ l) d1.
Proof.
  intros (Ht & Hr & Hn & Hb & Hf) Hg HF.
  destruct (group_decode conv d g l seen ctx Hb Hg HF) as (d1 & (Sb & Sf & Sr & St) & Hc & Hseen & ->).
  cbn in Sb, Sf, Sr, St. rewrite Ht in St. rewrite Hr in Sr. rewrite Hn, orb_false_l in Hseen.
  unfold cache_first. rewrite St, Sr, Sf, Hf. cbn [negb andb].
  destruct l as [|x l]; cbn [length Nat.eqb negb].
  - destruct seen; [by apply frames_seen_nonempty in HF|]. rewrite app_nil_r.
    destruct acc as [|a acc]; (eexists; split_and!; [done|done|]; unfold caching; cbn;
      rewrite St, Hseen, Sb; by rewrite ?andb_false_r).
  - destruct acc as [|a acc]; cbn [app];
      (eexists; split_and!; [done|done|]; destruct seen; unfold ready, caching; cbn; by rewrite St, Hseen, Sb).
Qed.

Lemma ready_step conv acc d g l seen ctx :
  ready acc d -> group_ok g -> frames_out conv (context d) g = Ret (Ok (l, seen), ctx) ->
  exists d1 d2, decode d (chunk_of g) conv = Ret (Ok l, d1) /\ take_first_result d1 = (Some acc, d2) /\
    context d2 = ctx /\ taken d2.
Proof.
  intros (Ht & Hr & Hb & Hf) Hg HF.
  destruct (group_decode conv d g l seen ctx Hb Hg HF) as (d1 & (Sb & Sf & Sr & St) & Hc & Hseen & ->).
  cbn in Sb, Sf, Sr, St. rewrite Ht in St. rewrite Hr in Sr. rewrite Hf in Sf.
  unfold cache_first. rewrite St, Sr, Sf. cbn [negb andb].
  destruct l as [|x l]; cbn [length Nat.eqb negb]; (do 2 eexists; split; [done|]);
    unfold take_first_result, buffer_is_empty; cbn; rewrite ?Sb; (split; [reflexivity|]); (split; [done|]);
    unfold taken; cbn; by rewrite ?St, ?Sb.
Qed.

Lemma taken_step conv d g l seen ctx :
  taken d -> group_ok g -> frames_out conv (context d) g = Ret (Ok (l, seen), ctx) ->
  exists d1 d2, decode d (chunk_of g) conv = Ret (Ok l, d1) /\ take_first_result d1 = (None, d2) /\
    context d2 = ctx /\ taken d2.
Proof.
  intros (Ht & Hr & Hb & Hf) Hg HF.
  destruct (group_decode conv d g l seen ctx Hb Hg HF) as (d1 & (Sb & Sf & Sr & St) & Hc & Hseen & ->).
  cbn in Sb, Sf, Sr, St. rewrite Ht in St. rewrite Hr in Sr. rewrite Hf in Sf.
  unfold cache_first. rewrite St, Sr, Sf. cbn [negb andb].
  (do 2 eexists; split; [done|]);
    unfold take_first_result, buffer_is_empty; cbn; rewrite ?Sb; (split; [reflexivity|]); (split; [done|]);
    unfold taken; cbn; by rewrite ?St, ?Sb.
Qed.

(** Nothing follows the end of the stream. *)
Definition ends_only (l : list StreamMessage) : Prop :=
  forall l1 l2, l = l1 ++ MStreamEnd :: l2 -> l2 = [].

Lemma ends_only_app a b :
  ends_only (a ++ b) ->
  upto_end a = a /\ (existsb is_end_message a = true -> b = []) /\ ends_only b.
Proof.
  intros H. split_and!.
  - induction a as [|m a IH]; [done|].
    assert (Ht : ends_only (a ++ b)) by (intros l1 l2 E1; apply (H (m :: l1)); by rewrite <- app_comm_cons, E1).
    destruct m; cbn [upto_end]; rewrite ?IH by done; try done.
    destruct (app_eq_nil _ _ (H [] (a ++ b) eq_refl)) as [-> _]. done.
  - intros Ha. apply existsb_exists in Ha as (m & Hm & He). destruct m; try done.
    apply in_split in Hm as (l1 & l2 & ->).
    specialize (H l1 (l2 ++ b)). rewrite <- app_assoc in H. specialize (H eq_refl).
    by apply app_eq_nil in H as [_ ->].
  - intros l1 l2 ->. apply (H (a ++ l1)). by rewrite app_assoc.
Qed.

Lemma later_taken conv gs : forall d l seen ctx,
  taken d -> Forall group_ok gs ->
  frames_out conv (context d) (List.concat gs) = Ret (Ok (l, seen), ctx) -> ends_only l ->
  later_chunks d conv false (chunk_of <$> gs) = Ret (EMessage <$> l, false).
Proof.
  induction gs as [|g gs IH]; intros d l seen ctx Hd Hgs HF He; cbn [List.concat] in HF.
  - by injection HF as <- _ _.
  - apply Forall_cons in Hgs as [Hg Hgs]. rewrite frames_out_app in HF. rewrite fmap_cons.
    destruct (frames_out conv (context d) g) as [[[[l1 seen1]|e] ctx1]| |] eqn:F1; cbn [mbind outcome_bind] in HF; [|done..].
    destruct (frames_out conv ctx1 (List.concat gs)) as [[[[l2 seen2]|e] ctx2]| |] eqn:F2; cbn [mbind outcome_bind] in HF; [|done..].
    injection HF as <- _ _. apply ends_only_app in He as (Hu & Hn & He).
    destruct (taken_step conv d g l1 seen1 ctx1 Hd Hg F1) as (d1 & d2 & ED & ET & Hc & Hd2).
    cbn [ResponseDecoder.later_chunks]. rewrite ED. cbn [mbind outcome_bind]. rewrite ET.
    cbn [default upto_end app orb]. rewrite Hu.
    destruct (existsb is_end_message l1) eqn:Hend.
    + by rewrite (Hn eq_refl), app_nil_r.
    + rewrite (IH d2 l2 seen2 ctx2) by (done || by rewrite Hc). cbn. by rewrite fmap_app.
Qed.

Lemma first_phase_aligned conv more gs : forall d acc l ctx,
  caching acc d -> Forall group_ok gs ->
  frames_out conv (context d) (List.concat gs) = Ret (Ok (l, true), ctx) ->
  exists gs2 d1 la lb seen,
    first_phase d conv (chunk_of <$> gs ++ more) = Ret (Ok (d1, chunk_of <$> gs2 ++ more)) /\
    ready (acc ++ la) d1 /\ frames_out conv (context d1) (List.concat gs2) = Ret (Ok (lb, seen), ctx) /\
    l = la ++ lb /\ Forall group_ok gs2.
Proof.
  induction gs as [|g gs IH]; intros d acc l ctx Hd Hgs HF; cbn [List.concat] in HF; [done|].
  apply Forall_cons in Hgs as [Hg Hgs]. rewrite frames_out_app in HF.
  destruct (frames_out conv (context d) g) as [[[[l1 seen1]|e] ctx1]| |] eqn:F1; cbn [mbind outcome_bind] in HF; [|done..].
  destruct (frames_out conv ctx1 (List.concat gs)) as [[[[l2 seen2]|e] ctx2]| |] eqn:F2; cbn [mbind outcome_bind] in HF; [|done..].
  injection HF as <- Hor ->.
  destruct (caching_step conv acc d g l1 seen1 ctx1 Hd Hg F1) as (d1 & ED & Hc & Hd1).
  rewrite <- app_comm_cons, fmap_cons. cbn [ResponseDecoder.first_phase]. unfold is_first_result_ready.
  destruct Hd as (_ & -> & _). rewrite ED. cbn [mbind outcome_bind].
  destruct seen1.
  - exists gs, d1, l1, l2, seen2. split_and!; [|done|by rewrite Hc|done|done].
    destruct Hd1 as (_ & Hr & _). destruct (gs ++ more); cbn; unfold is_first_result_ready; by rewrite Hr.
  - cbn in Hor. subst seen2.
    destruct (IH d1 (acc ++ l1) l2 ctx Hd1 Hgs) as (gs2 & d2 & la & lb & seen & EP & Hr & HF2 & -> & Hgs2);
      [by rewrite Hc|].
    exists gs2, d2, (l1 ++ la), lb, seen. rewrite !app_assoc in *. by split_and!.
Qed.

Lemma serve_aligned_spec conv gs more l1 ctx1 l2 seen2 ctx2 :
  Forall group_ok (gs ++ more) -> more <> [] ->
  frames_out conv (mkContext 0 false) (List.concat gs) = Ret (Ok (l1, true), ctx1) ->
  frames_out conv ctx1 (List.concat more) = Ret (Ok (l2, seen2), ctx2) ->
  ends_only (l1 ++ l2) ->
  serve conv (chunk_of <$> gs ++ more) = Ret (Ok (EMessage <$> (l1 ++ l2), false)).
Proof.
  intros Hg Hm F1 F2 He. apply Forall_app in Hg as [Hg1 Hg2].
  destruct (first_phase_aligned conv more gs stream_decoder_new [] l1 ctx1) as
    (gs2 & d1 & la & lb & seen & EP & Hr & HF & -> & Hgs2); [by split_and!|done|done|].
  unfold ResponseDecoder.serve. rewrite EP. cbn [mbind outcome_bind app] in *.
  assert (HF2 : frames_out conv (context d1) (List.concat (gs2 ++ more)) = Ret (Ok (lb ++ l2, seen || seen2), ctx2)).
  { rewrite concat_app, frames_out_app, HF. cbn [mbind outcome_bind]. rewrite F2. done. }
  assert (Hall : Forall group_ok (gs2 ++ more)) by (by apply Forall_app).
  rewrite <- app_assoc in He |- *.
  destruct (gs2 ++ more) as [|g gs'] eqn:EL; [by apply app_eq_nil in EL as [_ ->]|].
  apply Forall_cons in Hall as [Hg Hall]. cbn [List.concat] in HF2. rewrite frames_out_app in HF2.
  destruct (frames_out conv (context d1) g) as [[[[m1 s1]|e] c1]| |] eqn:G1; cbn [mbind outcome_bind] in HF2; [|done..].
  destruct (frames_out conv c1 (List.concat gs')) as [[[[m2 s2]|e] c2]| |] eqn:G2; cbn [mbind outcome_bind] in HF2; [|done..].
  injection HF2 as Hl _ _. rewrite <- Hl in He |- *. rewrite (app_assoc la) in He |- *.
  destruct (ready_step conv la d1 g m1 s1 c1 Hr Hg G1) as (d2 & d3 & ED & ET & Hc & Hd3).
  rewrite fmap_cons. cbn [ResponseDecoder.later_chunks]. rewrite ED. cbn [mbind outcome_bind]. rewrite ET.
  cbn [from_option id orb].
  pose proof He as He'. rewrite <- app_assoc in He'. apply ends_only_app in He' as (U1 & _ & He').
  apply ends_only_app in He' as (U2 & _ & _). rewrite U1, U2.
  apply ends_only_app in He as (_ & Hn & He).
  destruct (existsb is_end_message (la ++ m1)) eqn:Hend.
  - by rewrite (Hn eq_refl), app_nil_r.
  - rewrite (later_taken conv gs' d3 m2 s2 c2) by (done || by rewrite Hc). cbn. by rewrite (fmap_app _ (la ++ m1)).
Qed.
End Lemmas.

(** ** Tool calls in pieces *)

Lemma move_to_front_drop v from :
  (from <= length v)%nat -> move_to_front v from (length v - from) = drop from v.
Proof.
  intros H. unfold move_to_front. assert (Hl : length (drop from v) = (length v - from)%nat) by apply length_drop.
  rewrite (take_ge (drop from v)) by lia. rewrite <- Hl. apply take_app_length.
Qed.

(** A text that can follow another: it does not start inside a character. *)
Definition starts_char (s : string) : bool :=
  match as_bytes s with b :: _ => negb (is_continuation b) | [] => true end.

Lemma get_delta prefix delta :
  starts_char delta = true ->
  str_get_unchecked_from (as_bytes (prefix +:+ delta)) (String.length prefix) = Ret (as_bytes delta).
Proof.
  unfold starts_char, str_get_unchecked_from. rewrite as_bytes_app, <- length_as_bytes. intros H.
  rewrite drop_app_length.
  assert (Hb : is_char_boundary (as_bytes prefix ++ as_bytes delta) (length (as_bytes prefix)) = true); [|by rewrite Hb].
  unfold is_char_boundary. destruct (as_bytes delta) as [|b bs].
  - rewrite app_nil_r, Nat.eqb_refl. by rewrite orb_true_r.
  - rewrite list_lookup_middle by done. rewrite H. by rewrite orb_true_r.
Qed.

Definition call_message (c : ClientSideToolV2Call) (input : string) : StreamMessage :=
  MToolCall (mkToolCall (tool_id_format (tool_call_id c) (model_call_id c))
    (default EmptyString (tools ← mcp_tools c; tool ← head tools; Some (mt_name tool))) input).

(** A streamed call that extends what has been seen gives what is new. *)
Lemma handle_tool_call_delta c ctx prefix delta :
  is_streaming c = true -> has_space_after_separator (as_bytes (raw_args c)) = true ->
  raw_args c = prefix +:+ delta -> starts_char delta = true ->
  raw_args_len ctx = String.length prefix ->
  handle_tool_call c ctx =
    if String.eqb delta EmptyString then Ret (None, ctx)
    else Ret (Some (call_message c delta),
              mkContext (String.length (raw_args c)) (is_last_message c || processed ctx)).
Proof.
  intros Hst Hsp Hra Hd Hlen. unfold handle_tool_call. rewrite Hst, Hsp. cbn [negb].
  rewrite length_as_bytes, Hlen.
  assert (Hl : String.length (raw_args c) = (String.length prefix + String.length delta)%nat)
    by (rewrite Hra, <- !length_as_bytes, as_bytes_app, length_app; done).
  destruct (String.eqb_spec delta EmptyString) as [->|Hne].
  - assert (Hc : (String.length (raw_args c) ?= String.length prefix)%nat = Eq) by (apply Nat.compare_eq_iff; cbn in Hl; lia).
    by rewrite Hc.
  - assert (0 < String.length delta)%nat by (destruct delta; cbn; [done|lia]).
    assert (Hc : (String.length (raw_args c) ?= String.length prefix)%nat = Gt) by (apply Nat.compare_gt_iff; lia).
    rewrite Hc. rewrite Hra at 1. rewrite get_delta by done. cbn [mbind outcome_bind].
    assert (Hm : move_to_front (as_bytes (raw_args c)) (String.length prefix)
                   (String.length (raw_args c) - String.length prefix) = as_bytes delta).
    { rewrite <- (length_as_bytes (raw_args c)), move_to_front_drop by (rewrite length_as_bytes; lia).
      by rewrite Hra, as_bytes_app, <- length_as_bytes, drop_app_length. }
    rewrite Hm. destruct (_ <? _)%nat; by rewrite from_bytes_as_bytes.
Qed.

Fixpoint run_calls (ctx : Context) (cs : list ClientSideToolV2Call)
    : outcome (list StreamMessage * Context) :=
  match cs with
  | [] => Ret ([], ctx)
  | c :: cs =>
      '(m, ctx) ← handle_tool_call c ctx;
      '(l, ctx) ← run_calls ctx cs;
      Ret (option_list m ++ l, ctx)
  end.

(** Streamed calls whose arguments grow from [prefix]. *)
Fixpoint extending (prefix : string) (cs : list ClientSideToolV2Call) : Prop :=
  match cs with
  | [] => True
  | c :: cs =>
      is_streaming c = true /\ has_space_after_separator (as_bytes (raw_args c)) = true /\
      (exists delta, raw_args c = prefix +:+ delta /\ starts_char delta = true) /\
      extending (raw_args c) cs
  end.
Definition input_of (m : StreamMessage) : string :=
  match m with MToolCall c => tc_input c | _ => EmptyString end.

Lemma run_calls_spec cs : forall prefix ctx,
  extending prefix cs -> raw_args_len ctx = String.length prefix ->
  exists l ctx', run_calls ctx cs = Ret (l, ctx') /\
    prefix +:+ concat_spec (input_of <$> l) = default prefix (raw_args <$> last cs) /\
    raw_args_len ctx' = String.length (default prefix (raw_args <$> last cs)).
Proof.
  induction cs as [|c cs IH]; intros prefix ctx He Hlen; cbn [run_calls].
  - exists [], ctx. split_and!; [done|apply string_app_nil|done].
  - destruct He as (Hst & Hsp & (delta & Hra & Hd) & He).
    rewrite (handle_tool_call_delta c ctx prefix delta) by done.
    assert (Hlast : forall p, default p (raw_args <$> last (c :: cs)) = default (raw_args c) (raw_args <$> last cs))
      by (intros p; rewrite last_cons; by destruct (last cs)).
    rewrite !Hlast. destruct (String.eqb_spec delta EmptyString) as [->|Hne].
    + rewrite string_app_nil in Hra.
      destruct (IH (raw_args c) ctx He) as (l & ctx' & E & Hc & Hl); [by rewrite Hra|].
      exists l, ctx'. cbn [mbind outcome_bind]. rewrite E. split_and!; [done|by rewrite <- Hra|done].
    + cbn [mbind outcome_bind].
      destruct (IH (raw_args c) (mkContext (String.length (raw_args c)) (is_last_message c || processed ctx)) He eq_refl)
        as (l & ctx' & E & Hc & Hl). rewrite E. cbn [mbind outcome_bind].
      eexists _, ctx'. split_and!; [done| |done]. rewrite <- Hc, Hra at 1.
      cbn [option_list app fmap list_fmap concat_spec foldr input_of call_message tc_input].
      by rewrite string_app_assoc.
Qed.

(** ** Properties *)

(** The answer given at once does not depend on how the network cuts the
    stream: whatever the chunks, it is the messages of the stream's whole frames in
    order, or the first upstream error among them; the decoder's unsafe code is the
    only way to leave defined behaviour, and the text it accumulates for the log
    never makes it panic. *)
Theorem collect_any_chunking {E} gunzip decode_wrapper (cursor_error : bytes -> option E) delay conv stream :
  buf_ok stream ->
  exists ms rest, splits stream ms rest /\
    forall chunks, List.concat chunks = stream ->
      let run := collect_all gunzip decode_wrapper cursor_error delay
                   (no_first_cache stream_decoder_new) conv chunks in
      match frames_out gunzip decode_wrapper cursor_error conv (mkContext 0 false) ms with
      | Ret (Ok (l, _), ctx) => exists d, run = Ret (Ok l, d) /\ inner (sd_buffer d) = rest /\ context d = ctx
      | Ret (Err (Upstream e), _) => exists d, run = Ret (Err e, d)
      | Ret (Err EmptyStream, _) => False
      | Panic => run = Panic
      | Undef => run = Undef
      end.
Proof.
  intros Hok. destruct (splits_total _ (proj1 Hok)) as (ms & rest & Hs). exists ms, rest. split; [done|].
  intros chunks <- run.
  by apply (collect_spec gunzip decode_wrapper cursor_error delay conv chunks
              (no_first_cache stream_decoder_new) ms rest eq_refl eq_refl incomplete_nil).
Qed.

Lemma ends_only_check l : existsb is_end_message (removelast l) = false -> ends_only l.
Proof.
  intros H l1 [|m l2] ->; [done|]. rewrite removelast_app, existsb_app in H by done.
  apply orb_false_iff in H as [_ H]. done.
Qed.

(** Text frames: the wrapper of the examples takes the payload for the text, and
    a payload that starts with [{] for the arguments of a whole tool call. *)
Definition text_wrapper (bs : bytes) : option (option Response) :=
  Some (Some (match bs with
              | 123 :: _ => RToolCall (mkCall "id" false true (from_bytes bs) None None)
              | _ => RChat (mkChatResponse (from_bytes bs) None None)
              end)).
Definition no_gzip (bs : bytes) : option bytes := None.
Definition some_error (bs : bytes) : option string := Some (from_bytes bs).
Definition no_delay (n : nat) : Z := 0.
Definition text_frame (s : string) : RawMessage := mkRawMessage 0 (as_bytes s).
Definition text_frames (l : list string) : list RawMessage := text_frame <$> l.

Definition example_answer : bytes := chunk_of (text_frames ["a"; "b"; "{}"; "c"]%string).

Lemma collect_any_chunking_witness :
  exists d, collect_all no_gzip text_wrapper some_error no_delay (no_first_cache stream_decoder_new) false
              [take 3 example_answer; take 9 (drop 3 example_answer); drop 12 example_answer] =
    Ret (Ok [MContent "a"; MContent "b"; MToolCall (mkToolCall "id" EmptyString "{}"); MStreamEnd], d).
Proof.
  destruct (collect_any_chunking no_gzip text_wrapper some_error no_delay false example_answer)
    as (ms & rest & Hs & H); [split; [by_decision|vm_compute; reflexivity]|].
  destruct (splits_unique _ _ _ _ _ Hs (splits_frames (text_frames ["a"; "b"; "{}"; "c"]%string) ltac:(by_decision)))
    as [-> ->].
  destruct (H [take 3 example_answer; take 9 (drop 3 example_answer); drop 12 example_answer])
    as (d & E & _); [vm_compute; reflexivity|]. exists d. exact E.
Defined.

(** A streamed answer is complete and in order when the chunks end where
    frames end, content of the model comes before the last chunk, and nothing
    follows the end of the stream: the client is given every message exactly
    once, although the first ones wait in the decoder until there is content. *)
Theorem serve_aligned {E} gunzip decode_wrapper (cursor_error : bytes -> option E) delay conv
    gs more l1 ctx1 l2 seen2 ctx2 :
  Forall group_ok (gs ++ more) -> more <> [] ->
  frames_out gunzip decode_wrapper cursor_error conv (mkContext 0 false) (List.concat gs) = Ret (Ok (l1, true), ctx1) ->
  frames_out gunzip decode_wrapper cursor_error conv ctx1 (List.concat more) = Ret (Ok (l2, seen2), ctx2) ->
  ends_only (l1 ++ l2) ->
  serve gunzip decode_wrapper cursor_error delay conv (chunk_of <$> gs ++ more) =
    Ret (Ok (EMessage <$> (l1 ++ l2), false)).
Proof. apply serve_aligned_spec. Qed.

Lemma serve_aligned_witness :
  serve no_gzip text_wrapper some_error no_delay false
    (chunk_of <$> [text_frames ["a"]; text_frames ["b"; "c"]]%string ++ [text_frames ["{}"]%string]) =
  Ret (Ok ([EMessage (MContent "a"); EMessage (MContent "b"); EMessage (MContent "c");
            EMessage (MToolCall (mkToolCall "id" EmptyString "{}")); EMessage MStreamEnd], false)).
Proof.
  refine (serve_aligned no_gzip text_wrapper some_error no_delay false
    [text_frames ["a"]; text_frames ["b"; "c"]]%string [text_frames ["{}"]%string]
    [MContent "a"; MContent "b"; MContent "c"] (mkContext 0 false)
    [MToolCall (mkToolCall "id" EmptyString "{}"); MStreamEnd] false (mkContext 0 true) _ _ _ _ _);
    [|done|vm_compute; reflexivity|vm_compute; reflexivity|].
  - repeat (constructor; [split_and!; [done|by_decision|vm_compute; reflexivity]|]). constructor.
  - by apply ends_only_check.
Defined.

Lemma serve_single {E} gunzip decode_wrapper (cursor_error : bytes -> option E) delay conv g l ctx :
  group_ok g ->
  frames_out gunzip decode_wrapper cursor_error conv (mkContext 0 false) g = Ret (Ok (l, true), ctx) ->
  serve gunzip decode_wrapper cursor_error delay conv [chunk_of g] = Ret (Ok ([], false)).
Proof.
  intros Hg HF.
  destruct (caching_step gunzip decode_wrapper cursor_error delay conv [] stream_decoder_new g l true ctx)
    as (d & ED & _ & (_ & Hr & _)); [by split_and!|done|done|].
  unfold serve. cbn [first_phase]. cbn [is_first_result_ready stream_decoder_new first_result_ready].
  rewrite ED. cbn [mbind outcome_bind]. unfold is_first_result_ready. by rewrite Hr.
Qed.

(** What the streaming client gets otherwise.  An answer without content of
    the model's own (a bare tool call, a thought, web references) is reported as no
    response, whatever was decoded and however it is cut.  An answer that arrives
    in one chunk is not given at all.  A chunk that ends inside a frame makes
    later messages overtake the first ones.  A later chunk that is empty, or that
    leaves fewer than five bytes to decode, hangs the stream: what follows is lost
    and the response never ends. *)
Theorem serve_faults {E} gunzip decode_wrapper (cursor_error : bytes -> option E) delay conv :
  (forall chunks ms rest l ctx,
     buf_ok (List.concat chunks) -> splits (List.concat chunks) ms rest ->
     frames_out gunzip decode_wrapper cursor_error conv (mkContext 0 false) ms = Ret (Ok (l, false), ctx) ->
     serve gunzip decode_wrapper cursor_error delay conv chunks = Ret (Err FNoResponse)) /\
  (forall g l ctx, group_ok g ->
     frames_out gunzip decode_wrapper cursor_error conv (mkContext 0 false) g = Ret (Ok (l, true), ctx) ->
     serve gunzip decode_wrapper cursor_error delay conv [chunk_of g] = Ret (Ok ([], false))) /\
  (let c := chunk_of (text_frames ["c"]%string) in
   serve no_gzip text_wrapper some_error no_delay false
     [chunk_of (text_frames ["a"]%string); chunk_of (text_frames ["b"]%string) ++ take 3 c; drop 3 c] =
   Ret (Ok ([EMessage (MContent "b"); EMessage (MContent "a"); EMessage (MContent "c")], false))) /\
  (forall d is_end c chunks, c = [] \/ zlen (inner (sd_buffer d)) + zlen c < 5 ->
     later_chunks gunzip decode_wrapper cursor_error delay d conv is_end (c :: chunks) = Ret ([], true)) /\
  (serve no_gzip text_wrapper some_error no_delay false
     [chunk_of (text_frames ["a"]%string); chunk_of (text_frames ["b"]%string); []; chunk_of (text_frames ["c"]%string)] =
   Ret (Ok ([EMessage (MContent "a"); EMessage (MContent "b")], true))).
Proof.
  split_and!.
  - intros chunks ms rest l ctx Hok Hs HF. unfold serve.
    rewrite (first_phase_silent gunzip decode_wrapper cursor_error delay conv chunks
               stream_decoder_new ms rest l ctx); [done|done|done|apply incomplete_nil|done..].
  - intros g l ctx. apply serve_single.
  - vm_compute. reflexivity.
  - intros d is_end c chunks Hc. cbn [later_chunks].
    by destruct (decode_short gunzip decode_wrapper cursor_error delay conv d c Hc) as [d' ->].
  - vm_compute. reflexivity.
Qed.

Lemma serve_faults_witness :
  serve no_gzip text_wrapper some_error no_delay false [chunk_of (text_frames ["{}"]%string)] =
    Ret (Err FNoResponse) /\
  serve no_gzip text_wrapper some_error no_delay false [chunk_of (text_frames ["a"; "b"]%string)] = Ret (Ok ([], false)).
Proof.
  destruct (serve_faults no_gzip text_wrapper some_error no_delay false) as (H1 & H2 & _). split.
  - apply (H1 _ (text_frames ["{}"]%string) [] [MToolCall (mkToolCall "id" EmptyString "{}"); MStreamEnd]
             (mkContext 0 true)).
    + split; [by_decision|vm_compute; reflexivity].
    + cbn [List.concat]. rewrite app_nil_r. apply splits_frames. by_decision.
    + vm_compute. reflexivity.
  - apply (H2 _ [MContent "a"; MContent "b"] (mkContext 0 false)); [|vm_compute; reflexivity].
    split_and!; [done|by_decision|vm_compute; reflexivity].
Defined.

Definition streamed_call (last_one : bool) (args : string) : ClientSideToolV2Call :=
  mkCall "id" true last_one args None None.
Definition quote : string := from_bytes [34].
Definition arguments (s : string) : string := "{" +:+ quote +:+ "a" +:+ quote +:+ ": " +:+ s.

(** A tool call whose arguments arrive in growing pieces is put together
    exactly: the inputs given to the client concatenate to the last arguments, and
    the unchecked slice never cuts a character.  Pieces that do not extend one
    another can cut a character, which is undefined behaviour; and when the piece
    marked last brings nothing new, or has no separator in it, the end of the call
    is not noticed. *)
Theorem tool_call_reassembly :
  (forall cs, extending EmptyString cs ->
     exists l ctx, run_calls (mkContext 0 false) cs = Ret (l, ctx) /\
       concat_spec (input_of <$> l) = default EmptyString (raw_args <$> last cs) /\
       raw_args_len ctx = String.length (default EmptyString (raw_args <$> last cs))) /\
  run_calls (mkContext 0 false)
    [streamed_call false (arguments "x"); streamed_call false (arguments (from_bytes [195; 169]))] = Undef /\
  (exists l n, run_calls (mkContext 0 false)
    [streamed_call false (arguments "1}"); streamed_call true (arguments "1}")] = Ret (l, mkContext n false)) /\
  run_calls (mkContext 0 false) [streamed_call true "{}"] = Ret ([], mkContext 0 false).
Proof.
  split_and!.
  - intros cs He. destruct (run_calls_spec cs EmptyString (mkContext 0 false) He eq_refl) as (l & ctx & E & Hc & Hl).
    by exists l, ctx.
  - vm_compute. reflexivity.
  - do 2 eexists. vm_compute. reflexivity.
  - vm_compute. reflexivity.
Qed.

Lemma tool_call_reassembly_witness :
  exists l ctx, run_calls (mkContext 0 false)
      [streamed_call false (arguments EmptyString); streamed_call false (arguments "12");
       streamed_call true (arguments "123}")] = Ret (l, ctx) /\
    concat_spec (input_of <$> l) = arguments "123}".
Proof.
  destruct (proj1 tool_call_reassembly
    [streamed_call false (arguments EmptyString); streamed_call false (arguments "12");
     streamed_call true (arguments "123}")]) as (l & ctx & E & Hc & _).
  - cbn [extending]. split_and!; try (vm_compute; reflexivity);
      [exists (arguments EmptyString)|exists "12"%string|exists "3}"%string]; split; vm_compute; reflexivity.
  - exists l, ctx. split; [exact E|exact Hc].
Defined.
