(* ===== verification/RepMove.v ===== *)
(** * Repeatable moves

    [src/crates/rep_move/src/lib.rs]: an iterator that gives copies of a value and
    the value itself last.

    The closure of a replicator may have a state: it is a value of type [R] that is
    threaded.  A [usize] is an integer; the count never grows except when the closure
    of a [MutState] sets it. *)
From S2P Require Import Prelude.

Section RepMove.
Context {T R : Type}.

(** [Replicator::replicate]: the copy, the remaining count and the closure after it. *)
Definition Replicator : Type := R -> T -> Z -> T * Z * R.

Definition saturating_sub (a b : Z) : Z := Z.max 0 (a - b).

(** The three ways to make a replicator. *)
Definition simple (f : R -> T -> T * R) : Replicator := fun r source remaining =>
  let '(item, r) := f r source in (item, saturating_sub remaining 1, r).
Definition ReadState (f : R -> T -> Z -> T * R) : Replicator := fun r source remaining =>
  let '(item, r) := f r source remaining in (item, saturating_sub remaining 1, r).
Definition MutState (f : R -> T -> Z -> T * Z * R) : Replicator := f.

Inductive State : Type := Active (source : T) (remaining : Z) (rep_fn : R) | Done.

Definition rep_new (source : T) (rep_fn : R) (count : Z) : State :=
  if count =? 0 then Done else Active source (count - 1) rep_fn.

Definition next (replicate : Replicator) (s : State) : option T * State :=
  match s with
  | Active source remaining rep_fn =>
      if 0 <? remaining then
        let '(item, remaining, rep_fn) := replicate rep_fn source remaining in
        (Some item, Active source remaining rep_fn)
      else (Some source, Done)
  | Done => (None, Done)
  end.

Definition len (s : State) : Z :=
  match s with Active _ remaining _ => wrap 64 (remaining + 1) | Done => 0 end.
Definition size_hint (s : State) : Z * option Z := (len s, Some (len s)).

(** The first [n] results. *)
Fixpoint take_next (replicate : Replicator) (n : nat) (s : State) : list (option T) * State :=
  match n with
  | O => ([], s)
  | S n =>
      let '(item, s) := next replicate s in
      let '(items, s) := take_next replicate n s in (item :: items, s)
  end.
End RepMove.
Arguments State : clear implicits.
Arguments Replicator : clear implicits.

(** ** Lemmas *)

Section Lemmas.
Context {T R : Type} (f : R -> T -> Z -> T * R).

(** The copies a closure makes, with the counts it is told. *)
Fixpoint copies (n : nat) (r : R) (source : T) : list T :=
  match n with
  | O => []
  | S n => (f r source (Z.of_nat (S n))).1 :: copies n (f r source (Z.of_nat (S n))).2 source
  end.

Lemma next_done (rep : Replicator T R) n : take_next rep n Done = (replicate n None, Done).
Proof. induction n as [|n IH]; [done|]. cbn [take_next next replicate]. by rewrite IH. Qed.

Lemma take_next_active n : forall k r source,
  take_next (ReadState f) (n + 1 + k) (Active source (Z.of_nat n) r) =
    ((Some <$> copies n r source ++ [source]) ++ replicate k None, Done).
Proof.
  induction n as [|n IH]; intros k r source.
  - cbn [Nat.add take_next next]. rewrite (proj2 (Z.ltb_ge _ _)) by lia. rewrite next_done. done.
  - cbn [Nat.add take_next]. unfold next at 1. rewrite (proj2 (Z.ltb_lt _ _)) by lia. unfold ReadState at 1.
    destruct (f r source (Z.of_nat (S n))) as [item r'] eqn:E.
    replace (saturating_sub (Z.of_nat (S n)) 1) with (Z.of_nat n) by (unfold saturating_sub; lia).
    rewrite IH. cbn [copies]. by rewrite E.
Qed.
Lemma len_active n r source k : (k <= n)%nat -> Z.of_nat n < 2 ^ 64 - 1 ->
  len (take_next (ReadState f) k (Active source (Z.of_nat n) r)).2 = Z.of_nat (n + 1 - k).
Proof.
  revert n r. induction k as [|k IH]; intros n r Hk Hn; cbn [take_next].
  - cbn [snd len]. rewrite wrap_small by (unfold in_uint; lia). lia.
  - destruct n as [|n]; [lia|]. unfold next. rewrite (proj2 (Z.ltb_lt _ _)) by lia. unfold ReadState at 1.
    destruct (f r source (Z.of_nat (S n))) as [item r'].
    replace (saturating_sub (Z.of_nat (S n)) 1) with (Z.of_nat n) by (unfold saturating_sub; lia).
    specialize (IH n r'). destruct (take_next (ReadState f) k _) as [items s]. cbn [snd] in *.
    rewrite IH by lia. lia.
Qed.
End Lemmas.

(** ** Properties *)

(** The iterator gives exactly [count] values, the original last, then nothing for
    ever, whatever the closure; the closure is told how many values remain, and the
    exact length is announced before every step.  Only a closure that sets the count
    itself ([MutState]) can break the announced length. *)
Theorem rep_move_exact {T R} (f : R -> T -> Z -> T * R) r (source : T) count extra :
  (count < 2 ^ 64)%Z -> (0 < count)%Z ->
  let it := rep_new source r count in
  take_next (ReadState f) (Z.to_nat count + extra) it =
    ((Some <$> copies f (Z.to_nat count - 1) r source ++ [source]) ++ replicate extra None, Done) /\
  (forall k, (k < Z.to_nat count)%nat ->
     size_hint (take_next (ReadState f) k it).2 = (count - Z.of_nat k, Some (count - Z.of_nat k))%Z) /\
  take_next (ReadState f) extra (rep_new source r 0) = (replicate extra None, Done) /\
  (let greedy : Replicator T R := MutState (fun r source _ => (source, 5, r)) in
   size_hint (rep_new source r 2) = (2, Some 2) /\
   (take_next greedy 4 (rep_new source r 2)).1 = [Some source; Some source; Some source; Some source]).
Proof.
  intros Hc H0. cbv zeta. unfold rep_new. rewrite (proj2 (Z.eqb_neq _ _)) by lia.
  replace (count - 1) with (Z.of_nat (Z.to_nat count - 1)) by lia. split_and!.
  - rewrite <- take_next_active. f_equal. lia.
  - intros k Hk. unfold size_hint. rewrite len_active by lia. do 2 f_equal; [|f_equal]; lia.
  - apply next_done.
  - done.
  - done.
Qed.

Lemma rep_move_exact_witness :
  (take_next (ReadState (fun (r : unit) s n => (s * 10 + n, r))%Z) 4 (rep_new 7%Z () 3)).1
    = [Some 72; Some 71; Some 7; None]%Z.
Proof.
  change 4%nat with (Z.to_nat 3 + 1)%nat.
  rewrite (proj1 (rep_move_exact (fun (r : unit) s n => (s * 10 + n, r))%Z () 7%Z 3 1 ltac:(lia) ltac:(lia))).
  reflexivity.
Defined.
