(* ===== verification/DisplayName.v ===== *)
(** * Display names of models

    [src/src/core/constant/display_name.rs] with its tokenizer, parser and
    formatter: the name shown for the identifier of a model.

    An identifier is the list of the UTF-8 bytes of the string.  Counters of type
    [u8] wrap.  The upper case of a word that starts with a character outside ASCII
    is the parameter [capitalize_unicode]. *)
From S2P Require Import Prelude Strings.

(** ** Tokens *)

Record TokenMeta : Type := mkMeta
  { is_digit_only : bool; digit_count : Z; has_dot : bool; first_char : Z; meta_len : Z }.
Record Token : Type := mkToken { content : bytes; meta : TokenMeta }.

Fixpoint scan_segment (bs : bytes) (digit_only : bool) (digits : Z) (dot : bool) : bool * Z * bool :=
  match bs with
  | [] => (digit_only, digits, dot)
  | byte :: bs =>
      if is_ascii_digit byte then scan_segment bs digit_only (wrap 8 (digits + 1)) dot
      else if byte =? 46 then scan_segment bs digit_only digits true
      else scan_segment bs false digits dot
  end.
Definition analyze_segment (segment : bytes) : TokenMeta :=
  let len := wrap 8 (zlen segment) in
  if len =? 0 then mkMeta false 0 false 0 0 else
  let '(digit_only, digits, dot) := scan_segment segment true 0 false in
  mkMeta (digit_only && negb dot) digits dot (segment !!! 0%nat) len.
Definition tokenize (identifier : bytes) : list Token :=
  (fun segment => mkToken segment (analyze_segment segment)) <$> split_on 45 identifier.

(** ** Patterns *)

Inductive Pattern : Type :=
| PGPT
| PO (n : Z)
| PVersion (v : bytes)
| PDate (d : bytes)
| PDateMarker (m : bytes)
| PWord (w : bytes).
Record ParseResult : Type := mkParse { main_parts : list Pattern; date_parts : list Pattern }.

Definition is_version_pattern (s : bytes) : bool :=
  match s with
  | b0 :: ((_ :: _) as rest) =>
      ((b0 =? 118) || (b0 =? 114) || (b0 =? 107)) && forallb (fun b => is_ascii_digit b || (b =? 46)) rest
  | _ => false
  end.

Definition capitalize_first (s : bytes) : bytes :=
  match s with
  | b :: rest => if is_ascii_lower b then (b - 97 + 65) :: rest else s
  | [] => s
  end.

Definition two_digits (t : Token) : bool := is_digit_only (meta t) && (digit_count (meta t) =? 2).
Definition tok (tokens : list Token) (i : nat) : outcome Token := unwrap (tokens !! i).

(** The three dates, tried in this order. *)
Definition try_parse_date (tokens : list Token) (start : nat) : outcome (option bytes) :=
  token ← tok tokens start;
  let count := digit_count (meta token) in
  full ← (if (count =? 4) && (start + 2 <? length tokens)%nat then
            next1 ← tok tokens (start + 1);
            next2 ← tok tokens (start + 2);
            Ret (if two_digits next1 && two_digits next2
                 then Some (content token ++ [45] ++ content next1 ++ [45] ++ content next2) else None)
          else Ret None);
  match full with
  | Some date => Ret (Some date)
  | None =>
      mmdd ← (if count =? 4 then
                b0 ← unwrap (content token !! 0%nat);
                b1 ← unwrap (content token !! 1%nat);
                let month := wrap 8 ((b0 - 48) * 10 + (b1 - 48)) in
                if (1 <=? month) && (month <=? 12) then
                  if (4 <=? length (content token))%nat
                  then Ret (Some (take 2 (content token) ++ [45] ++ take 2 (drop 2 (content token))))
                  else Panic
                else Ret None
              else Ret None);
      match mmdd with
      | Some date => Ret (Some date)
      | None =>
          if (count =? 2) && (start + 1 <? length tokens)%nat then
            next ← tok tokens (start + 1);
            Ret (if two_digits next then Some (content token ++ [45] ++ content next) else None)
          else Ret None
      end
  end.

Definition update_index_for_date (tokens : list Token) (start : nat) : outcome nat :=
  token ← tok tokens start;
  let count := digit_count (meta token) in
  if (count =? 4) || (count =? 2) then
    full ← (if (count =? 4) && (start + 2 <? length tokens)%nat then
              next1 ← tok tokens (start + 1);
              next2 ← tok tokens (start + 2);
              Ret (two_digits next1 && two_digits next2)
            else Ret false);
    if (full : bool) then Ret (start + 3)%nat else
    short ← (if (count =? 2) && (start + 1 <? length tokens)%nat then
               next ← tok tokens (start + 1); Ret (two_digits next)
             else Ret false);
    Ret (if (short : bool) then start + 2 else start + 1)%nat
  else Ret (start + 1)%nat.

(** The quick path on the first character: the pattern of a special word, and
    whether it goes to the dates. *)
Definition special (token : Token) : option (Pattern * bool) :=
  let c := first_char (meta token) in
  let len := meta_len (meta token) in
  if (c =? 103) && (len =? 3) then
    (if bool_decide (content token = as_bytes "gpt") then Some (PGPT, false) else None)
  else if (c =? 111) && (len =? 2) then
    (match content token !! 1%nat with
         | Some digit => if (digit =? 49) || (digit =? 51) || (digit =? 52) then Some (PO (digit - 48), false) else None
         | None => None
         end)
  else if ((c =? 118) || (c =? 114) || (c =? 107)) && (2 <=? len) then
    (if is_version_pattern (content token) then Some (PVersion (capitalize_first (content token)), false) else None)
  else if (c =? 108) && (len =? 6) then
    (if bool_decide (content token = as_bytes "latest") || bool_decide (content token = as_bytes "legacy")
         then Some (PDateMarker (content token), true) else None)
  else None.

(** The loop of [parse_patterns]; every turn advances [i], so the number of tokens
    and one more is enough fuel. *)
Fixpoint parse_loop (fuel : nat) (tokens : list Token) (i : nat) (main_parts date_parts : list Pattern)
    : outcome ParseResult :=
  match fuel with
  | O => Undef
  | S fuel =>
      if (length tokens <=? i)%nat then Ret (mkParse main_parts date_parts) else
      token ← tok tokens i;
      match special token with
      | Some (p, true) => parse_loop fuel tokens (i + 1) main_parts (date_parts ++ [p])
      | Some (p, false) => parse_loop fuel tokens (i + 1) (main_parts ++ [p]) date_parts
      | None =>
          if is_digit_only (meta token) then
            merge ← (if (digit_count (meta token) =? 1) && (i + 1 <? length tokens)%nat then
                       next ← tok tokens (i + 1);
                       Ret (if is_digit_only (meta next) && (digit_count (meta next) =? 1)
                            then Some (content token ++ [46] ++ content next) else None)
                     else Ret None);
            match merge with
            | Some version => parse_loop fuel tokens (i + 2) (main_parts ++ [PVersion version]) date_parts
            | None =>
                date ← (if (digit_count (meta token) =? 4) || (digit_count (meta token) =? 2)
                        then try_parse_date tokens i else Ret None);
                match date with
                | Some date =>
                    i ← update_index_for_date tokens i;
                    parse_loop fuel tokens i main_parts (date_parts ++ [PDate date])
                | None => parse_loop fuel tokens (i + 1) (main_parts ++ [PWord (content token)]) date_parts
                end
            end
          else if has_dot (meta token) then
            parse_loop fuel tokens (i + 1) (main_parts ++ [PVersion (content token)]) date_parts
          else parse_loop fuel tokens (i + 1) (main_parts ++ [PWord (content token)]) date_parts
      end
  end.
Definition parse_patterns (tokens : list Token) : outcome ParseResult :=
  parse_loop (S (length tokens)) tokens 0 [] [].

(** ** Output *)

Section Display.
Context (capitalize_unicode : bytes -> bytes).

Definition capitalize_word (word : bytes) : bytes :=
  if bool_decide (word = as_bytes "default") then as_bytes "Default" else
  match word with
  | [] => word
  | b :: rest =>
      if b <? 128 then
        if is_ascii_upper b then word else if is_ascii_lower b then (b - 97 + 65) :: rest else word
      else capitalize_unicode word
  end.
Definition main_text (p : Pattern) : bytes :=
  match p with
  | PGPT => as_bytes "GPT"
  | PO n => [79; 48 + n]
  | PVersion v => v
  | PWord w => capitalize_word w
  | _ => []
  end.
Fixpoint format_main (i : nat) (ps : list Pattern) (output : bytes) : bytes :=
  match ps with
  | [] => output
  | p :: ps =>
      let output := if (0 <? i)%nat then output ++ [32] else output in
      format_main (S i) ps (output ++ main_text p)
  end.
Fixpoint format_dates (ps : list Pattern) (output : bytes) : outcome bytes :=
  match ps with
  | [] => Ret output
  | p :: ps =>
      text ← match p with PDate d => Ret d | PDateMarker m => Ret m | _ => Panic end;
      format_dates ps (output ++ [32; 40] ++ text ++ [41])
  end.
Definition format_output (result : ParseResult) : outcome bytes :=
  format_dates (date_parts result) (format_main 0 (main_parts result) []).

Definition calculate_display_name_internal (identifier : bytes) : outcome bytes :=
  patterns ← parse_patterns (tokenize identifier); format_output patterns.

(** The cache of the names given so far is threaded. *)
Definition calculate_display_name (identifier : bytes) (cache : gmap bytes bytes)
    : outcome (bytes * gmap bytes bytes) :=
  match cache !! identifier with
  | Some cached => Ret (cached, cache)
  | None =>
      result ← (if (length identifier =? 0)%nat then Ret [] else calculate_display_name_internal identifier);
      Ret (result, <[identifier := result]> cache)
  end.
End Display.

(** ** The reference definition

    The rules as the documentation states them, on the parts of an identifier, for
    any notion [T] of part: the first rule that applies is taken. *)

Definition is_date (p : Pattern) : bool := match p with PDate _ | PDateMarker _ => true | _ => false end.
Definition month (s : bytes) : Z := (s !!! 0%nat - 48) * 10 + (s !!! 1%nat - 48).

Class Part (T : Type) : Type := {
  text : T -> bytes;
  number : Z -> T -> bool;  (** that many digits *)
  digits : T -> bool;
  dotted : T -> bool;
  word : T -> option Pattern  (** a special word *)
}.

Section Reference.
Context `{Part T}.

Definition single (t : T) : Pattern :=
  if number 4 t && ((1 <=? month (text t)) && (month (text t) <=? 12)) then
    PDate (take 2 (text t) ++ [45] ++ take 2 (drop 2 (text t)))
  else if digits t then PWord (text t)
  else if dotted t then PVersion (text t) else PWord (text t).

Fixpoint classify (ts : list T) : list Pattern :=
  match ts with
  | [] => []
  | t :: ts1 =>
      match word t with
      | Some p => p :: classify ts1
      | None =>
          match ts1 with
          | [] => [single t]
          | u :: ts2 =>
              if number 1 t && number 1 u then PVersion (text t ++ [46] ++ text u) :: classify ts2
              else if number 2 t && number 2 u then PDate (text t ++ [45] ++ text u) :: classify ts2
              else match ts2 with
                   | v :: ts3 =>
                       if number 4 t && (number 2 u && number 2 v)
                       then PDate (text t ++ [45] ++ text u ++ [45] ++ text v) :: classify ts3
                       else single t :: classify ts1
                   | [] => single t :: classify ts1
                   end
          end
      end
  end.
End Reference.

Definition render (capitalize_unicode : bytes -> bytes) (ps : list Pattern) : bytes :=
  join_with [32] (main_text capitalize_unicode <$> filter (fun p => is_date p = false) ps) ++
  List.concat ((fun p => [32; 40] ++ match p with PDate d => d | PDateMarker m => m | _ => [] end ++ [41]) <$>
    filter (fun p => is_date p = true) ps).

(** Tokens, with the counters of the code. *)
#[export] Instance token_part : Part Token := {
  text := content;
  number n t := is_digit_only (meta t) && (digit_count (meta t) =? n);
  digits t := is_digit_only (meta t);
  dotted t := has_dot (meta t);
  word t := fst <$> special t
}.

(** The texts themselves. *)
Definition all_digits (s : bytes) : bool := forallb is_ascii_digit s && negb (length s =? 0)%nat.
Definition text_word (s : bytes) : option Pattern :=
  if bool_decide (s = as_bytes "gpt") then Some PGPT
  else if bool_decide (s = as_bytes "o1") then Some (PO 1)
  else if bool_decide (s = as_bytes "o3") then Some (PO 3)
  else if bool_decide (s = as_bytes "o4") then Some (PO 4)
  else if is_version_pattern s then Some (PVersion (capitalize_first s))
  else if bool_decide (s = as_bytes "latest") || bool_decide (s = as_bytes "legacy") then Some (PDateMarker s)
  else None.
#[export] Instance text_part : Part bytes := {
  text := id;
  number n s := all_digits s && (zlen s =? n);
  digits := all_digits;
  dotted s := existsb (Z.eqb 46) s;
  word := text_word
}.

(** ** Lemmas *)

(** [f] translates parts of one kind into parts of another. *)
Definition same_part `{Part T, Part U} (f : T -> U) (t : T) : Prop :=
  text (f t) = text t /\ (forall n, number n (f t) = number n t) /\ digits (f t) = digits t /\
  dotted (f t) = dotted t /\ word (f t) = word t.

Lemma classify_ext `{Part T, Part U} (f : T -> U) ts :
  Forall (same_part f) ts -> classify (f <$> ts) = classify ts.
Proof.
  assert (S : forall t, same_part f t -> single (f t) = single t).
  { intros t (E1 & E2 & E3 & E4 & _). unfold single. by rewrite E1, E2, E3, E4. }
  remember (length ts) as n eqn:En. revert ts En. induction (lt_wf n) as [n _ IH]. intros ts -> Hts.
  assert (IHl : forall us, (length us < length ts)%nat -> Forall (same_part f) us -> classify (f <$> us) = classify us) by eauto.
  clear IH. destruct ts as [|t ts]; [done|]. apply Forall_cons in Hts as [Ht Hts].
  rewrite fmap_cons. cbn [classify]. pose proof Ht as (T1 & T2 & _ & _ & T5). rewrite T5.
  destruct (word t); [by rewrite IHl by (done || cbn; lia)|].
  destruct ts as [|u ts]; [by cbn; rewrite S|]. rewrite fmap_cons.
  pose proof Hts as H2. apply Forall_cons in H2 as [(U1 & U2 & _) H2]. rewrite S by done. rewrite !T2, !U2, T1, U1.
  pose proof (IHl (u :: ts) ltac:(cbn; lia) Hts) as E1. rewrite fmap_cons in E1.
  rewrite (IHl ts ltac:(cbn; lia) H2).
  destruct ts as [|v ts]; [by rewrite E1|]. rewrite fmap_cons in *. rewrite E1.
  apply Forall_cons in H2 as [(V1 & V2 & _) H3]. rewrite V2, V1.
  by rewrite (IHl ts ltac:(cbn; lia) H3).
Qed.

(** What the scan of a part establishes. *)
Definition digits_of (bs : bytes) : bytes := filter (fun b => is_ascii_digit b = true) bs.
Lemma scan_segment_spec bs : forall o n d, in_uint 8 n ->
  scan_segment bs o n d =
    (o && forallb (fun b => is_ascii_digit b || (b =? 46)) bs, wrap 8 (n + zlen (digits_of bs)), d || existsb (Z.eqb 46) bs).
Proof.
  induction bs as [|b bs IH]; intros o n d Hn; cbn [scan_segment forallb existsb].
  - unfold digits_of, zlen. cbn. by rewrite Z.add_0_r, wrap_small, andb_true_r, orb_false_r.
  - unfold digits_of. rewrite filter_cons. destruct (is_ascii_digit b) eqn:Hb.
    + rewrite IH by (apply wrap_range; lia). destruct (decide _) as [_|]; [|done].
      replace (46 =? b) with false by (symmetry; apply Z.eqb_neq; intros <-; done). cbn [orb andb].
      f_equal; f_equal. unfold wrap, zlen, digits_of. cbn [length]. rewrite Zplus_mod_idemp_l. f_equal. lia.
    + destruct (decide _) as [|_]; [done|]. rewrite (Z.eqb_sym 46 b). destruct (b =? 46); rewrite IH by done; cbn [orb andb];
        rewrite ?orb_true_r, ?andb_false_r; reflexivity.
Qed.

Lemma digits_no_dot bs :
  forallb (fun b => is_ascii_digit b || (b =? 46)) bs && negb (existsb (Z.eqb 46) bs) = forallb is_ascii_digit bs.
Proof.
  induction bs as [|b bs IH]; [done|]. cbn [forallb existsb]. rewrite <- IH, (Z.eqb_sym 46 b).
  destruct (Z.eqb_spec b 46) as [->|]; [cbn; by rewrite andb_false_r|]. rewrite orb_false_r. cbn [orb].
  by rewrite andb_assoc.
Qed.
Lemma digits_of_all bs : forallb is_ascii_digit bs = true -> digits_of bs = bs.
Proof.
  unfold digits_of. induction bs as [|b bs IH]; [done|]. cbn [forallb]. intros [Hb Hbs]%andb_true_iff.
  rewrite filter_cons. destruct (decide _); [by rewrite IH|done].
Qed.

(** Use what is known of ASCII digits in arithmetic. *)
Ltac forallb_digits :=
  repeat match goal with H : Forall _ (_ :: _) |- _ => apply Forall_cons in H as [? H] end;
  unfold is_ascii_digit in *; rewrite ?andb_true_iff, ?Z.leb_le in *; apply wrap_small; unfold in_uint; lia.

Definition token_ok (t : Token) : Prop :=
  is_digit_only (meta t) = true ->
  Forall (fun b => is_ascii_digit b = true) (content t) /\ digit_count (meta t) = wrap 8 (zlen (content t)).

Lemma analyze_spec s : analyze_segment s =
  if wrap 8 (zlen s) =? 0 then mkMeta false 0 false 0 0
  else mkMeta (forallb is_ascii_digit s) (wrap 8 (zlen (digits_of s))) (existsb (Z.eqb 46) s) (s !!! 0%nat) (wrap 8 (zlen s)).
Proof.
  unfold analyze_segment. destruct (_ =? 0); [done|]. rewrite scan_segment_spec by by_decision.
  by rewrite Z.add_0_l, andb_true_l, digits_no_dot, orb_false_l.
Qed.
Lemma tokens_ok s : Forall token_ok (tokenize s).
Proof.
  apply Forall_fmap, Forall_forall. intros seg _. cbn. intros H. cbn in *. rewrite analyze_spec in *.
  destruct (_ =? 0); [done|]. cbn in *. split; [by apply forallb_Forall|].
  by rewrite digits_of_all.
Qed.

Lemma Forall_token_ok_inv t ts : Forall token_ok (t :: ts) -> token_ok t /\ Forall token_ok ts.
Proof. by rewrite Forall_cons. Qed.

(** The date at the start of a list of tokens, with the number of tokens it takes. *)
Definition date_at (t : Token) (ts : list Token) : option (bytes * nat) :=
  let mmdd :=
    if number 4 t && ((1 <=? month (text t)) && (month (text t) <=? 12))
    then Some (take 2 (text t) ++ [45] ++ take 2 (drop 2 (text t)), 1%nat) else None in
  match ts with
  | u :: v :: _ =>
      if number 4 t && (number 2 u && number 2 v)
      then Some (text t ++ [45] ++ text u ++ [45] ++ text v, 3%nat)
      else if number 2 t && number 2 u then Some (text t ++ [45] ++ text u, 2%nat) else mmdd
  | [u] => if number 2 t && number 2 u then Some (text t ++ [45] ++ text u, 2%nat) else mmdd
  | [] => mmdd
  end.

Lemma tok_app pre suf k : tok (pre ++ suf) (length pre + k) = unwrap (suf !! k).
Proof. unfold tok. by rewrite lookup_app_r, Nat.add_comm, Nat.add_sub by lia. Qed.
Lemma tok_app0 pre suf : tok (pre ++ suf) (length pre) = unwrap (suf !! 0%nat).
Proof. by rewrite <- (Nat.add_0_r (length pre)), tok_app. Qed.
Lemma ltb_app {A} (pre suf : list A) k : (length pre + k <? length (pre ++ suf))%nat = (k <? length suf)%nat.
Proof. rewrite length_app. destruct (Nat.ltb_spec k (length suf)); [apply Nat.ltb_lt|apply Nat.ltb_ge]; lia. Qed.

Lemma four_digits t : token_ok t -> is_digit_only (meta t) = true -> digit_count (meta t) = 4 ->
  exists b0 b1 b2 b3 rest, content t = b0 :: b1 :: b2 :: b3 :: rest /\
    wrap 8 ((b0 - 48) * 10 + (b1 - 48)) = month (content t).
Proof.
  intros H Hd Hc. destruct (H Hd) as [HF Hn]. rewrite Hc in Hn.
  assert (4 <= zlen (content t)).
  { destruct (Z.ltb_spec (zlen (content t)) 256) as [Hl|]; [|lia]. rewrite wrap_small in Hn; [lia|]. unfold in_uint, zlen in *. lia. }
  destruct (content t) as [|b0 [|b1 [|b2 [|b3 rest]]]]; unfold zlen in *; cbn [length] in *; try lia.
  exists b0, b1, b2, b3, rest. split; [done|]. unfold month. cbn. forallb_digits.
Qed.

Lemma number_true (n : Z) (t : Token) : number n t = true <-> is_digit_only (meta t) = true /\ digit_count (meta t) = n.
Proof. cbn. by rewrite andb_true_iff, Z.eqb_eq. Qed.
Lemma number_count n (t : Token) : is_digit_only (meta t) = true -> number n t = (digit_count (meta t) =? n).
Proof. cbn. by intros ->. Qed.

Lemma try_parse_date_spec pre t ts : token_ok t -> is_digit_only (meta t) = true ->
  try_parse_date (pre ++ t :: ts) (length pre) = Ret (fst <$> date_at t ts) /\
  (forall d k, date_at t ts = Some (d, k) -> update_index_for_date (pre ++ t :: ts) (length pre) = Ret (length pre + k)%nat).
Proof.
  intros Hok Hd. unfold try_parse_date, update_index_for_date, date_at.
  rewrite tok_app0, !ltb_app, !tok_app. cbn [lookup list_lookup unwrap mbind outcome_bind length].
  rewrite !(number_count _ t) by done. change (two_digits) with (number (T:=Token) 2). change content with (text (T:=Token)).
  destruct (Z.eqb_spec (digit_count (meta t)) 4) as [H4|H4].
  - rewrite H4. cbn [Z.eqb Pos.eqb orb andb].
    destruct (four_digits t Hok Hd H4) as (b0 & b1 & b2 & b3 & rest & E & M). change content with (text (T:=Token)) in *.
    destruct ts as [|u [|v ts]]; cbn [Nat.ltb Nat.leb length lookup list_lookup unwrap mbind outcome_bind andb];
      try (destruct (number 2 u && number 2 v)); cbn [mbind outcome_bind fst option_fmap option_map];
      rewrite ?E; cbn [lookup list_lookup unwrap mbind outcome_bind length Nat.leb]; rewrite ?M, ?E;
      (destruct (_ && _) || idtac); cbn; (split; [done|]); by intros ? ? [= <- <-].
  - cbn [andb]. cbn [mbind outcome_bind].
    destruct (Z.eqb_spec (digit_count (meta t)) 2) as [H2|H2]; cbn [orb andb].
    + destruct ts as [|u [|v ts]]; cbn [Nat.ltb Nat.leb length lookup list_lookup unwrap mbind outcome_bind];
        try (destruct (number 2 u)); cbn; (split; [done|]); by intros ? ? [= <- <-].
    + destruct ts as [|u [|v ts]]; cbn; (split; [done|]); by intros ? ? ?.
Qed.

Lemma classify_digits (t : Token) ts : word t = None -> is_digit_only (meta t) = true ->
  classify (t :: ts) =
    match ts with
    | u :: ts2 =>
        if number 1 t && number 1 u then PVersion (text t ++ [46] ++ text u) :: classify ts2
        else match date_at t ts with Some (d, k) => PDate d :: classify (drop k (t :: ts)) | None => PWord (text t) :: classify ts end
    | [] => match date_at t ts with Some (d, k) => PDate d :: classify (drop k (t :: ts)) | None => PWord (text t) :: classify ts end
    end.
Proof.
  intros Hw Hd. cbn [classify]. rewrite Hw.
  assert (S : single t = match (if number 4 t && ((1 <=? month (text t)) && (month (text t) <=? 12))
      then Some (take 2 (text t) ++ [45] ++ take 2 (drop 2 (text t)), 1%nat) else None) with
      Some (d, _) => PDate d | None => PWord (text t) end).
  { unfold single. destruct (_ && _); [done|]. cbn [digits token_part]. by rewrite Hd. }
  destruct ts as [|u [|v ts]]; unfold date_at.
  - rewrite S. destruct (_ && _); done.
  - destruct (number 1 t && number 1 u); [done|]. destruct (number 2 t && number 2 u); [done|].
    rewrite S. destruct (_ && _); done.
  - destruct (number 1 t && number 1 u) eqn:E1; [done|].
    destruct (number 2 t && number 2 u) eqn:E2.
    + apply andb_true_iff in E2 as [E2 _]. apply number_true in E2 as [_ E2]. rewrite !(number_count _ t), E2 by done.
      done.
    + destruct (number 4 t && (number 2 u && number 2 v)); [done|]. rewrite S. destruct (_ && _); done.
Qed.

Lemma special_date t p b : special t = Some (p, b) -> b = is_date p.
Proof.
  unfold special. intros H.
  repeat match type of H with context [match ?x with _ => _ end] => destruct x; try discriminate H end;
    by injection H as <- <-.
Qed.

Definition mains (ps : list Pattern) : list Pattern := filter (fun p => is_date p = false) ps.
Definition dates (ps : list Pattern) : list Pattern := filter (fun p => is_date p = true) ps.
Lemma mains_cons p ps : mains (p :: ps) = (if is_date p then [] else [p]) ++ mains ps.
Proof. unfold mains. rewrite filter_cons. by destruct (is_date p). Qed.
Lemma dates_cons p ps : dates (p :: ps) = (if is_date p then [p] else []) ++ dates ps.
Proof. unfold dates. rewrite filter_cons. by destruct (is_date p). Qed.

Lemma date_at_length t ts d k : date_at t ts = Some (d, k) -> (1 <= k <= length (t :: ts))%nat.
Proof.
  unfold date_at. intros H. destruct ts as [|u [|v ts]]; cbn [length];
    repeat match type of H with context [if ?x then _ else _] => destruct x; try discriminate H end;
    injection H as _ <-; lia.
Qed.

Lemma date_at_None t ts : is_digit_only (meta t) = true ->
  (digit_count (meta t) =? 4) || (digit_count (meta t) =? 2) = false -> date_at t ts = None.
Proof.
  intros Hd [N4 N2]%orb_false_iff. unfold date_at. rewrite !(number_count _ t), N4, N2 by done.
  by destruct ts as [|u [|v ts]].
Qed.

(** The patterns pushed so far, and one more. *)
Ltac push_pattern := rewrite mains_cons, dates_cons; cbn [is_date]; by rewrite <- ?app_assoc.

Lemma parse_loop_spec fuel : forall pre suf main date, Forall token_ok suf -> (length suf < fuel)%nat ->
  parse_loop fuel (pre ++ suf) (length pre) main date =
    Ret (mkParse (main ++ mains (classify suf)) (date ++ dates (classify suf))).
Proof.
  induction fuel as [|fuel IH]; intros pre suf main date Hok Hf; [lia|]. cbn [parse_loop].
  assert (Step : forall taken rest main date, suf = taken ++ rest -> (1 <= length taken)%nat ->
    parse_loop fuel (pre ++ suf) (length pre + length taken) main date =
      Ret (mkParse (main ++ mains (classify rest)) (date ++ dates (classify rest)))).
  { intros taken rest main' date' -> Ht. rewrite app_assoc. rewrite <- length_app. apply IH.
    - by apply Forall_app in Hok as [_ ?].
    - rewrite length_app in Hf. lia. }
  destruct suf as [|t ts].
  { rewrite app_nil_r, (proj2 (Nat.leb_le _ _)) by lia. cbn. by rewrite !app_nil_r. }
  rewrite (proj2 (Nat.leb_gt _ _)) by (rewrite length_app; cbn; lia).
  rewrite tok_app0. cbn [lookup list_lookup unwrap mbind outcome_bind].
  pose proof (Step [t] ts) as S1. cbn [length app] in S1.
  destruct (special t) as [[p b]|] eqn:Hsp.
  { assert (W : classify (t :: ts) = p :: classify ts) by (cbn [classify]; cbn [word token_part]; by rewrite Hsp).
    apply special_date in Hsp as ->. rewrite W, mains_cons, dates_cons.
    destruct (is_date p); rewrite S1 by (done || lia); by rewrite <- ?app_assoc. }
  assert (W : word t = None) by (cbn; by rewrite Hsp).
  assert (Single : is_digit_only (meta t) = false -> classify (t :: ts) = single t :: classify ts).
  { intros Hd. cbn [classify]. rewrite W. destruct ts as [|u [|v ts]]; cbn [number token_part]; by rewrite ?Hd. }
  apply Forall_token_ok_inv in Hok as [Ht _].
  destruct (is_digit_only (meta t)) eqn:Hd.
  2:{ rewrite Single by done. unfold single. cbn [number digits dotted token_part]. rewrite Hd. cbn [andb].
      destruct (has_dot (meta t)); rewrite S1 by (done || lia); push_pattern. }
  rewrite classify_digits by done. rewrite ltb_app, tok_app. destruct (try_parse_date_spec pre t ts Ht Hd) as [E1 E2].
  assert (Date : (date0 ← (if (digit_count (meta t) =? 4) || (digit_count (meta t) =? 2)
                then try_parse_date (pre ++ t :: ts) (length pre) else Ret None);
              match date0 with
              | Some date0 =>
                  i ← update_index_for_date (pre ++ t :: ts) (length pre);
                  parse_loop fuel (pre ++ t :: ts) i main (date ++ [PDate date0])
              | None => parse_loop fuel (pre ++ t :: ts) (length pre + 1) (main ++ [PWord (content t)]) date
              end) =
    let ps := match date_at t ts with Some (d, k) => PDate d :: classify (drop k (t :: ts)) | None => PWord (text t) :: classify ts end in
    Ret (mkParse (main ++ mains ps) (date ++ dates ps))).
  { rewrite E1. destruct (_ || _) eqn:E; [|rewrite (date_at_None _ _ Hd E)]; cbn [mbind outcome_bind].
    - destruct (date_at t ts) as [[d k]|] eqn:Ed; cbn [fmap option_fmap option_map fst].
      + rewrite (E2 d k) by done. cbn [mbind outcome_bind]. pose proof (date_at_length _ _ _ _ Ed) as Hk.
        replace k with (length (take k (t :: ts))) at 1 by (rewrite length_take; lia).
        rewrite (Step (take k (t :: ts)) (drop k (t :: ts))) by (rewrite ?take_drop, ?length_take; done || lia).
        cbv zeta. push_pattern.
      + rewrite S1 by (done || lia). cbv zeta. push_pattern.
    - rewrite S1 by (done || lia). cbv zeta. push_pattern. }
  destruct ts as [|u ts].
  { rewrite andb_false_r. cbn [mbind outcome_bind]. exact Date. }
  rewrite (number_count 1 t) by done. cbn [Nat.ltb Nat.leb length lookup list_lookup unwrap mbind outcome_bind].
  rewrite andb_true_r. destruct (digit_count (meta t) =? 1) eqn:E; [|exact Date].
  cbn [mbind outcome_bind andb]. change (is_digit_only (meta u) && (digit_count (meta u) =? 1)) with (number 1 u).
  destruct (number 1 u); [|exact Date].
  rewrite (Step [t; u] ts) by (done || cbn; lia). push_pattern.
Qed.

(** ** Short parts: the counters are exact *)

Lemma bool_decide_cons (a b : Z) (l k : bytes) : bool_decide (a :: l = b :: k) = (a =? b) && bool_decide (l = k).
Proof.
  destruct (Z.eqb_spec a b) as [->|N]; cbn [andb].
  - apply bool_decide_ext. split; [by intros [= ->]|by intros ->].
  - apply bool_decide_eq_false. congruence.
Qed.
Lemma bool_decide_length (l k : bytes) : zlen l <> zlen k -> bool_decide (l = k) = false.
Proof. intros H. apply bool_decide_eq_false. by intros ->. Qed.

Ltac zlen_lia := unfold zlen in *; cbn [length] in *; lia.

Lemma special_text s : zlen s < 256 -> fst <$> special (mkToken s (analyze_segment s)) = text_word s.
Proof.
  intros Hs. destruct s as [|c r]; [reflexivity|].
  assert (Hl : zlen (c :: r) = 1 + zlen r) by (unfold zlen; cbn [length]; lia). assert (Hr : 0 <= zlen r) by (unfold zlen; lia).
  rewrite analyze_spec, wrap_small by (unfold in_uint; lia).
  rewrite (proj2 (Z.eqb_neq (zlen (c :: r)) 0)) by lia.
  unfold special, text_word. cbn [meta first_char meta_len content]. change ((c :: r) !!! 0%nat) with c.
  change (as_bytes "gpt") with [103; 112; 116]. change (as_bytes "o1") with [111; 49]. change (as_bytes "o3") with [111; 51].
  change (as_bytes "o4") with [111; 52]. change (as_bytes "latest") with [108; 97; 116; 101; 115; 116].
  change (as_bytes "legacy") with [108; 101; 103; 97; 99; 121]. rewrite !bool_decide_cons.
  destruct (Z.eqb_spec c 103) as [->|N1]; cbn [andb orb Z.eqb Pos.eqb].
  { change (is_version_pattern (103 :: r)) with (match r with [] => false | _ => false end).
    destruct (Z.eqb_spec (zlen (103 :: r)) 3); [by destruct (bool_decide _), r|].
    rewrite bool_decide_length by zlen_lia. by destruct r. }
  destruct (Z.eqb_spec c 111) as [->|N2]; cbn [andb orb Z.eqb Pos.eqb].
  { change (is_version_pattern (111 :: r)) with (match r with [] => false | _ => false end).
    destruct (Z.eqb_spec (zlen (111 :: r)) 2) as [E|].
    - destruct r as [|d [|? r]]; [zlen_lia| |zlen_lia]. cbn [lookup list_lookup].
      rewrite !bool_decide_cons, !(bool_decide_eq_true_2 (@nil Z = [])) by done. rewrite !andb_true_r.
      destruct (Z.eqb_spec d 49) as [->|]; [done|]. destruct (Z.eqb_spec d 51) as [->|]; [done|].
      by destruct (Z.eqb_spec d 52) as [->|].
    - rewrite !(bool_decide_length r) by zlen_lia. by destruct r. }
  assert (V : is_version_pattern (c :: r) =
    ((c =? 118) || (c =? 114) || (c =? 107)) && (2 <=? zlen (c :: r)) && forallb (fun b => is_ascii_digit b || (b =? 46)) r).
  { destruct r as [|d r]; [cbn; by rewrite andb_false_r|]. cbn [is_version_pattern].
    rewrite (proj2 (Z.leb_le 2 _)) by zlen_lia. by rewrite andb_true_r. }
  rewrite V. destruct ((c =? 118) || (c =? 114) || (c =? 107)) eqn:E3; cbn [andb].
  { assert (N4 : (c =? 108) = false).
    { apply Z.eqb_neq. intros ->. discriminate E3. }
    rewrite N4. cbn [andb orb]. destruct (2 <=? _); cbn [andb]; [by destruct (forallb _ _)|done]. }
  destruct (Z.eqb_spec c 108) as [->|N4]; cbn [andb orb]; [|done].
  destruct (Z.eqb_spec (zlen (108 :: r)) 6); [by repeat destruct (bool_decide _)|].
  rewrite !(bool_decide_length r) by zlen_lia. done.
Qed.

Lemma analyze_same s : zlen s < 256 -> same_part (fun s => mkToken s (analyze_segment s)) s.
Proof.
  intros Hs. unfold same_part. cbn [text number digits dotted word token_part text_part content meta id].
  assert (Hz : 0 <= zlen s) by (unfold zlen; lia).
  rewrite special_text by done. rewrite analyze_spec, wrap_small by (unfold in_uint; lia). unfold all_digits.
  assert (E0 : (length s =? 0)%nat = (zlen s =? 0)).
  { unfold zlen. destruct (Nat.eqb_spec (length s) 0), (Z.eqb_spec (Z.of_nat (length s)) 0); lia. }
  rewrite E0. destruct (Z.eqb_spec (zlen s) 0) as [H0|]; cbn [is_digit_only digit_count has_dot negb andb].
  - destruct s; [|unfold zlen in H0; cbn in H0; lia]. done.
  - rewrite andb_true_r. split_and!; try done. intros k. destruct (forallb _ _) eqn:HF; [|done]. cbn [andb].
    by rewrite digits_of_all, wrap_small by (done || unfold in_uint; lia).
Qed.

(** ** Output *)

Section Output.
Context (capitalize_unicode : bytes -> bytes).

Lemma format_main_spec ps : forall i output,
  format_main capitalize_unicode i ps output =
    output ++ (if (0 <? i)%nat && negb (length ps =? 0)%nat then [32] else []) ++
      join_with [32] (main_text capitalize_unicode <$> ps).
Proof.
  induction ps as [|p ps IH]; intros i output; cbn [format_main].
  - rewrite andb_false_r. cbn. by rewrite app_nil_r.
  - rewrite IH, fmap_cons. cbn [Nat.ltb Nat.leb length Nat.eqb negb]. rewrite andb_true_r.
    destruct ps as [|q ps]; cbn [length Nat.eqb negb andb join_with fmap list_fmap];
      destruct i; rewrite ?app_nil_l, <- ?app_assoc, ?app_nil_r; reflexivity.
Qed.
Lemma format_dates_spec ps : Forall (fun p => is_date p = true) ps -> forall output,
  format_dates ps output =
    Ret (output ++ List.concat ((fun p => [32; 40] ++ match p with PDate d => d | PDateMarker m => m | _ => [] end ++ [41]) <$> ps)).
Proof.
  induction 1 as [|p ps Hp _ IH]; intros output; cbn [format_dates]; [cbn; by rewrite app_nil_r|].
  rewrite fmap_cons. destruct p; try discriminate Hp; cbn [mbind outcome_bind List.concat];
    rewrite IH, <- ?app_assoc; reflexivity.
Qed.

(** Every identifier has a name: that of its classified tokens. *)
Lemma display_name_tokens s :
  calculate_display_name_internal capitalize_unicode s = Ret (render capitalize_unicode (classify (tokenize s))).
Proof.
  unfold calculate_display_name_internal, parse_patterns.
  rewrite (parse_loop_spec _ [] (tokenize s)) by (apply tokens_ok || lia). cbn [mbind outcome_bind app].
  unfold format_output. cbn [main_parts date_parts]. rewrite format_main_spec, format_dates_spec.
  - done.
  - apply Forall_forall. intros p Hp. by apply list_elem_of_filter in Hp as [? _].
Qed.
Lemma display_name_texts s : Forall (fun seg => zlen seg < 256) (split_on 45 s) ->
  classify (tokenize s) = classify (split_on 45 s).
Proof.
  intros H. unfold tokenize. apply (classify_ext (fun s => mkToken s (analyze_segment s))).
  eapply Forall_impl; [exact H|]. apply analyze_same.
Qed.

(** The names the cache should hold. *)
Definition cache_ok (cache : gmap bytes bytes) : Prop :=
  map_Forall (fun s name => name = render capitalize_unicode (classify (tokenize s))) cache.
End Output.

(** ** Properties *)

(** The display name of a model is the one of the documented rules (version
    numbers merged, dates and time marks in brackets, special words, the other parts
    capitalised), provided no part of the identifier has 256 bytes; longer parts are
    cut, because their digits are counted in a [u8]. *)
Theorem display_name_rules capitalize_unicode identifier :
  Forall (fun seg => zlen seg < 256) (split_on 45 identifier) ->
  calculate_display_name_internal capitalize_unicode identifier =
    Ret (render capitalize_unicode (classify (split_on 45 identifier))) /\
  calculate_display_name_internal capitalize_unicode (replicate 260 49) = Ret (as_bytes " (11-11)").
Proof.
  intros H. split; [|by vm_compute]. by rewrite display_name_tokens, display_name_texts.
Qed.

Lemma display_name_rules_witness :
  calculate_display_name_internal id (as_bytes "gpt-4-turbo-2024-04-09") = Ret (as_bytes "GPT 4 Turbo (2024-04-09)").
Proof.
  rewrite (proj1 (display_name_rules id (as_bytes "gpt-4-turbo-2024-04-09") ltac:(by_decision))).
  vm_compute. reflexivity.
Defined.

(** Naming a model always returns, without a panic, whatever the identifier, and
    the cache is transparent: a cache that holds right names gives the right name and
    keeps holding right names. *)
Theorem display_name_cache capitalize_unicode identifier cache :
  cache_ok capitalize_unicode cache ->
  exists name cache', calculate_display_name capitalize_unicode identifier cache = Ret (name, cache') /\
    name = render capitalize_unicode (classify (tokenize identifier)) /\
    cache' !! identifier = Some name /\ cache ⊆ cache' /\ cache_ok capitalize_unicode cache'.
Proof.
  intros Hc. unfold calculate_display_name. destruct (cache !! identifier) as [name|] eqn:E.
  - exists name, cache. by split_and!; try done; apply (Hc identifier name E).
  - assert (R : (if (length identifier =? 0)%nat then Ret [] else calculate_display_name_internal capitalize_unicode identifier)
        = Ret (render capitalize_unicode (classify (tokenize identifier)))).
    { destruct identifier; [done|apply display_name_tokens]. }
    rewrite R. cbn [mbind outcome_bind]. eexists _, _. split; [reflexivity|]. split_and!; [done|by apply lookup_insert_eq| |].
    + by apply insert_subseteq.
    + apply map_Forall_insert_2; [done|exact Hc].
Qed.

Lemma display_name_cache_witness :
  exists cache, calculate_display_name id (as_bytes "o3-mini") ∅ = Ret (as_bytes "O3 Mini", cache).
Proof.
  destruct (display_name_cache id (as_bytes "o3-mini") ∅ (map_Forall_empty _)) as (name & cache & E & En & _).
  exists cache. rewrite E, En. vm_compute. reflexivity.
Defined.
