(* ===== verification/Settings.v ===== *)
(** * Settings

    Values read from the environment ([parse_from_env] of [src/src/common/utils.rs]),
    the enumerations of settings ([vision_ability.rs], [fetch_model.rs],
    [id_source.rs], [context_fill_mode.rs], [usage_check.rs] of [src/src/app/model]),
    the global [AppConfig] of [src/src/app/model/config.rs] and the handler of
    [src/src/app/config.rs] that reads and changes it.

    Strings are their bytes.  A variable of the environment is a value of
    [string -> option bytes]: [None] when it is unset or not Unicode.  The global
    configuration, with the flag [IS_SHARE], is a value that is threaded. *)
From S2P Require Import Prelude Strings RepMove.

Definition eq_str (s : bytes) (c : string) : bool := bool_decide (s = as_bytes c).

(** ** Variables of the environment *)

Definition Env : Type := string -> option bytes.

Definition parse_bool_from_env (env : Env) (key : string) (default : bool) : bool :=
  match env key with
  | Some val =>
      let res := trim (to_ascii_lowercase val) in
      if eq_str res "true" || eq_str res "1" then true
      else if eq_str res "false" || eq_str res "0" then false else default
  | None => default
  end.

(** [Vec::copy_within] to the front, then [set_len]. *)
Definition copy_within (v : bytes) (start len : nat) : bytes := take len (drop start v) ++ drop len v.
Definition parse_str_from_env (env : Env) (key : string) (default : bytes) : bytes :=
  match env key with
  | Some value =>
      let trimmed := trim value in
      if (length trimmed =? 0)%nat then default
      else if (length trimmed =? length value)%nat then value
      else
        let start_offset := (length value - length (trim_start value))%nat in
        let vec := if (0 <? start_offset)%nat then copy_within value start_offset (length trimmed) else value in
        take (length trimmed) vec
  | None => default
  end.

(** The unsigned types. *)
Definition parse_num_from_env (w : Z) (env : Env) (key : string) (default : Z) : Z :=
  match env key with
  | Some v => match parse_uint w (from_bytes (trim v)) with Some n => n | None => default end
  | None => default
  end.

(** ** Enumerations *)

Inductive VisionAbility : Type := VNone | VBase64 | VAll.
Definition vision_default : VisionAbility := VBase64.
Definition vision_from_str (s : bytes) : VisionAbility :=
  let s := to_ascii_lowercase s in
  if eq_str s "none" || eq_str s "disabled" then VNone
  else if eq_str s "base64" || eq_str s "base64-only" then VBase64
  else if eq_str s "all" || eq_str s "base64-http" then VAll
  else vision_default.
Definition vision_is_none (v : VisionAbility) : bool := match v with VNone => true | _ => false end.
Definition vision_as_str (v : VisionAbility) : bytes :=
  as_bytes (match v with VNone => "none" | VBase64 => "base64" | VAll => "all" end).

Inductive FetchMode : Type := Truncate | AppendTruncate | Append.
Definition fetch_default : FetchMode := Truncate.
Definition fetch_from_str (s : bytes) : FetchMode :=
  let s := to_ascii_lowercase s in
  if eq_str s "truncate" then Truncate
  else if eq_str s "append:truncate" then AppendTruncate
  else if eq_str s "append" then Append
  else fetch_default.
Definition fetch_as_str (m : FetchMode) : bytes :=
  as_bytes (match m with Truncate => "truncate" | AppendTruncate => "append:truncate" | Append => "append" end).

Inductive ModelIdSource : Type := IdSource | ClientIdSource | ServerIdSource.
Definition source_default : ModelIdSource := ClientIdSource.
Definition source_from_env (env : Env) : ModelIdSource :=
  let s := to_ascii_lowercase (parse_str_from_env env "MODEL_ID_SOURCE" []) in
  if eq_str s "id" then IdSource
  else if eq_str s "client_id" then ClientIdSource
  else if eq_str s "server_id" then ServerIdSource
  else source_default.
Definition source_as_str (s : ModelIdSource) : bytes :=
  as_bytes (match s with IdSource => "id" | ClientIdSource => "client_id" | ServerIdSource => "server_id" end).

#[export] Instance vision_eq_dec : EqDecision VisionAbility.
Proof. solve_decision. Defined.
#[export] Instance fetch_eq_dec : EqDecision FetchMode.
Proof. solve_decision. Defined.

(** ** Where instructions go *)

Record ContextFillMode : Type := mkFillMode { f_context : bool; f_repo_context : bool; f_mode_specific_context : bool }.
Definition from_bits (value : Z) : ContextFillMode :=
  mkFillMode (negb (Z.land value 1 =? 0)) (negb (Z.land value 2 =? 0)) (negb (Z.land value 4 =? 0)).
Definition fill_mode_init (env : Env) : ContextFillMode := from_bits (parse_num_from_env 8 env "CONTEXT_FILL_MODE" 1).

Record ExplicitContext : Type := mkExplicit
  { e_context : bytes; e_repo_context : option bytes; e_mode_specific_context : option bytes }.
Definition explicit_default : ExplicitContext := mkExplicit [] None None.

Definition clone : Replicator bytes () := simple (fun r s => (s, r)).
Definition create_explicit_context (mode : ContextFillMode) (instructions : bytes) : outcome (option ExplicitContext) :=
  if (length (trim instructions) =? 0)%nat then Ret None else
  let count := Z.b2z (f_context mode) + Z.b2z (f_repo_context mode) + Z.b2z (f_mode_specific_context mode) in
  if count =? 0 then Ret None
  else if count =? 1 then
    Ret (Some (if f_context mode then mkExplicit instructions None None
               else if f_repo_context mode then mkExplicit [] (Some instructions) None
               else mkExplicit [] None (Some instructions)))
  else
    let iter := rep_new instructions () count in
    '(context, iter) ← (if f_context mode then
                          let '(item, iter) := next clone iter in item ← unwrap item; Ret (item, iter)
                        else Ret ([], iter));
    let '(repo_context, iter) := if f_repo_context mode then next clone iter else (None, iter) in
    let '(mode_specific_context, _) := if f_mode_specific_context mode then next clone iter else (None, iter) in
    Ret (Some (mkExplicit context repo_context mode_specific_context)).

(** ** Which models are checked for usage *)

Inductive UsageCheck : Type := UNone | UDefault | UAll | UCustom (models : list bytes).
#[export] Instance usage_eq_dec : EqDecision UsageCheck.
Proof. solve_decision. Defined.
Definition usage_default : UsageCheck := UDefault.

Inductive UsageCheckModelType : Type := TDefault | TDisabled | TAll | TCustom.
Record UsageCheckModel : Type := mkUsageCheckModel { um_type : UsageCheckModelType; um_model_ids : list bytes }.

(** A value of a JSON object, as far as it is read. *)
Inductive JsonValue : Type := JString (s : bytes) | JOther.
Inductive SerdeError : Type := MissingField (field : string) | UnknownVariant (s : bytes) | NotAString.

(** [Models::find_id] followed by [m.id]. *)
Section UsageCheck.
Context (find_id : bytes -> option bytes).

Definition parse_custom_models (s : bytes) : UsageCheck :=
  let models := omap (fun model => find_id (trim model)) (split_on 44 s) in
  match models with [] => usage_default | _ => UCustom models end.
Definition usage_from_str (s : bytes) : UsageCheck :=
  let l := to_ascii_lowercase s in
  if eq_str l "none" || eq_str l "disabled" then UNone
  else if eq_str l "default" then UDefault
  else if eq_str l "all" || eq_str l "everything" then UAll
  else parse_custom_models s.
Definition usage_from_proto (model : UsageCheckModel) : UsageCheck :=
  match um_type model with
  | TDefault | TDisabled => UNone
  | TAll => UAll
  | TCustom => match omap find_id (um_model_ids model) with [] => UNone | models => UCustom models end
  end.
Definition type_str (u : UsageCheck) : bytes :=
  as_bytes (match u with UNone => "none" | UDefault => "default" | UAll => "all" | UCustom _ => "list" end).

(** The fields of the JSON object. *)
Definition usage_serialize (u : UsageCheck) : list (bytes * JsonValue) :=
  match u with
  | UCustom models => [(as_bytes "type", JString (as_bytes "list")); (as_bytes "content", JString (join_with [44] models))]
  | _ => [(as_bytes "type", JString (type_str u))]
  end.

Fixpoint visit_map (fields : list (bytes * JsonValue)) (type_value content_value : option bytes)
    : result SerdeError (option bytes * option bytes) :=
  match fields with
  | [] => Ok (type_value, content_value)
  | (key, value) :: fields =>
      if eq_str key "type" then
        match value with JString s => visit_map fields (Some s) content_value | JOther => Err NotAString end
      else if eq_str key "content" then
        match value with JString s => visit_map fields type_value (Some s) | JOther => Err NotAString end
      else visit_map fields type_value content_value
  end.
Definition usage_deserialize (fields : list (bytes * JsonValue)) : result SerdeError UsageCheck :=
  '(type_value, content_value) ← visit_map fields None None;
  type_str ← ok_or type_value (MissingField "type");
  if eq_str type_str "none" then Ok UNone
  else if eq_str type_str "default" then Ok UDefault
  else if eq_str type_str "all" then Ok UAll
  else if eq_str type_str "list" then
    content ← ok_or content_value (MissingField "content");
    Ok (if (length content =? 0)%nat then UNone else parse_custom_models content)
  else Err (UnknownVariant type_str).
End UsageCheck.

(** ** The configuration *)

Record AppConfig : Type := mkConfig
  { vision_ability : VisionAbility; slow_pool : bool; long_context : bool; usage_check : UsageCheck;
    dynamic_key : bool; share_token : bytes; web_refs : bool; fetch_models : FetchMode }.
Definition config_default : AppConfig :=
  mkConfig vision_default false false usage_default false [] false fetch_default.

(** The two globals: [APP_CONFIG] and [IS_SHARE]. *)
Record Globals : Type := mkGlobals { config : AppConfig; is_share : bool }.

Definition config_init (find_id : bytes -> option bytes) (env : Env) : Globals :=
  let share_token := parse_str_from_env env "SHARED_TOKEN" [] in
  mkGlobals
    (mkConfig (vision_from_str (parse_str_from_env env "VISION_ABILITY" []))
       (parse_bool_from_env env "ENABLE_SLOW_POOL" false)
       (parse_bool_from_env env "ENABLE_LONG_CONTEXT" false)
       (usage_from_str find_id (parse_str_from_env env "USAGE_CHECK" []))
       (parse_bool_from_env env "DYNAMIC_KEY" false)
       share_token
       (parse_bool_from_env env "INCLUDE_WEB_REFERENCES" false)
       (fetch_from_str (parse_str_from_env env "FETCH_RAW_MODELS" [])))
    (negb (length share_token =? 0)%nat).

(** The accessors the two macros generate, for one field. *)
Definition update_field {V} `{EqDecision V} (get : AppConfig -> V) (set : V -> AppConfig -> AppConfig)
    (value : V) (g : Globals) : Globals :=
  if decide (get (config g) = value) then g else mkGlobals (set value (config g)) (is_share g).
Definition reset_field {V} `{EqDecision V} (get : AppConfig -> V) (set : V -> AppConfig -> AppConfig)
    (default : V) (g : Globals) : Globals := update_field get set default g.

Definition set_vision (v : VisionAbility) (c : AppConfig) : AppConfig :=
  mkConfig v (slow_pool c) (long_context c) (usage_check c) (dynamic_key c) (share_token c) (web_refs c) (fetch_models c).
Definition set_slow_pool (v : bool) (c : AppConfig) : AppConfig :=
  mkConfig (vision_ability c) v (long_context c) (usage_check c) (dynamic_key c) (share_token c) (web_refs c) (fetch_models c).
Definition set_long_context (v : bool) (c : AppConfig) : AppConfig :=
  mkConfig (vision_ability c) (slow_pool c) v (usage_check c) (dynamic_key c) (share_token c) (web_refs c) (fetch_models c).
Definition set_usage_check (v : UsageCheck) (c : AppConfig) : AppConfig :=
  mkConfig (vision_ability c) (slow_pool c) (long_context c) v (dynamic_key c) (share_token c) (web_refs c) (fetch_models c).
Definition set_dynamic_key (v : bool) (c : AppConfig) : AppConfig :=
  mkConfig (vision_ability c) (slow_pool c) (long_context c) (usage_check c) v (share_token c) (web_refs c) (fetch_models c).
Definition set_share_token (v : bytes) (c : AppConfig) : AppConfig :=
  mkConfig (vision_ability c) (slow_pool c) (long_context c) (usage_check c) (dynamic_key c) v (web_refs c) (fetch_models c).
Definition set_web_refs (v : bool) (c : AppConfig) : AppConfig :=
  mkConfig (vision_ability c) (slow_pool c) (long_context c) (usage_check c) (dynamic_key c) (share_token c) v (fetch_models c).
Definition set_fetch_models (v : FetchMode) (c : AppConfig) : AppConfig :=
  mkConfig (vision_ability c) (slow_pool c) (long_context c) (usage_check c) (dynamic_key c) (share_token c) (web_refs c) v.

Definition share_token_eq (s : bytes) (g : Globals) : bool := bool_decide (share_token (config g) = s).
Definition update_share_token (value : bytes) (g : Globals) : Globals :=
  if share_token_eq value g
  then mkGlobals (set_share_token value (config g)) (negb (length value =? 0)%nat)
  else g.
Definition reset_share_token (g : Globals) : Globals :=
  if is_share g then mkGlobals (set_share_token [] (config g)) false else g.

(** ** The handler *)

Record ConfigUpdateRequest : Type := mkUpdateRequest
  { action : bytes; q_vision_ability : option VisionAbility; q_enable_slow_pool : option bool;
    q_enable_long_context : option bool; q_usage_check_models : option UsageCheck; q_enable_dynamic_key : option bool;
    q_share_token : option bytes; q_include_web_references : option bool; q_fetch_raw_models : option FetchMode }.
Record ConfigResponse : Type := mkConfigResponse { data : option AppConfig; message : option string }.
Record GenericError : Type := mkGenericError { code : Z; error : string }.

Definition update_opt {V} (f : V -> Globals -> Globals) (o : option V) (g : Globals) : Globals :=
  match o with Some value => f value g | None => g end.
Definition reset_opt {V} (f : Globals -> Globals) (o : option V) (g : Globals) : Globals :=
  match o with Some _ => f g | None => g end.

Definition handle_updates (q : ConfigUpdateRequest) (g : Globals) : Globals :=
  let g := update_opt (update_field vision_ability set_vision) (q_vision_ability q) g in
  let g := update_opt (update_field slow_pool set_slow_pool) (q_enable_slow_pool q) g in
  let g := update_opt (update_field long_context set_long_context) (q_enable_long_context q) g in
  let g := update_opt (update_field usage_check set_usage_check) (q_usage_check_models q) g in
  let g := update_opt (update_field dynamic_key set_dynamic_key) (q_enable_dynamic_key q) g in
  let g := update_opt update_share_token (q_share_token q) g in
  let g := update_opt (update_field web_refs set_web_refs) (q_include_web_references q) g in
  update_opt (update_field fetch_models set_fetch_models) (q_fetch_raw_models q) g.
Definition handle_resets (q : ConfigUpdateRequest) (g : Globals) : Globals :=
  let g := reset_opt (reset_field vision_ability set_vision vision_default) (q_vision_ability q) g in
  let g := reset_opt (reset_field slow_pool set_slow_pool false) (q_enable_slow_pool q) g in
  let g := reset_opt (reset_field long_context set_long_context false) (q_enable_long_context q) g in
  let g := reset_opt (reset_field usage_check set_usage_check usage_default) (q_usage_check_models q) g in
  let g := reset_opt (reset_field dynamic_key set_dynamic_key false) (q_enable_dynamic_key q) g in
  let g := reset_opt reset_share_token (q_share_token q) g in
  let g := reset_opt (reset_field web_refs set_web_refs false) (q_include_web_references q) g in
  reset_opt (reset_field fetch_models set_fetch_models fetch_default) (q_fetch_raw_models q) g.

Definition AUTHORIZATION_BEARER_PREFIX : bytes := as_bytes "Bearer ".

(** [authorization]: the value of the header, when it is a text. *)
Definition bearer (authorization : option bytes) : option bytes :=
  match authorization with Some h => strip_prefix AUTHORIZATION_BEARER_PREFIX h | None => None end.
Definition handle_config_update (AUTH_TOKEN : bytes) (authorization : option bytes) (q : ConfigUpdateRequest) (g : Globals)
    : result GenericError ConfigResponse * Globals :=
  match bearer authorization with
  | None => (Err (mkGenericError 401 "未提供认证令牌"), g)
  | Some auth_header =>
      if negb (bool_decide (auth_header = AUTH_TOKEN)) then (Err (mkGenericError 401 "无效的认证令牌"), g)
      else if eq_str (action q) "get" then (Ok (mkConfigResponse (Some (config g)) None), g)
      else if eq_str (action q) "update" then (Ok (mkConfigResponse None (Some "配置已更新")), handle_updates q g)
      else if eq_str (action q) "reset" then (Ok (mkConfigResponse None (Some "配置已重置")), handle_resets q g)
      else (Err (mkGenericError 400 "无效的操作类型"), g)
  end.

(** ** Lemmas *)

Lemma parse_str_from_env_spec env key default : parse_str_from_env env key default =
  match env key with Some v => match trim v with [] => default | t => t end | None => default end.
Proof.
  unfold parse_str_from_env. destruct (env key) as [v|]; [|done].
  destruct (trim_part v) as (p & q & Hv & Hp). generalize (trim v) Hv. clear Hv. intros t Hv. rewrite <- Hp.
  destruct t as [|b t]; [done|]. set (u := b :: t) in *. cbn [length Nat.eqb]. change (length u =? 0)%nat with false. cbv iota.
  assert (Hl : length v = (length p + (length u + length q))%nat) by (rewrite Hv, !length_app; lia). subst v.
  destruct (Nat.eqb_spec (length u) (length (p ++ u ++ q))) as [El|_].
  { destruct p, q; cbn [length] in *; try lia. by rewrite app_nil_r. }
  destruct p as [|c p].
  - cbn [length Nat.ltb Nat.leb app]. by rewrite take_app_length.
  - change (0 <? length (c :: p))%nat with true. cbv iota. unfold copy_within.
    rewrite drop_app_length, take_app_length. by rewrite take_app_length.
Qed.

Lemma eq_str_true s c : eq_str s c = true <-> s = as_bytes c.
Proof. apply bool_decide_eq_true. Qed.

Lemma bearer_Some authorization t :
  bearer authorization = Some t <-> authorization = Some (AUTHORIZATION_BEARER_PREFIX ++ t).
Proof.
  unfold bearer. destruct authorization as [h|]; [|done]. rewrite strip_prefix_Some. split; [by intros ->|by intros [= ->]].
Qed.

(** Fields of a configuration after an accessor. *)
Lemma update_field_config {V} `{EqDecision V} (get : AppConfig -> V) set value g :
  (forall v c, get (set v c) = v) -> (forall c, set (get c) c = c) ->
  update_field get set value g = mkGlobals (set value (config g)) (is_share g).
Proof.
  intros H1 H2. unfold update_field. destruct (decide _) as [<-|_]; [|done]. destruct g as [c s]. cbn. by rewrite H2.
Qed.

(** [IS_SHARE] says whether there is a shared token. *)
Definition globals_wf (g : Globals) : Prop := is_share g = negb (length (share_token (config g)) =? 0)%nat.

Lemma update_share_token_id value g : globals_wf g -> update_share_token value g = g.
Proof.
  unfold globals_wf, update_share_token, share_token_eq. case_bool_decide as E; [|done]. intros H. subst value.
  rewrite <- H. by destruct g as [[] ?].
Qed.
Lemma reset_share_token_spec g : globals_wf g -> reset_share_token g = mkGlobals (set_share_token [] (config g)) false.
Proof.
  unfold globals_wf, reset_share_token. intros H. destruct (is_share g) eqn:E; [done|].
  destruct g as [[] b]; cbn in *. subst b. destruct share_token0; [done|discriminate H].
Qed.

(** The configuration with the fields of a request. *)
Definition requested (q : ConfigUpdateRequest) (c : AppConfig) : AppConfig :=
  mkConfig (default (vision_ability c) (q_vision_ability q)) (default (slow_pool c) (q_enable_slow_pool q))
    (default (long_context c) (q_enable_long_context q)) (default (usage_check c) (q_usage_check_models q))
    (default (dynamic_key c) (q_enable_dynamic_key q)) (default (share_token c) (q_share_token q))
    (default (web_refs c) (q_include_web_references q)) (default (fetch_models c) (q_fetch_raw_models q)).
(** The configuration with the fields of a request set to their defaults. *)
Definition cleared (q : ConfigUpdateRequest) (c : AppConfig) : AppConfig :=
  let d := config_default in
  mkConfig (match q_vision_ability q with Some _ => vision_ability d | None => vision_ability c end)
    (match q_enable_slow_pool q with Some _ => slow_pool d | None => slow_pool c end)
    (match q_enable_long_context q with Some _ => long_context d | None => long_context c end)
    (match q_usage_check_models q with Some _ => usage_check d | None => usage_check c end)
    (match q_enable_dynamic_key q with Some _ => dynamic_key d | None => dynamic_key c end)
    (match q_share_token q with Some _ => share_token d | None => share_token c end)
    (match q_include_web_references q with Some _ => web_refs d | None => web_refs c end)
    (match q_fetch_raw_models q with Some _ => fetch_models d | None => fetch_models c end).

Lemma handle_updates_spec q g : globals_wf g ->
  handle_updates q g = mkGlobals (set_share_token (share_token (config g)) (requested q (config g))) (is_share g).
Proof.
  intros H. unfold handle_updates.
  assert (U : forall {V} `{EqDecision V} (get : AppConfig -> V) set o g, (forall v c, get (set v c) = v) -> (forall c, set (get c) c = c) ->
    update_opt (update_field get set) o g = mkGlobals (set (default (get (config g)) o) (config g)) (is_share g)).
  { intros V ? get set o g' H1 H2. destruct o; cbn; [by apply update_field_config|]. rewrite H2. by destruct g'. }
  rewrite (U _ _ vision_ability), (U _ _ slow_pool), (U _ _ long_context), (U _ _ usage_check), (U _ _ dynamic_key)
    by (done || by intros []).
  assert (S : forall o g, globals_wf g -> update_opt update_share_token o g = g).
  { intros [v|] g' Hg; [by apply update_share_token_id|done]. }
  rewrite S by done. rewrite (U _ _ web_refs), (U _ _ fetch_models) by (done || by intros []). reflexivity.
Qed.
Lemma handle_resets_spec q g : globals_wf g ->
  handle_resets q g = mkGlobals (cleared q (config g)) (match q_share_token q with Some _ => false | None => is_share g end).
Proof.
  intros H. unfold handle_resets.
  assert (U : forall {V} `{EqDecision V} (get : AppConfig -> V) set d (o : option V) g, (forall v c, get (set v c) = v) -> (forall c, set (get c) c = c) ->
    reset_opt (reset_field get set d) o g =
      mkGlobals (set (match o with Some _ => d | None => get (config g) end) (config g)) (is_share g)).
  { intros V ? get set d o g' H1 H2. destruct o; cbn; [by apply update_field_config|]. rewrite H2. by destruct g'. }
  rewrite (U _ _ vision_ability), (U _ _ slow_pool), (U _ _ long_context), (U _ _ usage_check), (U _ _ dynamic_key)
    by (done || by intros []).
  assert (S : forall (o : option bytes) g, globals_wf g -> reset_opt reset_share_token o g =
    mkGlobals (set_share_token (match o with Some _ => [] | None => share_token (config g) end) (config g))
      (match o with Some _ => false | None => is_share g end)).
  { intros [v|] g' Hg; cbn; [by rewrite reset_share_token_spec|by destruct g' as [[] ?]]. }
  rewrite S by done. rewrite (U _ _ web_refs), (U _ _ fetch_models) by (done || by intros []). reflexivity.
Qed.

Lemma deserialize_list find_id s :
  usage_deserialize find_id [(as_bytes "type", JString (as_bytes "list")); (as_bytes "content", JString s)] =
    Ok (if (length s =? 0)%nat then UNone else parse_custom_models find_id s).
Proof. reflexivity. Qed.

(** ** Properties *)

(** The configuration handler answers only to the administrator, and changes
    nothing otherwise; [get] shows the whole configuration, [update] sets exactly the
    fields of the request except the shared token, which it can never change, and
    [reset] restores the defaults of the fields named, the shared token included.
    [IS_SHARE] always says whether there is a shared token. *)
Theorem config_handler_outcome AUTH_TOKEN authorization q g :
  globals_wf g ->
  let '(response, g') := handle_config_update AUTH_TOKEN authorization q g in
  let admin := bool_decide (authorization = Some (AUTHORIZATION_BEARER_PREFIX ++ AUTH_TOKEN)) in
  globals_wf g' /\
  (admin = false -> g' = g /\ exists e, response = Err e /\ code e = 401) /\
  (admin = true ->
     (action q = as_bytes "get" -> g' = g /\ response = Ok (mkConfigResponse (Some (config g)) None)) /\
     (action q = as_bytes "update" ->
        config g' = set_share_token (share_token (config g)) (requested q (config g)) /\ exists m, response = Ok m) /\
     (action q = as_bytes "reset" -> config g' = cleared q (config g) /\ exists m, response = Ok m) /\
     (action q ∉ as_bytes <$> ["get"; "update"; "reset"] -> g' = g /\ exists e, response = Err e /\ code e = 400)).
Proof.
  intros Hg. unfold handle_config_update.
  assert (Wu : globals_wf (handle_updates q g)) by (rewrite handle_updates_spec by done; exact Hg).
  assert (Wr : globals_wf (handle_resets q g)).
  { rewrite handle_resets_spec by done. unfold globals_wf in *. cbn. by destruct (q_share_token q). }
  destruct (bearer authorization) as [token|] eqn:E.
  - apply bearer_Some in E as ->.
    destruct (decide (token = AUTH_TOKEN)) as [->|Et]; [rewrite !bool_decide_eq_true_2 by done|
      rewrite (bool_decide_eq_false_2 (token = AUTH_TOKEN)) by done]; cbn [negb].
    +
      destruct (eq_str (action q) "get") eqn:A1; [apply eq_str_true in A1; rewrite A1|
        destruct (eq_str (action q) "update") eqn:A2; [apply eq_str_true in A2; rewrite A2|
          destruct (eq_str (action q) "reset") eqn:A3; [apply eq_str_true in A3; rewrite A3|]]];
        (split; [done|split; [done|intros _; split_and!; try discriminate]]); try (intros H; exfalso; apply H; set_solver).
      * done.
      * intros _. rewrite handle_updates_spec by done. eauto.
      * intros _. rewrite handle_resets_spec by done. eauto.
      * intros H. by apply eq_str_true in H; rewrite H in A1.
      * intros H. by apply eq_str_true in H; rewrite H in A2.
      * intros H. by apply eq_str_true in H; rewrite H in A3.
      * intros _. eauto.
    + rewrite bool_decide_eq_false_2; [split; [done|split; [eauto|done]]|]. by intros [= H].
  - rewrite bool_decide_eq_false_2; [split; [done|split; [eauto|done]]|]. intros H. apply bearer_Some in H. congruence.
Qed.

Definition sample_request (act : string) : ConfigUpdateRequest :=
  mkUpdateRequest (as_bytes act) (Some VAll) None None None (Some true) (Some (as_bytes "shared")) None None.
Lemma config_handler_outcome_witness :
  config (handle_config_update (as_bytes "admin") (Some (as_bytes "Bearer admin")) (sample_request "update")
    (mkGlobals config_default false)).2 = mkConfig VAll false false UDefault true [] false Truncate.
Proof.
  pose proof (config_handler_outcome (as_bytes "admin") (Some (as_bytes "Bearer admin")) (sample_request "update")
    (mkGlobals config_default false) eq_refl) as H.
  destruct (handle_config_update _ _ _ _) as [r g']. destruct H as (_ & _ & H).
  destruct (H eq_refl) as (_ & U & _). destruct (U eq_refl) as [E _]. cbn [snd]. rewrite E. reflexivity.
Defined.

(** A usage check survives being written as JSON and read back when its models are
    found under their own identifiers; a list of unknown models becomes the default
    setting, and one whose text is empty no check at all. *)
Theorem usage_check_roundtrip find_id u :
  match u with
  | UCustom models => models <> [] /\
      Forall (fun m => m <> [] /\ Forall (fun x => x <> 44) m /\ trim m = m /\ find_id m = Some m) models
  | _ => True
  end ->
  usage_deserialize find_id (usage_serialize u) = Ok u /\
  (forall s, Forall (fun m => find_id (trim m) = None) (split_on 44 s) -> s <> [] ->
     usage_deserialize find_id [(as_bytes "type", JString (as_bytes "list")); (as_bytes "content", JString s)] = Ok UDefault).
Proof.
  intros H. split.
  - destruct u as [| | |models]; [done..|]. destruct H as [Hne H].
    assert (Hj : (length (join_with [44%Z] models) =? 0)%nat = false).
    { destruct models as [|m [|m' ms]]; [done|..]; apply Forall_cons in H as [(Hm & _) _]; destruct m; done. }
    cbn [usage_serialize]. rewrite deserialize_list, Hj. unfold parse_custom_models.
    rewrite split_on_join; [|done|by eapply Forall_impl; [exact H|]; intros m (_ & ? & _)].
    assert (O : omap (fun model => find_id (trim model)) models = models).
    { clear Hne Hj. induction H as [|m ms (_ & _ & Ht & Hf) _ IH]; [done|]. cbn. by rewrite Ht, Hf, IH. }
    rewrite O. by destruct models.
  - intros s Hs Hne. rewrite deserialize_list. destruct (Nat.eqb_spec (length s) 0); [by destruct s|].
    unfold parse_custom_models.
    assert (O : omap (fun model => find_id (trim model)) (split_on 44 s) = []).
    { clear Hne. induction Hs as [|m ms Hm _ IH]; [done|]. cbn. by rewrite Hm. }
    by rewrite O.
Qed.

Lemma usage_check_roundtrip_witness :
  usage_deserialize Some (usage_serialize (UCustom [as_bytes "gpt-5"; as_bytes "o3"]))
    = Ok (UCustom [as_bytes "gpt-5"; as_bytes "o3"]).
Proof.
  apply (usage_check_roundtrip Some (UCustom [as_bytes "gpt-5"; as_bytes "o3"])).
  split; [done|]. repeat constructor; try done.
Defined.

(** Reading a variable as a text trims it in place. *)
Theorem env_text_trimmed env key default :
  parse_str_from_env env key default =
    match env key with Some v => match trim v with [] => default | t => t end | None => default end.
Proof. apply parse_str_from_env_spec. Qed.

(** Instructions are put in exactly the places the mode selects, without a panic,
    provided they are not blank. *)
Theorem explicit_context_places mode instructions :
  trim instructions <> [] ->
  create_explicit_context mode instructions =
    Ret (if f_context mode || f_repo_context mode || f_mode_specific_context mode
         then Some (mkExplicit (if f_context mode then instructions else [])
                      (if f_repo_context mode then Some instructions else None)
                      (if f_mode_specific_context mode then Some instructions else None))
         else None).
Proof.
  intros H. unfold create_explicit_context. destruct (trim instructions); [done|]. cbn [length Nat.eqb].
  by destruct mode as [[] [] []].
Qed.
