(* ===== verification/ProxyPool.v ===== *)
(** * The proxy pool

    [src/src/app/model/proxy_pool.rs] and [proxy_pool/proxy_url.rs] (named proxies,
    the clients made for them and the general one), [src/src/app/model/proxy.rs]
    and the handlers of [src/src/core/route/proxies.rs].

    The four globals are one record that is threaded.  A client of the reqwest
    library is a value of [Client]: [build n p] is the [n]-th client made, for the
    proxy [p], or [None] when the builder fails; [valid_url] says which texts
    [reqwest::Proxy::all] accepts.  The first key of a map in the order of its
    hashes is given by [first_key]. *)
From S2P Require Import Prelude Strings TokenInfo TokenRoutes.

(** ** Proxies *)

Definition NON_PROXY : string := "non".
Definition SYS_PROXY : string := "sys".

Inductive SingleProxy : Type := Non | Sys | Url (url : string).
#[export] Instance SingleProxy_eq_dec : EqDecision SingleProxy.
Proof. solve_decision. Defined.
#[export] Instance SingleProxy_countable : Countable SingleProxy.
Proof.
  refine (inj_countable' (fun p => match p with Non => inl false | Sys => inl true | Url u => inr u end)
    (fun c => match c with inl false => Non | inl true => Sys | inr u => Url u end) _). by intros [].
Defined.

Definition proxy_display (p : SingleProxy) : string :=
  match p with Non => NON_PROXY | Sys => SYS_PROXY | Url url => url end.

Record Proxies : Type := mkProxies { p_proxies : gmap string SingleProxy; p_general : string }.

Definition default_proxies : gmap string SingleProxy := {[ SYS_PROXY := Sys ]}.
Definition proxies_default : Proxies := mkProxies default_proxies SYS_PROXY.

(** What the answer to a deletion should hold. *)
Inductive DeleteResponseExpectation : Type := Simple | UpdatedTokens | FailedTokens | Detailed.
Definition needs_updated_tokens (e : DeleteResponseExpectation) : bool :=
  match e with UpdatedTokens | Detailed => true | _ => false end.
Definition needs_failed_tokens (e : DeleteResponseExpectation) : bool :=
  match e with FailedTokens | Detailed => true | _ => false end.

Section pool.
Context {Client : Type} (build : nat -> SingleProxy -> option Client).
Context (first_key : gmap string SingleProxy -> option string).

Definition proxy_from_str (valid_url : string -> bool) (s : string) : option SingleProxy :=
  if String.eqb s NON_PROXY then Some Non else if String.eqb s SYS_PROXY then Some Sys
  else if valid_url s then Some (Url s) else None.

(** The globals [PROXIES], [GENERAL_NAME], [CLIENTS] and [GENERAL_CLIENT], and the
    number of clients made so far. *)
Record Pool : Type := mkPool
  { proxies : gmap string SingleProxy; general_name : string; clients : gmap SingleProxy Client;
    general_client : Client; built : nat }.

(** The distinct values of a map, in some order. *)
Definition current_proxies (m : gmap string SingleProxy) : list SingleProxy := elements (list_to_set (map_to_list m).*2 : gset SingleProxy).

Definition insert_to (p : SingleProxy) (clients : gmap SingleProxy Client) (n : nat) : outcome (gmap SingleProxy Client * nat) :=
  c ← unwrap (build n p); Ret (<[p := c]> clients, S n).
Fixpoint insert_all (ps : list SingleProxy) (clients : gmap SingleProxy Client) (n : nat) : outcome (gmap SingleProxy Client * nat) :=
  match ps with
  | [] => Ret (clients, n)
  | p :: ps => '(clients, n) ← insert_to p clients n; insert_all ps clients n
  end.
Fixpoint insert_missing (ps : list SingleProxy) (clients : gmap SingleProxy Client) (n : nat) : outcome (gmap SingleProxy Client * nat) :=
  match ps with
  | [] => Ret (clients, n)
  | p :: ps =>
      '(clients, n) ← (if bool_decide (is_Some (clients !! p)) then Ret (clients, n) else insert_to p clients n);
      insert_missing ps clients n
  end.

(** [Proxies::init], on globals that hold nothing. *)
Definition init (s : Proxies) : outcome Pool :=
  s ← (if bool_decide (p_proxies s = ∅) then Ret (mkProxies default_proxies SYS_PROXY)
       else if negb (bool_decide (is_Some (p_proxies s !! p_general s))) then
         k ← unchecked (first_key (p_proxies s)); Ret (mkProxies (p_proxies s) k)
       else Ret s);
  '(clients, n) ← insert_all (current_proxies (p_proxies s)) ∅ 0;
  p ← unchecked (p_proxies s !! p_general s);
  c ← unchecked (clients !! p);
  Ret (mkPool (p_proxies s) (p_general s) clients c n).

Definition update_global (s : Proxies) (p : Pool) : Pool :=
  mkPool (p_proxies s) (p_general s) (clients p) (general_client p) (built p).

Definition set_general (p : Pool) : outcome Pool :=
  proxy ← unchecked (proxies p !! general_name p);
  c ← unchecked (clients p !! proxy);
  Ret (mkPool (proxies p) (general_name p) (clients p) c (built p)).

(** [snapshot] is the map that was loaded first; [stored] the global map after the
    first part. *)
Definition update_global_pool (p : Pool) : outcome Pool :=
  let snapshot := proxies p in
  '(stored, name) ←
    (if bool_decide (snapshot = ∅) then
       Ret (default_proxies, if negb (String.eqb (general_name p) SYS_PROXY) then SYS_PROXY else general_name p)
     else if negb (bool_decide (is_Some (snapshot !! general_name p))) then
       k ← unchecked (first_key snapshot); Ret (snapshot, k)
     else Ret (snapshot, general_name p));
  let current := current_proxies snapshot in
  let kept := filter (fun '(q, _) => q ∈ current) (clients p) in
  '(cs, n) ← insert_missing current kept (built p);
  set_general (mkPool stored name cs (general_client p) n).

Definition get_general_client (p : Pool) : Client := general_client p.
Definition get_client (p : Pool) (name : string) : Client :=
  match proxies p !! name with
  | Some proxy => match clients p !! proxy with Some c => c | None => get_general_client p end
  | None => get_general_client p
  end.
Definition get_client_or_general (p : Pool) (name : option string) : Client :=
  match name with Some name => get_client p name | None => get_general_client p end.

(** ** Handlers *)

(** [save] writes the names and the general one; [io] is its outcome. *)
Definition saved (p : Pool) : Proxies := mkProxies (proxies p) (general_name p).
Definition update_and_save (io : Io) (p : Pool) : outcome (Io * Pool) := p ← update_global_pool p; Ret (io, p).

Record ProxyInfoResponse : Type := mkProxyInfo
  { pi_proxies : option (gmap string SingleProxy); proxies_count : nat; general_proxy : option string; pi_message : option string }.
Record ProxiesDeleteResponse : Type := mkProxiesDelete
  { updated_proxies : option (gmap string SingleProxy); failed_names : option (list string) }.

Definition proxy_save_failed (e : string) : Failure :=
  save_failed ("Failed to save proxy configuration: " +:+ e) "无法保存代理配置".

Definition handle_get_proxies (p : Pool) : ProxyInfoResponse :=
  mkProxyInfo (Some (proxies p)) (size (proxies p)) (Some (general_name p)) None.

Definition handle_set_proxies (io : Io) (s : Proxies) (p : Pool) : outcome (result Failure ProxyInfoResponse * Pool) :=
  let p := update_global s p in
  '(r, p) ← update_and_save io p;
  Ret (match r with
       | Some e => Err (proxy_save_failed e)
       | None => Ok (mkProxyInfo None (size (proxies p)) None (Some "代理配置已更新"%string))
       end, p).

Definition handle_add_proxy (io : Io) (request : gmap string SingleProxy) (p : Pool)
    : outcome (result Failure ProxyInfoResponse * Pool) :=
  let current := proxies p in
  let fresh := filter (fun '(name, _) => current !! name = None) request in
  if bool_decide (fresh = ∅) then
    Ret (Ok (mkProxyInfo (Some current) (size current) None (Some "没有添加新代理"%string)), p)
  else
    let current := fold_left (fun m '(name, proxy) => <[name := proxy]> m) (map_to_list fresh) current in
    let added_count := length (map_to_list fresh) in
    let p := mkPool current (general_name p) (clients p) (general_client p) (built p) in
    '(r, p) ← update_and_save io p;
    Ret (match r with
         | Some e => Err (proxy_save_failed e)
         | None => Ok (mkProxyInfo None (size (proxies p)) None
                         (Some ("已添加 " +:+ to_dec (Z.of_nat added_count) +:+ " 个新代理")))
         end, p).

(** [names]: the set of names, in the order it is iterated. *)
Definition handle_delete_proxies (io : Io) (names : list string) (expectation : DeleteResponseExpectation) (p : Pool)
    : outcome (result Failure ProxiesDeleteResponse * Pool) :=
  let current := proxies p in
  let processing := filter (fun name => is_Some (current !! name)) names in
  let failed := filter (fun name => current !! name = None) names in
  let p :=
    match processing with
    | [] => p
    | _ =>
        let map := filter (fun '(name, _) => name ∉ processing) current in
        let map := if bool_decide (map = ∅) then default_proxies else map in
        mkPool map (general_name p) (clients p) (general_client p) (built p)
    end in
  '(r, p) ← update_and_save io p;
  Ret (match r with
       | Some e => Err (proxy_save_failed e)
       | None => Ok (mkProxiesDelete (if needs_updated_tokens expectation then Some (proxies p) else None)
                       (if needs_failed_tokens expectation && negb (length failed =? 0)%nat then Some failed else None))
       end, p).

Definition handle_set_general_proxy (io : Io) (name : string) (p : Pool) : outcome (result Failure CommonResponse * Pool) :=
  if negb (bool_decide (is_Some (proxies p !! name))) then
    Ret (Err (BAD_REQUEST, mkGenericError Error "Proxy name not found" "代理名称不存在"), p)
  else
    let p := mkPool (proxies p) name (clients p) (general_client p) (built p) in
    '(r, p) ← update_and_save io p;
    Ret (match r with
         | Some e => Err (proxy_save_failed e)
         | None => Ok (mkCommonResponse Success "通用代理已设置")
         end, p).

(** A request to the administration of proxies. *)
Inductive Request : Type :=
| SetProxies (s : Proxies)
| AddProxy (m : gmap string SingleProxy)
| DeleteProxies (names : list string) (expectation : DeleteResponseExpectation)
| SetGeneralProxy (name : string).
Definition serve (io : Io) (q : Request) (p : Pool) : outcome Pool :=
  match q with
  | SetProxies s => r ← handle_set_proxies io s p; Ret r.2
  | AddProxy m => r ← handle_add_proxy io m p; Ret r.2
  | DeleteProxies names e => r ← handle_delete_proxies io names e p; Ret r.2
  | SetGeneralProxy name => r ← handle_set_general_proxy io name p; Ret r.2
  end.
Fixpoint serve_all (qs : list (Io * Request)) (p : Pool) : outcome Pool :=
  match qs with [] => Ret p | (io, q) :: qs => p ← serve io q p; serve_all qs p end.

(** ** The invariant *)

(** The general client is that of the general proxy; exactly the proxies in use
    have clients. *)
Record pool_wf (p : Pool) : Prop := {
  pw_general : exists q, proxies p !! general_name p = Some q /\ clients p !! q = Some (general_client p);
  pw_clients : forall q, is_Some (clients p !! q) <-> exists name, proxies p !! name = Some q;
}.

Lemma current_elem m q : q ∈ current_proxies m <-> exists name, m !! name = Some q.
Proof.
  unfold current_proxies. rewrite elem_of_elements, elem_of_list_to_set, list_elem_of_fmap. split.
  - intros ([name q'] & -> & H). apply elem_of_map_to_list in H. eauto.
  - intros [name H]. exists (name, q). split; [done|]. by apply elem_of_map_to_list.
Qed.

Context (build_succeeds : forall n p, is_Some (build n p)).
Context (first_key_spec : forall m, m <> ∅ -> exists k, first_key m = Some k /\ is_Some (m !! k)).

Lemma insert_all_spec ps : forall cs n, exists cs' n', insert_all ps cs n = Ret (cs', n')
  /\ forall q, is_Some (cs' !! q) <-> is_Some (cs !! q) \/ q ∈ ps.
Proof.
  induction ps as [|p ps IH]; intros cs n; cbn [insert_all]; [eexists _, _; split; [done|]; set_solver|].
  unfold insert_to. destruct (build_succeeds n p) as [c ->]. cbn [unwrap mbind outcome_bind].
  destruct (IH (<[p := c]> cs) (S n)) as (cs' & n' & -> & H). eexists _, _. split; [done|].
  intros q. rewrite H, lookup_insert_is_Some'. set_solver.
Qed.

Lemma insert_missing_spec ps : forall cs n, exists cs' n', insert_missing ps cs n = Ret (cs', n')
  /\ (forall q, is_Some (cs' !! q) <-> is_Some (cs !! q) \/ q ∈ ps)
  /\ (forall q c, cs !! q = Some c -> cs' !! q = Some c).
Proof.
  induction ps as [|p ps IH]; intros cs n; cbn [insert_missing]; [eexists _, _; split; [done|]; set_solver|].
  destruct (decide (is_Some (cs !! p))) as [Hp|Hp].
  - rewrite bool_decide_true by done. cbn [mbind outcome_bind]. destruct (IH cs n) as (cs' & n' & -> & H & K).
    eexists _, _. split; [done|]. split; [|done]. intros q. rewrite H, elem_of_cons. split; [tauto|].
    intros [?|[->|?]]; auto.
  - rewrite bool_decide_false by done. unfold insert_to. destruct (build_succeeds n p) as [c ->]. cbn [unwrap mbind outcome_bind].
    destruct (IH (<[p := c]> cs) (S n)) as (cs' & n' & -> & H & K). eexists _, _. split; [done|]. split.
    + intros q. rewrite H, lookup_insert_is_Some'. set_solver.
    + intros q d Hq. apply K. rewrite lookup_insert_ne; [done|]. intros ->. apply Hp. eauto.
Qed.

(** The general name after an update. *)
Definition chosen (m : gmap string SingleProxy) (name name' : string) : Prop :=
  if decide (is_Some (m !! name)) then name' = name else first_key m = Some name'.

Lemma update_global_pool_spec p : proxies p <> ∅ ->
  exists p', update_global_pool p = Ret p' /\ pool_wf p' /\ proxies p' = proxies p
    /\ chosen (proxies p) (general_name p) (general_name p')
    /\ forall q c, clients p !! q = Some c -> (exists name, proxies p !! name = Some q) -> clients p' !! q = Some c.
Proof.
  intros Hne. unfold update_global_pool. rewrite bool_decide_false by done.
  assert (exists k, (if negb (bool_decide (is_Some (proxies p !! general_name p)))
    then k ← unchecked (first_key (proxies p)); Ret (proxies p, k) else Ret (proxies p, general_name p)) = Ret (proxies p, k)
    /\ chosen (proxies p) (general_name p) k /\ is_Some (proxies p !! k)) as (k & -> & Hc & q & Hk).
  { unfold chosen. destruct (decide (is_Some (proxies p !! general_name p))) as [H|H].
    - rewrite bool_decide_true by done. eexists. by split.
    - rewrite bool_decide_false by done. destruct (first_key_spec (proxies p) Hne) as (k & Ek & Hk). rewrite Ek. eexists. by split. }
  cbn [mbind outcome_bind].
  destruct (insert_missing_spec (current_proxies (proxies p))
    (filter (fun '(q, _) => q ∈ current_proxies (proxies p)) (clients p)) (built p)) as (cs & n & -> & H & K).
  cbn [mbind outcome_bind]. unfold set_general. cbn [proxies general_name clients built]. rewrite Hk. cbn [unchecked mbind outcome_bind].
  destruct (proj2 (H q)) as [c Eq]; [right; apply current_elem; eauto|]. rewrite Eq. cbn [unchecked mbind outcome_bind].
  eexists. split; [done|]. cbn [proxies general_name clients general_client]. split_and!; try done.
  - split; cbn [proxies general_name clients general_client]; [eauto|]. intros r. rewrite H, <- current_elem. split; [|by right].
    intros [[d Hd]|?]; [|done]. by apply map_lookup_filter_Some in Hd as [_ ?].
  - intros r d Hr Hn. apply K, map_lookup_filter_Some. split; [done|]. by apply current_elem.
Qed.
Lemma init_wf s : exists p, init s = Ret p /\ pool_wf p.
Proof.
  unfold init.
  assert (exists s', (if bool_decide (p_proxies s = ∅) then Ret (mkProxies default_proxies SYS_PROXY)
       else if negb (bool_decide (is_Some (p_proxies s !! p_general s))) then
         k ← unchecked (first_key (p_proxies s)); Ret (mkProxies (p_proxies s) k)
       else Ret s) = Ret s' /\ is_Some (p_proxies s' !! p_general s')) as (s' & -> & q & Hq).
  { destruct (decide (p_proxies s = ∅)) as [E|E].
    - rewrite bool_decide_true by done. exists proxies_default. split; [done|]. by exists Sys.
    - rewrite bool_decide_false by done. destruct (decide (is_Some (p_proxies s !! p_general s))) as [H|H].
      + rewrite bool_decide_true by done. eexists. by split.
      + rewrite bool_decide_false by done. destruct (first_key_spec _ E) as (k & Ek & Hk). rewrite Ek. eexists. by split. }
  cbn [mbind outcome_bind].
  destruct (insert_all_spec (current_proxies (p_proxies s')) ∅ 0) as (cs & n & -> & H). cbn [mbind outcome_bind].
  rewrite Hq. cbn [unchecked mbind outcome_bind].
  destruct (proj2 (H q)) as [c Eq]; [right; apply current_elem; eauto|]. rewrite Eq. cbn [unchecked mbind outcome_bind].
  eexists. split; [done|]. split; cbn [proxies general_name clients general_client]; [eauto|].
  intros r. rewrite H, <- current_elem, lookup_empty, is_Some_alt. naive_solver.
Qed.

(** ** What the requests promise *)

(** The names and the general name a request asks for. *)
Definition requested (q : Request) (p : Pool) : gmap string SingleProxy * string :=
  match q with
  | SetProxies s => (p_proxies s, p_general s)
  | AddProxy m => (proxies p ∪ m, general_name p)
  | DeleteProxies names _ =>
      let m := filter (fun '(name, _) => name ∉ names) (proxies p) in
      (if decide (m = ∅) then default_proxies else m, general_name p)
  | SetGeneralProxy name => (proxies p, if decide (is_Some (proxies p !! name)) then name else general_name p)
  end.
Definition admissible (q : Request) : Prop := match q with SetProxies s => p_proxies s <> ∅ | _ => True end.

Record answered (q : Request) (p p' : Pool) : Prop := {
  an_proxies : proxies p' = (requested q p).1;
  an_general : chosen (proxies p') (requested q p).2 (general_name p');
  an_clients : forall r c, clients p !! r = Some c -> (exists name, proxies p' !! name = Some r) -> clients p' !! r = Some c;
}.

Lemma pool_nonempty p : pool_wf p -> proxies p <> ∅.
Proof. intros [(q & H & _) _] E. rewrite E, lookup_empty in H. discriminate. Qed.

Lemma chosen_self p : pool_wf p -> chosen (proxies p) (general_name p) (general_name p).
Proof. intros [(q & H & _) _]. unfold chosen. by rewrite decide_True by eauto. Qed.

Lemma update_answers io q p p1 : proxies p1 = (requested q p).1 -> general_name p1 = (requested q p).2 ->
  clients p1 = clients p -> proxies p1 <> ∅ ->
  exists p', update_and_save io p1 = Ret (io, p') /\ pool_wf p' /\ answered q p p'.
Proof.
  intros E1 E2 E3 Hne. unfold update_and_save. destruct (update_global_pool_spec p1 Hne) as (p' & -> & Hw & Ep & Hc & Hk).
  exists p'. split; [done|]. split; [done|]. split.
  - by rewrite Ep.
  - by rewrite Ep, <- E2.
  - intros r c Hr Hn. apply Hk; [by rewrite E3|by rewrite <- Ep].
Qed.

Lemma fold_insert_union (l : list (string * SingleProxy)) : forall m : gmap string SingleProxy, NoDup l.*1 ->
  fold_left (fun m '(name, proxy) => <[name := proxy]> m) l m = (list_to_map l : gmap string SingleProxy) ∪ m.
Proof.
  induction l as [|[k v] l IH]; intros m Hd; cbn [fold_left list_to_map foldr]; [symmetry; apply (left_id_L ∅ (∪))|].
  rewrite fmap_cons in Hd. apply NoDup_cons in Hd as [Hk Hd]. rewrite IH by done. cbn.
  rewrite <- insert_union_l. symmetry. apply insert_union_r. by apply not_elem_of_list_to_map.
Qed.

Lemma added_union (current request : gmap string SingleProxy) :
  fold_left (fun m '(name, proxy) => <[name := proxy]> m)
    (map_to_list (filter (fun '(name, _) => current !! name = None) request)) current = current ∪ request.
Proof.
  rewrite fold_insert_union by apply NoDup_fst_map_to_list. rewrite list_to_map_to_list. apply map_eq. intros i.
  destruct (current !! i) as [x|] eqn:E.
  - rewrite (lookup_union_Some_l current request i x E), lookup_union_r; [done|].
    apply map_lookup_filter_None. right. intros y _. cbn. congruence.
  - rewrite (lookup_union_r current request i E), lookup_union_l by done.
    destruct (request !! i) as [y|] eqn:Er.
    + by apply map_lookup_filter_Some.
    + by apply map_lookup_filter_None; left.
Qed.

Lemma fresh_empty (current request : gmap string SingleProxy) :
  filter (fun '(name, _) => current !! name = None) request = ∅ -> current ∪ request = current.
Proof.
  intros H. rewrite <- added_union, H, map_to_list_empty. done.
Qed.

Lemma serve_spec io q p : pool_wf p -> admissible q ->
  exists p', serve io q p = Ret p' /\ pool_wf p' /\ answered q p p'.
Proof.
  intros Hw Ha. pose proof (pool_nonempty p Hw) as Hne.
  assert (Hsame : proxies p = (requested q p).1 -> general_name p = (requested q p).2 -> answered q p p).
  { intros E1 E2. split; [done|rewrite <- E2; by apply chosen_self|done]. }
  destruct q as [s|m|names e|name]; cbn [serve].
  - unfold handle_set_proxies. destruct (update_answers io (SetProxies s) p (update_global s p) eq_refl eq_refl eq_refl Ha) as (p' & -> & H).
    by exists p'.
  - unfold handle_add_proxy. cbv zeta. destruct (decide (filter (fun '(n, _) => proxies p !! n = None) m = ∅)) as [E|E].
    + rewrite bool_decide_true by done. exists p. split; [done|]. split; [done|]. apply Hsame; [|done]. by apply fresh_empty in E.
    + rewrite bool_decide_false by done. rewrite added_union.
      edestruct (update_answers io (AddProxy m) p) as (p' & E' & H); [..|rewrite E'; by exists p']; try done.
      cbn [proxies]. intros Hu. by apply map_positive_l in Hu.
  - unfold handle_delete_proxies. cbv zeta.
    set (processing := filter (fun n => is_Some (proxies p !! n)) names).
    assert (Hf : filter (fun '(n, _) => n ∉ processing) (proxies p) = filter (fun '(n, _) => n ∉ names) (proxies p)).
    { apply map_filter_ext. intros n r Hn. unfold processing. rewrite list_elem_of_filter. naive_solver. }
    match goal with |- context [update_and_save io ?p1] => set (p1' := p1) end.
    assert (H1 : proxies p1' = (requested (DeleteProxies names e) p).1 /\ general_name p1' = general_name p /\ clients p1' = clients p).
    { unfold p1', requested. cbv zeta. cbn [fst]. rewrite <- Hf. destruct processing as [|n ns] eqn:Ep; cbn [proxies general_name clients].
      - split; [|done]. assert (filter (fun '(n, _) => n ∉ []) (proxies p) = proxies p) as ->.
        { apply map_filter_id. intros n r _. apply not_elem_of_nil. }
        by rewrite decide_False.
      - split; [|done]. case_bool_decide; [by rewrite decide_True|by rewrite decide_False]. }
    destruct H1 as (E1 & E2 & E3).
    destruct (update_answers io (DeleteProxies names e) p p1' E1 E2 E3) as (p' & -> & H); [|by exists p'].
    rewrite E1. cbn [requested fst]. case_decide; [by intros ?%(f_equal (lookup SYS_PROXY))|done].
  - unfold handle_set_general_proxy. destruct (decide (is_Some (proxies p !! name))) as [Hn|Hn].
    + rewrite bool_decide_true by done. cbn [negb]. cbv zeta.
      edestruct (update_answers io (SetGeneralProxy name) p) as (p' & E' & H); [..|rewrite E'; by exists p']; try done.
      cbn [requested snd general_name]. by rewrite decide_True.
    + rewrite bool_decide_false by done. exists p. split; [done|]. split; [done|]. apply Hsame; [done|].
      cbn [requested snd]. by rewrite decide_False.
Qed.

Lemma serve_all_wf qs : forall p, pool_wf p -> Forall (fun q => admissible q.2) qs ->
  exists p', serve_all qs p = Ret p' /\ pool_wf p'.
Proof.
  induction qs as [|[io q] qs IH]; intros p Hw Ha; cbn [serve_all]; [eauto|].
  apply Forall_cons in Ha as [Hq Ha]. destruct (serve_spec io q p Hw Hq) as (p1 & -> & Hw1 & _). by apply IH.
Qed.

Lemma get_client_wf p name : pool_wf p ->
  clients p !! default Sys (proxies p !! (if decide (is_Some (proxies p !! name)) then name else general_name p)) = Some (get_client p name).
Proof.
  intros [(q & Hg & Hc) Hw]. unfold get_client, get_general_client. destruct (decide (is_Some (proxies p !! name))) as [[r Hr]|Hn].
  - rewrite Hr. cbn. destruct (proj2 (Hw r)) as [c ->]; [eauto|]. done.
  - rewrite Hg. cbn. destruct (proxies p !! name) eqn:E; [|done]. exfalso. apply Hn. eauto.
Qed.
End pool.

Lemma set_none_undefined {Client} (build : nat -> SingleProxy -> option Client) first_key io general p :
  handle_set_proxies build first_key io (mkProxies ∅ general) p = Undef.
Proof.
  unfold handle_set_proxies, update_and_save, update_global_pool, update_global. cbn [proxies p_proxies p_general general_name clients].
  rewrite bool_decide_true by done. cbn [mbind outcome_bind].
  assert (E : current_proxies ∅ = []) by (unfold current_proxies; by rewrite map_to_list_empty).
  rewrite E. cbn [insert_missing mbind outcome_bind]. unfold set_general. cbn [proxies general_name clients].
  assert (Hs : (if negb (String.eqb general SYS_PROXY) then SYS_PROXY else general) = SYS_PROXY).
  { destruct (String.eqb_spec general SYS_PROXY) as [->|]; done. }
  rewrite Hs. unfold default_proxies. rewrite lookup_singleton_eq. cbn [unchecked mbind outcome_bind].
  assert (Hf : filter (fun '(q, _) => q ∈ []) (clients p) !! Sys = None).
  { apply map_lookup_filter_None. right. intros x _. apply not_elem_of_nil. }
  by rewrite Hf.
Qed.

Lemma serve_inadmissible {Client} (build : nat -> SingleProxy -> option Client) first_key io q p :
  ~ admissible q -> serve build first_key io q p = Undef.
Proof.
  destruct q as [[m general]|m|names e|name]; cbn [admissible p_proxies]; try tauto. intros H.
  assert (m = ∅) as -> by (destruct (decide (m = ∅)); [done|tauto]).
  cbn [serve]. by rewrite set_none_undefined.
Qed.

(** ** Properties *)

(** C14: the pool is memory safe: from any saved configuration, as long as clients
    can be built and no request replaces all proxies by none, any sequence of
    requests is served without a failing unchecked access, and at the end the
    general client belongs to the general proxy, exactly the proxies in use have
    clients, and a name is resolved to the client of its proxy, or of the general
    proxy when there is no such name. *)
Theorem pool_safe {Client} (build : nat -> SingleProxy -> option Client) first_key s qs :
  (forall n p, is_Some (build n p)) ->
  (forall m, m <> ∅ -> exists k, first_key m = Some k /\ is_Some (m !! k)) ->
  Forall (fun q => admissible q.2) qs ->
  exists p0 p, init build first_key s = Ret p0 /\ serve_all build first_key qs p0 = Ret p /\ pool_wf p
    /\ forall name, clients p !! default Sys (proxies p !! (if decide (is_Some (proxies p !! name)) then name else general_name p))
         = Some (get_client p name).
Proof.
  intros Hb Hf Ha. destruct (init_wf build first_key Hb Hf s) as (p0 & -> & H0).
  destruct (serve_all_wf build first_key Hb Hf qs p0 H0 Ha) as (p & E & Hp).
  exists p0, p. split_and!; try done. intros name. by apply get_client_wf.
Qed.

(** A builder that numbers the clients, and an order of names. *)
Definition sample_build (n : nat) (p : SingleProxy) : option nat := Some n.
Definition sample_first (m : gmap string SingleProxy) : option string := fst <$> head (map_to_list m).

Lemma sample_first_spec m : m <> ∅ -> exists k, sample_first m = Some k /\ is_Some (m !! k).
Proof.
  intros H. unfold sample_first. destruct (map_to_list m) as [|[k p] l] eqn:E; [by apply map_to_list_empty_iff in E|].
  exists k. split; [done|]. exists p. apply elem_of_map_to_list. rewrite E. by left.
Qed.

Definition sample_requests : list (Io * Request) :=
  [(None, AddProxy {[ "a"%string := Url "http://a"; "b"%string := Non ]}); (None, SetGeneralProxy "a");
   (None, DeleteProxies ["sys"%string] Simple); (None, DeleteProxies ["a"%string; "b"%string] Detailed)].

Lemma pool_safe_witness :
  exists p0 p, init sample_build sample_first (mkProxies ∅ "gone") = Ret p0
    /\ serve_all sample_build sample_first sample_requests p0 = Ret p /\ pool_wf p.
Proof.
  destruct (pool_safe sample_build sample_first (mkProxies ∅ "gone") sample_requests) as (p0 & p & E0 & E & H & _);
    [intros n p; by exists n|apply sample_first_spec|repeat constructor|eauto].
Defined.

(** C15: what each request to the administration of proxies does, provided that HTTP
    clients can be built and that a map with keys has a first one.  A request that
    sets no proxies at all is undefined behaviour.  Every other request does to the
    names what it says: setting replaces them, adding keeps the proxy a name already
    has, deleting removes the names and falls back to the system proxy when none is
    left; the general name is the one asked for as long as it has a proxy; clients of
    proxies that stay in use are kept, and the pool stays consistent. *)
Theorem proxy_requests_answered {Client} (build : nat -> SingleProxy -> option Client) first_key io q p :
  (forall n p, is_Some (build n p)) ->
  (forall m, m <> ∅ -> exists k, first_key m = Some k /\ is_Some (m !! k)) ->
  pool_wf p ->
  (admissible q -> exists p', serve build first_key io q p = Ret p' /\ pool_wf p' /\ answered first_key q p p') /\
  (~ admissible q -> (exists general, q = SetProxies (mkProxies ∅ general)) /\ serve build first_key io q p = Undef).
Proof.
  intros Hb Hf Hw. split; [intros Ha; by apply serve_spec|]. intros Ha. split; [|by apply serve_inadmissible].
  destruct q as [[m general]|m|names e|name]; cbn [admissible p_proxies] in Ha; try tauto. exists general.
  destruct (decide (m = ∅)) as [->|]; [done|tauto].
Qed.

Definition sample_pool : Pool (Client := nat) := mkPool {[ "sys"%string := Sys ]} "sys" {[ Sys := 7%nat ]} 7%nat 8.
Lemma sample_pool_wf : pool_wf sample_pool.
Proof.
  split; cbn.
  - exists Sys. by split.
  - intros q. rewrite lookup_singleton_is_Some. split.
    + intros <-. exists "sys"%string. by rewrite lookup_singleton_eq.
    + intros [name [_ H]%lookup_singleton_Some]. done.
Qed.
Lemma proxy_requests_answered_witness :
  exists p', serve sample_build sample_first None (AddProxy {[ "a"%string := Url "http://a" ]}) sample_pool = Ret p'
    /\ pool_wf p' /\ answered sample_first (AddProxy {[ "a"%string := Url "http://a" ]}) sample_pool p'.
Proof.
  refine (proj1 (proxy_requests_answered sample_build sample_first None
    (AddProxy {[ "a"%string := Url "http://a" ]}) sample_pool _ sample_first_spec sample_pool_wf) I).
  intros n p. by exists n.
Defined.

(** A request that replaces all proxies by none is undefined behaviour: the
    global map becomes the default one, but the clients are made for the empty map
    that was loaded before, so the system proxy has none. *)
Theorem empty_update_undefined {Client} (build : nat -> SingleProxy -> option Client) first_key io general p :
  handle_set_proxies build first_key io (mkProxies ∅ general) p = Undef.
Proof. apply set_none_undefined. Qed.
