(* ===== verification/Models.v ===== *)
(** * The registry of models

    [src/src/core/constant.rs] (the built-in models, the registry and its update from
    the upstream list), [Model] of [src/src/core/model.rs] and the resolver of model
    names in requests, [src/src/core/model/resolver.rs].

    Strings are their bytes; interning a string ([intern_static], [get_static_id])
    keeps its bytes, so it is the identity here.  Times are nanoseconds of a monotonic
    clock.  A hash map is a [gmap] and a hash set a [gset]. *)
From S2P Require Import Prelude Strings DisplayName Settings.

(** ** Models *)

Record Model : Type := mkModel
  { server_id : bytes; client_id : bytes; m_id : bytes; display_name : bytes; owned_by : bytes;
    is_thinking : bool; is_image : bool; is_max : bool; is_non_max : bool }.
Definition model_id (src : ModelIdSource) (m : Model) : bytes :=
  match src with IdSource => m_id m | ClientIdSource => client_id m | ServerIdSource => server_id m end.
Definition model_eqb (a b : Model) : bool :=
  bool_decide (m_id a = m_id b) && bool_decide (server_id a = server_id b) && bool_decide (client_id a = client_id b).

Record ModelIds : Type := mkIds { i_id : string; i_client_id : string; i_server_id : string }.
Definition new (id : string) : ModelIds := mkIds id id id.
Definition with_client_id (c : string) (i : ModelIds) : ModelIds := mkIds (i_id i) c (i_server_id i).
Definition with_server_id (s : string) (i : ModelIds) : ModelIds := mkIds (i_id i) (i_client_id i) s.
Definition with_same_id (s : string) (i : ModelIds) : ModelIds := mkIds (i_id i) s s.

Definition MODELS : list (string * list ModelIds) :=
  [
    ("default", [new "default"]);
    ("anthropic", [new "claude-4.5-sonnet"; new "claude-4.5-sonnet-thinking"; new "claude-4-sonnet"; new
      "claude-4-sonnet-thinking"; new "claude-4-sonnet-1m"; new "claude-4-sonnet-1m-thinking"; with_same_id
      "claude-4.1-opus" (new "claude-4-opus"); with_same_id "claude-4.1-opus-thinking" (new
      "claude-4-opus-thinking"); with_same_id "claude-4-opus" (new "claude-4-opus-legacy"); with_same_id
      "claude-4-opus-thinking" (new "claude-4-opus-thinking-legacy"); new "claude-3.5-sonnet"; new
      "claude-3.7-sonnet"; new "claude-3.7-sonnet-thinking"; new "claude-3.5-haiku"; new "claude-3-opus"; new
      "claude-3-haiku-200k"; new "claude-3.5-sonnet-200k"]);
    ("cursor", [new "cursor-small"; new "cursor-fast"]);
    ("google", [with_same_id "gemini-2.5-pro" (new "gemini-2.5-pro-preview-05-06"); new "gemini-2.5-pro"; new
      "gemini-2.5-pro-latest"; with_same_id "gemini-2.5-flash" (new "gemini-2.5-flash-preview-05-20"); new
      "gemini-2.5-flash"; new "gemini-2.5-flash-latest"; new "gemini-2.5-pro-exp-03-25"; new
      "gemini-2.5-flash-preview-04-17"; new "gemini-2.5-pro-max"; new "gemini-2.0-flash-thinking-exp"; new
      "gemini-2.0-flash"; new "gemini-1.5-flash-500k"]);
    ("openai", [new "gpt-5"; new "gpt-5-fast"; new "gpt-5-medium"; new "gpt-5-medium-fast"; new "gpt-5-high";
      new "gpt-5-high-fast"; new "gpt-5-low"; new "gpt-5-low-fast"; new "o3"; new "gpt-4.1"; new "gpt-5-mini";
      new "gpt-5-nano"; new "gpt-4o"; new "o4-mini"; new "o3-pro"; new "gpt-5-codex"; new "gpt-4"; new
      "gpt-4.5-preview"; new "gpt-4-turbo-2024-04-09"; new "gpt-4o-mini"; new "o1-mini"; new "o1-preview"; new
      "o1"; new "o3-mini"; new "gpt-4o-128k"]);
    ("deepseek", [new "deepseek-r1-0528"; new "deepseek-v3.1"; new "deepseek-r1"; new "deepseek-v3"]);
    ("xai", [with_client_id "grok-3" (new "grok-3-beta"); new "grok-3-mini"; new "grok-code-fast-1";
      with_server_id "grok-4-0709" (new "grok-4"); new "grok-4-fast-reasoning"; new
      "grok-4-fast-non-reasoning"; new "code-supernova-1-million"; new "grok-2"]);
    ("moonshotai", [with_server_id "accounts/fireworks/models/kimi-k2-instruct" (new "kimi-k2-instruct")])].

Definition FREE_MODELS : list string := ["gpt-4o-mini"; "cursor-fast"; "cursor-small"; "deepseek-v3";
   "deepseek-v3.1"; "grok-3-mini"].
Definition LONG_CONTEXT_MODELS : list string := ["gpt-4o-128k"; "gemini-1.5-flash-500k";
   "claude-3-haiku-200k"; "claude-3.5-sonnet-200k"].
Definition SUPPORTED_THINKING_MODELS : list string := ["claude-4.5-sonnet-thinking";
   "claude-4-sonnet-thinking"; "claude-4-sonnet-1m-thinking"; "claude-4-opus-thinking";
   "claude-4-opus-thinking-legacy"; "gpt-5"; "gpt-5-fast"; "gpt-5-medium"; "gpt-5-medium-fast"; "gpt-5-high";
   "gpt-5-high-fast"; "gpt-5-low"; "gpt-5-low-fast"; "o3"; "gemini-2.5-pro-preview-05-06";
   "gemini-2.5-flash-preview-05-20"; "claude-3.7-sonnet-thinking"; "gpt-5-mini"; "gpt-5-nano"; "o4-mini";
   "deepseek-r1-0528"; "grok-code-fast-1"; "grok-4"; "grok-4-fast-reasoning"; "o3-pro";
   "code-supernova-1-million"; "gpt-5-codex"].
Definition SUPPORTED_IMAGE_MODELS : list string := ["default"; "claude-4.5-sonnet";
   "claude-4.5-sonnet-thinking"; "claude-4-sonnet"; "claude-4-sonnet-thinking"; "claude-4-sonnet-1m";
   "claude-4-sonnet-1m-thinking"; "claude-4-opus"; "claude-4-opus-thinking"; "claude-4-opus-legacy";
   "claude-4-opus-thinking-legacy"; "gpt-5"; "gpt-5-fast"; "gpt-5-medium"; "gpt-5-medium-fast"; "gpt-5-high";
   "gpt-5-high-fast"; "gpt-5-low"; "gpt-5-low-fast"; "o3"; "gemini-2.5-pro-preview-05-06";
   "gemini-2.5-flash-preview-05-20"; "claude-3.5-sonnet"; "gpt-4.1"; "claude-3.7-sonnet";
   "claude-3.7-sonnet-thinking"; "gpt-5-mini"; "gpt-5-nano"; "claude-3.5-haiku"; "gpt-4o"; "o4-mini";
   "grok-4"; "grok-4-fast-reasoning"; "grok-4-fast-non-reasoning"; "o3-pro"; "code-supernova-1-million";
   "gpt-5-codex"; "gemini-2.5-pro-exp-03-25"].
Definition SUPPORTED_MAX_MODELS : list string := ["claude-4.5-sonnet"; "claude-4.5-sonnet-thinking";
   "claude-4-sonnet"; "claude-4-sonnet-thinking"; "gpt-5"; "gpt-5-fast"; "gpt-5-medium"; "gpt-5-medium-fast";
   "gpt-5-high"; "gpt-5-high-fast"; "gpt-5-low"; "gpt-5-low-fast"; "o3"; "gemini-2.5-pro-preview-05-06";
   "gemini-2.5-flash-preview-05-20"; "claude-3.5-sonnet"; "gpt-4.1"; "claude-3.7-sonnet";
   "claude-3.7-sonnet-thinking"; "gpt-5-mini"; "gpt-5-nano"; "o4-mini"; "grok-3-beta"; "grok-code-fast-1";
   "grok-4"; "grok-4-fast-reasoning"; "grok-4-fast-non-reasoning"; "code-supernova-1-million"; "gpt-5-codex";
   "gemini-2.5-pro-exp-03-25"].
Definition MAX_MODELS : list string := ["claude-4-sonnet-1m"; "claude-4-sonnet-1m-thinking"; "claude-4-opus";
   "claude-4-opus-thinking"; "claude-4-opus-legacy"; "claude-4-opus-thinking-legacy"; "o3-pro"].

Definition among (ids : list string) (id : bytes) : bool := bool_decide (id ∈ as_bytes <$> ids).

(** ** The registry *)

(** What is read of a model of the upstream list; the rest is kept as it is. *)
Record AvailableModel : Type := mkAvailable
  { name : bytes; client_display_name : option bytes; server_model_name : option bytes;
    supports_thinking : option bool; supports_images : option bool;
    supports_max_mode : option bool; supports_non_max_mode : option bool }.

Record Models : Type := mkModels
  { models : list Model; raw_models : option (list AvailableModel); cached_ids : list bytes;
    find_ids : gmap bytes nat; last_update : Z }.

Definition push_ids (ids : list bytes) (id : bytes) : list bytes := ids ++ [id; id ++ as_bytes "-online"].
Definition push_model_ids (src : ModelIdSource) (ids : list bytes) (m : Model) : list bytes :=
  let id := model_id src m in
  let ids := push_ids ids id in
  if is_max m && is_non_max m then push_ids ids (id ++ as_bytes "-max") else ids.

(** [HashMap::from_iter(models.iter().enumerate().map(|(i, m)| (m.id(), i)))]. *)
Fixpoint index_from (src : ModelIdSource) (i : nat) (ms : list Model) (map : gmap bytes nat) : gmap bytes nat :=
  match ms with
  | [] => map
  | m :: ms => index_from src (S i) ms (<[model_id src m := i]> map)
  end.
Definition index_models (src : ModelIdSource) (ms : list Model) : gmap bytes nat := index_from src 0 ms ∅.

Section Registry.
Context (capitalize_unicode : bytes -> bytes) (src : ModelIdSource).
Abbreviation Cache := (gmap bytes bytes) (only parsing).

Definition built_in (owner : string) (ids : ModelIds) (cache : Cache) : outcome (Model * Cache) :=
  let id := as_bytes (i_id ids) in
  '(display_name, cache) ← calculate_display_name capitalize_unicode (as_bytes (i_client_id ids)) cache;
  Ret (mkModel (as_bytes (i_server_id ids)) (as_bytes (i_client_id ids)) id display_name (as_bytes owner)
         (among SUPPORTED_THINKING_MODELS id) (among SUPPORTED_IMAGE_MODELS id)
         (among SUPPORTED_MAX_MODELS id || among MAX_MODELS id) (negb (among MAX_MODELS id)), cache).
Fixpoint build_models (table : list (string * ModelIds)) (cache : Cache) : outcome (list Model * Cache) :=
  match table with
  | [] => Ret ([], cache)
  | (owner, ids) :: table =>
      '(m, cache) ← built_in owner ids cache;
      '(ms, cache) ← build_models table cache;
      Ret (m :: ms, cache)
  end.
Definition model_table : list (string * ModelIds) :=
  List.concat ((fun p : string * list ModelIds => pair p.1 <$> p.2) <$> MODELS).
Definition create_models (now : Z) : outcome (Models * Cache) :=
  '(models, cache) ← build_models model_table ∅;
  let cached_ids := fold_left (push_model_ids src) models [] in
  Ret (mkModels models None cached_ids (index_models src models) now, cache).

Definition find_id (r : Models) (id : bytes) : outcome (option Model) :=
  match find_ids r !! id with
  | Some i => m ← unchecked (models r !! i); Ret (Some m)
  | None => Ret None
  end.

(** ** The update from the upstream list *)

Definition extract_ids (m : AvailableModel) : bytes * bytes * bytes :=
  let id := name m in
  let client_id := match client_display_name m with Some c => if bool_decide (c <> id) then c else id | None => id end in
  let server_id := match server_model_name m with Some s => if bool_decide (s <> id) then s else id | None => id end in
  (id, client_id, server_id).

(** The owner a server name suggests, from its first characters. *)
Definition owned_by_of (server_id : bytes) : bytes :=
  let owner : option string :=
    match server_id with
    | 103 :: c :: _ => if c =? 112 then Some "openai"%string else if c =? 101 then Some "google"%string
                       else if c =? 114 then Some "xai"%string else None
    | 111 :: c :: _ => if (c =? 49) || (c =? 51) || (c =? 52) then Some "openai"%string else None
    | 99 :: c :: _ => if c =? 108 then Some "anthropic"%string else if c =? 117 then Some "cursor"%string else None
    | 100 :: c :: rest =>
        if c =? 101 then match rest with c2 :: _ => if c2 =? 101 then Some "deepseek"%string else None | [] => None end
        else None
    | 97 :: _ => if 26 <? zlen server_id then Some "fireworks"%string else None
    | _ => None
    end in
  as_bytes (default "unknown"%string owner).

Definition convert_model (m : AvailableModel) (cache : Cache) : outcome (Model * Cache) :=
  let '(id, client_id, server_id) := extract_ids m in
  '(display_name, cache) ← calculate_display_name capitalize_unicode client_id cache;
  Ret (mkModel server_id client_id id display_name (owned_by_of server_id)
         (default false (supports_thinking m))
         (if eq_str server_id "default" then true else default false (supports_images m))
         (default false (supports_max_mode m)) (default false (supports_non_max_mode m)), cache).
Fixpoint convert_models (ms : list AvailableModel) (cache : Cache) : outcome (list Model * Cache) :=
  match ms with
  | [] => Ret ([], cache)
  | m :: ms =>
      '(m, cache) ← convert_model m cache;
      '(ms, cache) ← convert_models ms cache;
      Ret (m :: ms, cache)
  end.

(** The new list, by the fetch mode. *)
Definition fetch_new_models (mode : FetchMode) (current : list Model) (available : list AvailableModel) (cache : Cache)
    : outcome (list Model * Cache) :=
  match mode with
  | Truncate => convert_models available cache
  | AppendTruncate =>
      let new_model_ids : gset bytes := list_to_set (name <$> available) in
      let kept := filter (fun m => m_id m ∉ new_model_ids) current in
      '(converted, cache) ← convert_models available cache;
      Ret (kept ++ converted, cache)
  | Append =>
      let existing_ids : gset bytes := list_to_set (m_id <$> current) in
      '(converted, cache) ← convert_models (filter (fun a => name a ∉ existing_ids) available) cache;
      Ret (current ++ converted, cache)
  end.

Definition strip_suffix_str (suffix : string) (s : bytes) : option bytes := strip_suffix (as_bytes suffix) s.

(** Whether a listed name goes away with a removed model. *)
Definition listed_for (mid id : bytes) : bool :=
  bool_decide (id = mid) ||
  match strip_suffix_str "-online" id with
  | Some base =>
      bool_decide (base = mid) ||
      match strip_suffix_str "-max" base with Some b => bool_decide (b = mid) | None => false end
  | None => match strip_suffix_str "-max" id with Some base => bool_decide (base = mid) | None => false end
  end.

Definition THIRTY_MINUTES : Z := 1800 * 10 ^ 9.

(** [first_check_passed] is the static flag, [since_start] the time since the program
    started and [now] the instant of the call. *)
Definition update (mode : FetchMode) (available : list AvailableModel) (since_start now : Z) (first_check_passed : bool)
    (r : Models) (cache : Cache) : outcome (result string () * Models * bool * Cache) :=
  match available with
  | [] => Ret (Err "Models list cannot be empty"%string, r, first_check_passed, cache)
  | _ =>
      let r := mkModels (models r) (Some available) (cached_ids r) (find_ids r) (last_update r) in
      let recent := Z.max 0 (now - last_update r) <? THIRTY_MINUTES in
      let check := first_check_passed || (THIRTY_MINUTES <=? since_start) in
      let first_check_passed := if recent then check else first_check_passed in
      if recent && check then Ret (Ok (), r, first_check_passed, cache) else
      let current := models r in
      '(new_models, cache) ← fetch_new_models mode current available cache;
      if (length current =? length new_models)%nat && forallb (fun p => model_eqb p.1 p.2) (zip current new_models)
      then Ret (Ok (), r, first_check_passed, cache) else
      let old_ids : gset bytes := list_to_set (model_id src <$> current) in
      let new_ids : gset bytes := list_to_set (model_id src <$> new_models) in
      let to_add := filter (fun m => model_id src m ∉ old_ids) new_models in
      let to_remove := filter (fun m => model_id src m ∉ new_ids) current in
      let kept := filter (fun id => existsb (fun m => listed_for (model_id src m) id) to_remove = false) (cached_ids r) in
      let cached_ids := fold_left (push_model_ids src) to_add kept in
      Ret (Ok (), mkModels new_models (raw_models r) cached_ids (index_models src new_models) now, first_check_passed, cache)
  end.

(** ** The resolver *)

Record ExtModel : Type := mkExtModel { x_id : bytes; x_is_image : bool; x_is_thinking : bool; web : bool; max : bool }.

Definition starts_with_str (s : bytes) (p : string) : bool := bool_decide (take (String.length p) s = as_bytes p).

(** A name that is let through without validation. *)
Definition bypassed (model_str : bytes) (web max : bool) : ExtModel :=
  mkExtModel model_str true
    (occurs (as_bytes "-thinking") model_str ||
     match model_str with b0 :: b1 :: _ => (b0 =? 111) && is_ascii_digit b1 | _ => false end ||
     starts_with_str model_str "gemini-2.5-" || starts_with_str model_str "deepseek-r1" ||
     starts_with_str model_str "grok-4") web max.

Definition ext_from_str (BYPASS_MODEL_VALIDATION : bool) (r : Models) (s : bytes) : outcome (option ExtModel) :=
  let '(base_str, web) := match strip_suffix_str "-online" s with Some base => (base, true) | None => (s, false) end in
  found ← find_id r base_str;
  match found with
  | Some raw => Ret (Some (mkExtModel (server_id raw) (is_image raw) (is_thinking raw) web (negb (is_non_max raw))))
  | None =>
      let '(model_str, max) := match strip_suffix_str "-max" base_str with Some base => (base, true) | None => (base_str, false) end in
      found ← (if (max : bool) then find_id r model_str else Ret None);
      let matched := match found with Some raw => if is_max raw then Some raw else None | None => None end in
      Ret (match matched with
           | Some raw => Some (mkExtModel (server_id raw) (is_image raw) (is_thinking raw) web max)
           | None => if BYPASS_MODEL_VALIDATION && negb (length model_str =? 0)%nat
                     then Some (bypassed model_str web max) else None
           end)
  end.
Definition is_usage_check (x : ExtModel) (global : UsageCheck) (usage_check : option UsageCheck) : bool :=
  match default global usage_check with
  | UNone => false
  | UDefault => negb (among FREE_MODELS (x_id x))
  | UAll => true
  | UCustom models => bool_decide (x_id x ∈ models)
  end.
End Registry.

(** ** Lemmas *)

Section Lemmas.
Context (capitalize_unicode : bytes -> bytes) (src : ModelIdSource).
Abbreviation cache_ok := (cache_ok capitalize_unicode).

(** The registry invariant: the index is that of the models. *)
Definition registry_wf (r : Models) : Prop := find_ids r = index_models src (models r).

Lemma index_from_lookup ms : forall i map k n, index_from src i ms map !! k = Some n ->
  (exists m, (i <= n)%nat /\ ms !! (n - i)%nat = Some m /\ model_id src m = k) \/ map !! k = Some n.
Proof.
  induction ms as [|m ms IH]; intros i map k n H; cbn [index_from] in H; [by right|].
  apply IH in H as [(m' & Hi & Hm & Hk)|H].
  - left. exists m'. split; [lia|]. replace (n - i)%nat with (S (n - S i)) by lia. done.
  - apply lookup_insert_Some in H as [[<- <-]|[_ H]]; [|by right]. left. exists m. rewrite Nat.sub_diag. done.
Qed.
Lemma index_from_keeps ms : forall i map k, is_Some (map !! k) -> is_Some (index_from src i ms map !! k).
Proof.
  induction ms as [|m ms IH]; intros i map k H; cbn [index_from]; [done|]. apply IH, lookup_insert_is_Some'. by right.
Qed.
Lemma index_from_all ms : forall i map m, m ∈ ms -> is_Some (index_from src i ms map !! model_id src m).
Proof.
  induction ms as [|m ms IH]; intros i map m' H; [by apply not_elem_of_nil in H|]. cbn [index_from].
  apply elem_of_cons in H as [->|H]; [|by apply IH]. apply index_from_keeps, lookup_insert_is_Some'. by left.
Qed.

(** Looking a name up never leaves the list, and finds every model's name. *)
Lemma find_id_spec r k : registry_wf r -> exists o, find_id r k = Ret o /\
  (forall m, o = Some m -> m ∈ models r /\ model_id src m = k) /\
  (o = None -> forall m, m ∈ models r -> model_id src m <> k).
Proof.
  intros Hwf. unfold find_id. rewrite Hwf. destruct (index_models src (models r) !! k) as [n|] eqn:E.
  - apply index_from_lookup in E as [(m & _ & Hm & Hk)|E]; [|by rewrite lookup_empty in E].
    rewrite Nat.sub_0_r in Hm. rewrite Hm. cbn. exists (Some m). split_and!; [done| |done].
    intros m' [= <-]. split; [by eapply list_elem_of_lookup_2|done].
  - exists None. split_and!; [done..|]. intros _ m Hm Hk. destruct (index_from_all (models r) 0 ∅ m Hm) as [n Hn].
    unfold index_models in E. rewrite Hk in Hn. congruence.
Qed.

(** ** Conversions *)

Definition display (s : bytes) : bytes := render capitalize_unicode (classify (tokenize s)).
Definition model_of (a : AvailableModel) : Model :=
  let '(id, client_id, server_id) := extract_ids a in
  mkModel server_id client_id id (display client_id) (owned_by_of server_id) (default false (supports_thinking a))
    (if eq_str server_id "default" then true else default false (supports_images a))
    (default false (supports_max_mode a)) (default false (supports_non_max_mode a)).

Lemma display_name_ok s cache : cache_ok cache ->
  exists cache', calculate_display_name capitalize_unicode s cache = Ret (display s, cache') /\ cache_ok cache'.
Proof.
  intros H. unfold calculate_display_name. destruct (cache !! s) as [name|] eqn:E.
  - exists cache. split; [|done]. unfold display. by rewrite (H s name E).
  - assert (R : (if (length s =? 0)%nat then Ret [] else calculate_display_name_internal capitalize_unicode s) = Ret (display s)).
    { destruct s; [done|apply display_name_tokens]. }
    rewrite R. cbn. eexists. split; [reflexivity|]. by apply map_Forall_insert_2.
Qed.
Lemma convert_models_ok ms : forall cache, cache_ok cache ->
  exists cache', convert_models capitalize_unicode ms cache = Ret (model_of <$> ms, cache') /\ cache_ok cache'.
Proof.
  induction ms as [|a ms IH]; intros cache H; cbn [convert_models]; [eauto|]. unfold convert_model.
  rewrite fmap_cons. unfold model_of at 1. destruct (extract_ids a) as [[id client_id] server_id].
  destruct (display_name_ok client_id cache H) as (c1 & -> & H1). cbn [mbind outcome_bind].
  destruct (IH c1 H1) as (c2 & -> & H2). cbn. eauto.
Qed.
Definition built_in_model (p : string * ModelIds) : Model :=
  let id := as_bytes (i_id p.2) in
  mkModel (as_bytes (i_server_id p.2)) (as_bytes (i_client_id p.2)) id (display (as_bytes (i_client_id p.2))) (as_bytes p.1)
    (among SUPPORTED_THINKING_MODELS id) (among SUPPORTED_IMAGE_MODELS id)
    (among SUPPORTED_MAX_MODELS id || among MAX_MODELS id) (negb (among MAX_MODELS id)).
Lemma build_models_ok table : forall cache, cache_ok cache ->
  exists cache', build_models capitalize_unicode table cache = Ret (built_in_model <$> table, cache') /\ cache_ok cache'.
Proof.
  induction table as [|[owner ids] table IH]; intros cache H; cbn [build_models]; [eauto|]. unfold built_in.
  destruct (display_name_ok (as_bytes (i_client_id ids)) cache H) as (c1 & -> & H1). cbn [mbind outcome_bind].
  destruct (IH c1 H1) as (c2 & -> & H2). cbn. eauto.
Qed.

(** ** Updates *)

(** The list an update aims at. *)
Definition merged (mode : FetchMode) (current : list Model) (available : list AvailableModel) : list Model :=
  match mode with
  | Truncate => model_of <$> available
  | AppendTruncate => filter (fun m => m_id m ∉ name <$> available) current ++ (model_of <$> available)
  | Append => current ++ (model_of <$> filter (fun a => name a ∉ m_id <$> current) available)
  end.
Definition same_ids (a b : list Model) : bool :=
  (length a =? length b)%nat && forallb (fun p => model_eqb p.1 p.2) (zip a b).
(** Whether an update is put off: the last one is recent and the program has run long enough. *)
Definition put_off (since_start now : Z) (passed : bool) (r : Models) : bool :=
  (Z.max 0 (now - last_update r) <? THIRTY_MINUTES) && (passed || (THIRTY_MINUTES <=? since_start)).

Lemma fetch_new_models_ok mode current available cache : cache_ok cache ->
  exists cache', fetch_new_models capitalize_unicode mode current available cache =
    Ret (merged mode current available, cache') /\ cache_ok cache'.
Proof.
  intros Hc. destruct mode; cbn [fetch_new_models merged].
  - by apply convert_models_ok.
  - destruct (convert_models_ok available cache Hc) as (c & -> & H). exists c. split; [|done]. cbn [mbind outcome_bind].
    do 3 f_equal. apply list_filter_iff. intros m. by rewrite elem_of_list_to_set.
  - destruct (convert_models_ok (filter (fun a => name a ∉ (list_to_set (m_id <$> current) : gset bytes)) available) cache Hc)
      as (c & -> & H). exists c. split; [|done]. cbn [mbind outcome_bind].
    do 4 f_equal. apply list_filter_iff. intros m. by rewrite elem_of_list_to_set.
Qed.

Lemma update_spec mode available since_start now passed r cache : cache_ok cache -> available <> [] ->
  exists r' passed' cache', update capitalize_unicode src mode available since_start now passed r cache =
      Ret (Ok (), r', passed', cache') /\ cache_ok cache' /\ raw_models r' = Some available /\
    (let new_models := merged mode (models r) available in
     if put_off since_start now passed r || same_ids (models r) new_models
     then models r' = models r /\ cached_ids r' = cached_ids r /\ find_ids r' = find_ids r /\ last_update r' = last_update r
     else models r' = new_models /\ find_ids r' = index_models src new_models /\ last_update r' = now).
Proof.
  intros Hc Hne. unfold update. destruct available as [|a0 av0] eqn:Ea; [done|]. rewrite <- Ea in *. clear Ea.
  cbn [last_update models]. fold (put_off since_start now passed r).
  destruct (put_off since_start now passed r).
  { do 3 eexists. split; [reflexivity|]. done. }
  cbn [orb].
  destruct (fetch_new_models_ok mode (models r) available cache Hc) as (c & -> & Hc').
  cbn [mbind outcome_bind]. fold (same_ids (models r) (merged mode (models r) available)).
  destruct (same_ids _ _); do 3 eexists; (split; [reflexivity|]); by split_and!.
Qed.
End Lemmas.

(** ** Properties *)

(** The built-in registry. *)
Definition start (src : ModelIdSource) : Models :=
  match create_models id src 0 with Ret (r, _) => r | _ => mkModels [] None [] ∅ 0 end.

(** A registry of one model, for examples. *)
Definition no_thinking : AvailableModel := mkAvailable (as_bytes "m") None None (Some false) None None None.
Definition one_model : Models :=
  mkModels [mkModel (as_bytes "m") (as_bytes "m") (as_bytes "m") (as_bytes "M") (as_bytes "unknown") true true true true]
    None [as_bytes "m"; as_bytes "m-online"] (index_models IdSource
      [mkModel (as_bytes "m") (as_bytes "m") (as_bytes "m") (as_bytes "M") (as_bytes "unknown") true true true true]) 0.

(** C13: the registry is always consistent: it is created with an index of its models,
    every update returns, keeps the index right and the display-name cache transparent,
    and looking up a name never reads outside the list of models; what is found has the
    name asked for, and every model's name is found. *)
Theorem registry_safe capitalize_unicode src mode available since_start now passed r cache :
  registry_wf src r -> cache_ok capitalize_unicode cache ->
  (exists r0 cache0, create_models capitalize_unicode src now = Ret (r0, cache0) /\
     registry_wf src r0 /\ cache_ok capitalize_unicode cache0) /\
  exists res r' passed' cache',
    update capitalize_unicode src mode available since_start now passed r cache = Ret (res, r', passed', cache') /\
    registry_wf src r' /\ cache_ok capitalize_unicode cache' /\
    forall k, exists o, find_id r' k = Ret o /\
      (forall m, o = Some m -> m ∈ models r' /\ model_id src m = k) /\
      (o = None -> forall m, m ∈ models r' -> model_id src m <> k).
Proof.
  intros Hr Hc. split.
  - unfold create_models. destruct (build_models_ok capitalize_unicode model_table ∅ (map_Forall_empty _)) as (c & -> & H).
    cbn. do 2 eexists. split; [reflexivity|]. by split.
  - destruct (decide (available = [])) as [->|Hne].
    + do 4 eexists. split; [reflexivity|]. split_and!; [done..|]. intros k. by apply find_id_spec.
    + destruct (update_spec capitalize_unicode src mode available since_start now passed r cache Hc Hne)
        as (r' & p' & c' & -> & Hc' & _ & H). exists (Ok ()), r', p', c'.
      assert (Hr' : registry_wf src r').
      { unfold registry_wf in *. cbv zeta in H. destruct (_ || _).
        - destruct H as (-> & _ & -> & _). done.
        - by destruct H as (-> & -> & _). }
      split_and!; [done..|]. intros k. by apply find_id_spec.
Qed.

Lemma registry_safe_witness :
  exists res r' passed' cache',
    update id IdSource Append [no_thinking] 0 1 false one_model ∅ = Ret (res, r', passed', cache') /\
    registry_wf IdSource r'.
Proof.
  destruct (registry_safe id IdSource Append [no_thinking] 0 1 false one_model ∅ eq_refl (map_Forall_empty _))
    as [_ (res & r' & p & c & E & H & _)].
  exists res, r', p, c. by split.
Defined.

(** What an update does: nothing for an empty list, which is an error; it is put off
    when the last one is less than thirty minutes old and the program has run for thirty;
    otherwise the list becomes the merge the fetch mode asks for, unless the new list has
    the same identifiers in the same order: then nothing changes, even if the models'
    capabilities did. *)
Theorem update_outcome capitalize_unicode src mode available since_start now passed r cache :
  cache_ok capitalize_unicode cache -> available <> [] ->
  (update capitalize_unicode src mode [] since_start now passed r cache =
     Ret (Err "Models list cannot be empty"%string, r, passed, cache)) /\
  exists r' passed' cache',
    update capitalize_unicode src mode available since_start now passed r cache = Ret (Ok (), r', passed', cache') /\
    raw_models r' = Some available /\
    let new_models := merged capitalize_unicode mode (models r) available in
    if put_off since_start now passed r || same_ids (models r) new_models
    then models r' = models r /\ cached_ids r' = cached_ids r /\ last_update r' = last_update r
    else models r' = new_models /\ last_update r' = now.
Proof.
  intros Hc Hne. split; [done|].
  destruct (update_spec capitalize_unicode src mode available since_start now passed r cache Hc Hne)
    as (r' & p' & c' & E & _ & Hraw & H). exists r', p', c'. split; [done|]. split; [done|].
  cbv zeta in *. destruct (_ || _); [by destruct H as (? & ? & _ & ?)|by destruct H as (? & _ & ?)].
Qed.

Lemma update_outcome_witness :
  exists r' passed' cache', update id IdSource Truncate [no_thinking] 0 1 false one_model ∅ = Ret (Ok (), r', passed', cache') /\
    models r' = models one_model.
Proof.
  destruct (update_outcome id IdSource Truncate [no_thinking] 0 1 false one_model ∅ (map_Forall_empty _) ltac:(done))
    as [_ (r' & p & c & E & _ & H)]. exists r', p, c. split; [exact E|]. vm_compute in H. apply H.
Defined.

(** The names a request may give.  A name of the registry is taken as it is; the
    suffix [-online] turns on the web, and [-max] the maximum mode if the model has it.
    Other names are rejected, or let through when validation is bypassed. *)
Theorem resolver_outcome src bypass r k m :
  registry_wf src r -> find_id r k = Ret (Some m) -> strip_suffix_str "-online" k = None ->
  (forall w, ext_from_str bypass r (if w : bool then k ++ as_bytes "-online" else k) =
     Ret (Some (mkExtModel (server_id m) (is_image m) (is_thinking m) w (negb (is_non_max m))))) /\
  (forall w, find_id r (k ++ as_bytes "-max") = Ret None -> is_max m = true ->
     ext_from_str bypass r (if w : bool then k ++ as_bytes "-max" ++ as_bytes "-online" else k ++ as_bytes "-max") =
     Ret (Some (mkExtModel (server_id m) (is_image m) (is_thinking m) w true))) /\
  (forall s, (forall m', m' ∈ models r -> model_id src m' <> s) -> strip_suffix_str "-online" s = None ->
     strip_suffix_str "-max" s = None -> s <> [] ->
     ext_from_str bypass r s = Ret (if bypass then Some (bypassed s false false) else None)).
Proof.
  intros Hr Hk Hon. unfold ext_from_str, strip_suffix_str in *.
  assert (Hmax : strip_suffix (as_bytes "-online") (k ++ as_bytes "-max") = None).
  { destruct (strip_suffix (as_bytes "-online") (k ++ _)) as [rest|] eqn:H; [|done]. apply strip_suffix_Some, (f_equal last) in H.
    change (as_bytes "-max") with ([45; 109; 97] ++ [120]) in H.
    change (as_bytes "-online") with ([45; 111; 110; 108; 105; 110] ++ [101]) in H.
    rewrite !app_assoc, !last_snoc in H. discriminate H. }
  split_and!.
  - intros [|]; [rewrite strip_suffix_app|rewrite Hon]; rewrite Hk; done.
  - intros w Hn Hm. destruct w; [rewrite app_assoc, strip_suffix_app|rewrite Hmax];
      rewrite Hn; cbn [mbind outcome_bind]; rewrite strip_suffix_app, Hk; cbn [mbind outcome_bind]; by rewrite Hm.
  - intros s Hs H1 H2 Hne. rewrite H1. destruct (find_id_spec id src r s Hr) as (o & -> & Ho & _). cbn [mbind outcome_bind].
    destruct o as [m'|]; [by destruct (Ho m' eq_refl) as [Hin Hid]; destruct (Hs m' Hin)|]. rewrite H2.
    cbn [mbind outcome_bind]. by destruct s, bypass.
Qed.

Lemma resolver_outcome_witness :
  ext_from_str false one_model (as_bytes "m-max-online") = Ret (Some (mkExtModel (as_bytes "m") true true true true)).
Proof.
  refine (proj1 (proj2 (resolver_outcome IdSource false one_model (as_bytes "m")
    (mkModel (as_bytes "m") (as_bytes "m") (as_bytes "m") (as_bytes "M") (as_bytes "unknown") true true true true)
    eq_refl _ _)) true _ eq_refl); vm_compute; reflexivity.
Defined.

Definition unresolved (src : ModelIdSource) (r : Models) : list string :=
  from_bytes <$> filter (fun i => match ext_from_str false r i with Ret (Some _) => false | _ => true end = true) (cached_ids r).
Definition upstream (names : list string) : list AvailableModel :=
  (fun n => mkAvailable (as_bytes n) None None None None None (Some true)) <$> names.
Definition listed_after (available : list AvailableModel) (src : ModelIdSource) : list string :=
  match update id src Truncate available 0 1 false (start src) ∅ with
  | Ret (_, r, _, _) => from_bytes <$> cached_ids r
  | _ => []
  end.

(** The list of names and the resolver disagree.  With the default source of
    identifiers the built-in list names [gemini-2.5-flash-max] although requests for it
    are rejected; with model identifiers as the source every built-in name resolves.
    After an update that drops [gemini-2.5-pro] but keeps the model
    [gemini-2.5-pro-max], the latter is no longer listed.  A usage check configured with
    the name [claude-4.1-opus] does not check that model but the one whose requests name
    [claude-4-opus], because lists hold model identifiers and requests server names. *)
Theorem listing_faults :
  unresolved ClientIdSource (start ClientIdSource) = ["gemini-2.5-flash-max"; "gemini-2.5-flash-max-online"] /\
  unresolved IdSource (start IdSource) = [] /\
  listed_after (upstream ["gemini-2.5-pro-max"]) ClientIdSource = [] /\
  listed_after (upstream ["gemini-2.5-pro-max"; "gemini-2.5-pro"]) ClientIdSource =
    ["gemini-2.5-pro"; "gemini-2.5-pro-online"; "gemini-2.5-pro-max"; "gemini-2.5-pro-max-online";
     "gemini-2.5-pro"; "gemini-2.5-pro-online"; "gemini-2.5-pro-max"; "gemini-2.5-pro-max-online"] /\
  (let r := start ClientIdSource in
   let find s := match find_id r s with Ret (Some m) => Some (m_id m) | _ => None end in
   let check := usage_from_str find (as_bytes "claude-4.1-opus") in
   check = UCustom [as_bytes "claude-4-opus"] /\
   let checked s := match ext_from_str false r (as_bytes s) with
                    | Ret (Some x) => Some (is_usage_check x UDefault (Some check)) | _ => None end in
   checked "claude-4.1-opus"%string = Some false /\ checked "claude-4-opus"%string = Some true).
Proof.
  do 4 (split; [vm_compute; reflexivity|]). cbv zeta. split_and!; vm_compute; reflexivity.
Qed.
