(* ===== verification/Floats.v ===== *)
(** * IEEE 754 numbers

    The [f64] operations the program uses, on the standard library's
    specification of binary64: comparison, arithmetic, rounding to an integer, and
    the conversions from and to [i64]. *)
From Stdlib Require Export Floats.SpecFloat.
From S2P Require Import Prelude.

Abbreviation f64 := spec_float (only parsing).
Definition f64_lt (a b : f64) : bool := SFltb a b.
Definition f64_add (a b : f64) : f64 := SFadd 53 1024 a b.
Definition f64_mul (a b : f64) : f64 := SFmul 53 1024 a b.
Definition f64_div (a b : f64) : f64 := SFdiv 53 1024 a b.

(** [x as f64], to nearest, ties to even. *)
Definition f64_of_i64 (x : Z) : f64 := binary_normalize 53 1024 x 0 false.

(** [f64::round]: to the nearest integer, halves away from zero. *)
Definition f64_round (x : f64) : f64 :=
  match x with
  | S754_finite s m e =>
      if 0 <=? e then x
      else binary_normalize 53 1024 (cond_Zopp s (Z.shiftr (Zpos m + 2 ^ (- e - 1)) (- e))) 0 s
  | _ => x
  end.

(** [x as i64]: towards zero, saturating, zero for a NaN. *)
Definition clamp_i64 (x : Z) : Z := Z.max (- 2 ^ 63) (Z.min (2 ^ 63 - 1) x).
Definition f64_to_i64 (x : f64) : Z :=
  match x with
  | S754_zero _ | S754_nan => 0
  | S754_infinity s => if s then - 2 ^ 63 else 2 ^ 63 - 1
  | S754_finite s m e => clamp_i64 (cond_Zopp s (Z.shiftl (Zpos m) e))
  end.

(** [format_time_ms] of [src/src/common/utils.rs]. *)
Definition f64_1000 : f64 := f64_of_i64 1000.
Definition format_time_ms (seconds : f64) : f64 := f64_div (f64_round (f64_mul seconds f64_1000)) f64_1000.
