(* ===== verification/DebugLog.v ===== *)
(** * The debug log writer

    [src/src/app/lazy/log.rs]: the background task that receives numbered messages
    from many tasks, puts them back in the order of their numbers and writes them
    to the log file.

    The events of the task's loop are given as a sequence: a message, a tick of the
    timer, a change of the shutdown signal with the messages still in the channel,
    or the closing of all channels.  A [BTreeMap] is the list of its entries by
    increasing key.  [ios] says how the next writes to the file end: [Some n] is an
    error after [n] bytes; a write is successful when nothing is said. *)
From Stdlib Require Import Sorted Permutation.
From S2P Require Import Prelude.

Record LogMessage : Type := mkLogMessage { seq : Z; content : bytes }.

(** [next_log_seq]: the number, and the counter after it. *)
Definition next_log_seq (LOG_SEQUENCE : Z) : Z * Z := (LOG_SEQUENCE, wrap 64 (LOG_SEQUENCE + 1)).

Definition BUFFER_CAPACITY : Z := 65536.
Definition MAX_PENDING_MESSAGES : Z := 1000.
Definition OUT_OF_ORDER_THRESHOLD : Z := 100.

(** ** Messages that wait for an earlier one *)

Abbreviation Pending := (list (Z * bytes)) (only parsing).

Fixpoint pending_insert (k : Z) (v : bytes) (m : Pending) : Pending :=
  match m with
  | [] => [(k, v)]
  | (k', v') :: m' => if k <? k' then (k, v) :: m else if k =? k' then (k, v) :: m' else (k', v') :: pending_insert k v m'
  end.
Fixpoint pending_remove (k : Z) (m : Pending) : option (bytes * Pending) :=
  match m with
  | [] => None
  | (k', v') :: m' =>
      if k =? k' then Some (v', m')
      else match pending_remove k m' with Some (v, m') => Some (v, (k', v') :: m') | None => None end
  end.

(** ** The task *)

Record Writer : Type := mkWriter
  { buffer : bytes; pending : Pending; next_seq : Z; file : bytes; ios : list (option nat);
    skipped : list (Z * Z); running : bool }.
Definition writer_new (ios : list (option nat)) : Writer := mkWriter [] [] 0 [] ios [] true.

(** A line: the content and a line feed. *)
Definition line (content : bytes) : bytes := content ++ [10].

Definition flush_byte_buffer (w : Writer) : Writer :=
  match buffer w with
  | [] => w
  | b =>
      let file := match ios w with Some n :: _ => file w ++ take n b | _ => file w ++ b end in
      mkWriter [] (pending w) (next_seq w) file (tail (ios w)) (skipped w) (running w)
  end.

(** [while let Some(content) = pending_messages.remove(&next_seq)]. *)
Fixpoint drain (fuel : nat) (w : Writer) : option Writer :=
  match fuel with
  | O => None
  | S fuel =>
      match pending_remove (next_seq w) (pending w) with
      | None => Some w
      | Some (content, pending) =>
          let w := mkWriter (buffer w ++ line content) pending (wrap 64 (next_seq w + 1)) (file w) (ios w) (skipped w) (running w) in
          drain fuel (if BUFFER_CAPACITY <=? zlen (buffer w) then flush_byte_buffer w else w)
      end
  end.

(** The warning names the numbers from the expected one to just before the oldest. *)
Definition skip_to (oldest_seq : Z) (w : Writer) : Writer :=
  mkWriter (buffer w) (pending w) oldest_seq (file w) (ios w) (skipped w ++ [(next_seq w, wrap 64 (oldest_seq - 1))]) (running w).

Definition receive (m : LogMessage) (w : Writer) : outcome (option Writer) :=
  let w := mkWriter (buffer w) (pending_insert (seq m) (content m) (pending w)) (next_seq w) (file w) (ios w) (skipped w) (running w) in
  w ← (if MAX_PENDING_MESSAGES <? zlen (pending w) then oldest ← unchecked (head (pending w)); Ret (skip_to oldest.1 w) else Ret w);
  Ret (drain (S (length (pending w))) w).

Definition tick (w : Writer) : outcome Writer :=
  w ← (match pending w with
       | [] => Ret w
       | _ =>
           oldest ← unchecked (head (pending w));
           Ret (if wrap 64 (next_seq w + OUT_OF_ORDER_THRESHOLD) <? oldest.1 then skip_to oldest.1 w else w)
       end);
  Ret (flush_byte_buffer w).

(** The loop over what is left at the end: the lines, the gaps and the next number. *)
Fixpoint write_rest (m : Pending) (next_seq : Z) (buffer : bytes) (missing : list (Z * Z)) : bytes * list (Z * Z) * Z :=
  match m with
  | [] => (buffer, missing, next_seq)
  | (seq, content) :: m =>
      write_rest m (wrap 64 (seq + 1)) (buffer ++ line content)
        (if negb (seq =? next_seq) then missing ++ [(next_seq, wrap 64 (seq - 1))] else missing)
  end.

Definition shutdown (queued : list LogMessage) (w : Writer) : Writer :=
  let m := fold_left (fun m msg => pending_insert (seq msg) (content msg) m) queued (pending w) in
  let '(buffer, missing, next) := write_rest m (next_seq w) (buffer w) [] in
  flush_byte_buffer (mkWriter buffer [] next (file w) (ios w) (skipped w ++ missing) false).

Definition closed (w : Writer) : Writer :=
  let buffer := fold_left (fun b '(_, content) => b ++ line content) (pending w) (buffer w) in
  flush_byte_buffer (mkWriter buffer [] (next_seq w) (file w) (ios w) (skipped w) false).

Inductive Event : Type :=
| Message (m : LogMessage)
| Tick
| Changed (stop : bool) (queued : list LogMessage)
| Closed.

(** One turn of the loop; [None]: the inner loop is still running. *)
Definition turn (e : Event) (w : Writer) : outcome (option Writer) :=
  match e with
  | Message m => receive m w
  | Tick => w ← tick w; Ret (Some w)
  | Changed stop queued => Ret (Some (if (stop : bool) then shutdown queued w else w))
  | Closed => Ret (Some (closed w))
  end.
Fixpoint run (es : list Event) (w : Writer) : outcome (option Writer) :=
  match es with
  | [] => Ret (Some w)
  | e :: es =>
      if running w then
        r ← turn e w;
        match r with Some w => run es w | None => Ret None end
      else Ret (Some w)
  end.

(** ** Lemmas *)

Definition lines (out : list (Z * bytes)) : bytes := mjoin (line <$> out.*2).
Definition text (w : Writer) : bytes := file w ++ buffer w.

Lemma lines_app a b : lines (a ++ b) = lines a ++ lines b.
Proof. unfold lines. by rewrite !fmap_app, join_app. Qed.
Lemma lines_one k v : lines [(k, v)] = line v.
Proof. unfold lines. cbn. apply app_nil_r. Qed.

Lemma pending_insert_perm k v m : k ∉ m.*1 -> Permutation (pending_insert k v m) ((k, v) :: m).
Proof.
  induction m as [|[k' v'] m IH]; intros Hk; cbn [pending_insert]; [done|]. rewrite fmap_cons in Hk. cbn in Hk.
  destruct (k <? k'); [done|]. destruct (Z.eqb_spec k k') as [->|_]; [set_solver|].
  rewrite IH by set_solver. apply perm_swap.
Qed.

Lemma pending_remove_perm k m v m' : pending_remove k m = Some (v, m') -> Permutation m ((k, v) :: m').
Proof.
  revert m'; induction m as [|[k' v'] m IH]; intros m'; cbn [pending_remove]; [done|].
  destruct (Z.eqb_spec k k') as [->|_]; [by intros [= -> ->]|].
  destruct (pending_remove k m) as [[u m1]|] eqn:E; [|done]. intros [= -> <-]. rewrite (IH _ eq_refl). apply perm_swap.
Qed.

Lemma flush_spec w : ios w = [] ->
  text (flush_byte_buffer w) = text w /\ pending (flush_byte_buffer w) = pending w /\ next_seq (flush_byte_buffer w) = next_seq w
  /\ ios (flush_byte_buffer w) = [] /\ skipped (flush_byte_buffer w) = skipped w /\ running (flush_byte_buffer w) = running w
  /\ buffer (flush_byte_buffer w) = [].
Proof.
  intros Hi. unfold flush_byte_buffer, text. destruct (buffer w) as [|b bs] eqn:E; [by rewrite E|]. cbn.
  rewrite Hi. cbn. split_and!; try done. by rewrite app_nil_r.
Qed.

(** What the task has received, written and kept. *)
Definition small (k : Z) : Prop := 0 <= k < 2 ^ 64 - 1.
#[export] Instance small_dec k : Decision (small k).
Proof. unfold small. apply _. Defined.
Record inv (rcvd : list (Z * bytes)) (w : Writer) : Prop := {
  iv_ios : ios w = [];
  iv_next : 0 <= next_seq w;
  iv_small : Forall small rcvd.*1;
  iv_out : exists out, text w = lines out /\ Permutation (out ++ pending w) rcvd
    /\ (skipped w = [] -> out.*1 = seqZ 0 (next_seq w));
}.

Lemma inv_new : inv [] (writer_new []).
Proof. split; try done. by exists []. Qed.

(** A state with the same text and messages. *)
Lemma inv_same rcvd w w' : inv rcvd w -> text w' = text w -> pending w' = pending w -> ios w' = [] ->
  0 <= next_seq w' -> (skipped w' = [] -> skipped w = [] /\ next_seq w' = next_seq w) -> inv rcvd w'.
Proof.
  intros [_ _ Hs (out & Ht & Hp & Ho)] Et Ep Hi Hn Hsk. split; try done. exists out. rewrite Et, Ep. split_and!; try done.
  intros Hz. apply Hsk in Hz as [Hz ->]. by apply Ho.
Qed.

Lemma inv_flush rcvd w : inv rcvd w -> inv rcvd (flush_byte_buffer w).
Proof.
  intros H. destruct (flush_spec w (iv_ios _ _ H)) as (Et & Ep & En & Ei & Es & _).
  apply (inv_same _ w); try done; [rewrite En; apply H|by rewrite Es, En].
Qed.

Lemma inv_pending_small rcvd w : inv rcvd w -> Forall small (pending w).*1.
Proof.
  intros [_ _ Hs (out & _ & Hp & _)]. rewrite Forall_forall in *. intros k Hk. apply Hs. rewrite <- Hp, fmap_app.
  apply elem_of_app. by right.
Qed.

Lemma drain_spec rcvd fuel : forall w, inv rcvd w -> (length (pending w) < fuel)%nat ->
  exists w', drain fuel w = Some w' /\ inv rcvd w' /\ running w' = running w
    /\ (pending_remove (next_seq w) (pending w) = None -> w' = w).
Proof.
  induction fuel as [|fuel IH]; intros w Hw Hf; [lia|]. cbn [drain].
  destruct (pending_remove (next_seq w) (pending w)) as [[v m]|] eqn:E; [|by exists w].
  pose proof (pending_remove_perm _ _ _ _ E) as Hp. pose proof (inv_pending_small _ _ Hw) as Hsm.
  rewrite Hp in Hsm. cbn in Hsm. apply Forall_cons in Hsm as [[_ Hk] _].
  set (w1 := mkWriter _ _ _ _ _ _ _).
  assert (H1 : inv rcvd w1).
  { destruct Hw as [Hi Hn Hs (out & Ht & Hpo & Ho)].
    assert (En : wrap 64 (next_seq w + 1) = next_seq w + 1) by (apply wrap_small; split; lia).
    split; cbn [w1 ios next_seq]; try done; [rewrite En; lia|]. exists (out ++ [(next_seq w, v)]). split_and!.
    - unfold text in *. cbn [w1 file buffer]. by rewrite app_assoc, Ht, lines_app, lines_one.
    - cbn [w1 pending]. rewrite <- Hpo, Hp, <- app_assoc. done.
    - intros Hz. rewrite En, fmap_app, (Ho Hz), seqZ_app by lia. done. }
  assert (L1 : (length (pending w1) < fuel)%nat) by (apply Permutation_length in Hp; cbn in Hp; cbn [w1 pending]; lia).
  destruct (BUFFER_CAPACITY <=? zlen (buffer w1)).
  - destruct (flush_spec w1 (iv_ios _ _ H1)) as (_ & Ep & _ & _ & _ & Er & _).
    destruct (IH (flush_byte_buffer w1) (inv_flush _ _ H1)) as (w' & -> & Hw' & R & _); [by rewrite Ep|].
    exists w'. split; [done|]. split; [done|]. split; [by rewrite R, Er|done].
  - destruct (IH w1 H1 L1) as (w' & -> & Hw' & R & _). exists w'. by split_and!.
Qed.

Lemma inv_insert rcvd w m : inv rcvd w -> seq m ∉ rcvd.*1 -> small (seq m) ->
  inv (rcvd ++ [(seq m, content m)])
    (mkWriter (buffer w) (pending_insert (seq m) (content m) (pending w)) (next_seq w) (file w) (ios w) (skipped w) (running w)).
Proof.
  intros [Hi Hn Hs (out & Ht & Hp & Ho)] Hk Hm. split; try done.
  - rewrite fmap_app. apply Forall_app. split; [done|]. by apply Forall_singleton.
  - exists out. split_and!; try done. cbn [pending]. rewrite pending_insert_perm.
    + rewrite <- Hp. by rewrite <- app_assoc, <- Permutation_cons_append.
    + rewrite <- Hp, fmap_app in Hk. set_solver.
Qed.

Lemma skip_inv rcvd w k : inv rcvd w -> 0 <= k -> inv rcvd (skip_to k w).
Proof.
  intros H Hk. apply (inv_same _ w); try done; [apply H|]. cbn [skip_to skipped]. by intros [_ ?]%app_nil.
Qed.

Lemma head_small rcvd w p : inv rcvd w -> head (pending w) = Some p -> 0 <= p.1.
Proof.
  intros H. pose proof (inv_pending_small _ _ H) as Hs. destruct (pending w) as [|q m]; [done|].
  intros [= ->]. rewrite fmap_cons in Hs. apply Forall_cons in Hs as [[? _] _]. done.
Qed.

Lemma receive_inv rcvd w m : inv rcvd w -> seq m ∉ rcvd.*1 -> small (seq m) ->
  exists w', receive m w = Ret (Some w') /\ inv (rcvd ++ [(seq m, content m)]) w' /\ running w' = running w.
Proof.
  intros Hw Hk Hm. unfold receive. set (w1 := mkWriter _ _ _ _ _ _ _). pose proof (inv_insert rcvd w m Hw Hk Hm : inv _ w1) as H1.
  assert (exists w2, (if MAX_PENDING_MESSAGES <? zlen (pending w1) then oldest ← unchecked (head (pending w1)); Ret (skip_to oldest.1 w1)
    else Ret w1) = Ret w2 /\ inv (rcvd ++ [(seq m, content m)]) w2 /\ running w2 = running w) as (w2 & E & H2 & R2).
  { destruct (MAX_PENDING_MESSAGES <? zlen (pending w1)) eqn:E; [|by exists w1].
    destruct (head (pending w1)) as [p|] eqn:Eh.
    - cbn [unchecked mbind outcome_bind]. eexists. split; [done|]. split; [|done]. by eapply skip_inv, head_small.
    - exfalso. destruct (pending w1); [cbn in E; discriminate|discriminate]. }
  cbn zeta. rewrite E. cbn [mbind outcome_bind].
  destruct (drain_spec (rcvd ++ [(seq m, content m)]) (S (length (pending w2))) w2 H2) as (w' & -> & Hw' & R & _); [lia|].
  exists w'. split; [done|]. split; [done|]. by rewrite R.
Qed.

Lemma tick_inv rcvd w : inv rcvd w -> exists w', tick w = Ret w' /\ inv rcvd w' /\ running w' = running w.
Proof.
  intros Hw. unfold tick. destruct (pending w) as [|p m] eqn:E.
  - cbn [mbind outcome_bind]. eexists. split; [done|]. split; [by apply inv_flush|by apply flush_spec, Hw].
  - cbn [head unchecked mbind outcome_bind]. destruct (_ <? p.1); (eexists; split; [done|]).
    + assert (Hs : inv rcvd (skip_to p.1 w)) by (apply skip_inv; [done|]; apply (head_small rcvd w); [done|]; by rewrite E).
      split; [by apply inv_flush|]. destruct (flush_spec _ (iv_ios _ _ Hs)) as (_ & _ & _ & _ & _ & -> & _). done.
    + split; [by apply inv_flush|by apply flush_spec, Hw].
Qed.

Definition entry (m : LogMessage) : Z * bytes := (seq m, content m).
(** The events before the end, and the message an event brings. *)
Definition live (e : Event) : Prop := match e with Message _ | Tick | Changed false _ => True | _ => False end.
Definition received (e : Event) : list (Z * bytes) := match e with Message m => [entry m] | _ => [] end.
Definition all_received (es : list Event) : list (Z * bytes) := mjoin (received <$> es).

Lemma run_inv es : forall rcvd w, Forall live es -> inv rcvd w -> running w = true ->
  NoDup (rcvd ++ all_received es).*1 -> Forall small (all_received es).*1 ->
  exists w', run es w = Ret (Some w') /\ inv (rcvd ++ all_received es) w' /\ running w' = true.
Proof.
  induction es as [|e es IH]; intros rcvd w Hl Hw Hr Hd Hs.
  { exists w. unfold all_received. cbn. by rewrite app_nil_r. }
  apply Forall_cons in Hl as [He Hl]. cbn [run]. rewrite Hr.
  change (all_received (e :: es)) with (received e ++ all_received es) in *. rewrite app_assoc in *.
  assert (exists w1, turn e w = Ret (Some w1) /\ inv (rcvd ++ received e) w1 /\ running w1 = true) as (w1 & -> & H1 & R1).
  { destruct e as [m| |[] q|]; cbn [turn received live] in *; try done.
    - destruct (receive_inv rcvd w m Hw) as (w1 & -> & H1 & R1).
      + rewrite <- app_assoc, fmap_app, fmap_app in Hd. apply NoDup_app in Hd as (_ & Hd & _). intros Hin. apply Hd in Hin.
        apply Hin, elem_of_app. left. by left.
      + rewrite fmap_app in Hs. by apply Forall_app in Hs as [[? _]%Forall_cons _].
      + exists w1. split_and!; try done. by rewrite R1.
    - destruct (tick_inv rcvd w Hw) as (w1 & -> & H1 & R1). exists w1. rewrite app_nil_r. split_and!; try done. by rewrite R1.
    - exists w. by rewrite app_nil_r. }
  cbn [mbind outcome_bind]. apply IH; try done. rewrite fmap_app in Hs. by apply Forall_app in Hs as [_ ?].
Qed.

Lemma queue_perm queued : forall m, NoDup (m ++ (entry <$> queued)).*1 ->
  Permutation (fold_left (fun m msg => pending_insert (seq msg) (content msg) m) queued m) (m ++ (entry <$> queued)).
Proof.
  induction queued as [|q queued IH]; intros m Hd; cbn [fold_left]; [by rewrite app_nil_r|]. rewrite fmap_cons in *.
  assert (Hp : Permutation (pending_insert (seq q) (content q) m) (entry q :: m)).
  { apply pending_insert_perm. rewrite fmap_app, fmap_cons in Hd. apply NoDup_app in Hd as (_ & Hd & _). intros Hin.
    apply Hd in Hin. apply Hin. by left. }
  rewrite IH.
  - rewrite Hp. cbn. by rewrite <- Permutation_middle.
  - rewrite Hp. cbn. rewrite <- Permutation_middle in Hd. by cbn in Hd.
Qed.

Lemma write_rest_spec m : forall next buffer missing, Forall small m.*1 -> 0 <= next ->
  exists extra next', write_rest m next buffer missing = (buffer ++ lines m, missing ++ extra, next') /\ 0 <= next'
    /\ (extra = [] -> m.*1 = seqZ next (next' - next) /\ next <= next').
Proof.
  induction m as [|[k v] m IH]; intros next buffer missing Hs Hn; cbn [write_rest].
  - exists [], next. unfold lines. cbn. rewrite !app_nil_r, Z.sub_diag. by split_and!.
  - rewrite fmap_cons in *. apply Forall_cons in Hs as [[Hk0 Hk] Hs]. cbn in Hk0, Hk.
    assert (En : wrap 64 (k + 1) = k + 1) by (apply wrap_small; split; lia). rewrite En.
    destruct (IH (k + 1) (buffer ++ line v) (if negb (k =? next) then missing ++ [(next, wrap 64 (k - 1))] else missing) Hs)
      as (extra & next' & E & Hn' & He); [lia|]. rewrite E. cbn [fst].
    replace (lines ((k, v) :: m)) with (line v ++ lines m) by (by rewrite <- lines_one with (k := k), <- lines_app).
    rewrite <- app_assoc. destruct (Z.eqb_spec k next) as [->|Hne]; cbn [negb].
    + exists extra, next'. split; [done|]. split; [done|]. intros Hx. destruct (He Hx) as [-> Hl]. split; [|lia].
      rewrite (seqZ_cons next) by lia. f_equal. f_equal; lia.
    + exists ((next, wrap 64 (k - 1)) :: extra), next'. by rewrite <- app_assoc.
Qed.

Lemma shutdown_inv rcvd queued w : inv rcvd w -> NoDup (rcvd ++ (entry <$> queued)).*1 -> Forall small (entry <$> queued).*1 ->
  let w' := shutdown queued w in
  inv (rcvd ++ (entry <$> queued)) w' /\ pending w' = [] /\ buffer w' = [] /\ running w' = false.
Proof.
  intros [Hi Hn Hs (out & Ht & Hp & Ho)] Hd Hq. unfold shutdown.
  set (m := fold_left _ queued (pending w)).
  assert (Hm : Permutation m (pending w ++ (entry <$> queued))).
  { apply queue_perm. rewrite <- Hp, <- app_assoc, fmap_app in Hd. by apply NoDup_app in Hd as (_ & _ & ?). }
  assert (Hall : Permutation (out ++ m) (rcvd ++ (entry <$> queued))) by (by rewrite Hm, app_assoc, Hp).
  assert (Hsm : Forall small m.*1).
  { assert (Ha : Forall small (out ++ m).*1) by (rewrite Hall, fmap_app; by apply Forall_app). rewrite fmap_app in Ha.
    by apply Forall_app in Ha as [_ ?]. }
  destruct (write_rest_spec m (next_seq w) (buffer w) [] Hsm Hn) as (extra & next' & -> & Hn' & He). cbn zeta.
  set (w1 := mkWriter _ _ _ _ _ _ _).
  assert (H1 : inv (rcvd ++ (entry <$> queued)) w1).
  { split; try done; [rewrite fmap_app; by apply Forall_app|]. exists (out ++ m). split_and!.
    - unfold text in *. cbn [w1 file buffer]. by rewrite app_assoc, Ht, lines_app.
    - cbn [w1 pending]. by rewrite app_nil_r.
    - cbn [w1 skipped next_seq]. intros [Hz Hx]%app_nil. destruct (He Hx) as [Em Hl]. rewrite fmap_app, (Ho Hz), Em.
      transitivity (seqZ 0 (next_seq w + (next' - next_seq w))); [by rewrite seqZ_app by lia|f_equal; lia]. }
  destruct (flush_spec w1 (iv_ios _ _ H1)) as (_ & Ep & _ & _ & _ & Er & Eb).
  split; [by apply inv_flush|]. by rewrite Ep, Er.
Qed.

(** A state that waits for a lost number, with a late message in front. *)
Record blocked (w : Writer) : Prop := {
  bl_ios : ios w = [];
  bl_running : running w = true;
  bl_late : exists k v m, pending w = (k, v) :: m /\ k < next_seq w;
  bl_next : next_seq w ∉ (pending w).*1;
  bl_range : 0 <= next_seq w < 2 ^ 64 - OUT_OF_ORDER_THRESHOLD;
}.

Lemma pending_insert_head k v m late u m' : m = (late, u) :: m' ->
  exists k' v' m'', pending_insert k v m = (k', v') :: m'' /\ k' <= late.
Proof.
  intros ->. cbn [pending_insert]. destruct (Z.ltb_spec k late); [eexists _, _, _; split; [done|lia]|].
  destruct (Z.eqb_spec k late); eexists _, _, _; (split; [done|lia]).
Qed.

Lemma pending_insert_keys k v m x : x ∈ (pending_insert k v m).*1 -> x = k \/ x ∈ m.*1.
Proof.
  induction m as [|[k' v'] m IH]; cbn [pending_insert].
  - rewrite fmap_cons. set_solver.
  - destruct (k <? k'); [rewrite !fmap_cons; set_solver|]. destruct (Z.eqb_spec k k') as [->|_]; rewrite !fmap_cons; [set_solver|].
    rewrite !elem_of_cons. intros [->|H]; [auto|]. destruct (IH H); auto.
Qed.

Lemma pending_insert_length k v m : (length (pending_insert k v m) <= S (length m))%nat.
Proof.
  induction m as [|[k' v'] m IH]; cbn [pending_insert]; [done|]. destruct (k <? k'); [done|].
  destruct (k =? k'); cbn [length]; lia.
Qed.

Lemma remove_absent k m : k ∉ m.*1 -> pending_remove k m = None.
Proof.
  induction m as [|[k' v'] m IH]; cbn [pending_remove]; [done|]. rewrite fmap_cons, not_elem_of_cons. intros [Hk Hm].
  cbn in Hk. destruct (Z.eqb_spec k k'); [done|]. by rewrite IH.
Qed.

Definition harmless (n : Z) (e : Event) : Prop :=
  match e with Message m => seq m <> n | Tick => True | Changed stop _ => stop = false | Closed => False end.

Lemma blocked_turn w e : blocked w -> harmless (next_seq w) e -> zlen (pending w) < MAX_PENDING_MESSAGES ->
  exists w', turn e w = Ret (Some w') /\ blocked w' /\ next_seq w' = next_seq w /\ text w' = text w
    /\ zlen (pending w') <= zlen (pending w) + 1.
Proof.
  intros [Hi Hr (k & v & m & Ep & Hk) Hn Hx] He Hl. destruct e as [msg| |stop q|]; cbn [turn harmless] in *; [| | |done].
  - unfold receive. cbn zeta. cbn [pending]. pose proof (pending_insert_length (seq msg) (content msg) (pending w)) as L.
    assert (E : MAX_PENDING_MESSAGES <? zlen (pending_insert (seq msg) (content msg) (pending w)) = false)
      by (apply Z.ltb_ge; unfold zlen in *; lia).
    rewrite E. cbn [mbind outcome_bind drain next_seq pending].
    assert (Hn' : next_seq w ∉ (pending_insert (seq msg) (content msg) (pending w)).*1)
      by (intros [Ex|?]%pending_insert_keys; [by apply He|done]).
    rewrite remove_absent by done. eexists. split; [done|]. split; [|split_and!; [done|done|cbn [pending]; unfold zlen in *; lia]].
    split; try done. destruct (pending_insert_head (seq msg) (content msg) (pending w) k v m Ep) as (k' & v' & m' & E' & Hk').
    exists k', v', m'. split; [done|]. cbn [next_seq]. lia.
  - unfold tick. rewrite Ep. cbn [head unchecked mbind outcome_bind fst].
    assert (E : wrap 64 (next_seq w + OUT_OF_ORDER_THRESHOLD) <? k = false).
    { rewrite wrap_small by (unfold OUT_OF_ORDER_THRESHOLD in *; split; lia). apply Z.ltb_ge. unfold OUT_OF_ORDER_THRESHOLD. lia. }
    rewrite E. destruct (flush_spec w Hi) as (Et & Ep' & En & Ei & _ & Er & _). eexists. split; [done|].
    split; [|rewrite En, Et, Ep', Ep; split_and!; try done; lia]. split; rewrite ?Ei, ?Er, ?En, ?Ep'; try done. by eexists _, _, _.
  - subst stop. exists w. split; [done|]. split; [|split_and!; try done; lia]. split; try done. by eexists _, _, _.
Qed.

Lemma run_events_app es es' w : (forall w', run es w = Ret (Some w') -> running w' = true \/ es' = []) ->
  run (es ++ es') w = r ← run es w; match r with Some w' => run es' w' | None => Ret None end.
Proof.
  revert w; induction es as [|e es IH]; intros w H; cbn [app run]; [done|].
  cbn [run] in H. destruct (running w) eqn:R.
  - destruct (turn e w) as [[w'|]| |]; [|done..]. cbn [mbind outcome_bind] in *. by apply IH.
  - cbn [mbind outcome_bind]. destruct (H w eq_refl) as [?| ->]; [congruence|done].
Qed.

Lemma blocked_run n es : forall w, blocked w -> next_seq w = n -> Forall (harmless n) es ->
  zlen (pending w) + zlen es <= MAX_PENDING_MESSAGES ->
  exists w', run es w = Ret (Some w') /\ blocked w' /\ next_seq w' = n /\ text w' = text w.
Proof.
  induction es as [|e es IH]; intros w Hw Hn He Hl; cbn [run]; [by exists w|].
  apply Forall_cons in He as [He Hes]. rewrite (bl_running _ Hw). unfold zlen in Hl. cbn [length] in Hl.
  destruct (blocked_turn w e Hw) as (w1 & -> & H1 & N1 & T1 & L1); [by rewrite Hn|unfold zlen; lia|].
  cbn [mbind outcome_bind]. destruct (IH w1 H1) as (w' & -> & H' & N' & T'); try done; [by rewrite N1|unfold zlen in *; lia|].
  exists w'. split_and!; try done. by rewrite T', T1.
Qed.

(** ** Properties *)

(** C20: every message is written exactly once: for messages with distinct numbers,
    in any order of arrival and with any ticks between them, the task handles every
    event, and after the shutdown the file holds the line of each message it
    received, queued ones included, and nothing else; when no gap was reported, in
    the order of the numbers from zero on. *)
Theorem each_message_once es queued :
  Forall live es -> NoDup (all_received es ++ (entry <$> queued)).*1 ->
  Forall small (all_received es ++ (entry <$> queued)).*1 ->
  exists w out, run (es ++ [Changed true queued]) (writer_new []) = Ret (Some w) /\ running w = false
    /\ Permutation out (all_received es ++ (entry <$> queued)) /\ file w = lines out
    /\ (skipped w = [] -> out.*1 = seqZ 0 (zlen out)).
Proof.
  intros Hl Hd Hs. rewrite fmap_app in Hs. apply Forall_app in Hs as [Hs1 Hs2].
  destruct (run_inv es [] (writer_new []) Hl inv_new eq_refl) as (w & E & Hw & R); try done.
  { rewrite fmap_app in Hd. by apply NoDup_app in Hd as (? & _ & _). }
  rewrite run_events_app by (intros w' Ew; rewrite E in Ew; injection Ew as <-; by left). rewrite E. cbn [mbind outcome_bind run]. rewrite R.
  cbn [turn mbind outcome_bind]. destruct (shutdown_inv _ queued w Hw Hd Hs2) as ([_ _ _ (out & Ht & Hp & Ho)] & P & B & R').
  exists (shutdown queued w), out. rewrite P, app_nil_r in Hp. unfold text in Ht. rewrite B, app_nil_r in Ht. split_and!; try done.
  intros Hz. pose proof (Ho Hz) as Eo. pose proof (f_equal length Eo) as El. rewrite length_fmap, length_seqZ in El.
  rewrite Eo. destruct (decide (0 <= next_seq (shutdown queued w))); unfold zlen; [f_equal; lia|].
  rewrite El. rewrite !seqZ_nil; [done|lia..].
Qed.

Definition msg (k : Z) : LogMessage := mkLogMessage k [65 + k].
Definition sample_events : list Event := [Message (msg 1); Tick; Message (msg 0); Message (msg 3); Changed false []].
Lemma each_message_once_witness :
  exists w out, run (sample_events ++ [Changed true [msg 2]]) (writer_new []) = Ret (Some w) /\ running w = false
    /\ Permutation out (all_received sample_events ++ (entry <$> [msg 2])) /\ file w = lines out
    /\ (skipped w = [] -> out.*1 = seqZ 0 (zlen out)).
Proof. apply each_message_once; [|by_decision|by_decision]. by repeat (apply Forall_cons; split). Defined.

(** A late message blocks the log: when a message that arrives after its number
    was skipped is pending and the expected number is lost, neither ticks nor other
    messages make the task write or skip anything, however far the numbers run
    ahead, until more than a thousand messages are pending. *)
Theorem late_message_blocks w n es :
  blocked w -> next_seq w = n -> Forall (harmless n) es -> zlen (pending w) + zlen es <= MAX_PENDING_MESSAGES ->
  exists w', run es w = Ret (Some w') /\ next_seq w' = n /\ file w' ++ buffer w' = file w ++ buffer w.
Proof.
  intros Hw Hn He Hl. destruct (blocked_run n es w Hw Hn He Hl) as (w' & E & _ & N & T). exists w'. by split_and!.
Qed.

(** Numbers 0 and 150 arrive, a tick skips to 150, then 151 and the late 1. *)
Definition late_events : list Event := [Message (msg 0); Message (msg 150); Tick; Message (msg 151); Message (msg 1)].
Definition late_writer : Writer :=
  match run late_events (writer_new []) with Ret (Some w) => w | _ => writer_new [] end.
Lemma late_writer_blocked : blocked late_writer.
Proof.
  split; try (vm_compute; reflexivity).
  - exists 1, [66], []. split; [vm_compute; reflexivity|vm_compute; reflexivity].
  - by_decision.
  - vm_compute. by split.
Qed.
Lemma late_message_blocks_witness :
  exists w', run [Message (msg 400); Tick; Message (msg 401); Tick] late_writer = Ret (Some w') /\ next_seq w' = 152
    /\ file w' ++ buffer w' = file late_writer ++ buffer late_writer.
Proof.
  apply (late_message_blocks late_writer 152); [apply late_writer_blocked|vm_compute; reflexivity|by repeat constructor|by vm_compute].
Defined.
