(* ===== verification/LogManager.v ===== *)
(** * The request log

    The records of [src/src/app/model.rs] (log entries, chains, errors) and the
    log actor of [src/src/app/model/log.rs], [log/limit.rs], [log/storage.rs],
    [log/command.rs] and [log/manager.rs]: a bounded queue of entries, a table of
    the tokens they refer to with reference counts, and the commands the actor
    takes from its channel one at a time.  [src/src/app/model/state/log.rs] is an
    older version that is not compiled.

    A command with a reply carries whether its receiver still waits ([rx]): the
    actor calls [unreachable!] when it cannot reply.  The loop that evicts entries
    takes fuel; [None] is a loop that is still running when the fuel is used up.
    Times are instants in nanoseconds, an [f64] is its value in the standard
    library's specification of IEEE 754 numbers, an [f32] its bit pattern.  Sizes
    of vectors in memory are below 2^64; arithmetic wraps as in the release
    profile. *)
From Stdlib Require Import Sorted.
From S2P Require Import Prelude Floats Numerals Hex TokenKey Profile RawToken TokenInfo.

(** ** Texts *)

(** [str::contains]. *)
Fixpoint contains_bytes (s pat : bytes) : bool :=
  bool_decide (take (length pat) s = pat) ||
  match s with [] => false | _ :: s => contains_bytes s pat end.
Definition str_contains (s pat : string) : bool := contains_bytes (as_bytes s) (as_bytes pat).

(** ** Log entries *)

Inductive LogStatus : Type := Pending | Success | Failure.
#[export] Instance LogStatus_eq_dec : EqDecision LogStatus.
Proof. solve_decision. Defined.
#[export] Instance MembershipType_eq_dec : EqDecision MembershipType.
Proof. solve_decision. Defined.
Definition status_as_u8 (s : LogStatus) : Z := match s with Pending => 0 | Success => 1 | Failure => 2 end.
Definition as_str_name (s : LogStatus) : string :=
  match s with Pending => "pending" | Success => "success" | Failure => "failure" end.
Definition from_str_name (s : string) : option LogStatus :=
  if String.eqb s "pending" then Some Pending
  else if String.eqb s "success" then Some Success
  else if String.eqb s "failure" then Some Failure
  else None.

Inductive ErrorInfo : Type :=
| EmptyError
| Simple (error : string)
| Detailed (error details : string).
Definition error_new (error : string) (details : option string) : ErrorInfo :=
  match details with Some details => Detailed error details | None => Simple error end.
Definition error_contains (e : ErrorInfo) (pat : string) : bool :=
  match e with
  | EmptyError => false
  | Simple error => str_contains error pat
  | Detailed error details => str_contains error pat || str_contains details pat
  end.
Definition error_is_none (e : ErrorInfo) : bool := match e with EmptyError => true | _ => false end.
Definition error_is_some (e : ErrorInfo) : bool := negb (error_is_none e).

Record ChainUsage : Type := mkChainUsage
  { cu_input : Z; cu_output : Z; cu_cache_write : Z; cu_cache_read : Z; cu_cents : Z }.
Definition add_i32 (a b : Z) : Z := to_signed 32 (wrap 32 (a + b)).
Definition usage_total (u : ChainUsage) : Z :=
  add_i32 (add_i32 (add_i32 (cu_input u) (cu_output u)) (cu_cache_read u)) (cu_cache_write u).

Record Chain : Type := mkChain
  { delays : option (string * list (Z * Z)); chain_usage : option ChainUsage; think : option string }.
Definition chain_has_some (c : Chain) : bool :=
  negb (is_none (delays c) && is_none (chain_usage c) && is_none (think c)).

Record LogTokenInfo : Type := mkLogTokenInfo
  { lt_key : TokenKey; lt_usage : option UsageProfile; lt_user : option UserProfile;
    lt_stripe : option StripeProfile }.

Record RequestLog : Type := mkRequestLog
  { log_id : Z; timestamp : Z; model : string; token_info : LogTokenInfo; chain : Chain;
    timing_total : f64; stream : bool; log_status : LogStatus; log_error : ErrorInfo }.
Definition log_token_key (l : RequestLog) : TokenKey := lt_key (token_info l).

(** ** The limit *)

Inductive LogsLimit : Type := Disabled | Limited (n : Z).
Definition limit_from_usize (limit : Z) : LogsLimit := if limit =? 0 then Disabled else Limited limit.
Definition should_log (l : LogsLimit) : bool := match l with Disabled => false | Limited _ => true end.
Definition get_limit (l : LogsLimit) : Z := match l with Disabled => 0 | Limited n => n end.

(** ** The storage *)

Record AssociatedToken : Type := mkAssociatedToken { at_token : ExtToken; ref_count : Z }.
Record LogManager : Type := mkLogManager { logs : list RequestLog; tokens : gmap TokenKey AssociatedToken }.
Definition log_manager_new : LogManager := mkLogManager [] ∅.
Definition error_count (mgr : LogManager) : Z :=
  zlen (filter (fun log => status_as_u8 (log_status log) <> 1) (logs mgr)).
Definition total_count (mgr : LogManager) : Z := zlen (logs mgr).

(** ** The archived form *)

Inductive ErrorInfoHelper : Type :=
| HEmpty
| HSimple (error : string)
| HDetailed (error details : string).
Definition error_to_helper (e : ErrorInfo) : ErrorInfoHelper :=
  match e with
  | EmptyError => HEmpty
  | Simple e => HSimple e
  | Detailed error details => HDetailed error details
  end.
Definition error_from_helper (h : ErrorInfoHelper) : ErrorInfo :=
  match h with
  | HEmpty => EmptyError
  | HSimple e => error_new e None
  | HDetailed error details => error_new error (Some details)
  end.

Record RequestLogHelper : Type := mkRequestLogHelper
  { h_id : Z; h_timestamp : Z; h_model : string; h_token_info : LogTokenInfo; h_chain : Chain;
    h_timing_total : f64; h_stream : bool; h_status : LogStatus; h_error : ErrorInfoHelper }.
Definition log_to_helper (l : RequestLog) : RequestLogHelper :=
  mkRequestLogHelper (log_id l) (timestamp l) (model l) (token_info l) (chain l) (timing_total l)
    (stream l) (log_status l) (error_to_helper (log_error l)).
Definition log_from_helper (h : RequestLogHelper) : RequestLog :=
  mkRequestLog (h_id h) (h_timestamp h) (h_model h) (h_token_info h) (h_chain h) (h_timing_total h)
    (h_stream h) (h_status h) (error_from_helper (h_error h)).

Record AssociatedTokenHelper : Type := mkAssociatedTokenHelper
  { ah_token : ExtTokenHelper; ah_ref_count : Z }.
Definition associated_to_helper (a : AssociatedToken) : AssociatedTokenHelper :=
  mkAssociatedTokenHelper (ext_helper_new (at_token a)) (ref_count a).
Record LogManagerHelper : Type := mkLogManagerHelper
  { hm_logs : list RequestLogHelper; hm_tokens : list (TokenKey * AssociatedTokenHelper) }.
Definition manager_to_helper (mgr : LogManager) : LogManagerHelper :=
  mkLogManagerHelper (log_to_helper <$> logs mgr)
    (prod_map (fun k => k) associated_to_helper <$> map_to_list (tokens mgr)).

Section Archive.
Context (providers : list string) (tz_parse : string -> option string).
Context (raw_to_string : RawToken -> string).

(** The archived tokens, extracted one after the other into the pool of live tokens. *)
Fixpoint tokens_from_helper (l : list (TokenKey * AssociatedTokenHelper)) (pool : TokenPool)
    : outcome (gmap TokenKey AssociatedToken * TokenPool) :=
  match l with
  | [] => Ret (∅, pool)
  | (k, a) :: l =>
      '(token, pool) ← ext_extract providers tz_parse raw_to_string (ah_token a) pool;
      '(rest, pool) ← tokens_from_helper l pool;
      Ret (if decide (is_Some (rest !! k)) then rest
           else <[k := mkAssociatedToken token (ah_ref_count a)]> rest, pool)
  end.
Definition manager_from_helper (h : LogManagerHelper) (pool : TokenPool) : outcome (LogManager * TokenPool) :=
  '(tokens, pool) ← tokens_from_helper (hm_tokens h) pool;
  Ret (mkLogManager (log_from_helper <$> hm_logs h) tokens, pool).

(** Loading and saving, with the archive format and the file as arguments; a file
    that cannot be read is [None]. *)
Context (to_bytes : LogManagerHelper -> option bytes) (from_bytes_unchecked : bytes -> option LogManagerHelper).

Inductive LoadError : Type := Unreadable | BadArchive.
Definition load (limit : LogsLimit) (file : result bool bytes) (pool : TokenPool)
    : outcome (result LoadError LogManager * TokenPool) :=
  if negb (should_log limit) then Ret (Ok log_manager_new, pool) else
  match file with
  | Err not_found => Ret (if not_found : bool then Ok log_manager_new else Err Unreadable, pool)
  | Ok bytes =>
      match from_bytes_unchecked bytes with
      | None => Ret (Err BadArchive, pool)
      | Some h => '(mgr, pool) ← manager_from_helper h pool; Ret (Ok mgr, pool)
      end
  end.

(** What [save] writes, if anything. *)
Definition save (limit : LogsLimit) (helper : LogManagerHelper) : result unit (option bytes) :=
  if negb (should_log limit) then Ok None else
  bs ← ok_or (to_bytes helper) tt;
  if Z.shiftr (2 ^ 64 - 1) 1 <? zlen bs then Err tt else Ok (Some bs).
End Archive.

(** ** Commands *)

Record GetLogsParams : Type := mkGetLogsParams
  { p_token_key : option TokenKey; p_log_status : option LogStatus;
    p_membership_type : option MembershipType; p_user_id : option UserId;
    p_from_date : option Z; p_to_date : option Z; p_email : option string; p_model : option string;
    p_include_models : option (list string); p_exclude_models : option (list string);
    p_stream : option bool; p_has_chain : option bool; p_has_error : option bool;
    p_error : option string; p_min_total_time : option f64; p_max_total_time : option f64;
    p_min_tokens : option Z; p_max_tokens : option Z;
    p_reverse : bool; p_offset : Z; p_limit : Z }.

Inductive LogUpdate : Type :=
| TokenProfile (user : option UserProfile) (usage : option UsageProfile) (stripe : option StripeProfile)
| UFailure (error : ErrorInfo)
| USuccess
| Timing (t : f64)
| Failure2 (error : ErrorInfo) (t : f64)
| Delays (delays : option (string * list (Z * Z))) (think : option string)
| Usage (usage : ChainUsage)
| TimingChain (t : f64) (chain : Chain).

(** [rx]: the receiver of the reply has not been dropped. *)
Inductive LogCommand : Type :=
| GetLogs (params : GetLogsParams) (rx : bool)
| AddLog (log : RequestLog) (token : ExtToken)
| GetNextLogId (rx : bool)
| GetToken (key : TokenKey) (rx : bool)
| GetTokens (keys : list (string * TokenKey)) (rx : bool)
| CloneToSave (rx : bool)
| UpdateLog (i : Z) (ops : LogUpdate).

Inductive LogReply : Type :=
| NoReply
| LogsReply (total : Z) (page : list RequestLog)
| NextLogIdReply (next : Z)
| TokenReply (token : option ExtToken)
| TokensReply (map : gmap string (option ExtToken))
| SaveReply (helper : LogManagerHelper).

(** *** The filter of [GetLogs]: the tests in order, each rejecting the entry *)

Definition test {A} (o : option A) (f : A -> bool) : bool := match o with Some a => f a | None => true end.
Definition checks_before_user (params : GetLogsParams) (log : RequestLog) : list bool :=
  [test (p_token_key params) (fun k => bool_decide (log_token_key log = k));
   test (p_from_date params) (fun from => negb (timestamp log <? from));
   test (p_to_date params) (fun to => negb (to <? timestamp log))].
Definition user_of (a : AssociatedToken) : UserId := sub_id (subject (raw (primary_token (at_token a)))).
Definition checks_after_user (params : GetLogsParams) (log : RequestLog) : list bool :=
  let usage := chain_usage (chain log) in
  [test (p_email params) (fun pat =>
     default false ((fun s => str_contains s pat) <$> (user ← lt_user (token_info log); email user)));
   test (p_membership_type params) (fun m =>
     default false ((fun s => bool_decide (membership_type s = m)) <$> lt_stripe (token_info log)));
   test (p_log_status params) (fun s => bool_decide (log_status log = s));
   test (p_model params) (str_contains (model log));
   test (p_include_models params) (existsb (String.eqb (model log)));
   test (p_exclude_models params) (fun l => negb (existsb (String.eqb (model log)) l));
   test (p_stream params) (Bool.eqb (stream log));
   test (p_has_chain params) (Bool.eqb (chain_has_some (chain log)));
   test (p_has_error params) (Bool.eqb (error_is_some (log_error log)));
   test (p_error params) (error_contains (log_error log));
   test (p_min_total_time params) (fun t => negb (f64_lt (timing_total log) t));
   test (p_max_total_time params) (fun t => negb (f64_lt t (timing_total log)));
   test (p_min_tokens params) (fun n => default false ((fun u => negb (usage_total u <? n)) <$> usage));
   test (p_max_tokens params) (fun n => default false ((fun u => negb (n <? usage_total u)) <$> usage))].

Definition log_matches (mgr : LogManager) (params : GetLogsParams) (log : RequestLog) : outcome bool :=
  if negb (forallb id (checks_before_user params log)) then Ret false else
  same_user ← match p_user_id params with
              | None => Ret true
              | Some user_id =>
                  a ← unwrap (tokens mgr !! log_token_key log);
                  Ret (bool_decide (user_of a = user_id))
              end;
  Ret (same_user && forallb id (checks_after_user params log)).

Fixpoint filtered_logs (mgr : LogManager) (params : GetLogsParams) (l : list RequestLog)
    : outcome (list RequestLog) :=
  match l with
  | [] => Ret []
  | log :: l =>
      b ← log_matches mgr params log;
      rest ← filtered_logs mgr params l;
      Ret (if b : bool then log :: rest else rest)
  end.

(** [iter.skip(offset).take(limit)]. *)
Definition page_of (params : GetLogsParams) (l : list RequestLog) : list RequestLog :=
  take (Z.to_nat (p_limit params))
    (drop (Z.to_nat (p_offset params)) (if p_reverse params then rev l else l)).

(** *** [AddLog] *)

Definition release_token (key : TokenKey) (tokens : gmap TokenKey AssociatedToken)
    : gmap TokenKey AssociatedToken :=
  match tokens !! key with
  | Some a =>
      let count := wrap USIZE_BITS (ref_count a - 1) in
      if count =? 0 then delete key tokens else <[key := mkAssociatedToken (at_token a) count]> tokens
  | None => tokens
  end.
Definition pop_front (mgr : LogManager) : LogManager :=
  match logs mgr with
  | log :: logs => mkLogManager logs (release_token (log_token_key log) (tokens mgr))
  | [] => mgr
  end.
Fixpoint evict (fuel : nat) (limit : Z) (mgr : LogManager) : option LogManager :=
  match fuel with
  | O => None
  | S fuel => if limit <=? zlen (logs mgr) then evict fuel limit (pop_front mgr) else Some mgr
  end.
Definition retain_token (key : TokenKey) (token : ExtToken) (tokens : gmap TokenKey AssociatedToken)
    : gmap TokenKey AssociatedToken :=
  match tokens !! key with
  | Some a => <[key := mkAssociatedToken token (wrap USIZE_BITS (ref_count a + 1))]> tokens
  | None => <[key := mkAssociatedToken token 1]> tokens
  end.
Definition add_log (fuel : nat) (limit : Z) (log : RequestLog) (token : ExtToken) (mgr : LogManager)
    : option LogManager :=
  mgr ← evict fuel limit mgr;
  Some (mkLogManager (logs mgr ++ [log]) (retain_token (log_token_key log) token (tokens mgr))).

(** *** [UpdateLog] *)

Definition apply_update (ops : LogUpdate) (l : RequestLog) : RequestLog :=
  let mk info chain total status error :=
    mkRequestLog (log_id l) (timestamp l) (model l) info chain total (stream l) status error in
  match ops with
  | TokenProfile user usage stripe =>
      mk (mkLogTokenInfo (log_token_key l) usage user stripe) (chain l) (timing_total l)
        (log_status l) (log_error l)
  | UFailure error => mk (token_info l) (chain l) (timing_total l) Failure error
  | USuccess => mk (token_info l) (chain l) (timing_total l) Success (log_error l)
  | Timing t => mk (token_info l) (chain l) (format_time_ms t) (log_status l) (log_error l)
  | Failure2 error t => mk (token_info l) (chain l) (format_time_ms t) Failure error
  | Delays delays think =>
      mk (token_info l) (mkChain delays (chain_usage (chain l)) think) (timing_total l)
        (log_status l) (log_error l)
  | Usage usage =>
      mk (token_info l) (mkChain (delays (chain l)) (Some usage) (think (chain l))) (timing_total l)
        (log_status l) (log_error l)
  | TimingChain t chain => mk (token_info l) chain (format_time_ms t) (log_status l) (log_error l)
  end.
(** The first entry with the identifier. *)
Fixpoint update_first (i : Z) (ops : LogUpdate) (l : list RequestLog) : list RequestLog :=
  match l with
  | [] => []
  | log :: l => if log_id log =? i then apply_update ops log :: l else log :: update_first i ops l
  end.
(** [iter_mut().rev().find]. *)
Definition update_log (i : Z) (ops : LogUpdate) (mgr : LogManager) : LogManager :=
  mkLogManager (rev (update_first i ops (rev (logs mgr)))) (tokens mgr).

Definition next_log_id (mgr : LogManager) : Z :=
  match last (logs mgr) with Some log => wrap 64 (log_id log + 1) | None => 1 end.
Definition get_token (key : TokenKey) (mgr : LogManager) : option ExtToken :=
  (fun a => ext_clone (at_token a)) <$> tokens mgr !! key.
Fixpoint get_tokens (keys : list (string * TokenKey)) (mgr : LogManager) (map : gmap string (option ExtToken))
    : gmap string (option ExtToken) :=
  match keys with
  | [] => map
  | (s, key) :: keys => get_tokens keys mgr (<[s := get_token key mgr]> map)
  end.

(** *** The actor *)

Definition send (rx : bool) (reply : LogReply) (mgr : LogManager) : outcome (LogReply * LogManager) :=
  if rx then Ret (reply, mgr) else Panic.

(** One command: [None] when the eviction is still running after [fuel] turns. *)
Definition handle_command (fuel : nat) (limit : LogsLimit) (mgr : LogManager) (cmd : LogCommand)
    : option (outcome (LogReply * LogManager)) :=
  match cmd with
  | GetLogs params rx =>
      Some (l ← filtered_logs mgr params (logs mgr);
            send rx (LogsReply (zlen l) (page_of params l)) mgr)
  | AddLog log token =>
      mgr ← add_log fuel (get_limit limit) log token mgr; Some (Ret (NoReply, mgr))
  | GetNextLogId rx => Some (send rx (NextLogIdReply (next_log_id mgr)) mgr)
  | GetToken key rx => Some (send rx (TokenReply (get_token key mgr)) mgr)
  | GetTokens keys rx => Some (send rx (TokensReply (get_tokens keys mgr ∅)) mgr)
  | CloneToSave rx => Some (send rx (SaveReply (manager_to_helper mgr)) mgr)
  | UpdateLog i ops => Some (Ret (NoReply, update_log i ops mgr))
  end.

(** The loop of the task: the replies to a sequence of commands. *)
Fixpoint run_commands (fuel : nat) (limit : LogsLimit) (mgr : LogManager) (cmds : list LogCommand)
    : option (outcome (list LogReply * LogManager)) :=
  match cmds with
  | [] => Some (Ret ([], mgr))
  | cmd :: cmds =>
      match handle_command fuel limit mgr cmd with
      | None => None
      | Some (Ret (reply, mgr)) =>
          match run_commands fuel limit mgr cmds with
          | Some (Ret (replies, mgr)) => Some (Ret (reply :: replies, mgr))
          | r => r
          end
      | Some Panic => Some Panic
      | Some Undef => Some Undef
      end
  end.

(** ** The requests of [src/src/core/service.rs] *)

Definition new_log (next_id request_time : Z) (model : string) (token : ExtToken) (stream : bool) : RequestLog :=
  mkRequestLog next_id request_time model
    (mkLogTokenInfo (token_key (primary_token token)) None None None)
    (mkChain None None None) (S754_zero false) stream Pending EmptyError.

(** A request asks for an identifier and then adds its entry: two commands, with
    the commands of other requests possibly between them. *)
Definition start_request (fuel : nat) (limit : LogsLimit) (mgr : LogManager) (request_time : Z)
    (model : string) (token : ExtToken) (stream : bool) : option (outcome (Z * LogManager)) :=
  match handle_command fuel limit mgr (GetNextLogId true) with
  | Some (Ret (NextLogIdReply next_id, mgr)) =>
      match handle_command fuel limit mgr
              (AddLog (new_log next_id request_time model token stream) (ext_clone token)) with
      | Some (Ret (_, mgr)) => Some (Ret (next_id, mgr))
      | Some Panic => Some Panic
      | Some Undef => Some Undef
      | None => None
      end
  | Some Panic => Some Panic
  | Some _ => Some Undef
  | None => None
  end.

(** ** The invariant: a token is kept with the number of entries that refer to it *)

Definition refs (k : TokenKey) (l : list RequestLog) : Z := zlen (filter (fun log => log_token_key log = k) l).
Definition count_of (n : Z) : option Z := if n =? 0 then None else Some n.
Definition log_wf (mgr : LogManager) : Prop :=
  zlen (logs mgr) < 2 ^ 64 /\ forall k, ref_count <$> tokens mgr !! k = count_of (refs k (logs mgr)).

Lemma refs_cons k log l : refs k (log :: l) = (if decide (log_token_key log = k) then 1 else 0) + refs k l.
Proof. unfold refs, zlen. rewrite filter_cons. case_decide; cbn [length]; lia. Qed.
Lemma refs_snoc k l log : refs k (l ++ [log]) = refs k l + (if decide (log_token_key log = k) then 1 else 0).
Proof.
  unfold refs, zlen. rewrite filter_app, length_app, filter_cons. case_decide; cbn [filter list_filter length]; lia.
Qed.
Lemma refs_drop k n l : refs k (drop n l) <= refs k l.
Proof.
  revert n; induction l as [|log l IH]; intros [|n]; try done. cbn [drop]. rewrite refs_cons.
  specialize (IH n). case_decide; lia.
Qed.
Lemma refs_range k l : 0 <= refs k l <= zlen l.
Proof. unfold refs, zlen. pose proof (length_filter (fun log => log_token_key log = k) l). lia. Qed.
#[export] Hint Resolve refs_range : rust.

Lemma log_wf_new : log_wf log_manager_new.
Proof. split; [done|]. intros k. done. Qed.

(** The token of a key, without its count. *)
Definition token_at (mgr : LogManager) (k : TokenKey) : option ExtToken := at_token <$> tokens mgr !! k.

Lemma wf_lookup mgr k : log_wf mgr ->
  (refs k (logs mgr) = 0 /\ tokens mgr !! k = None) \/
  (0 < refs k (logs mgr) /\ exists t, tokens mgr !! k = Some (mkAssociatedToken t (refs k (logs mgr)))).
Proof.
  intros [_ H]. specialize (H k). unfold count_of in H. pose proof (refs_range k (logs mgr)).
  destruct (Z.eqb_spec (refs k (logs mgr)) 0) as [E|E]; destruct (tokens mgr !! k) as [[t n]|]; try done; [by left|].
  right. injection H as ->. split; [lia|eauto].
Qed.

Lemma pop_front_wf mgr log l : log_wf mgr -> logs mgr = log :: l ->
  log_wf (pop_front mgr) /\ logs (pop_front mgr) = l /\
  forall k, token_at (pop_front mgr) k = if refs k l =? 0 then None else token_at mgr k.
Proof.
  intros Hwf E. pose proof Hwf as [Hlen H]. unfold pop_front. rewrite E. set (key := log_token_key log).
  destruct (wf_lookup mgr key Hwf) as [[Hz _]|[Hpos (t & Ht)]].
  { rewrite E, refs_cons, decide_True in Hz by done. pose proof (refs_range key l). lia. }
  rewrite E, refs_cons, decide_True in Ht, Hpos by done. pose proof (refs_range key l) as Hr.
  rewrite E in Hlen. unfold zlen in Hlen. cbn [length] in Hlen.
  assert (Hw : wrap USIZE_BITS (1 + refs key l - 1) = refs key l)
    by (replace (1 + refs key l - 1) with (refs key l) by lia;
        apply wrap_small; unfold in_uint, USIZE_BITS, zlen in *; lia).
  assert (Hk : forall k, release_token key (tokens mgr) !! k =
    if decide (key = k) then (if refs key l =? 0 then None else Some (mkAssociatedToken t (refs key l)))
    else tokens mgr !! k).
  { intros k. unfold release_token. rewrite Ht. cbn [ref_count at_token]. rewrite Hw.
    destruct (refs key l =? 0), (decide (key = k)) as [<-|Hne];
      by rewrite ?lookup_delete_eq, ?lookup_delete_ne, ?lookup_insert_eq, ?lookup_insert_ne by done. }
  unfold log_wf, token_at. cbn [logs tokens]. split_and!; [unfold zlen; lia| |done|]; intros k; rewrite Hk.
  - specialize (H k). rewrite E, refs_cons in H. fold key in H. unfold count_of.
    destruct (decide (key = k)) as [<-|Hne]; [by destruct (refs key l =? 0)|done].
  - destruct (decide (key = k)) as [<-|Hne]; [rewrite Ht; by destruct (refs key l =? 0)|].
    specialize (H k). rewrite E, refs_cons, decide_False, Z.add_0_l in H by done. unfold count_of in H.
    destruct (tokens mgr !! k), (refs k l =? 0); cbn in *; done.
Qed.

(** *** Eviction *)

Lemma evict_spec limit : 1 <= limit -> forall fuel mgr, log_wf mgr -> (length (logs mgr) < fuel)%nat ->
  exists mgr', evict fuel limit mgr = Some mgr' /\ log_wf mgr' /\
    logs mgr' = drop (length (logs mgr) + 1 - Z.to_nat limit) (logs mgr) /\
    forall k, token_at mgr' k = if refs k (logs mgr') =? 0 then None else token_at mgr k.
Proof.
  intros Hl. induction fuel as [|fuel IH]; intros mgr Hwf Hf; [lia|]. cbn [evict].
  destruct (Z.leb_spec limit (zlen (logs mgr))) as [Hle|Hgt]; unfold zlen in *.
  - destruct (logs mgr) as [|log l] eqn:E; [cbn in Hle; lia|].
    destruct (pop_front_wf mgr log l Hwf E) as (Hwf1 & El & Ht). cbn [length] in *.
    destruct (IH (pop_front mgr) Hwf1) as (mgr' & -> & Hwf' & El' & Ht'); [rewrite El; lia|].
    exists mgr'. rewrite El in El'. split_and!; [done|done| |].
    + rewrite El'. by replace (S (length l) + 1 - Z.to_nat limit)%nat with (S (length l + 1 - Z.to_nat limit)) by lia.
    + intros k. rewrite Ht', Ht. destruct (Z.eqb_spec (refs k (logs mgr')) 0); [done|].
      destruct (Z.eqb_spec (refs k l) 0) as [Hz|]; [|done]. exfalso. pose proof (refs_range k (logs mgr')).
      assert (refs k (logs mgr') <= refs k l); [|lia]. rewrite El'. apply refs_drop.
  - exists mgr. replace (length (logs mgr) + 1 - Z.to_nat limit)%nat with 0%nat by lia. split_and!; [done..|].
    intros k. unfold token_at. destruct (wf_lookup mgr k Hwf) as [[-> ->]|[Hp _]]; [done|].
    by destruct (Z.eqb_spec (refs k (logs mgr)) 0); [lia|].
Qed.

(** With a limit of zero the loop never ends. *)
Lemma evict_zero fuel : forall mgr, evict fuel 0 mgr = None.
Proof.
  induction fuel as [|fuel IH]; intros mgr; cbn [evict]; [done|].
  by destruct (Z.leb_spec 0 (zlen (logs mgr))); [|unfold zlen in *; lia].
Qed.

Definition kept (limit : Z) (l : list RequestLog) (log : RequestLog) : list RequestLog :=
  drop (length l + 1 - Z.to_nat limit) l ++ [log].

Lemma add_log_spec limit log token fuel mgr :
  1 <= limit < 2 ^ 64 -> log_wf mgr -> (length (logs mgr) < fuel)%nat ->
  exists mgr', add_log fuel limit log token mgr = Some mgr' /\ log_wf mgr' /\
    logs mgr' = kept limit (logs mgr) log /\ zlen (logs mgr') <= limit /\
    forall k, token_at mgr' k =
      if decide (log_token_key log = k) then Some token
      else if refs k (logs mgr') =? 0 then None else token_at mgr k.
Proof.
  intros Hl Hwf Hf. unfold add_log. destruct (evict_spec limit ltac:(lia) fuel mgr Hwf Hf) as (m1 & -> & Hwf1 & El & Ht).
  cbn [mbind option_bind]. set (key := log_token_key log).
  assert (Hlen : zlen (logs m1 ++ [log]) <= limit).
  { rewrite El. unfold zlen. rewrite length_app, length_drop. cbn [length]. lia. }
  assert (Hk : forall k, retain_token key token (tokens m1) !! k =
    if decide (key = k) then Some (mkAssociatedToken token (refs key (logs m1) + 1)) else tokens m1 !! k).
  { intros k. unfold retain_token. destruct (wf_lookup m1 key Hwf1) as [[Hz ->]|[Hp (t & ->)]]; cbn [ref_count].
    - rewrite Hz. case_decide as D; [subst; by rewrite lookup_insert_eq|by rewrite lookup_insert_ne].
    - rewrite wrap_small.
      + case_decide as D; [subst; by rewrite lookup_insert_eq|by rewrite lookup_insert_ne].
      + pose proof (refs_range key (logs m1)). unfold in_uint, USIZE_BITS. rewrite El in *.
        unfold zlen in *. rewrite length_app in Hlen. cbn [length] in Hlen. lia. }
  eexists. split; [reflexivity|]. unfold log_wf, token_at. cbn [logs tokens]. split_and!.
  - lia.
  - intros k. rewrite Hk, refs_snoc. fold key. pose proof (refs_range key (logs m1)). unfold count_of.
    case_decide as D; [subst k; cbn; by destruct (Z.eqb_spec (refs key (logs m1) + 1) 0); [lia|]|].
    rewrite Z.add_0_r. apply Hwf1.
  - unfold kept. by rewrite El.
  - done.
  - intros k. rewrite Hk, refs_snoc. fold key. case_decide as D; [done|]. rewrite Z.add_0_r. apply Ht.
Qed.

(** ** The specification: entries and tokens without counts *)

Record LogTable : Type := mkLogTable { t_logs : list RequestLog; t_tokens : gmap TokenKey ExtToken }.
Definition view (mgr : LogManager) : LogTable := mkLogTable (logs mgr) (at_token <$> tokens mgr).
Definition concrete (t : LogTable) : LogManager :=
  mkLogManager (t_logs t) (map_imap (fun k token => Some (mkAssociatedToken token (refs k (t_logs t)))) (t_tokens t)).

Definition table_matches (t : LogTable) (params : GetLogsParams) (log : RequestLog) : bool :=
  forallb id (checks_before_user params log) &&
  test (p_user_id params) (fun user_id =>
    default false ((fun e => bool_decide (sub_id (subject (raw (primary_token e))) = user_id))
                     <$> t_tokens t !! log_token_key log)) &&
  forallb id (checks_after_user params log).

Definition table_step (limit : Z) (t : LogTable) (cmd : LogCommand) : LogReply * LogTable :=
  match cmd with
  | GetLogs params _ =>
      let l := filter (fun log => table_matches t params log = true) (t_logs t) in
      (LogsReply (zlen l) (page_of params l), t)
  | AddLog log token =>
      let l := kept limit (t_logs t) log in
      (NoReply, mkLogTable l (filter (fun '(k, _) => 0 < refs k l) (<[log_token_key log := token]> (t_tokens t))))
  | GetNextLogId _ => (NextLogIdReply (next_log_id (concrete t)), t)
  | GetToken key _ => (TokenReply (ext_clone <$> t_tokens t !! key), t)
  | GetTokens keys _ =>
      (TokensReply (list_to_map (rev ((fun '(s, key) => (s, ext_clone <$> t_tokens t !! key)) <$> keys))), t)
  | CloneToSave _ => (SaveReply (manager_to_helper (concrete t)), t)
  | UpdateLog i ops => (NoReply, mkLogTable (rev (update_first i ops (rev (t_logs t)))) (t_tokens t))
  end.
Fixpoint table_run (limit : Z) (t : LogTable) (cmds : list LogCommand) : list LogReply * LogTable :=
  match cmds with
  | [] => ([], t)
  | cmd :: cmds =>
      let '(r, t) := table_step limit t cmd in
      let '(rs, t) := table_run limit t cmds in (r :: rs, t)
  end.

(** Whether somebody waits for the reply. *)
Definition awaited (cmd : LogCommand) : bool :=
  match cmd with
  | GetLogs _ rx | GetNextLogId rx | GetToken _ rx | GetTokens _ rx | CloneToSave rx => rx
  | AddLog _ _ | UpdateLog _ _ => true
  end.

Lemma view_token mgr k : t_tokens (view mgr) !! k = token_at mgr k.
Proof. cbn. by rewrite lookup_fmap. Qed.

Lemma concrete_view mgr : log_wf mgr -> concrete (view mgr) = mgr.
Proof.
  intros Hwf. destruct mgr as [l m]. unfold concrete, view. cbn [t_logs t_tokens logs tokens]. f_equal.
  apply map_eq. intros k. rewrite map_lookup_imap, lookup_fmap.
  destruct (wf_lookup _ k Hwf) as [[_ E]|[_ (t & E)]]; cbn [logs tokens] in *; by rewrite E.
Qed.

Lemma filtered_logs_spec mgr params : log_wf mgr -> forall l, Forall (fun log => log ∈ logs mgr) l ->
  filtered_logs mgr params l = Ret (filter (fun log => table_matches (view mgr) params log = true) l).
Proof.
  intros Hwf. induction 1 as [|log l Hin _ IH]; [done|]. cbn [filtered_logs]. rewrite IH, filter_cons.
  assert (E : log_matches mgr params log = Ret (table_matches (view mgr) params log)).
  { unfold log_matches, table_matches. destruct (forallb id (checks_before_user params log)); [|done].
    destruct (p_user_id params) as [u|]; [|done]. cbn [negb andb test]. rewrite view_token. unfold token_at.
    destruct (wf_lookup mgr (log_token_key log) Hwf) as [[Hz _]|[_ (t & ->)]]; [|done]. exfalso.
    unfold refs, zlen in Hz. assert (log ∈ filter (fun l => log_token_key l = log_token_key log) (logs mgr)) as Hf
      by (by apply list_elem_of_filter).
    destruct (filter _ (logs mgr)); [by apply elem_of_nil in Hf|cbn in Hz; lia]. }
  rewrite E. cbn [mbind outcome_bind].
  destruct (table_matches (view mgr) params log); [by rewrite decide_True|by rewrite decide_False].
Qed.

Lemma apply_update_key ops l : log_token_key (apply_update ops l) = log_token_key l.
Proof. by destruct ops. Qed.
Lemma apply_update_id ops l : log_id (apply_update ops l) = log_id l.
Proof. by destruct ops. Qed.
Lemma update_first_keys {A} (f : RequestLog -> A) i ops l :
  (forall l, f (apply_update ops l) = f l) -> f <$> update_first i ops l = f <$> l.
Proof.
  intros H. induction l as [|log l IH]; [done|]. cbn [update_first].
  destruct (log_id log =? i); cbn [fmap list_fmap]; [by rewrite H|by f_equal].
Qed.
Lemma fmap_rev' {A B} (f : A -> B) l : f <$> rev l = rev (f <$> l).
Proof. induction l as [|x l IH]; [done|]. cbn [rev fmap list_fmap]. by rewrite fmap_app, IH. Qed.
Lemma update_keys {A} (f : RequestLog -> A) i ops l :
  (forall l, f (apply_update ops l) = f l) -> f <$> rev (update_first i ops (rev l)) = f <$> l.
Proof. intros H. by rewrite fmap_rev', update_first_keys, <- fmap_rev', rev_involutive. Qed.

Lemma refs_keys k l l' : log_token_key <$> l = log_token_key <$> l' -> refs k l = refs k l'.
Proof.
  revert l'; induction l as [|x l IH]; intros [|y l'] E; try done.
  injection E as E1 E2. by rewrite !refs_cons, E1, (IH l').
Qed.

Lemma update_log_wf i ops mgr : log_wf mgr -> log_wf (update_log i ops mgr).
Proof.
  intros [Hl H]. pose proof (update_keys log_token_key i ops (logs mgr) (apply_update_key ops)) as E.
  unfold update_log. split; cbn [logs tokens].
  - apply (f_equal length) in E. rewrite !length_fmap in E. unfold zlen in *. lia.
  - intros k. by rewrite H, (refs_keys k _ _ (eq_sym E)).
Qed.

Lemma get_tokens_spec mgr keys : forall m,
  get_tokens keys mgr m =
  list_to_map (rev ((fun '(s, key) => (s, ext_clone <$> t_tokens (view mgr) !! key)) <$> keys)) ∪ m.
Proof.
  induction keys as [|[s key] keys IH]; intros m; cbn [get_tokens fmap list_fmap rev]; [symmetry; apply (left_id_L ∅ (∪))|].
  rewrite IH, list_to_map_app, <- (assoc_L (∪)). f_equal. cbn. rewrite insert_union_singleton_l.
  f_equal. unfold get_token. rewrite lookup_fmap. by destruct (tokens mgr !! key).
Qed.

Lemma send_alive r mgr : send true r mgr = Ret (r, mgr).
Proof. done. Qed.

(** One command implements its step on the table and keeps the invariant. *)
Lemma handle_command_refines fuel n mgr cmd :
  1 <= n < 2 ^ 64 -> log_wf mgr -> (length (logs mgr) < fuel)%nat -> awaited cmd = true ->
  exists reply mgr', handle_command fuel (Limited n) mgr cmd = Some (Ret (reply, mgr')) /\
    log_wf mgr' /\ (reply, view mgr') = table_step n (view mgr) cmd /\
    (length (logs mgr') <= S (length (logs mgr)))%nat.
Proof.
  intros Hn Hwf Hf Ha. destruct cmd as [params rx|log token|rx|key rx|keys rx|rx|i ops]; cbn [awaited] in Ha;
    try subst rx; cbn [handle_command table_step get_limit];
    try (eexists _, _; rewrite ?send_alive; split; [reflexivity|]; split; [done|]; split; [|lia]; cbn [fst snd]).
  - rewrite filtered_logs_spec by (done || by apply Forall_forall). cbn [mbind outcome_bind]. rewrite send_alive.
    eexists _, _. split; [reflexivity|]. split; [done|]. split; [done|lia].
  - destruct (add_log_spec n log token fuel mgr Hn Hwf Hf) as (mgr' & -> & Hwf' & El & Hlen & Ht).
    eexists _, _. split; [reflexivity|]. split; [done|]. split.
    + f_equal. unfold view at 1. f_equal; [done|]. cbn [t_logs]. fold (view mgr).
      apply map_eq. intros k. change (at_token <$> tokens mgr') with (t_tokens (view mgr')).
      rewrite view_token, Ht, map_lookup_filter, El. cbn [view t_logs].
      set (l := kept n (logs mgr) log). pose proof (refs_range k l) as Hr.
      destruct (decide (log_token_key log = k)) as [<-|Hne].
      * rewrite lookup_insert_eq. cbn. rewrite option_guard_True; [done|].
        unfold l, kept. rewrite refs_snoc, decide_True by done.
        pose proof (refs_range (log_token_key log) (drop (length (logs mgr) + 1 - Z.to_nat n) (logs mgr))). lia.
      * rewrite lookup_insert_ne by done. rewrite view_token.
        destruct (Z.eqb_spec (refs k l) 0); destruct (token_at mgr k); cbn; try done;
          [by rewrite option_guard_False by lia|by rewrite option_guard_True by lia].
    + rewrite El. unfold kept. rewrite length_app, length_drop. cbn. lia.
  - by rewrite concrete_view.
  - unfold get_token. cbn. rewrite lookup_fmap. by destruct (tokens mgr !! key).
  - do 2 f_equal. rewrite get_tokens_spec. apply (right_id_L ∅ (∪)).
  - by rewrite concrete_view.
  - eexists _, _. split; [reflexivity|]. split; [by apply update_log_wf|]. split; [done|]. cbn [update_log logs].
    pose proof (f_equal length (update_keys log_token_key i ops (logs mgr) (apply_update_key ops))) as E.
    rewrite !length_fmap in E. lia.
Qed.

Lemma run_refines n cmds : 1 <= n < 2 ^ 64 -> forall fuel mgr, log_wf mgr ->
  (length (logs mgr) + length cmds < fuel)%nat -> Forall (fun c => awaited c = true) cmds ->
  exists replies mgr', run_commands fuel (Limited n) mgr cmds = Some (Ret (replies, mgr')) /\
    log_wf mgr' /\ (replies, view mgr') = table_run n (view mgr) cmds.
Proof.
  intros Hn. induction cmds as [|cmd cmds IH]; intros fuel mgr Hwf Hf Ha; cbn [run_commands table_run].
  - by exists [], mgr.
  - apply Forall_cons in Ha as [Ha Hs]. cbn [length] in Hf.
    destruct (handle_command_refines fuel n mgr cmd Hn Hwf ltac:(lia) Ha) as (r & m1 & -> & Hwf1 & E1 & Hl).
    destruct (IH fuel m1 Hwf1 ltac:(lia) Hs) as (rs & m2 & -> & Hwf2 & E2).
    exists (r :: rs), m2. split; [done|]. split; [done|]. rewrite <- E1. by rewrite <- E2.
Qed.

(** *** Identifiers *)

Definition ids_sorted (l : list RequestLog) : Prop := StronglySorted Z.lt (log_id <$> l).

Lemma sorted_snoc l x : StronglySorted Z.lt l -> Forall (fun y => y < x) l -> StronglySorted Z.lt (l ++ [x]).
Proof.
  induction 1 as [|y l Hs IH Hy]; intros Hx; cbn; [repeat constructor|].
  apply Forall_cons in Hx as [Hxy Hx]. constructor; [by apply IH|]. apply Forall_app. by split; [|constructor].
Qed.
Lemma sorted_drop n l : StronglySorted Z.lt l -> StronglySorted Z.lt (drop n l).
Proof. intros H. revert n. induction H; intros [|n]; cbn; auto; by constructor. Qed.
Lemma sorted_last l x : StronglySorted Z.lt (l ++ [x]) -> Forall (fun y => y < x) l.
Proof.
  induction l as [|y l IH]; [constructor|]. cbn. intros H. inversion H as [|? ? H1 H2]; subst.
  constructor; [by apply Forall_app in H2 as [_ [H2 _]%Forall_cons]|by apply IH].
Qed.

Lemma next_log_id_above l m : ids_sorted l -> Forall (fun log => 0 <= log_id log < 2 ^ 64 - 1) l ->
  Forall (fun i => i < next_log_id (mkLogManager l m)) (log_id <$> l)
  /\ 0 <= next_log_id (mkLogManager l m) < 2 ^ 64.
Proof.
  intros Hs Hr. unfold next_log_id. cbn [logs]. destruct l as [|log l _] using rev_ind; [done|].
  rewrite last_snoc. apply Forall_app in Hr as [_ [Hr _]%Forall_cons]. unfold ids_sorted in Hs.
  rewrite fmap_app in *. apply sorted_last in Hs.
  rewrite (wrap_small 64 (log_id log + 1)) by (unfold in_uint; lia). split; [|lia].
  apply Forall_app; split; [|repeat constructor; lia].
  eapply Forall_impl; [exact Hs|]. cbn. lia.
Qed.

Lemma start_request_spec fuel n mgr time model token stream :
  1 <= n < 2 ^ 64 -> log_wf mgr -> (length (logs mgr) < fuel)%nat ->
  ids_sorted (logs mgr) -> Forall (fun log => 0 <= log_id log < 2 ^ 64 - 1) (logs mgr) ->
  exists mgr', start_request fuel (Limited n) mgr time model token stream =
      Some (Ret (next_log_id mgr, mgr')) /\ log_wf mgr' /\
    logs mgr' = kept n (logs mgr) (new_log (next_log_id mgr) time model token stream) /\
    ids_sorted (logs mgr') /\ Forall (fun log => log_id log < next_log_id mgr) (logs mgr).
Proof.
  intros Hn Hwf Hf Hs Hr. unfold start_request. cbn [handle_command send get_limit].
  set (log := new_log (next_log_id mgr) time model token stream).
  destruct (add_log_spec n log (ext_clone token) fuel mgr Hn Hwf Hf) as (mgr' & -> & Hwf' & El & _ & _).
  assert (Ha : Forall (fun i => i < next_log_id mgr) (log_id <$> logs mgr)).
  { destruct mgr as [l m]. by apply next_log_id_above. }
  eexists. split; [reflexivity|]. split_and!; [done|done| |by apply Forall_fmap in Ha].
  rewrite El. unfold ids_sorted, kept. rewrite fmap_app, fmap_drop. apply sorted_snoc; [by apply sorted_drop|].
  by apply Forall_drop.
Qed.

(** With distinct identifiers an update changes the entry it names and no other. *)
Lemma update_first_only i ops l : NoDup (log_id <$> l) ->
  update_first i ops l = (fun log => if log_id log =? i then apply_update ops log else log) <$> l.
Proof.
  induction l as [|log l IH]; [done|]. cbn [update_first fmap list_fmap]. intros H.
  apply NoDup_cons in H as [Hn H]. destruct (Z.eqb_spec (log_id log) i) as [E|E]; [|by rewrite IH].
  f_equal. clear IH H. induction l as [|x l IHl]; [done|]. cbn [fmap list_fmap] in *.
  destruct (Z.eqb_spec (log_id x) i) as [Ex|]; [|f_equal; apply IHl; by intros Hin; apply Hn; right].
  exfalso. apply Hn. rewrite E, <- Ex. left.
Qed.
Lemma sorted_nodup l : StronglySorted Z.lt l -> NoDup l.
Proof.
  induction 1 as [|x l _ IH Hx]; [constructor|]. constructor; [|done]. intros Hin.
  rewrite Forall_forall in Hx. specialize (Hx x Hin). lia.
Qed.
Lemma update_sorted i ops mgr : ids_sorted (logs mgr) ->
  logs (update_log i ops mgr) = (fun log => if log_id log =? i then apply_update ops log else log) <$> logs mgr.
Proof.
  intros Hs. unfold update_log. cbn [logs]. rewrite update_first_only.
  - by rewrite fmap_rev', rev_involutive.
  - rewrite fmap_rev'. rewrite <- Permutation_rev. by apply sorted_nodup.
Qed.

(** *** Saving and loading *)

Lemma error_helper_inverse e : error_from_helper (error_to_helper e) = e.
Proof. by destruct e. Qed.
Lemma log_helper_inverse l : log_from_helper (log_to_helper l) = l.
Proof. destruct l. unfold log_from_helper. cbn. by rewrite error_helper_inverse. Qed.

Section reload.
Context (providers : list string) (tz_parse : string -> option string).
Context (raw_to_string : RawToken -> string) (us : list Token).

Definition tokens_reloadable (m : gmap TokenKey AssociatedToken) : Prop :=
  forall k a, m !! k = Some a -> bundle_reloadable providers tz_parse raw_to_string (at_token a)
    /\ forall u, u ∈ bundle_tokens (at_token a) -> u ∈ us.

Lemma tokens_helper_inverse l : coherent us -> NoDup l.*1 ->
  Forall (fun p => bundle_reloadable providers tz_parse raw_to_string (at_token p.2)
    /\ forall u, u ∈ bundle_tokens (at_token p.2) -> u ∈ us) l ->
  forall pool, pool_of us pool ->
  exists pool', tokens_from_helper providers tz_parse raw_to_string
      (prod_map (fun k => k) associated_to_helper <$> l) pool = Ret (list_to_map l, pool') /\ pool_of us pool'.
Proof.
  intros Hc. induction l as [|[k [t n]] l IH]; intros Hnd Hl pool Hp; [by exists pool|].
  apply NoDup_cons in Hnd as [Hk Hnd]. apply Forall_cons in Hl as [[Hr Hu] Hl].
  cbn [fst snd at_token] in *. rewrite fmap_cons. cbn [prod_map tokens_from_helper associated_to_helper ah_token fst snd].
  destruct (ext_extract_reload providers tz_parse raw_to_string us t pool Hc Hp Hu Hr) as (p1 & E & Hp1).
  cbn [at_token]. rewrite E. cbn [mbind outcome_bind].
  destruct (IH Hnd Hl p1 Hp1) as (p2 & E2 & Hp2). rewrite E2. exists p2. split; [|done].
  cbn [mbind outcome_bind ah_ref_count ref_count list_to_map]. rewrite decide_False; [done|].
  rewrite (not_elem_of_list_to_map_1 l k Hk). by intros [? ?].
Qed.

Lemma manager_helper_inverse mgr pool : coherent us -> pool_of us pool -> tokens_reloadable (tokens mgr) ->
  exists pool', manager_from_helper providers tz_parse raw_to_string (manager_to_helper mgr) pool = Ret (mgr, pool')
    /\ pool_of us pool'.
Proof.
  intros Hc Hp Hr. destruct mgr as [l m]. unfold manager_from_helper, manager_to_helper. cbn [hm_tokens hm_logs logs tokens].
  destruct (tokens_helper_inverse (map_to_list m) Hc) with (pool := pool) as (pool' & E & Hp').
  - apply NoDup_fst_map_to_list.
  - apply Forall_forall. intros [k a] H%elem_of_map_to_list. by apply (Hr k a).
  - done.
  - rewrite E. exists pool'. split; [|done]. cbn [mbind outcome_bind]. rewrite list_to_map_to_list.
    rewrite <- list_fmap_compose. do 3 f_equal. rewrite <- (list_fmap_id l) at 2.
    apply list_fmap_ext. intros i x _. apply log_helper_inverse.
Qed.
End reload.

(** ** Properties *)

(** C17: the log actor implements the bounded table: from any state of the
    invariant, every sequence of commands whose replies are awaited answers what the
    table without reference counts answers, keeps the invariant (each token is kept
    with the number of entries that refer to it, and only while one does), and never
    panics at a missing token. *)
Theorem log_actor_refines n cmds fuel mgr :
  1 <= n < 2 ^ 64 -> log_wf mgr -> (length (logs mgr) + length cmds < fuel)%nat ->
  Forall (fun c => awaited c = true) cmds ->
  exists replies mgr', run_commands fuel (Limited n) mgr cmds = Some (Ret (replies, mgr')) /\
    log_wf mgr' /\ (replies, view mgr') = table_run n (view mgr) cmds.
Proof. intros. by apply run_refines. Qed.

Definition any_logs : GetLogsParams :=
  mkGetLogsParams None None None None None None None None None None None None None None None None None
    None true 0 10.
Definition example_log (i : Z) : RequestLog := new_log i 5 "default" (bundle (sample i)) true.
Definition example_add (i : Z) : LogCommand := AddLog (example_log i) (bundle (sample i)).

Lemma log_actor_refines_witness :
  exists mgr', run_commands 10 (Limited 2) log_manager_new
      [example_add 1; example_add 2; example_add 3; GetToken (token_key (sample_token 1)) true;
       UpdateLog 2 USuccess; GetLogs any_logs true] =
    Some (Ret ([NoReply; NoReply; NoReply; TokenReply None; NoReply;
                LogsReply 2 [example_log 3; apply_update USuccess (example_log 2)]], mgr')).
Proof.
  destruct (log_actor_refines 2
      [example_add 1; example_add 2; example_add 3; GetToken (token_key (sample_token 1)) true;
       UpdateLog 2 USuccess; GetLogs any_logs true] 10 log_manager_new) as (replies & mgr' & E & _ & T);
    [lia|apply log_wf_new|cbn; lia|by repeat constructor|].
  exists mgr'. rewrite E. apply (f_equal fst) in T. cbn [fst] in T. rewrite T. vm_compute. reflexivity.
Defined.

(** C18: adding an entry ends, within one turn of the eviction loop more than there
    are entries, and leaves at most the limit; with logging disabled the loop would
    never end. *)
Theorem add_log_terminates n log token mgr :
  (1 <= n < 2 ^ 64 -> log_wf mgr -> forall fuel, (length (logs mgr) < fuel)%nat ->
     exists mgr', handle_command fuel (limit_from_usize n) mgr (AddLog log token) = Some (Ret (NoReply, mgr')) /\
       logs mgr' = kept n (logs mgr) log /\ zlen (logs mgr') <= n) /\
  (forall fuel, handle_command fuel (limit_from_usize 0) mgr (AddLog log token) = None).
Proof.
  split.
  - intros Hn Hwf fuel Hf. unfold limit_from_usize. destruct (Z.eqb_spec n 0) as [|_]; [lia|].
    cbn [handle_command get_limit].
    destruct (add_log_spec n log token fuel mgr Hn Hwf Hf) as (mgr' & -> & _ & El & Hlen & _).
    by exists mgr'.
  - intros fuel. cbn. unfold add_log. by rewrite evict_zero.
Qed.

Lemma add_log_terminates_witness :
  exists mgr', handle_command 1 (limit_from_usize 7) log_manager_new (example_add 4) = Some (Ret (NoReply, mgr')) /\
    logs mgr' = [example_log 4] /\ zlen (logs mgr') <= 7.
Proof.
  apply (proj1 (add_log_terminates 7 (example_log 4) (bundle (sample 4)) log_manager_new));
    [lia|apply log_wf_new|cbn; lia].
Defined.

(** A request that gets its identifier and adds its entry with nothing in
    between gets a new identifier above all others, and an update changes the entry
    it names and no other.  Two requests that both ask before one adds share an
    identifier: the updates of the first go to the entry of the second, and its own
    stays pending. *)
Theorem request_identifiers :
  (forall fuel n mgr time model token stream,
     1 <= n < 2 ^ 64 -> log_wf mgr -> (length (logs mgr) < fuel)%nat ->
     ids_sorted (logs mgr) -> Forall (fun log => 0 <= log_id log < 2 ^ 64 - 1) (logs mgr) ->
     exists i mgr', start_request fuel (Limited n) mgr time model token stream = Some (Ret (i, mgr')) /\
       logs mgr' = kept n (logs mgr) (new_log i time model token stream) /\
       Forall (fun log => log_id log < i) (logs mgr) /\ ids_sorted (logs mgr') /\
       forall j ops, logs (update_log j ops mgr') =
         (fun log => if log_id log =? j then apply_update ops log else log) <$> logs mgr') /\
  (forall n t1 t2 time1 time2 m1 m2 s1 s2, 2 <= n < 2 ^ 64 ->
     exists mgr', run_commands 6 (Limited n) log_manager_new
         [GetNextLogId true; GetNextLogId true;
          AddLog (new_log 1 time1 m1 t1 s1) (ext_clone t1); AddLog (new_log 1 time2 m2 t2 s2) (ext_clone t2);
          UpdateLog 1 USuccess] =
       Some (Ret ([NextLogIdReply 1; NextLogIdReply 1; NoReply; NoReply; NoReply], mgr')) /\
       log_status <$> logs mgr' = [Pending; Success]).
Proof.
  split.
  - intros fuel n mgr time model token stream Hn Hwf Hf Hs Hr.
    destruct (start_request_spec fuel n mgr time model token stream Hn Hwf Hf Hs Hr)
      as (mgr' & E & _ & El & Hs' & Hb).
    exists (next_log_id mgr), mgr'. split_and!; try done. intros j ops. by apply update_sorted.
  - intros n t1 t2 time1 time2 m1 m2 s1 s2 Hn.
    destruct (run_refines n
         [GetNextLogId true; GetNextLogId true;
          AddLog (new_log 1 time1 m1 t1 s1) (ext_clone t1); AddLog (new_log 1 time2 m2 t2 s2) (ext_clone t2);
          UpdateLog 1 USuccess] ltac:(lia) 6 log_manager_new log_wf_new ltac:(cbn; lia)
         ltac:(by repeat constructor)) as (replies & mgr' & E & _ & T).
    exists mgr'. rewrite E. change (logs mgr') with (t_logs (view mgr')). revert T.
    cbn [table_run table_step view logs tokens log_manager_new t_logs t_tokens].
    assert (K : forall l x, (length l < 2)%nat -> kept n l x = l ++ [x]).
    { intros l x Hl. unfold kept. by replace (length l + 1 - Z.to_nat n)%nat with 0%nat by lia. }
    rewrite (K []), K by (cbn; lia). intros [= -> ->]. done.
Qed.

Lemma request_identifiers_witness :
  exists i mgr', start_request 3 (Limited 2) (mkLogManager [] ∅) 5 "default" (bundle (sample 1)) true =
      Some (Ret (i, mgr')) /\ logs mgr' = [new_log i 5 "default" (bundle (sample 1)) true].
Proof.
  destruct (proj1 request_identifiers 3%nat 2 (mkLogManager [] ∅) 5 "default" (bundle (sample 1)) true)
    as (i & mgr' & E & El & _); [lia|apply log_wf_new|cbn; lia|constructor|constructor|].
  exists i, mgr'. split; [exact E|exact El].
Defined.

(** A command whose caller has gone before the reply kills the actor, in every
    state: the reply cannot be sent and the code calls [unreachable!], which aborts
    the program in the release profile. *)
Theorem unawaited_reply_panics fuel limit mgr cmd :
  log_wf mgr -> awaited cmd = false -> handle_command fuel limit mgr cmd = Some Panic.
Proof.
  intros Hwf Ha. destruct cmd as [params rx|log token|rx|key rx|keys rx|rx|i ops]; cbn [awaited] in Ha;
    try discriminate Ha; subst rx; cbn [handle_command]; try done.
  by rewrite filtered_logs_spec by (done || by apply Forall_forall).
Qed.

Lemma unawaited_reply_panics_witness :
  handle_command 1 (Limited 100) log_manager_new (GetLogs any_logs false) = Some Panic.
Proof. apply (unawaited_reply_panics 1 (Limited 100)); [apply log_wf_new|reflexivity]. Defined.

(** The saved log is the log that is loaded, tokens and counts included, when
    the archive format reads what it wrote and the tokens are those of the pool. *)
Theorem log_save_load providers tz_parse raw_to_string to_bytes from_bytes_unchecked us n mgr bs pool :
  (to_bytes (manager_to_helper mgr) = Some bs -> from_bytes_unchecked bs = Some (manager_to_helper mgr)) ->
  1 <= n -> coherent us -> pool_of us pool ->
  tokens_reloadable providers tz_parse raw_to_string us (tokens mgr) ->
  save to_bytes (Limited n) (manager_to_helper mgr) = Ok (Some bs) ->
  exists pool', load providers tz_parse raw_to_string from_bytes_unchecked (Limited n) (Ok bs) pool =
    Ret (Ok mgr, pool').
Proof.
  intros Hb Hn Hc Hp Hr Hs. unfold save in Hs. cbn [should_log negb] in Hs.
  destruct (to_bytes (manager_to_helper mgr)) as [bs'|] eqn:E; cbn in Hs; [|done].
  destruct (_ <? _) in Hs; [done|]. injection Hs as ->.
  unfold load. cbn [should_log negb]. rewrite (Hb eq_refl).
  destruct (manager_helper_inverse providers tz_parse raw_to_string us mgr pool Hc Hp Hr) as (pool' & E' & _).
  exists pool'. by rewrite E'.
Qed.

Definition example_manager : LogManager :=
  mkLogManager [example_log 1] {[token_key (sample_token 1) := mkAssociatedToken (bundle (sample 1)) 1]}.

Lemma log_save_load_witness :
  exists pool', load DEFAULT_PROVIDERS Some (fun _ => "token"%string) (fun _ => Some (manager_to_helper example_manager))
    (Limited 100) (Ok [0]) ∅ = Ret (Ok example_manager, pool').
Proof.
  apply (log_save_load DEFAULT_PROVIDERS Some (fun _ => "token"%string) (fun _ => Some [0]) _ [sample_token 1] 100
           example_manager [0]).
  - done.
  - lia.
  - intros u v Hu Hv _ _. apply list_elem_of_singleton in Hu, Hv. by subst.
  - intros k u H. by rewrite lookup_empty in H.
  - intros k a H. unfold example_manager in H. cbn [tokens] in H. apply lookup_singleton_Some in H as [_ <-].
    split.
    + split; [|done]. constructor; [|constructor]. split_and!; [by_decision|split; by_decision|done].
    + intros u Hu. exact Hu.
  - done.
Defined.
