(* ===== verification/Version.v ===== *)
(** * Versions

    [src/src/app/model/version.rs] (the order, the text and the binary form of a
    version), [src/build_info.rs] (reading the text, at build time), the check of
    the data directory's version in [src/src/main.rs] and the format check of
    [src/src/app/constant/header/version.rs].

    A [u16] is a [Z]; native byte order is little-endian.  A writer is any type
    with a [write_all] that may fail, a reader the bytes that are left. *)
From S2P Require Import Prelude Strings Numerals TokenKey.

(** ** Data *)

Inductive ReleaseStage : Type :=
| Release
| Preview (version : Z) (build : option Z).
Record Version : Type := mkVersion { major : Z; minor : Z; patch : Z; stage : ReleaseStage }.

Definition release (major minor patch : Z) : Version := mkVersion major minor patch Release.
Definition preview (major minor patch version : Z) : Version :=
  mkVersion major minor patch (Preview version None).
Definition preview_build (major minor patch version build : Z) : Version :=
  mkVersion major minor patch (Preview version (Some build)).

(** ** The order *)

(** [Ordering::then_with]. *)
Definition then_with (c d : comparison) : comparison := match c with Eq => d | _ => c end.
(** The order of [Option<u16>]. *)
Definition option_cmp (a b : option Z) : comparison :=
  match a, b with
  | None, None => Eq
  | None, Some _ => Lt
  | Some _, None => Gt
  | Some x, Some y => x ?= y
  end.
Definition stage_cmp (a b : ReleaseStage) : comparison :=
  match a, b with
  | Preview _ _, Release => Lt
  | Release, Preview _ _ => Gt
  | Release, Release => Eq
  | Preview v1 b1, Preview v2 b2 => then_with (v1 ?= v2) (option_cmp b1 b2)
  end.
Definition version_cmp (a b : Version) : comparison :=
  then_with (then_with (then_with (major a ?= major b) (minor a ?= minor b)) (patch a ?= patch b))
    (stage_cmp (stage a) (stage b)).
Definition version_lt (a b : Version) : bool := match version_cmp a b with Lt => true | _ => false end.

(** ** Texts *)

Definition stage_display (s : ReleaseStage) : string :=
  match s with
  | Release => EmptyString
  | Preview version None => "-pre." +:+ to_dec version
  | Preview version (Some build) => "-pre." +:+ to_dec version +:+ "+build." +:+ to_dec build
  end.
Definition version_display (v : Version) : string :=
  to_dec (major v) +:+ "." +:+ to_dec (minor v) +:+ "." +:+ to_dec (patch v) +:+ stage_display (stage v).

Inductive ParseError : Type := InvalidFormat | InvalidNumber | InvalidPreRelease | InvalidBuild.

Definition parse_u16 (s : bytes) : option Z := parse_uint 16 (from_bytes s).

(** The loop over the parts of the base version. *)
Fixpoint parse_parts (parts : list Z) (ss : list bytes) : result ParseError (list Z) :=
  match ss with
  | [] => Ok parts
  | s :: ss =>
      if (3 <=? length parts)%nat then Err InvalidFormat else
      n ← ok_or (parse_u16 s) InvalidNumber;
      parse_parts (parts ++ [n]) ss
  end.
Definition parse_extension (s : bytes) : result ParseError ReleaseStage :=
  after_pre ← ok_or (strip_prefix (as_bytes "pre.") s) InvalidPreRelease;
  let '(version_str, build_str) :=
    match split_once 43 after_pre with
    | Some (ver, build_part) => (ver, Some build_part)
    | None => (after_pre, None)
    end in
  version ← ok_or (parse_u16 version_str) InvalidPreRelease;
  match build_str with
  | None => Ok (Preview version None)
  | Some build_part =>
      build_num_str ← ok_or (strip_prefix (as_bytes "build.") build_part) InvalidBuild;
      build_num ← ok_or (parse_u16 build_num_str) InvalidBuild;
      Ok (Preview version (Some build_num))
  end.
Definition version_from_str (s : string) : result ParseError Version :=
  let '(base, extension) :=
    match split_once 45 (as_bytes s) with
    | Some (base, ext) => (base, Some ext)
    | None => (as_bytes s, None)
    end in
  parts ← parse_parts [] (split_on 46 base);
  match parts with
  | [major; minor; patch] =>
      match extension with
      | None => Ok (mkVersion major minor patch Release)
      | Some ext => stage ← parse_extension ext; Ok (mkVersion major minor patch stage)
      end
  | _ => Err InvalidFormat
  end.

(** ** The binary form *)

Definition to_ne_bytes (x : Z) : bytes := le_bytes 2 x.

Section Write.
Context {W E : Type} (write_all : W -> bytes -> result E W).

Definition write_to (v : Version) (writer : W) : result E W :=
  writer ← write_all writer (to_ne_bytes (major v));
  writer ← write_all writer (to_ne_bytes (minor v));
  writer ← write_all writer (to_ne_bytes (patch v));
  match stage v with
  | Release => write_all writer (to_ne_bytes 0)
  | Preview version None =>
      writer ← write_all writer (to_ne_bytes 1);
      write_all writer (to_ne_bytes version)
  | Preview version (Some build) =>
      writer ← write_all writer (to_ne_bytes 2);
      writer ← write_all writer (to_ne_bytes version);
      write_all writer (to_ne_bytes build)
  end.
End Write.

Inductive IoError : Type := UnexpectedEof | InvalidData.

(** [read_exact] of a two-byte buffer, and the number in it. *)
Definition read_u16 (reader : bytes) : result IoError (Z * bytes) :=
  match reader with
  | a :: b :: reader => Ok (le_value [a; b], reader)
  | _ => Err UnexpectedEof
  end.
Definition read_from (reader : bytes) : result IoError (Version * bytes) :=
  '(major, reader) ← read_u16 reader;
  '(minor, reader) ← read_u16 reader;
  '(patch, reader) ← read_u16 reader;
  '(len, reader) ← read_u16 reader;
  '(stage, reader) ←
    (if len =? 0 then Ok (Release, reader)
     else if len =? 1 then
       '(version, reader) ← read_u16 reader;
       Ok (Preview version None, reader)
     else if len =? 2 then
       '(version, reader) ← read_u16 reader;
       '(build, reader) ← read_u16 reader;
       Ok (Preview version (Some build), reader)
     else Err InvalidData);
  Ok (mkVersion major minor patch stage, reader).

(** The check at start-up: [None] is a file that cannot be opened.  The second
    component is what a new file is given. *)
Inductive Startup : Type := Exit | Continue (written : option bytes).
Definition vec_write_all (w bs : bytes) : result Empty_set bytes := Ok (w ++ bs).
Definition check_data_version (MIN_COMPAT_VERSION : Version) (file : option bytes) (can_create : bool) : Startup :=
  match file with
  | Some f =>
      match read_from f with
      | Ok (ver, _) => if version_lt ver MIN_COMPAT_VERSION then Exit else Continue None
      | Err _ => Continue None
      end
  | None =>
      if can_create then
        match write_to vec_write_all MIN_COMPAT_VERSION [] with
        | Ok bs => Continue (Some bs)
        | Err _ => Continue None
        end
      else Continue None
  end.

(** ** The format of client versions *)

Definition VERSION_MIN_LENGTH : nat := 5.
Definition VERSION_MAX_LENGTH : nat := 32.
Definition VERSION_PART_MAX_DIGITS : Z := 4.
Definition VERSION_DOT_COUNT : Z := 2.

Fixpoint format_loop (dot_count digit_count : Z) (bs : bytes) : bool :=
  match bs with
  | [] => (dot_count =? VERSION_DOT_COUNT) && (0 <? digit_count)
  | b :: bs =>
      if is_ascii_digit b then
        if VERSION_PART_MAX_DIGITS <? digit_count + 1 then false else format_loop dot_count (digit_count + 1) bs
      else if b =? 46 then
        if digit_count =? 0 then false
        else if VERSION_DOT_COUNT <? dot_count + 1 then false else format_loop (dot_count + 1) 0 bs
      else false
  end.
Definition is_valid_version_format (version : string) : bool :=
  let bs := as_bytes version in
  if (length bs <? VERSION_MIN_LENGTH)%nat || (VERSION_MAX_LENGTH <? length bs)%nat then false
  else format_loop 0 0 bs.

(** ** Well-formed versions *)

Definition stage_wf (s : ReleaseStage) : Prop :=
  match s with
  | Release => True
  | Preview version build => in_uint 16 version /\ from_option (in_uint 16) True build
  end.
Definition version_wf (v : Version) : Prop :=
  in_uint 16 (major v) /\ in_uint 16 (minor v) /\ in_uint 16 (patch v) /\ stage_wf (stage v).

(** ** Comparisons that are total orders *)

Record lawful {A} (cmp : A -> A -> comparison) : Prop := mkLawful {
  law_eq a b : cmp a b = Eq <-> a = b;
  law_sym a b : cmp b a = CompOpp (cmp a b);
  law_trans a b c : cmp a b = Lt -> cmp b c = Lt -> cmp a c = Lt }.

Lemma lawful_Z : lawful Z.compare.
Proof.
  split; [apply Z.compare_eq_iff|apply Z.compare_antisym|].
  intros a b c. rewrite !Z.compare_lt_iff. lia.
Qed.

Lemma lawful_pair {A B} (f : A -> A -> comparison) (g : B -> B -> comparison) :
  lawful f -> lawful g -> lawful (fun p q => then_with (f p.1 q.1) (g p.2 q.2)).
Proof.
  intros [fe fs ft] [ge gs gt]. split; cbn.
  - intros [a b] [a' b']; cbn. pose proof (fe a a') as Ha. pose proof (ge b b') as Hb.
    destruct (f a a'); cbn; rewrite ?Hb; split; intros E; try done; (apply Ha || f_equal || idtac); naive_solver.
  - intros [a b] [a' b']; cbn. rewrite fs, gs. by destruct (f a a').
  - intros [a b] [a' b'] [a'' b'']; cbn.
    destruct (f a a') eqn:E1; cbn; try done; destruct (f a' a'') eqn:E2; cbn; try done.
    + apply fe in E1 as ->. rewrite E2. cbn. apply gt.
    + apply fe in E1 as ->. by rewrite E2.
    + apply fe in E2 as <-. by rewrite E1.
    + by rewrite (ft _ _ _ E1 E2).
Qed.

Lemma lawful_inj {A B} (h : A -> B) (f : B -> B -> comparison) :
  (forall a a', h a = h a' -> a = a') -> lawful f -> lawful (fun a b => f (h a) (h b)).
Proof.
  intros Hi [fe fs ft]. split; [|intros; apply fs|intros a b c; apply ft].
  intros a b. rewrite fe. split; [apply Hi|by intros ->].
Qed.

Lemma lawful_option : lawful option_cmp.
Proof.
  destruct lawful_Z as [ze zs zt]. split.
  - intros [x|] [y|]; cbn; [rewrite ze|..]; split; congruence.
  - intros [x|] [y|]; cbn; done || apply zs.
  - intros [x|] [y|] [z|]; cbn; done || apply zt.
Qed.

Lemma lawful_stage : lawful stage_cmp.
Proof.
  destruct (lawful_pair _ _ lawful_Z lawful_option) as [pe ps pt]. split.
  - intros [|v b] [|v' b']; cbn; try (split; congruence).
    rewrite (pe (v, b) (v', b')). split; congruence.
  - intros [|v b] [|v' b']; cbn; done || apply (ps (v, b) (v', b')).
  - intros [|v b] [|v' b'] [|v'' b'']; cbn; done || apply (pt (v, b) (v', b') (v'', b'')).
Qed.

Definition version_key (v : Version) : Z * Z * Z * ReleaseStage := (major v, minor v, patch v, stage v).

Lemma lawful_version : lawful version_cmp.
Proof.
  apply (lawful_inj version_key
    (fun p q => then_with (then_with (then_with (p.1.1.1 ?= q.1.1.1) (p.1.1.2 ?= q.1.1.2)) (p.1.2 ?= q.1.2))
                  (stage_cmp p.2 q.2))).
  - intros [? ? ? ?] [? ? ? ?]. unfold version_key. cbn. by intros [= -> -> -> ->].
  - apply (lawful_pair (fun p q => then_with (then_with (p.1.1 ?= q.1.1) (p.1.2 ?= q.1.2)) (p.2 ?= q.2)) stage_cmp);
      [|apply lawful_stage].
    apply (lawful_pair (fun p q => then_with (p.1 ?= q.1) (p.2 ?= q.2)) Z.compare); [|apply lawful_Z].
    apply (lawful_pair Z.compare Z.compare); apply lawful_Z.
Qed.

(** ** The binary form *)

(** The numbers of a version in the order they are written. *)
Definition words (v : Version) : list Z :=
  major v :: minor v :: patch v ::
  match stage v with
  | Release => [0]
  | Preview version None => [1; version]
  | Preview version (Some build) => [2; version; build]
  end.
Fixpoint words_bytes (ws : list Z) : bytes :=
  match ws with [] => [] | x :: ws => to_ne_bytes x ++ words_bytes ws end.

Lemma write_to_vec v w : write_to vec_write_all v w = Ok (w ++ words_bytes (words v)).
Proof.
  destruct v as [mj mn pt [|ver [b|]]]; unfold write_to, vec_write_all, words;
    cbn [major minor patch stage mbind result_bind words_bytes]; f_equal;
    by rewrite <- !(assoc_L (++)), (right_id_L [] (++)).
Qed.

Lemma read_u16_write x rest : in_uint 16 x -> read_u16 (to_ne_bytes x ++ rest) = Ok (x, rest).
Proof.
  intros Hx. unfold to_ne_bytes. cbn [le_bytes app read_u16].
  change [x mod 256; x / 256 mod 256] with (le_bytes 2 x). rewrite le_value_le_bytes, Z.mod_small; [done|exact Hx].
Qed.

Lemma read_u16_Ok bs x rest : is_bytes bs -> read_u16 bs = Ok (x, rest) ->
  bs = to_ne_bytes x ++ rest /\ in_uint 16 x /\ is_bytes rest.
Proof.
  destruct bs as [|a [|b bs]]; try done. cbn [read_u16]. intros H [= <- <-].
  apply Forall_cons in H as [Ha H]. apply Forall_cons in H as [Hb H].
  assert (is_bytes [a; b]) as Hab by (by repeat (apply Forall_cons; split)). unfold to_ne_bytes.
  split_and!; [|by apply (le_value_range [a; b])|done].
  pose proof (le_bytes_le_value [a; b] Hab) as E. exact (f_equal (fun l => l ++ bs) (eq_sym E)).
Qed.

Lemma read_words v rest : version_wf v -> read_from (words_bytes (words v) ++ rest) = Ok (v, rest).
Proof.
  intros (Hmj & Hmn & Hpt & Hs). destruct v as [mj mn pt [|ver [b|]]]; cbn [major minor patch stage] in *;
    unfold read_from, words; cbn [major minor patch stage words_bytes]; try destruct Hs as [Hv Hb]; cbn [from_option] in *;
    rewrite <- !(assoc_L (++)), (left_id_L [] (++));
    repeat (rewrite read_u16_write by (done || by_decision); cbn [mbind result_bind]); done.
Qed.

Ltac next_u16 H Hb :=
  match type of H with context [read_u16 ?bs] =>
    let x := fresh "x" in let r := fresh "r" in let E := fresh "E" in
    destruct (read_u16 bs) as [[x r]|?] eqn:E; cbn [mbind result_bind] in H; [|done];
    let Hb' := fresh "Hb" in
    apply read_u16_Ok in E as (-> & ? & Hb'); [clear Hb; rename Hb' into Hb|exact Hb]
  end.

Lemma read_from_Ok bs v rest : is_bytes bs -> read_from bs = Ok (v, rest) ->
  version_wf v /\ bs = words_bytes (words v) ++ rest.
Proof.
  intros Hb H. unfold read_from in H. do 4 next_u16 H Hb.
  destruct (Z.eqb_spec x2 0) as [->|]; [|destruct (Z.eqb_spec x2 1) as [->|];
    [|destruct (Z.eqb_spec x2 2) as [->|]; [|done]]]; repeat next_u16 H Hb;
    injection H as <- <-; (split; [by split_and!|]); unfold words; cbn [major minor patch stage words_bytes];
    by rewrite <- !(assoc_L (++)), (left_id_L [] (++)).
Qed.

(** ** Texts *)

(** A decimal text has no separators. *)
Lemma dec_no_sep n c : is_ascii_digit c = false -> Forall (fun x => x <> c) (dec_bytes n).
Proof.
  intros Hc. eapply Forall_impl; [apply dec_bytes_digits|]. intros x Hx ->. by rewrite Hx in Hc.
Qed.
#[local] Hint Resolve dec_no_sep : core.

Lemma parse_u16_dec n : in_uint 16 n -> parse_u16 (dec_bytes n) = Some n.
Proof. apply (parse_to_dec 16). Qed.

Lemma parse_digits_range w bs : forall acc n, in_uint w acc -> parse_digits w acc bs = Some n -> in_uint w n.
Proof.
  induction bs as [|b bs IH]; intros acc n Ha; cbn [parse_digits]; [by intros [= <-]|].
  destruct (is_ascii_digit b) eqn:Hd; [|done].
  destruct (Z.ltb_spec (acc * 10 + (b - 48)) (2 ^ w)); [|done].
  apply IH. unfold is_ascii_digit in Hd. rewrite andb_true_iff, !Z.leb_le in Hd. unfold in_uint in *. lia.
Qed.
Lemma parse_u16_range s n : parse_u16 s = Some n -> in_uint 16 n.
Proof.
  unfold parse_u16, parse_uint. generalize (as_bytes (from_bytes s)). intros bs.
  assert (in_uint 16 0) by by_decision. intros E.
  destruct bs as [|b [|c bs]]; [done| |]; (destruct b as [|p|p];
    [|repeat (destruct p as [p|p|]; try (by eapply parse_digits_range))|]; by eapply parse_digits_range).
Qed.

Lemma display_bytes v :
  as_bytes (version_display v) =
    (dec_bytes (major v) ++ 46 :: dec_bytes (minor v) ++ 46 :: dec_bytes (patch v)) ++
    as_bytes (stage_display (stage v)).
Proof.
  unfold version_display. rewrite !as_bytes_app, !as_bytes_to_dec.
  change (as_bytes ".") with [46]. rewrite <- !(assoc_L (++)). cbn [app]. by rewrite <- !(assoc_L (++)).
Qed.

Lemma base_no_dash v :
  Forall (fun x => x <> 45) (dec_bytes (major v) ++ 46 :: dec_bytes (minor v) ++ 46 :: dec_bytes (patch v)).
Proof. repeat (apply Forall_app; split; [auto|apply Forall_cons; split; [done|]]). auto. Qed.

Lemma parse_base v : in_uint 16 (major v) -> in_uint 16 (minor v) -> in_uint 16 (patch v) ->
  parse_parts [] (split_on 46 (dec_bytes (major v) ++ 46 :: dec_bytes (minor v) ++ 46 :: dec_bytes (patch v)))
  = Ok [major v; minor v; patch v].
Proof.
  intros H1 H2 H3. rewrite !split_on_app, split_on_none by auto. cbn [parse_parts length].
  rewrite !parse_u16_dec by done. reflexivity.
Qed.

Lemma parse_stage ver build : stage_wf (Preview ver build) ->
  exists ext, as_bytes (stage_display (Preview ver build)) = 45 :: ext /\ parse_extension ext = Ok (Preview ver build).
Proof.
  intros [Hv Hb]. destruct build as [b|]; cbn [from_option stage_display] in *.
  - exists (as_bytes "pre." ++ dec_bytes ver ++ 43 :: as_bytes "build." ++ dec_bytes b). split.
    + rewrite !as_bytes_app, !as_bytes_to_dec. done.
    + unfold parse_extension. rewrite strip_prefix_app. cbn [ok_or mbind result_bind].
      rewrite split_once_app by auto. cbn [fst snd]. rewrite parse_u16_dec by done. cbn [ok_or mbind result_bind].
      rewrite strip_prefix_app. cbn [ok_or mbind result_bind]. by rewrite parse_u16_dec.
  - exists (as_bytes "pre." ++ dec_bytes ver). split.
    + rewrite !as_bytes_app, !as_bytes_to_dec. done.
    + unfold parse_extension. rewrite strip_prefix_app. cbn [ok_or mbind result_bind].
      rewrite split_once_none by auto. by rewrite parse_u16_dec.
Qed.

Lemma from_str_display v : version_wf v -> version_from_str (version_display v) = Ok v.
Proof.
  intros (H1 & H2 & H3 & Hs). unfold version_from_str. rewrite display_bytes.
  destruct (stage v) as [|ver build] eqn:Es.
  - cbn [stage_display as_bytes]. rewrite (right_id_L [] (++)), split_once_none by apply base_no_dash.
    rewrite parse_base by done. cbn [mbind result_bind]. rewrite <- Es. by destruct v.
  - destruct (parse_stage ver build Hs) as (ext & -> & E).
    rewrite split_once_app by apply base_no_dash. rewrite parse_base by done. cbn [mbind result_bind].
    rewrite E. cbn [mbind result_bind]. rewrite <- Es. by destruct v.
Qed.

Lemma parse_parts_range ss : forall parts l,
  Forall (in_uint 16) parts -> parse_parts parts ss = Ok l -> Forall (in_uint 16) l.
Proof.
  induction ss as [|s ss IH]; intros parts l Hp; cbn [parse_parts]; [by intros [= <-]|].
  destruct (3 <=? length parts)%nat; [done|]. destruct (parse_u16 s) as [n|] eqn:E; [|done]. cbn.
  apply IH. apply Forall_app; split; [done|]. constructor; [|done]. by eapply parse_u16_range.
Qed.

Lemma parse_extension_wf s st : parse_extension s = Ok st -> stage_wf st.
Proof.
  unfold parse_extension. intros H. bind_inv H; injection H as <-; cbn;
    repeat match goal with E : parse_u16 _ = Some _ |- _ => apply parse_u16_range in E end; done.
Qed.

Lemma from_str_wf s v : version_from_str s = Ok v -> version_wf v.
Proof.
  unfold version_from_str. destruct (split_once 45 (as_bytes s)) as [[base ext]|]; intros H; bind_inv H;
    injection H as <-;
    match goal with E : parse_parts [] _ = Ok _ |- _ => apply parse_parts_range in E as HF; [|constructor] end;
    repeat (apply Forall_cons in HF as [? HF]); split_and!; try done; by eapply parse_extension_wf.
Qed.

(** ** Formats *)

Definition digit_group (q : bytes) : Prop :=
  Forall (fun b => is_ascii_digit b = true) q /\ (1 <= length q <= 4)%nat.

Lemma format_loop_spec bs : forall d k, 0 <= k <= 4 -> 0 <= d <= 2 ->
  format_loop d k bs = true <->
  exists p ps, split_on 46 bs = p :: ps /\ zlen ps = 2 - d /\
    Forall (fun b => is_ascii_digit b = true) p /\ 1 <= k + zlen p <= 4 /\ Forall digit_group ps.
Proof.
  unfold zlen. induction bs as [|b bs IH]; intros d k Hk Hd; cbn [format_loop split_on].
  - unfold VERSION_DOT_COUNT. rewrite andb_true_iff, Z.eqb_eq, Z.ltb_lt. split.
    + intros [-> Hk']. exists [], []. cbn. split_and!; auto; lia.
    + intros (p & ps & [= <- <-] & Hl & _ & Hk' & _). cbn in *. lia.
  - destruct (is_ascii_digit b) eqn:Hb.
    + assert (Hne : (b =? 46) = false) by (apply Z.eqb_neq; by intros ->). rewrite Hne.
      destruct (split_on_cons 46 bs) as (p & ps & E). rewrite E. unfold VERSION_PART_MAX_DIGITS.
      destruct (Z.ltb_spec 4 (k + 1)); [split; [done|]|rewrite (IH d (k + 1)), E by lia; split].
      * intros (? & ? & [= <- <-] & _ & _ & Hlen & _). cbn [length] in Hlen. lia.
      * intros (? & ? & [= <- <-] & Hl & Hp & Hlen & Hps). exists (b :: p), ps. cbn [length]. split_and!; auto; lia.
      * intros (? & ? & [= <- <-] & Hl & Hp & Hlen & Hps). exists p, ps. cbn [length] in Hlen.
        apply Forall_cons in Hp as [_ Hp]. split_and!; auto; lia.
    + destruct (Z.eqb_spec b 46) as [->|Hne].
      * destruct (split_on_cons 46 bs) as (p & ps & E). unfold VERSION_DOT_COUNT.
        destruct (Z.eqb_spec k 0) as [->|]; [split; [done|]|].
        { intros (? & ? & [= <- <-] & _ & _ & Hlen & _). cbn in Hlen. lia. }
        destruct (Z.ltb_spec 2 (d + 1)); [split; [done|]|rewrite (IH (d + 1) 0), E by lia; split].
        -- intros (? & ? & [= <- <-] & Hl & _). rewrite E in Hl. cbn [length] in Hl. lia.
        -- intros (? & ? & [= <- <-] & Hl & Hp & Hlen & Hps). exists [], (p :: ps). cbn [length].
           split_and!; auto; try lia. constructor; [|done]. split; [done|lia].
        -- intros (? & ? & [= <- <-] & Hl & _ & _ & Hps). apply Forall_cons in Hps as [[Hp Hpl] Hps].
           exists p, ps. cbn [length] in Hl. split_and!; auto; lia.
      * split; [done|]. destruct (split_on_cons 46 bs) as (p & ps & E). rewrite E.
        intros (? & ? & [= <- <-] & _ & Hp & _). apply Forall_cons in Hp as [Hb' _]. by rewrite Hb' in Hb.
Qed.

(** ** Properties *)

(** The comparison of versions is a total order that agrees with equality: it is
    [Eq] only for equal versions, reverses when its arguments are swapped and is
    transitive; a preview is below its release, and below every version with larger
    numbers. *)
Theorem version_order :
  lawful version_cmp /\
  (forall mj mn pt ver build, version_lt (mkVersion mj mn pt (Preview ver build)) (release mj mn pt) = true) /\
  (forall mj mn pt pt' st st', pt < pt' -> version_lt (mkVersion mj mn pt st) (mkVersion mj mn pt' st') = true).
Proof.
  split; [apply lawful_version|]. split.
  - intros. unfold version_lt, version_cmp. cbn. by rewrite !Z.compare_refl.
  - intros mj mn pt pt' st st' H. unfold version_lt, version_cmp. cbn. rewrite !Z.compare_refl.
    apply Z.compare_lt_iff in H. cbn. by rewrite H.
Qed.

Lemma version_order_witness : version_lt (preview_build 0 4 0 6 8) (release 0 4 1) = true.
Proof. apply (proj2 (proj2 version_order) 0 4 0 1 (Preview 6 (Some 8)) Release). lia. Defined.

(** The binary form: what [write_to] writes, [read_from] reads back and stops
    behind it; and whatever bytes [read_from] accepts are those that [write_to]
    writes for the version it returns, whose numbers fit 16 bits. *)
Theorem version_binary_exact :
  (forall v rest, version_wf v ->
     exists w, write_to vec_write_all v [] = Ok w /\ read_from (w ++ rest) = Ok (v, rest)) /\
  (forall bs v rest, is_bytes bs -> read_from bs = Ok (v, rest) ->
     version_wf v /\ exists w, write_to vec_write_all v [] = Ok w /\ bs = w ++ rest).
Proof.
  split.
  - intros v rest Hv. exists (words_bytes (words v)). split; [apply (write_to_vec v [])|by apply read_words].
  - intros bs v rest Hb H. apply read_from_Ok in H as [Hv ->]; [|done]. split; [done|].
    exists (words_bytes (words v)). split; [apply (write_to_vec v [])|done].
Qed.

Lemma version_binary_exact_witness :
  exists w, write_to vec_write_all (preview 0 4 0 14) [] = Ok w /\ read_from (w ++ [7]) = Ok (preview 0 4 0 14, [7]).
Proof. apply (proj1 version_binary_exact). split_and!; by_decision. Defined.

(** The text of a version is read back as the version, and every text that is
    read gives a version whose numbers fit 16 bits. *)
Theorem version_text_roundtrip :
  (forall v, version_wf v -> version_from_str (version_display v) = Ok v) /\
  (forall s v, version_from_str s = Ok v -> version_wf v).
Proof. split; [apply from_str_display|apply from_str_wf]. Qed.

Lemma version_text_roundtrip_witness :
  version_from_str (version_display (preview_build 0 4 0 6 8)) = Ok (preview_build 0 4 0 6 8) /\
  version_wf (release 1 2 3).
Proof.
  split; [apply (proj1 version_text_roundtrip); split_and!; by_decision|].
  apply (proj2 version_text_roundtrip "1.+2.3"%string). vm_compute. reflexivity.
Defined.

(** The start-up check: the file it creates passes it, a file of an older
    version stops the program, and a file that cannot be read as a version (cut
    short, or with another length field) is accepted as if it were recent. *)
Theorem data_version_check MIN :
  (version_wf MIN -> exists bs, check_data_version MIN None true = Continue (Some bs) /\
     forall can_create, check_data_version MIN (Some bs) can_create = Continue None) /\
  (forall bs v rest c, read_from bs = Ok (v, rest) ->
     check_data_version MIN (Some bs) c = if version_lt v MIN then Exit else Continue None) /\
  (forall bs e c, read_from bs = Err e -> check_data_version MIN (Some bs) c = Continue None).
Proof.
  split_and!.
  - intros Hv. exists (words_bytes (words MIN)). unfold check_data_version. rewrite write_to_vec. split; [done|].
    intros c. pose proof (read_words MIN [] Hv) as E. rewrite (right_id_L [] (++)) in E. rewrite E.
    unfold version_lt. by rewrite (proj2 (law_eq _ lawful_version MIN MIN) eq_refl).
  - intros bs v rest c H. unfold check_data_version. by rewrite H.
  - intros bs e c H. unfold check_data_version. by rewrite H.
Qed.

Lemma data_version_check_witness :
  (exists bs, check_data_version (preview 0 4 0 14) None true = Continue (Some bs) /\
     forall can_create, check_data_version (preview 0 4 0 14) (Some bs) can_create = Continue None) /\
  check_data_version (preview 0 4 0 14) (Some [0; 0; 3; 0; 9; 0; 0; 0]) true = Exit /\
  check_data_version (preview 0 4 0 14) (Some [0; 0; 3]) true = Continue None.
Proof.
  destruct (data_version_check (preview 0 4 0 14)) as (H1 & H2 & H3). split_and!.
  - apply H1. split_and!; by_decision.
  - rewrite (H2 [0; 0; 3; 0; 9; 0; 0; 0] (release 0 3 9) [] true); vm_compute; reflexivity.
  - apply (H3 [0; 0; 3] UnexpectedEof true). vm_compute. reflexivity.
Defined.

(** The client version must be three groups of one to four digits between dots;
    the check of the whole length never decides. *)
Theorem client_version_format s :
  is_valid_version_format s = true <->
  length (split_on 46 (as_bytes s)) = 3%nat /\ Forall digit_group (split_on 46 (as_bytes s)).
Proof.
  unfold is_valid_version_format. set (bs := as_bytes s). pose proof (format_loop_spec bs 0 0 ltac:(lia) ltac:(lia)) as H.
  assert (G : format_loop 0 0 bs = true <-> length (split_on 46 bs) = 3%nat /\ Forall digit_group (split_on 46 bs)).
  { rewrite H. unfold zlen. split.
    - intros (p & ps & -> & Hl & Hp & Hlen & Hps). split; [cbn; lia|]. constructor; [|done]. split; [done|lia].
    - intros [Hl Hg]. destruct (split_on_cons 46 bs) as (p & ps & E). rewrite E in *. exists p, ps. cbn in Hl.
      apply Forall_cons in Hg as [[Hp Hpl] Hg]. split_and!; auto; lia. }
  rewrite <- G. destruct (_ || _) eqn:Hb; [|done]. split; [done|]. intros F. apply G in F as [F1 F2].
  pose proof (split_on_length 46 bs) as L. destruct (split_on 46 bs) as [|a [|b [|c [|]]]]; try done.
  repeat (apply Forall_cons in F2 as [[_ ?] F2]). cbn in L.
  unfold VERSION_MIN_LENGTH, VERSION_MAX_LENGTH in Hb. rewrite orb_true_iff, !Nat.ltb_lt in Hb. lia.
Qed.
