(* ===== verification/Ntp.v ===== *)
(** * Time synchronisation

    [src/src/common/model/ntp.rs] (timestamps, packets, one measurement, the
    weighted average of several, and what they do to the global correction) and the
    clock that applies the correction ([now_with_epoch] of
    [src/src/common/utils.rs]).  The time arithmetic is that of the copy of chrono
    in [src/patch/chrono-0.4.42].

    The network and the system clock are arguments: an exchange is the instant
    before sending, what was received (if anything) and the instant after.  A
    [SystemTime] is the [Duration] since the epoch, seconds and nanoseconds, [None]
    before it.  [unwrap_unchecked] is [Undef] on [None]. *)
From Stdlib Require Import Sorted.
From S2P Require Import Prelude Floats.

Definition EPOCH_DELTA : Z := 0x83AA7E80.
Definition PACKET_SIZE : nat := 48.
Definition VERSION : Z := 4.
Definition MODE_CLIENT : Z := 3.
Definition MODE_SERVER : Z := 4.
Definition NANOS_PER_SEC : Z := 1000000000.

Inductive NtpError : Type := Protocol (msg : string) | Io | Timeout | TimeParse.

(** ** Dates and differences of dates *)

(** A [DateTime<Utc>]: days from the common era, second of the day, nanoseconds
    (which exceed a second during a leap second). *)
Record DateTime : Type := mkDateTime { dt_days : Z; dt_secs : Z; dt_frac : Z }.
Record TimeDelta : Type := mkTimeDelta { td_secs : Z; td_nanos : Z }.

Definition UNIX_EPOCH_DAY : Z := 719163.
(** The days of the first and the last [NaiveDate]: 1 January -262143 and
    31 December 262142. *)
Definition MIN_DAYS : Z := -95746129.
Definition MAX_DAYS : Z := 95745399.
Definition from_timestamp (secs nsecs : Z) : option DateTime :=
  let days := secs / 86400 + UNIX_EPOCH_DAY in
  let secs := secs mod 86400 in
  if (days <? MIN_DAYS) || (MAX_DAYS <? days) then None
  else if (86400 <=? secs) || (2000000000 <=? nsecs) || ((1000000000 <=? nsecs) && negb (secs mod 60 =? 59))
  then None
  else Some (mkDateTime days secs nsecs).

Definition MIN_SECS : Z := -9223372036854776.
Definition MIN_NANOS : Z := 193000000.
Definition MAX_SECS : Z := 9223372036854775.
Definition MAX_NANOS : Z := 807000000.
Definition delta_new (secs nanos : Z) : option TimeDelta :=
  if (secs <? MIN_SECS) || (MAX_SECS <? secs) || (1000000000 <=? nanos)
     || ((secs =? MAX_SECS) && (MAX_NANOS <? nanos)) || ((secs =? MIN_SECS) && (nanos <? MIN_NANOS))
  then None else Some (mkTimeDelta secs nanos).
Definition checked_add (a b : TimeDelta) : option TimeDelta :=
  let secs := td_secs a + td_secs b in
  let nanos := td_nanos a + td_nanos b in
  if NANOS_PER_SEC <=? nanos then delta_new (secs + 1) (nanos - NANOS_PER_SEC) else delta_new secs nanos.
Definition checked_sub (a b : TimeDelta) : option TimeDelta :=
  let secs := td_secs a - td_secs b in
  let nanos := td_nanos a - td_nanos b in
  if nanos <? 0 then delta_new (secs - 1) (nanos + NANOS_PER_SEC) else delta_new secs nanos.
Definition checked_div (a : TimeDelta) (rhs : Z) : option TimeDelta :=
  if rhs =? 0 then None else
  let secs := Z.quot (td_secs a) rhs in
  let carry := Z.rem (td_secs a) rhs in
  let extra_nanos := Z.quot (carry * NANOS_PER_SEC) rhs in
  let nanos := Z.quot (td_nanos a) rhs + extra_nanos in
  Some (if nanos <? 0 then mkTimeDelta (secs - 1) (nanos + NANOS_PER_SEC)
        else if NANOS_PER_SEC <=? nanos then mkTimeDelta (secs + 1) (nanos - NANOS_PER_SEC)
        else mkTimeDelta secs nanos).
Definition num_seconds (a : TimeDelta) : Z :=
  if (td_secs a <? 0) && (0 <? td_nanos a) then td_secs a + 1 else td_secs a.
Definition subsec_nanos (a : TimeDelta) : Z :=
  if (td_secs a <? 0) && (0 <? td_nanos a) then td_nanos a - NANOS_PER_SEC else td_nanos a.
Definition in_i64 (x : Z) : bool := (- 2 ^ 63 <=? x) && (x <? 2 ^ 63).
Definition num_nanoseconds (a : TimeDelta) : option Z :=
  let secs_part := num_seconds a * NANOS_PER_SEC in
  if negb (in_i64 secs_part) then None else
  let total := secs_part + subsec_nanos a in
  if in_i64 total then Some total else None.

(** [NaiveTime::signed_duration_since], then that of [NaiveDateTime]. *)
Definition time_since (a b : DateTime) : option TimeDelta :=
  let secs := dt_secs a - dt_secs b in
  let frac := dt_frac a - dt_frac b in
  let secs :=
    if (dt_secs b <? dt_secs a) && (1000000000 <=? dt_frac b) then secs + 1
    else if (dt_secs a <? dt_secs b) && (1000000000 <=? dt_frac a) then secs - 1
    else secs in
  delta_new (secs + frac / 1000000000) (frac mod 1000000000).
Definition signed_duration_since (a b : DateTime) : outcome TimeDelta :=
  days ← unwrap (delta_new ((dt_days a - dt_days b) * 86400) 0);
  time ← unwrap (time_since a b);
  unwrap (checked_add days time).

(** ** NTP timestamps *)

Definition ntp_to_unix_timestamp (ntp_ts : Z) : outcome DateTime :=
  let ntp_secs := Z.shiftr ntp_ts 32 in
  let ntp_frac := Z.land ntp_ts 0xFFFFFFFF in
  let unix_secs := ntp_secs - EPOCH_DELTA in
  let nanos := wrap 32 (Z.shiftr (wrap 64 (ntp_frac * 1000000000)) 32) in
  unchecked (from_timestamp unix_secs nanos).

Definition system_time_to_ntp_timestamp (t : option (Z * Z)) : result NtpError Z :=
  '(s, n) ← ok_or t TimeParse;
  let secs := wrap 64 (s + EPOCH_DELTA) in
  let frac := wrap 64 (Z.shiftl n 32) / 1000000000 in
  Ok (Z.lor (wrap 64 (Z.shiftl secs 32)) frac).

Record NtpTimestamps : Type := mkNtpTimestamps
  { t1 : DateTime; t2 : DateTime; t3 : DateTime; t4 : DateTime }.

Definition clock_offset (ts : NtpTimestamps) : outcome TimeDelta :=
  term1 ← signed_duration_since (t2 ts) (t1 ts);
  term2 ← signed_duration_since (t4 ts) (t3 ts);
  sum ← unwrap (checked_add term1 term2);
  unwrap (checked_div sum 2).
Definition round_trip_delay (ts : NtpTimestamps) : outcome TimeDelta :=
  total_time ← signed_duration_since (t4 ts) (t1 ts);
  server_time ← signed_duration_since (t3 ts) (t2 ts);
  unwrap (checked_sub total_time server_time).

(** ** Packets *)

Definition validate_ntp_response (packet : bytes) : result NtpError unit :=
  let mode := Z.land (packet !!! 0%nat) 0x7 in
  let stratum := packet !!! 1%nat in
  if negb (mode =? MODE_SERVER) then Err (Protocol "mode")
  else if stratum =? 0 then Err (Protocol "Kiss-o'-Death")
  else if stratum =? 16 then Err (Protocol "unsynchronised")
  else if 17 <=? stratum then Err (Protocol "stratum")
  else Ok tt.

(** One exchange: [None] for a receive that fails, with the error it fails with. *)
Record Exchange : Type := mkExchange
  { sent_at : option (Z * Z); received : result NtpError bytes; received_at : option (Z * Z) }.

Definition request_packet (t1_ntp : Z) : bytes :=
  Z.lor (Z.shiftl VERSION 3) MODE_CLIENT :: replicate 39 0 ++ be_bytes 8 t1_ntp.
(** [recv] writes at most the buffer's length and leaves the rest of it. *)
Definition recv_into (packet datagram : bytes) : bytes :=
  take PACKET_SIZE datagram ++ drop (length (take PACKET_SIZE datagram)) packet.

(** What the code computes from an exchange; [Result] inside [outcome]. *)
Definition send_and_receive_ntp_packet (ex : Exchange) : outcome (result NtpError (bytes * NtpTimestamps)) :=
  match system_time_to_ntp_timestamp (sent_at ex) with
  | Err e => Ret (Err e)
  | Ok t1_ntp =>
      match received ex with
      | Err e => Ret (Err e)
      | Ok datagram =>
          let packet := recv_into (request_packet t1_ntp) datagram in
          match system_time_to_ntp_timestamp (received_at ex) with
          | Err e => Ret (Err e)
          | Ok t4_ntp =>
              let t2_ntp := be_value (take 8 (drop 32 packet)) in
              let t3_ntp := be_value (take 8 (drop 40 packet)) in
              t1 ← ntp_to_unix_timestamp t1_ntp;
              t2 ← ntp_to_unix_timestamp t2_ntp;
              t3 ← ntp_to_unix_timestamp t3_ntp;
              t4 ← ntp_to_unix_timestamp t4_ntp;
              Ret (Ok (packet, mkNtpTimestamps t1 t2 t3 t4))
          end
      end
  end.

(** A failed connection is an exchange that fails with its error. *)
Definition measure_once (ex : Exchange) : outcome (result NtpError (Z * Z)) :=
  r ← send_and_receive_ntp_packet ex;
  match r with
  | Err e => Ret (Err e)
  | Ok (packet, timestamps) =>
      match validate_ntp_response packet with
      | Err e => Ret (Err e)
      | Ok _ =>
          offset ← clock_offset timestamps;
          rtt ← round_trip_delay timestamps;
          Ret (offset_nanos ← ok_or (num_nanoseconds offset) (Protocol "offset");
               rtt_nanos ← ok_or (num_nanoseconds rtt) (Protocol "RTT");
               Ok (offset_nanos, rtt_nanos))
      end
  end.

(** ** Several measurements *)

(** [sort_by_key]: stable. *)
Fixpoint insert_sample (s : Z * Z) (l : list (Z * Z)) : list (Z * Z) :=
  match l with
  | [] => [s]
  | x :: l => if s.2 <=? x.2 then s :: x :: l else x :: insert_sample s l
  end.
Definition sort_by_rtt (l : list (Z * Z)) : list (Z * Z) := foldr insert_sample [] l.

Definition filter_count (success_count : nat) : outcome nat :=
  if (8 <=? success_count)%nat then Ret 3%nat
  else if (5 <=? success_count)%nat then Ret 2%nat
  else if (3 <=? success_count)%nat then Ret 0%nat
  else Panic.

Definition f64_zero : f64 := S754_zero false.
Fixpoint weigh (weighted_sum weight_sum : f64) (l : list (Z * Z)) : f64 * f64 :=
  match l with
  | [] => (weighted_sum, weight_sum)
  | (delta, rtt) :: l =>
      let weight := f64_div (f64_of_i64 1) (f64_of_i64 rtt) in
      weigh (f64_add weighted_sum (f64_mul (f64_of_i64 delta) weight)) (f64_add weight_sum weight) l
  end.
Definition weighted_average (l : list (Z * Z)) : Z :=
  let '(weighted_sum, weight_sum) := weigh f64_zero f64_zero l in
  f64_to_i64 (f64_div weighted_sum weight_sum).

Fixpoint collect_samples (exs : list Exchange) : outcome (list (Z * Z)) :=
  match exs with
  | [] => Ret []
  | ex :: exs =>
      r ← measure_once ex;
      samples ← collect_samples exs;
      Ret (match r with Ok s => s :: samples | Err _ => samples end)
  end.
Definition combine_samples (samples : list (Z * Z)) : outcome (result NtpError Z) :=
  let success_count := length samples in
  if (success_count <? 3)%nat then Ret (Err (Protocol "fewer than 3 samples")) else
  let samples := sort_by_rtt samples in
  n ← filter_count success_count;
  Ret (Ok (weighted_average (take (success_count - n) samples))).
Definition sync_once (exs : list Exchange) : outcome (result NtpError Z) :=
  samples ← collect_samples exs; combine_samples samples.

(** What a synchronisation does to [DELTA]: [init_sync] and the periodic task alike. *)
Definition sync_delta (delta : Z) (exs : list Exchange) : outcome Z :=
  r ← sync_once exs;
  Ret (match r with Ok delta_nanos => delta_nanos | Err _ => delta end).

(** ** The corrected clock *)

Definition duration_ok (nanos : Z) : bool := (0 <=? nanos) && (nanos <? 2 ^ 64 * NANOS_PER_SEC).
(** Nanoseconds since the epoch. *)
Definition now_with_epoch (delta : Z) (now : option Z) : outcome Z :=
  now ← unwrap now;
  if delta <? 0 then
    let t := now - wrap 64 (- delta) in
    if duration_ok t then Ret t else Panic
  else
    let t := now + delta in
    if duration_ok t then Ret t else Panic.

(** ** Dates and differences as numbers of nanoseconds *)

Definition dt_ok (d : DateTime) : Prop :=
  MIN_DAYS <= dt_days d <= MAX_DAYS /\ 0 <= dt_secs d < 86400 /\ 0 <= dt_frac d < 1000000000.
(** Nanoseconds since the Unix epoch. *)
Definition dt_total (d : DateTime) : Z :=
  ((dt_days d - UNIX_EPOCH_DAY) * 86400 + dt_secs d) * 1000000000 + dt_frac d.
Definition td_total (a : TimeDelta) : Z := td_secs a * 1000000000 + td_nanos a.
(** Normal form, with room for a few additions below the limits of [TimeDelta]. *)
Definition td_ok (k : Z) (a : TimeDelta) : Prop :=
  - k * 2 ^ 45 <= td_secs a <= k * 2 ^ 45 /\ 0 <= td_nanos a < 1000000000.

Lemma delta_new_ok secs nanos :
  - 2 ^ 52 <= secs <= 2 ^ 52 -> 0 <= nanos < 1000000000 -> delta_new secs nanos = Some (mkTimeDelta secs nanos).
Proof.
  intros Hs Hn. unfold delta_new, MIN_SECS, MAX_SECS, MIN_NANOS, MAX_NANOS.
  repeat match goal with |- context [?a <? ?b] => destruct (Z.ltb_spec a b); [lia|] end.
  destruct (Z.leb_spec 1000000000 nanos); [lia|].
  destruct (Z.eqb_spec secs 9223372036854775); [lia|]. destruct (Z.eqb_spec secs (-9223372036854776)); [lia|]. done.
Qed.

Lemma checked_add_ok j k a b : 0 <= j <= 8 -> 0 <= k <= 8 -> td_ok j a -> td_ok k b ->
  exists c, checked_add a b = Some c /\ td_ok (j + k + 1) c /\ td_total c = td_total a + td_total b.
Proof.
  intros Hj Hk [Ha Ha'] [Hb Hb']. unfold checked_add, NANOS_PER_SEC, td_ok, td_total.
  destruct (Z.leb_spec 1000000000 (td_nanos a + td_nanos b)); rewrite delta_new_ok by lia;
    eexists; (split; [reflexivity|]); cbn [td_secs td_nanos]; lia.
Qed.
Lemma checked_sub_ok j k a b : 0 <= j <= 8 -> 0 <= k <= 8 -> td_ok j a -> td_ok k b ->
  exists c, checked_sub a b = Some c /\ td_ok (j + k + 1) c /\ td_total c = td_total a - td_total b.
Proof.
  intros Hj Hk [Ha Ha'] [Hb Hb']. unfold checked_sub, NANOS_PER_SEC, td_ok, td_total.
  destruct (Z.ltb_spec (td_nanos a - td_nanos b) 0); rewrite delta_new_ok by lia;
    eexists; (split; [reflexivity|]); cbn [td_secs td_nanos]; lia.
Qed.

(** Halving rounds down. *)
Lemma checked_div_2 k a : 0 <= k -> td_ok k a ->
  exists c, checked_div a 2 = Some c /\ 0 <= td_nanos c < 1000000000 /\ td_total c = td_total a / 2.
Proof.
  intros Hk [_ Hn]. unfold checked_div, NANOS_PER_SEC, td_total. cbn [Z.eqb].
  rewrite (Z.quot_div_nonneg (td_nanos a)) by lia.
  pose proof (Z.rem_bound_abs (td_secs a) 2 ltac:(lia)) as Hr.
  pose proof (Z.quot_rem (td_secs a) 2 ltac:(lia)) as Hq.
  set (r := Z.rem (td_secs a) 2) in *. set (q := Z.quot (td_secs a) 2) in *. clearbody r q.
  assert (He : Z.quot (r * 1000000000) 2 = r * 500000000).
  { assert (r = -1 \/ r = 0 \/ r = 1) as [-> | [-> | ->]] by lia; reflexivity. }
  rewrite He. eexists. split; [reflexivity|].
  destruct (Z.ltb_spec (td_nanos a / 2 + r * 500000000) 0); [cbn [td_secs td_nanos]; lia|].
  destruct (Z.leb_spec 1000000000 (td_nanos a / 2 + r * 500000000)); cbn [td_secs td_nanos]; lia.
Qed.

Lemma num_nanoseconds_ok a : 0 <= td_nanos a < 1000000000 -> - 2 ^ 63 <= td_total a < 2 ^ 63 ->
  num_nanoseconds a = Some (td_total a).
Proof.
  unfold num_nanoseconds, num_seconds, subsec_nanos, td_total, in_i64, NANOS_PER_SEC. intros Hn Ht.
  destruct (Z.ltb_spec (td_secs a) 0), (Z.ltb_spec 0 (td_nanos a)); cbn [andb];
    repeat match goal with
    | |- context [- 2 ^ 63 <=? ?b] => destruct (Z.leb_spec (- 2 ^ 63) b); [cbn [andb negb]|lia]
    | |- context [?a <? 2 ^ 63] => destruct (Z.ltb_spec a (2 ^ 63)); [cbn [andb negb]|lia]
    end; f_equal; lia.
Qed.

Lemma signed_duration_ok a b : dt_ok a -> dt_ok b ->
  exists c, signed_duration_since a b = Ret c /\ td_ok 3 c /\ td_total c = dt_total a - dt_total b.
Proof.
  intros (Ha1 & Ha2 & Ha3) (Hb1 & Hb2 & Hb3). unfold signed_duration_since, MIN_DAYS, MAX_DAYS in *.
  rewrite delta_new_ok by lia. cbn [unwrap mbind outcome_bind]. unfold time_since.
  destruct (Z.leb_spec 1000000000 (dt_frac b)); [lia|]. destruct (Z.leb_spec 1000000000 (dt_frac a)); [lia|].
  rewrite !andb_false_r. rewrite delta_new_ok by lia. cbn [unwrap mbind outcome_bind].
  destruct (checked_add_ok 1 1 (mkTimeDelta ((dt_days a - dt_days b) * 86400) 0)
    (mkTimeDelta (dt_secs a - dt_secs b + (dt_frac a - dt_frac b) / 1000000000)
       ((dt_frac a - dt_frac b) mod 1000000000))) as (c & -> & Hc & Ht);
    [lia|lia|split; cbn [td_secs td_nanos]; lia..|].
  exists c. split; [done|]. split; [exact Hc|]. rewrite Ht. unfold td_total, dt_total. cbn [td_secs td_nanos]. lia.
Qed.

(** *** The two quantities of an exchange *)

Definition ts_ok (ts : NtpTimestamps) : Prop := dt_ok (t1 ts) /\ dt_ok (t2 ts) /\ dt_ok (t3 ts) /\ dt_ok (t4 ts).
Definition rtt_total (ts : NtpTimestamps) : Z :=
  (dt_total (t4 ts) - dt_total (t1 ts)) - (dt_total (t3 ts) - dt_total (t2 ts)).

Lemma round_trip_ok ts : ts_ok ts ->
  exists c, round_trip_delay ts = Ret c /\ td_ok 7 c /\ td_total c = rtt_total ts.
Proof.
  intros (H1 & H2 & H3 & H4). unfold round_trip_delay.
  destruct (signed_duration_ok (t4 ts) (t1 ts) H4 H1) as (a & -> & Ha & Ea).
  destruct (signed_duration_ok (t3 ts) (t2 ts) H3 H2) as (b & -> & Hb & Eb). cbn [mbind outcome_bind].
  destruct (checked_sub_ok 3 3 a b ltac:(lia) ltac:(lia) Ha Hb) as (c & -> & Hc & Ec).
  exists c. split; [done|]. split; [exact Hc|]. unfold rtt_total. lia.
Qed.

Lemma clock_offset_ok ts : ts_ok ts ->
  exists c, clock_offset ts = Ret c /\ 0 <= td_nanos c < 1000000000 /\ td_total c = rtt_total ts / 2.
Proof.
  intros (H1 & H2 & H3 & H4). unfold clock_offset.
  destruct (signed_duration_ok (t2 ts) (t1 ts) H2 H1) as (a & -> & Ha & Ea).
  destruct (signed_duration_ok (t4 ts) (t3 ts) H4 H3) as (b & -> & Hb & Eb). cbn [mbind outcome_bind].
  destruct (checked_add_ok 3 3 a b ltac:(lia) ltac:(lia) Ha Hb) as (c & -> & Hc & Ec). cbn [unwrap mbind outcome_bind].
  destruct (checked_div_2 7 c ltac:(lia) Hc) as (d & -> & Hd & Ed). exists d. split; [done|]. split; [done|].
  rewrite Ed, Ec, Ea, Eb. unfold rtt_total. f_equal. lia.
Qed.

(** *** Timestamps *)

Lemma from_timestamp_ok secs nanos :
  - 2 ^ 42 <= secs <= 2 ^ 42 -> 0 <= nanos < 1000000000 ->
  exists d, from_timestamp secs nanos = Some d /\ dt_ok d /\ dt_total d = secs * 1000000000 + nanos.
Proof.
  intros Hs Hn. unfold from_timestamp, dt_ok, dt_total, MIN_DAYS, MAX_DAYS, UNIX_EPOCH_DAY.
  repeat match goal with |- context [?a <? ?b] => destruct (Z.ltb_spec a b); [lia|] end.
  destruct (Z.leb_spec 86400 (secs mod 86400)); [lia|]. destruct (Z.leb_spec 2000000000 nanos); [lia|].
  destruct (Z.leb_spec 1000000000 nanos); [lia|]. cbn [orb andb].
  eexists. split; [reflexivity|]. cbn [dt_days dt_secs dt_frac]. lia.
Qed.

Lemma ntp_to_unix_ok x : in_uint 64 x ->
  exists d, ntp_to_unix_timestamp x = Ret d /\ dt_ok d /\
    dt_total d = (x / 2 ^ 32 - EPOCH_DELTA) * 1000000000 + (x mod 2 ^ 32) * 1000000000 / 2 ^ 32.
Proof.
  unfold in_uint. intros Hx. unfold ntp_to_unix_timestamp.
  change 0xFFFFFFFF with (Z.ones 32). rewrite land_mask, !shiftr_div by lia.
  assert (Hf : 0 <= x mod 2 ^ 32 < 2 ^ 32) by (apply Z.mod_pos_bound; lia).
  rewrite (wrap_small 64) by (unfold in_uint; lia).
  assert (Hn : 0 <= x mod 2 ^ 32 * 1000000000 / 2 ^ 32 < 1000000000).
  { split; [apply Z.div_pos; lia|]. apply Z.div_lt_upper_bound; lia. }
  rewrite (wrap_small 32) by (unfold in_uint; lia).
  assert (Hq : 0 <= x / 2 ^ 32 < 2 ^ 32).
  { split; [apply Z.div_pos; lia|]. apply Z.div_lt_upper_bound; lia. }
  destruct (from_timestamp_ok (x / 2 ^ 32 - EPOCH_DELTA) (x mod 2 ^ 32 * 1000000000 / 2 ^ 32)) as (d & -> & Hd & Et);
    [unfold EPOCH_DELTA; lia|done|]. exists d. done.
Qed.

(** A system time: seconds in 64 bits, less than a second of nanoseconds. *)
Definition system_time_ok (t : Z * Z) : Prop := 0 <= t.1 < 2 ^ 64 - EPOCH_DELTA /\ 0 <= t.2 < 1000000000.

Lemma system_time_ok_spec s n : system_time_ok (s, n) ->
  system_time_to_ntp_timestamp (Some (s, n)) =
    Ok ((s + EPOCH_DELTA) mod 2 ^ 32 * 2 ^ 32 + n * 2 ^ 32 / 1000000000).
Proof.
  unfold system_time_ok. cbn [fst snd]. intros [Hs Hn]. unfold system_time_to_ntp_timestamp.
  cbn [ok_or mbind result_bind]. assert (0 < EPOCH_DELTA < 2 ^ 32) by done.
  rewrite (wrap_small 64 (s + EPOCH_DELTA)) by (unfold in_uint; lia).
  rewrite !Z.shiftl_mul_pow2 by lia. rewrite (wrap_small 64 (n * 2 ^ 32)) by (unfold in_uint; lia).
  assert (Hf : 0 <= n * 2 ^ 32 / 1000000000 < 2 ^ 32).
  { split; [apply Z.div_pos; lia|]. apply Z.div_lt_upper_bound; lia. }
  assert (E : wrap 64 ((s + EPOCH_DELTA) * 2 ^ 32) = Z.shiftl ((s + EPOCH_DELTA) mod 2 ^ 32) 32).
  { rewrite Z.shiftl_mul_pow2 by lia. unfold wrap. change (2 ^ 64) with (2 ^ 32 * 2 ^ 32).
    rewrite Z.mul_mod_distr_r by lia. done. }
  rewrite E. f_equal. by rewrite lor_shiftl_add by lia.
Qed.

(** *** One measurement *)

Definition exchange_ok (ex : Exchange) : Prop :=
  from_option system_time_ok True (sent_at ex) /\ from_option system_time_ok True (received_at ex) /\
  match received ex with Ok datagram => is_bytes datagram | Err _ => True end.

Lemma recv_into_ok packet datagram : length packet = 48%nat -> is_bytes packet -> is_bytes datagram ->
  length (recv_into packet datagram) = 48%nat /\ is_bytes (recv_into packet datagram).
Proof.
  intros Hl Hp Hd. unfold recv_into, PACKET_SIZE. rewrite length_app, length_drop, length_take. split; [lia|].
  apply Forall_app; split; [by apply Forall_take|by apply Forall_drop].
Qed.

Lemma request_packet_ok x : length (request_packet x) = 48%nat /\ is_bytes (request_packet x).
Proof.
  split; [done|]. unfold request_packet. constructor; [by_decision|]. apply Forall_app; split.
  - apply Forall_replicate. by_decision.
  - apply be_bytes_u8.
Qed.

Lemma field_u64 n packet : length packet = 48%nat -> is_bytes packet -> (n <= 40)%nat ->
  in_uint 64 (be_value (take 8 (drop n packet))).
Proof.
  intros Hl Hp Hn. assert (E : length (take 8 (drop n packet)) = 8%nat) by (rewrite length_take, length_drop; lia).
  pose proof (be_value_range (take 8 (drop n packet))) as H. rewrite E in H. unfold in_uint.
  change (256 ^ Z.of_nat 8) with (2 ^ 64) in H. apply H. by apply Forall_take, Forall_drop.
Qed.

Lemma system_time_range t x : from_option system_time_ok True t -> system_time_to_ntp_timestamp t = Ok x -> in_uint 64 x.
Proof.
  destruct t as [[s n]|]; [|done]. cbn [from_option]. intros Ht. rewrite (system_time_ok_spec s n Ht).
  intros [= <-]. destruct Ht as [_ Hn]. cbn [snd] in Hn. unfold in_uint.
  pose proof (Z.mod_pos_bound (s + EPOCH_DELTA) (2 ^ 32) ltac:(lia)).
  assert (0 <= n * 2 ^ 32 / 1000000000 < 2 ^ 32); [|lia].
  split; [apply Z.div_pos; lia|]. apply Z.div_lt_upper_bound; lia.
Qed.

Lemma ntp_range x d : in_uint 64 x -> ntp_to_unix_timestamp x = Ret d ->
  dt_ok d /\ 0 <= dt_total d + EPOCH_DELTA * 1000000000 < 2 ^ 32 * 1000000000.
Proof.
  intros Hx H. destruct (ntp_to_unix_ok x Hx) as (d' & E & Hd & Ht). rewrite E in H. injection H as ->.
  split; [done|]. rewrite Ht. unfold in_uint in Hx.
  pose proof (Z.mod_pos_bound x (2 ^ 32) ltac:(lia)).
  assert (0 <= x mod 2 ^ 32 * 1000000000 / 2 ^ 32 < 1000000000).
  { split; [apply Z.div_pos; lia|]. apply Z.div_lt_upper_bound; lia. }
  assert (0 <= x / 2 ^ 32 < 2 ^ 32); [|lia].
  split; [apply Z.div_pos; lia|]. apply Z.div_lt_upper_bound; lia.
Qed.

(** The timestamps of an exchange: legal dates within one era. *)
Lemma send_and_receive_ok ex : exchange_ok ex ->
  exists r, send_and_receive_ntp_packet ex = Ret r /\
    forall packet ts, r = Ok (packet, ts) -> ts_ok ts /\ - 2 ^ 33 * 1000000000 < rtt_total ts < 2 ^ 33 * 1000000000.
Proof.
  intros (Hs & Hr & Hd). unfold send_and_receive_ntp_packet.
  destruct (system_time_to_ntp_timestamp (sent_at ex)) as [x1|e] eqn:E1; [|by eexists].
  destruct (received ex) as [datagram|e]; [|by eexists].
  destruct (system_time_to_ntp_timestamp (received_at ex)) as [x4|e] eqn:E4; [|by eexists].
  apply (system_time_range _ _ Hs) in E1. apply (system_time_range _ _ Hr) in E4.
  destruct (request_packet_ok x1) as [Hq1 Hq2]. destruct (recv_into_ok _ _ Hq1 Hq2 Hd) as [Hl Hb].
  set (packet := recv_into (request_packet x1) datagram) in *.
  pose proof (field_u64 32 packet Hl Hb ltac:(lia)) as E2. pose proof (field_u64 40 packet Hl Hb ltac:(lia)) as E3.
  destruct (ntp_to_unix_ok x1 E1) as (d1 & F1 & _). destruct (ntp_to_unix_ok _ E2) as (d2 & F2 & _).
  destruct (ntp_to_unix_ok _ E3) as (d3 & F3 & _). destruct (ntp_to_unix_ok x4 E4) as (d4 & F4 & _).
  rewrite F1. cbn [mbind outcome_bind]. rewrite F2. cbn [mbind outcome_bind].
  rewrite F3. cbn [mbind outcome_bind]. rewrite F4. cbn [mbind outcome_bind].
  eexists. split; [reflexivity|]. intros p ts [= <- <-]. unfold ts_ok, rtt_total. cbn [t1 t2 t3 t4].
  apply (ntp_range _ _ E1) in F1 as [? ?]. apply (ntp_range _ _ E2) in F2 as [? ?].
  apply (ntp_range _ _ E3) in F3 as [? ?]. apply (ntp_range _ _ E4) in F4 as [? ?].
  split; [done|lia].
Qed.

Lemma measure_once_ok ex : exchange_ok ex ->
  exists r, measure_once ex = Ret r /\
    forall o rtt, r = Ok (o, rtt) -> o = rtt / 2 /\ - 2 ^ 33 * 1000000000 < rtt < 2 ^ 33 * 1000000000.
Proof.
  intros Hex. unfold measure_once. destruct (send_and_receive_ok ex Hex) as (r & -> & Hr). cbn [mbind outcome_bind].
  destruct r as [[packet ts]|e]; [|by eexists]. destruct (Hr packet ts eq_refl) as [Hts Hb].
  destruct (validate_ntp_response packet); [|by eexists].
  destruct (clock_offset_ok ts Hts) as (c & -> & Hc & Ec). destruct (round_trip_ok ts Hts) as (d & -> & Hd & Ed).
  cbn [mbind outcome_bind]. eexists. split; [reflexivity|]. intros o rtt.
  rewrite !num_nanoseconds_ok by (try apply Hd; try apply Hc; lia). cbn [ok_or mbind result_bind].
  intros [= <- <-]. by rewrite Ec, Ed.
Qed.

(** ** Several measurements *)

Lemma insert_sample_perm s l : Permutation (insert_sample s l) (s :: l).
Proof.
  induction l as [|x l IH]; cbn [insert_sample]; [done|]. destruct (s.2 <=? x.2); [done|].
  rewrite IH. constructor.
Qed.
Lemma sort_perm l : Permutation (sort_by_rtt l) l.
Proof. induction l as [|s l IH]; cbn; [done|]. by rewrite insert_sample_perm, IH. Qed.

Definition rtt_le (a b : Z * Z) : Prop := a.2 <= b.2.
Lemma insert_sample_sorted s l : StronglySorted rtt_le l -> StronglySorted rtt_le (insert_sample s l).
Proof.
  induction 1 as [|x l Hs IH Hx]; cbn [insert_sample]; [repeat constructor|].
  destruct (Z.leb_spec s.2 x.2) as [Hle|Hgt].
  - constructor; [by constructor|]. constructor; [done|]. eapply Forall_impl; [exact Hx|]. unfold rtt_le. intros y Hy. lia.
  - constructor; [done|]. rewrite insert_sample_perm. constructor; [unfold rtt_le; lia|done].
Qed.
Lemma sort_sorted l : StronglySorted rtt_le (sort_by_rtt l).
Proof. induction l as [|s l IH]; [constructor|]. by apply insert_sample_sorted. Qed.
Lemma sorted_app_le l1 l2 : StronglySorted rtt_le (l1 ++ l2) ->
  forall a b, a ∈ l1 -> b ∈ l2 -> rtt_le a b.
Proof.
  induction l1 as [|x l1 IH]; cbn; intros H a b Ha Hb; [by apply elem_of_nil in Ha|].
  inversion H as [|? ? H1 H2]; subst. apply elem_of_cons in Ha as [->|Ha]; [|by apply IH].
  rewrite Forall_forall in H2. apply H2, elem_of_app. by right.
Qed.

Lemma collect_samples_ok exs : Forall exchange_ok exs ->
  exists samples, collect_samples exs = Ret samples /\ (length samples <= length exs)%nat /\
    Forall (fun s => s.1 = s.2 / 2) samples.
Proof.
  induction 1 as [|ex exs Hex _ (samples & E & Hl & Hs)]; [by exists []|]. cbn [collect_samples].
  destruct (measure_once_ok ex Hex) as (r & -> & Hr). cbn [mbind outcome_bind]. rewrite E. cbn [mbind outcome_bind].
  eexists. split; [reflexivity|]. destruct r as [[o rtt]|e]; cbn [length]; [|split; [lia|done]].
  split; [lia|]. constructor; [|done]. by destruct (Hr o rtt eq_refl).
Qed.

Lemma combine_samples_ok samples : (3 <= length samples)%nat ->
  exists kept dropped, combine_samples samples = Ret (Ok (weighted_average kept)) /\
    Permutation (kept ++ dropped) samples /\ (length dropped <= 3)%nat /\ (3 <= length kept)%nat /\
    forall a b, a ∈ kept -> b ∈ dropped -> rtt_le a b.
Proof.
  intros Hl. unfold combine_samples, filter_count. destruct (Nat.ltb_spec (length samples) 3); [lia|].
  assert (G : forall n, (n <= 3)%nat -> (3 + n <= length samples)%nat ->
    exists dropped, Permutation (take (length samples - n) (sort_by_rtt samples) ++ dropped) samples /\
      (length dropped <= 3)%nat /\ (3 <= length (take (length samples - n) (sort_by_rtt samples)))%nat /\
      forall a b, a ∈ take (length samples - n) (sort_by_rtt samples) -> b ∈ dropped -> rtt_le a b).
  { intros n Hn H3. exists (drop (length samples - n) (sort_by_rtt samples)). rewrite take_drop.
    pose proof (Permutation_length (sort_perm samples)) as E. rewrite length_drop, length_take, E.
    split_and!; [apply sort_perm|lia|lia|]. apply sorted_app_le. rewrite take_drop. apply sort_sorted. }
  destruct (Nat.leb_spec 8 (length samples)); [|destruct (Nat.leb_spec 5 (length samples));
    [|destruct (Nat.leb_spec 3 (length samples)); [|lia]]]; cbn [mbind outcome_bind];
    match goal with |- context [take (length samples - ?n)] => destruct (G n ltac:(lia) ltac:(lia)) as (dropped & G') end;
    eexists _, dropped; (split; [reflexivity|exact G']).
Qed.

(** ** Properties *)

(** C19: a measurement is never undefined and never panics, whatever datagram
    arrives: every timestamp is a legal date, no difference leaves [TimeDelta] and
    the results fit 64 bits.  The offset it reports is always half the round trip,
    rounded down. *)
Theorem measurement_safe ex :
  exchange_ok ex ->
  exists r, measure_once ex = Ret r /\
    forall o rtt, r = Ok (o, rtt) -> o = rtt / 2 /\ - 2 ^ 33 * 1000000000 < rtt < 2 ^ 33 * 1000000000.
Proof. apply measure_once_ok. Qed.

(** A reply of two bytes, to a request sent at [s]. *)
Definition short_reply (s : Z) : Exchange := mkExchange (Some (s, 0)) (Ok [4; 1]) (Some (s, 20000000)).

Lemma measurement_safe_witness :
  exists r, measure_once (short_reply 1700000000) = Ret r /\
    forall o rtt, r = Ok (o, rtt) -> o = rtt / 2 /\ - 2 ^ 33 * 1000000000 < rtt < 2 ^ 33 * 1000000000.
Proof. apply (measurement_safe (short_reply 1700000000)). split_and!; [done|done|by_decision]. Defined.

(** What is called the clock offset is not one.  In an exchange whose way out and
    back both take [d], with a server whose clock is ahead by [theta] and which
    answers after [p], the code computes [d], not [theta]; the documented formula
    with T3 - T4 gives [theta].  And a reply of two bytes passes the checks: the rest
    of the packet is the request, so that the transmit time is the client's own. *)
Theorem clock_offset_is_delay :
  (forall ts c theta d p, ts_ok ts ->
     dt_total (t1 ts) = c -> dt_total (t2 ts) = c + d + theta ->
     dt_total (t3 ts) = c + d + theta + p -> dt_total (t4 ts) = c + 2 * d + p ->
     (exists o, clock_offset ts = Ret o /\ td_total o = d) /\
     ((dt_total (t2 ts) - dt_total (t1 ts)) + (dt_total (t3 ts) - dt_total (t4 ts))) / 2 = theta) /\
  measure_once (short_reply 1700000000) = Ret (Ok (-1954494400000000000 + 9999999, -3908988800000000000 + 19999999)).
Proof.
  split.
  - intros ts c theta d p Hts H1 H2 H3 H4. destruct (clock_offset_ok ts Hts) as (o & E & _ & Eo).
    split; [|lia]. exists o. split; [done|]. rewrite Eo. unfold rtt_total. lia.
  - vm_compute. reflexivity.
Qed.

Definition instant (ns : Z) : DateTime := mkDateTime UNIX_EPOCH_DAY (ns / 1000000000) (ns mod 1000000000).
Lemma clock_offset_is_delay_witness :
  exists o, clock_offset (mkNtpTimestamps (instant 0) (instant 3600020000000) (instant 3600021000000)
                            (instant 41000000)) = Ret o /\ td_total o = 20000000.
Proof.
  apply (proj1 (proj1 clock_offset_is_delay
    (mkNtpTimestamps (instant 0) (instant 3600020000000) (instant 3600021000000) (instant 41000000))
    0 3600000000000 20000000 1000000 ltac:(unfold ts_ok, dt_ok; cbn; unfold MIN_DAYS, MAX_DAYS, UNIX_EPOCH_DAY; lia)
    eq_refl eq_refl eq_refl eq_refl)).
Defined.

(** A system time written as an NTP timestamp and read back loses less than two
    nanoseconds, until the 32 bits of seconds run out in 2036; from then on it comes
    back 2^32 seconds early. *)
Theorem timestamp_precision s n :
  system_time_ok (s, n) ->
  exists x d, system_time_to_ntp_timestamp (Some (s, n)) = Ok x /\ ntp_to_unix_timestamp x = Ret d /\
    let era := (s + EPOCH_DELTA) / 2 ^ 32 in
    let t := (s - era * 2 ^ 32) * 1000000000 + n in
    t - 2 < dt_total d <= t /\ (s < 2085978496 -> era = 0).
Proof.
  intros Hs. pose proof (system_time_ok_spec s n Hs) as E. destruct Hs as [Hs Hn]. cbn [fst snd] in Hs, Hn.
  set (x := (s + EPOCH_DELTA) mod 2 ^ 32 * 2 ^ 32 + n * 2 ^ 32 / 1000000000) in E.
  assert (Hf : 0 <= n * 2 ^ 32 / 1000000000 < 2 ^ 32).
  { split; [apply Z.div_pos; lia|]. apply Z.div_lt_upper_bound; lia. }
  pose proof (Z.mod_pos_bound (s + EPOCH_DELTA) (2 ^ 32) ltac:(lia)) as Hm.
  destruct (ntp_to_unix_ok x) as (d & Ed & _ & Et); [unfold in_uint, x; lia|].
  exists x, d. split; [done|]. split; [done|]. intros era t.
  assert (Hq : x / 2 ^ 32 = (s + EPOCH_DELTA) mod 2 ^ 32)
    by (unfold x; rewrite Z.div_add_l by lia; rewrite (Z.div_small _ (2 ^ 32)) by lia; lia).
  assert (Hr : x mod 2 ^ 32 = n * 2 ^ 32 / 1000000000).
  { unfold x. rewrite Z.add_comm, Z.mod_add by lia. by apply Z.mod_small. }
  rewrite Et, Hq, Hr. unfold t, era, EPOCH_DELTA in *.
  pose proof (Z.div_mod (s + 2208988800) (2 ^ 32) ltac:(lia)) as Hd.
  set (q := (s + 2208988800) / 2 ^ 32) in *. set (r := (s + 2208988800) mod 2 ^ 32) in *. clearbody q r.
  pose proof (Z.div_mod (n * 2 ^ 32) 1000000000 ltac:(lia)) as H1.
  pose proof (Z.mod_pos_bound (n * 2 ^ 32) 1000000000 ltac:(lia)) as H2.
  set (f := n * 2 ^ 32 / 1000000000) in *. clearbody f.
  pose proof (Z.div_mod (f * 1000000000) (2 ^ 32) ltac:(lia)) as H3.
  pose proof (Z.mod_pos_bound (f * 1000000000) (2 ^ 32) ltac:(lia)) as H4.
  split; [|intros; lia].
  assert (n - 2 < f * 1000000000 / 2 ^ 32 <= n) by lia. lia.
Qed.

Lemma timestamp_precision_witness :
  exists x d, system_time_to_ntp_timestamp (Some (2085978496, 1)) = Ok x /\ ntp_to_unix_timestamp x = Ret d /\
    let era := (2085978496 + EPOCH_DELTA) / 2 ^ 32 in
    let t := (2085978496 - era * 2 ^ 32) * 1000000000 + 1 in
    t - 2 < dt_total d <= t /\ (2085978496 < 2085978496 -> era = 0).
Proof. apply (timestamp_precision 2085978496 1). split; cbn; [split; done|lia]. Defined.

(** A synchronisation averages the samples with the smallest round trips, all
    but at most three of those that succeeded, and fails, leaving the correction as
    it was, when fewer than three did.  One sample with a round trip of zero turns
    the average into a NaN and the correction into zero. *)
Theorem synchronisation_outcome :
  (forall delta exs, Forall exchange_ok exs ->
     exists samples, collect_samples exs = Ret samples /\
       ((length samples < 3)%nat /\ sync_delta delta exs = Ret delta \/
        exists kept dropped, sync_delta delta exs = Ret (weighted_average kept) /\
          Permutation (kept ++ dropped) samples /\ (length dropped <= 3)%nat /\ (3 <= length kept)%nat /\
          forall a b, a ∈ kept -> b ∈ dropped -> rtt_le a b)) /\
  weighted_average [(10000000, 20000000); (10000000, 20000000); (10000000, 20000000)] = 10000000 /\
  weighted_average [(0, 0); (10000000, 20000000); (10000000, 20000000)] = 0.
Proof.
  split; [|split; vm_compute; reflexivity].
  intros delta exs Hexs. destruct (collect_samples_ok exs Hexs) as (samples & E & _ & _).
  exists samples. split; [done|]. unfold sync_delta, sync_once. rewrite E. cbn [mbind outcome_bind].
  destruct (Nat.lt_ge_cases (length samples) 3) as [Hl|Hl].
  - left. split; [done|]. unfold combine_samples. by rewrite (proj2 (Nat.ltb_lt _ _) Hl).
  - right. destruct (combine_samples_ok samples Hl) as (kept & dropped & -> & H). exists kept, dropped. by split.
Qed.

Lemma synchronisation_outcome_witness :
  exists samples, collect_samples [short_reply 1700000000] = Ret samples /\
    ((length samples < 3)%nat /\ sync_delta 7 [short_reply 1700000000] = Ret 7 \/
     exists kept dropped, sync_delta 7 [short_reply 1700000000] = Ret (weighted_average kept) /\
       Permutation (kept ++ dropped) samples /\ (length dropped <= 3)%nat /\ (3 <= length kept)%nat /\
       forall a b, a ∈ kept -> b ∈ dropped -> rtt_le a b).
Proof.
  apply (proj1 synchronisation_outcome 7 [short_reply 1700000000]).
  constructor; [|constructor]. split_and!; [done|done|by_decision].
Defined.
