(* ===== verification/UpstreamErrors.v ===== *)
(** * Errors of the upstream service

    The error enumeration of [src/src/core/aiserver/v1/aiserver.v1.rs] with the HTTP
    statuses and names of [src/src/core/aiserver/v1.rs], and the conversion of an
    upstream error into its canonical form: [src/src/core/error/cursor.rs],
    [canonical.rs] and [cpp.rs].

    Reading the JSON of an error is external; what is read is a [CursorError].  A
    [NonZeroU16] made without a check is [Undef] at zero, a [StatusCode] made by
    [transmute] is [Undef] outside 100 to 999.  An [IndexMap] is the list of its
    entries in order. *)
From S2P Require Import Prelude LogManager.

(** ** The enumeration *)

Inductive Error : Type := | EUnspecified | EBadApiKey | EBadUserApiKey | ENotLoggedIn
| EInvalidAuthId | ENotHighEnoughPermissions | EAgentRequiresLogin | EBadModelName | ENotFound
| EDeprecated | EUserNotFound | EFreeUserRateLimitExceeded | EProUserRateLimitExceeded
| EFreeUserUsageLimit | EProUserUsageLimit | EResourceExhausted | EAuthTokenNotFound
| EAuthTokenExpired | EOpenai | EOpenaiRateLimitExceeded | EOpenaiAccountLimitExceeded
| ETaskUuidNotFound | ETaskNoPermissions | EAgentEngineNotFound | EMaxTokens | EProUserOnly
| EApiKeyNotSupported | EUserAbortedRequest | ETimeout | EGenericRateLimitExceeded
| ESlashEditFileTooLong | EFileUnsupported | EGpt4VisionPreviewRateLimit | ECustomMessage
| EOutdatedClient | EClaudeImageTooLarge | EGitgraphNotFound | EFileNotFound | EApiKeyRateLimit
| EDebounced | EBadRequest | ERepositoryServiceRepositoryIsNotInitialized | EUnauthorized
| EConversationTooLong | EUsagePricingRequired | EUsagePricingRequiredChangeable
| EGithubNoUserCredentials | EGithubUserNoAccess | EGithubAppNoAccess | EGithubMultipleOwners
| ERateLimited | ERateLimitedChangeable | ECustom | EHooksBlocked.
(** The discriminants of the generated enumeration. *)
Definition discriminant (e : Error) : Z :=
  match e with | EUnspecified => 0 | EBadApiKey => 1
  | EBadUserApiKey => 42 | ENotLoggedIn => 2 | EInvalidAuthId => 3 | ENotHighEnoughPermissions => 4
  | EAgentRequiresLogin => 18 | EBadModelName => 5 | ENotFound => 39 | EDeprecated => 40
  | EUserNotFound => 6 | EFreeUserRateLimitExceeded => 7 | EProUserRateLimitExceeded => 8
  | EFreeUserUsageLimit => 9 | EProUserUsageLimit => 10 | EResourceExhausted => 41
  | EAuthTokenNotFound => 11 | EAuthTokenExpired => 12 | EOpenai => 13
  | EOpenaiRateLimitExceeded => 14 | EOpenaiAccountLimitExceeded => 15 | ETaskUuidNotFound => 16
  | ETaskNoPermissions => 17 | EAgentEngineNotFound => 19 | EMaxTokens => 20 | EProUserOnly => 23
  | EApiKeyNotSupported => 24 | EUserAbortedRequest => 21 | ETimeout => 25
  | EGenericRateLimitExceeded => 22 | ESlashEditFileTooLong => 26 | EFileUnsupported => 27
  | EGpt4VisionPreviewRateLimit => 28 | ECustomMessage => 29 | EOutdatedClient => 30
  | EClaudeImageTooLarge => 31 | EGitgraphNotFound => 32 | EFileNotFound => 33
  | EApiKeyRateLimit => 34 | EDebounced => 35 | EBadRequest => 36
  | ERepositoryServiceRepositoryIsNotInitialized => 37 | EUnauthorized => 38
  | EConversationTooLong => 43 | EUsagePricingRequired => 44 | EUsagePricingRequiredChangeable => 45
  | EGithubNoUserCredentials => 46 | EGithubUserNoAccess => 47 | EGithubAppNoAccess => 48
  | EGithubMultipleOwners => 49 | ERateLimited => 50 | ERateLimitedChangeable => 51 | ECustom => 52
  | EHooksBlocked => 53
  end.
Definition ERRORS : list Error :=
  [ EUnspecified; EBadApiKey; EBadUserApiKey; ENotLoggedIn;
   EInvalidAuthId; ENotHighEnoughPermissions; EAgentRequiresLogin; EBadModelName; ENotFound;
   EDeprecated; EUserNotFound; EFreeUserRateLimitExceeded; EProUserRateLimitExceeded;
   EFreeUserUsageLimit; EProUserUsageLimit; EResourceExhausted; EAuthTokenNotFound;
   EAuthTokenExpired; EOpenai; EOpenaiRateLimitExceeded; EOpenaiAccountLimitExceeded;
   ETaskUuidNotFound; ETaskNoPermissions; EAgentEngineNotFound; EMaxTokens; EProUserOnly;
   EApiKeyNotSupported; EUserAbortedRequest; ETimeout; EGenericRateLimitExceeded;
   ESlashEditFileTooLong; EFileUnsupported; EGpt4VisionPreviewRateLimit; ECustomMessage;
   EOutdatedClient; EClaudeImageTooLarge; EGitgraphNotFound; EFileNotFound; EApiKeyRateLimit;
   EDebounced; EBadRequest; ERepositoryServiceRepositoryIsNotInitialized; EUnauthorized;
   EConversationTooLong; EUsagePricingRequired; EUsagePricingRequiredChangeable;
   EGithubNoUserCredentials; EGithubUserNoAccess; EGithubAppNoAccess; EGithubMultipleOwners;
   ERateLimited; ERateLimitedChangeable; ECustom; EHooksBlocked].

(** [Error::try_from(i32)]. *)
Definition error_try_from (n : Z) : option Error := snd <$> list_find (fun e => discriminant e = n) ERRORS.

Definition error_status (e : Error) : Z :=
  match e with
  | EBadModelName | ESlashEditFileTooLong | EFileUnsupported | EClaudeImageTooLarge | EBadRequest
  | EConversationTooLong => 400
  | EBadApiKey | EBadUserApiKey | EInvalidAuthId | EAuthTokenNotFound | EAuthTokenExpired
  | EUnauthorized | EGithubNoUserCredentials => 401
  | EUsagePricingRequired | EUsagePricingRequiredChangeable => 402
  | ENotLoggedIn | ENotHighEnoughPermissions | EAgentRequiresLogin | ETaskNoPermissions
  | EProUserOnly | EGithubUserNoAccess | EGithubAppNoAccess | EHooksBlocked => 403
  | ENotFound | EUserNotFound | ETaskUuidNotFound | EAgentEngineNotFound | EGitgraphNotFound
  | EFileNotFound => 404
  | EGithubMultipleOwners => 409
  | EDeprecated | EOutdatedClient => 410
  | EApiKeyNotSupported => 422
  | EFreeUserRateLimitExceeded | EProUserRateLimitExceeded | EOpenaiRateLimitExceeded
  | EOpenaiAccountLimitExceeded | EGenericRateLimitExceeded | EGpt4VisionPreviewRateLimit
  | EApiKeyRateLimit | ERateLimited | ERateLimitedChangeable => 429
  | EUserAbortedRequest => 499
  | EFreeUserUsageLimit | EProUserUsageLimit | EResourceExhausted | EMaxTokens => 503
  | ETimeout => 504
  | EUnspecified | EOpenai | ECustomMessage | EDebounced
  | ERepositoryServiceRepositoryIsNotInitialized | ECustom => 533
  end.
Definition status_code (error : Z) : Z :=
  match error_try_from error with Some e => error_status e | None => 500 end.

Definition error_name (e : Error) : string :=
  match e with
  | EUnspecified => "unspecified"
  | EBadApiKey => "bad_api_key"
  | EBadUserApiKey => "bad_user_api_key"
  | ENotLoggedIn => "not_logged_in"
  | EInvalidAuthId => "invalid_auth_id"
  | ENotHighEnoughPermissions => "not_high_enough_permissions"
  | EAgentRequiresLogin => "agent_requires_login"
  | EBadModelName => "bad_model_name"
  | ENotFound => "not_found"
  | EDeprecated => "deprecated"
  | EUserNotFound => "user_not_found"
  | EFreeUserRateLimitExceeded => "free_user_rate_limit_exceeded"
  | EProUserRateLimitExceeded => "pro_user_rate_limit_exceeded"
  | EFreeUserUsageLimit => "free_user_usage_limit"
  | EProUserUsageLimit => "pro_user_usage_limit"
  | EResourceExhausted => "resource_exhausted"
  | EAuthTokenNotFound => "auth_token_not_found"
  | EAuthTokenExpired => "auth_token_expired"
  | EOpenai => "openai"
  | EOpenaiRateLimitExceeded => "openai_rate_limit_exceeded"
  | EOpenaiAccountLimitExceeded => "openai_account_limit_exceeded"
  | ETaskUuidNotFound => "task_uuid_not_found"
  | ETaskNoPermissions => "task_no_permissions"
  | EAgentEngineNotFound => "agent_engine_not_found"
  | EMaxTokens => "max_tokens"
  | EProUserOnly => "pro_user_only"
  | EApiKeyNotSupported => "api_key_not_supported"
  | EUserAbortedRequest => "user_aborted_request"
  | ETimeout => "timeout"
  | EGenericRateLimitExceeded => "generic_rate_limit_exceeded"
  | ESlashEditFileTooLong => "slash_edit_file_too_long"
  | EFileUnsupported => "file_unsupported"
  | EGpt4VisionPreviewRateLimit => "gpt4_vision_preview_rate_limit"
  | ECustomMessage => "custom_message"
  | EOutdatedClient => "outdated_client"
  | EClaudeImageTooLarge => "claude_image_too_large"
  | EGitgraphNotFound => "gitgraph_not_found"
  | EFileNotFound => "file_not_found"
  | EApiKeyRateLimit => "api_key_rate_limit"
  | EDebounced => "debounced"
  | EBadRequest => "bad_request"
  | ERepositoryServiceRepositoryIsNotInitialized => "repository_service_repository_is_not_initialized"
  | EUnauthorized => "unauthorized"
  | EConversationTooLong => "conversation_too_long"
  | EUsagePricingRequired => "usage_pricing_required"
  | EUsagePricingRequiredChangeable => "usage_pricing_required_changeable"
  | EGithubNoUserCredentials => "github_no_user_credentials"
  | EGithubUserNoAccess => "github_user_no_access"
  | EGithubAppNoAccess => "github_app_no_access"
  | EGithubMultipleOwners => "github_multiple_owners"
  | ERateLimited => "rate_limited"
  | ERateLimitedChangeable => "rate_limited_changeable"
  | ECustom => "custom"
  | EHooksBlocked => "hooks_blocked"
  end.
Definition UNKNOWN : string := "unknown".
Definition error_type (error : Z) : string :=
  match error_try_from error with Some e => error_name e | None => UNKNOWN end.

Definition new_unchecked (code : Z) : outcome Z := if code =? 0 then Undef else Ret code.

(** ** Error details *)

Record CustomErrorDetails : Type := mkCustomDetails
  { ce_title : string; ce_detail : string; additional_info : list (string * string) }.
Record ErrorDetails : Type := mkErrorDetails { ed_error : Z; ed_details : option CustomErrorDetails }.

(** [IndexMap::insert] and [extend]. *)
Fixpoint index_insert (k v : string) (m : list (string * string)) : list (string * string) :=
  match m with
  | [] => [(k, v)]
  | (k', v') :: m => if String.eqb k' k then (k, v) :: m else (k', v') :: index_insert k v m
  end.
Definition index_extend (m rhs : list (string * string)) : list (string * string) :=
  fold_left (fun m p => index_insert p.1 p.2 m) rhs m.

Definition add_string (a b : string) : string := a +:+ "&" +:+ b.
Definition details_add (a rhs : CustomErrorDetails) : CustomErrorDetails :=
  mkCustomDetails (add_string (ce_title a) (ce_title rhs)) (add_string (ce_detail a) (ce_detail rhs))
    (index_extend (additional_info a) (additional_info rhs)).

(** ** The canonical form *)

Record CanonicalError : Type := mkCanonical
  { c_code : option string; c_details : option CustomErrorDetails; c_status_code : Z; c_type : string }.

Definition canonical_from (error : ErrorDetails) : outcome CanonicalError :=
  status ← new_unchecked (status_code (ed_error error));
  Ret (mkCanonical None (ed_details error) status (error_type (ed_error error))).
Definition canonical_unknown : outcome CanonicalError :=
  status ← new_unchecked 500; Ret (mkCanonical None None status UNKNOWN).
Definition with_code (code : string) (e : CanonicalError) : CanonicalError :=
  mkCanonical (Some code) (c_details e) (c_status_code e) (c_type e).

(** One turn of the loop of [sum]. *)
Definition sum_step (acc e : CanonicalError) : CanonicalError :=
  let newer := c_status_code acc <? c_status_code e in
  mkCanonical
    (match c_code e with
     | Some acode => Some (match c_code acc with Some code => code +:+ acode | None => acode end)
     | None => c_code acc
     end)
    (match c_details e with
     | Some adetails => Some (match c_details acc with Some details => details_add details adetails | None => adetails end)
     | None => c_details acc
     end)
    (if newer then c_status_code e else c_status_code acc)
    (if newer then c_type e else c_type acc).
Fixpoint sum_loop (acc : CanonicalError) (details : list ErrorDetails) : outcome CanonicalError :=
  match details with
  | [] => Ret acc
  | d :: details => e ← canonical_from d; sum_loop (sum_step acc e) details
  end.
Definition canonical_sum (details : list ErrorDetails) : outcome CanonicalError :=
  status ← new_unchecked 100; sum_loop (mkCanonical None None status UNKNOWN) details.

Record CursorError : Type := mkCursorError { cursor_code : string; cursor_details : list ErrorDetails }.
Definition canonical (error : CursorError) : outcome CanonicalError :=
  e ← match length (cursor_details error) with
      | 1%nat => d ← unchecked (head (cursor_details error)); canonical_from d
      | O => canonical_unknown
      | _ => canonical_sum (cursor_details error)
      end;
  Ret (with_code (cursor_code error) e).

(** [s.replace("_", " ")]. *)
Definition replace_underscores (s : string) : string :=
  from_bytes ((fun b => if b =? 95 then 32 else b) <$> as_bytes s).
Definition c_title (e : CanonicalError) : option string :=
  match c_details e with Some d => Some (ce_title d) | None => replace_underscores <$> c_code e end.
Definition c_detail (e : CanonicalError) : option string := ce_detail <$> c_details e.
Definition c_http_status (e : CanonicalError) : outcome Z :=
  if (100 <=? c_status_code e) && (c_status_code e <=? 999) then Ret (c_status_code e) else Undef.
Definition to_error_info (e : CanonicalError) : ErrorInfo :=
  error_new (default UNKNOWN (c_title e)) (c_detail e).

Record CppError : Type := mkCppError { pe_code : Z; pe_type : string; pe_details : option CustomErrorDetails }.
Definition cpp_error_from (e : CanonicalError) : CppError :=
  mkCppError (c_status_code e) (c_type e) (c_details e).

(** ** Lemmas *)

Lemma error_try_from_discriminant e : error_try_from (discriminant e) = Some e.
Proof. by destruct e. Qed.
Lemma error_try_from_Some n e : error_try_from n = Some e -> discriminant e = n.
Proof.
  unfold error_try_from. destruct (list_find _ ERRORS) as [[i e']|] eqn:E; [|done]. cbn. intros [= <-].
  by apply list_find_Some in E as (_ & ? & _).
Qed.
Lemma discriminant_inj e e' : discriminant e = discriminant e' -> e = e'.
Proof. intros H. apply (f_equal error_try_from) in H. rewrite !error_try_from_discriminant in H. by injection H. Qed.
#[export] Instance Error_eq_dec : EqDecision Error.
Proof.
  intros e e'. destruct (decide (discriminant e = discriminant e')) as [H|H].
  - left. by apply discriminant_inj.
  - right. by intros ->.
Defined.
Lemma all_errors e : e ∈ ERRORS.
Proof.
  pose proof (error_try_from_discriminant e) as H. unfold error_try_from in H.
  destruct (list_find _ ERRORS) as [[i e']|] eqn:E; [|done]. injection H as ->.
  apply list_find_Some in E as (E & _ & _). by eapply list_elem_of_lookup_2.
Qed.

(** Statuses are those of client and server errors. *)
Lemma error_status_range e : 400 <= error_status e <= 533.
Proof. destruct e; cbn; lia. Qed.
Lemma status_code_range n : 400 <= status_code n <= 533.
Proof. unfold status_code. destruct (error_try_from n); [apply error_status_range|lia]. Qed.

Lemma canonical_from_ok d :
  canonical_from d = Ret (mkCanonical None (ed_details d) (status_code (ed_error d)) (error_type (ed_error d))).
Proof.
  unfold canonical_from, new_unchecked. pose proof (status_code_range (ed_error d)).
  destruct (Z.eqb_spec (status_code (ed_error d)) 0); [lia|done].
Qed.

(** The specification of the sum: the details joined, the first greatest status. *)
Fixpoint joined (ds : list CustomErrorDetails) : option CustomErrorDetails :=
  match ds with
  | [] => None
  | d :: ds => Some (fold_left details_add ds d)
  end.
Fixpoint worst (d : ErrorDetails) (ds : list ErrorDetails) : ErrorDetails :=
  match ds with
  | [] => d
  | d' :: ds => worst (if status_code (ed_error d) <? status_code (ed_error d') then d' else d) ds
  end.

Lemma worst_greatest ds : forall d,
  (worst d ds = d \/ worst d ds ∈ ds) /\ forall d', d' ∈ d :: ds -> status_code (ed_error d') <= status_code (ed_error (worst d ds)).
Proof.
  induction ds as [|x ds IH]; intros d; cbn [worst].
  - split; [by left|]. intros d' H. apply list_elem_of_singleton in H. by subst.
  - destruct (IH (if status_code (ed_error d) <? status_code (ed_error x) then x else d)) as [Hin Hmax].
    split.
    + destruct Hin as [->|Hin]; [|right; by right]. destruct (_ <? _); [right; left|by left].
    + intros d' H. apply elem_of_cons in H as [->|H]; [|apply elem_of_cons in H as [->|H]; [|apply Hmax; by right]].
      * etrans; [|apply Hmax; left]. destruct (Z.ltb_spec (status_code (ed_error d)) (status_code (ed_error x))); lia.
      * etrans; [|apply Hmax; left]. destruct (Z.ltb_spec (status_code (ed_error d)) (status_code (ed_error x))); lia.
Qed.

Lemma sum_loop_ok ds : forall acc d,
  c_code acc = None -> c_status_code acc = status_code (ed_error d) -> c_type acc = error_type (ed_error d) ->
  sum_loop acc ds = Ret (mkCanonical None
    (match c_details acc with
     | Some a => Some (fold_left details_add (omap ed_details ds) a)
     | None => joined (omap ed_details ds)
     end)
    (status_code (ed_error (worst d ds))) (error_type (ed_error (worst d ds)))).
Proof.
  induction ds as [|x ds IH]; intros [code det st ty] d; cbn [c_code c_details c_status_code c_type]; intros -> -> ->;
    cbn [sum_loop worst].
  - cbn. by destruct det.
  - rewrite canonical_from_ok. cbn [mbind outcome_bind].
    rewrite (IH _ (if status_code (ed_error d) <? status_code (ed_error x) then x else d));
      unfold sum_step; cbn [c_code c_details c_status_code c_type]; try done;
      try (by destruct (_ <? _)).
    do 2 f_equal. cbn [omap list_omap]. by destruct (ed_details x), det.
Qed.

Lemma canonical_sum_ok d ds :
  canonical_sum (d :: ds) = Ret (mkCanonical None (joined (omap ed_details (d :: ds)))
    (status_code (ed_error (worst d ds))) (error_type (ed_error (worst d ds)))).
Proof.
  unfold canonical_sum. cbn [new_unchecked Z.eqb mbind outcome_bind sum_loop]. rewrite canonical_from_ok.
  cbn [mbind outcome_bind]. pose proof (status_code_range (ed_error d)).
  rewrite (sum_loop_ok ds _ d); unfold sum_step; cbn [c_code c_details c_status_code c_type]; try done;
    try (by destruct (Z.ltb_spec 100 (status_code (ed_error d))); [|lia]).
  do 2 f_equal. cbn [omap list_omap]. by destruct (ed_details d).
Qed.

Lemma canonical_total error : exists e, canonical error = Ret e.
Proof.
  destruct error as [code [|d [|d' ds]]]; unfold canonical; cbn [cursor_details length head unchecked mbind outcome_bind].
  - by eexists.
  - rewrite canonical_from_ok. by eexists.
  - rewrite canonical_sum_ok. by eexists.
Qed.
Lemma canonical_http error e : canonical error = Ret e -> c_http_status e = Ret (c_status_code e).
Proof.
  assert (S : forall n, (100 <=? status_code n) && (status_code n <=? 999) = true).
  { intros n. pose proof (status_code_range n). apply andb_true_iff. rewrite !Z.leb_le. lia. }
  destruct error as [code [|d [|d' ds]]]; unfold canonical; cbn [cursor_details length head unchecked mbind outcome_bind];
    rewrite ?canonical_from_ok, ?canonical_sum_ok; cbn; intros [= <-]; unfold c_http_status; cbn; by rewrite ?S.
Qed.

(** ** Properties *)

(** The error table: numbers and names identify the error, every number has a
    status of a client or server error, and a number outside the enumeration is an
    internal error of unknown type. *)
Theorem error_table :
  (forall n e, error_try_from n = Some e <-> discriminant e = n) /\
  (forall e e', error_name e = error_name e' -> e = e') /\
  (forall n, 400 <= status_code n <= 533) /\
  (forall n, (forall e, discriminant e <> n) -> status_code n = 500 /\ error_type n = UNKNOWN).
Proof.
  split_and!.
  - intros n e. split; [apply error_try_from_Some|]. intros <-. apply error_try_from_discriminant.
  - intros e e' H. assert (D : NoDup (error_name <$> ERRORS)) by by_decision.
    destruct (list_elem_of_lookup_1 _ _ (all_errors e)) as [i Hi]. destruct (list_elem_of_lookup_1 _ _ (all_errors e')) as [j Hj].
    assert (i = j) as ->; [|rewrite Hi in Hj; by injection Hj].
    eapply NoDup_lookup; [exact D|by rewrite list_lookup_fmap, Hi|]. rewrite list_lookup_fmap, Hj. cbn. by rewrite H.
  - apply status_code_range.
  - intros n Hn. unfold status_code, error_type. destruct (error_try_from n) as [e|] eqn:E; [|done].
    apply error_try_from_Some in E. by destruct (Hn e).
Qed.

Lemma error_table_witness : status_code 12 = 401 /\ error_try_from 12 = Some EAuthTokenExpired /\ status_code 77 = 500.
Proof.
  split; [reflexivity|]. split; [by apply (proj1 error_table)|].
  refine (proj1 (proj2 (proj2 (proj2 error_table)) 77 _)). intros e. by destruct e.
Defined.

(** An upstream error becomes canonical without undefined behaviour, whatever
    its details: none gives an unknown error of status 500, several are joined, with
    the greatest status among them and the type of the first detail that has it. *)
Theorem canonical_outcome code details :
  exists e, canonical (mkCursorError code details) = Ret e /\ c_code e = Some code /\
    c_http_status e = Ret (c_status_code e) /\
    match details with
    | [] => c_details e = None /\ c_status_code e = 500 /\ c_type e = UNKNOWN
    | d :: ds =>
        c_details e = joined (omap ed_details details) /\
        exists w, w ∈ details /\ c_status_code e = status_code (ed_error w) /\ c_type e = error_type (ed_error w) /\
          forall d', d' ∈ details -> status_code (ed_error d') <= c_status_code e
    end.
Proof.
  assert (S : forall n, (100 <=? status_code n) && (status_code n <=? 999) = true).
  { intros n. pose proof (status_code_range n). apply andb_true_iff. rewrite !Z.leb_le. lia. }
  destruct details as [|d [|d' ds]].
  - eexists. split; [reflexivity|]. done.
  - unfold canonical. cbn [cursor_details length head unchecked mbind outcome_bind cursor_code]. rewrite canonical_from_ok.
    eexists. split; [reflexivity|]. unfold with_code, c_http_status. cbn [c_code c_details c_status_code c_type].
    rewrite S. split_and!; [done|done|cbn; by destruct (ed_details d)|]. exists d. split; [left|]. split_and!; try done.
    intros d' H. apply list_elem_of_singleton in H. by subst.
  - unfold canonical. cbn [cursor_details length mbind outcome_bind cursor_code]. rewrite canonical_sum_ok.
    eexists. split; [reflexivity|]. unfold with_code, c_http_status. cbn [c_code c_details c_status_code c_type].
    rewrite S. split_and!; [done|done|done|]. destruct (worst_greatest (d' :: ds) d) as [Hin Hmax].
    exists (worst d (d' :: ds)). split_and!; try done. destruct Hin as [->|Hin]; [left|by right].
Qed.
