(* ===== verification/CompletionDecoder.v ===== *)
(** * The decoder of code completions

    [src/src/core/stream/decoder/cpp.rs] (the stream of a code completion, one
    protobuf message to several events), its client in
    [src/src/core/service/cpp.rs], and the decoder of single answers,
    [src/src/core/stream/decoder/direct.rs].

    The protobuf, JSON and gzip decoders are the parameters [decode_response],
    [cursor_error] and [gunzip]; so is the check for UTF-8 of prost. *)
From S2P Require Import Prelude GrpcStream UpstreamErrors.

(** ** Events *)

Record DebugInfo : Type := mkDebugInfo
  { model_input : option string; model_output : option string; stream_time : option string;
    total_time : option string; ttft_time : option string; server_timing : option string }.

Inductive StreamMessage : Type :=
| ModelInfo (is_fused_cursor_prediction_model is_multidiff_model : bool)
| BeginEdit
| RangeReplace (start_line_number end_line_number_inclusive : Z) (binding_id : option string)
    (should_remove_leading_eol : option bool)
| Text (text : string)
| CursorPrediction (relative_path : string) (line_number_one_indexed : Z) (expected_content : string)
    (should_retrigger_cpp : bool) (binding_id : option string)
| DoneEdit
| DoneStream
| Debug (info : DebugInfo)
| Error (error : CppError)
| StreamEnd.

Definition type_name (m : StreamMessage) : string :=
  match m with
  | ModelInfo _ _ => "model_info"
  | BeginEdit => "begin_edit"
  | RangeReplace _ _ _ _ => "range_replace"
  | Text _ => "text"
  | CursorPrediction _ _ _ _ _ => "cursor_prediction"
  | DoneEdit => "done_edit"
  | DoneStream => "done_stream"
  | Debug _ => "debug"
  | Error _ => "error"
  | StreamEnd => "stream_end"
  end.

(** The protobuf message, as far as the decoder reads it. *)
Record CursorTarget : Type := mkCursorTarget
  { ct_relative_path : string; ct_line : Z; ct_expected_content : string; ct_should_retrigger : bool }.
Record StreamCppResponse : Type := mkCppResponse
  { r_model_info : option (bool * bool); r_range_to_replace : option (Z * Z); r_text : string;
    r_cursor_prediction_target : option CursorTarget; r_binding_id : option string;
    r_should_remove_leading_eol : option bool;
    r_done_edit : option bool; r_begin_edit : option bool; r_done_stream : option bool;
    r_debug : DebugInfo }.

Definition is_some {A} (o : option A) : bool := match o with Some _ => true | None => false end.
Definition debug_present (d : DebugInfo) : bool :=
  is_some (model_input d) || is_some (model_output d) || is_some (stream_time d) ||
  is_some (total_time d) || is_some (ttft_time d) || is_some (server_timing d).

(** The events are pushed in this order. *)
Definition process_protobuf_message (events : list StreamMessage) (response : StreamCppResponse) : list StreamMessage :=
  let is_plain_text := true in
  let '(events, is_plain_text) :=
    match r_model_info response with
    | Some (fused, multidiff) => (events ++ [ModelInfo fused multidiff], false)
    | None => (events, is_plain_text)
    end in
  let '(events, is_plain_text) :=
    match r_range_to_replace response with
    | Some (first, last) =>
        (events ++ [RangeReplace first last (r_binding_id response) (r_should_remove_leading_eol response)], false)
    | None => (events, is_plain_text)
    end in
  let events :=
    if is_plain_text && negb (String.eqb (r_text response) EmptyString)
    then events ++ [Text (r_text response)] else events in
  let events :=
    match r_cursor_prediction_target response with
    | Some cursor =>
        events ++ [CursorPrediction (ct_relative_path cursor) (ct_line cursor) (ct_expected_content cursor)
                     (ct_should_retrigger cursor) (r_binding_id response)]
    | None => events
    end in
  let events := if default false (r_done_edit response) then events ++ [DoneEdit] else events in
  let events := if default false (r_begin_edit response) then events ++ [BeginEdit] else events in
  let events := if default false (r_done_stream response) then events ++ [DoneStream] else events in
  if debug_present (r_debug response) then events ++ [Debug (r_debug response)] else events.

(** ** The stream *)

Record CppDecoder : Type := mkCppDecoder { cpp_buffer : Buffer; empty_stream_count : Z }.
Definition cpp_decoder_new : CppDecoder := mkCppDecoder buffer_new 0.
Definition get_empty_stream_count (d : CppDecoder) : Z := empty_stream_count d.
Definition reset_empty_stream_count (d : CppDecoder) : CppDecoder :=
  if empty_stream_count d >? 0 then mkCppDecoder (cpp_buffer d) 0 else d.

Section Cpp.
Context (gunzip : bytes -> option bytes).
Context (decode_response : bytes -> option StreamCppResponse) (cursor_error : bytes -> option CursorError).

(** The body of the loop for a message that is not empty. *)
Definition cpp_message (events : list StreamMessage) (raw_msg : RawMessage) : outcome (list StreamMessage) :=
  let is_compressed := negb (Z.land (rm_type raw_msg) 1 =? 0) in
  let msg_type := Z.shiftr (rm_type raw_msg) 1 in
  data ← (if is_compressed then decompress_gzip gunzip (rm_data raw_msg) else Ret (Some (rm_data raw_msg)));
  match data with
  | None => Ret events
  | Some data =>
      if msg_type =? 0 then
        Ret (match decode_response data with
             | Some response => process_protobuf_message events response
             | None => events
             end)
      else if msg_type =? 1 then
        if (length data =? 2)%nat then Ret (events ++ [StreamEnd]) else
        match cursor_error data with
        | Some error => e ← canonical error; Ret (events ++ [Error (cpp_error_from e)])
        | None => Ret events
        end
      else Ret events
  end.

Fixpoint cpp_loop (fuel : nat) (it : MessageIter) (events : list StreamMessage)
    : outcome (list StreamMessage * MessageIter) :=
  match fuel with
  | O => Undef
  | S fuel =>
      '(item, it) ← next it;
      match item with
      | None => Ret (events, it)
      | Some raw_msg =>
          if (length (rm_data raw_msg) =? 0)%nat then cpp_loop fuel it events else
          events ← cpp_message events raw_msg;
          cpp_loop fuel it events
      end
  end.

Definition cpp_decode (d : CppDecoder) (data : bytes) : outcome (option (list StreamMessage) * CppDecoder) :=
  let empty := (length data =? 0)%nat in
  let b := if empty then cpp_buffer d else extend_from_slice (cpp_buffer d) data in
  if empty || (buffer_len b <? 5) then
    Ret (None, mkCppDecoder b (wrap 64 (empty_stream_count d + 1)))
  else
    let d := reset_empty_stream_count (mkCppDecoder b (empty_stream_count d)) in
    '(events, iter) ← cpp_loop (S (length (inner b))) (into_iter b) [];
    b ← buffer_advance b (mi_offset iter);
    Ret (Some events, mkCppDecoder b (empty_stream_count d)).

(** What the client is sent for one chunk: the events, or the message that the
    stream is empty. *)
Inductive Sent : Type := Event (m : StreamMessage) | EmptyStreamError.
Fixpoint serve_cpp (d : CppDecoder) (chunks : list bytes) : outcome (list Sent * CppDecoder) :=
  match chunks with
  | [] => Ret ([], d)
  | chunk :: chunks =>
      '(r, d) ← cpp_decode d chunk;
      let out :=
        match r with
        | Some messages => Event <$> messages
        | None => if get_empty_stream_count d >? 1 then [EmptyStreamError] else []
        end in
      '(rest, d) ← serve_cpp d chunks;
      Ret (out ++ rest, d)
  end.
End Cpp.

(** ** Single answers *)

Section Direct.
Context {T : Type} (gunzip : bytes -> option bytes) (message_decode : bytes -> option T).
Context (is_valid_utf8 : bytes -> bool).

Inductive DecodedMessage : Type := Protobuf (msg : T) | TextMessage (text : bytes).
Inductive DecoderError : Type := Internal (msg : string).

Definition string_from_utf8 (v : bytes) : option bytes := if is_valid_utf8 v then Some v else None.

(** The message or the text of some bytes. *)
Definition decode_bytes (data : bytes) : option DecodedMessage :=
  match message_decode data with
  | Some msg => Some (Protobuf msg)
  | None => TextMessage <$> string_from_utf8 data
  end.
Definition direct_decode (data : bytes) : outcome (result DecoderError DecodedMessage) :=
  let plain := Ret (match decode_bytes data with Some m => Ok m | None => Err (Internal "decode error") end) in
  match data with
  | b0 :: b1 :: b2 :: b3 :: b4 :: payload =>
      if b0 <=? 1 then
        let msg_len := be_value [b1; b2; b3; b4] in
        if zlen data =? 5 + msg_len then
          decompressed ← (if b0 =? 1 then decompress_gzip gunzip payload else Ret (Some payload));
          match decompressed with
          | None => Ret (Err (Internal "decompress error"))
          | Some decompressed =>
              match decode_bytes decompressed with Some m => Ret (Ok m) | None => plain end
          end
        else plain
      else plain
  | _ => plain
  end.
End Direct.

(** ** The events of a message, as a specification *)

Definition spec_events (r : StreamCppResponse) : list StreamMessage :=
  let plain := negb (is_some (r_model_info r)) && negb (is_some (r_range_to_replace r)) in
  (match r_model_info r with Some (f, m) => [ModelInfo f m] | None => [] end) ++
  (match r_range_to_replace r with
   | Some (first, last) => [RangeReplace first last (r_binding_id r) (r_should_remove_leading_eol r)]
   | None => [] end) ++
  (if plain && negb (String.eqb (r_text r) EmptyString) then [Text (r_text r)] else []) ++
  (match r_cursor_prediction_target r with
   | Some c => [CursorPrediction (ct_relative_path c) (ct_line c) (ct_expected_content c) (ct_should_retrigger c)
                  (r_binding_id r)]
   | None => [] end) ++
  (if default false (r_done_edit r) then [DoneEdit] else []) ++
  (if default false (r_begin_edit r) then [BeginEdit] else []) ++
  (if default false (r_done_stream r) then [DoneStream] else []) ++
  (if debug_present (r_debug r) then [Debug (r_debug r)] else []).

Lemma process_events events r : process_protobuf_message events r = events ++ spec_events r.
Proof.
  unfold process_protobuf_message, spec_events.
  destruct (r_model_info r) as [[f m]|], (r_range_to_replace r) as [[a b]|]; cbn [is_some negb andb];
    destruct (negb (String.eqb (r_text r) EmptyString)), (r_cursor_prediction_target r),
      (default false (r_done_edit r)), (default false (r_begin_edit r)), (default false (r_done_stream r)),
      (debug_present (r_debug r)); cbn [app]; rewrite <- ?(assoc_L (++)), ?(right_id_L [] (++)); reflexivity.
Qed.

Section Lemmas.
Context (gunzip : bytes -> option bytes).
Context (decode_response : bytes -> option StreamCppResponse) (cursor_error : bytes -> option CursorError).
Abbreviation cpp_message := (cpp_message gunzip decode_response cursor_error).
Abbreviation cpp_loop := (cpp_loop gunzip decode_response cursor_error).
Abbreviation cpp_decode := (cpp_decode gunzip decode_response cursor_error).
Abbreviation serve_cpp := (serve_cpp gunzip decode_response cursor_error).

(** A message never fails: it only adds events. *)
Lemma cpp_message_adds raw_msg : exists l, forall events, cpp_message events raw_msg = Ret (events ++ l).
Proof.
  unfold CompletionDecoder.cpp_message.
  assert (G : exists o, (if negb (Z.land (rm_type raw_msg) 1 =? 0) then decompress_gzip gunzip (rm_data raw_msg)
                         else Ret (Some (rm_data raw_msg))) = Ret o).
  { destruct (negb _); [rewrite decompress_gzip_spec|]; eauto. }
  destruct G as [o ->]. cbn [mbind outcome_bind]. destruct o as [data|]; [|exists []; intros; by rewrite app_nil_r].
  destruct (Z.shiftr (rm_type raw_msg) 1 =? 0).
  { destruct (decode_response data) as [r|]; [exists (spec_events r)|exists []]; intros events;
      [by rewrite process_events|by rewrite app_nil_r]. }
  destruct (Z.shiftr (rm_type raw_msg) 1 =? 1); [|exists []; intros; by rewrite app_nil_r].
  destruct (length data =? 2)%nat; [by exists [StreamEnd]|].
  destruct (cursor_error data) as [[code details]|]; [|exists []; intros; by rewrite app_nil_r].
  destruct (canonical_total (mkCursorError code details)) as [e ->]. cbn [mbind outcome_bind].
  by exists [Error (cpp_error_from e)].
Qed.

(** The events of a sequence of frames. *)
Definition message_events (raw_msg : RawMessage) : list StreamMessage :=
  if (length (rm_data raw_msg) =? 0)%nat then [] else
  match cpp_message [] raw_msg with Ret l => l | _ => [] end.
Definition frame_events (ms : list RawMessage) : list StreamMessage := List.concat (message_events <$> ms).

Lemma cpp_message_spec events raw_msg : (length (rm_data raw_msg) =? 0)%nat = false ->
  cpp_message events raw_msg = Ret (events ++ message_events raw_msg).
Proof.
  intros H. unfold message_events. rewrite H. destruct (cpp_message_adds raw_msg) as [l E]. by rewrite !E.
Qed.

Lemma cpp_loop_splits buf ms rest : splits buf ms rest -> forall pre events fuel,
  buf_ok (pre ++ buf) -> (length ms < fuel)%nat ->
  cpp_loop fuel (mkIter (pre ++ buf) (zlen pre)) events =
    Ret (events ++ frame_events ms, mkIter (pre ++ buf) (zlen (pre ++ buf) - zlen rest)).
Proof.
  induction 1 as [rest Hi|m buf ms rest Hm Hs IH]; intros pre events [|fuel] Hok Hf;
    cbn [length] in Hf; try lia; cbn [CompletionDecoder.cpp_loop].
  - rewrite next_incomplete by done. cbn. rewrite app_nil_r, zlen_app.
    by replace (zlen pre + zlen rest - zlen rest) with (zlen pre) by lia.
  - rewrite next_frame by (done || apply Hok). cbn [mbind outcome_bind].
    unfold frame_events. rewrite fmap_cons. cbn [List.concat]. fold (frame_events ms).
    rewrite (app_assoc pre) in *. destruct (length (rm_data m) =? 0)%nat eqn:E.
    + rewrite IH by (done || lia). unfold message_events. by rewrite E.
    + rewrite cpp_message_spec by done. cbn [mbind outcome_bind]. rewrite IH by (done || lia).
      by rewrite <- (assoc_L (++)).
Qed.

Lemma short_incomplete b ms rest : zlen b < 5 -> splits b ms rest -> ms = [] /\ rest = b.
Proof.
  intros Hb Hs. apply (splits_unique b); [done|]. constructor. by left.
Qed.

(** A chunk tells nothing when it is empty, or when with what waits for the rest of
    its frame it is shorter than the header of a frame. *)
Definition short (waiting chunk : bytes) : Prop := chunk = [] \/ zlen (waiting ++ chunk) < 5.
#[local] Instance short_decision waiting chunk : Decision (short waiting chunk) := ltac:(unfold short; apply _).

(** One chunk: the events of the frames it completes, or nothing if it is short. *)
Lemma cpp_decode_spec d data ms rest :
  incomplete (inner (cpp_buffer d)) -> 0 <= empty_stream_count d ->
  buf_ok (inner (cpp_buffer d) ++ data) -> splits (inner (cpp_buffer d) ++ data) ms rest ->
  if decide (short (inner (cpp_buffer d)) data)
  then ms = [] /\ rest = inner (cpp_buffer d) ++ data /\
       cpp_decode d data = Ret (None, mkCppDecoder (mkBuffer rest) (wrap 64 (empty_stream_count d + 1)))
  else cpp_decode d data = Ret (Some (frame_events ms), mkCppDecoder (mkBuffer rest) 0).
Proof.
  intros Hi Hn Hok Hs. unfold CompletionDecoder.cpp_decode.
  destruct d as [[buf] n]. cbn [inner cpp_buffer empty_stream_count] in *.
  destruct (Nat.eqb_spec (length data) 0) as [Hd|Hd]; cbn [orb].
  - apply nil_length_inv in Hd as ->. rewrite decide_True by (by left). rewrite app_nil_r in *.
    by destruct (splits_unique _ _ _ _ _ Hs (splits_done _ Hi)) as [-> ->].
  - unfold extend_from_slice, buffer_len. cbn [inner]. set (b := buf ++ data) in *.
    destruct (Z.ltb_spec (zlen b) 5) as [Hb|Hb].
    { rewrite decide_True by (by right). by destruct (short_incomplete b ms rest Hb Hs) as [-> ->]. }
    rewrite decide_False by (unfold short; fold b; intros [E|?]; [by rewrite E in Hd|lia]).
    unfold into_iter. cbn [inner reset_empty_stream_count empty_stream_count cpp_buffer].
    change (mkIter b 0) with (mkIter ([] ++ b) (zlen (@nil Z))).
    rewrite (cpp_loop_splits b ms rest Hs []) by (done || by eapply length_fuel).
    cbn [mbind outcome_bind app mi_offset]. unfold buffer_advance. cbn [inner].
    pose proof (splits_concat _ _ _ Hs) as Eb. rewrite Eb. set (body := List.concat _).
    pose proof (zlen_nonneg rest). pose proof (zlen_nonneg body). rewrite zlen_app.
    rewrite (proj2 (Z.leb_le _ _)) by lia. cbn [mbind outcome_bind].
    replace (Z.to_nat (zlen body + zlen rest - zlen rest)) with (length body) by (unfold zlen; lia).
    rewrite drop_app_length. unfold reset_empty_stream_count. cbn [empty_stream_count cpp_buffer].
    destruct (Z.gtb_spec n 0); cbn [empty_stream_count]; repeat f_equal. lia.
Qed.

(** What is told for a sequence of chunks: of each chunk the events of the frames
    that it completes; of a short chunk nothing, but right after another short one
    the message that the stream is empty. *)
Inductive Told : bytes -> bool -> list bytes -> list Sent -> bytes -> Prop :=
| told_end waiting silent : Told waiting silent [] [] waiting
| told_short waiting (silent : bool) chunk chunks out rest :
    short waiting chunk -> Told (waiting ++ chunk) true chunks out rest ->
    Told waiting silent (chunk :: chunks) ((if silent then [EmptyStreamError] else []) ++ out) rest
| told_frames waiting silent chunk chunks ms r out rest :
    ~ short waiting chunk -> splits (waiting ++ chunk) ms r -> Told r false chunks out rest ->
    Told waiting silent (chunk :: chunks) ((Event <$> frame_events ms) ++ out) rest.

Definition event_of (s : Sent) : option StreamMessage := match s with Event m => Some m | EmptyStreamError => None end.

Lemma omap_event (l : list StreamMessage) : omap event_of (Event <$> l) = l.
Proof. induction l as [|m l IH]; [done|]. cbn. by f_equal. Qed.

Lemma frame_events_app ms ms' : frame_events (ms ++ ms') = frame_events ms ++ frame_events ms'.
Proof. unfold frame_events. by rewrite fmap_app, concat_app. Qed.

(** The events told are those of the frames, and if no chunk is shorter than a
    header nothing else is told. *)
Lemma told_events waiting silent chunks out rest' :
  Told waiting silent chunks out rest' -> forall ms rest, incomplete waiting ->
  buf_ok (waiting ++ List.concat chunks) -> splits (waiting ++ List.concat chunks) ms rest ->
  omap event_of out = frame_events ms /\ rest' = rest /\
  (Forall (fun c => 5 <= zlen c) chunks -> out = Event <$> frame_events ms).
Proof.
  induction 1 as [waiting silent|waiting silent chunk chunks out rest' Hc _ IH|waiting silent chunk chunks ms1 r out rest' Hc Hs1 _ IH];
    intros ms rest Hi Hok Hs; cbn [List.concat] in *.
  - rewrite app_nil_r in *. by destruct (splits_unique _ _ _ _ _ Hs (splits_done _ Hi)) as [-> ->].
  - rewrite (assoc_L (++)) in Hok, Hs. destruct (IH ms rest) as (IHe & IHr & _); [|done..|].
    { destruct Hc as [->|Hc]; [by rewrite app_nil_r|by left]. }
    rewrite omap_app, IHe. split_and!; [by destruct silent|done|]. intros H%Forall_inv.
    pose proof (zlen_nonneg waiting). destruct Hc as [->|Hc]; [by cbn in H|rewrite zlen_app in Hc; lia].
  - destruct (splits_chunk _ _ _ _ _ Hok Hs) as (ms1' & r1 & ms2 & -> & Hs1' & Hs2 & Hok1 & Hok2).
    destruct (splits_unique _ _ _ _ _ Hs1 Hs1') as [<- <-].
    destruct (IH ms2 rest (splits_rest _ _ _ Hs1) Hok2 Hs2) as (IHe & IHr & IHf).
    rewrite omap_app, IHe, omap_event, frame_events_app. split_and!; [done|done|].
    intros [_ H]%Forall_cons. by rewrite fmap_app, IHf.
Qed.

Lemma serve_cpp_spec chunks : forall d ms rest,
  incomplete (inner (cpp_buffer d)) -> 0 <= empty_stream_count d ->
  empty_stream_count d + zlen chunks < 2 ^ 64 ->
  buf_ok (inner (cpp_buffer d) ++ List.concat chunks) ->
  splits (inner (cpp_buffer d) ++ List.concat chunks) ms rest ->
  exists out d', serve_cpp d chunks = Ret (out, d') /\ inner (cpp_buffer d') = rest /\
    Told (inner (cpp_buffer d)) (0 <? empty_stream_count d) chunks out rest.
Proof.
  induction chunks as [|c chunks IH]; intros d ms rest Hi Hn Hl Hok Hs; cbn [List.concat CompletionDecoder.serve_cpp] in *.
  - rewrite app_nil_r in *. destruct (splits_unique _ _ _ _ _ Hs (splits_done _ Hi)) as [-> ->].
    exists [], d. split_and!; [done..|constructor].
  - destruct (splits_chunk _ _ _ _ _ Hok Hs) as (ms1 & r1 & ms2 & -> & Hs1 & Hs2 & Hok1 & Hok2).
    pose proof (cpp_decode_spec d c ms1 r1 Hi Hn Hok1 Hs1) as Hd.
    change (zlen (c :: chunks)) with (zlen ([c] ++ chunks)) in Hl. rewrite zlen_app in Hl. change (zlen [c]) with 1 in Hl. pose proof (zlen_nonneg chunks). case_decide as Hc.
    + destruct Hd as (-> & -> & ->). cbn [mbind outcome_bind].
      unfold wrap. rewrite Z.mod_small by lia. set (n := empty_stream_count d) in *.
      destruct (IH (mkCppDecoder (mkBuffer (inner (cpp_buffer d) ++ c)) (n + 1)) ms2 rest) as (out & d' & -> & Hd' & Ho);
        cbn [cpp_buffer inner empty_stream_count] in *; [by eapply splits_rest|lia|lia|done..|].
      cbn [mbind outcome_bind]. eexists _, d'. split_and!; [reflexivity|done|].
      unfold get_empty_stream_count. cbn [empty_stream_count].
      replace (n + 1 >? 1) with (0 <? n) by (destruct (Z.ltb_spec 0 n), (Z.gtb_spec (n + 1) 1); lia || done).
      constructor; [done|]. by rewrite (proj2 (Z.ltb_lt 0 (n + 1))) in Ho by lia.
    + rewrite Hd. cbn [mbind outcome_bind].
      destruct (IH (mkCppDecoder (mkBuffer r1) 0) ms2 rest) as (out & d' & -> & Hd' & Ho);
        cbn [cpp_buffer inner empty_stream_count] in *; [by eapply splits_rest|lia|lia|done..|].
      cbn [mbind outcome_bind]. eexists _, d'. split_and!; [reflexivity|done|]. by econstructor.
Qed.

(** From a new decoder. *)
Lemma serve_cpp_new chunks ms rest :
  zlen chunks < 2 ^ 64 -> buf_ok (List.concat chunks) -> splits (List.concat chunks) ms rest ->
  exists out d', serve_cpp cpp_decoder_new chunks = Ret (out, d') /\ inner (cpp_buffer d') = rest /\
    Told [] false chunks out rest /\ omap event_of out = frame_events ms /\
    (Forall (fun c => 5 <= zlen c) chunks -> out = Event <$> frame_events ms).
Proof.
  intros Hl Hok Hs. destruct (serve_cpp_spec chunks cpp_decoder_new ms rest) as (out & d' & E & Hd & Ho);
    [apply incomplete_nil|by cbn|done..|].
  destruct (told_events _ _ _ _ _ Ho ms rest incomplete_nil Hok Hs) as (He & _ & Hf). eauto 10.
Qed.
End Lemmas.

(** ** Properties *)

(** The completion stream is decoded without undefined behaviour and without a
    panic, whatever the bytes, and the events sent do not depend on how the network
    cuts the stream: they are those of the whole frames in order.  Only the message
    that the stream is empty depends on it: a frame header that arrives in small
    pieces is reported as an error. *)
Theorem completion_any_chunking gunzip decode_response cursor_error stream :
  buf_ok stream ->
  (exists ms rest, splits stream ms rest /\
    forall chunks, List.concat chunks = stream -> zlen chunks < 2 ^ 64 ->
      exists out d, serve_cpp gunzip decode_response cursor_error cpp_decoder_new chunks = Ret (out, d) /\
        omap event_of out = frame_events gunzip decode_response cursor_error ms /\
        inner (cpp_buffer d) = rest) /\
  (exists d, serve_cpp gunzip decode_response cursor_error cpp_decoder_new [[0]; [0]; [0; 0; 0]] =
     Ret ([EmptyStreamError], d)).
Proof.
  intros Hok. split.
  - destruct (splits_total _ (proj1 Hok)) as (ms & rest & Hs). exists ms, rest. split; [done|]. intros chunks <- Hl.
    destruct (serve_cpp_new gunzip decode_response cursor_error chunks ms rest) as (out & d & ? & ? & _ & ? & _); eauto.
  - eexists. vm_compute. reflexivity.
Qed.

Definition text_response (bs : bytes) : option StreamCppResponse :=
  Some (mkCppResponse None None (from_bytes bs) None None None (Some true) None None
          (mkDebugInfo None None None None None None)).

Lemma completion_any_chunking_witness :
  exists out d, serve_cpp (fun _ => None) text_response (fun _ => None) cpp_decoder_new
      [[0; 0; 0; 0]; [1; 97; 2; 0]; [0; 0; 2; 123; 125]] = Ret (out, d) /\
    omap event_of out = [Text "a"; DoneEdit; StreamEnd].
Proof.
  destruct (proj1 (completion_any_chunking (fun _ => None) text_response (fun _ => None)
      [0; 0; 0; 0; 1; 97; 2; 0; 0; 0; 2; 123; 125] ltac:(split; [by_decision|vm_compute; reflexivity])))
    as (ms & rest & Hs & H).
  destruct (splits_unique _ _ _ _ _ Hs (splits_frames [mkRawMessage 0 [97]; mkRawMessage 2 [123; 125]] ltac:(by_decision)))
    as [-> ->].
  destruct (H [[0; 0; 0; 0]; [1; 97; 2; 0]; [0; 0; 2; 123; 125]] eq_refl eq_refl) as (out & d & E & Eo & _).
  exists out, d. split; [exact E|]. rewrite Eo. vm_compute. reflexivity.
Defined.
