(* ===== verification/Auth.v ===== *)
(** * Authentication and configured keys

    [src/src/core/auth] (which bundle of tokens a request is served with, its
    middlewares and errors), [src/src/core/config.rs] with [config/key.rs] (dynamic
    keys and the settings they carry), the conversions of
    [src/src/common/utils.rs], the handler [handle_build_key] of
    [src/src/core/route/token.rs] and what the chat services of
    [src/src/core/service.rs] take from an authenticated request.

    Header values are byte strings: [HeaderValue::to_str] is [header_to_str].  The
    CBOR codec of a configured key is generated by the minicbor derive, SHA-256 and
    the parser of time zone names are libraries: they are parameters.  The heads of
    the selection queues and the pool of tokens are threaded. *)
From S2P Require Import Prelude Strings Base64 Hex TokenKey Profile RawToken TokenInfo TokenQueue.
From S2P Require Import TokenManager Settings LogManager.

(** ** Errors *)

Inductive AuthError : Type := Unauthorized | NoAvailableTokens | AliasNotFound.

Definition status_code (e : AuthError) : Z :=
  match e with Unauthorized => 401 | NoAvailableTokens => 503 | AliasNotFound => 404 end.
Definition error_type (e : AuthError) : string :=
  match e with
  | Unauthorized => "unauthorized" | NoAvailableTokens => "no_available_tokens" | AliasNotFound => "alias_not_found"
  end.
Definition auth_message (e : AuthError) : string :=
  match e with
  | Unauthorized => "Invalid authorization token" | NoAvailableTokens => "No available tokens in queue"
  | AliasNotFound => "Token alias not found"
  end.

(** The three bodies: of the administration, OpenAI and Anthropic interfaces. *)
Inductive ErrorBody : Type :=
| GenericBody (code : option Z) (error message : string)
| OpenAiBody (code : option string) (message : string)
| AnthropicBody (type message : string).

Definition into_generic (e : AuthError) : ErrorBody := GenericBody None (error_type e) (auth_message e).
Definition into_openai (e : AuthError) : ErrorBody := OpenAiBody (Some (error_type e)) (auth_message e).
Definition into_anthropic (e : AuthError) : ErrorBody := AnthropicBody (error_type e) (auth_message e).
Definition into_generic_tuple (e : AuthError) : Z * ErrorBody := (status_code e, into_generic e).
Definition into_openai_tuple (e : AuthError) : Z * ErrorBody := (status_code e, into_openai e).
Definition into_anthropic_tuple (e : AuthError) : Z * ErrorBody := (status_code e, into_anthropic e).
Definition into_response (e : AuthError) : Z * ErrorBody := (status_code e, into_generic e).

Abbreviation TokenBundle := (ExtToken * bool)%type (only parsing).
Abbreviation TokenBundleResult := (result AuthError (ExtToken * bool)) (only parsing).

(** ** Headers *)

(** A header map, by lower-case name: the first value of each. *)
Definition HeaderMap : Type := string -> option bytes.
Definition API_KEY : string := "x-api-key".
Definition AUTHORIZATION : string := "authorization".
Definition STAINLESS_ARCH : string := "x-stainless-arch".
Definition STAINLESS_OS : string := "x-stainless-os".

Definition visible (b : Z) : bool := (32 <=? b) && (b <? 127) || (b =? 9).
Definition header_to_str (v : bytes) : option bytes := if forallb visible v then Some v else None.

Definition auth (headers : HeaderMap) : option bytes :=
  match headers API_KEY ≫= header_to_str with
  | Some s => Some s
  | None =>
      match headers AUTHORIZATION ≫= header_to_str with
      | Some s => strip_prefix AUTHORIZATION_BEARER_PREFIX s
      | None => None
      end
  end.

Record EnvironmentInfo : Type := mkEnvironmentInfo
  { exthost_platform : option bytes; exthost_arch : option bytes; local_timestamp : bytes; cursor_version : bytes }.

(** The time of the request, printed, and the version sent upstream are given. *)
Definition get_environment_info (headers : HeaderMap) (request_time cursor_version : bytes) : EnvironmentInfo :=
  mkEnvironmentInfo
    ((fun b => if eq_str b "MacOS" then as_bytes "darwin" else if eq_str b "Windows" then as_bytes "win32"
               else if eq_str b "Linux" then as_bytes "linux" else b)
       <$> (headers STAINLESS_OS ≫= header_to_str))
    (headers STAINLESS_ARCH ≫= header_to_str) request_time cursor_version.

(** ** Configured keys *)

(** [configured_key::token_info::Token] and [configured_key::TokenInfo]. *)
Record KeyToken : Type := mkKeyToken
  { kt_provider : string; kt_sub_id : bytes; kt_randomness : bytes; kt_start : Z; kt_end : Z;
    kt_signature : bytes; kt_is_session : bool }.
Record KeyTokenInfo : Type := mkKeyTokenInfo
  { ki_token : KeyToken; ki_checksum : bytes; ki_client_key : bytes; ki_config_version : option bytes;
    ki_session_id : bytes; ki_proxy_name : option string; ki_timezone : option string; ki_gcpp_host : option Z }.
Record ConfiguredKey : Type := mkConfiguredKey
  { token_info : option KeyTokenInfo; secret : option bytes; disable_vision : option bool;
    enable_slow_pool : option bool; include_web_references : option bool;
    usage_check_models : option UsageCheckModel }.

(** The settings a request carries. *)
Record KeyConfig : Type := mkKeyConfig
  { c_usage_check_models : option UsageCheckModel; c_disable_vision : option bool;
    c_enable_slow_pool : option bool; c_include_web_references : option bool }.
Definition keyconfig_new : KeyConfig := mkKeyConfig None None None None.

(** [if src.is_some() { dst = src.take() }]: the destination and the source after it. *)
Definition move_some {A} (src dst : option A) : option A * option A :=
  match src with Some _ => (src, None) | None => (dst, src) end.
Definition move_without_auth_token (k : ConfiguredKey) (config : KeyConfig) : ConfiguredKey * KeyConfig :=
  let '(u, ku) := move_some (usage_check_models k) (c_usage_check_models config) in
  let '(v, kv) := move_some (disable_vision k) (c_disable_vision config) in
  let '(s, ks) := move_some (enable_slow_pool k) (c_enable_slow_pool config) in
  let '(w, kw) := move_some (include_web_references k) (c_include_web_references config) in
  (mkConfiguredKey (token_info k) (secret k) kv ks kw ku, mkKeyConfig u v s w).

Definition with_global (g : AppConfig) (c : KeyConfig) : KeyConfig :=
  let on {A} (o : option A) (v : A) := match o with Some _ => Some v | None => None end in
  mkKeyConfig (c_usage_check_models c) (on (c_disable_vision c) (vision_is_none (vision_ability g)))
    (on (c_enable_slow_pool c) (slow_pool g)) (on (c_include_web_references c) (web_refs g)).

Definition from_raw (r : RawToken) : KeyToken :=
  mkKeyToken (provider (subject r)) (uid_to_bytes (sub_id (subject r))) (rand_to_bytes (raw_randomness r))
    (d_start (duration r)) (d_end (duration r)) (signature r) (is_session r).
Definition into_raw (providers : list string) (t : KeyToken) : option RawToken :=
  p ← to_option (provider_from_str providers (kt_provider t));
  Some (mkRawToken (mkSubject p (uid_from_bytes (kt_sub_id t))) (kt_signature t)
          (mkDuration (kt_start t) (kt_end t)) (rand_from_bytes (kt_randomness t)) (kt_is_session t)).

(** A [uuid::Uuid] is its 128-bit number. *)
Definition uuid_into_bytes (u : Z) : bytes := be_bytes 16 u.
Definition uuid_from_slice (bs : bytes) : option Z := if (length bs =? 16)%nat then Some (be_value bs) else None.

Definition token_to_tokeninfo (token : RawToken) (checksum : Checksum) (client_key : Hash)
    (config_version : option Z) (session_id : Z) (proxy_name timezone : option string)
    (gcpp_host : option GcppHost) : KeyTokenInfo :=
  mkKeyTokenInfo (from_raw token) (checksum_into_bytes checksum) client_key (uuid_into_bytes <$> config_version)
    (uuid_into_bytes session_id) proxy_name timezone (gcpp_as_u8 <$> gcpp_host).

Section keys.
Context (providers : list string) (tz_parse : string -> option string) (raw_to_string : RawToken -> string).
Context (cbor_encode : ConfiguredKey -> bytes) (cbor_decode : bytes -> option ConfiguredKey).
Context (sha256 : bytes -> bytes) (KEY_PREFIX AUTH_TOKEN : bytes).

(** The pool changes when a new token is made. *)
Definition tokeninfo_to_token (info : KeyTokenInfo) (pool : TokenPool) : option (ExtToken * TokenPool) :=
  session_id ← uuid_from_slice (ki_session_id info);
  r ← into_raw providers (ki_token info);
  let '(token, pool) := token_new raw_to_string r None pool in
  Some (mkExtToken token None (checksum_from_bytes (ki_checksum info)) (ki_client_key info)
          (ki_config_version info ≫= uuid_from_slice) session_id (ki_proxy_name info)
          (ki_timezone info ≫= tz_parse) (ki_gcpp_host info ≫= gcpp_from_u8), pool).

Definition parse_dynamic_token (auth_token : bytes) : outcome (option ConfiguredKey) :=
  match strip_prefix KEY_PREFIX auth_token with
  | None => Ret None
  | Some text => decoded ← from_base64 (from_bytes text); Ret (decoded ≫= cbor_decode)
  end.

(** ** Building a key *)

(** The settings of the request for a model check, from its two fields. *)
Definition usage_config (find_id : bytes -> option bytes) (model_type : UsageCheckModelType) (model_ids : bytes)
    : UsageCheckModel :=
  mkUsageCheckModel model_type
    (match model_ids with [] => [] | _ => omap (fun model => find_id (trim model)) (split_on 44 model_ids) end).

Record BuildKeyRequest : Type := mkBuildKeyRequest
  { b_token : RawToken; b_checksum : Checksum; b_client_key : Hash; b_config_version : option Z;
    b_session_id : Z; b_secret : option bytes; b_proxy_name : option string; b_timezone : option string;
    b_gcpp_host : option GcppHost; b_disable_vision : option bool; b_enable_slow_pool : option bool;
    b_include_web_references : option bool; b_usage_check_models : option UsageCheckModel }.
Inductive BuildKeyResponse : Type := Keys (key key1 key2 : string) | BuildError (message : string).

Definition ERROR_UNAUTHORIZED : string := "Unauthorized".

Definition build_config (q : BuildKeyRequest) : ConfiguredKey :=
  mkConfiguredKey
    (Some (token_to_tokeninfo (b_token q) (b_checksum q) (b_client_key q) (b_config_version q) (b_session_id q)
             (b_proxy_name q) (b_timezone q) (b_gcpp_host q)))
    (sha256 <$> b_secret q) (b_disable_vision q) (b_enable_slow_pool q) (b_include_web_references q)
    ((fun u => mkUsageCheckModel (um_type u) (match um_type u with TCustom => um_model_ids u | _ => [] end))
       <$> b_usage_check_models q).

Definition handle_build_key (g : Globals) (headers : HeaderMap) (q : BuildKeyRequest) : Z * BuildKeyResponse :=
  let auth_header := bearer (headers AUTHORIZATION ≫= header_to_str) in
  let refused := match auth_header with
                 | None => true
                 | Some h => negb (share_token_eq h g) && negb (bool_decide (h = AUTH_TOKEN))
                 end in
  if is_share g && refused then (401, BuildError ERROR_UNAUTHORIZED)
  else
    let token_key := raw_key (b_token q) in
    let key := from_bytes KEY_PREFIX +:+ to_base64 (cbor_encode (build_config q)) in
    (200, Keys key (key_to_string token_key) (key_to_string2 token_key)).

(** ** Which tokens serve a request *)

Section bundle.
Context (now_secs : Z) (g : Globals) (m : TokenManager) (logs : LogManager).

Definition select_bundle (qt : QueueType) (heads : list nat) : outcome (TokenBundleResult * list nat) :=
  r ← select now_secs m heads qt;
  let '(token, heads) := r in
  Ret (match token with Some b => Ok (b, true) | None => Err NoAvailableTokens end, heads).

(** [part]: what follows the administrator's token. *)
Definition admin_bundle (part : bytes) (privileged_queue : QueueType) (heads : list nat)
    : outcome (TokenBundleResult * list nat) :=
  match part with
  | [] => select_bundle privileged_queue heads
  | _ =>
      match strip_prefix (as_bytes "-") part with
      | Some alias =>
          let alias := from_bytes alias in
          if negb (bool_decide (is_Some (alias_map m !! alias))) then Ret (Err AliasNotFound, heads)
          else
            t ← get_by_alias m alias;
            Ret (match t with Some t => Ok (ext_clone (bundle t), true) | None => Err Unauthorized end, heads)
      | None => Ret (Err Unauthorized, heads)
      end
  end.

Definition token_of_key (k : ConfiguredKey) (pool : TokenPool) : TokenBundleResult * TokenPool :=
  match token_info k ≫= (fun info => tokeninfo_to_token info pool) with
  | Some (t, pool) => (Ok (t, false), pool)
  | None => (Err Unauthorized, pool)
  end.

Definition get_token_bundle (auth_token : bytes) (privileged_queue normal_queue : QueueType)
    (key_config : option KeyConfig) (heads : list nat) (pool : TokenPool)
    : outcome (TokenBundleResult * option KeyConfig * list nat * TokenPool) :=
  match strip_prefix AUTH_TOKEN auth_token with
  | Some part =>
      r ← admin_bundle part privileged_queue heads;
      Ret (r.1, key_config, r.2, pool)
  | None =>
      if is_share g && share_token_eq auth_token g then
        r ← select_bundle normal_queue heads;
        Ret (r.1, key_config, r.2, pool)
      else
        key ← key_from_string (from_bytes auth_token);
        match key with
        | Some key =>
            Ret (match get_token key logs with Some b => Ok (b, false) | None => Err Unauthorized end,
                 key_config, heads, pool)
        | None =>
            if dynamic_key (config g) then
              parsed ← parse_dynamic_token auth_token;
              match parsed with
              | Some parsed_config =>
                  let '(parsed_config, key_config) :=
                    match key_config with
                    | Some c => let '(k, c) := move_without_auth_token parsed_config c in (k, Some (with_global (config g) c))
                    | None => (parsed_config, None)
                    end in
                  let '(r, pool) := token_of_key parsed_config pool in
                  Ret (r, key_config, heads, pool)
              | None => Ret (Err Unauthorized, key_config, heads, pool)
              end
            else Ret (Err Unauthorized, key_config, heads, pool)
        end
  end.

(** *** The list of models, which has its own copy of the search *)

Definition models_admin (part : bytes) (heads : list nat) : outcome (TokenBundleResult * list nat) :=
  match part with
  | [] =>
      r ← select now_secs m heads PrivilegedFree;
      Ret (match r.1 with Some b => Ok (b, true) | None => Err NoAvailableTokens end, r.2)
  | _ =>
      match strip_prefix (as_bytes "-") part with
      | Some alias =>
          if bool_decide (is_Some (alias_map m !! from_bytes alias)) then
            t ← get_by_alias m (from_bytes alias);
            Ret (match t with Some t => Ok (ext_clone (bundle t), true) | None => Err Unauthorized end, heads)
          else Ret (Err AliasNotFound, heads)
      | None => Ret (Err Unauthorized, heads)
      end
  end.
Definition models_bundle (auth_token : bytes) (heads : list nat) (pool : TokenPool)
    : outcome (TokenBundleResult * list nat * TokenPool) :=
  match strip_prefix AUTH_TOKEN auth_token with
  | Some part => r ← models_admin part heads; Ret (r.1, r.2, pool)
  | None =>
      if is_share g && share_token_eq auth_token g then
        r ← select now_secs m heads NormalFree;
        Ret (match r.1 with Some b => Ok (b, true) | None => Err NoAvailableTokens end, r.2, pool)
      else
        key ← key_from_string (from_bytes auth_token);
        match key with
        | Some key =>
            Ret (match get_token key logs with Some b => Ok (b, false) | None => Err Unauthorized end, heads, pool)
        | None =>
            if dynamic_key (config g) then
              parsed ← parse_dynamic_token auth_token;
              match parsed with
              | Some parsed_config =>
                  match token_info parsed_config with
                  | Some info =>
                      match tokeninfo_to_token info pool with
                      | Some (t, pool) => Ret (Ok (t, false), heads, pool)
                      | None => Ret (Err Unauthorized, heads, pool)
                      end
                  | None => Ret (Err Unauthorized, heads, pool)
                  end
              | None => Ret (Err Unauthorized, heads, pool)
              end
            else Ret (Err Unauthorized, heads, pool)
        end
  end.

(** ** Middlewares *)

(** What a middleware leaves in the extensions of the request, by type. *)
Record Extensions : Type := mkExtensions
  { x_result : option TokenBundleResult; x_bundle : option TokenBundle; x_config : option KeyConfig;
    x_request_time : option bytes; x_environment_info : option EnvironmentInfo }.
Definition no_extensions : Extensions := mkExtensions None None None None None.

(** A middleware answers by itself or runs the handler. *)
Inductive Passed : Type := Respond (status : Z) (body : ErrorBody) | Next (x : Extensions).
Definition respond (e : AuthError) : Passed := Respond (into_response e).1 (into_response e).2.

Definition admin_auth_middleware (headers : HeaderMap) (x : Extensions) : Passed :=
  match bearer (headers AUTHORIZATION ≫= header_to_str) with
  | Some token => if bool_decide (token = AUTH_TOKEN) then Next x else respond Unauthorized
  | None => respond Unauthorized
  end.

Context (request_time version : bytes).

Definition v1_auth_middleware (headers : HeaderMap) (x : Extensions) (heads : list nat) (pool : TokenPool)
    : outcome (Passed * list nat * TokenPool) :=
  match auth headers with
  | None => Ret (respond Unauthorized, heads, pool)
  | Some auth_token =>
      r ← get_token_bundle auth_token PrivilegedPaid NormalPaid (Some keyconfig_new) heads pool;
      let '(v, current_config, heads, pool) := r in
      Ret (Next (match v with
                 | Ok _ => mkExtensions (Some v) (x_bundle x) current_config (Some request_time)
                             (Some (get_environment_info headers request_time version))
                 | Err _ => mkExtensions (Some v) (x_bundle x) (x_config x) (x_request_time x) (x_environment_info x)
                 end), heads, pool)
  end.

Definition v1_auth2_middleware (headers : HeaderMap) (x : Extensions) (heads : list nat) (pool : TokenPool)
    : outcome (Passed * list nat * TokenPool) :=
  match auth headers with
  | None => Ret (respond Unauthorized, heads, pool)
  | Some auth_token =>
      r ← get_token_bundle auth_token PrivilegedFree NormalFree (Some keyconfig_new) heads pool;
      let '(v, current_config, heads, pool) := r in
      Ret (Next (match v with
                 | Ok _ => mkExtensions (Some v) (x_bundle x) current_config (x_request_time x)
                             (Some (get_environment_info headers request_time version))
                 | Err _ => mkExtensions (Some v) (x_bundle x) (x_config x) (x_request_time x) (x_environment_info x)
                 end), heads, pool)
  end.

Definition cpp_auth_middleware (headers : HeaderMap) (x : Extensions) (heads : list nat) (pool : TokenPool)
    : outcome (Passed * list nat * TokenPool) :=
  match auth headers with
  | None => Ret (respond Unauthorized, heads, pool)
  | Some auth_token =>
      r ← get_token_bundle auth_token PrivilegedFree NormalFree None heads pool;
      let '(v, _, heads, pool) := r in
      Ret (match v with
           | Ok b => Next (mkExtensions (x_result x) (Some b) (x_config x) (x_request_time x) (x_environment_info x))
           | Err e => respond e
           end, heads, pool)
  end.
End bundle.
End keys.

(** ** What the chat services take from a request *)

Inductive ChatError : Type :=
| ModelNotSupported (model : bytes) | EmptyMessages | RequestFailed (err : bytes) | ProcessingFailed (err : bytes).

Definition chat_error_type (e : ChatError) : string :=
  match e with
  | ModelNotSupported _ => "model_not_supported" | EmptyMessages => "empty_messages"
  | RequestFailed _ => "request_failed" | ProcessingFailed _ => "processing_failed"
  end.
Definition chat_error_text (e : ChatError) : bytes :=
  match e with
  | ModelNotSupported model => as_bytes "Model '" ++ model ++ as_bytes "' is not supported"
  | EmptyMessages => as_bytes "Message array cannot be empty"
  | RequestFailed err => as_bytes "Request failed: " ++ err
  | ProcessingFailed err => as_bytes "Processing failed: " ++ err
  end.
Definition chat_to_generic (e : ChatError) : ErrorBody :=
  GenericBody None (chat_error_type e) (from_bytes (chat_error_text e)).
Definition chat_to_openai (e : ChatError) : ErrorBody :=
  OpenAiBody (Some (chat_error_type e)) (from_bytes (chat_error_text e)).
Definition chat_to_anthropic (e : ChatError) : ErrorBody :=
  AnthropicBody (chat_error_type e) (from_bytes (chat_error_text e)).

(** [str::trim_suffix]. *)
Definition trim_suffix (s suffix : bytes) : bytes := match strip_suffix suffix s with Some t => t | None => s end.
Definition ends_with (s suffix : bytes) : bool := match strip_suffix suffix s with Some _ => true | None => false end.

(** The model named by a request that asks for thinking: [insert_str] before the suffixes. *)
Definition thinking_model (thinking : bool) (model : bytes) : bytes :=
  if thinking then
    let prefix := trim_suffix (trim_suffix model (as_bytes "-online")) (as_bytes "-max") in
    if negb (ends_with prefix (as_bytes "-thinking"))
    then take (length prefix) model ++ as_bytes "-thinking" ++ drop (length prefix) model
    else model
  else model.

Section services.
Context {M : Type} (ext_model : bytes -> outcome (option M)).

(** The values every chat service starts from. *)
Definition Inputs : Type := (ExtToken * bool * M * KeyConfig * EnvironmentInfo)%type.

Definition take_inputs (to_tuple : AuthError -> Z * ErrorBody) (to_body : ChatError -> ErrorBody)
    (x : Extensions) (model : bytes) (messages : nat) : outcome (result (Z * ErrorBody) Inputs) :=
  v ← unchecked (x_result x);
  match v with
  | Err e => Ret (Err (to_tuple e))
  | Ok (ext_token, use_pri) =>
      model_found ← ext_model model;
      match model_found with
      | None => Ret (Err (400, to_body (ModelNotSupported model)))
      | Some mo =>
          if (messages =? 0)%nat then Ret (Err (400, to_body EmptyMessages))
          else
            current_config ← unchecked (x_config x);
            environment_info ← unchecked (x_environment_info x);
            Ret (Ok (ext_token, use_pri, mo, current_config, environment_info))
      end
  end.

Definition chat_completions_inputs (x : Extensions) (model : bytes) (messages : nat)
    : outcome (result (Z * ErrorBody) (Inputs * bytes)) :=
  r ← take_inputs into_openai_tuple chat_to_openai x model messages;
  match r with
  | Err e => Ret (Err e)
  | Ok i => request_time ← unchecked (x_request_time x); Ret (Ok (i, request_time))
  end.

Definition messages_inputs (x : Extensions) (model : bytes) (thinking : bool) (messages : nat)
    : outcome (result (Z * ErrorBody) (Inputs * bytes)) :=
  r ← take_inputs into_anthropic_tuple chat_to_anthropic x (thinking_model thinking model) messages;
  match r with
  | Err e => Ret (Err e)
  | Ok i => request_time ← unchecked (x_request_time x); Ret (Ok (i, request_time))
  end.

(** The flags of the encoder, and of the answer's references. *)
Definition encode_flags (c : KeyConfig) : outcome (bool * bool) :=
  v ← unchecked (c_disable_vision c);
  s ← unchecked (c_enable_slow_pool c);
  Ret (v, s).
Definition convert_web_ref (c : KeyConfig) : outcome bool := unchecked (c_include_web_references c).

Definition count_tokens_inputs (x : Extensions) (model : bytes) (thinking : bool) (messages : nat)
    : outcome (result (Z * ErrorBody) (Inputs * (bool * bool))) :=
  r ← take_inputs into_anthropic_tuple chat_to_anthropic x (thinking_model thinking model) messages;
  match r with
  | Err e => Ret (Err e)
  | Ok i => flags ← encode_flags i.1.2; Ret (Ok (i, flags))
  end.
End services.

(** ** Lemmas *)

Lemma key_from_string_total s : exists k, key_from_string s = Ret k.
Proof.
  unfold key_from_string. destruct (60 <? _)%nat; [eauto|]. destruct (Nat.eqb_spec (length (as_bytes s)) 32) as [E|]; [|eauto].
  rewrite length_as_bytes in E.
  destruct (from_base64_spec s) as [[-> _]|(out & -> & _ & L & _)]; [by eexists|]. rewrite E in L.
  change (decoded_len 32) with (Some 24%nat) in L. injection L as L. cbn [mbind outcome_bind]. rewrite <- L. by eexists.
Qed.

Lemma uuid_inverse u : in_uint 128 u -> uuid_from_slice (uuid_into_bytes u) = Some u.
Proof.
  intros H. unfold uuid_from_slice, uuid_into_bytes. rewrite length_be_bytes. cbn [Nat.eqb].
  rewrite be_value_be_bytes. f_equal. by apply (wrap_small 128).
Qed.

Lemma checksum_inverse c : checksum_wf c -> checksum_from_bytes (checksum_into_bytes c) = c.
Proof.
  destruct c as [a b]. intros [[_ La] [_ Lb]]. cbn in *. unfold checksum_from_bytes, checksum_into_bytes, Hex.sub. cbn [first second].
  f_equal; [by apply take_app_length'|]. rewrite drop_app_length' by done. apply take_ge. by rewrite Lb.
Qed.

Lemma gcpp_inverse h : gcpp_from_u8 (gcpp_as_u8 h) = Some h.
Proof. by destruct h. Qed.

Lemma raw_inverse providers r : provider (subject r) ∈ providers -> key_wf (raw_key r) ->
  into_raw providers (from_raw r) = Some r.
Proof.
  destruct r as [[p u] s [b e] rnd is_s]. intros Hp [Hu Hr]. cbn in Hp, Hu, Hr. unfold into_raw.
  cbn [kt_provider from_raw subject provider]. rewrite provider_from_str_elem by done.
  assert (Er : rand_from_bytes (rand_to_bytes rnd) = rnd)
    by (unfold rand_to_bytes, rand_from_bytes; rewrite le_value_le_bytes; by apply (wrap_small 64)).
  unfold from_raw. cbn [to_option mbind option_bind kt_sub_id kt_randomness kt_signature kt_start kt_end kt_is_session
    subject sub_id raw_randomness signature duration d_start d_end is_session].
  by rewrite uid_from_to_bytes, Er.
Qed.

(** The settings of a key take the place of those of the request. *)
Definition override (k : ConfiguredKey) (c : KeyConfig) : KeyConfig :=
  let or {A} (a b : option A) := match a with Some _ => a | None => b end in
  mkKeyConfig (or (usage_check_models k) (c_usage_check_models c)) (or (disable_vision k) (c_disable_vision c))
    (or (enable_slow_pool k) (c_enable_slow_pool c)) (or (include_web_references k) (c_include_web_references c)).

Lemma move_spec k c :
  (move_without_auth_token k c).2 = override k c /\ token_info (move_without_auth_token k c).1 = token_info k.
Proof. destruct k as [ti se [] [] [] []], c; done. Qed.

(** ** Who is served *)

Section served.
Context (providers : list string) (tz_parse : string -> option string) (raw_to_string : RawToken -> string).
Context (cbor_decode : bytes -> option ConfiguredKey) (KEY_PREFIX AUTH_TOKEN : bytes).
Context (now_secs : Z) (g : Globals) (m : TokenManager) (logs : LogManager).

Abbreviation parse := (parse_dynamic_token cbor_decode KEY_PREFIX).
Abbreviation get := (get_token_bundle providers tz_parse raw_to_string cbor_decode KEY_PREFIX AUTH_TOKEN now_secs g m logs).
Abbreviation key_token := (token_of_key providers tz_parse raw_to_string).

Definition admin (tok : bytes) : Prop := exists part, tok = AUTH_TOKEN ++ part.
Definition shared (tok : bytes) : Prop := ~ admin tok /\ is_share g = true /\ share_token (config g) = tok.
Definition user_key (tok : bytes) (k : option TokenKey) : Prop :=
  ~ admin tok /\ ~ shared tok /\ key_from_string (from_bytes tok) = Ret k.
Definition selected (o : option ExtToken) : TokenBundleResult :=
  match o with Some b => Ok (b, true) | None => Err NoAvailableTokens end.

(** What the four kinds of tokens are answered with. *)
Inductive served (tok : bytes) (pq nq : QueueType) (kc : option KeyConfig) (heads : list nat) (pool : TokenPool)
    : TokenBundleResult -> option KeyConfig -> list nat -> TokenPool -> Prop :=
| served_admin o h : tok = AUTH_TOKEN -> select_spec now_secs (TokenManager.tokens m) (vec (queue m)) heads pq (o, h) ->
    served tok pq nq kc heads pool (selected o) kc h pool
| served_alias alias id t : tok = AUTH_TOKEN ++ as_bytes "-" ++ alias -> entry m id = Some (from_bytes alias, t) ->
    served tok pq nq kc heads pool (Ok (ext_clone (bundle t), true)) kc heads pool
| no_alias alias : tok = AUTH_TOKEN ++ as_bytes "-" ++ alias -> (forall id t, entry m id <> Some (from_bytes alias, t)) ->
    served tok pq nq kc heads pool (Err AliasNotFound) kc heads pool
| no_admin c part : tok = AUTH_TOKEN ++ c :: part -> c <> 45 ->
    served tok pq nq kc heads pool (Err Unauthorized) kc heads pool
| served_shared o h : shared tok -> select_spec now_secs (TokenManager.tokens m) (vec (queue m)) heads nq (o, h) ->
    served tok pq nq kc heads pool (selected o) kc h pool
| served_user k a : user_key tok (Some k) -> LogManager.tokens logs !! k = Some a ->
    served tok pq nq kc heads pool (Ok (ext_clone (at_token a), false)) kc heads pool
| no_user k : user_key tok (Some k) -> LogManager.tokens logs !! k = None ->
    served tok pq nq kc heads pool (Err Unauthorized) kc heads pool
| served_dynamic k r p : user_key tok None -> dynamic_key (config g) = true -> parse tok = Ret (Some k) ->
    key_token k pool = (r, p) ->
    served tok pq nq kc heads pool r ((fun c => with_global (config g) (override k c)) <$> kc) heads p
| no_key : user_key tok None -> dynamic_key (config g) = false \/ parse tok = Ret None ->
    served tok pq nq kc heads pool (Err Unauthorized) kc heads pool.

Lemma strip_admin tok : match strip_prefix AUTH_TOKEN tok with
  | Some part => tok = AUTH_TOKEN ++ part | None => ~ admin tok end.
Proof.
  destruct (strip_prefix AUTH_TOKEN tok) as [p|] eqn:E; [by apply strip_prefix_Some|].
  intros [part H]. apply strip_prefix_Some in H. congruence.
Qed.

Lemma shared_test tok : ~ admin tok -> (is_share g && share_token_eq tok g) = true <-> shared tok.
Proof.
  intros Ha. rewrite andb_true_iff. unfold share_token_eq, shared. rewrite bool_decide_eq_true. tauto.
Qed.

Lemma parse_total tok : exists k, parse tok = Ret k.
Proof.
  unfold parse_dynamic_token. destruct (strip_prefix _ tok) as [t|]; [|eauto].
  destruct (from_base64_spec (from_bytes t)) as [[-> _]|(out & -> & _)]; by eexists.
Qed.

Lemma select_bundle_spec qt heads : manager_wf m -> length heads = 4%nat ->
  exists o h, select_bundle now_secs m qt heads = Ret (selected o, h)
    /\ select_spec now_secs (TokenManager.tokens m) (vec (queue m)) heads qt (o, h).
Proof.
  intros Hm Hh. destruct (queue_select_spec now_secs (TokenManager.tokens m) (queue m) heads qt (mw_queue m Hm) Hh) as ([o h] & E & S).
  exists o, h. split; [|done]. unfold select_bundle, select. by rewrite E.
Qed.

Lemma admin_bundle_spec part pq nq kc heads pool : manager_wf m -> length heads = 4%nat ->
  exists r h, admin_bundle now_secs m part pq heads = Ret (r, h)
    /\ served (AUTH_TOKEN ++ part) pq nq kc heads pool r kc h pool.
Proof.
  intros Hm Hh. unfold admin_bundle. destruct part as [|c part].
  { destruct (select_bundle_spec pq heads Hm Hh) as (o & h & -> & S). exists (selected o), h. split; [done|].
    apply served_admin; [apply app_nil_r|done]. }
  destruct (strip_prefix (as_bytes "-") (c :: part)) as [alias|] eqn:E.
  - apply strip_prefix_Some in E. rewrite E.
    destruct (get_by_alias_spec m (from_bytes alias) Hm) as [(id & t & He & Eg)|[He Eg]].
    + pose proof Eg as Ea. unfold get_by_alias in Ea. destruct (alias_map m !! from_bytes alias); [|done].
      rewrite bool_decide_true by eauto. rewrite Eg. eexists _, _. split; [done|]. by eapply served_alias.
    + rewrite bool_decide_false.
      * eexists _, _. split; [done|]. by eapply no_alias.
      * intros [id Hi]. apply (mw_alias m Hm) in Hi as Hs.
        destruct (proj1 (mw_slot m Hm id) (ex_intro _ _ Hs)) as [t Ht]. apply (He id t). by apply entry_Some.
  - eexists _, _. split; [done|]. eapply no_admin; [done|]. intros ->. discriminate E.
Qed.

Lemma get_token_bundle_spec tok pq nq kc heads pool : manager_wf m -> length heads = 4%nat ->
  exists r c h p, get tok pq nq kc heads pool = Ret (r, c, h, p) /\ served tok pq nq kc heads pool r c h p.
Proof.
  intros Hm Hh. unfold get_token_bundle. pose proof (strip_admin tok) as Ha.
  destruct (strip_prefix AUTH_TOKEN tok) as [part|].
  { destruct (admin_bundle_spec part pq nq kc heads pool Hm Hh) as (r & h & -> & S). subst tok. by eexists _, _, _, _. }
  pose proof (shared_test tok Ha) as Hs. destruct (is_share g && share_token_eq tok g).
  { destruct (select_bundle_spec nq heads Hm Hh) as (o & h & -> & S). eexists _, _, _, _. split; [done|].
    apply served_shared; [by apply Hs|done]. }
  assert (Hns : ~ shared tok) by (intros H; apply Hs in H; discriminate). clear Hs.
  destruct (key_from_string_total (from_bytes tok)) as [k Ek]. assert (Hu : user_key tok k) by done. rewrite Ek. cbn [mbind outcome_bind].
  destruct k as [k|].
  { unfold get_token. destruct (LogManager.tokens logs !! k) as [a|] eqn:El; eexists _, _, _, _; (split; [done|]);
      [by eapply served_user|by eapply no_user]. }
  destruct (dynamic_key (config g)) eqn:Ed; [|eexists _, _, _, _; split; [done|]; apply no_key; auto].
  destruct (parse_total tok) as [k Ep]. rewrite Ep. cbn [mbind outcome_bind].
  destruct k as [k|]; [|eexists _, _, _, _; split; [done|]; apply no_key; auto].
  assert (Hd : forall r p, key_token k pool = (r, p) -> served tok pq nq kc heads pool r
    ((fun c => with_global (config g) (override k c)) <$> kc) heads p) by (intros r p; by apply served_dynamic).
  destruct kc as [c|]; [|destruct (key_token k pool) as [r p] eqn:Et; eexists _, _, _, _; split; [done|by apply (Hd r p)]].
  destruct (move_spec k c) as [M1 M2]. destruct (move_without_auth_token k c) as [k' c']. cbn in M1, M2. subst c'.
  unfold token_of_key in *. rewrite M2. destruct (token_info k ≫= _) as [[t p]|]; eexists _, _, _, _; (split; [done|by apply Hd]).
Qed.
End served.

(** A request that is answered with [Ok] and no dynamic key carries no settings at all. *)
Section settings.
Context (providers : list string) (tz_parse : string -> option string) (raw_to_string : RawToken -> string).
Context (cbor_decode : bytes -> option ConfiguredKey) (KEY_PREFIX AUTH_TOKEN : bytes).
Context (now_secs : Z) (g : Globals) (m : TokenManager) (logs : LogManager).

Abbreviation served_by := (served providers tz_parse raw_to_string cbor_decode KEY_PREFIX AUTH_TOKEN now_secs g m logs).
Abbreviation dynamic := (parse_dynamic_token cbor_decode KEY_PREFIX).

Definition sets_flags (k : ConfiguredKey) : bool :=
  match disable_vision k, enable_slow_pool k with Some _, Some _ => true | _, _ => false end.
Definition sets_web (k : ConfiguredKey) : bool :=
  match include_web_references k with Some _ => true | None => false end.

(** The key behind a request, when it is a dynamic one. *)
Definition dynamic_request (tok : bytes) (k : ConfiguredKey) : Prop :=
  user_key AUTH_TOKEN g tok None /\ dynamic_key (config g) = true /\ dynamic tok = Ret (Some k).

Lemma served_config tok pq nq heads pool r c h p :
  served_by tok pq nq (Some keyconfig_new) heads pool r c h p ->
  c = Some keyconfig_new /\ (forall k, ~ dynamic_request tok k)
  \/ exists k, dynamic_request tok k /\ c = Some (with_global (config g) (override k keyconfig_new)).
Proof.
  assert (Hadmin : forall k part, tok = AUTH_TOKEN ++ part -> ~ dynamic_request tok k)
    by (intros k part Hp ((Ha & _) & _); apply Ha; by exists part).
  intros S. inversion S; subst; try (left; split; [done|]; intros k0); try (by eapply Hadmin);
    try (eapply Hadmin; symmetry; apply app_nil_r).
  - intros ((_ & Hs & _) & _). by apply Hs.
  - intros ((_ & _ & E) & _). match goal with H : user_key _ _ _ (Some _) |- _ => destruct H as (_ & _ & E') end. congruence.
  - intros ((_ & _ & E) & _). match goal with H : user_key _ _ _ (Some _) |- _ => destruct H as (_ & _ & E') end. congruence.
  - right. by eexists.
  - intros (_ & E1 & E2). match goal with H : _ \/ _ |- _ => destruct H end; congruence.
Qed.

Lemma override_new k : override k keyconfig_new =
  mkKeyConfig (usage_check_models k) (disable_vision k) (enable_slow_pool k) (include_web_references k).
Proof. by destruct k as [? ? [] [] [] []]. Qed.

Lemma encode_flags_dynamic k : encode_flags (with_global (config g) (override k keyconfig_new)) =
  if sets_flags k then Ret (vision_is_none (vision_ability (config g)), slow_pool (config g)) else Undef.
Proof. rewrite override_new. unfold sets_flags. by destruct k as [? ? [] [] ? ?]. Qed.
Lemma web_ref_dynamic k : convert_web_ref (with_global (config g) (override k keyconfig_new)) =
  if sets_web k then Ret (web_refs (config g)) else Undef.
Proof. rewrite override_new. unfold sets_web. by destruct k as [? ? ? ? [] ?]. Qed.
End settings.

(** ** Properties *)

(** C3: a request is served with the tokens its text entitles it to, on every
    branch, and no unchecked access fails: the administrator's token gets the
    first usable token of the privileged queue, or the token named by an alias;
    the share token, when sharing is on, the first usable one of the normal
    queue; the key of a logged token gets that token; any other text is read as a
    dynamic key, when these are enabled, whose settings go into the request.
    Everything else is refused with the error of its kind. *)
Theorem token_bundle_refines providers tz_parse raw_to_string cbor_decode KEY_PREFIX AUTH_TOKEN now_secs g m logs
    tok pq nq kc heads pool :
  manager_wf m -> length heads = 4%nat ->
  exists r c h p,
    get_token_bundle providers tz_parse raw_to_string cbor_decode KEY_PREFIX AUTH_TOKEN now_secs g m logs tok pq nq kc heads pool
      = Ret (r, c, h, p)
    /\ served providers tz_parse raw_to_string cbor_decode KEY_PREFIX AUTH_TOKEN now_secs g m logs tok pq nq kc heads pool r c h p.
Proof. intros Hm Hh. by apply get_token_bundle_spec. Qed.

Definition sample_globals : Globals := mkGlobals (set_dynamic_key true (set_share_token (as_bytes "share") config_default)) true.
Definition sample_logs : LogManager := log_manager_new.
Definition no_time_zone (s : string) : option string := None.

Lemma token_bundle_refines_witness :
  exists r c h p,
    get_token_bundle DEFAULT_PROVIDERS no_time_zone (fun _ => "jwt"%string) (fun _ => None) (as_bytes "sk-") (as_bytes "root")
      0 sample_globals (mgr sample_world) sample_logs (as_bytes "root") PrivilegedPaid NormalPaid None QUEUE_HEADS ∅
      = Ret (r, c, h, p)
    /\ served DEFAULT_PROVIDERS no_time_zone (fun _ => "jwt"%string) (fun _ => None) (as_bytes "sk-") (as_bytes "root")
      0 sample_globals (mgr sample_world) sample_logs (as_bytes "root") PrivilegedPaid NormalPaid None QUEUE_HEADS ∅ r c h p.
Proof. apply token_bundle_refines; [apply sample_world_wf|reflexivity]. Defined.

(** The copy of the search that the list of models has decides as the shared
    function does on the queues of free requests, without settings. *)
Theorem models_bundle_agrees providers tz_parse raw_to_string cbor_decode KEY_PREFIX AUTH_TOKEN now_secs g m logs tok heads pool :
  models_bundle providers tz_parse raw_to_string cbor_decode KEY_PREFIX AUTH_TOKEN now_secs g m logs tok heads pool =
  '(r, _, h, p) ← get_token_bundle providers tz_parse raw_to_string cbor_decode KEY_PREFIX AUTH_TOKEN now_secs g m logs tok
    PrivilegedFree NormalFree None heads pool;
  Ret (r, h, p).
Proof.
  unfold models_bundle, get_token_bundle, models_admin, admin_bundle, select_bundle, token_of_key.
  destruct (strip_prefix AUTH_TOKEN tok) as [[|c part]|].
  - by destruct (select now_secs m heads PrivilegedFree) as [[[] ?]| |].
  - destruct (strip_prefix (as_bytes "-") (c :: part)) as [alias|]; [|done]. cbv zeta.
    destruct (bool_decide _); cbn [negb]; [|done]. by destruct (get_by_alias m _) as [[]| |].
  - destruct (is_share g && share_token_eq tok g).
    { by destruct (select now_secs m heads NormalFree) as [[[] ?]| |]. }
    destruct (key_from_string (from_bytes tok)) as [[k|]| |]; [done| |done..]. cbn [mbind outcome_bind].
    destruct (dynamic_key (config g)); [|done].
    destruct (parse_dynamic_token cbor_decode KEY_PREFIX tok) as [[k|]| |]; [|done..]. cbn [mbind outcome_bind option_bind].
    destruct (token_info k) as [i|]; [|done]. cbn [mbind option_bind].
    by destruct (tokeninfo_to_token providers tz_parse raw_to_string i pool) as [[]|].
Qed.

(** The fields of a request that deserialization guarantees. *)
Record request_wf (providers : list string) (tz_parse : string -> option string) (q : BuildKeyRequest) : Prop := {
  rw_provider : provider (subject (b_token q)) ∈ providers;
  rw_key : key_wf (raw_key (b_token q));
  rw_checksum : checksum_wf (b_checksum q);
  rw_session : in_uint 128 (b_session_id q);
  rw_version : forall v, b_config_version q = Some v -> in_uint 128 v;
  rw_timezone : forall tz, b_timezone q = Some tz -> tz_parse tz = Some tz;
}.

Lemma tokeninfo_inverse providers tz_parse raw_to_string q pool : request_wf providers tz_parse q ->
  tokeninfo_to_token providers tz_parse raw_to_string
    (token_to_tokeninfo (b_token q) (b_checksum q) (b_client_key q) (b_config_version q) (b_session_id q)
       (b_proxy_name q) (b_timezone q) (b_gcpp_host q)) pool
  = Some (mkExtToken (token_new raw_to_string (b_token q) None pool).1 None (b_checksum q) (b_client_key q)
            (b_config_version q) (b_session_id q) (b_proxy_name q) (b_timezone q) (b_gcpp_host q),
          (token_new raw_to_string (b_token q) None pool).2).
Proof.
  intros Hq. unfold tokeninfo_to_token, token_to_tokeninfo.
  cbn [ki_session_id ki_token ki_checksum ki_client_key ki_config_version ki_proxy_name ki_timezone ki_gcpp_host].
  rewrite (uuid_inverse _ (rw_session _ _ _ Hq)), raw_inverse by apply Hq. cbn [mbind option_bind].
  destruct (token_new raw_to_string (b_token q) None pool) as [t p]. cbn [fst snd].
  rewrite checksum_inverse by apply Hq. do 3 f_equal.
  - destruct (b_config_version q) as [v|] eqn:E; [|done]. cbn. apply uuid_inverse. by eapply rw_version.
  - destruct (b_timezone q) as [tz|] eqn:E; [|done]. cbn. by eapply rw_timezone.
  - destruct (b_gcpp_host q) as [h|]; [|done]. apply gcpp_inverse.
Qed.

Lemma built_key_parses cbor_encode cbor_decode sha256 KEY_PREFIX AUTH_TOKEN g headers q key k1 k2 :
  handle_build_key cbor_encode sha256 KEY_PREFIX AUTH_TOKEN g headers q = (200, Keys key k1 k2) ->
  is_bytes KEY_PREFIX -> is_bytes (cbor_encode (build_config sha256 q)) ->
  parse_dynamic_token cbor_decode KEY_PREFIX (as_bytes key) = Ret (cbor_decode (cbor_encode (build_config sha256 q)))
  /\ k1 = key_to_string (raw_key (b_token q)) /\ k2 = key_to_string2 (raw_key (b_token q)).
Proof.
  unfold handle_build_key. intros H Hp Hb. destruct (_ && _); [discriminate|]. injection H as <- <- <-. split; [|done].
  unfold parse_dynamic_token. rewrite as_bytes_app, (as_bytes_from_bytes KEY_PREFIX) by done.
  rewrite strip_prefix_app, from_bytes_as_bytes. by rewrite (proj1 (base64_inverse _ Hb)).
Qed.

(** The token a built key stands for, and the pool with it. *)
Definition key_bundle (raw_to_string : RawToken -> string) (q : BuildKeyRequest) (pool : TokenPool) : ExtToken * TokenPool :=
  (mkExtToken (token_new raw_to_string (b_token q) None pool).1 None (b_checksum q) (b_client_key q)
     (b_config_version q) (b_session_id q) (b_proxy_name q) (b_timezone q) (b_gcpp_host q),
   (token_new raw_to_string (b_token q) None pool).2).

(** The models a key is asked to check: a list only for the custom choice. *)
Definition models_asked (q : BuildKeyRequest) : option UsageCheckModel :=
  (fun u => mkUsageCheckModel (um_type u) (match um_type u with TCustom => um_model_ids u | _ => [] end))
    <$> b_usage_check_models q.

(** The settings of a request with a built key, when it came with [c]: the models are
    the key's; a flag is set when the key or [c] sets it, to the global value. *)
Definition key_settings (g : AppConfig) (q : BuildKeyRequest) (c : KeyConfig) : KeyConfig :=
  let set (a b : option bool) (v : bool) := match a, b with None, None => None | _, _ => Some v end in
  mkKeyConfig (match models_asked q with Some u => Some u | None => c_usage_check_models c end)
    (set (b_disable_vision q) (c_disable_vision c) (vision_is_none (vision_ability g)))
    (set (b_enable_slow_pool q) (c_enable_slow_pool c) (slow_pool g))
    (set (b_include_web_references q) (c_include_web_references c) (web_refs g)).

Lemma override_built sha256 g q c : with_global g (override (build_config sha256 q) c) = key_settings g q c.
Proof.
  unfold key_settings, models_asked. destruct q as [t ck k v s se pn tz h dv es iw us], c as [cu cv cs cw].
  cbn. by destruct dv, es, iw, us, cv, cs, cw.
Qed.

Section built.
Context (providers : list string) (tz_parse : string -> option string) (raw_to_string : RawToken -> string).
Context (cbor_encode : ConfiguredKey -> bytes) (cbor_decode : bytes -> option ConfiguredKey) (sha256 : bytes -> bytes).
Context (KEY_PREFIX AUTH_TOKEN : bytes) (now_secs : Z) (g : Globals) (m : TokenManager) (logs : LogManager).

(** The text of a key that is read as a dynamic key. *)
Definition read_as_key (key : string) : Prop :=
  strip_prefix AUTH_TOKEN (as_bytes key) = None /\ is_share g && share_token_eq (as_bytes key) g = false /\
  key_from_string key = Ret None /\ dynamic_key (config g) = true.

Lemma built_bundle q key pq nq kc heads pool : request_wf providers tz_parse q -> read_as_key key ->
  parse_dynamic_token cbor_decode KEY_PREFIX (as_bytes key) = Ret (Some (build_config sha256 q)) ->
  get_token_bundle providers tz_parse raw_to_string cbor_decode KEY_PREFIX AUTH_TOKEN now_secs g m logs
    (as_bytes key) pq nq kc heads pool
  = Ret (Ok ((key_bundle raw_to_string q pool).1, false), key_settings (config g) q <$> kc, heads,
         (key_bundle raw_to_string q pool).2).
Proof using.
  intros Hq (Ha & Hs & Hf & Hd) Hp. unfold get_token_bundle.
  rewrite Ha, Hs, from_bytes_as_bytes, Hf. cbn [mbind outcome_bind]. rewrite Hd, Hp. cbn [mbind outcome_bind].
  destruct kc as [c|].
  - destruct (move_spec (build_config sha256 q) c) as [M1 M2].
    destruct (move_without_auth_token (build_config sha256 q) c) as [k' c']. cbn [fst snd] in M1, M2. subst c'.
    unfold token_of_key. rewrite M2. unfold build_config at 1. cbn [token_info mbind option_bind].
    rewrite tokeninfo_inverse by done. by rewrite override_built.
  - unfold token_of_key, build_config. cbn [token_info mbind option_bind]. by rewrite tokeninfo_inverse.
Qed.
End built.

(** C5: a key made by [handle_build_key], sent back while dynamic keys are enabled,
    given a CBOR codec that decodes what it encodes and unless the text is read as one
    of the other three kinds of tokens ([read_as_key]).  The key carries every setting
    the request asked for.  Whatever settings the search starts from, it is served with
    the token, checksum, identifiers, proxy, time zone and host it was made from; the
    models to check are the key's; and a flag that the key sets reaches the services,
    though with the global value ([with_global]; see [request_settings]), while one
    that is not set stays absent.  The middleware of the chat services leaves exactly
    that in the extensions.  The two texts that come with the key identify the same
    token, the second unless it happens to have the length of the first (see
    [TokenKey.token_key_roundtrip]). *)
Theorem built_key_served providers tz_parse raw_to_string cbor_encode cbor_decode sha256 KEY_PREFIX AUTH_TOKEN now_secs g m logs
    g' headers q key k1 k2 pq nq kc heads pool :
  handle_build_key cbor_encode sha256 KEY_PREFIX AUTH_TOKEN g' headers q = (200, Keys key k1 k2) ->
  is_bytes KEY_PREFIX -> is_bytes (cbor_encode (build_config sha256 q)) ->
  cbor_decode (cbor_encode (build_config sha256 q)) = Some (build_config sha256 q) ->
  request_wf providers tz_parse q -> read_as_key AUTH_TOKEN g key ->
  (exists k, parse_dynamic_token cbor_decode KEY_PREFIX (as_bytes key) = Ret (Some k) /\
     secret k = sha256 <$> b_secret q /\ disable_vision k = b_disable_vision q /\
     enable_slow_pool k = b_enable_slow_pool q /\ include_web_references k = b_include_web_references q /\
     usage_check_models k = models_asked q) /\
  get_token_bundle providers tz_parse raw_to_string cbor_decode KEY_PREFIX AUTH_TOKEN now_secs g m logs
    (as_bytes key) pq nq kc heads pool
  = Ret (Ok ((key_bundle raw_to_string q pool).1, false), key_settings (config g) q <$> kc, heads,
         (key_bundle raw_to_string q pool).2) /\
  (forall request_time version hs, auth hs = Some (as_bytes key) ->
     v1_auth_middleware providers tz_parse raw_to_string cbor_decode KEY_PREFIX AUTH_TOKEN now_secs g m logs
       request_time version hs no_extensions heads pool
     = Ret (Next (mkExtensions (Some (Ok ((key_bundle raw_to_string q pool).1, false))) None
                    (Some (key_settings (config g) q keyconfig_new)) (Some request_time)
                    (Some (get_environment_info hs request_time version))),
            heads, (key_bundle raw_to_string q pool).2)) /\
  key_from_string k1 = Ret (Some (raw_key (b_token q))) /\
  (String.length k2 <> 32%nat -> key_from_string k2 = Ret (Some (raw_key (b_token q)))).
Proof.
  intros Hk Hp Hb Hc Hq Hr.
  destruct (built_key_parses cbor_encode cbor_decode sha256 KEY_PREFIX AUTH_TOKEN g' headers q key k1 k2 Hk Hp Hb) as (P & -> & ->).
  rewrite Hc in P.
  assert (B := fun pq nq kc => built_bundle providers tz_parse raw_to_string cbor_decode sha256 KEY_PREFIX AUTH_TOKEN now_secs
    g m logs q key pq nq kc heads pool Hq Hr P).
  split_and!; [by eexists|apply B| |apply (key_string_roundtrip _ (rw_key _ _ _ Hq))|
    by apply key_string2_roundtrip, (rw_key _ _ _ Hq)].
  intros rt v hs Ha. unfold v1_auth_middleware. by rewrite Ha, B.
Qed.

Definition sample_build : BuildKeyRequest :=
  mkBuildKeyRequest (raw (primary_token (bundle (sample 1)))) (checksum (bundle (sample 1))) (client_key (bundle (sample 1)))
    (Some 7) 9 None (Some "proxy"%string) None (Some EU) (Some true) None None None.
Definition sample_encode (k : ConfiguredKey) : bytes := [1; 2; 3].
Definition sample_decode (bs : bytes) : option ConfiguredKey :=
  if bool_decide (bs = [1; 2; 3]) then Some (build_config (fun bs => bs) sample_build) else None.
Definition sample_key : string := "sk-" +:+ to_base64 [1; 2; 3].

Lemma sample_build_wf : request_wf DEFAULT_PROVIDERS no_time_zone sample_build.
Proof.
  split; cbn.
  - by_decision.
  - split; [split|]; by_decision.
  - split; split; (by_decision || reflexivity).
  - by_decision.
  - intros v [= <-]. by_decision.
  - done.
Qed.

Lemma built_key_served_witness :
  exists t p, get_token_bundle DEFAULT_PROVIDERS no_time_zone (fun _ => "jwt"%string) sample_decode (as_bytes "sk-") (as_bytes "root")
    0 sample_globals (mgr sample_world) sample_logs (as_bytes sample_key) PrivilegedPaid NormalPaid (Some keyconfig_new) QUEUE_HEADS ∅
  = Ret (Ok (t, false), Some (mkKeyConfig None (Some (vision_is_none (vision_ability (config sample_globals)))) None None),
         QUEUE_HEADS, p) /\ config_version t = Some 7.
Proof.
  eexists _, _. split; [|cycle 1].
  - refine (proj1 (proj2 (built_key_served DEFAULT_PROVIDERS no_time_zone (fun _ => "jwt"%string) sample_encode sample_decode
      (fun bs => bs) (as_bytes "sk-") (as_bytes "root") 0 sample_globals (mgr sample_world) sample_logs sample_globals
      (fun _ => Some (as_bytes "Bearer share")) sample_build sample_key _ _ PrivilegedPaid NormalPaid (Some keyconfig_new)
      QUEUE_HEADS ∅ _ _ _ _ sample_build_wf _))); [vm_compute; reflexivity|by_decision|by_decision|vm_compute; reflexivity|].
    split_and!; vm_compute; reflexivity.
  - reflexivity.
Defined.

(** The extensions after [v1_auth_middleware], by the text of the request. *)
Lemma v1_extensions providers tz_parse raw_to_string cbor_decode KEY_PREFIX AUTH_TOKEN now_secs g m logs request_time version
    headers heads pool tok :
  manager_wf m -> length heads = 4%nat -> auth headers = Some tok ->
  exists r c h p x,
    v1_auth_middleware providers tz_parse raw_to_string cbor_decode KEY_PREFIX AUTH_TOKEN now_secs g m logs request_time version
      headers no_extensions heads pool = Ret (Next x, h, p)
    /\ served providers tz_parse raw_to_string cbor_decode KEY_PREFIX AUTH_TOKEN now_secs g m logs tok PrivilegedPaid NormalPaid
         (Some keyconfig_new) heads pool r c h p
    /\ x_result x = Some r
    /\ forall b, r = Ok b -> x_config x = c /\ is_Some (x_request_time x) /\ is_Some (x_environment_info x).
Proof.
  intros Hm Hh Ha. unfold v1_auth_middleware. rewrite Ha.
  destruct (get_token_bundle_spec providers tz_parse raw_to_string cbor_decode KEY_PREFIX AUTH_TOKEN now_secs g m logs tok
    PrivilegedPaid NormalPaid (Some keyconfig_new) heads pool Hm Hh) as (r & c & h & p & E & S).
  rewrite E. eexists r, c, h, p, _. split; [reflexivity|]. split; [done|].
  destruct r; (split; [done|]); intros b' [= <-]. cbn. eauto.
Qed.

Lemma take_inputs_returns {M} (ext_model : bytes -> outcome (option M)) to_tuple to_body x r model n :
  (forall s, returns (ext_model s)) -> x_result x = Some r ->
  (forall b, r = Ok b -> is_Some (x_config x) /\ is_Some (x_environment_info x)) ->
  exists o, take_inputs ext_model to_tuple to_body x model n = Ret o
    /\ forall i, o = Ok i -> (exists b, r = Ok b /\ i.1.1.1 = b) /\ x_config x = Some i.1.2.
Proof.
  intros Hm Hr Hx. unfold take_inputs. rewrite Hr. cbn [unchecked mbind outcome_bind].
  destruct r as [[t pri]|e]; [|by eexists]. destruct (Hx _ eq_refl) as [[c ->] [e ->]].
  destruct (Hm model) as [mo ->]. cbn [mbind outcome_bind]. destruct mo as [mo|]; [|by eexists].
  destruct (n =? 0)%nat; [by eexists|]. cbn [unchecked mbind outcome_bind]. eexists. split; [done|].
  intros i [= <-]. cbn. eauto.
Qed.

(** The chat services find in a request everything [v1_auth_middleware] must
    have left there: behind the middleware, for every request with a token, the
    first part of both services returns. *)
Theorem request_inputs_present {M} (ext_model : bytes -> outcome (option M))
    providers tz_parse raw_to_string cbor_decode KEY_PREFIX AUTH_TOKEN now_secs g m logs request_time version headers heads pool :
  manager_wf m -> length heads = 4%nat -> (forall s, returns (ext_model s)) ->
  exists p h pl, v1_auth_middleware providers tz_parse raw_to_string cbor_decode KEY_PREFIX AUTH_TOKEN now_secs g m logs
      request_time version headers no_extensions heads pool = Ret (p, h, pl)
    /\ match p with
       | Respond status body => auth headers = None /\ (status, body) = into_generic_tuple Unauthorized
       | Next x => forall model n, returns (chat_completions_inputs ext_model x model n)
           /\ forall thinking, returns (messages_inputs ext_model x model thinking n)
       end.
Proof.
  intros Hm Hh He. destruct (auth headers) as [tok|] eqn:Ha; [|unfold v1_auth_middleware; rewrite Ha; by eexists _, _, _].
  destruct (v1_extensions providers tz_parse raw_to_string cbor_decode KEY_PREFIX AUTH_TOKEN now_secs g m logs request_time version
    headers heads pool tok Hm Hh Ha) as (r & c & h & p & x & E & S & Hr & Hx).
  rewrite E. eexists _, _, _. split; [reflexivity|]. cbn beta iota.
  assert (Hc : forall b, r = Ok b -> is_Some (x_config x) /\ is_Some (x_environment_info x)).
  { intros b Hb. destruct (Hx b Hb) as (-> & _ & ?). split; [|done].
    destruct (served_config _ _ _ _ _ _ _ _ _ _ _ _ _ _ _ _ _ _ _ S) as [[-> _]|(k & _ & ->)]; eauto. }
  assert (Ht : forall i, (exists b, r = Ok b /\ i = b) -> is_Some (x_request_time x)) by (intros i (b & Hb & _); by apply (Hx b)).
  intros model n. split; [|intros th]; unfold chat_completions_inputs, messages_inputs.
  - destruct (take_inputs_returns ext_model into_openai_tuple chat_to_openai x r model n He Hr Hc) as ([i|e] & -> & Hi); [|by eexists].
    destruct (Ht _ (proj1 (Hi i eq_refl))) as [t ->]. by eexists.
  - destruct (take_inputs_returns ext_model into_anthropic_tuple chat_to_anthropic x r (thinking_model th model) n He Hr Hc)
      as ([i|e] & -> & Hi); [|by eexists].
    destruct (Ht _ (proj1 (Hi i eq_refl))) as [t ->]. by eexists.
Qed.

Definition any_model (s : bytes) : outcome (option bytes) := Ret (Some s).
Definition bearer_of (tok : string) : HeaderMap :=
  fun name => if String.eqb name AUTHORIZATION then Some (as_bytes ("Bearer " +:+ tok)) else None.

Lemma any_model_returns s : returns (any_model s).
Proof. by eexists. Qed.

Lemma request_inputs_present_witness :
  exists p h pl, v1_auth_middleware DEFAULT_PROVIDERS no_time_zone (fun _ => "jwt"%string) sample_decode (as_bytes "sk-")
      (as_bytes "root") 0 sample_globals (mgr sample_world) sample_logs [] [] (bearer_of "root") no_extensions QUEUE_HEADS ∅
      = Ret (p, h, pl)
    /\ match p with
       | Respond status body => auth (bearer_of "root") = None /\ (status, body) = into_generic_tuple Unauthorized
       | Next x => forall model n, returns (chat_completions_inputs any_model x model n)
           /\ forall thinking, returns (messages_inputs any_model x model thinking n)
       end.
Proof. apply request_inputs_present; [apply sample_world_wf|reflexivity|apply any_model_returns]. Defined.

(** C12: the settings of a request: only a dynamic key that sets them itself gives
    the encoder its two flags, and the answer its own, and then with the values of
    the global configuration, not of the key; for every other accepted request
    the services unwrap a setting that is absent. *)
Theorem request_settings {M} (ext_model : bytes -> outcome (option M))
    providers tz_parse raw_to_string cbor_decode KEY_PREFIX AUTH_TOKEN now_secs g m logs request_time version headers heads pool
    tok x h pl model n i t :
  manager_wf m -> length heads = 4%nat -> (forall s, returns (ext_model s)) -> auth headers = Some tok ->
  v1_auth_middleware providers tz_parse raw_to_string cbor_decode KEY_PREFIX AUTH_TOKEN now_secs g m logs
      request_time version headers no_extensions heads pool = Ret (Next x, h, pl) ->
  chat_completions_inputs ext_model x model n = Ret (Ok (i, t)) ->
  (forall k, dynamic_request cbor_decode KEY_PREFIX AUTH_TOKEN g tok k ->
     encode_flags i.1.2 = (if sets_flags k then Ret (vision_is_none (vision_ability (config g)), slow_pool (config g)) else Undef)
     /\ convert_web_ref i.1.2 = (if sets_web k then Ret (web_refs (config g)) else Undef))
  /\ ((forall k, ~ dynamic_request cbor_decode KEY_PREFIX AUTH_TOKEN g tok k) ->
     encode_flags i.1.2 = Undef /\ convert_web_ref i.1.2 = Undef).
Proof.
  intros Hm Hh He Ha Ev Ei.
  destruct (v1_extensions providers tz_parse raw_to_string cbor_decode KEY_PREFIX AUTH_TOKEN now_secs g m logs request_time version
    headers heads pool tok Hm Hh Ha) as (r & c & h' & p & x' & E & S & Hr & Hx).
  rewrite Ev in E. injection E as <- <- <-.
  assert (Hs := served_config _ _ _ _ _ _ _ _ _ _ _ _ _ _ _ _ _ _ _ S).
  assert (Hc : forall b, r = Ok b -> is_Some (x_config x) /\ is_Some (x_environment_info x)).
  { intros b Hb. destruct (Hx b Hb) as (-> & _ & ?). split; [|done]. destruct Hs as [[-> _]|(k & _ & ->)]; eauto. }
  unfold chat_completions_inputs in Ei.
  destruct (take_inputs_returns ext_model into_openai_tuple chat_to_openai x r model n He Hr Hc) as (o & E & Hi).
  rewrite E in Ei. cbn [mbind outcome_bind] in Ei. destruct o as [i'|]; [|discriminate].
  destruct (x_request_time x); [|discriminate]. injection Ei as -> _.
  destruct (Hi i eq_refl) as [(b & Hb & _) Hci]. destruct (Hx b Hb) as (Hci' & _). rewrite Hci in Hci'.
  destruct Hs as [[-> Hn]|(k & Hk & ->)]; injection Hci' as ->.
  - split; [intros k Hk; by apply Hn in Hk|done].
  - split; [|intros Hn; by apply Hn in Hk]. intros k' Hk'.
    assert (k' = k) as -> by (destruct Hk as (_ & _ & E1), Hk' as (_ & _ & E2); congruence).
    by rewrite encode_flags_dynamic, web_ref_dynamic.
Qed.

Lemma sample_inputs : exists x h pl i t,
  v1_auth_middleware DEFAULT_PROVIDERS no_time_zone (fun _ => "jwt"%string) sample_decode (as_bytes "sk-") (as_bytes "root") 0
    sample_globals (mgr sample_world) sample_logs [] [] (bearer_of "root") no_extensions QUEUE_HEADS ∅ = Ret (Next x, h, pl)
  /\ chat_completions_inputs any_model x (as_bytes "gpt-4o") 1 = Ret (Ok (i, t)).
Proof. vm_compute. by eexists _, _, _, _, _. Qed.

Lemma request_settings_witness : exists i : Inputs (M := bytes), encode_flags i.1.2 = Undef /\ convert_web_ref i.1.2 = Undef.
Proof.
  destruct sample_inputs as (x & h & pl & i & t & E1 & E2). exists i.
  refine (proj2 (request_settings any_model _ _ _ _ _ _ _ _ _ _ _ _ (bearer_of "root") _ _ (as_bytes "root") x h pl _ _ i t
    (ww_mgr _ sample_world_wf) (eq_refl : length QUEUE_HEADS = 4%nat) any_model_returns _ E1 E2) _); [vm_compute; reflexivity|].
  intros k ((Ha & _) & _). apply Ha. exists []. symmetry. apply app_nil_r.
Defined.
