(* ===== verification/LogRoutes.v ===== *)
(** * The handlers of request logs

    [src/src/core/route/logs.rs]: the pages of the request log and the tokens
    behind it, for the administrator and for the owner of a token.

    The log is asked for through its task ([LogManager.v]), whose replies are
    awaited; the counters of requests are arguments.  A set of texts is the list of
    its elements in the order they are iterated. *)
From S2P Require Import Prelude Strings TokenKey Profile RawToken TokenInfo Settings LogManager Auth Floats.

Record LogsQueryParams : Type := mkLogsQuery
  { limit : option Z; offset : option Z; reverse : option bool; from_date : option Z; to_date : option Z;
    user_id : option bytes; q_email : option string; membership_type : option string; status : option string;
    q_model : option string; include_models : option (list string); exclude_models : option (list string);
    q_stream : option bool; has_chain : option bool; has_error : option bool; q_error : option string;
    min_total_time : option f64; max_total_time : option f64; min_tokens : option Z; max_tokens : option Z }.

Record LogsResponse : Type := mkLogsResponse
  { total : Z; active : option Z; error : option Z; page : list RequestLog }.
Record LogsTokensResponse : Type := mkLogsTokensResponse
  { found : gmap string (option ExtToken); total_tokens : Z }.

Definition BAD_REQUEST : Z := 400.
Definition UNAUTHORIZED : Z := 401.
Definition USIZE_MAX : Z := 2 ^ 64 - 1.

Section handlers.
Context (providers : list string) (cbor_decode : bytes -> option ConfiguredKey) (KEY_PREFIX AUTH_TOKEN : bytes).
Context (logs : LogManager).

Definition get_logs (params : GetLogsParams) : outcome (Z * list RequestLog) :=
  l ← filtered_logs logs params (LogManager.logs logs); Ret (zlen l, page_of params l).

(** The key of a caller who is not the administrator. *)
Definition dynamic_owner (k : ConfiguredKey) : option TokenKey :=
  info ← Auth.token_info k; r ← into_raw providers (ki_token info); Some (raw_key r).
Definition caller_key (auth_token : bytes) : outcome (option TokenKey) :=
  key ← key_from_string (from_bytes auth_token);
  match key with
  | Some k => Ret (Some k)
  | None =>
      parsed ← parse_dynamic_token cbor_decode KEY_PREFIX auth_token;
      Ret (match parsed with Some k => dynamic_owner k | None => None end)
  end.

(** [None] is the administrator. *)
Definition user_token (auth_token : bytes) : outcome (result Z (option TokenKey)) :=
  if bool_decide (auth_token = AUTH_TOKEN) then Ret (Ok None)
  else key ← caller_key auth_token; Ret (match key with Some k => Ok (Some k) | None => Err UNAUTHORIZED end).

(** An optional text that names a value: [None] when it names none. *)
Definition named {A} (parse : string -> option A) (o : option string) : option (option A) :=
  match o with Some s => match parse s with Some a => Some (Some a) | None => None end | None => Some None end.

Definition logs_params (q : LogsQueryParams) (user_token : option TokenKey) (status : option LogStatus)
    (membership : option MembershipType) (user_id : option UserId) : GetLogsParams :=
  mkGetLogsParams user_token status membership user_id (from_date q) (to_date q) (q_email q) (q_model q)
    (include_models q) (exclude_models q) (q_stream q) (has_chain q) (has_error q) (q_error q) (min_total_time q)
    (max_total_time q) (min_tokens q) (max_tokens q) (default false (reverse q)) (default 0 (offset q))
    (default USIZE_MAX (limit q)).

Definition handle_get_logs (active_requests error_requests : Z) (headers : HeaderMap) (q : LogsQueryParams)
    : outcome (result Z LogsResponse) :=
  match bearer (headers AUTHORIZATION ≫= header_to_str) with
  | None => Ret (Err UNAUTHORIZED)
  | Some auth_token =>
      u ← user_token auth_token;
      match u with
      | Err e => Ret (Err e)
      | Ok user_token =>
          match named from_str_name (status q) with
          | None => Ret (Ok (mkLogsResponse 0 None None []))
          | Some status_enum =>
              match named membership_from_str (membership_type q) with
              | None => Ret (Ok (mkLogsResponse 0 None None []))
              | Some membership_enum =>
                  match named (fun s => to_option (uid_from_str (as_bytes s))) (from_bytes <$> user_id q) with
                  | None => Ret (Err BAD_REQUEST)
                  | Some parsed_user_id =>
                      let '(active, error) :=
                        match user_token with
                        | Some _ => (None, None)
                        | None => (Some active_requests, Some error_requests)
                        end in
                      r ← get_logs (logs_params q user_token status_enum membership_enum parsed_user_id);
                      Ret (Ok (mkLogsResponse r.1 active error r.2))
                  end
              end
          end
      end
  end.

Fixpoint parse_keys (keys : list string) : outcome (list (string * TokenKey)) :=
  match keys with
  | [] => Ret []
  | s :: keys =>
      k ← key_from_string s;
      rest ← parse_keys keys;
      Ret (match k with Some key => (s, key) :: rest | None => rest end)
  end.

Definition handle_get_logs_tokens (headers : HeaderMap) (keys : list string) : outcome (result Z LogsTokensResponse) :=
  match bearer (headers AUTHORIZATION ≫= header_to_str) with
  | None => Ret (Err UNAUTHORIZED)
  | Some auth_token =>
      if bool_decide (auth_token = AUTH_TOKEN) then
        keys ← parse_keys keys;
        Ret (Ok (mkLogsTokensResponse (get_tokens keys logs ∅) (zlen keys)))
      else
        k ← caller_key auth_token;
        match k with
        | None => Ret (Err UNAUTHORIZED)
        | Some token_key =>
            match keys with
            | [key_str] =>
                k ← key_from_string key_str;
                match k with
                | Some key =>
                    if bool_decide (key = token_key)
                    then Ret (Ok (mkLogsTokensResponse {[ key_str := get_token token_key logs ]} 1))
                    else Ret (Err UNAUTHORIZED)
                | None => Ret (Err BAD_REQUEST)
                end
            | _ => Ret (Err UNAUTHORIZED)
            end
        end
  end.

(** ** Lemmas *)

Lemma caller_key_total tok : exists k, caller_key tok = Ret k.
Proof.
  unfold caller_key. destruct (key_from_string_total (from_bytes tok)) as [k ->]. cbn [mbind outcome_bind].
  destruct k; [eauto|]. destruct (parse_total cbor_decode KEY_PREFIX tok) as [p ->]. by eexists.
Qed.

Lemma parse_keys_total keys : exists l, parse_keys keys = Ret l.
Proof.
  induction keys as [|s keys [l IH]]; cbn [parse_keys]; [eauto|].
  destruct (key_from_string_total s) as [k ->]. cbn [mbind outcome_bind]. rewrite IH. by eexists.
Qed.

Lemma get_logs_spec params : log_wf logs ->
  let l := filter (fun log => table_matches (view logs) params log = true) (LogManager.logs logs) in
  get_logs params = Ret (zlen l, page_of params l).
Proof. intros Hwf. unfold get_logs. by rewrite filtered_logs_spec by (done || by apply Forall_forall). Qed.

End handlers.

Lemma page_of_elem params l log : log ∈ page_of params l -> log ∈ l.
Proof.
  unfold page_of. intros H. assert (H' : log ∈ (if p_reverse params then rev l else l)).
  { rewrite <- (take_drop (Z.to_nat (p_offset params)) (if p_reverse params then rev l else l)). apply elem_of_app. right.
    rewrite <- (take_drop (Z.to_nat (p_limit params)) (drop _ _)). apply elem_of_app. by left. }
  destruct (p_reverse params); [|done]. by apply list_elem_of_In, in_rev, list_elem_of_In in H'.
Qed.

Lemma matches_key t params log k : p_token_key params = Some k -> table_matches t params log = true -> log_token_key log = k.
Proof.
  intros Hk. unfold table_matches, checks_before_user. rewrite Hk. cbn [test forallb id].
  rewrite !andb_true_iff, bool_decide_eq_true. tauto.
Qed.

(** ** Properties *)

(** The administrator's page: no key restricts it. *)
Definition owner (auth_token AUTH_TOKEN : bytes) (k : option TokenKey) (caller : outcome (option TokenKey)) : Prop :=
  match k with
  | None => auth_token = AUTH_TOKEN
  | Some key => auth_token <> AUTH_TOKEN /\ caller = Ret (Some key)
  end.

Lemma user_token_spec providers cbor_decode KEY_PREFIX AUTH_TOKEN tok :
  exists u, user_token providers cbor_decode KEY_PREFIX AUTH_TOKEN tok = Ret u
    /\ match u with
       | Ok k => owner tok AUTH_TOKEN k (caller_key providers cbor_decode KEY_PREFIX tok)
       | Err e => e = UNAUTHORIZED /\ tok <> AUTH_TOKEN
       end.
Proof.
  unfold user_token. destruct (decide (tok = AUTH_TOKEN)) as [->|Hn].
  - rewrite bool_decide_true by done. by eexists.
  - rewrite bool_decide_false by done. destruct (caller_key_total providers cbor_decode KEY_PREFIX tok) as [k Ek].
    rewrite Ek. cbn [mbind outcome_bind]. eexists. split; [done|]. destruct k; cbn; auto.
Qed.

Lemma page_length params l : zlen (page_of params l) <= zlen l.
Proof.
  unfold page_of, zlen. rewrite length_take, length_drop. destruct (p_reverse params); rewrite ?length_rev; lia.
Qed.

Lemma get_logs_page logs params : log_wf logs ->
  exists n l, get_logs logs params = Ret (n, l) /\ zlen l <= n
    /\ forall log, log ∈ l -> log ∈ LogManager.logs logs /\ forall k, p_token_key params = Some k -> log_token_key log = k.
Proof.
  intros Hwf. rewrite get_logs_spec by done. eexists _, _. split; [done|]. split; [apply page_length|].
  intros log H. apply page_of_elem, list_elem_of_filter in H as [Hm Hin]. split; [done|].
  intros k Hk. exact (matches_key (view logs) params log k Hk Hm).
Qed.

(** A page that [handle_get_logs] answers with. *)
Definition page_allowed (logs : LogManager) (k : option TokenKey) (a : LogsResponse) : Prop :=
  (forall log, log ∈ page a -> log ∈ LogManager.logs logs) /\ zlen (page a) <= total a
  /\ match k with
     | None => True
     | Some key => active a = None /\ error a = None /\ forall log, log ∈ page a -> log_token_key log = key
     end.

Lemma no_page_allowed logs k : page_allowed logs k (mkLogsResponse 0 None None []).
Proof.
  unfold page_allowed. cbn. split; [intros ? H; by apply elem_of_nil in H|]. split; [done|].
  destruct k; [|done]. split_and!; try done. intros ? H. by apply elem_of_nil in H.
Qed.

Lemma handle_get_logs_page providers cbor_decode KEY_PREFIX AUTH_TOKEN logs active errors headers tok q :
  log_wf logs -> bearer (headers AUTHORIZATION ≫= header_to_str) = Some tok ->
  exists r, handle_get_logs providers cbor_decode KEY_PREFIX AUTH_TOKEN logs active errors headers q = Ret r
    /\ forall a, r = Ok a -> exists k, owner tok AUTH_TOKEN k (caller_key providers cbor_decode KEY_PREFIX tok)
         /\ page_allowed logs k a.
Proof.
  intros Hwf Hb. unfold handle_get_logs. rewrite Hb.
  destruct (user_token_spec providers cbor_decode KEY_PREFIX AUTH_TOKEN tok) as (u & -> & Hu). cbn [mbind outcome_bind].
  destruct u as [k|e]; [|by eexists].
  assert (Hno : forall a, Ok (mkLogsResponse 0 None None []) = Ok (E := Z) a -> exists k,
    owner tok AUTH_TOKEN k (caller_key providers cbor_decode KEY_PREFIX tok) /\ page_allowed logs k a)
    by (intros a [= <-]; exists k; split; [done|apply no_page_allowed]).
  destruct (named from_str_name (status q)) as [st|]; [|by eexists].
  destruct (named membership_from_str (membership_type q)) as [me|]; [|by eexists].
  destruct (named _ (from_bytes <$> user_id q)) as [id|]; [|by eexists].
  destruct (get_logs_page logs (logs_params q k st me id) Hwf) as (n & l & E & Hn & Hl).
  destruct k as [k|]; cbn beta iota; rewrite E; cbn [mbind outcome_bind fst snd]; (eexists; split; [done|]);
    intros a [= <-]; eexists; (split; [done|]); unfold page_allowed; cbn [page total LogRoutes.active error];
    (split; [intros log H; by apply Hl in H as [? _]|]); (split; [done|]); try done.
  split_and!; try done. intros log H. apply Hl in H as [_ H]. by apply H.
Qed.

Lemma handle_get_logs_tokens_spec providers cbor_decode KEY_PREFIX AUTH_TOKEN logs headers tok keys :
  bearer (headers AUTHORIZATION ≫= header_to_str) = Some tok ->
  exists t, handle_get_logs_tokens providers cbor_decode KEY_PREFIX AUTH_TOKEN logs headers keys = Ret t
    /\ forall a, t = Ok a -> tok <> AUTH_TOKEN ->
         exists k s, caller_key providers cbor_decode KEY_PREFIX tok = Ret (Some k) /\ key_from_string s = Ret (Some k)
           /\ found a = {[ s := get_token k logs ]}.
Proof.
  intros Hb. unfold handle_get_logs_tokens. rewrite Hb. destruct (decide (tok = AUTH_TOKEN)) as [->|Hn].
  { rewrite bool_decide_true by done. destruct (parse_keys_total keys) as [l ->]. by eexists. }
  rewrite bool_decide_false by done. destruct (caller_key_total providers cbor_decode KEY_PREFIX tok) as [k Ek].
  rewrite Ek. cbn [mbind outcome_bind]. destruct k as [k|]; [|by eexists]. destruct keys as [|s [|? ?]]; [by eexists| |by eexists].
  destruct (key_from_string_total s) as [ks Es]. rewrite Es. cbn [mbind outcome_bind]. destruct ks as [key|]; [|by eexists].
  destruct (decide (key = k)) as [->|Hk]; [rewrite bool_decide_true by done|rewrite bool_decide_false by done; by eexists].
  eexists. split; [done|]. intros a [= <-] _. by eexists _, s.
Qed.

(** C16: the request log is shown to its owners only: the handler of the log and the
    handler of its tokens return for every request; a page is the requested part
    of the entries that match, and for a caller who is not the administrator every
    entry of it, and every token, belongs to the key the caller presented. *)
Theorem logs_confined providers cbor_decode KEY_PREFIX AUTH_TOKEN logs active errors headers tok q keys :
  log_wf logs -> bearer (headers AUTHORIZATION ≫= header_to_str) = Some tok ->
  exists r t, handle_get_logs providers cbor_decode KEY_PREFIX AUTH_TOKEN logs active errors headers q = Ret r
    /\ handle_get_logs_tokens providers cbor_decode KEY_PREFIX AUTH_TOKEN logs headers keys = Ret t
    /\ (forall a, r = Ok a ->
          (forall log, log ∈ page a -> log ∈ LogManager.logs logs)
          /\ zlen (page a) <= total a
          /\ (tok <> AUTH_TOKEN -> LogRoutes.active a = None /\ error a = None
              /\ exists k, caller_key providers cbor_decode KEY_PREFIX tok = Ret (Some k)
                 /\ forall log, log ∈ page a -> log_token_key log = k))
    /\ (forall a, t = Ok a -> tok <> AUTH_TOKEN ->
          exists k s, caller_key providers cbor_decode KEY_PREFIX tok = Ret (Some k) /\ key_from_string s = Ret (Some k)
            /\ found a = {[ s := get_token k logs ]}).
Proof.
  intros Hwf Hb.
  destruct (handle_get_logs_page providers cbor_decode KEY_PREFIX AUTH_TOKEN logs active errors headers tok q Hwf Hb) as (r & Er & Hr).
  destruct (handle_get_logs_tokens_spec providers cbor_decode KEY_PREFIX AUTH_TOKEN logs headers tok keys Hb) as (t & Et & Ht).
  exists r, t. split; [done|]. split; [done|]. split; [|done].
  intros a Ha. destruct (Hr a Ha) as (k & Hk & Hp & Hn & Hpk). split; [done|]. split; [done|]. intros Hne.
  destruct k as [k|]; [|done]. destruct Hk as [_ Hk], Hpk as (? & ? & ?). eauto.
Qed.

Definition example_query : LogsQueryParams :=
  mkLogsQuery (Some 10) None None None None None None None None None None None None None None None None None None None.

Lemma logs_confined_witness :
  exists r t, handle_get_logs DEFAULT_PROVIDERS (fun _ => None) (as_bytes "sk-") (as_bytes "root") log_manager_new 0 0
      (bearer_of "root") example_query = Ret r
    /\ handle_get_logs_tokens DEFAULT_PROVIDERS (fun _ => None) (as_bytes "sk-") (as_bytes "root") log_manager_new
      (bearer_of "root") ["x"%string] = Ret t.
Proof.
  destruct (logs_confined DEFAULT_PROVIDERS (fun _ => None) (as_bytes "sk-") (as_bytes "root") log_manager_new 0 0
    (bearer_of "root") (as_bytes "root") example_query ["x"%string]) as (r & t & E1 & E2 & _);
    [apply log_wf_new|vm_compute; reflexivity|eauto].
Defined.
