(* ===== verification/ChatModels.v ===== *)
(** * The records of the two public chat interfaces

    [src/src/core/model/openai.rs] and [anthropic.rs] as far as answers go,
    [src/src/common/model/tri.rs], the role of [src/src/core/model.rs], the usage
    conversions of [src/src/app/model.rs], the error bodies of
    [src/src/core/error/canonical.rs], the thinking tags of
    [src/src/app/constant.rs] and the two [extend_from_slice] of
    [src/src/core/service.rs], which write one server-sent event.

    [Serialize] is the trait of serde: the JSON value a record is written as, with
    the fields in the order of the code; [unreachable_unchecked] is [Undef].  The
    text of a JSON value ([serde_json], compact form) is the parameter [print].
    The client's view of a body of events, [sse_events], is a specification. *)
From S2P Require Import Prelude Strings Numerals Floats ProtoEncode TokenInfo LogManager UpstreamErrors Auth.

(** ** JSON values and serde *)

Inductive json : Type :=
| JNull | JBool (b : bool) | JInt (n : Z) | JFloat (x : f64) | JStr (s : string)
| JArr (l : list json) | JObj (l : list (string * json)).

Class Serialize (A : Type) := serialize : A -> outcome json.

#[export] Instance serialize_string : Serialize string := fun s => Ret (JStr s).
#[export] Instance serialize_int : Serialize Z := fun n => Ret (JInt n).
#[export] Instance serialize_json : Serialize json := Ret.
#[export] Instance serialize_list {A} `{Serialize A} : Serialize (list A) := fun l => js ← mapM serialize l; Ret (JArr js).
#[export] Instance serialize_option {A} `{Serialize A} : Serialize (option A) :=
  fun o => match o with Some a => serialize a | None => Ret JNull end.

(** [serialize_field], and the field that [skip_serializing_if] drops. *)
Definition field {A} `{Serialize A} (name : string) (a : A) : list (string * outcome json) := [(name, serialize a)].
Definition field_unless {A} `{Serialize A} (skip : A -> bool) (name : string) (a : A) : list (string * outcome json) :=
  if skip a then [] else field name a.
Definition keyed (p : string * outcome json) : outcome (string * json) := j ← p.2; Ret (p.1, j).
Definition object (fields : list (string * outcome json)) : outcome json :=
  l ← mapM keyed fields; Ret (JObj l).
Definition null : option Z := None.

(** ** The OpenAI interface *)

Inductive Role : Type := System | User | Assistant.
#[export] Instance Role_eq_dec : EqDecision Role.
Proof. solve_decision. Defined.
Definition role_str (r : Role) : string :=
  match r with System => "system" | User => "user" | Assistant => "assistant" end.
#[export] Instance serialize_Role : Serialize Role := fun r => Ret (JStr (role_str r)).

(** [Null(false)] is never written. *)
Inductive TriState (T : Type) : Type := Null (b : bool) | Value (t : T).
Arguments Null {T} b.
Arguments Value {T} t.
Definition is_undefined {T} (t : TriState T) : bool := match t with Null false => true | _ => false end.
Definition tri_json {T} `{Serialize T} (t : TriState T) : outcome json :=
  match t with Null false => Undef | Null true => Ret JNull | Value value => serialize value end.
#[export] Instance serialize_TriState {T} `{Serialize T} : Serialize (TriState T) := tri_json.

Record OpenAiUsage : Type := mkUsage
  { prompt_tokens : Z; completion_tokens : Z; total_tokens : Z; cached_tokens : Z }.
Definition usage_default : OpenAiUsage := mkUsage 0 0 0 0.
Definition usage_json (u : OpenAiUsage) : outcome json :=
  object (field "prompt_tokens" (prompt_tokens u) ++ field "completion_tokens" (completion_tokens u) ++
          field "total_tokens" (total_tokens u) ++
          (if cached_tokens u =? 0 then []
           else [("prompt_tokens_details", object (field "cached_tokens" (cached_tokens u)))])).
#[export] Instance serialize_OpenAiUsage : Serialize OpenAiUsage := usage_json.

Record Delta : Type := mkDelta { d_role : option Role; d_content : option string }.
Definition delta_json (d : Delta) : outcome json :=
  object (field_unless is_none "role" (d_role d) ++ field_unless is_none "content" (d_content d)).
#[export] Instance serialize_Delta : Serialize Delta := delta_json.

Inductive MessageContentObject : Type := CText (text : string) | CImageUrl (url : string).
Inductive MessageContent : Type := CString (s : string) | CArray (l : list MessageContentObject).
Record OpenAiMessage : Type := mkMessage { m_role : Role; m_content : MessageContent }.
Definition into_text (c : MessageContentObject) : option string :=
  match c with CText text => Some text | CImageUrl _ => None end.
Definition content_object_json (c : MessageContentObject) : outcome json :=
  match c with
  | CText text => object (field "type" "text"%string ++ field "text" text)
  | CImageUrl url => object (field "type" "image_url"%string ++ [("image_url"%string, object (field "url" url))])
  end.
#[export] Instance serialize_MessageContentObject : Serialize MessageContentObject := content_object_json.
Definition message_json (m : OpenAiMessage) : outcome json :=
  object (field "role" (m_role m) ++
          match m_content m with CString s => field "content" s | CArray l => field "content" l end).
#[export] Instance serialize_OpenAiMessage : Serialize OpenAiMessage := message_json.

Definition FINISH_REASON_STOP : string := "stop".
Record Choice : Type := mkChoice
  { ch_index : Z; ch_message : option OpenAiMessage; ch_delta : option Delta; finish_reason : bool }.
Definition choice_json (c : Choice) : outcome json :=
  object (field "index" (ch_index c) ++ field_unless is_none "message" (ch_message c) ++
          field_unless is_none "delta" (ch_delta c) ++ field "logprobs" null ++
          field "finish_reason" (if finish_reason c then Some FINISH_REASON_STOP else None)).
#[export] Instance serialize_Choice : Serialize Choice := choice_json.

Definition OBJECT_CHAT_COMPLETION_CHUNK : string := "chat.completion.chunk".
Definition OBJECT_CHAT_COMPLETION : string := String.substring 0 15 OBJECT_CHAT_COMPLETION_CHUNK.
Record ChatResponse : Type := mkChatResponse
  { cr_id : string; cr_object : string; cr_created : Z; cr_model : option string;
    cr_choices : option Choice; cr_usage : TriState OpenAiUsage }.
(** [serialize_option_choice]: an array of at most one choice. *)
Definition option_choice_json (o : option Choice) : outcome json :=
  match o with Some choice => serialize [choice] | None => serialize (@nil Choice) end.
Definition chat_response_json (r : ChatResponse) : outcome json :=
  object (field "id" (cr_id r) ++ field "object" (cr_object r) ++ field "created" (cr_created r) ++
          field_unless is_none "model" (cr_model r) ++ [("choices"%string, option_choice_json (cr_choices r))] ++
          field_unless is_undefined "usage" (cr_usage r)).
#[export] Instance serialize_ChatResponse : Serialize ChatResponse := chat_response_json.

(** [ChainUsage::into_openai]. *)
Definition into_openai (u : ChainUsage) : OpenAiUsage :=
  mkUsage (cu_input u) (cu_output u) (add_i32 (cu_input u) (cu_output u)) (cu_cache_read u).

(** ** The Anthropic interface *)

Record AnthropicUsage : Type := mkAUsage
  { input_tokens : Z; output_tokens : Z; cache_creation_input_tokens : Z; cache_read_input_tokens : Z }.
Definition a_usage_default : AnthropicUsage := mkAUsage 0 0 0 0.
Definition i32_is_zero (i : Z) : bool := i =? 0.
Definition a_usage_json (u : AnthropicUsage) : outcome json :=
  object (field "input_tokens" (input_tokens u) ++ field "output_tokens" (output_tokens u) ++
          field_unless i32_is_zero "cache_creation_input_tokens" (cache_creation_input_tokens u) ++
          field_unless i32_is_zero "cache_read_input_tokens" (cache_read_input_tokens u)).
#[export] Instance serialize_AnthropicUsage : Serialize AnthropicUsage := a_usage_json.

Record MessageDeltaUsage : Type := mkDUsage
  { du_input_tokens : option Z; du_output_tokens : Z; du_cache_creation : Z; du_cache_read : Z }.
Definition d_usage_default : MessageDeltaUsage := mkDUsage None 0 0 0.
Definition d_usage_json (u : MessageDeltaUsage) : outcome json :=
  object (field_unless is_none "input_tokens" (du_input_tokens u) ++ field "output_tokens" (du_output_tokens u) ++
          field_unless i32_is_zero "cache_creation_input_tokens" (du_cache_creation u) ++
          field_unless i32_is_zero "cache_read_input_tokens" (du_cache_read u)).
#[export] Instance serialize_MessageDeltaUsage : Serialize MessageDeltaUsage := d_usage_json.

(** [ChainUsage::into_anthropic] and [into_anthropic_delta]. *)
Definition usage_into_anthropic (u : ChainUsage) : AnthropicUsage :=
  mkAUsage (cu_input u) (cu_output u) (cu_cache_write u) (cu_cache_read u).
Definition into_anthropic_delta (u : ChainUsage) : MessageDeltaUsage :=
  mkDUsage (if cu_input u =? 0 then None else Some (cu_input u)) (cu_output u) (cu_cache_write u) (cu_cache_read u).

Inductive StopReason : Type := EndTurn | ToolUse.
Definition stop_reason_str (r : StopReason) : string := match r with EndTurn => "end_turn" | ToolUse => "tool_use" end.
#[export] Instance serialize_StopReason : Serialize StopReason := fun r => Ret (JStr (stop_reason_str r)).

(** The input of a tool is an [IndexMap] from names to JSON values. *)
Inductive ContentBlock : Type :=
| BText (text : string)
| BThinking (thinking : string) (signature : option string)
| BRedactedThinking (data : string)
| BToolUse (id name : string) (input : list (string * json)).
Definition content_block_json (b : ContentBlock) : outcome json :=
  match b with
  | BText text => object (field "type" "text"%string ++ field "text" text)
  | BThinking thinking signature =>
      object (field "type" "thinking"%string ++ field "thinking" thinking ++ field_unless is_none "signature" signature)
  | BRedactedThinking data => object (field "type" "redacted_thinking"%string ++ field "data" data)
  | BToolUse id name input =>
      object (field "type" "tool_use"%string ++ field "id" id ++ field "name" name ++ field "input" (JObj input))
  end.
#[export] Instance serialize_ContentBlock : Serialize ContentBlock := content_block_json.

Inductive RawContentBlockDelta : Type :=
| TextDelta (text : string) | InputJsonDelta (partial_json : string)
| ThinkingDelta (thinking : string) | SignatureDelta (signature : string).
Definition block_delta_json (d : RawContentBlockDelta) : outcome json :=
  match d with
  | TextDelta text => object (field "type" "text_delta"%string ++ field "text" text)
  | InputJsonDelta partial_json => object (field "type" "input_json_delta"%string ++ field "partial_json" partial_json)
  | ThinkingDelta thinking => object (field "type" "thinking_delta"%string ++ field "thinking" thinking)
  | SignatureDelta signature => object (field "type" "signature_delta"%string ++ field "signature" signature)
  end.
#[export] Instance serialize_RawContentBlockDelta : Serialize RawContentBlockDelta := block_delta_json.

Record AnthropicMessage : Type := mkAMessage
  { am_content : list ContentBlock; am_usage : AnthropicUsage; am_id : string; am_model : string;
    am_stop_reason : option StopReason }.
Definition a_message_json (m : AnthropicMessage) : outcome json :=
  object (field "id" (am_id m) ++ field "type" "message"%string ++ field "role" "assistant"%string ++
          field "content" (am_content m) ++ field "model" (am_model m) ++ field "stop_reason" (am_stop_reason m) ++
          field "stop_sequence" null ++ field "usage" (am_usage m)).
#[export] Instance serialize_AnthropicMessage : Serialize AnthropicMessage := a_message_json.

(** [MessageDelta] is its stop reason. *)
Definition message_delta_json (stop_reason : StopReason) : outcome json :=
  object (field "stop_reason" stop_reason ++ field "stop_sequence" null).

Record AnthropicError : Type := mkAError { ae_type : string; ae_message : string }.
Definition a_error_inner_json (e : AnthropicError) : outcome json :=
  object (field "type" (ae_type e) ++ field "message" (ae_message e)).

Inductive RawMessageStreamEvent : Type :=
| MessageStart (message : AnthropicMessage)
| MessageDelta (stop_reason : StopReason) (usage : MessageDeltaUsage)
| ContentBlockStart (index : Z) (content_block : ContentBlock)
| ContentBlockDelta (index : Z) (delta : RawContentBlockDelta)
| ContentBlockStop (index : Z)
| Ping
| EventError (error : AnthropicError).
Definition type_name (e : RawMessageStreamEvent) : string :=
  match e with
  | MessageStart _ => "message_start"
  | MessageDelta _ _ => "message_delta"
  | ContentBlockStart _ _ => "content_block_start"
  | ContentBlockDelta _ _ => "content_block_delta"
  | ContentBlockStop _ => "content_block_stop"
  | Ping => "ping"
  | EventError _ => "error"
  end.
Definition event_json (e : RawMessageStreamEvent) : outcome json :=
  object (field "type" (type_name e) ++
    match e with
    | MessageStart message => field "message" message
    | MessageDelta stop_reason usage => [("delta"%string, message_delta_json stop_reason)] ++ field "usage" usage
    | ContentBlockStart index content_block => field "index" index ++ field "content_block" content_block
    | ContentBlockDelta index delta => field "index" index ++ field "delta" delta
    | ContentBlockStop index => field "index" index
    | Ping => []
    | EventError error => [("error"%string, a_error_inner_json error)]
    end).
#[export] Instance serialize_RawMessageStreamEvent : Serialize RawMessageStreamEvent := event_json.

(** ** Error bodies *)

Definition error_body_json (e : ErrorBody) : outcome json :=
  match e with
  | OpenAiBody code message =>
      object (field "type" "error"%string ++ field "code" code ++ field "message" message ++ field "param" null)
  | AnthropicBody type message =>
      object (field "type" "error"%string ++ [("error"%string, a_error_inner_json (mkAError type message))])
  | GenericBody code error message =>
      object (field "status" "error"%string ++ field_unless is_none "code" code ++ field "error" error ++
              field "message" message)
  end.
#[export] Instance serialize_ErrorBody : Serialize ErrorBody := error_body_json.

Definition details_json (d : CustomErrorDetails) : outcome json :=
  object (field "title" (ce_title d) ++ field "detail" (ce_detail d) ++
          (if (length (additional_info d) =? 0)%nat then []
           else field "additional_info" (JObj ((fun p => (p.1, JStr p.2)) <$> additional_info d)))).
#[export] Instance serialize_CustomErrorDetails : Serialize CustomErrorDetails := details_json.

(** ** Texts *)

(** [trim_leading_newlines]: two line feeds at the start, once. *)
Definition trim_leading_newlines (s : string) : string :=
  match as_bytes s with
  | 10 :: 10 :: rest => from_bytes rest
  | _ => s
  end.

Definition DEFAULT_THINKING_TAG_OPEN : string := "<think>".
Definition DEFAULT_THINKING_TAG_CLOSE : string := "</think>".
Definition DEFAULT_THINKING_TAG : string := String.substring 1 5 DEFAULT_THINKING_TAG_OPEN.
Definition MAX_TAG_LEN : nat := 16.

(** A copy out of a buffer of uninitialised bytes. *)
Definition buf_read (i n : nat) (buf : list (option Z)) : outcome bytes :=
  if (i + n <=? length buf)%nat then assume_init (take n (drop i buf)) else Undef.

(** [init_thinking_tags]: the opening and the closing tag of an environment value.
    [buf\[1\] = b'<'] is a checked index. *)
Definition init_thinking_tags (tag : bytes) : outcome (bytes * bytes) :=
  if bool_decide (tag = as_bytes DEFAULT_THINKING_TAG) then
    Ret (as_bytes DEFAULT_THINKING_TAG_OPEN, as_bytes DEFAULT_THINKING_TAG_CLOSE)
  else if (MAX_TAG_LEN - 3 <? length tag)%nat then
    Ret (as_bytes DEFAULT_THINKING_TAG_OPEN, as_bytes DEFAULT_THINKING_TAG_CLOSE)
  else
    let buf := repeat None MAX_TAG_LEN in
    buf ← copy_to [60] 1 buf;
    buf ← copy_to tag 2 buf;
    let open_len := (length tag + 2)%nat in
    buf ← copy_to [62] open_len buf;
    open_tag ← buf_read 1 open_len buf;
    buf ← copy_to [60] 0 buf;
    buf ← copy_to [47] 1 buf;
    let close_len := (open_len + 1)%nat in
    close_tag ← buf_read 0 close_len buf;
    Ret (open_tag, close_tag).

(** ** Bodies *)

Section body.
Context (print : json -> bytes).

(** [CanonicalError::into_openai] and [into_anthropic]. *)
Definition canonical_into_openai (e : CanonicalError) : outcome ErrorBody :=
  message ← match c_details e with
            | Some details => j ← serialize details; Ret (from_bytes (print j))
            | None => Ret UNKNOWN
            end;
  Ret (OpenAiBody (c_code e) message).
Definition canonical_into_anthropic (e : CanonicalError) : outcome AnthropicError :=
  let code := default UNKNOWN (c_code e) in
  message ← match c_details e with
            | Some details =>
                j ← object (field "code" code ++ field "details" details);
                Ret (from_bytes (print j))
            | None => Ret code
            end;
  Ret (mkAError (c_type e) message).
Definition wrapped (e : AnthropicError) : ErrorBody := AnthropicBody (ae_type e) (ae_message e).

(** One event of each interface: the two [extend_from_slice]. *)
Definition openai_event (value : ChatResponse) : outcome bytes :=
  j ← serialize value; Ret (as_bytes "data: " ++ print j ++ [10; 10]).
Definition anthropic_event (value : RawMessageStreamEvent) : outcome bytes :=
  j ← serialize value;
  Ret (as_bytes "event: " ++ as_bytes (type_name value) ++ [10] ++ as_bytes "data: " ++ print j ++ [10; 10]).
Definition DONE_EVENT : bytes := as_bytes "data: [DONE]" ++ [10; 10].
(** The event the Anthropic service writes as a literal. *)
Definition MESSAGE_STOP_DATA : bytes := [123; 34] ++ as_bytes "type" ++ [34; 58; 34] ++ as_bytes "message_stop" ++ [34; 125].
Definition MESSAGE_STOP_EVENT : bytes :=
  as_bytes "event: message_stop" ++ [10] ++ as_bytes "data: " ++ MESSAGE_STOP_DATA ++ [10; 10].

Definition openai_body (l : list ChatResponse) : outcome bytes :=
  bs ← mapM openai_event l; Ret (List.concat bs).
Definition anthropic_body (l : list RawMessageStreamEvent) : outcome bytes :=
  bs ← mapM anthropic_event l; Ret (List.concat bs).
End body.

(** ** What a client reads (specification)

    A body is a sequence of lines, the last of which is unfinished; a blank line
    ends an event, whose fields are its lines of the form [name: value]. *)

Record SseEvent : Type := mkSseEvent { ev_name : bytes; ev_data : bytes }.
#[export] Instance SseEvent_eq_dec : EqDecision SseEvent.
Proof. solve_decision. Defined.
Definition sse_field (e : SseEvent) (l : bytes) : SseEvent :=
  match strip_prefix (as_bytes "event: ") l with
  | Some name => mkSseEvent name (ev_data e)
  | None => match strip_prefix (as_bytes "data: ") l with
            | Some data => mkSseEvent (ev_name e) (ev_data e ++ data)
            | None => e
            end
  end.
Fixpoint sse_lines (e : SseEvent) (ls : list bytes) : list SseEvent :=
  match ls with
  | [] | [_] => []
  | [] :: ls => e :: sse_lines (mkSseEvent [] []) ls
  | l :: ls => sse_lines (sse_field e l) ls
  end.
Definition sse_events (body : bytes) : list SseEvent := sse_lines (mkSseEvent [] []) (split_on 10 body).

(** ** Lemmas *)

Create HintDb serde discriminated.

Lemma object_returns fs : Forall (fun p => returns p.2) fs -> returns (object fs).
Proof.
  intros H. unfold object. assert (exists l, mapM keyed fs = Ret l) as [l ->]; [|by eexists].
  induction H as [|[k o] fs [j Hj] _ [l IH]]; [by eexists|]. cbn in *. subst o. cbn. rewrite IH. by eexists.
Qed.
Lemma field_returns {A} `{Serialize A} name (a : A) :
  returns (serialize a) -> Forall (fun p => returns p.2) (field name a).
Proof. intros Ha. by repeat constructor. Qed.
Lemma field_unless_returns {A} `{Serialize A} skip name (a : A) :
  (skip a = false -> returns (serialize a)) -> Forall (fun p => returns p.2) (field_unless skip name a).
Proof. unfold field_unless. destruct (skip a); [done|]. intros Ha. by apply field_returns, Ha. Qed.
Lemma list_returns {A} `{Serialize A} (l : list A) :
  Forall (fun a => returns (serialize a)) l -> returns (serialize l).
Proof.
  intros Ha. assert (exists js, mapM serialize l = Ret js) as [js E].
  { induction Ha as [|a l [j Hj] _ [js IH]]; [by eexists|]. cbn. rewrite Hj. cbn. rewrite IH. by eexists. }
  exists (JArr js). unfold serialize, serialize_list. by rewrite E.
Qed.
Lemma option_returns {A} `{Serialize A} (o : option A) :
  (forall a, o = Some a -> returns (serialize a)) -> returns (serialize o).
Proof. intros Ha. destruct o as [a|]; [by apply Ha|by eexists]. Qed.
Lemma string_returns (s : string) : returns (serialize s).
Proof. by eexists. Qed.
Lemma int_returns (n : Z) : returns (serialize n).
Proof. by eexists. Qed.
Lemma json_returns (j : json) : returns (serialize j).
Proof. by eexists. Qed.
Lemma role_returns (r : Role) : returns (serialize r).
Proof. by eexists. Qed.
Lemma stop_reason_returns (r : StopReason) : returns (serialize r).
Proof. by eexists. Qed.
#[export] Hint Resolve string_returns int_returns json_returns role_returns stop_reason_returns : serde.

(** Splits an object into the values of its fields. *)
Ltac fields :=
  repeat first
    [ solve [eauto with serde]
    | apply object_returns
    | apply Forall_app; split
    | apply field_returns
    | apply field_unless_returns; intros
    | apply option_returns; intros
    | apply Forall_cons; split; cbn [snd]
    | apply Forall_nil; exact I ].

Lemma usage_returns (u : OpenAiUsage) : returns (serialize u).
Proof. unfold serialize, serialize_OpenAiUsage, usage_json. fields. destruct (_ =? 0); fields. Qed.
Lemma delta_returns (d : Delta) : returns (serialize d).
Proof. unfold serialize, serialize_Delta, delta_json. fields. Qed.
Lemma content_object_returns (c : MessageContentObject) : returns (serialize c).
Proof. unfold serialize, serialize_MessageContentObject. destruct c; cbn [content_object_json]; fields. Qed.
#[export] Hint Resolve usage_returns delta_returns content_object_returns : serde.
Lemma message_returns (m : OpenAiMessage) : returns (serialize m).
Proof.
  unfold serialize, serialize_OpenAiMessage, message_json. fields. destruct (m_content m); fields.
  apply list_returns, Forall_forall. eauto with serde.
Qed.
#[export] Hint Resolve message_returns : serde.
Lemma choice_returns (c : Choice) : returns (serialize c).
Proof. unfold serialize, serialize_Choice, choice_json. fields. Qed.
#[export] Hint Resolve choice_returns : serde.
Lemma tri_returns {T} `{Serialize T} (t : TriState T) :
  is_undefined t = false -> (forall v : T, returns (serialize v)) -> returns (serialize t).
Proof. destruct t as [[|]|v]; [by eexists|done|eauto]. Qed.
Lemma chat_response_returns (r : ChatResponse) : returns (serialize r).
Proof.
  unfold serialize, serialize_ChatResponse, chat_response_json. fields.
  - unfold option_choice_json. destruct (cr_choices r); apply list_returns; fields.
  - apply tri_returns; [done|]. intros. fields.
Qed.

Lemma a_usage_returns (u : AnthropicUsage) : returns (serialize u).
Proof. unfold serialize, serialize_AnthropicUsage, a_usage_json. fields. Qed.
Lemma d_usage_returns (u : MessageDeltaUsage) : returns (serialize u).
Proof. unfold serialize, serialize_MessageDeltaUsage, d_usage_json. fields. Qed.
Lemma content_block_returns (b : ContentBlock) : returns (serialize b).
Proof. unfold serialize, serialize_ContentBlock. destruct b; cbn [content_block_json]; fields. Qed.
Lemma block_delta_returns (d : RawContentBlockDelta) : returns (serialize d).
Proof. unfold serialize, serialize_RawContentBlockDelta. destruct d; cbn [block_delta_json]; fields. Qed.
#[export] Hint Resolve a_usage_returns d_usage_returns content_block_returns block_delta_returns : serde.
Lemma a_message_returns (m : AnthropicMessage) : returns (serialize m).
Proof. unfold serialize, serialize_AnthropicMessage, a_message_json. fields. by apply list_returns, Forall_true, content_block_returns. Qed.
#[export] Hint Resolve a_message_returns : serde.
Lemma event_returns (e : RawMessageStreamEvent) : returns (serialize e).
Proof.
  unfold serialize, serialize_RawMessageStreamEvent, event_json. fields.
  destruct e; fields.
Qed.
Lemma details_returns (d : CustomErrorDetails) : returns (serialize d).
Proof.
  unfold serialize, serialize_CustomErrorDetails, details_json. fields. destruct (_ =? _)%nat; fields.
Qed.
#[export] Hint Resolve chat_response_returns event_returns details_returns : serde.

Lemma mapM_ret {A B} (f : A -> outcome B) l : Forall (fun a => returns (f a)) l -> exists bs, mapM f l = Ret bs.
Proof.
  induction 1 as [|a l [b Hb] _ [bs IH]]; [by exists []|]. exists (b :: bs). cbn. rewrite Hb. cbn. by rewrite IH.
Qed.

Lemma concat_outcomes {A} (f : A -> outcome bytes) a l b body :
  f a = Ret b -> (bs ← mapM f l; Ret (List.concat bs)) = Ret body ->
  (bs ← mapM f (a :: l); Ret (List.concat bs)) = Ret (b ++ body).
Proof.
  intros Ha E. cbn. rewrite Ha. cbn. destruct (mapM f l) as [bs| |]; [|done..]. cbn in E |- *. by injection E as <-.
Qed.

(** ** Bodies and events *)

Definition quiet (bs : bytes) : Prop := Forall (fun b => b <> 10) bs.
#[export] Instance quiet_dec bs : Decision (quiet bs).
Proof. unfold quiet. apply _. Defined.

Lemma sse_line e l rest : quiet l -> l <> [] ->
  sse_lines e (split_on 10 (l ++ [10] ++ rest)) = sse_lines (sse_field e l) (split_on 10 rest).
Proof.
  intros Hq Hn. cbn [app]. rewrite split_on_app by done.
  destruct (split_on_cons 10 rest) as (p & ps & ->). by destruct l.
Qed.
Lemma sse_blank e rest : sse_lines e (split_on 10 (10 :: rest)) = e :: sse_events rest.
Proof.
  unfold sse_events. change (split_on 10 (10 :: rest)) with ([] :: split_on 10 rest).
  by destruct (split_on_cons 10 rest) as (p & ps & ->).
Qed.
Lemma sse_data e data rest : quiet data ->
  sse_lines e (split_on 10 (as_bytes "data: " ++ data ++ [10; 10] ++ rest)) =
  mkSseEvent (ev_name e) (ev_data e ++ data) :: sse_events rest.
Proof.
  intros Hq. rewrite app_assoc. change ([10; 10] ++ rest) with ([10] ++ 10 :: rest).
  rewrite sse_line; [|by apply Forall_app; split; [by_decision|]|done]. by rewrite sse_blank.
Qed.
Lemma sse_named name data rest : quiet name -> quiet data ->
  sse_events (as_bytes "event: " ++ name ++ [10] ++ as_bytes "data: " ++ data ++ [10; 10] ++ rest) =
  mkSseEvent name data :: sse_events rest.
Proof.
  intros Hn Hq. unfold sse_events. rewrite app_assoc.
  rewrite sse_line; [|apply Forall_app; split; [by_decision|done]|done].
  by rewrite sse_data.
Qed.
Lemma type_name_quiet e : quiet (as_bytes (type_name e)).
Proof. destruct e; by_decision. Qed.

Section read_back.
Context (print : json -> bytes) (Hprint : forall j, quiet (print j)).

(** The JSON texts of the events, as the client finds them. *)
Definition reads {A} `{Serialize A} (name : A -> bytes) (l : list A) (es : list SseEvent) : Prop :=
  Forall2 (fun a e => exists j, serialize a = Ret j /\ e = mkSseEvent (name a) (print j)) l es.

Lemma openai_body_reads l :
  exists body es, openai_body print l = Ret body /\ reads (fun _ => []) l es /\
    forall rest, sse_events (body ++ rest) = es ++ sse_events rest.
Proof.
  induction l as [|r l (body & es & E & R & IH)];
    [exists [], []; split_and!; [done|constructor|done]|].
  destruct (chat_response_returns r) as [j Ej].
  exists ((as_bytes "data: " ++ print j ++ [10; 10]) ++ body), (mkSseEvent [] (print j) :: es). split_and!.
  - apply concat_outcomes; [unfold openai_event; by rewrite Ej|done].
  - constructor; [by exists j|done].
  - intros rest. rewrite <- !app_assoc. unfold sse_events at 1. rewrite sse_data by done.
    cbn [ev_name ev_data app]. by rewrite IH.
Qed.
Lemma anthropic_body_reads l :
  exists body es, anthropic_body print l = Ret body /\ reads (fun e => as_bytes (type_name e)) l es /\
    forall rest, sse_events (body ++ rest) = es ++ sse_events rest.
Proof.
  induction l as [|r l (body & es & E & R & IH)];
    [exists [], []; split_and!; [done|constructor|done]|].
  destruct (event_returns r) as [j Ej].
  exists ((as_bytes "event: " ++ as_bytes (type_name r) ++ [10] ++ as_bytes "data: " ++ print j ++ [10; 10]) ++ body),
    (mkSseEvent (as_bytes (type_name r)) (print j) :: es). split_and!.
  - apply concat_outcomes; [unfold anthropic_event; by rewrite Ej|done].
  - constructor; [by exists j|done].
  - intros rest. rewrite <- !app_assoc. rewrite sse_named by (done || apply type_name_quiet). by rewrite IH.
Qed.
End read_back.

(** ** Texts *)

Lemma from_bytes_app a b : from_bytes (a ++ b) = from_bytes a +:+ from_bytes b.
Proof. induction a as [|x a IH]; cbn; [done|]. by rewrite IH. Qed.

(** The text is long enough to tell whether it starts with two line feeds. *)
Definition settled (s : string) : Prop := s <> EmptyString /\ as_bytes s <> [10].
#[export] Instance settled_dec s : Decision (settled s).
Proof. unfold settled. apply _. Defined.

Lemma trim_strip s :
  trim_leading_newlines s = match strip_prefix [10; 10] (as_bytes s) with Some r => from_bytes r | None => s end.
Proof.
  unfold trim_leading_newlines. destruct (strip_prefix [10; 10] (as_bytes s)) as [r|] eqn:E.
  - apply strip_prefix_Some in E as ->. done.
  - assert (forall r, as_bytes s <> 10 :: 10 :: r) as Hn.
    { intros r Er. rewrite Er in E. discriminate (eq_trans (eq_sym (strip_prefix_app [10; 10] r)) E). }
    repeat case_match; naive_solver.
Qed.
Lemma trim_app s rest : settled s -> trim_leading_newlines (s +:+ rest) = trim_leading_newlines s +:+ rest.
Proof.
  intros [Hne Hnl]. rewrite !trim_strip, as_bytes_app.
  destruct (strip_prefix [10; 10] (as_bytes s)) as [r|] eqn:E.
  - apply strip_prefix_Some in E as ->. rewrite <- app_assoc, strip_prefix_app.
    by rewrite from_bytes_app, from_bytes_as_bytes.
  - destruct (strip_prefix [10; 10] (as_bytes s ++ as_bytes rest)) as [r|] eqn:E'; [|done].
    apply strip_prefix_Some in E'. destruct (as_bytes s) as [|b1 [|b2 l]] eqn:Es.
    + by destruct s.
    + injection E' as ->. done.
    + injection E' as -> -> El. discriminate (eq_trans (eq_sym (strip_prefix_app [10; 10] l)) E).
Qed.

(** Every tag of at most thirteen bytes is put between angle brackets; a longer one
    is replaced by the default.  No byte of the buffer is read before it is written. *)
Lemma init_thinking_tags_spec tag :
  init_thinking_tags tag =
  Ret (if (length tag <=? 13)%nat then ([60] ++ tag ++ [62], [60; 47] ++ tag ++ [62])
       else (as_bytes "<think>", as_bytes "</think>")).
Proof.
  unfold init_thinking_tags. case_bool_decide as Ht; [by subst tag|].
  destruct (Nat.leb_spec (length tag) 13) as [H|H].
  - change (MAX_TAG_LEN - 3)%nat with 13%nat. destruct (Nat.ltb_spec 13 (length tag)); [lia|].
    clear Ht. do 14 (destruct tag as [|? tag]; [reflexivity|cbn [length] in *]). lia.
  - change (MAX_TAG_LEN - 3)%nat with 13%nat. by destruct (Nat.ltb_spec 13 (length tag)); [|lia].
Qed.

(** ** A printer for the examples *)

Definition escape_byte (b : Z) : bytes :=
  if b =? 10 then [92; 110] else if (b =? 34) || (b =? 92) then [92; b] else [b].
Definition quoted (s : string) : bytes := [34] ++ List.concat (escape_byte <$> as_bytes s) ++ [34].
Fixpoint compact (j : json) : bytes :=
  match j with
  | JNull | JFloat _ => as_bytes "null"
  | JBool b => if b then as_bytes "true" else as_bytes "false"
  | JInt n => (if n <? 0 then [45] else []) ++ as_bytes (to_dec (Z.abs n))
  | JStr s => quoted s
  | JArr l => [91] ++ join_with [44] (compact <$> l) ++ [93]
  | JObj l => [123] ++ join_with [44] ((fun p => quoted p.1 ++ [58] ++ compact p.2) <$> l) ++ [125]
  end.

Lemma quiet_app a b : quiet a -> quiet b -> quiet (a ++ b).
Proof. intros. by apply Forall_app. Qed.
Lemma quiet_join l : Forall quiet l -> quiet (join_with [44] l).
Proof.
  induction 1 as [|x l Hx Hl IH]; [constructor|]. destruct l as [|y l]; [done|].
  cbn [join_with]. apply quiet_app; [done|]. by constructor.
Qed.
Lemma quoted_quiet s : quiet (quoted s).
Proof.
  unfold quoted. apply quiet_app; [by_decision|]. apply quiet_app; [|by_decision].
  induction (as_bytes s) as [|b bs IH]; [constructor|]. cbn. apply quiet_app; [|done].
  unfold escape_byte. destruct (Z.eqb_spec b 10); [by_decision|]. destruct (_ || _); by repeat constructor.
Qed.
Lemma to_dec_quiet n : quiet (as_bytes (to_dec n)).
Proof.
  unfold to_dec. pose proof (dec_digits_range n) as H. rewrite as_bytes_from_bytes;
    apply Forall_fmap; eapply Forall_impl; try exact H; cbn; unfold in_uint; lia.
Qed.
Lemma compact_quiet : forall j, quiet (compact j).
Proof.
  fix IH 1. intros [| b | n | x | s | l | l]; cbn [compact].
  - by_decision.
  - destruct b; by_decision.
  - apply quiet_app; [destruct (n <? 0); by_decision|apply to_dec_quiet].
  - by_decision.
  - apply quoted_quiet.
  - apply quiet_app; [by_decision|]. apply quiet_app; [|by_decision]. apply quiet_join, Forall_fmap.
    induction l as [|j l IHl]; constructor; [apply IH|apply IHl].
  - apply quiet_app; [by_decision|]. apply quiet_app; [|by_decision]. apply quiet_join, Forall_fmap.
    induction l as [|[k j] l IHl]; constructor; [|apply IHl].
    change (quiet (quoted k ++ [58] ++ compact j)). apply quiet_app; [apply quoted_quiet|]. apply (quiet_app [58]); [by_decision|apply IH].
Qed.
