(* ===== verification/AnswerStream.v ===== *)
(** * What the two chat services share: from decoded messages to a response

    The two handlers [handle_chat_completions] and [handle_messages] of
    [src/src/core/service.rs] drive the decoder of answers with the same code, and
    differ in how messages are rendered.  That difference is the interface
    [Renderer]: the state of the rendering, the function that renders a batch of
    messages, what an upstream error in mid-stream becomes, and the error bodies.
    [RendererLaws] is what the lemmas need of it; [AnswerOpenai] and
    [AnswerAnthropic] are the two implementations.

    A chunk of the upstream response is [Ok] bytes or [Err], the text of a read
    error.  A chunk on which the stream waits for itself is [None] of [later_chunk];
    what was sent before it is the [Unfinished] body.  What a handler does beside answering is an [Effects]: the updates sent
    to the actor of the log ([LogManager]), in order, and how often the error
    counter is increased.  The codecs, the clock and the logged times are given. *)
From S2P Require Import Prelude Strings Floats StringBuilder GrpcStream ResponseDecoder LogManager UpstreamErrors Auth ChatModels.

Record Effects (A : Type) : Type := mkEffects { updates : list LogUpdate; errors : Z; reply : result (Z * ErrorBody) A }.
Arguments mkEffects {A} _ _ _.
Arguments updates {A} _.
Arguments errors {A} _.
Arguments reply {A} _.

(** The body of a response: all of it, or what is sent before the stream hangs; the
    connection then stays open and carries nothing more. *)
Inductive Body : Type := Whole (content : bytes) | Unfinished (content : bytes).

(** A chunk of the upstream response. *)
Definition Chunk : Type := result bytes bytes.

Definition ERR_STREAM_RESPONSE : string := "Empty stream response".
Definition ERR_RESPONSE_RECEIVED : string := "Empty response received".
Definition read_error (e : bytes) : ChatError := RequestFailed (as_bytes "Failed to read response chunk: " ++ e).
Definition empty_answer (err : string) : ChatError := RequestFailed (as_bytes err).

(** ** The interface *)

Record Renderer (S W : Type) : Type := mkRenderer
  { process_messages : S -> list StreamMessage -> list W * list LogUpdate * S;
    ended : S -> bool;
    on_upstream : S -> CanonicalError -> outcome (list W * list LogUpdate * S);
    to_body : ChatError -> ErrorBody;
    canonical_body : CanonicalError -> outcome ErrorBody }.
Arguments process_messages {S W} _ _ _.
Arguments ended {S W} _ _.
Arguments on_upstream {S W} _ _ _.
Arguments to_body {S W} _ _.
Arguments canonical_body {S W} _ _.

(** One batch after another. *)
Definition run_two {S W} (r : Renderer S W) (st : S) (a b : list StreamMessage) : list W * list LogUpdate * S :=
  let '(r1, u1, st1) := process_messages r st a in
  let '(r2, u2, st2) := process_messages r st1 b in (r1 ++ r2, u1 ++ u2, st2).

Record RendererLaws {S W} (r : Renderer S W) : Prop := mkRendererLaws
  { law_nil : forall st, process_messages r st [] = ([], [], st);
    law_app : forall st a b, existsb is_end_message a = false ->
      process_messages r st (a ++ b) = run_two r st a b;
    law_upto : forall st ms, process_messages r st ms = process_messages r st (upto_end ms);
    law_end : forall st ms, existsb is_end_message ms = true -> ended r (process_messages r st ms).2 = true;
    law_not_end : forall st ms, existsb is_end_message ms = false -> ended r st = false ->
      ended r (process_messages r st ms).2 = false;
    law_body : forall e, exists b, canonical_body r e = Ret b }.

Section service.
Context (gunzip : bytes -> option bytes) (decode_wrapper : bytes -> option (option Response)).
Context (cursor_error : bytes -> option CursorError) (delay : nat -> Z).
Context (convert_web_ref : bool) (time : f64).
Context {S W : Type} (r : Renderer S W).

(** ** The streamed response *)

(** The first phase: an upstream error and the end of the response are answered
    with an error, and so is a read error, without a word to the log. *)
Fixpoint first_result (d : StreamDecoder) (chunks : list Chunk)
    : outcome (result (Effects Body) (StreamDecoder * list Chunk)) :=
  if is_first_result_ready d then Ret (Ok (d, chunks)) else
  match chunks with
  | [] =>
      Ret (Err (mkEffects [UFailure (Simple ERR_STREAM_RESPONSE)] 1
                  (Err (500, to_body r (empty_answer ERR_STREAM_RESPONSE)))))
  | Err e :: _ => Ret (Err (mkEffects [] 0 (Err (500, to_body r (read_error e)))))
  | Ok c :: chunks =>
      '(res, d) ← decode gunzip decode_wrapper cursor_error delay d c convert_web_ref;
      match res with
      | Err (Upstream error) =>
          canonical ← canonical error;
          status ← c_http_status canonical;
          body ← canonical_body r canonical;
          Ret (Err (mkEffects [Failure2 (to_error_info canonical) time] 1 (Err (status, body))))
      | _ => first_result d chunks
      end
  end.

(** One later chunk: what it adds, and whether the upstream response is dropped; or
    [None] when it never comes to an end.  [match decoder.lock().await.decode(..)]
    holds the lock of the decoder in its arms, and the arm of an empty stream waits
    for that lock. *)
Definition later_chunk (st : S) (d : StreamDecoder) (chunk : Chunk)
    : outcome (option (list W * list LogUpdate * S * StreamDecoder * bool)) :=
  match chunk with
  | Err _ => Ret (Some ([], [], st, d, false))
  | Ok c =>
      '(res, d) ← decode gunzip decode_wrapper cursor_error delay d c convert_web_ref;
      match res with
      | Err EmptyStream => Ret None
      | Err (Upstream error) =>
          canonical ← canonical error;
          '(rs, us, st) ← on_upstream r st canonical;
          Ret (Some (rs, us, st, d, false))
      | Ok messages =>
          let '(first, d) := take_first_result d in
          let '(rs1, us1, st) := process_messages r st (default [] first) in
          let '(rs2, us2, st) := process_messages r st messages in
          Ret (Some (rs1 ++ rs2, us1 ++ us2, st, d, ended r st))
      end
  end.
(** The later chunks.  What follows the upstream response locks the decoder again:
    it is reached with the decoder, or not at all ([None]). *)
Fixpoint later_responses (st : S) (d : StreamDecoder) (chunks : list Chunk)
    : outcome (list W * list LogUpdate * option StreamDecoder) :=
  match chunks with
  | [] => Ret ([], [], Some d)
  | chunk :: chunks =>
      later ← later_chunk st d chunk;
      match later with
      | None => Ret ([], [], None)
      | Some (rs, us, st, d, dropped) =>
          if dropped : bool then Ret (rs, us, Some d) else
          '(rs', us', d) ← later_responses st d chunks;
          Ret (rs ++ rs', us ++ us', d)
      end
  end.

(** ** The answer given at once *)

(** [take] uses the messages of one chunk, and whether a tool call has been
    completed by then. *)
Fixpoint collect_chunks {A} (take : bool -> A -> list StreamMessage -> A) (d : StreamDecoder) (acc : A)
    (chunks : list Chunk) : outcome (result (Effects Body) (A * StreamDecoder)) :=
  match chunks with
  | [] => Ret (Ok (acc, d))
  | Err e :: _ => Ret (Err (mkEffects [] 0 (Err (500, to_body r (read_error e)))))
  | Ok c :: chunks =>
      '(res, d) ← decode gunzip decode_wrapper cursor_error delay d c convert_web_ref;
      match res with
      | Ok messages => collect_chunks take d (take (is_tool_processed d) acc messages) chunks
      | Err (Upstream error) =>
          canonical ← canonical error;
          status ← c_http_status canonical;
          body ← canonical_body r canonical;
          Ret (Err (mkEffects [UFailure (to_error_info canonical)] 1 (Err (status, body))))
      | Err EmptyStream => collect_chunks take d acc chunks
      end
  end.

(** ** Lemmas *)

Lemma emessages_inj (a b : list StreamMessage) : EMessage (E:=CursorError) <$> a = EMessage <$> b -> a = b.
Proof. apply list_fmap_eq_inj. by intros x y [= ->]. Qed.

Section laws.
Context (laws : RendererLaws r).

Lemma run_twice st a b : ends_only (a ++ b) -> process_messages r st (a ++ b) = run_two r st a b.
Proof.
  intros H. apply ends_only_app in H as (_ & Hab & _). destruct (existsb is_end_message a) eqn:Ha; [|by apply law_app].
  rewrite (Hab eq_refl), app_nil_r. unfold run_two. destruct (process_messages r st a) as [[? ?] ?].
  rewrite law_nil by done. by rewrite !app_nil_r.
Qed.

(** A later chunk that is empty or leaves too few bytes for a frame. *)
Lemma later_chunk_short st d c : c = [] \/ zlen (inner (sd_buffer d)) + zlen c < 5 -> later_chunk st d (Ok c) = Ret None.
Proof.
  intros Hc. cbn [later_chunk].
  by destruct (decode_short gunzip decode_wrapper cursor_error delay convert_web_ref d c Hc) as [d' ->].
Qed.

(** The chunks of a response without upstream error render what the decoder serves. *)
Lemma later_run cs : forall st d ms, ended r st = false ->
  later_chunks gunzip decode_wrapper cursor_error delay d convert_web_ref false cs = Ret (EMessage <$> ms, false) ->
  ends_only ms ->
  exists d', later_responses st d (Ok <$> cs) =
    Ret ((process_messages r st ms).1.1, (process_messages r st ms).1.2, Some d').
Proof.
  induction cs as [|c cs IH]; intros st d ms He H Ho; cbn [later_chunks] in H.
  { injection H as H. destruct ms; [|done]. exists d. by rewrite law_nil. }
  apply bind_Ret in H as ([res d1] & ED & H). rewrite fmap_cons. cbn [later_responses later_chunk].
  rewrite ED. cbn [mbind outcome_bind].
  destruct res as [messages|[e|]].
  - destruct (take_first_result d1) as [first d2]. cbn [orb] in H. rewrite (law_upto r laws st (default [] first)).
    destruct (existsb is_end_message (upto_end (default [] first) ++ upto_end messages)) eqn:Hend.
    + injection H as H. apply emessages_inj in H as <-.
      pose proof (law_end r laws st _ Hend) as Hs. rewrite run_twice in Hs |- * by done. unfold run_two in Hs |- *.
      destruct (process_messages r st (upto_end (default [] first))) as [[r1 u1] st1].
      rewrite (law_upto r laws st1 messages). destruct (process_messages r st1 (upto_end messages)) as [[r2 u2] st2].
      cbn in Hs |- *. rewrite Hs. by eexists.
    + apply bind_Ret in H as ([l hangs] & Hl & H). injection H as H ->.
      symmetry in H. apply fmap_app_inv in H as (ms1 & ms2 & Hm1 & Hm2 & ->). apply emessages_inj in Hm1 as <-.
      pose proof (law_not_end r laws st _ Hend He) as Hs.
      pose proof (law_app r laws st _ ms2 Hend) as E2. unfold run_two in E2. rewrite E2. clear E2.
      rewrite existsb_app in Hend. apply orb_false_iff in Hend as [Hf Hm].
      rewrite law_app in Hs |- * by done. unfold run_two in Hs |- *.
      destruct (process_messages r st (upto_end (default [] first))) as [[r1 u1] st1].
      rewrite (law_upto r laws st1 messages). destruct (process_messages r st1 (upto_end messages)) as [[r2 u2] st2].
      cbn in Hs |- *. rewrite Hs. rewrite Hm2 in Hl.
      destruct (IH st2 d2 ms2) as [d' E]; [by rewrite Hs|done|by apply ends_only_app in Ho as (_ & _ & Ho)|].
      rewrite E. destruct (process_messages r st2 ms2) as [[r3 u3] st3]. cbn. by eexists.
  - apply bind_Ret in H as ([l hangs] & _ & H). injection H as H _. by destruct ms.
  - discriminate H.
Qed.
End laws.

Lemma first_run cs : forall d d' cs',
  first_phase gunzip decode_wrapper cursor_error delay d convert_web_ref cs = Ret (Ok (d', cs')) ->
  first_result d (Ok <$> cs) = Ret (Ok (d', Ok <$> cs')).
Proof.
  induction cs as [|c cs IH]; intros d d' cs' H; cbn [first_phase] in H; rewrite ?fmap_cons; cbn [first_result fmap list_fmap];
    (destruct (is_first_result_ready d); [by injection H as <- <-|]); [done|].
  apply bind_Ret in H as ([res d1] & ED & H). rewrite ED. cbn [mbind outcome_bind].
  destruct res as [messages|[e|]]; [by apply IH|done|by apply IH].
Qed.

(** What is rendered of a response whose messages were served. *)
Lemma served_run (laws : RendererLaws r) st cs ms :
  serve gunzip decode_wrapper cursor_error delay convert_web_ref cs = Ret (Ok (EMessage <$> ms, false)) ->
  ends_only ms -> ended r st = false ->
  exists d1 cs1 d2, first_result stream_decoder_new (Ok <$> cs) = Ret (Ok (d1, Ok <$> cs1)) /\
    later_responses st d1 (Ok <$> cs1) =
      Ret ((process_messages r st ms).1.1, (process_messages r st ms).1.2, Some d2).
Proof.
  intros Hs Ho He. unfold serve in Hs. apply bind_Ret in Hs as ([[d1 cs1]|] & EF & Hs); [|done].
  apply bind_Ret in Hs as ([l hangs] & EL & Hs). injection Hs as -> ->.
  destruct (later_run laws cs1 st d1 ms He EL Ho) as [d2 E2]. exists d1, cs1, d2.
  split; [by apply first_run|done].
Qed.

(** An accumulator that respects [P] on every chunk does on the whole answer. *)
Lemma collect_run {A} (take : bool -> A -> list StreamMessage -> A) (P : list StreamMessage -> A -> Prop)
    (Htake : forall b l a ms, P l a -> P (l ++ ms) (take b a ms)) cs : forall d d' ms l a,
  collect_all gunzip decode_wrapper cursor_error delay d convert_web_ref cs = Ret (Ok ms, d') -> P l a ->
  exists a', collect_chunks take d a (Ok <$> cs) = Ret (Ok (a', d')) /\ P (l ++ ms) a'.
Proof.
  induction cs as [|c cs IH]; intros d d' ms l a H HP; cbn [collect_all] in H; rewrite ?fmap_cons; cbn [collect_chunks fmap list_fmap].
  - injection H as <- <-. exists a. by rewrite app_nil_r.
  - apply bind_Ret in H as ([res d1] & ED & H). rewrite ED. cbn [mbind outcome_bind].
    destruct res as [messages|[e|]]; [|done|by apply IH].
    apply bind_Ret in H as ([[l'|] d2] & EC & H); [|done]. injection H as <- <-. rewrite app_assoc.
    by apply (IH _ _ _ _ _ EC), Htake.
Qed.
Lemma collect_upstream {A} (take : bool -> A -> list StreamMessage -> A) (laws : RendererLaws r) more cs : forall d e d' a,
  collect_all gunzip decode_wrapper cursor_error delay d convert_web_ref cs = Ret (Err e, d') ->
  exists ce body, canonical e = Ret ce /\ canonical_body r ce = Ret body /\
    collect_chunks take d a ((Ok <$> cs) ++ more) =
      Ret (Err (mkEffects [UFailure (to_error_info ce)] 1 (Err (c_status_code ce, body)))).
Proof.
  induction cs as [|c cs IH]; intros d e d' a H; cbn [collect_all] in H; [done|].
  apply bind_Ret in H as ([res d1] & ED & H). rewrite fmap_cons. cbn [app collect_chunks]. rewrite ED. cbn [mbind outcome_bind].
  destruct res as [messages|[e'|]].
  - apply bind_Ret in H as ([[l|e'] d2] & EC & H); [done|]. injection H as <- <-. by apply (IH _ _ _ _ EC).
  - injection H as <- <-. destruct (canonical_total e') as [ce Ec]. destruct (law_body r laws ce) as [b Eb].
    exists ce, b. split_and!; [done..|]. rewrite Ec. cbn [mbind outcome_bind].
    rewrite (canonical_http _ _ Ec). cbn [mbind outcome_bind]. by rewrite Eb.
  - by apply (IH _ _ _ _ H).
Qed.
Lemma collect_broken {A} (take : bool -> A -> list StreamMessage -> A) x more cs : forall d ms d' a,
  collect_all gunzip decode_wrapper cursor_error delay d convert_web_ref cs = Ret (Ok ms, d') ->
  collect_chunks take d a ((Ok <$> cs) ++ Err x :: more) = Ret (Err (mkEffects [] 0 (Err (500, to_body r (read_error x))))).
Proof.
  induction cs as [|c cs IH]; intros d ms d' a H; cbn [collect_all] in H; [done|].
  apply bind_Ret in H as ([res d1] & ED & H). rewrite fmap_cons. cbn [app collect_chunks]. rewrite ED. cbn [mbind outcome_bind].
  destruct res as [messages|[e'|]]; [|done|by apply (IH _ _ _ _ H)].
  apply bind_Ret in H as ([[l|e'] d2] & EC & H); [|done]. injection H as <- <-. by apply (IH _ _ _ _ EC).
Qed.

(** ** Answers cut at the ends of frames *)

(** The frames [gs] hold the first content, [more] come behind them; the upstream
    answer is the messages [ms]. *)
Definition aligned (gs more : list (list RawMessage)) (ms : list StreamMessage) : Prop :=
  Forall group_ok (gs ++ more) /\ more <> [] /\ zlen (chunk_of (List.concat (gs ++ more))) < 2 ^ 63 /\
  exists l1 ctx1 l2 seen2 ctx2,
    frames_out gunzip decode_wrapper cursor_error convert_web_ref (mkContext 0 false) (List.concat gs) =
      Ret (Ok (l1, true), ctx1) /\
    frames_out gunzip decode_wrapper cursor_error convert_web_ref ctx1 (List.concat more) = Ret (Ok (l2, seen2), ctx2) /\
    l1 ++ l2 = ms.

Lemma aligned_served gs more ms : aligned gs more ms -> ends_only ms ->
  serve gunzip decode_wrapper cursor_error delay convert_web_ref (chunk_of <$> gs ++ more) = Ret (Ok (EMessage <$> ms, false)).
Proof.
  intros (Hg & Hm & _ & l1 & ctx1 & l2 & seen2 & ctx2 & F1 & F2 & <-) Ho.
  by apply (serve_aligned_spec gunzip decode_wrapper cursor_error delay convert_web_ref gs more l1 ctx1 l2 seen2 ctx2).
Qed.
Lemma aligned_collected gs more ms cs : aligned gs more ms -> List.concat cs = chunk_of (List.concat (gs ++ more)) ->
  exists d, collect_all gunzip decode_wrapper cursor_error delay (no_first_cache stream_decoder_new) convert_web_ref cs =
    Ret (Ok ms, d).
Proof.
  intros (Hg & Hm & Hz & l1 & ctx1 & l2 & seen2 & ctx2 & F1 & F2 & <-) Hcs.
  assert (Forall raw_ok (List.concat (gs ++ more))) as Hok.
  { clear -Hg. induction Hg as [|g l (_ & H & _) _ IH]; cbn; [done|]. by apply Forall_app. }
  pose proof (collect_spec gunzip decode_wrapper cursor_error delay convert_web_ref cs (no_first_cache stream_decoder_new)
    (List.concat (gs ++ more)) [] eq_refl eq_refl incomplete_nil) as HC.
  cbn [sd_buffer no_first_cache stream_decoder_new inner buffer_new app] in HC. rewrite Hcs in HC.
  specialize (HC (conj (frames_bytes _ Hok) Hz) (splits_frames _ Hok)).
  rewrite concat_app, frames_out_app in HC. cbn [context no_first_cache stream_decoder_new] in HC.
  rewrite F1 in HC. cbn [mbind outcome_bind] in HC. rewrite F2 in HC. cbn [mbind outcome_bind] in HC.
  destruct HC as (d & EC & _). by exists d.
Qed.
End service.

Lemma ends_only_end ms : existsb is_end_message ms = false -> ends_only (ms ++ [MStreamEnd]).
Proof. intros H. apply ends_only_check. by rewrite removelast_last. Qed.

(** ** Examples *)

(** A frame that starts with [?] carries a thought; the others are those of
    [ResponseDecoder]. *)
Definition thinking_wrapper (bs : bytes) : option (option Response) :=
  match bs with
  | 63 :: bs => Some (Some (RChat (ResponseDecoder.mkChatResponse EmptyString None
                                     (Some (mkProtoThinking (from_bytes bs) EmptyString EmptyString)))))
  | _ => text_wrapper bs
  end.
Definition no_error (bs : bytes) : option CursorError := None.
Definition end_frame : RawMessage := mkRawMessage 2 (as_bytes "{}").
Definition example_groups : list (list RawMessage) := [text_frames ["?why"; "Hello"]%string].
Definition example_more : list (list RawMessage) := [text_frames [" world"]%string ++ [end_frame]].
Definition example_messages : list StreamMessage :=
  [MThinking (ThinkingText "why"); MContent "Hello"; MContent " world"].
Lemma example_aligned :
  aligned no_gzip thinking_wrapper no_error false example_groups example_more (example_messages ++ [MStreamEnd]).
Proof.
  split_and!.
  - repeat (constructor; [split_and!; [done|by_decision|vm_compute; reflexivity]|]). constructor.
  - done.
  - vm_compute. reflexivity.
  - exists [MThinking (ThinkingText "why"); MContent "Hello"], (mkContext 0 false), [MContent " world"; MStreamEnd],
      true, (mkContext 0 false).
    split_and!; vm_compute; reflexivity.
Qed.
