(* ===== verification/AnswerOpenai.v ===== *)
(** * The answers of the OpenAI interface

    The second half of [handle_chat_completions] of [src/src/core/service.rs]: how the
    decoded messages of an upstream answer become the chunks of a streamed
    response, or the text of a response given at once.

    The loops over the chunks of the upstream response are those of [AnswerStream];
    this file renders the messages.  The state that the chunks share is
    [OpenAiState]: atomics that only this task uses.  The identifier, the creation
    time and the answer of [get_token_usage] are given. *)
From S2P Require Import Prelude Strings Floats StringBuilder GrpcStream ResponseDecoder LogManager UpstreamErrors Auth ChatModels.
From S2P Require Import AnswerStream.

(** ** The state *)

Record Settings : Type := mkSettings
  { s_response_id : string; s_model : string; s_created : Z; s_is_need : bool;
    s_tag_open : string; s_tag_close : string }.
Record OpenAiState : Type := mkState { is_start : bool; meet_thinking : bool; is_end : bool }.
Definition state_new : OpenAiState := mkState true false false.

(** ** Streamed chunks *)

Section messages.
Context (cx : Settings) (total_time : f64).

Definition chunk_response (model : option string) (delta : Delta) (finish : bool) : ChatResponse :=
  mkChatResponse (s_response_id cx) OBJECT_CHAT_COMPLETION_CHUNK (s_created cx) model
    (Some (mkChoice 0 None (Some delta) finish)) (Null (s_is_need cx)).
Definition first_model (is_first : bool) : option string := if is_first then Some (s_model cx) else None.
Definition first_role (is_first : bool) : option Role := if is_first then Some Assistant else None.
Definition first_text (is_first : bool) (text : string) : string :=
  if is_first then trim_leading_newlines text else text.

Definition content_chunks (st : OpenAiState) (text : string) : list ChatResponse * OpenAiState :=
  ((if meet_thinking st then [chunk_response None (mkDelta None (Some (s_tag_close cx))) false] else []) ++
   [chunk_response (first_model (is_start st))
      (mkDelta (first_role (is_start st)) (Some (first_text (is_start st) text))) false],
   mkState false false (is_end st)).
Definition thinking_chunks (st : OpenAiState) (text : string) : list ChatResponse * OpenAiState :=
  ((if meet_thinking st then [] else
      [chunk_response (first_model (is_start st)) (mkDelta (first_role (is_start st)) (Some (s_tag_open cx))) false]) ++
   [chunk_response None (mkDelta None (Some (first_text (is_start st) text))) false],
   mkState false true (is_end st)).
Definition end_chunks (st : OpenAiState) : list ChatResponse * OpenAiState :=
  ([chunk_response None (mkDelta None None) true], mkState (is_start st) (meet_thinking st) true).

Fixpoint render_messages (st : OpenAiState) (messages : list StreamMessage)
    : list ChatResponse * list LogUpdate * OpenAiState :=
  match messages with
  | [] => ([], [], st)
  | MContent text :: messages =>
      let '(rs, st) := content_chunks st text in
      let '(rs', us, st) := render_messages st messages in (rs ++ rs', us, st)
  | MThinking (ThinkingText text) :: messages =>
      let '(rs, st) := thinking_chunks st text in
      let '(rs', us, st) := render_messages st messages in (rs ++ rs', us, st)
  | MStreamEnd :: _ =>
      let '(rs, st) := end_chunks st in (rs, [Timing total_time], st)
  | _ :: messages => render_messages st messages
  end.
End messages.

Section service.
Context (gunzip : bytes -> option bytes) (decode_wrapper : bytes -> option (option Response)).
Context (cursor_error : bytes -> option CursorError) (delay : nat -> Z) (print : json -> bytes).
Context (convert_web_ref : bool) (cx : Settings) (time : f64) (usage : option ChainUsage).

(** An upstream error behind the first result becomes content. *)
Definition upstream_content (st : OpenAiState) (canonical : CanonicalError)
    : outcome (list ChatResponse * list LogUpdate * OpenAiState) :=
  body ← canonical_into_openai print canonical;
  message ← serialize body;
  Ret (render_messages cx time st [MContent (from_bytes (print message)); MStreamEnd]).
Definition openai : Renderer OpenAiState ChatResponse :=
  mkRenderer _ _ (render_messages cx time) is_end upstream_content chat_to_openai (canonical_into_openai print).

(** The event behind the upstream response. *)
Definition usage_response : ChatResponse :=
  mkChatResponse (s_response_id cx) OBJECT_CHAT_COMPLETION_CHUNK (s_created cx) None None
    (Value (default usage_default (into_openai <$> usage))).
Definition last_responses (d : StreamDecoder) : list ChatResponse * list LogUpdate :=
  let '(content_delays, d) := take_content_delays d in
  let '(thinking_content, d) := take_thinking_content d in
  (if s_is_need cx then [usage_response] else [],
   Delays content_delays thinking_content :: match usage with Some usage => [Usage usage] | None => [] end).

Definition answer_stream (chunks : list Chunk) : outcome (Effects Body) :=
  first ← first_result gunzip decode_wrapper cursor_error delay convert_web_ref time openai stream_decoder_new chunks;
  match first with
  | Err e => Ret e
  | Ok (d, chunks) =>
      '(rs, us, d) ← later_responses gunzip decode_wrapper cursor_error delay convert_web_ref openai state_new d chunks;
      body ← openai_body print rs;
      match d with
      | None => Ret (mkEffects us 0 (Ok (Unfinished body)))
      | Some d =>
          let '(rs', us') := last_responses d in
          last ← openai_body print rs';
          Ret (mkEffects (us ++ us') 0 (Ok (Whole (body ++ last ++ DONE_EVENT))))
      end
  end.

(** ** The answer given at once *)

Fixpoint take_texts (texts : string * string) (messages : list StreamMessage) : string * string :=
  let '(thinking_text, full_text) := texts in
  match messages with
  | [] => texts
  | MContent text :: messages => take_texts (thinking_text, full_text +:+ text) messages
  | MThinking (ThinkingText text) :: messages => take_texts (thinking_text +:+ text, full_text) messages
  | _ :: messages => take_texts texts messages
  end.

Definition full_text (thinking_text text : string) : outcome string :=
  if negb (String.eqb thinking_text EmptyString) then
    StringBuilder.concat [CBorrowed (s_tag_open cx); CBorrowed (trim_leading_newlines thinking_text);
                          CBorrowed (s_tag_close cx); CBorrowed text]
  else Ret (trim_leading_newlines text).

Definition text_response (text : string) : ChatResponse :=
  mkChatResponse (s_response_id cx) OBJECT_CHAT_COMPLETION (s_created cx) (Some (s_model cx))
    (Some (mkChoice 0 (Some (mkMessage Assistant (CString text))) None true))
    (Value (default usage_default (into_openai <$> usage))).

Definition answer_once (chunks : list Chunk) : outcome (Effects Body) :=
  collected ← collect_chunks gunzip decode_wrapper cursor_error delay convert_web_ref openai (fun _ => take_texts)
                (no_first_cache stream_decoder_new) (EmptyString, EmptyString) chunks;
  match collected with
  | Err e => Ret e
  | Ok (thinking_text, text, d) =>
      text ← full_text thinking_text text;
      if String.eqb text EmptyString then
        Ret (mkEffects [UFailure (Simple ERR_RESPONSE_RECEIVED)] 1
               (Err (500, chat_to_openai (empty_answer ERR_RESPONSE_RECEIVED))))
      else
        let '(content_delays, d) := take_content_delays d in
        let '(thinking_content, d) := take_thinking_content d in
        j ← serialize (text_response text);
        Ret (mkEffects [TimingChain time (mkChain content_delays usage thinking_content)] 0 (Ok (Whole (print j))))
  end.
End service.

(** ** What the client gets (specification) *)

Definition delta_text (r : ChatResponse) : string :=
  match cr_choices r with
  | Some c => match ch_delta c with Some d => default EmptyString (d_content d) | None => EmptyString end
  | None => EmptyString
  end.
Definition stream_text (rs : list ChatResponse) : string := concat_spec (delta_text <$> rs).
Definition finishes (r : ChatResponse) : bool :=
  match cr_choices r with Some c => finish_reason c | None => false end.
Definition names_role (r : ChatResponse) : bool :=
  match cr_choices r with
  | Some c => match ch_delta c with Some d => bool_decide (is_Some (d_role d)) | None => false end
  | None => false
  end.

(** The role is named once, by the first chunk. *)
Definition role_first (rs : list ChatResponse) : Prop :=
  match rs with r :: rs => names_role r = true /\ existsb names_role rs = false | [] => False end.

(** The texts of the two kinds. *)
Definition thought_of (m : StreamMessage) : option string :=
  match m with MThinking (ThinkingText t) => Some t | _ => None end.
Definition content_of (m : StreamMessage) : option string := match m with MContent t => Some t | _ => None end.
Definition thoughts (ms : list StreamMessage) : list string := omap thought_of ms.
Definition contents (ms : list StreamMessage) : list string := omap content_of ms.

(** The text an answer stands for. *)
Definition answer_text (cx : Settings) (ms : list StreamMessage) : string :=
  let thinking := concat_spec (thoughts ms) in
  let text := concat_spec (contents ms) in
  if String.eqb thinking EmptyString then trim_leading_newlines text
  else s_tag_open cx +:+ trim_leading_newlines thinking +:+ s_tag_close cx +:+ text.

(** Thoughts come before content, there is content, and the first text is long
    enough to be trimmed. *)
Definition well_phased (ms : list StreamMessage) : Prop :=
  exists a b, ms = a ++ b /\ contents a = [] /\ thoughts b = [] /\ existsb is_end_message ms = false /\
    contents b <> [] /\ match thoughts a ++ contents b with first :: _ => settled first | [] => False end.

(** ** Lemmas *)

Lemma stream_text_app a b : stream_text (a ++ b) = stream_text a +:+ stream_text b.
Proof. unfold stream_text. by rewrite fmap_app, concat_spec_app. Qed.

Section texts.
Context (cx : Settings) (t : f64).
Abbreviation run := (render_messages cx t).

Lemma run_app st a b : existsb is_end_message a = false ->
  run st (a ++ b) =
  let '(r1, u1, st1) := run st a in let '(r2, u2, st2) := run st1 b in (r1 ++ r2, u1 ++ u2, st2).
Proof.
  revert st. induction a as [|m a IH]; intros st Hn.
  - cbn. by destruct (run st b) as [[? ?] ?].
  - cbn [app existsb] in *. apply orb_false_iff in Hn as [Hm Hn].
    destruct m as [refs|[x|x|x]|x|c|]; cbn [render_messages]; try by apply IH.
    + destruct (thinking_chunks cx st x) as [rs st']. rewrite IH by done.
      destruct (run st' a) as [[r1 u1] st1]. destruct (run st1 b) as [[r2 u2] st2]. by rewrite app_assoc.
    + destruct (content_chunks cx st x) as [rs st']. rewrite IH by done.
      destruct (run st' a) as [[r1 u1] st1]. destruct (run st1 b) as [[r2 u2] st2]. by rewrite app_assoc.
    + done.
Qed.

(** What a run of thoughts and a run of content add, past the first text. *)
Definition adds (st : OpenAiState) (ms : list StreamMessage) (text : string) (st' : OpenAiState) : Prop :=
  exists rs, run st ms = (rs, [], st') /\ stream_text rs = text /\ existsb finishes rs = false.

Lemma adds_thoughts ms : contents ms = [] -> existsb is_end_message ms = false -> forall first meet e,
  adds (mkState first meet e) ms
    (match thoughts ms with
     | [] => EmptyString
     | x :: xs => (if meet then EmptyString else s_tag_open cx) +:+ first_text first x +:+ concat_spec xs
     end)
    (match thoughts ms with [] => mkState first meet e | _ => mkState false true e end).
Proof.
  induction ms as [|m ms IH]; intros Hc Hn first meet e; [exists []; split_and!; reflexivity|].
  cbn [existsb] in Hn. apply orb_false_iff in Hn as [Hm Hn].
  destruct m as [refs|[x|x|x]|x|c|]; cbn [thoughts contents omap list_omap thought_of content_of] in *;
    try done; try by apply IH.
  destruct (IH Hc Hn false true e) as (rs & E & T & F).
  change (omap thought_of ms) with (thoughts ms).
  replace (match thoughts ms with [] => mkState false true e | _ => mkState false true e end)
    with (mkState false true e) in E by (by destruct (thoughts ms)).
  unfold adds. cbn [render_messages]. unfold thinking_chunks. cbn [is_start meet_thinking is_end]. rewrite E.
  eexists. split; [reflexivity|]. rewrite stream_text_app, T, existsb_app, F. split; [|by destruct meet].
  unfold stream_text. destruct meet; cbn; rewrite ?string_app_nil, ?string_app_assoc; by destruct (thoughts ms).
Qed.
Lemma adds_contents ms : thoughts ms = [] -> existsb is_end_message ms = false -> forall first meet e,
  adds (mkState first meet e) ms
    (match contents ms with
     | [] => EmptyString
     | x :: xs => (if meet then s_tag_close cx else EmptyString) +:+ first_text first x +:+ concat_spec xs
     end)
    (match contents ms with [] => mkState first meet e | _ => mkState false false e end).
Proof.
  induction ms as [|m ms IH]; intros Hc Hn first meet e; [exists []; split_and!; reflexivity|].
  cbn [existsb] in Hn. apply orb_false_iff in Hn as [Hm Hn].
  destruct m as [refs|[x|x|x]|x|c|]; cbn [thoughts contents omap list_omap thought_of content_of] in *;
    try done; try by apply IH.
  destruct (IH Hc Hn false false e) as (rs & E & T & F).
  change (omap content_of ms) with (contents ms).
  replace (match contents ms with [] => mkState false false e | _ => mkState false false e end)
    with (mkState false false e) in E by (by destruct (contents ms)).
  unfold adds. cbn [render_messages]. unfold content_chunks. cbn [is_start meet_thinking is_end]. rewrite E.
  eexists. split; [reflexivity|]. rewrite stream_text_app, T, existsb_app, F. split; [|by destruct meet].
  unfold stream_text. destruct meet; cbn; rewrite ?string_app_nil, ?string_app_assoc; by destruct (contents ms).
Qed.

(** The role is named by what is rendered first. *)
Lemma roles_later ms : forall st, is_start st = false -> existsb names_role (run st ms).1.1 = false.
Proof.
  induction ms as [|m ms IH]; intros [first meet e] Hs; cbn in Hs; subst first; [done|].
  destruct m as [refs|[x|x|x]|x|c|]; cbn [render_messages]; try by apply IH.
  - specialize (IH (thinking_chunks cx (mkState false meet e) x).2 eq_refl). cbn in IH |- *.
    destruct (run (mkState false true e) ms) as [[rs us] st]. cbn in IH |- *. rewrite existsb_app, IH. by destruct meet.
  - specialize (IH (content_chunks cx (mkState false meet e) x).2 eq_refl). cbn in IH |- *.
    destruct (run (mkState false false e) ms) as [[rs us] st]. cbn in IH |- *. rewrite existsb_app, IH. by destruct meet.
  - done.
Qed.
Lemma roles_run ms rest e : existsb is_end_message ms = false -> contents ms <> [] ->
  role_first (run (mkState true false e) (ms ++ rest)).1.1.
Proof.
  induction ms as [|m ms IH]; intros Hn Hc; [done|].
  cbn [existsb] in Hn. apply orb_false_iff in Hn as [Hm Hn].
  destruct m as [refs|[x|x|x]|x|c|]; cbn [render_messages app]; try done; try by apply IH.
  - pose proof (roles_later (ms ++ rest) (mkState false true e) eq_refl) as H. cbn in H |- *.
    destruct (run (mkState false true e) (ms ++ rest)) as [[rs us] st]. by cbn in H |- *.
  - pose proof (roles_later (ms ++ rest) (mkState false false e) eq_refl) as H. cbn in H |- *.
    destruct (run (mkState false false e) (ms ++ rest)) as [[rs us] st]. by cbn in H |- *.
Qed.
End texts.

Lemma role_first_app a b : role_first a -> existsb names_role b = false -> role_first (a ++ b).
Proof. destruct a as [|r a]; [done|]. cbn. intros [Hr Ha] Hb. by rewrite existsb_app, Ha, Hb. Qed.
Lemma settled_nonempty s : settled s -> String.eqb s EmptyString = false.
Proof. intros [H _]. by apply String.eqb_neq. Qed.
Lemma append_nonempty a b : a <> EmptyString -> String.eqb (a +:+ b) EmptyString = false.
Proof. intros H. by destruct a. Qed.

Section answers.
Context (cx : Settings) (t : f64).
Abbreviation run := (render_messages cx t).

(** The text of a whole answer. *)
Lemma run_text ms rest : well_phased ms ->
  exists rs st, run state_new (ms ++ MStreamEnd :: rest) =
    (rs ++ [chunk_response cx None (mkDelta None None) true], [Timing t], st) /\
    stream_text rs = answer_text cx ms /\ existsb finishes rs = false /\ is_end st = true.
Proof.
  intros (a & b & -> & Ha & Hb & Hn & Hcb & Hf). rewrite existsb_app in Hn. apply orb_false_iff in Hn as [Hna Hnb].
  rewrite <- app_assoc, run_app by done.
  destruct (adds_thoughts cx t a Ha Hna true false false) as (r1 & E1 & T1 & F1).
  unfold state_new. rewrite E1, run_app by done.
  destruct (adds_contents cx t b Hb Hnb
    (match thoughts a with [] => true | _ => false end)
    (match thoughts a with [] => false | _ => true end) false) as (r2 & E2 & T2 & F2).
  exists (r1 ++ r2). destruct (contents b) as [|y ys] eqn:Ec; [done|]. cbn [app] in Hf.
  unfold answer_text, thoughts, contents. rewrite !omap_app. fold (thoughts a) (thoughts b) (contents a) (contents b).
  rewrite Ha, Hb, Ec. cbn [app]. rewrite app_nil_r, stream_text_app, existsb_app, T1, T2, F1, F2.
  destruct (thoughts a) as [|x xs]; cbn [app] in Hf; rewrite E2; cbn [render_messages end_chunks is_start meet_thinking].
  - eexists. split; [by rewrite <- !app_assoc|]. split_and!; [|done..].
    cbn [concat_spec foldr String.eqb String.append first_text]. fold (concat_spec ys). by rewrite trim_app.
  - eexists. split; [by rewrite <- !app_assoc|]. split_and!; [|done..].
    cbn [concat_spec foldr first_text]. fold (concat_spec xs) (concat_spec ys).
    rewrite append_nonempty by apply Hf. rewrite trim_app by done. by rewrite !string_app_assoc.
Qed.

End answers.

Lemma error_body_returns (b : ErrorBody) : returns (serialize b).
Proof.
  unfold serialize, serialize_ErrorBody. destruct b; cbn [error_body_json]; fields; unfold a_error_inner_json; fields.
Qed.
Lemma openai_body_total print e : exists b, canonical_into_openai print e = Ret b.
Proof.
  unfold canonical_into_openai. destruct (c_details e) as [d|]; [|by eexists].
  destruct (details_returns d) as [j ->]. by eexists.
Qed.

(** The renderer keeps the laws of the interface. *)
Lemma openai_laws print cx t : RendererLaws (openai print cx t).
Proof.
  split; cbn.
  - done.
  - intros. by apply run_app.
  - intros st ms. revert st. induction ms as [|m ms IH]; intros st; [done|].
    destruct m as [refs|[x|x|x]|x|c|]; cbn [render_messages upto_end thinking_chunks content_chunks]; try done; by rewrite IH.
  - intros st ms. revert st. induction ms as [|m ms IH]; intros st; [done|].
    destruct m as [refs|[x|x|x]|x|c|]; cbn [render_messages existsb is_end_message orb]; try apply IH; intros H; [| |done].
    + specialize (IH (thinking_chunks cx st x).2 H). cbn in IH |- *. by destruct (render_messages _ _ _ ms) as [[? ?] ?].
    + specialize (IH (content_chunks cx st x).2 H). cbn in IH |- *. by destruct (render_messages _ _ _ ms) as [[? ?] ?].
  - intros st ms. revert st. induction ms as [|m ms IH]; intros st; [done|].
    destruct m as [refs|[x|x|x]|x|c|]; cbn [render_messages existsb is_end_message orb]; try apply IH; intros H He; [| |done].
    + specialize (IH (thinking_chunks cx st x).2 H He). cbn in IH |- *. by destruct (render_messages _ _ _ ms) as [[? ?] ?].
    + specialize (IH (content_chunks cx st x).2 H He). cbn in IH |- *. by destruct (render_messages _ _ _ ms) as [[? ?] ?].
  - apply openai_body_total.
Qed.

Definition DONE : SseEvent := mkSseEvent [] (as_bytes "[DONE]").
Lemma not_finished rs : existsb finishes rs = false -> List.filter finishes rs = [].
Proof. induction rs as [|r rs IH]; cbn; [done|]. destruct (finishes r); [done|apply IH]. Qed.
Lemma well_phased_contents ms : well_phased ms -> contents ms <> [].
Proof.
  intros (a & b & -> & _ & _ & _ & Hc & _). unfold contents in *. rewrite omap_app. by intros [_ ?]%app_eq_nil.
Qed.
Lemma well_phased_no_end ms : well_phased ms -> existsb is_end_message ms = false.
Proof. by intros (a & b & -> & _ & _ & H & _). Qed.

Section composed.
Context (gunzip : bytes -> option bytes) (decode_wrapper : bytes -> option (option Response)).
Context (cursor_error : bytes -> option CursorError) (delay : nat -> Z) (print : json -> bytes).
Context (conv : bool) (cx : Settings) (t : f64) (usage : option ChainUsage).

Lemma streamed_spec cs ms : (forall j, quiet (print j)) ->
  serve gunzip decode_wrapper cursor_error delay conv cs = Ret (Ok (EMessage <$> (ms ++ [MStreamEnd]), false)) ->
  well_phased ms ->
  exists us body rs es,
    answer_stream gunzip decode_wrapper cursor_error delay print conv cx t usage (Ok <$> cs) =
      Ret (mkEffects us 0 (Ok (Whole body))) /\
    sse_events body = es ++ [DONE] /\ reads print (fun _ => []) rs es /\
    stream_text rs = answer_text cx ms /\ role_first rs /\ length (List.filter finishes rs) = 1%nat.
Proof.
  intros Hp Hs Hw.
  destruct (served_run gunzip decode_wrapper cursor_error delay conv t (openai print cx t) (openai_laws print cx t)
    state_new cs _ Hs) as (d1 & cs1 & d2 & E1 & E2); [by apply ends_only_end, well_phased_no_end|done|].
  destruct (run_text cx t ms [] Hw) as (rs & st & ER & T & F & _).
  cbn [process_messages openai] in E2. rewrite ER in E2. cbn [fst snd] in E2.
  unfold answer_stream. rewrite E1. cbn [mbind outcome_bind]. rewrite E2. cbn [mbind outcome_bind].
  unfold last_responses. destruct (take_content_delays d2) as [cd d3]. destruct (take_thinking_content d3) as [tc d4].
  set (rs1 := rs ++ _). set (rs2 := if s_is_need cx then _ else _).
  destruct (openai_body_reads print Hp rs1) as (b1 & es1 & -> & R1 & S1).
  destruct (openai_body_reads print Hp rs2) as (b2 & es2 & EB & R2 & S2).
  cbn [mbind outcome_bind]. rewrite EB. cbn [mbind outcome_bind].
  eexists _, _, (rs1 ++ rs2), (es1 ++ es2). split_and!; [done|by rewrite S1, S2, <- app_assoc|by apply Forall2_app| | |].
  - subst rs1 rs2. rewrite !stream_text_app, T. by destruct (s_is_need cx); cbn; rewrite !string_app_nil.
  - apply role_first_app; [|by subst rs2; destruct (s_is_need cx)].
    pose proof (roles_run cx t ms [MStreamEnd] false (well_phased_no_end _ Hw) (well_phased_contents _ Hw)) as Hr.
    fold state_new in Hr. by rewrite ER in Hr.
  - subst rs1 rs2. rewrite !List.filter_app, (not_finished _ F). by destruct (s_is_need cx).
Qed.

Lemma take_texts_spec ms : forall th fu,
  take_texts (th, fu) ms = (th +:+ concat_spec (thoughts ms), fu +:+ concat_spec (contents ms)).
Proof.
  induction ms as [|m ms IH]; intros th fu; [by cbn; rewrite !string_app_nil|].
  destruct m as [refs|[x|x|x]|x|c|]; cbn [take_texts]; rewrite IH; try done; cbn; by rewrite string_app_assoc.
Qed.
Definition texts_are (ms : list StreamMessage) (texts : string * string) : Prop :=
  texts = (concat_spec (thoughts ms), concat_spec (contents ms)).

Lemma once_run cs ms d : collect_all gunzip decode_wrapper cursor_error delay
    (no_first_cache stream_decoder_new) conv cs = Ret (Ok ms, d) ->
  str_len (answer_text cx ms) < 2 ^ 64 ->
  exists us, answer_once gunzip decode_wrapper cursor_error delay print conv cx t usage (Ok <$> cs) =
    if String.eqb (answer_text cx ms) EmptyString then
      Ret (mkEffects [UFailure (Simple ERR_RESPONSE_RECEIVED)] 1
             (Err (500, chat_to_openai (empty_answer ERR_RESPONSE_RECEIVED))))
    else j ← serialize (text_response cx usage (answer_text cx ms)); Ret (mkEffects us 0 (Ok (Whole (print j)))).
Proof.
  intros HC Hl. unfold answer_once.
  assert (Htake : forall (b : bool) l a ms', texts_are l a -> texts_are (l ++ ms') (take_texts a ms')).
  { intros _ l a ms' ->. rewrite take_texts_spec. unfold texts_are, thoughts, contents. by rewrite !omap_app, !concat_spec_app. }
  destruct (collect_run gunzip decode_wrapper cursor_error delay conv (openai print cx t) (fun _ => take_texts)
    texts_are Htake cs _ _ _ [] (EmptyString, EmptyString) HC eq_refl) as (a' & E & Ha).
  unfold texts_are in Ha. cbn [app] in Ha. subst a'. rewrite E. cbn [mbind outcome_bind].
  assert (full_text cx (concat_spec (thoughts ms)) (concat_spec (contents ms)) = Ret (answer_text cx ms)) as EF.
  { unfold full_text, answer_text in *. destruct (String.eqb _ EmptyString); [done|]. cbn [negb].
    rewrite concat_parts; [cbn; by rewrite string_app_nil|].
    revert Hl. unfold str_len, sum_len. cbn. unfold str_len. rewrite <- !length_as_bytes, !as_bytes_app, !length_app. lia. }
  rewrite EF. cbn [mbind outcome_bind]. destruct (take_content_delays d) as [cd d1]. destruct (take_thinking_content d1) as [tc d2].
  eexists. by destruct (String.eqb _ EmptyString).
Qed.
End composed.

(** ** Properties *)

(** C25: asking for a stream or for the whole answer gives the same text, within the
    scope that [stream_faults] shows to be needed: the upstream answer first thinks,
    then writes, then ends ([well_phased]: there is content, and the first text is
    long enough for its leading line feeds to be trimmed), and for the stream it is
    received in two or more chunks of whole frames, with content before the last one
    ([aligned]).  Then the text deltas of the streamed body put together are the text
    of the answer given at once, however the latter was cut; the body is complete, a
    sequence of events that a client can read back, whose first chunk and no other
    names the role, with one finish reason, closed by [\[DONE\]], and no request is
    counted as an error. *)
Theorem stream_equals_once gunzip decode_wrapper cursor_error delay print conv cx t usage gs more ms :
  (forall j, quiet (print j)) ->
  aligned gunzip decode_wrapper cursor_error conv gs more (ms ++ [MStreamEnd]) -> well_phased ms ->
  str_len (answer_text cx ms) < 2 ^ 64 -> answer_text cx ms <> EmptyString ->
  (exists us body rs es,
    answer_stream gunzip decode_wrapper cursor_error delay print conv cx t usage (Ok <$> (chunk_of <$> gs ++ more)) =
      Ret (mkEffects us 0 (Ok (Whole body))) /\
    sse_events body = es ++ [DONE] /\ reads print (fun _ => []) rs es /\
    stream_text rs = answer_text cx ms /\ role_first rs /\ length (List.filter finishes rs) = 1%nat) /\
  (forall cs, List.concat cs = chunk_of (List.concat (gs ++ more)) ->
   exists us j, serialize (text_response cx usage (answer_text cx ms)) = Ret j /\
     answer_once gunzip decode_wrapper cursor_error delay print conv cx t usage (Ok <$> cs) =
       Ret (mkEffects us 0 (Ok (Whole (print j))))).
Proof.
  intros Hp Ha Hw Hlen Hne. split.
  - apply streamed_spec; [done| |done]. apply aligned_served; [done|].
    by apply ends_only_end, well_phased_no_end.
  - intros cs Hcs. destruct (aligned_collected _ _ _ delay _ _ _ _ cs Ha Hcs) as [d EC].
    assert (answer_text cx (ms ++ [MStreamEnd]) = answer_text cx ms) as Et.
    { unfold answer_text, thoughts, contents. rewrite !omap_app. cbn. by rewrite !app_nil_r. }
    destruct (once_run gunzip decode_wrapper cursor_error delay print conv cx t usage cs _ d EC) as [us E]; [by rewrite Et|].
    rewrite Et, (proj2 (String.eqb_neq _ _) Hne) in E.
    destruct (chat_response_returns (text_response cx usage (answer_text cx ms))) as [j Ej].
    exists us, j. rewrite Ej in E. done.
Qed.

Definition example_settings (is_need : bool) : Settings :=
  mkSettings "chatcmpl-1" "default" 5 is_need "<think>" "</think>".

Lemma stream_equals_once_witness :
  exists us body rs es,
    answer_stream no_gzip thinking_wrapper no_error no_delay compact false (example_settings true) (S754_zero false) None
      (Ok <$> (chunk_of <$> example_groups ++ example_more)) = Ret (mkEffects us 0 (Ok (Whole body))) /\
    sse_events body = es ++ [DONE] /\ reads compact (fun _ => []) rs es /\
    stream_text rs = "<think>why</think>Hello world"%string /\ role_first rs /\ length (List.filter finishes rs) = 1%nat.
Proof.
  apply (stream_equals_once no_gzip thinking_wrapper no_error no_delay compact false (example_settings true)
    (S754_zero false) None example_groups example_more example_messages).
  - apply compact_quiet.
  - apply example_aligned.
  - exists [MThinking (ThinkingText "why")], [MContent "Hello"; MContent " world"]. split_and!; try done.
  - vm_compute. reflexivity.
  - done.
Defined.

(** What the answer given at once replies with, for every way the upstream
    response can go.  An upstream error gives its status and canonical body, fails
    the entry of the log and counts once, whatever follows it; a response without
    any text gives status 500 and counts once; a read error gives status 500, but
    the entry of the log and the error counter do not learn of it. *)
Theorem once_outcome gunzip decode_wrapper cursor_error delay print conv cx t usage cs :
  let run := collect_all gunzip decode_wrapper cursor_error delay (no_first_cache stream_decoder_new) conv cs in
  let answer := answer_once gunzip decode_wrapper cursor_error delay print conv cx t usage in
  match run with
  | Ret (Err e, _) =>
      exists ce body, canonical e = Ret ce /\ canonical_into_openai print ce = Ret body /\ forall more,
        answer ((Ok <$> cs) ++ more) =
          Ret (mkEffects [UFailure (to_error_info ce)] 1 (Err (c_status_code ce, body)))
  | Ret (Ok ms, _) =>
      (str_len (answer_text cx ms) < 2 ^ 64 -> answer_text cx ms = EmptyString ->
       answer (Ok <$> cs) = Ret (mkEffects [UFailure (Simple ERR_RESPONSE_RECEIVED)] 1
                                   (Err (500, chat_to_openai (empty_answer ERR_RESPONSE_RECEIVED))))) /\
      forall x more, answer ((Ok <$> cs) ++ Err x :: more) = Ret (mkEffects [] 0 (Err (500, chat_to_openai (read_error x))))
  | _ => True
  end.
Proof.
  cbv zeta. destruct (collect_all _ _ _ _ _ _ _) as [[[ms|e] d]| |] eqn:EC; [| |done..].
  - split.
    + intros Hl He. destruct (once_run gunzip decode_wrapper cursor_error delay print conv cx t usage cs ms d EC Hl) as [us E].
      by rewrite He in E.
    + intros x more. unfold answer_once.
      by rewrite (collect_broken _ _ _ _ conv (openai print cx t) _ x more cs _ _ _ _ EC).
  - assert (H := fun more => collect_upstream _ _ _ _ conv (openai print cx t) (fun _ => take_texts)
      (openai_laws print cx t) more cs _ _ _ (EmptyString, EmptyString) EC).
    destruct (H []) as (ce & b & Ec & Eb & _). exists ce, b. split_and!; [done..|]. intros more. unfold answer_once.
    destruct (H more) as (ce' & b' & Ec' & Eb' & E).
    rewrite Ec in Ec'. injection Ec' as <-. rewrite Eb in Eb'. injection Eb' as <-. by rewrite E.
Qed.

Lemma once_outcome_witness :
  answer_once no_gzip thinking_wrapper no_error no_delay compact false (example_settings false) (S754_zero false) None
    (Ok <$> [chunk_of [end_frame]]) =
    Ret (mkEffects [UFailure (Simple ERR_RESPONSE_RECEIVED)] 1
           (Err (500, chat_to_openai (empty_answer ERR_RESPONSE_RECEIVED)))) /\
  answer_once no_gzip thinking_wrapper no_error no_delay compact false (example_settings false) (S754_zero false) None
    [Ok (chunk_of [end_frame]); Err (as_bytes "reset")] =
    Ret (mkEffects [] 0 (Err (500, OpenAiBody (Some "request_failed"%string)
                                 "Request failed: Failed to read response chunk: reset"))).
Proof.
  pose proof (once_outcome no_gzip thinking_wrapper no_error no_delay compact false (example_settings false)
    (S754_zero false) None [chunk_of [end_frame]]) as H.
  cbv zeta in H.
  destruct (collect_all no_gzip thinking_wrapper no_error no_delay (no_first_cache stream_decoder_new) false
    [chunk_of [end_frame]]) as [[[ms|e] d]| |] eqn:E; vm_compute in E; try discriminate.
  injection E as <- _. destruct H as [H1 H2]. split.
  - apply H1; [vm_compute; reflexivity|reflexivity].
  - exact (H2 (as_bytes "reset") []).
Defined.

(** Where the stream and the answer given at once differ.  A stream without
    content never closes the thinking tag; line feeds that arrive in pieces are not
    trimmed; an upstream error behind the first result is sent as if the model had
    written it, with the finish reason of a normal end, and neither fails the entry
    of the log nor counts; a chunk that cannot be read is left out in silence;
    and a chunk that is empty or leaves fewer than five bytes to decode hangs the
    stream, which neither goes on nor ends. *)
Theorem stream_faults gunzip decode_wrapper cursor_error delay print conv cx t :
  (forall x, x <> EmptyString ->
     let ms := [MThinking (ThinkingText x)] in
     stream_text (render_messages cx t state_new (ms ++ [MStreamEnd])).1.1 +:+ s_tag_close cx = answer_text cx ms) /\
  (forall x,
     let ms := [MContent newline; MContent (newline +:+ x)] in
     stream_text (render_messages cx t state_new (ms ++ [MStreamEnd])).1.1 = newline +:+ newline +:+ x /\
     answer_text cx ms = x) /\
  (forall st d c d' e, decode gunzip decode_wrapper cursor_error delay d c conv = Ret (Err (Upstream e), d') ->
     exists ce body j rs st', canonical e = Ret ce /\ canonical_into_openai print ce = Ret body /\ serialize body = Ret j /\
       later_chunk gunzip decode_wrapper cursor_error delay conv (openai print cx t) st d (Ok c) =
         Ret (Some (rs, [Timing t], st', d', false)) /\
       length (List.filter finishes rs) = 1%nat /\ (is_start st = false -> meet_thinking st = false ->
         stream_text rs = from_bytes (print j))) /\
  (forall st d e, later_chunk gunzip decode_wrapper cursor_error delay conv (openai print cx t) st d (Err e) =
     Ret (Some ([], [], st, d, false))) /\
  (forall st d c, c = [] \/ zlen (inner (sd_buffer d)) + zlen c < 5 ->
     later_chunk gunzip decode_wrapper cursor_error delay conv (openai print cx t) st d (Ok c) = Ret None).
Proof.
  split_and!; [| | |done|intros; by apply later_chunk_short].
  - intros x Hx. unfold answer_text. cbn. rewrite !string_app_nil.
    rewrite (proj2 (String.eqb_neq _ _) Hx). by rewrite string_app_assoc.
  - intros x. cbn. rewrite !string_app_nil. split; [done|].
    change (answer_text cx _) with (trim_leading_newlines (newline +:+ newline +:+ x)).
    unfold trim_leading_newlines.
    change (as_bytes (newline +:+ newline +:+ x)) with (10 :: 10 :: as_bytes x). apply from_bytes_as_bytes.
  - intros st d c d' e ED. destruct (canonical_total e) as [ce Ec].
    destruct (openai_body_total print ce) as [b Eb]. destruct (error_body_returns b) as [j Ej].
    cbn [later_chunk]. rewrite ED. cbn [mbind outcome_bind]. rewrite Ec. cbn [mbind outcome_bind on_upstream openai].
    unfold upstream_content. rewrite Eb. cbn [mbind outcome_bind]. rewrite Ej.
    cbn [mbind outcome_bind render_messages content_chunks end_chunks].
    eexists ce, b, j, _, _. split_and!; [done..| |].
    + by destruct (meet_thinking st).
    + intros -> ->. cbn. apply string_app_nil.
Qed.

Lemma stream_faults_witness :
  stream_text (render_messages (example_settings false) (S754_zero false) state_new
    [MThinking (ThinkingText "why"); MStreamEnd]).1.1 +:+ "</think>" = "<think>why</think>"%string.
Proof.
  pose proof (stream_faults no_gzip thinking_wrapper no_error no_delay compact false (example_settings false)
    (S754_zero false)) as (H & _).
  apply (H "why"%string). discriminate.
Defined.
