(* ===== verification/AnswerAnthropic.v ===== *)
(** * The answers of the Anthropic interface

    The second half of [handle_messages] of [src/src/core/service.rs]: how the decoded
    messages of an upstream answer become the events of a streamed response, or the
    content blocks of a response given at once.

    The loops over the chunks of the upstream response are those of [AnswerStream];
    this file renders the messages.  The state that the chunks share is
    [AnthropicState]: atomics that only this task uses; the index of a block is a
    [u32].  [parse_input] is [serde_json::from_str] for the input of a tool.  The
    identifier and the answer of [get_token_usage] are given. *)
From S2P Require Import Prelude Strings Floats StringBuilder GrpcStream ResponseDecoder LogManager UpstreamErrors Auth ChatModels.
From S2P Require Import AnswerStream.

(** ** The state *)

Inductive StreamState : Type := NotStarted | ContentBlockActive | Completed.
Inductive LastContentType : Type := LNone | LThinking | LText | LInputJson.
#[export] Instance StreamState_eq_dec : EqDecision StreamState.
Proof. solve_decision. Defined.
#[export] Instance LastContentType_eq_dec : EqDecision LastContentType.
Proof. solve_decision. Defined.

Record AnthropicState : Type := mkAState
  { index : Z; stream_state : StreamState; last_content_type : LastContentType }.
Definition a_state_new : AnthropicState := mkAState 0 NotStarted LNone.
Record Names : Type := mkNames { n_msg_id : string; n_model : string }.

(** ** Streamed events *)

Section messages.
Context (cx : Names) (total_time : f64).

Definition message_start : RawMessageStreamEvent :=
  MessageStart (mkAMessage [] a_usage_default (n_msg_id cx) (n_model cx) None).

(** [fetch_add]. *)
Definition next_index (i : Z) : Z := wrap 32 (i + 1).

(** Ends the previous block, if there is one, and opens another: what is written
    and the index of the new block. *)
Definition switch_block (st : AnthropicState) (block : ContentBlock) : list RawMessageStreamEvent * Z :=
  if decide (last_content_type st = LNone) then ([ContentBlockStart (index st) block], index st)
  else ([ContentBlockStop (index st); ContentBlockStart (next_index (index st)) block], next_index (index st)).

(** The opening of a thought or of content, up to its delta. *)
Definition open_block (st : AnthropicState) (wanted : LastContentType) (block : ContentBlock)
    : list RawMessageStreamEvent * AnthropicState :=
  let start := bool_decide (stream_state st = NotStarted) in
  let head := if start then [message_start] else [] in
  if decide (last_content_type st = wanted) then (head, st) else
  let '(es, i) := switch_block st block in
  (head ++ es ++ (if start then [Ping] else []), mkAState i ContentBlockActive wanted).

Definition thinking_events (st : AnthropicState) (thinking : Thinking)
    : list RawMessageStreamEvent * AnthropicState :=
  let '(es, st) := open_block st LThinking (BThinking EmptyString None) in
  (es ++ match thinking with
         | ThinkingText text => [ContentBlockDelta (index st) (ThinkingDelta text)]
         | ThinkingSignature signature => [ContentBlockDelta (index st) (SignatureDelta signature)]
         | RedactedThinking _ => []
         end, st).
Definition content_events (st : AnthropicState) (text : string) : list RawMessageStreamEvent * AnthropicState :=
  let '(es, st) := open_block st LText (BText EmptyString) in
  (es ++ [ContentBlockDelta (index st) (TextDelta text)], st).

(** The type that is noted behind the opening of a tool's block is [Text]. *)
Definition tool_events (st : AnthropicState) (c : ToolCall) : list RawMessageStreamEvent * AnthropicState :=
  let '(es, st) :=
    if decide (last_content_type st = LInputJson) then ([], st) else
    let '(es, i) := switch_block st (BToolUse (tc_id c) (tc_name c) []) in
    (es ++ [ContentBlockDelta i (InputJsonDelta EmptyString)], mkAState i ContentBlockActive LText) in
  (es ++ [ContentBlockDelta (index st) (InputJsonDelta (tc_input c))], st).

Definition end_events (st : AnthropicState) : list RawMessageStreamEvent * AnthropicState :=
  (if decide (last_content_type st = LNone) then [] else [ContentBlockStop (index st)],
   mkAState (index st) Completed (last_content_type st)).

Fixpoint render_events (st : AnthropicState) (messages : list StreamMessage)
    : list RawMessageStreamEvent * list LogUpdate * AnthropicState :=
  match messages with
  | [] => ([], [], st)
  | MStreamEnd :: _ => let '(es, st) := end_events st in (es, [Timing total_time], st)
  | MWebReference _ :: messages => render_events st messages
  | m :: messages =>
      let '(es, st) :=
        match m with
        | MThinking thinking => thinking_events st thinking
        | MContent text => content_events st text
        | MToolCall tool_call => tool_events st tool_call
        | _ => ([], st)
        end in
      let '(es', us, st) := render_events st messages in (es ++ es', us, st)
  end.
End messages.

Definition completed (st : AnthropicState) : bool := bool_decide (stream_state st = Completed).

Section service.
Context (gunzip : bytes -> option bytes) (decode_wrapper : bytes -> option (option Response)).
Context (cursor_error : bytes -> option CursorError) (delay : nat -> Z) (print : json -> bytes).
Context (parse_input : string -> option (list (string * json))).
Context (convert_web_ref : bool) (cx : Names) (time : f64) (usage : option ChainUsage).

(** An upstream error behind the first result becomes an event of its own. *)
Definition upstream_event (st : AnthropicState) (canonical : CanonicalError)
    : outcome (list RawMessageStreamEvent * list LogUpdate * AnthropicState) :=
  e ← canonical_into_anthropic print canonical;
  Ret ([EventError e], [], st).
Definition anthropic_body_of (canonical : CanonicalError) : outcome ErrorBody :=
  e ← canonical_into_anthropic print canonical; Ret (wrapped e).
Definition anthropic : Renderer AnthropicState RawMessageStreamEvent :=
  mkRenderer _ _ (render_events cx time) completed upstream_event chat_to_anthropic anthropic_body_of.

Definition stop_reason_of (d : StreamDecoder) : StopReason := if is_tool_processed d then ToolUse else EndTurn.

(** The events behind the upstream response. *)
Definition last_events (d : StreamDecoder) : list RawMessageStreamEvent * list LogUpdate :=
  let '(content_delays, d) := take_content_delays d in
  let '(thinking_content, d) := take_thinking_content d in
  ([MessageDelta (stop_reason_of d) (default d_usage_default (into_anthropic_delta <$> usage))],
   Delays content_delays thinking_content :: match usage with Some usage => [Usage usage] | None => [] end).

Definition answer_stream (chunks : list Chunk) : outcome (Effects Body) :=
  first ← first_result gunzip decode_wrapper cursor_error delay convert_web_ref time anthropic stream_decoder_new chunks;
  match first with
  | Err e => Ret e
  | Ok (d, chunks) =>
      '(es, us, d) ← later_responses gunzip decode_wrapper cursor_error delay convert_web_ref anthropic a_state_new d chunks;
      body ← anthropic_body print es;
      match d with
      | None => Ret (mkEffects us 0 (Ok (Unfinished body)))
      | Some d =>
          let '(es', us') := last_events d in
          last ← anthropic_body print es';
          Ret (mkEffects (us ++ us') 0 (Ok (Whole (body ++ last ++ MESSAGE_STOP_EVENT))))
      end
  end.

(** ** The answer given at once *)

(** [content.last_mut()]. *)
Definition split_last {A} (l : list A) : option (list A * A) :=
  match rev l with [] => None | a :: l => Some (rev l, a) end.

Definition take_thinking (content : list ContentBlock) (thinking : Thinking) : list ContentBlock :=
  match thinking, split_last content with
  | ThinkingText text, Some (content', BThinking thinking signature) => content' ++ [BThinking (thinking +:+ text) signature]
  | ThinkingText text, _ => content ++ [BThinking text None]
  | ThinkingSignature s, Some (content', BThinking thinking _) => content' ++ [BThinking thinking (Some s)]
  | ThinkingSignature s, _ => content ++ [BThinking EmptyString (Some s)]
  | RedactedThinking data, _ => content ++ [BRedactedThinking data]
  end.
Definition take_content (content : list ContentBlock) (atext : string) : list ContentBlock :=
  match split_last content with
  | Some (content', BText text) => content' ++ [BText (text +:+ atext)]
  | _ => content ++ [BText atext]
  end.
Definition take_tool (tool_processed : bool) (content : list ContentBlock) (input_json : string) (c : ToolCall)
    : list ContentBlock * string :=
  let input_json := input_json +:+ tc_input c in
  if tool_processed then
    match parse_input input_json with
    | Some input => (content ++ [BToolUse (tc_id c) (tc_name c) input], EmptyString)
    | None => (content, input_json)
    end
  else (content, input_json).

Fixpoint take_messages (tool_processed : bool) (content : list ContentBlock) (input_json : string)
    (messages : list StreamMessage) : list ContentBlock :=
  match messages with
  | [] => content
  | MThinking thinking :: messages => take_messages tool_processed (take_thinking content thinking) input_json messages
  | MContent atext :: messages => take_messages tool_processed (take_content content atext) input_json messages
  | MToolCall c :: messages =>
      let '(content, input_json) := take_tool tool_processed content input_json c in
      take_messages tool_processed content input_json messages
  | _ :: messages => take_messages tool_processed content input_json messages
  end.
(** The text of the input starts empty in every chunk. *)
Definition take_chunk (tool_processed : bool) (content : list ContentBlock) (messages : list StreamMessage)
    : list ContentBlock :=
  take_messages tool_processed content EmptyString messages.

Definition blocks_response (content : list ContentBlock) (reason : StopReason) : AnthropicMessage :=
  mkAMessage content (default a_usage_default (usage_into_anthropic <$> usage)) (n_msg_id cx) (n_model cx) (Some reason).

Definition answer_once (chunks : list Chunk) : outcome (Effects Body) :=
  collected ← collect_chunks gunzip decode_wrapper cursor_error delay convert_web_ref anthropic take_chunk
                (no_first_cache stream_decoder_new) [] chunks;
  match collected with
  | Err e => Ret e
  | Ok (content, d) =>
      let reason := stop_reason_of d in
      let '(content_delays, d) := take_content_delays d in
      let '(thinking_content, d) := take_thinking_content d in
      j ← serialize (blocks_response content reason);
      Ret (mkEffects [TimingChain time (mkChain content_delays usage thinking_content)] 0 (Ok (Whole (print j))))
  end.
End service.

(** ** A client (specification)

    The protocol of the events, as a client that builds the content blocks: a
    message is started, its blocks are opened, grown by deltas of their kind and
    closed one after another under consecutive indexes, the stop reason comes last.
    Anything else is an error ([None]). *)

Inductive Phase : Type :=
| Before
| Between (next : Z)
| Within (i : Z) (block : ContentBlock) (partial_json : string)
| Ending (reason : StopReason).
Record Client : Type := mkClient { phase : Phase; blocks : list ContentBlock }.
Definition client_new : Client := mkClient Before [].

Definition grow (block : ContentBlock) (partial_json : string) (delta : RawContentBlockDelta)
    : option (ContentBlock * string) :=
  match block, delta with
  | BText text, TextDelta s => Some (BText (text +:+ s), partial_json)
  | BThinking thinking signature, ThinkingDelta s => Some (BThinking (thinking +:+ s) signature, partial_json)
  | BThinking thinking _, SignatureDelta s => Some (BThinking thinking (Some s), partial_json)
  | BToolUse _ _ _, InputJsonDelta s => Some (block, partial_json +:+ s)
  | _, _ => None
  end.

Section client.
Context (parse_input : string -> option (list (string * json))).

Definition close (block : ContentBlock) (partial_json : string) : option ContentBlock :=
  match block with
  | BToolUse id name _ => BToolUse id name <$> parse_input partial_json
  | _ => Some block
  end.
Definition client_step (c : Client) (e : RawMessageStreamEvent) : option Client :=
  match phase c, e with
  | Before, MessageStart m => Some (mkClient (Between 0) (am_content m))
  | Before, _ => None
  | _, Ping => Some c
  | Between n, ContentBlockStart i block =>
      if i =? n then Some (mkClient (Within n block EmptyString) (blocks c)) else None
  | Between n, MessageDelta reason _ => Some (mkClient (Ending reason) (blocks c))
  | Within n block partial, ContentBlockDelta i delta =>
      if i =? n then
        match grow block partial delta with
        | Some (block, partial) => Some (mkClient (Within n block partial) (blocks c))
        | None => None
        end
      else None
  | Within n block partial, ContentBlockStop i =>
      if i =? n then
        match close block partial with
        | Some block => Some (mkClient (Between (n + 1)) (blocks c ++ [block]))
        | None => None
        end
      else None
  | _, _ => None
  end.
Fixpoint client_run (c : Client) (es : list RawMessageStreamEvent) : option Client :=
  match es with
  | [] => Some c
  | e :: es => match client_step c e with Some c => client_run c es | None => None end
  end.

Lemma client_run_app c a b :
  client_run c (a ++ b) = match client_run c a with Some c => client_run c b | None => None end.
Proof. revert c. induction a as [|e a IH]; intros c; cbn; [done|]. by destruct (client_step c e). Qed.

(** ** Rendering and replaying *)

(** Messages whose text both forms of the answer give. *)
Definition is_plain (m : StreamMessage) : bool :=
  match m with MWebReference _ | MThinking (ThinkingText _) | MThinking (ThinkingSignature _) | MContent _ => true | _ => false end.
Definition is_shown (m : StreamMessage) : bool := match m with MThinking _ | MContent _ => true | _ => false end.

(** The client's view of a state of the renderer, and the blocks collected so far. *)
Definition kind_of (b : ContentBlock) : LastContentType :=
  match b with BText _ => LText | BThinking _ _ => LThinking | _ => LNone end.
Definition in_step (st : AnthropicState) (c : Client) (content : list ContentBlock) : Prop :=
  (st = a_state_new /\ c = client_new /\ content = []) \/
  (exists n b done, 0 <= n < 2 ^ 32 /\ kind_of b <> LNone /\ st = mkAState n ContentBlockActive (kind_of b) /\
     c = mkClient (Within n b EmptyString) done /\ content = done ++ [b]).

Definition new_block (wanted : LastContentType) : ContentBlock :=
  match wanted with LThinking => BThinking EmptyString None | _ => BText EmptyString end.

(** After an opening the client is within a block of the kind wanted: the last
    one, or a new one behind it. *)
Lemma open_block_step cx st c content wanted :
  (wanted = LThinking \/ wanted = LText) -> in_step st c content -> index st + 1 < 2 ^ 32 ->
  exists es n b done, open_block cx st wanted (new_block wanted) = (es, mkAState n ContentBlockActive wanted) /\
    client_run c es = Some (mkClient (Within n b EmptyString) done) /\
    0 <= n <= index st + 1 /\ kind_of b = wanted /\
    ((content = done ++ [b]) \/
     (content = done /\ b = new_block wanted /\
      match split_last content with Some (_, b') => kind_of b' <> wanted /\ kind_of b' <> LNone | None => True end)).
Proof.
  intros Hw [(-> & -> & ->)|(n & b & done' & Hn & Hk & -> & -> & ->)] Hi; unfold open_block.
  - cbn [stream_state last_content_type a_state_new index]. rewrite bool_decide_eq_true_2 by done.
    exists [message_start cx; ContentBlockStart 0 (new_block wanted); Ping], 0, (new_block wanted), [].
    rewrite decide_False by (by destruct Hw as [-> | ->]). unfold switch_block. cbn [last_content_type a_state_new index].
    rewrite decide_True by done. split_and!; [done|done|cbn in *; lia..| |by right].
    by destruct Hw as [-> | ->].
  - cbn [stream_state last_content_type index] in *. rewrite bool_decide_eq_false_2 by done.
    destruct (decide (kind_of b = wanted)) as [E|E].
    + exists [], n, b, done'. rewrite E. split_and!; [done|done|lia..|done|by left].
    + unfold switch_block. cbn [last_content_type index]. rewrite decide_False by done.
      assert (next_index n = n + 1) as En by (unfold next_index; apply wrap_small; unfold in_uint; lia).
      rewrite En. exists [ContentBlockStop n; ContentBlockStart (n + 1) (new_block wanted)], (n + 1), (new_block wanted), (done' ++ [b]).
      split_and!; [done| |lia..| |].
      * cbn. rewrite Z.eqb_refl. destruct b; try done; cbn; by rewrite Z.eqb_refl.
      * by destruct Hw as [-> | ->].
      * right. split_and!; [done|done|]. unfold split_last. by rewrite rev_app_distr.
Qed.

Lemma split_last_app {A} (l : list A) a : split_last (l ++ [a]) = Some (l, a).
Proof. unfold split_last. rewrite rev_app_distr. cbn. by rewrite rev_involutive. Qed.

(** One message on either side. *)
Definition one_events (cx : Names) (st : AnthropicState) (m : StreamMessage) : list RawMessageStreamEvent * AnthropicState :=
  match m with
  | MThinking thinking => thinking_events cx st thinking
  | MContent text => content_events cx st text
  | _ => ([], st)
  end.
Definition take_one (content : list ContentBlock) (m : StreamMessage) : list ContentBlock :=
  match m with
  | MThinking thinking => take_thinking content thinking
  | MContent text => take_content content text
  | _ => content
  end.

Lemma message_step cx st c content m : in_step st c content -> index st + 1 < 2 ^ 32 -> is_plain m = true ->
  exists c', client_run c (one_events cx st m).1 = Some c' /\
    in_step (one_events cx st m).2 c' (take_one content m) /\
    index (one_events cx st m).2 <= index st + 1 /\
    (is_shown m = true \/ st <> a_state_new -> (one_events cx st m).2 <> a_state_new).
Proof.
  intros HI Hi Hp. destruct m as [refs|[x|x|x]|x|call|]; try done; cbn [one_events take_one].
  - exists c. split_and!; [done..|cbn; lia|]. by intros [?|?].
  - destruct (open_block_step cx st c content LThinking) as (es & n & b & done' & E & R & Hn & Hk & Hc); [by left|done..|].
    unfold thinking_events. cbn [new_block] in E. rewrite E. cbn [index fst snd].
    destruct b as [|th sg| |]; try done. rewrite client_run_app, R. cbn. rewrite Z.eqb_refl. cbn.
    eexists. split_and!; [done| |cbn; lia|done]. right. exists n, (BThinking (th +:+ x) sg), done'. split_and!; [lia..|done|done|done|].
    destruct Hc as [-> | (-> & [= -> ->] & Hl)]; unfold take_thinking; [by rewrite split_last_app|].
    destruct (split_last done') as [[l [| | |]]|]; try done. by destruct Hl.
  - destruct (open_block_step cx st c content LThinking) as (es & n & b & done' & E & R & Hn & Hk & Hc); [by left|done..|].
    unfold thinking_events. cbn [new_block] in E. rewrite E. cbn [index fst snd].
    destruct b as [|th sg| |]; try done. rewrite client_run_app, R. cbn. rewrite Z.eqb_refl. cbn.
    eexists. split_and!; [done| |cbn; lia|done]. right. exists n, (BThinking th (Some x)), done'. split_and!; [lia..|done|done|done|].
    destruct Hc as [-> | (-> & [= -> ->] & Hl)]; unfold take_thinking; [by rewrite split_last_app|].
    destruct (split_last done') as [[l [| | |]]|]; try done. by destruct Hl.
  - destruct (open_block_step cx st c content LText) as (es & n & b & done' & E & R & Hn & Hk & Hc); [by right|done..|].
    unfold content_events. cbn [new_block] in E. rewrite E. cbn [index fst snd].
    destruct b as [t| | |]; try done. rewrite client_run_app, R. cbn. rewrite Z.eqb_refl. cbn.
    eexists. split_and!; [done| |cbn; lia|done]. right. exists n, (BText (t +:+ x)), done'. split_and!; [lia..|done|done|done|].
    destruct Hc as [-> | (-> & [= ->] & Hl)]; unfold take_content; [by rewrite split_last_app|].
    destruct (split_last done') as [[l [| | |]]|]; try done. by destruct Hl.
Qed.

(** All the messages of an answer without tools. *)
Lemma render_plain cx t ms : forall st c content rest, in_step st c content ->
  index st + zlen ms < 2 ^ 32 -> forallb is_plain ms = true ->
  exists es st' c', render_events cx t st (ms ++ rest) =
      (let '(es', us, st2) := render_events cx t st' rest in (es ++ es', us, st2)) /\
    client_run c es = Some c' /\ in_step st' c' (fold_left take_one ms content) /\
    (existsb is_shown ms = true \/ st <> a_state_new -> st' <> a_state_new) /\ index st' <= index st + zlen ms.
Proof.
  induction ms as [|m ms IH]; intros st c content rest HI Hi Hp.
  - exists [], st, c. cbn [app]. split_and!; [by destruct (render_events _ _ _ rest) as [[? ?] ?]|done..| |unfold zlen; cbn; lia]. by intros [?|?].
  - cbn [forallb] in Hp. apply andb_true_iff in Hp as [Hm Hp]. unfold zlen in Hi. cbn [length] in Hi.
    destruct (message_step cx st c content m HI) as (c1 & R1 & I1 & Hle & Hs1); [lia|done|].
    destruct (IH (one_events cx st m).2 c1 (take_one content m) rest I1) as (es & st' & c' & E & R & I & Hs & Hx);
      [unfold zlen; lia|done|].
    exists ((one_events cx st m).1 ++ es), st', c'. split_and!.
    + cbn [app]. destruct m as [refs|[x|x|x]|x|call|]; try done; cbn [render_events one_events fst snd app] in *; rewrite ?E;
        try done; destruct (thinking_events cx st _) || destruct (content_events cx st _); cbn [fst snd] in *;
        rewrite E; destruct (render_events cx t st' rest) as [[? ?] ?]; by rewrite app_assoc.
    + by rewrite client_run_app, R1.
    + done.
    + cbn [existsb]. rewrite orb_true_iff. intros [[?|?]|?]; apply Hs; eauto.
    + unfold zlen in *. cbn [length]. lia.
Qed.
End client.

Definition is_collected (m : StreamMessage) : bool := is_plain m || is_end_message m.
Lemma take_messages_plain parse_input p input_json ms content : forallb is_collected ms = true ->
  take_messages parse_input p content input_json ms = fold_left take_one ms content.
Proof.
  revert content. induction ms as [|m ms IH]; intros content Hp; [done|].
  cbn [forallb] in Hp. apply andb_true_iff in Hp as [Hm Hp].
  destruct m as [refs|[x|x|x]|x|call|]; try done; cbn [take_messages fold_left take_one]; by apply IH.
Qed.
Lemma plain_no_end ms : forallb is_plain ms = true -> existsb is_end_message ms = false.
Proof.
  induction ms as [|m ms IH]; [done|]. cbn. intros [Hm Hp]%andb_true_iff. rewrite (IH Hp).
  by destruct m as [refs|[x|x|x]|x|call|].
Qed.

(** ** The laws of the interface *)

Lemma render_cons cx t st m : is_end_message m = false ->
  exists es st', forall ms', render_events cx t st (m :: ms') =
    (let '(es', us, st2) := render_events cx t st' ms' in (es ++ es', us, st2)).
Proof.
  destruct m as [refs|th|x|call|]; intros Hm; try done.
  - exists [], st. intros ms'. cbn [render_events app]. by destruct (render_events cx t st ms') as [[? ?] ?].
  - exists (thinking_events cx st th).1, (thinking_events cx st th).2. intros ms'.
    cbn [render_events]. by destruct (thinking_events cx st th).
  - exists (content_events cx st x).1, (content_events cx st x).2. intros ms'.
    cbn [render_events]. by destruct (content_events cx st x).
  - exists (tool_events st call).1, (tool_events st call).2. intros ms'.
    cbn [render_events]. by destruct (tool_events st call).
Qed.
Lemma open_block_running cx st wanted block : stream_state st <> Completed ->
  stream_state (open_block cx st wanted block).2 <> Completed.
Proof.
  intros H. unfold open_block. destruct (decide _); [done|]. by destruct (switch_block st block).
Qed.
Lemma render_running cx t ms : forall st, existsb is_end_message ms = false -> stream_state st <> Completed ->
  stream_state (render_events cx t st ms).2 <> Completed.
Proof.
  induction ms as [|m ms IH]; intros st Hn H; [done|]. cbn [existsb] in Hn. apply orb_false_iff in Hn as [Hm Hn].
  destruct m as [refs|th|x|call|]; cbn [render_events]; try done; [by apply IH| | |].
  - unfold thinking_events. pose proof (open_block_running cx st LThinking (BThinking EmptyString None) H) as H'.
    destruct (open_block _ _ _ _) as [es st']. specialize (IH st' Hn H'). by destruct (render_events _ _ _ ms) as [[? ?] ?].
  - unfold content_events. pose proof (open_block_running cx st LText (BText EmptyString) H) as H'.
    destruct (open_block _ _ _ _) as [es st']. specialize (IH st' Hn H'). by destruct (render_events _ _ _ ms) as [[? ?] ?].
  - unfold tool_events. destruct (decide _).
    + specialize (IH st Hn H). by destruct (render_events _ _ _ ms) as [[? ?] ?].
    + destruct (switch_block st _) as [es i]. specialize (IH (mkAState i ContentBlockActive LText) Hn).
      destruct (render_events _ _ _ ms) as [[? ?] ?]. by apply IH.
Qed.

Lemma anthropic_error_total print e : exists b, canonical_into_anthropic print e = Ret b.
Proof.
  unfold canonical_into_anthropic. destruct (c_details e) as [d|]; [|by eexists].
  assert (returns (object (field "code" (default UNKNOWN (c_code e)) ++ field "details" d))) as [j ->]; [fields|by eexists].
Qed.
Lemma anthropic_laws print cx t : RendererLaws (anthropic print cx t).
Proof.
  split; cbn.
  - done.
  - intros st a b. revert st. unfold run_two. cbn. induction a as [|m a IH]; intros st Hn.
    + cbn. by destruct (render_events cx t st b) as [[? ?] ?].
    + cbn [existsb] in Hn. apply orb_false_iff in Hn as [Hm Hn]. destruct (render_cons cx t st m Hm) as (es & st' & E).
      cbn [app]. rewrite !E, IH by done. destruct (render_events cx t st' a) as [[? ?] st2].
      destruct (render_events cx t st2 b) as [[? ?] ?]. by rewrite app_assoc.
  - intros st ms. revert st. induction ms as [|m ms IH]; intros st; [done|].
    destruct (is_end_message m) eqn:Hm; [by destruct m|].
    destruct (render_cons cx t st m Hm) as (es & st' & E).
    replace (upto_end (m :: ms)) with (m :: upto_end ms) by (by destruct m). by rewrite !E, IH.
  - intros st ms. revert st. induction ms as [|m ms IH]; intros st H; [done|].
    destruct (is_end_message m) eqn:Hm; [by destruct m|]. cbn [existsb] in H. rewrite Hm in H.
    destruct (render_cons cx t st m Hm) as (es & st' & E). rewrite E. specialize (IH st' H).
    by destruct (render_events cx t st' ms) as [[? ?] ?].
  - intros st ms Hn H. unfold completed in *. apply bool_decide_eq_false. apply bool_decide_eq_false in H.
    by apply render_running.
  - intros e. destruct (anthropic_error_total print e) as [b E]. exists (wrapped b).
    unfold anthropic_body_of. by rewrite E.
Qed.

(** ** The service *)

Section composed.
Context (gunzip : bytes -> option bytes) (decode_wrapper : bytes -> option (option Response)).
Context (cursor_error : bytes -> option CursorError) (delay : nat -> Z) (print : json -> bytes).
Context (parse_input : string -> option (list (string * json))).
Context (conv : bool) (cx : Names) (t : f64) (usage : option ChainUsage).

Definition collected_are (ms : list StreamMessage) (content : list ContentBlock) : Prop :=
  forallb is_collected ms = true -> content = fold_left take_one ms [].

Lemma events_once_run cs ms d : collect_all gunzip decode_wrapper cursor_error delay
    (no_first_cache stream_decoder_new) conv cs = Ret (Ok ms, d) -> forallb is_collected ms = true ->
  exists us j, serialize (blocks_response cx usage (fold_left take_one ms []) (stop_reason_of d)) = Ret j /\
    answer_once gunzip decode_wrapper cursor_error delay print parse_input conv cx t usage (Ok <$> cs) =
    Ret (mkEffects us 0 (Ok (Whole (print j)))).
Proof.
  intros HC Hp. unfold answer_once.
  assert (Htake : forall b l a ms', collected_are l a -> collected_are (l ++ ms') (take_chunk parse_input b a ms')).
  { intros b l a ms' Ha H. rewrite forallb_app in H. apply andb_true_iff in H as [H1 H2].
    unfold take_chunk. rewrite take_messages_plain, Ha by done. by rewrite fold_left_app. }
  destruct (collect_run gunzip decode_wrapper cursor_error delay conv (anthropic print cx t) (take_chunk parse_input)
    collected_are Htake cs _ _ _ [] [] HC (fun _ => eq_refl)) as (a' & E & Ha).
  rewrite E. cbn [mbind outcome_bind app] in *. rewrite (Ha Hp).
  destruct (take_content_delays d) as [cd d1]. destruct (take_thinking_content d1) as [tc d2].
  destruct (a_message_returns (blocks_response cx usage (fold_left take_one ms []) (stop_reason_of d))) as [j Ej].
  rewrite Ej. eexists _, j. split; [done|]. reflexivity.
Qed.

Lemma events_streamed_spec cs ms : (forall j, quiet (print j)) ->
  serve gunzip decode_wrapper cursor_error delay conv cs = Ret (Ok (EMessage <$> (ms ++ [MStreamEnd]), false)) ->
  forallb is_plain ms = true -> existsb is_shown ms = true -> zlen ms < 2 ^ 32 ->
  exists us body evs es reason,
    answer_stream gunzip decode_wrapper cursor_error delay print conv cx t usage (Ok <$> cs) =
      Ret (mkEffects us 0 (Ok (Whole body))) /\
    sse_events body = es ++ [mkSseEvent (as_bytes "message_stop") MESSAGE_STOP_DATA] /\
    reads print (fun e => as_bytes (type_name e)) evs es /\
    client_run parse_input client_new evs = Some (mkClient (Ending reason) (fold_left take_one ms [])).
Proof.
  intros Hp Hs Hpl Hsh Hz.
  destruct (served_run gunzip decode_wrapper cursor_error delay conv t (anthropic print cx t) (anthropic_laws print cx t)
    a_state_new cs _ Hs) as (d1 & cs1 & d2 & E1 & E2); [by apply ends_only_end, plain_no_end|done|].
  destruct (render_plain parse_input cx t ms a_state_new client_new [] [MStreamEnd]) as (evs & st' & c' & ER & RC & I & Hne & _);
    [by left|by cbn|done|].
  destruct I as [(-> & _ & _)|(n & b & done' & Hn & Hk & -> & -> & Ec)]; [by destruct Hne; [left|]|].
  cbn [process_messages anthropic] in E2. rewrite ER in E2. cbn [render_events end_events last_content_type index] in E2.
  rewrite decide_False in E2 by done. cbn [fst snd] in E2.
  unfold answer_stream. rewrite E1. cbn [mbind outcome_bind]. rewrite E2. cbn [mbind outcome_bind].
  unfold last_events. destruct (take_content_delays d2) as [cd d3]. destruct (take_thinking_content d3) as [tc d4].
  set (es1 := evs ++ _). set (es2 := [MessageDelta _ _]).
  destruct (anthropic_body_reads print Hp es1) as (b1 & r1 & -> & R1 & S1).
  destruct (anthropic_body_reads print Hp es2) as (b2 & r2 & EB & R2 & S2).
  cbn [mbind outcome_bind]. rewrite EB. cbn [mbind outcome_bind].
  eexists _, _, (es1 ++ es2), (r1 ++ r2), _. split_and!; [done|by rewrite S1, S2, <- app_assoc|by apply Forall2_app|].
  subst es1 es2. rewrite !client_run_app, RC. cbn. rewrite Z.eqb_refl. rewrite Ec. by destruct b.
Qed.
End composed.

Lemma take_messages_app parse_input p input_json a b content : forallb is_collected a = true ->
  take_messages parse_input p content input_json (a ++ b) =
  take_messages parse_input p (fold_left take_one a content) input_json b.
Proof.
  revert content. induction a as [|m a IH]; intros content Hp; [done|].
  cbn [forallb] in Hp. apply andb_true_iff in Hp as [Hm Hp].
  destruct m as [refs|[x|x|x]|x|call|]; try done; cbn [app take_messages fold_left take_one]; by apply IH.
Qed.
Lemma plain_collected ms : forallb is_plain ms = true -> forallb is_collected ms = true.
Proof.
  induction ms as [|m ms IH]; [done|]. cbn. intros [Hm Hp]%andb_true_iff. unfold is_collected at 1. by rewrite Hm, IH.
Qed.
Lemma fold_collected ms : fold_left take_one (ms ++ [MStreamEnd]) [] = fold_left take_one ms [].
Proof. by rewrite fold_left_app. Qed.

(** ** Properties *)

(** C26: the streamed events rebuild the answer, when it is made of thoughts (texts and
    signatures) and content alone and ends.  Tool calls and redacted thoughts are not
    covered: [tool_calls_rendered] shows where the two forms differ on them.  For the
    stream the upstream answer is received in two or more chunks of whole frames with
    content before the last one ([aligned]).  Then the body is complete and is
    a sequence of events that follows the protocol: message start, blocks under
    consecutive indexes, each opened, grown by deltas of its kind and closed, then
    the stop reason and the final mark; and a client that plays them back gets
    exactly the content blocks of the answer given at once, however the latter was
    cut. *)
Theorem events_rebuild_answer gunzip decode_wrapper cursor_error delay print parse_input conv cx t usage gs more ms :
  (forall j, quiet (print j)) ->
  aligned gunzip decode_wrapper cursor_error conv gs more (ms ++ [MStreamEnd]) ->
  forallb is_plain ms = true -> existsb is_shown ms = true -> zlen ms < 2 ^ 32 ->
  exists content,
  (exists us body evs es reason,
    answer_stream gunzip decode_wrapper cursor_error delay print conv cx t usage (Ok <$> (chunk_of <$> gs ++ more)) =
      Ret (mkEffects us 0 (Ok (Whole body))) /\
    sse_events body = es ++ [mkSseEvent (as_bytes "message_stop") MESSAGE_STOP_DATA] /\
    reads print (fun e => as_bytes (type_name e)) evs es /\
    client_run parse_input client_new evs = Some (mkClient (Ending reason) content)) /\
  (forall cs, List.concat cs = chunk_of (List.concat (gs ++ more)) ->
   exists us j reason, serialize (blocks_response cx usage content reason) = Ret j /\
     answer_once gunzip decode_wrapper cursor_error delay print parse_input conv cx t usage (Ok <$> cs) =
       Ret (mkEffects us 0 (Ok (Whole (print j))))).
Proof.
  intros Hp Ha Hpl Hsh Hz. exists (fold_left take_one ms []). split.
  - apply events_streamed_spec; try done. apply aligned_served; [done|]. by apply ends_only_end, plain_no_end.
  - intros cs Hcs. destruct (aligned_collected _ _ _ delay _ _ _ _ cs Ha Hcs) as [d EC].
    destruct (events_once_run gunzip decode_wrapper cursor_error delay print parse_input conv cx t usage cs _ d EC) as (us & j & Ej & E).
    + rewrite forallb_app, plain_collected by done. done.
    + rewrite fold_collected in Ej. by exists us, j, (stop_reason_of d).
Qed.

Definition example_names : Names := mkNames "msg_01" "default".
Definition no_input (s : string) : option (list (string * json)) := None.

Lemma events_rebuild_answer_witness :
  exists content,
  (exists us body evs es reason,
    answer_stream no_gzip thinking_wrapper no_error no_delay compact false example_names (S754_zero false) None
      (Ok <$> (chunk_of <$> example_groups ++ example_more)) = Ret (mkEffects us 0 (Ok (Whole body))) /\
    sse_events body = es ++ [mkSseEvent (as_bytes "message_stop") MESSAGE_STOP_DATA] /\
    reads compact (fun e => as_bytes (type_name e)) evs es /\
    client_run no_input client_new evs = Some (mkClient (Ending reason) content)) /\
  exists us j reason, serialize (blocks_response example_names None content reason) = Ret j /\
    answer_once no_gzip thinking_wrapper no_error no_delay compact no_input false example_names (S754_zero false) None
      [Ok (chunk_of (List.concat (example_groups ++ example_more)))] = Ret (mkEffects us 0 (Ok (Whole (compact j)))).
Proof.
  destruct (events_rebuild_answer no_gzip thinking_wrapper no_error no_delay compact no_input false example_names
    (S754_zero false) None example_groups example_more example_messages compact_quiet example_aligned eq_refl eq_refl eq_refl)
    as (content & H1 & H2).
  exists content. split; [exact H1|].
  apply (H2 [chunk_of (List.concat (example_groups ++ example_more))]). cbn [List.concat]. apply app_nil_r.
Defined.

(** Tool calls and redacted thoughts.  A call that comes in one piece behind
    other content is rendered so that the client gets the block of the answer given
    at once.  A call in two pieces is opened twice, as two calls; content behind a
    call goes into the block of the call, and a call without anything before it has
    no message start: both break the protocol.  At once, the pieces of a call that
    end in different chunks are lost.  The data of a redacted thought is dropped
    from the stream. *)
Theorem tool_calls_rendered parse_input cx t :
  (forall ms c input reason usage, forallb is_plain ms = true -> existsb is_shown ms = true -> zlen ms + 1 < 2 ^ 32 ->
     parse_input (tc_input c) = Some input ->
     client_run parse_input client_new
       ((render_events cx t a_state_new (ms ++ [MToolCall c; MStreamEnd])).1.1 ++ [MessageDelta reason usage]) =
     Some (mkClient (Ending reason) (take_chunk parse_input true [] (ms ++ [MToolCall c; MStreamEnd])))) /\
  (forall x c c', (render_events cx t a_state_new [MContent x; MToolCall c; MToolCall c'; MStreamEnd]).1.1 =
     [message_start cx; ContentBlockStart 0 (BText EmptyString); Ping; ContentBlockDelta 0 (TextDelta x);
      ContentBlockStop 0; ContentBlockStart 1 (BToolUse (tc_id c) (tc_name c) []);
      ContentBlockDelta 1 (InputJsonDelta EmptyString); ContentBlockDelta 1 (InputJsonDelta (tc_input c));
      ContentBlockStop 1; ContentBlockStart 2 (BToolUse (tc_id c') (tc_name c') []);
      ContentBlockDelta 2 (InputJsonDelta EmptyString); ContentBlockDelta 2 (InputJsonDelta (tc_input c'));
      ContentBlockStop 2]) /\
  (forall x c y, client_run parse_input client_new
     (render_events cx t a_state_new [MContent x; MToolCall c; MContent y]).1.1 = None) /\
  (forall c ms, client_run parse_input client_new (render_events cx t a_state_new (MToolCall c :: ms)).1.1 = None) /\
  (forall content c c', parse_input (tc_input c') = None ->
     take_chunk parse_input true (take_chunk parse_input false content [MToolCall c]) [MToolCall c'] = content) /\
  (forall x, (render_events cx t a_state_new [MThinking (RedactedThinking x); MStreamEnd]).1.1 =
       [message_start cx; ContentBlockStart 0 (BThinking EmptyString None); Ping; ContentBlockStop 0] /\
     take_chunk parse_input false [] [MThinking (RedactedThinking x)] = [BRedactedThinking x]).
Proof.
  split_and!.
  - intros ms c input reason usage Hpl Hsh Hz Hin.
    destruct (render_plain parse_input cx t ms a_state_new client_new [] [MToolCall c; MStreamEnd])
      as (evs & st' & c' & ER & RC & I & Hne & Hx); [by left|cbn; lia|done|].
    destruct I as [(-> & _ & _)|(n & b & done' & Hn & Hk & -> & -> & Ec)]; [by destruct Hne; [left|]|].
    unfold take_chunk. rewrite take_messages_app, Ec by (by apply plain_collected).
    assert (take_messages parse_input true (done' ++ [b]) EmptyString [MToolCall c; MStreamEnd] =
            (done' ++ [b]) ++ [BToolUse (tc_id c) (tc_name c) input]) as ->.
    { cbn. change (parse_input (EmptyString +:+ tc_input c)) with (parse_input (tc_input c)). by rewrite Hin. }
    rewrite ER. cbn [render_events]. unfold tool_events. cbn [last_content_type].
    rewrite decide_False by (by destruct b). unfold switch_block. cbn [last_content_type index] in *.
    rewrite decide_False by done. cbn [end_events last_content_type index]. rewrite decide_False by done. cbn [fst snd app].
    assert (next_index n = n + 1) as -> by (unfold next_index; apply wrap_small; unfold in_uint; cbn in Hx; lia).
    rewrite <- !app_assoc, client_run_app, RC. cbn. rewrite Z.eqb_refl.
    destruct b; try done; cbn; rewrite !Z.eqb_refl; cbn;
      do 2 (rewrite Z.eqb_refl; cbn); change (parse_input _) with (parse_input (tc_input c)); rewrite Hin; cbn; rewrite Z.eqb_refl; cbn;
      by rewrite <- app_assoc.
  - done.
  - intros. done.
  - intros c ms. cbn [render_events]. unfold tool_events, switch_block. cbn [last_content_type a_state_new].
    rewrite decide_False, decide_True by done. by destruct (render_events cx t _ ms) as [[? ?] ?].
  - intros content c c' Hn. unfold take_chunk. cbn.
    change (parse_input (EmptyString +:+ tc_input c')) with (parse_input (tc_input c')). by rewrite Hn.
  - done.
Qed.

Lemma tool_calls_rendered_witness :
  let c := mkToolCall "toolu" "search" "{}" in
  let parse (s : string) := if String.eqb s "{}" then Some [] else None in
  client_run parse client_new
    ((render_events example_names (S754_zero false) a_state_new [MContent "Hello"; MToolCall c; MStreamEnd]).1.1 ++
     [MessageDelta ToolUse d_usage_default]) =
  Some (mkClient (Ending ToolUse) [BText "Hello"; BToolUse "toolu" "search" []]).
Proof.
  intros c parse. destruct (tool_calls_rendered parse example_names (S754_zero false)) as (H & _).
  apply (H [MContent "Hello"] c [] ToolUse d_usage_default); reflexivity.
Defined.
