(* ===== verification/Adapter.v ===== *)
(** * Conversions shared by the two chat interfaces

    [src/src/core/adapter.rs] and [src/src/core/adapter/error.rs]: web references and
    external links in the text of messages, tool names, images, and the
    conversation that is sent upstream, whose protobuf records are those of
    [src/src/core/aiserver/v1/aiserver.v1.rs] as far as the adapters fill them.

    Texts are their UTF-8 bytes; no delimiter the code looks for is part of another
    character.  The conversions run in [adapt], the monad of the fresh identifiers
    ([Fresh]: how many UUIDs were drawn, and the 16-bit counter of [BaseUuid]) and
    of the errors.  The parser of URLs, the decoders of images, base64 and the HTTP
    client are libraries: they are parameters. *)
From S2P Require Import Prelude StringBuilder Strings Numerals Settings ProtoEncode ResponseDecoder LogManager Auth Models ChatModels.

(** ** Errors *)

Inductive AdapterError : Type :=
| VisionDisabled | Base64Only | Base64DecodeFailed | ARequestFailed | ResponseReadFailed
| UnsupportedImageFormat | UnsupportedAnimatedGif | AExceedSizeLimit.
#[export] Instance AdapterError_eq_dec : EqDecision AdapterError.
Proof. solve_decision. Defined.

Definition SIZE_LIMIT_MSG : string := "Message exceeds 4 MiB size limit".
Definition to_parts (e : AdapterError) : Z * string * string :=
  match e with
  | VisionDisabled => (403, "permission_denied", "Vision feature is disabled")
  | Base64Only => (400, "invalid_argument", "Only base64 encoded images are supported")
  | Base64DecodeFailed => (400, "invalid_argument", "Invalid base64 encoded image")
  | ARequestFailed => (502, "unavailable", "Cannot access the image URL")
  | ResponseReadFailed => (502, "unavailable", "Failed to download image from URL")
  | UnsupportedImageFormat => (400, "invalid_argument",
      "Unsupported image format, only PNG, JPEG, WebP and non-animated GIF are supported")
  | UnsupportedAnimatedGif => (400, "invalid_argument", "Animated GIF is not supported")
  | AExceedSizeLimit => (413, "resource_exhausted", SIZE_LIMIT_MSG)
  end%string.
Definition to_log_error (e : AdapterError) : ErrorInfo :=
  let '(_, error, message) := to_parts e in Detailed error message.
Definition into_response_tuple (e : AdapterError) : Z * ErrorBody :=
  let '(status_code, error, message) := to_parts e in (status_code, GenericBody (Some status_code) error message).
Definition adapter_openai_tuple (e : AdapterError) : Z * ErrorBody :=
  let '(status_code, code, message) := to_parts e in (status_code, OpenAiBody (Some code) message).
Definition adapter_anthropic_tuple (e : AdapterError) : Z * ErrorBody :=
  let '(status_code, code, message) := to_parts e in (status_code, AnthropicBody code message).
Definition from_exceed_size_limit (e : ExceedSizeLimit) : AdapterError := AExceedSizeLimit.

(** ** Fresh identifiers and the monad of the conversions *)

Record Fresh : Type := mkFresh { uuids : nat; base_uuid : Z }.

Definition adapt (A : Type) : Type := Fresh -> outcome (result AdapterError (A * Fresh)).
#[export] Instance adapt_ret : MRet adapt := fun A a f => Ret (Ok (a, f)).
#[export] Instance adapt_bind : MBind adapt := fun A B k m f =>
  match m f with
  | Ret (Ok (a, f)) => k a f
  | Ret (Err e) => Ret (Err e)
  | Panic => Panic
  | Undef => Undef
  end.
Definition fail {A} (e : AdapterError) : adapt A := fun _ => Ret (Err e).
Definition of_result {A} (r : result AdapterError A) : adapt A :=
  match r with Ok a => mret a | Err e => fail e end.
Definition of_outcome {A} (o : outcome A) : adapt A := fun f => a ← o; Ret (Ok (a, f)).
(** [unreachable_unchecked]. *)
Definition unreachable {A} : adapt A := fun _ => Undef.

(** [Uuid::new_v4().to_string()]: [supply n] is the [n]-th UUID. *)
Definition new_uuid (supply : nat -> bytes) : adapt bytes :=
  fun f => Ret (Ok (supply (uuids f), mkFresh (S (uuids f)) (base_uuid f))).
(** [BaseUuid::new]: the random start of the counter, from 256 to 383. *)
Definition base_uuid_new (start : Z) : adapt unit := fun f => Ret (Ok (tt, mkFresh (uuids f) start)).
Definition add_and_to_string : adapt bytes :=
  fun f => Ret (Ok (as_bytes (to_dec (base_uuid f)), mkFresh (uuids f) (wrap 16 (base_uuid f + 1)))).

Fixpoint adapt_list {A B} (f : A -> adapt B) (l : list A) : adapt (list B) :=
  match l with
  | [] => mret []
  | a :: l => b ← f a; bs ← adapt_list f l; mret (b :: bs)
  end.

(** ** Web references *)

Definition NEWLINE : bytes := [10].

(** [str::lines]: the terminator of a line is a line feed, with a carriage return
    before it or not; nothing follows the last one. *)
Fixpoint lines_of (pieces : list bytes) : list bytes :=
  match pieces with
  | [] => []
  | [p] => if (length p =? 0)%nat then [] else [p]
  | p :: pieces => default p (strip_suffix [13] p) :: lines_of pieces
  end.
Definition lines (s : bytes) : list bytes := lines_of (split_on 10 s).

(** [str::split_once] at a text. *)
Fixpoint split_once_at (pat s : bytes) : option (bytes * bytes) :=
  match strip_prefix pat s with
  | Some rest => Some ([], rest)
  | None => match s with
            | [] => None
            | b :: s => match split_once_at pat s with Some (x, y) => Some (b :: x, y) | None => None end
            end
  end.

(** The characters behind the first full stop. *)
Fixpoint skip_number (s : bytes) : bytes :=
  match s with [] => [] | b :: s => if b =? 46 then s else skip_number s end.

(** The loop over the characters behind the opening bracket. *)
Inductive RefState : Type := InTitle | InUrl | InChunk.
Definition push_char (state : RefState) (c : Z) (r : bytes * bytes * bytes) : bytes * bytes * bytes :=
  let '(title, url, chunk) := r in
  match state with
  | InTitle => (title ++ [c], url, chunk)
  | InUrl => (title, url ++ [c], chunk)
  | InChunk => (title, url, chunk ++ [c])
  end.
Fixpoint ref_chars (state : RefState) (r : bytes * bytes * bytes) (chars : bytes) : bytes * bytes * bytes :=
  match state, chars with
  | _, [] => r
  | InTitle, 93 :: chars => match chars with 40 :: chars => ref_chars InUrl r chars | _ => r end
  | InUrl, 41 :: chars => match chars with 60 :: chars => ref_chars InChunk r chars | _ => r end
  | InChunk, 62 :: _ => r
  | _, c :: chars => ref_chars state (push_char state c r) chars
  end.

Fixpoint parse_ref_lines (ls : list bytes) : list WebReference :=
  match ls with
  | [] => []
  | line :: ls =>
      let line := trim line in
      if (length line =? 0)%nat then [] else
      match trim_start (skip_number line) with
      | 91 :: chars =>
          let '(title, url, chunk) := ref_chars InTitle ([], [], []) chars in
          mkWebReference (from_bytes title) (from_bytes url) (from_bytes chunk) :: parse_ref_lines ls
      | _ => parse_ref_lines ls
      end
  end.
Definition parse_web_references (text : bytes) : list WebReference := parse_ref_lines (drop 1 (lines text)).

Definition WEB_REFERENCES : bytes := as_bytes "WebReferences:".
Definition extract_web_references_info (text : bytes) : bytes * list WebReference * bool :=
  match strip_prefix WEB_REFERENCES text with
  | Some _ =>
      match split_once_at [10; 10] text with
      | Some (web_refs_text, content_text) =>
          let web_refs := parse_web_references web_refs_text in
          (content_text, web_refs, negb (length web_refs =? 0)%nat)
      | None => (text, [], false)
      end
  | None => (text, [], false)
  end.

(** ** Tool names *)

(** One character at a time: white space and full stops become underscores. *)
Fixpoint sanitize (fuel : nat) (s : bytes) : bytes :=
  match fuel with
  | O => []
  | S fuel =>
      match s with
      | [] => []
      | c :: s' =>
          if c =? 46 then 95 :: sanitize fuel s'
          else match strip_first Some WHITE_SPACE s with
               | Some rest => 95 :: sanitize fuel rest
               | None => if is_ascii_alphanumeric c || (c =? 95) || (c =? 45) then c :: sanitize fuel s'
                         else sanitize fuel s'
               end
      end
  end.
Definition sanitize_tool_name (input : bytes) : bytes := sanitize (length input) input.

Definition to_opt (b : bool) : option bool := if b then Some true else None.

(** ** Images *)

Inductive ImageFormat : Type := FPng | FJpeg | FGif | FWebP | FOther.
#[export] Instance ImageFormat_eq_dec : EqDecision ImageFormat.
Proof. solve_decision. Defined.
Record Dimension : Type := mkDimension { width : Z; height : Z }.
Record ImageProto : Type := mkImage { i_data : bytes; i_dimension : option Dimension; i_uuid : bytes }.

(** [TryFrom<image::DynamicImage>]: both sides as [i32]. *)
Definition dimension_try_from (w h : Z) : option Dimension :=
  if (w <? 2 ^ 31) && (h <? 2 ^ 31) then Some (mkDimension w h) else None.

Section images.
Context (b64_decode : bytes -> option bytes) (load_image : ImageFormat -> bytes -> option (Z * Z)).
(** A second frame; [skip] is the option that leaves frames undecoded. *)
Context (second_frame : bool -> bytes -> bool) (guess_format : bytes -> option ImageFormat).
(** A request for a URL: it fails, its body cannot be read, or it is read. *)
Context (http_get : bytes -> option (option bytes)).

Definition dimensions_of (format : ImageFormat) (data : bytes) : option Dimension :=
  match load_image format data with Some (w, h) => dimension_try_from w h | None => None end.

(** What both interfaces do with the decoded bytes. *)
Definition check_image (format : ImageFormat) (data : bytes) : result AdapterError (bytes * option Dimension) :=
  if bool_decide (format = FGif) && second_frame false data then Err UnsupportedAnimatedGif
  else Ok (data, dimensions_of format data).

Definition BASE64_SEPARATOR : bytes := as_bytes ";base64,".
Definition format_of_name (name : bytes) : option ImageFormat :=
  if eq_str name "png" then Some FPng
  else if eq_str name "jpg" || eq_str name "jpeg" then Some FJpeg
  else if eq_str name "gif" then Some FGif
  else if eq_str name "webp" then Some FWebP
  else None.
(** [process_base64_image] of the OpenAI interface: the rest of a data URL. *)
Definition process_data_url (url : bytes) : result AdapterError (bytes * option Dimension) :=
  '(format, data) ← ok_or (split_once_at BASE64_SEPARATOR url) Base64DecodeFailed;
  format ← ok_or (format_of_name format) UnsupportedImageFormat;
  image_data ← ok_or (b64_decode data) Base64DecodeFailed;
  check_image format image_data.
(** [process_base64_image] of the Anthropic interface: the format is given. *)
Definition process_base64_image (format : ImageFormat) (data : bytes) : result AdapterError (bytes * option Dimension) :=
  image_data ← ok_or (b64_decode data) Base64DecodeFailed;
  check_image format image_data.

Definition process_http_image (url : bytes) : result AdapterError (bytes * option Dimension) :=
  match http_get url with
  | None => Err ARequestFailed
  | Some None => Err ResponseReadFailed
  | Some (Some image_data) =>
      match guess_format image_data with
      | Some FPng => Ok (image_data, dimensions_of FPng image_data)
      | Some FJpeg => Ok (image_data, dimensions_of FJpeg image_data)
      | Some FWebP => Ok (image_data, dimensions_of FWebP image_data)
      | Some FGif =>
          if second_frame true image_data then Err UnsupportedAnimatedGif
          else Ok (image_data, dimensions_of FGif image_data)
      | _ => Err UnsupportedImageFormat
      end
  end.

(** Where an image comes from: inline, as far as the interface tells, or a URL. *)
Definition image_result (vision : VisionAbility) (inline : option (result AdapterError (bytes * option Dimension)))
    (url : bytes) : result AdapterError (bytes * option Dimension) :=
  match vision, inline with
  | VNone, _ => Err VisionDisabled
  | _, Some r => r
  | VBase64, None => Err Base64Only
  | VAll, None => process_http_image url
  end.
Definition see_image (vision : VisionAbility) (inline : option (result AdapterError (bytes * option Dimension)))
    (url : bytes) : adapt ImageProto :=
  '(image_data, dimension) ← of_result (image_result vision inline url);
  uuid ← add_and_to_string;
  mret (mkImage image_data dimension uuid).
End images.

(** ** External links *)

Record ComposerExternalLink : Type := mkLink { l_url : bytes; l_uuid : bytes }.

Section links.
(** The scheme of a text that [url::Url::parse] accepts. *)
Context (url_scheme : bytes -> option bytes).

Definition is_web_link (url : bytes) : bool :=
  negb (length url =? 0)%nat &&
  match url_scheme url with Some scheme => eq_str scheme "http" || eq_str scheme "https" | None => false end.

(** The characters up to white space, and the rest from there. *)
Fixpoint take_word (fuel : nat) (s : bytes) : bytes * bytes :=
  match fuel with
  | O => ([], s)
  | S fuel =>
      match s, strip_first Some WHITE_SPACE s with
      | [], _ => ([], [])
      | c :: s', None => let '(w, rest) := take_word fuel s' in (c :: w, rest)
      | _, Some _ => ([], s)
      end
  end.
Fixpoint links_in (fuel : nat) (chars : bytes) : list bytes :=
  match fuel with
  | O => []
  | S fuel =>
      match chars with
      | [] => []
      | c :: chars =>
          if c =? 64 then
            let '(url, rest) := take_word (length chars) chars in
            (if is_web_link url then [url] else []) ++ links_in fuel rest
          else links_in fuel chars
      end
  end.
Definition name_link (url : bytes) : adapt ComposerExternalLink := uuid ← add_and_to_string; mret (mkLink url uuid).
Definition extract_external_links (text : bytes) : adapt (list ComposerExternalLink) :=
  adapt_list name_link (links_in (S (length text)) text).
End links.

(** ** The conversation *)

Definition MESSAGE_HUMAN : Z := 1.
Definition MESSAGE_AI : Z := 2.
Definition MODE_CHAT : Z := 1.
Definition MODE_AGENT : Z := 2.
Definition TOOL_MCP : Z := 19.

Record ConvThinking : Type := mkConvThinking { ct_text : bytes; ct_signature : bytes; ct_redacted : bytes }.
(** [client_side_tool_v2_result::Result::McpResult]. *)
Record McpResult : Type := mkMcpResult { selected_tool : bytes; mcp_result : bytes }.
Record ToolV2Result : Type := mkToolV2Result
  { tr_tool : Z; tr_tool_call_id : bytes; tr_error : option bytes; tr_model_call_id : option bytes;
    tr_tool_index : option Z; tr_result : option McpResult }.
Record ToolParams : Type := mkToolParams
  { tp_name : bytes; tp_description : bytes; tp_parameters : bytes; tp_server_name : bytes }.
Record ToolV2Call : Type := mkToolV2Call
  { tv_tool : Z; tv_tool_call_id : bytes; tv_name : bytes; tv_tool_index : option Z; tv_params : list ToolParams }.
Record ConvToolResult : Type := mkConvToolResult
  { cr_tool_call_id : bytes; cr_tool_name : bytes; cr_tool_index : Z; cr_model_call_id : option bytes;
    cr_raw_args : bytes; cr_result : option ToolV2Result; cr_error : option bytes; cr_images : list ImageProto;
    cr_tool_call : option ToolV2Call }.
Record ConversationMessage : Type := mkConversation
  { cm_text : bytes; cm_type : Z; cm_images : list ImageProto; cm_bubble_id : bytes;
    cm_server_bubble_id : option bytes; cm_tool_results : list ConvToolResult; cm_is_agentic : bool;
    cm_web_references : list WebReference; cm_thinking : option ConvThinking; cm_unified_mode : option Z;
    cm_supported_tools : list Z; cm_external_links : list ComposerExternalLink; cm_use_web : option bool }.
Record ConversationMessageHeader : Type := mkHeader
  { h_bubble_id : bytes; h_server_bubble_id : option bytes; h_type : Z }.

(** [Messages]: the conversation and its headers. *)
Record Messages : Type := mkMessages { inner : list ConversationMessage; headers : list ConversationMessageHeader }.
Definition messages_new : Messages := mkMessages [] [].
Definition header_of (m : ConversationMessage) : ConversationMessageHeader :=
  mkHeader (cm_bubble_id m) (cm_server_bubble_id m) (cm_type m).
Definition push (message : ConversationMessage) (ms : Messages) : Messages :=
  mkMessages (inner ms ++ [message]) (headers ms ++ [header_of message]).
Definition from_single (message : ConversationMessage) : Messages := push message messages_new.
Definition last_message (ms : Messages) : option ConversationMessage := last (inner ms).
(** What is done through [last_mut]. *)
Fixpoint alter_last {A} (f : A -> A) (l : list A) : list A :=
  match l with [] => [] | [a] => [f a] | a :: l => a :: alter_last f l end.
Definition last_mut (f : ConversationMessage -> ConversationMessage) (ms : Messages) : Messages :=
  mkMessages (alter_last f (inner ms)) (headers ms).

(** The message of a request without any. *)
Definition empty_human (bubble_id : bytes) : ConversationMessage :=
  mkConversation [] MESSAGE_HUMAN [] bubble_id None [] false [] None (Some MODE_CHAT) [] [] None.

(** What a text gives, by role: the text to send, its web references and links. *)
Definition text_parts (url_scheme : bytes -> option bytes) (role : Role) (text : bytes)
    : adapt (bytes * list WebReference * option bool * list ComposerExternalLink) :=
  match role with
  | Assistant =>
      let '(text, web_refs, has_web) := extract_web_references_info text in
      mret (text, web_refs, to_opt has_web, [])
  | User => external_links ← extract_external_links url_scheme text; mret (text, [], None, external_links)
  | System => unreachable
  end.

(** ** The request *)

Record ModelDetails : Type := mkModelDetails
  { md_model_name : option bytes; md_azure_state : bool; md_enable_slow_pool : option bool; md_max_mode : option bool }.
Record CursorPosition : Type := mkPosition { p_line : Z; p_column : Z }.
Definition position_default : CursorPosition := mkPosition 0 0.
(** The fields that are not written are those of the default. *)
Record CurrentFileInfo : Type := mkCurrentFile
  { cf_contents_start_at_line : Z; cf_cursor_position : option CursorPosition; cf_total_number_of_lines : Z;
    cf_selection : option (option CursorPosition * option CursorPosition) }.
Definition no_file : CurrentFileInfo :=
  mkCurrentFile 1 (Some position_default) 1 (Some (Some position_default, Some position_default)).
Record StreamUnifiedChatRequest : Type := mkRequest
  { rq_conversation : list ConversationMessage; rq_headers : list ConversationMessageHeader;
    rq_explicit_context : option ExplicitContext; rq_model_details : option ModelDetails; rq_use_web : option bytes;
    rq_external_links : list ComposerExternalLink; rq_should_cache : option bool;
    rq_current_file : option CurrentFileInfo; rq_use_new_compression_scheme : option bool; rq_is_chat : bool;
    rq_conversation_id : bytes; rq_environment_info : option EnvironmentInfo; rq_is_agentic : bool;
    rq_supported_tools : list Z; rq_mcp_tools : list ToolParams; rq_use_full_inputs_context : option bool;
    rq_allow_model_fallbacks : option bool; rq_unified_mode : option Z; rq_should_disable_tools : option bool;
    rq_thinking_level : option Z; rq_uses_rules : option bool; rq_unified_mode_name : option bytes }.

Definition WEB_SEARCH_MODE : bytes := as_bytes "full_search".
Definition ASK_MODE_NAME : bytes := as_bytes "Ask".
Definition AGENT_MODE_NAME : bytes := as_bytes "Agent".
Definition THINKING_UNSPECIFIED : Z := 0.
Definition THINKING_HIGH : Z := 2.
Definition long_context_of (g : AppConfig) (model : ExtModel) : bool :=
  long_context g || bool_decide (x_id model ∈ (as_bytes <$> LONG_CONTEXT_MODELS)).
Definition details_of (model : ExtModel) (enable_slow_pool : bool) : ModelDetails :=
  mkModelDetails (Some (x_id model)) true (to_opt enable_slow_pool) (Some (max model)).

(** What the size limit and the compression make of a request. *)
Definition encode_framed {M} `{Prost M} `{Gzip} (m : M) : adapt bytes := fun f =>
  r ← encode_message_framed m;
  Ret (match r with Ok bs => Ok (bs, f) | Err e => Err (from_exceed_size_limit e) end).

(** ** Lemmas on texts *)

(** No separator of the list starts with the byte. *)
Definition no_start (ps : list bytes) (c : Z) : Prop := Forall (fun p => exists b q, p = b :: q /\ b <> c) ps.
Definition head_differs (c : Z) (p : bytes) : bool := match p with [] => false | b :: _ => negb (b =? c) end.
Lemma no_start_check ps c : forallb (head_differs c) ps = true -> no_start ps c.
Proof.
  intros H. apply forallb_Forall in H. eapply Forall_impl; [exact H|]. intros [|b q]; [done|]. cbn. intros Hb.
  exists b, q. split; [done|]. intros ->. by rewrite Z.eqb_refl in Hb.
Qed.
Lemma strip_first_no_start ps c s : no_start ps c -> strip_first Some ps (c :: s) = None.
Proof.
  induction 1 as [|p ps (b & q & -> & Hb) _ IH]; [done|]. cbn [strip_first length take].
  rewrite bool_decide_eq_false_2 by congruence. exact IH.
Qed.
Lemma trim_loop_no_start ps fuel c s : no_start ps c -> trim_loop ps fuel (c :: s) = c :: s.
Proof. intros H. destruct fuel as [|fuel]; [done|]. cbn [trim_loop]. by rewrite strip_first_no_start. Qed.
Lemma trim_start_no_start c s : no_start WHITE_SPACE c -> trim_start (c :: s) = c :: s.
Proof. apply trim_loop_no_start. Qed.
Lemma trim_end_no_start s c : no_start (@rev Z <$> WHITE_SPACE) c -> trim_end (s ++ [c]) = s ++ [c].
Proof.
  intros H. unfold trim_end. rewrite rev_app_distr. cbn [rev app]. rewrite trim_loop_no_start by done.
  cbn. by rewrite rev_involutive.
Qed.
Lemma trim_start_space c s : no_start WHITE_SPACE c -> trim_start (32 :: c :: s) = c :: s.
Proof.
  intros H. unfold trim_start. cbn [length trim_loop].
  assert (strip_first Some WHITE_SPACE (32 :: c :: s) = Some (c :: s)) as -> by reflexivity.
  by apply (trim_loop_no_start WHITE_SPACE (S (length s))).
Qed.

Lemma split_once_quiet l t : quiet l ->
  split_once_at [10; 10] (l ++ t) =
  match split_once_at [10; 10] t with Some (x, y) => Some (l ++ x, y) | None => None end.
Proof.
  induction 1 as [|b l Hb _ IH]; cbn [app]; [by destruct (split_once_at _ t) as [[? ?]|]|].
  cbn [split_once_at]. unfold strip_prefix. cbn [length take].
  rewrite bool_decide_eq_false_2 by congruence. rewrite IH. by destruct (split_once_at _ t) as [[? ?]|].
Qed.
Lemma split_once_single c t : c <> 10 ->
  split_once_at [10; 10] (10 :: c :: t) =
  match split_once_at [10; 10] (c :: t) with Some (x, y) => Some (10 :: x, y) | None => None end.
Proof.
  intros Hc. cbn [split_once_at]. unfold strip_prefix at 1. cbn [length take]. rewrite bool_decide_eq_false_2 by congruence. done.
Qed.
(** Lines before the first empty one. *)
Lemma split_once_lines ls rest : ls <> [] -> Forall (fun l => quiet l /\ l <> []) ls ->
  split_once_at [10; 10] (join_with [10] ls ++ [10; 10] ++ rest) = Some (join_with [10] ls, rest).
Proof.
  intros Hne H. induction H as [|l ls [Hq Hl] H IH]; [done|]. destruct ls as [|l2 ls].
  - cbn [join_with]. rewrite split_once_quiet by done.
    assert (split_once_at [10; 10] ([10; 10] ++ rest) = Some ([], rest)) as ->; [|by rewrite app_nil_r].
    cbn [app split_once_at]. by rewrite (strip_prefix_app [10; 10] rest : strip_prefix [10; 10] (10 :: 10 :: rest) = _).
  - change (join_with [10] (l :: l2 :: ls)) with (l ++ [10] ++ join_with [10] (l2 :: ls)).
    rewrite <- !app_assoc, split_once_quiet by done.
    destruct (join_with [10] (l2 :: ls)) as [|c t] eqn:Ej.
    + apply Forall_cons in H as [[_ H2] _]. destruct ls; cbn in Ej; [done|]. by apply app_eq_nil in Ej as [-> _].
    + assert (c <> 10) as Hc.
      { apply Forall_cons in H as [[H1 H2] _]. destruct l2 as [|c' l2]; [done|].
        apply Forall_cons in H1 as [H1 _]. destruct ls; cbn in Ej; congruence. }
      cbn [app]. rewrite split_once_single by done. change (c :: t ++ 10 :: 10 :: rest) with ((c :: t) ++ [10; 10] ++ rest).
      by rewrite IH.
Qed.

Lemma lines_join ls : Forall (fun l => quiet l /\ exists p b, l = p ++ [b] /\ b <> 13) ls ->
  ls <> [] -> lines (join_with [10] ls) = ls.
Proof.
  intros H Hne. unfold lines. rewrite split_on_join; [|done|].
  2: { eapply Forall_impl; [exact H|]. by intros l [Hq _]. }
  clear Hne. induction H as [|l ls (_ & p & b & -> & Hb) H IH]; [done|]. cbn [lines_of].
  destruct ls as [|l2 ls].
  - by destruct p.
  - rewrite IH. f_equal. destruct (strip_suffix [13] (p ++ [b])) as [x|] eqn:E; [|done].
    apply strip_suffix_Some in E. apply app_inj_tail in E as [_ ->]. done.
Qed.

(** ** Web references, printed and read *)

Definition lacks (b : Z) (s : string) : Prop := Forall (fun c => c <> b /\ c <> 10) (as_bytes s).
#[export] Instance lacks_dec b s : Decision (lacks b s).
Proof. unfold lacks. apply _. Defined.
(** A reference whose fields do not contain the delimiter behind them. *)
Definition readable (r : WebReference) : Prop := lacks 93 (title r) /\ lacks 41 (url r) /\ lacks 62 (chunk r).
#[export] Instance readable_dec r : Decision (readable r).
Proof. unfold readable. apply _. Defined.

Definition ref_line (i : nat) (r : WebReference) : bytes :=
  as_bytes (to_dec (Z.of_nat (i + 1))) ++ [46; 32; 91] ++ as_bytes (title r) ++ [93; 40] ++ as_bytes (url r) ++
  [41; 60] ++ as_bytes (chunk r) ++ [62].
Fixpoint ref_lines (i : nat) (refs : list WebReference) : list bytes :=
  match refs with [] => [] | r :: refs => ref_line i r :: ref_lines (S i) refs end.

Ltac other_char := intros; cbn [ref_chars]; repeat (case_match; try congruence).
Lemma ref_title c r cs : c <> 93 -> ref_chars InTitle r (c :: cs) = ref_chars InTitle (push_char InTitle c r) cs.
Proof. other_char. Qed.
Lemma ref_url c r cs : c <> 41 -> ref_chars InUrl r (c :: cs) = ref_chars InUrl (push_char InUrl c r) cs.
Proof. other_char. Qed.
Lemma ref_chunk c r cs : c <> 62 -> ref_chars InChunk r (c :: cs) = ref_chars InChunk (push_char InChunk c r) cs.
Proof. other_char. Qed.

Lemma ref_chars_fields t u c rest : lacks 93 t -> lacks 41 u -> lacks 62 c ->
  ref_chars InTitle ([], [], []) (as_bytes t ++ [93; 40] ++ as_bytes u ++ [41; 60] ++ as_bytes c ++ 62 :: rest) =
  (as_bytes t, as_bytes u, as_bytes c).
Proof.
  intros Ht Hu Hc.
  assert (forall p l cs, Forall (fun c => c <> 93 /\ c <> 10) l ->
    ref_chars InTitle (p, [], []) (l ++ 93 :: 40 :: cs) = ref_chars InUrl (p ++ l, [], []) cs) as H1.
  { intros p l cs H. revert p. induction H as [|b l [Hb _] _ IH]; intros p; cbn [app]; [by rewrite app_nil_r|].
    rewrite ref_title by done. cbn [push_char]. by rewrite IH, <- app_assoc. }
  assert (forall a p l cs, Forall (fun c => c <> 41 /\ c <> 10) l ->
    ref_chars InUrl (a, p, []) (l ++ 41 :: 60 :: cs) = ref_chars InChunk (a, p ++ l, []) cs) as H2.
  { intros a p l cs H. revert p. induction H as [|b l [Hb _] _ IH]; intros p; cbn [app]; [by rewrite app_nil_r|].
    rewrite ref_url by done. cbn [push_char]. by rewrite IH, <- app_assoc. }
  assert (forall a b p l cs, Forall (fun c => c <> 62 /\ c <> 10) l ->
    ref_chars InChunk (a, b, p) (l ++ 62 :: cs) = (a, b, p ++ l)) as H3.
  { intros a b p l cs H. revert p. induction H as [|x l [Hb _] _ IH]; intros p; cbn [app]; [by rewrite app_nil_r|].
    rewrite ref_chunk by done. cbn [push_char]. by rewrite IH, <- app_assoc. }
  cbn [app]. by rewrite H1, H2, H3.
Qed.

Lemma dec_head n : exists d s, as_bytes (to_dec n) = (48 + d) :: s /\ 0 <= d < 10 /\ Forall (fun b => b <> 46) s.
Proof.
  unfold to_dec. pose proof (dec_digits_range n) as H. destruct (dec_digits_cons n) as (d & ds & E). rewrite E in *.
  apply Forall_cons in H as [Hd H]. rewrite as_bytes_from_bytes.
  - exists d, ((fun d => 48 + d) <$> ds). split_and!; [done|lia..|]. apply Forall_fmap. eapply Forall_impl; [exact H|].
    cbn. lia.
  - apply Forall_fmap, Forall_cons. split; [unfold in_uint; cbn; lia|]. eapply Forall_impl; [exact H|].
    cbn. unfold in_uint. lia.
Qed.
Lemma digit_no_start d : 0 <= d < 10 -> no_start WHITE_SPACE (48 + d).
Proof.
  intros H. assert (d = 0 \/ d = 1 \/ d = 2 \/ d = 3 \/ d = 4 \/ d = 5 \/ d = 6 \/ d = 7 \/ d = 8 \/ d = 9) as Hd by lia.
  repeat destruct Hd as [-> | Hd]; try (by apply no_start_check). subst d. by apply no_start_check.
Qed.
Lemma skip_number_app s rest : Forall (fun b => b <> 46) s -> skip_number (s ++ 46 :: rest) = rest.
Proof.
  induction 1 as [|b s Hb _ IH]; cbn [app skip_number]; [done|]. by rewrite (proj2 (Z.eqb_neq _ _) Hb).
Qed.

Lemma parse_ref_line i r ls : readable r -> parse_ref_lines (ref_line i r :: ls) = r :: parse_ref_lines ls.
Proof.
  intros (Ht & Hu & Hc). cbn [parse_ref_lines].
  destruct (dec_head (Z.of_nat (i + 1))) as (d & s & Ed & Hd & Hs).
  assert (trim (ref_line i r) = ref_line i r) as ->.
  { unfold trim. unfold ref_line at 1. rewrite Ed. cbn [app]. rewrite trim_start_no_start by (by apply digit_no_start).
    assert (ref_line i r = (as_bytes (to_dec (Z.of_nat (i + 1))) ++ [46; 32; 91] ++ as_bytes (title r) ++ [93; 40] ++
      as_bytes (url r) ++ [41; 60] ++ as_bytes (chunk r)) ++ [62]) as El by (unfold ref_line; by rewrite <- !app_assoc).
    transitivity (trim_end (ref_line i r)); [unfold ref_line; by rewrite Ed|].
    rewrite El. apply trim_end_no_start. by apply no_start_check. }
  destruct (Nat.eqb_spec (length (ref_line i r)) 0) as [E|_].
  { unfold ref_line in E. rewrite Ed in E. discriminate. }
  unfold ref_line. cbn [app]. rewrite skip_number_app by (rewrite Ed; constructor; [lia|done]).
  rewrite trim_start_space by (by apply no_start_check).
  pose proof (ref_chars_fields _ _ _ [] Ht Hu Hc) as E. cbn [app] in E. rewrite E.
  rewrite !from_bytes_as_bytes. by destruct r.
Qed.
Lemma parse_ref_lines_all refs : forall i, Forall readable refs -> parse_ref_lines (ref_lines i refs) = refs.
Proof.
  induction refs as [|r refs IH]; intros i H; [done|]. apply Forall_cons in H as [Hr H].
  cbn [ref_lines]. by rewrite parse_ref_line, IH.
Qed.

Fixpoint ref_parts (i : nat) (refs : list WebReference) : list Cow :=
  match refs with [] => [] | r :: refs => web_ref_parts i r ++ ref_parts (S i) refs end.
Lemma append_web_refs_holds refs : forall b parts i, holds b parts ->
  exists b', append_web_refs b i refs = Ret b' /\ holds b' (parts ++ ref_parts i refs).
Proof.
  induction refs as [|r refs IH]; intros b parts i H; cbn [append_web_refs ref_parts].
  - exists b. by rewrite app_nil_r.
  - destruct (append_all_holds b parts (web_ref_parts i r) H) as (b1 & E & H1). rewrite E. cbn [mbind outcome_bind].
    destruct (IH b1 _ (S i) H1) as (b2 & E2 & H2). exists b2. split; [done|]. by rewrite <- app_assoc in H2.
Qed.
(** The text of the references, up to the content behind them. *)
Definition printed_refs (refs : list WebReference) : bytes :=
  join_with [10] (WEB_REFERENCES :: ref_lines 0 refs) ++ [10; 10].

Lemma ref_parts_text refs : forall i,
  as_bytes (concat_spec (cow_str <$> ref_parts i refs)) = List.concat ((fun l => l ++ [10]) <$> ref_lines i refs).
Proof.
  induction refs as [|r refs IH]; intros i; [done|]. cbn [ref_parts ref_lines]. rewrite fmap_app, concat_spec_app, as_bytes_app, IH.
  rewrite fmap_cons. cbn [List.concat]. f_equal. unfold ref_line. cbn [web_ref_parts fmap list_fmap cow_str concat_spec foldr].
  rewrite !as_bytes_app. rewrite <- !app_assoc. reflexivity.
Qed.
Lemma join_closed (W : bytes) ls : ls <> [] ->
  join_with [10] (W :: ls) ++ [10; 10] = W ++ [10] ++ List.concat ((fun l => l ++ [10]) <$> ls) ++ [10].
Proof.
  revert W. induction ls as [|l ls IH]; intros W Hne; [done|]. change (join_with [10] (W :: l :: ls)) with (W ++ [10] ++ join_with [10] (l :: ls)).
  destruct ls as [|l2 ls].
  - cbn. by rewrite app_nil_r, <- !app_assoc.
  - rewrite <- !app_assoc, IH by done. cbn. by rewrite <- !app_assoc.
Qed.
Lemma convert_printed refs : refs <> [] -> zlen (printed_refs refs) < 2 ^ 64 ->
  exists s, convert_web_ref_to_content (MWebReference refs) = Ret (MContent s) /\ as_bytes s = printed_refs refs.
Proof.
  intros Hne Hz. destruct refs as [|r0 refs0]; [done|]. set (refs := r0 :: refs0) in *.
  set (w := CBorrowed ("WebReferences:" +:+ newline)).
  destruct (push_part_holds builder_new [] w builder_new_holds) as (b1 & E1 & H1).
  destruct (append_web_refs_holds refs b1 _ 0 H1) as (b2 & E2 & H2).
  destruct (push_part_holds b2 _ (CBorrowed newline) H2) as (b3 & E3 & H3).
  set (parts := (([] ++ [w]) ++ ref_parts 0 refs) ++ [CBorrowed newline]) in *.
  assert (as_bytes (concat_spec (cow_str <$> parts)) = printed_refs refs) as Et.
  { unfold printed_refs. rewrite join_closed by done. subst parts. rewrite !fmap_app, !concat_spec_app, !as_bytes_app, ref_parts_text.
    reflexivity. }
  assert (sum_len parts = zlen (printed_refs refs)) as El.
  { rewrite <- Et. unfold zlen. rewrite length_as_bytes. clear. induction parts as [|p ps IH]; [done|].
    unfold sum_len in *. cbn [foldr fmap list_fmap concat_spec] in *. rewrite IH. unfold str_len.
    rewrite <- !length_as_bytes, as_bytes_app, length_app. unfold concat_spec. lia. }
  exists (concat_spec (cow_str <$> parts)). split; [|done].
  unfold convert_web_ref_to_content, refs, append. fold refs w. rewrite E1. cbn [mbind outcome_bind].
  rewrite E2. cbn [mbind outcome_bind]. rewrite E3. cbn [mbind outcome_bind].
  rewrite (build_holds _ _ H3) by lia. done.
Qed.
Lemma ref_line_shape i r : readable r -> quiet (ref_line i r) /\ exists p, ref_line i r = p ++ [62].
Proof.
  intros (Ht & Hu & Hc). split.
  - unfold ref_line, lacks in *. repeat apply quiet_app; try by_decision; try apply to_dec_quiet;
      eapply Forall_impl; eauto; intros ? [? ?]; done.
  - eexists. unfold ref_line. rewrite !app_assoc. reflexivity.
Qed.
Lemma extract_printed refs rest : refs <> [] -> Forall readable refs ->
  extract_web_references_info (printed_refs refs ++ rest) = (rest, refs, true).
Proof.
  intros Hne H. unfold extract_web_references_info, printed_refs.
  assert (Hl : forall i, Forall (fun l => quiet l /\ exists p, l = p ++ [62]) (ref_lines i refs)).
  { clear Hne. induction H as [|r refs Hr _ IH]; intros i; [constructor|]. cbn. constructor; [by apply ref_line_shape|apply IH]. }
  destruct (strip_prefix WEB_REFERENCES _) as [x|] eqn:E.
  - rewrite <- app_assoc, split_once_lines; [|done|].
    + unfold parse_web_references. rewrite lines_join; [|constructor|done].
      * change (drop 1 (WEB_REFERENCES :: ref_lines 0 refs)) with (ref_lines 0 refs). rewrite parse_ref_lines_all by done. by destruct refs.
      * split; [by_decision|]. by exists (as_bytes "WebReferences"), 58.
      * eapply Forall_impl; [apply Hl|]. intros l [Hq [p ->]]. split; [done|]. by exists p, 62.
    + constructor; [by split; [by_decision|]|]. eapply Forall_impl; [apply Hl|]. intros l [Hq [p ->]]. split; [done|].
      by destruct p.
  - exfalso. assert (exists t, join_with [10] (WEB_REFERENCES :: ref_lines 0 refs) = WEB_REFERENCES ++ t) as [t Et].
    { destruct refs as [|r refs]; [done|]. by eexists. }
    rewrite Et, <- !app_assoc, strip_prefix_app in E. discriminate.
Qed.

(** ** Reasoning about conversions

    [spec E m f Q]: run from [f], the conversion [m] stays within defined
    behaviour, fails only with errors in [E], and otherwise ends in [Q]. *)

Definition spec {A} (E : AdapterError -> Prop) (m : adapt A) (f : Fresh) (Q : A -> Fresh -> Prop) : Prop :=
  match m f with
  | Ret (Ok (a, f')) => Q a f'
  | Ret (Err e) => E e
  | _ => False
  end.
Create HintDb adapt discriminated.

Section rules.
Context {A B : Type} (E : AdapterError -> Prop).
Lemma spec_ret (a : A) f Q : Q a f -> spec E (mret a) f Q.
Proof. done. Qed.
Lemma spec_bind (m : adapt A) (k : A -> adapt B) f Q :
  spec E m f (fun a f' => spec E (k a) f' Q) -> spec E (m ≫= k) f Q.
Proof. unfold spec, mbind, adapt_bind. by destruct (m f) as [[[a f']|e]| |]. Qed.
Lemma spec_weaken (m : adapt A) f (P Q : A -> Fresh -> Prop) :
  spec E m f P -> (forall a f', P a f' -> Q a f') -> spec E m f Q.
Proof. unfold spec. destruct (m f) as [[[a f']|e]| |]; naive_solver. Qed.
Lemma spec_and (m : adapt A) f (P Q : A -> Fresh -> Prop) :
  spec E m f P -> spec E m f Q -> spec E m f (fun a f' => P a f' /\ Q a f').
Proof. unfold spec. destruct (m f) as [[[a f']|e]| |]; naive_solver. Qed.
Lemma spec_error_and (P : Prop) (m : adapt A) f Q : spec E m f Q -> P -> spec (fun e => E e /\ P) m f Q.
Proof. unfold spec. by destruct (m f) as [[[a f']|e]| |]. Qed.
Lemma spec_fail e f Q : E e -> spec E (@fail A e) f Q.
Proof. done. Qed.
Lemma spec_of_result (r : result AdapterError A) f Q :
  (forall a, r = Ok a -> Q a f) -> (forall e, r = Err e -> E e) -> spec E (of_result r) f Q.
Proof. destruct r as [a|e]; cbn; intros Ha He; [by apply Ha|by apply He]. Qed.
Lemma spec_returns (m : adapt A) f Q : (forall e, ~ E e) -> spec E m f Q -> exists a f', m f = Ret (Ok (a, f')) /\ Q a f'.
Proof. unfold spec. intros HE. destruct (m f) as [[[a f']|e]| |]; [eauto|by intros ?%HE|done|done]. Qed.
End rules.

Definition same_uuids (f f' : Fresh) : Prop := uuids f' = uuids f.

Lemma spec_new_uuid E supply f Q : Q (supply (uuids f)) (mkFresh (S (uuids f)) (base_uuid f)) -> spec E (new_uuid supply) f Q.
Proof. done. Qed.
Lemma spec_name E f : spec E add_and_to_string f (fun _ f' => same_uuids f f').
Proof. done. Qed.
Lemma spec_list {A B} E (g : A -> adapt B) (l : list A) :
  (forall a f, spec E (g a) f (fun _ f' => same_uuids f f')) ->
  forall f, spec E (adapt_list g l) f (fun _ f' => same_uuids f f').
Proof.
  intros Hg. induction l as [|a l IH]; intros f; [done|]. cbn [adapt_list]. apply spec_bind.
  eapply spec_weaken; [apply Hg|]. intros b f1 H1. cbn beta. apply spec_bind.
  eapply spec_weaken; [apply IH|]. intros bs f2 H2. apply spec_ret. unfold same_uuids in *. congruence.
Qed.
Lemma spec_links E url_scheme text f :
  spec E (extract_external_links url_scheme text) f (fun _ f' => same_uuids f f').
Proof. apply spec_list. intros a f1. apply spec_bind. eapply spec_weaken; [apply spec_name|]. by intros. Qed.

(** Conversions that look at images: they fail with the first error of the results
    [rs], if there is one. *)
Definition first_error {X} (rs : list (result AdapterError X)) : option AdapterError :=
  head (omap (fun r => match r with Err e => Some e | Ok _ => None end) rs).
Definition fails_first {A X} (rs : list (result AdapterError X)) (m : adapt A) (f : Fresh) (Q : A -> Fresh -> Prop) : Prop :=
  spec (fun e => first_error rs = Some e) m f (fun a f' => first_error rs = None /\ Q a f').

Lemma first_error_app {X} (a b : list (result AdapterError X)) :
  first_error (a ++ b) = match first_error a with Some e => Some e | None => first_error b end.
Proof. unfold first_error. rewrite omap_app. by destruct (omap _ a). Qed.
Lemma fails_none {A X} (m : adapt A) f Q : (forall E, spec E m f Q) -> @fails_first A X [] m f Q.
Proof. intros H. eapply spec_weaken; [apply H|]. by intros. Qed.
Lemma fails_weaken {A X} (rs : list (result AdapterError X)) (m : adapt A) f (P Q : A -> Fresh -> Prop) :
  fails_first rs m f P -> (forall a f', P a f' -> Q a f') -> fails_first rs m f Q.
Proof. intros H HQ. eapply spec_weaken; [exact H|]. intros a f' [? ?]. eauto. Qed.
Lemma fails_bind {A B X} (rs rs' : list (result AdapterError X)) (m : adapt A) (k : A -> adapt B) f Q :
  fails_first rs m f (fun a f' => fails_first rs' (k a) f' Q) -> fails_first (rs ++ rs') (m ≫= k) f Q.
Proof.
  unfold fails_first, spec, mbind, adapt_bind. rewrite first_error_app. destruct (m f) as [[[a f']|e]| |]; [|by intros ->|done..].
  intros [-> H]. done.
Qed.
(** A conversion before or behind those that look at images. *)
Lemma fails_bind_l {A B X} (rs : list (result AdapterError X)) (m : adapt A) (k : A -> adapt B) f Q :
  fails_first rs m f (fun a f' => forall E, spec E (k a) f' Q) -> fails_first rs (m ≫= k) f Q.
Proof.
  intros H. rewrite <- (app_nil_r rs). apply fails_bind. eapply fails_weaken; [exact H|]. intros a f' H'. by apply fails_none.
Qed.
Lemma fails_bind_r {A B X} (rs : list (result AdapterError X)) (m : adapt A) (k : A -> adapt B) f Q :
  (forall E, spec E m f (fun a f' => fails_first rs (k a) f' Q)) -> fails_first rs (m ≫= k) f Q.
Proof. intros H. rewrite <- (app_nil_l rs). apply fails_bind. by apply fails_none. Qed.
Lemma fails_ret {A X} (a : A) f (Q : A -> Fresh -> Prop) : Q a f -> @fails_first A X [] (mret a) f Q.
Proof. intros H. by apply fails_none. Qed.
(** What it comes to: the first error, or a result. *)
Lemma fails_first_cases {A X} (rs : list (result AdapterError X)) (m : adapt A) f Q : fails_first rs m f Q ->
  match first_error rs with
  | Some e => m f = Ret (Err e)
  | None => exists a f', m f = Ret (Ok (a, f')) /\ Q a f'
  end.
Proof.
  unfold fails_first, spec. destruct (m f) as [[[a f']|e]| |]; [|by intros ->|done..]. intros [-> H]. eauto.
Qed.

Lemma spec_see_image load_image second_frame guess_format http_get vision inline url f :
  fails_first [image_result load_image second_frame guess_format http_get vision inline url]
    (see_image load_image second_frame guess_format http_get vision inline url) f (fun _ f' => same_uuids f f').
Proof.
  unfold see_image, fails_first, first_error, spec, mbind, adapt_bind.
  by destruct (image_result _ _ _ _ vision inline url) as [[data dim]|e].
Qed.

Lemma spec_text_parts E url_scheme role text f : role <> System ->
  spec E (text_parts url_scheme role text) f (fun r f' => same_uuids f f' /\
    match role with
    | Assistant => r = (let '(t, refs, has) := extract_web_references_info text in (t, refs, to_opt has, []))
    | _ => exists links, r = (text, [], None, links)
    end).
Proof.
  intros Hr. destruct role; [done| |]; cbn [text_parts].
  - apply spec_bind. eapply spec_weaken; [apply spec_links|]. intros links f' H. apply spec_ret. eauto.
  - by destruct (extract_web_references_info text) as [[t refs] has].
Qed.

Lemma explicit_context_returns mode instructions : exists c, create_explicit_context mode instructions = Ret c.
Proof.
  unfold create_explicit_context. destruct (length (trim instructions) =? 0)%nat; [by eexists|].
  destruct mode as [[] [] []]; by eexists.
Qed.
Lemma spec_explicit_context E mode instructions f (Q : option ExplicitContext -> Fresh -> Prop) :
  (forall c, create_explicit_context mode instructions = Ret c -> Q c f) ->
  spec E (of_outcome (create_explicit_context mode instructions)) f Q.
Proof.
  destruct (explicit_context_returns mode instructions) as [c Ec]. intros H. unfold spec, of_outcome. rewrite Ec.
  by apply H.
Qed.

(** *** Well-formed conversations *)

Definition ids_of (m : ConversationMessage) : list bytes := cm_bubble_id m :: option_list (cm_server_bubble_id m).
(** Messages of the user and of the model. *)
Definition message_ok (m : ConversationMessage) : Prop :=
  (cm_type m = MESSAGE_HUMAN /\ cm_server_bubble_id m = None /\ cm_web_references m = [] /\ cm_tool_results m = [] /\
   cm_thinking m = None /\ cm_use_web m = None) \/
  (cm_type m = MESSAGE_AI /\ is_Some (cm_server_bubble_id m) /\ cm_external_links m = [] /\ cm_images m = [] /\
   cm_is_agentic m = false /\ (cm_use_web m = Some true <-> cm_web_references m <> [])).
(** The headers repeat the messages, the user starts, and every identifier was
    drawn for this request, each for one message. *)
Definition conversation_ok (supply : nat -> bytes) (ms : Messages) (f : Fresh) : Prop :=
  headers ms = header_of <$> inner ms /\ (exists m rest, inner ms = m :: rest /\ cm_type m = MESSAGE_HUMAN) /\
  Forall message_ok (inner ms) /\ List.concat (ids_of <$> inner ms) ≡ₚ supply <$> seq 0 (uuids f).

(** The same for the messages so far. *)
Definition conversation_so_far (supply : nat -> bytes) (ms : Messages) (f : Fresh) : Prop :=
  headers ms = header_of <$> inner ms /\ Forall message_ok (inner ms) /\
  List.concat (ids_of <$> inner ms) ≡ₚ supply <$> seq 0 (uuids f).
(** A conversation that goes on with [l]. *)
Definition push_list (l : list ConversationMessage) (ms : Messages) : Messages := foldl (fun ms m => push m ms) ms l.
Lemma push_list_eq l : forall ms,
  push_list l ms = mkMessages (inner ms ++ l) (headers ms ++ (header_of <$> l)).
Proof.
  unfold push_list. induction l as [|m l IH]; intros ms; cbn [foldl]; [by destruct ms; cbn; rewrite !app_nil_r|].
  rewrite IH. cbn [push inner headers]. by rewrite <- !app_assoc.
Qed.
Lemma push_list_so_far supply ms l f f' :
  conversation_so_far supply ms f -> Forall message_ok l -> (uuids f <= uuids f')%nat ->
  List.concat (ids_of <$> l) ≡ₚ supply <$> seq (uuids f) (uuids f' - uuids f) ->
  conversation_so_far supply (push_list l ms) f'.
Proof.
  intros (Hh & Hm & Hi) Hok Hle Hids. rewrite push_list_eq. split_and!; cbn [inner headers].
  - by rewrite Hh, fmap_app.
  - by apply Forall_app.
  - rewrite fmap_app, concat_app, Hi, Hids, <- fmap_app.
    apply fmap_Permutation. rewrite <- (seq_app (uuids f)). by rewrite Nat.add_comm, Nat.sub_add.
Qed.
Lemma conversation_started supply ms f ts :
  conversation_so_far supply ms f -> cm_type <$> inner ms = MESSAGE_HUMAN :: ts -> conversation_ok supply ms f.
Proof.
  intros (Hh & Hm & Hi) Ht. split_and!; try done. destruct (inner ms) as [|m rest]; [done|].
  injection Ht as Ht _. by exists m, rest.
Qed.
Lemma fmap_alter_last {A B} (g : A -> B) h l : (forall a, g (h a) = g a) -> g <$> alter_last h l = g <$> l.
Proof.
  intros H. induction l as [|a [|a' l] IH]; [done|cbn; by rewrite H|].
  change (alter_last h (a :: a' :: l)) with (a :: alter_last h (a' :: l)). by rewrite fmap_cons, IH.
Qed.
Lemma last_alter_last {A} (h : A -> A) l : last (alter_last h l) = h <$> last l.
Proof. by induction l as [|a [|a' [|a'' l]] IH]. Qed.
Lemma last_mut_so_far supply h ms f :
  (forall m, header_of (h m) = header_of m) -> (forall m, message_ok m -> message_ok (h m)) ->
  conversation_so_far supply ms f -> conversation_so_far supply (last_mut h ms) f.
Proof.
  intros Hh Hm (H1 & H2 & H3). split_and!; cbn [last_mut inner headers].
  - by rewrite fmap_alter_last.
  - clear H1 H3. induction H2 as [|m l Hx Hl IH]; [done|]. destruct l; cbn [alter_last]; by constructor; auto.
  - rewrite fmap_alter_last; [done|]. intros m. specialize (Hh m). unfold header_of in Hh. unfold ids_of.
    injection Hh as E1 E2 _. by rewrite E1, E2.
Qed.
Lemma first_single supply bubble f :
  bubble = supply 0%nat -> uuids f = 1%nat -> conversation_ok supply (from_single (empty_human bubble)) f.
Proof.
  intros -> Hf. split_and!; [done|by eexists _, []| |by rewrite Hf].
  constructor; [|constructor]. by left.
Qed.
Lemma extract_has text t refs has : extract_web_references_info text = (t, refs, has) -> has = true <-> refs <> [].
Proof.
  unfold extract_web_references_info. repeat case_match; intros [= <- <- <-]; [|done|done].
  destruct (parse_web_references _); cbn; naive_solver.
Qed.
Lemma to_opt_true b : to_opt b = Some true <-> b = true.
Proof. by destruct b. Qed.
Lemma last_links ms : match last_message ms with Some m => cm_external_links m | None => [] end =
  default [] (cm_external_links <$> last (inner ms)).
Proof. unfold last_message. by destruct (last (inner ms)). Qed.

(** A message of the model has no links. *)
Lemma model_links supply ms f : conversation_ok supply ms f -> last (cm_type <$> inner ms) = Some MESSAGE_AI ->
  default [] (cm_external_links <$> last (inner ms)) = [].
Proof.
  intros (_ & _ & Hm & _) Hl. rewrite fmap_last in Hl. destruct (last (inner ms)) as [m|] eqn:Em; [|done].
  injection Hl as Hl. rewrite Forall_forall in Hm. apply last_Some_elem_of, Hm in Em as [(Ht & _)|(_ & _ & H & _)]; [|done].
  by rewrite Ht in Hl.
Qed.

(** ** What is printed is read back *)

(** The references that are written in front of an answer are read back exactly
    from the message a client returns, with the content behind them, as long as no
    field contains a line feed or the delimiter behind it. *)
Theorem web_references_roundtrip refs rest :
  refs <> [] -> Forall readable refs -> zlen (printed_refs refs) < 2 ^ 64 ->
  exists s, convert_web_ref_to_content (MWebReference refs) = Ret (MContent s) /\
    extract_web_references_info (as_bytes s ++ rest) = (rest, refs, true).
Proof.
  intros Hne Hr Hz. destruct (convert_printed refs Hne Hz) as (s & E & Es). exists s. split; [done|].
  rewrite Es. by apply extract_printed.
Qed.

Definition example_refs : list WebReference :=
  [mkWebReference "A. title" "https://example.com/?a=[1]" "first (chunk)"; mkWebReference "B" "https://b.org" "second"]%string.
Lemma web_references_roundtrip_witness :
  exists s, convert_web_ref_to_content (MWebReference example_refs) = Ret (MContent s) /\
    extract_web_references_info (as_bytes s ++ as_bytes "Hello") = (as_bytes "Hello", example_refs, true).
Proof. apply (web_references_roundtrip example_refs (as_bytes "Hello")); by_decision. Defined.
