(* ===== verification/AdapterOpenai.v ===== *)
(** * Requests of the OpenAI interface

    [src/src/core/adapter/openai.rs]: the messages of a request become instructions,
    a conversation and external links, and these the framed protobuf request.  The
    records are those of [Adapter]; the default instructions, the settings, the
    codecs and the supply of UUIDs are given. *)
From S2P Require Import Prelude Strings Settings ProtoEncode ResponseDecoder LogManager Auth Models ChatModels Adapter.

Definition DOUBLE_NEWLINE : bytes := [10; 10].
Definition DATA_IMAGE_PREFIX : bytes := as_bytes "data:image/".

(** [into_text], joined. *)
Definition texts_of (contents : list MessageContentObject) : bytes :=
  join_with NEWLINE (as_bytes <$> omap into_text contents).
Definition system_text (input : OpenAiMessage) : bytes :=
  match m_content input with CString text => as_bytes text | CArray contents => texts_of contents end.
Definition is_system (input : OpenAiMessage) : bool := bool_decide (m_role input = System).
(** The instructions of the system messages, or the default ones. *)
Definition instructions_of (default_instructions : bytes) (inputs : list OpenAiMessage) : bytes :=
  let instructions := join_with DOUBLE_NEWLINE (system_text <$> List.filter is_system inputs) in
  if (length instructions =? 0)%nat then default_instructions else instructions.
(** A conversation starts with the user. *)
Definition user_first (chat_inputs : list OpenAiMessage) : list OpenAiMessage :=
  match chat_inputs with
  | input :: _ => if bool_decide (m_role input = Assistant) then mkMessage User (CString EmptyString) :: chat_inputs
                  else chat_inputs
  | [] => []
  end.

Section adapter.
Context (b64_decode : bytes -> option bytes) (load_image : ImageFormat -> bytes -> option (Z * Z)).
Context (second_frame : bool -> bytes -> bool) (guess_format : bytes -> option ImageFormat).
Context (http_get : bytes -> option (option bytes)) (url_scheme : bytes -> option bytes).
Context (supply : nat -> bytes) (vision : VisionAbility) (image_support : bool).

Definition data_url (url : bytes) : option (result AdapterError (bytes * option Dimension)) :=
  process_data_url b64_decode load_image second_frame <$> strip_prefix DATA_IMAGE_PREFIX url.
Definition image_of (url : bytes) : adapt ImageProto :=
  see_image load_image second_frame guess_format http_get vision (data_url url) url.

(** The parts of a user's message, in order. *)
Fixpoint user_parts (contents : list MessageContentObject) : adapt (list bytes * list ImageProto) :=
  match contents with
  | [] => mret ([], [])
  | CText text :: contents => '(texts, images) ← user_parts contents; mret (as_bytes text :: texts, images)
  | CImageUrl url :: contents =>
      if image_support then
        image ← image_of (as_bytes url);
        '(texts, images) ← user_parts contents;
        mret (texts, image :: images)
      else user_parts contents
  end.
Definition text_and_images (input : OpenAiMessage) : adapt (bytes * list ImageProto) :=
  match m_content input with
  | CString text => mret (as_bytes text, [])
  | CArray contents =>
      if bool_decide (m_role input = User) then
        '(texts, images) ← user_parts contents; mret (join_with NEWLINE texts, images)
      else mret (texts_of contents, [])
  end.

(** One turn of the loop over the inputs. *)
Definition convert_input (input : OpenAiMessage) : adapt ConversationMessage :=
  '(text, images) ← text_and_images input;
  '(final_text, web_references, use_web, external_links) ← text_parts url_scheme (m_role input) text;
  let user := bool_decide (m_role input = User) in
  bubble_id ← new_uuid supply;
  server_bubble_id ← (if user then mret None else id ← new_uuid supply; mret (Some id) : adapt (option bytes));
  mret (mkConversation final_text (if user then MESSAGE_HUMAN else MESSAGE_AI) images bubble_id server_bubble_id []
          false web_references None (Some MODE_CHAT) [] external_links use_web).
Fixpoint convert_inputs (chat_inputs : list OpenAiMessage) (messages : Messages) : adapt Messages :=
  match chat_inputs with
  | [] => mret messages
  | input :: chat_inputs => m ← convert_input input; convert_inputs chat_inputs (push m messages)
  end.

Definition process_chat_inputs (default_instructions : bytes) (start : Z) (inputs : list OpenAiMessage)
    : adapt (bytes * Messages * list ComposerExternalLink) :=
  let instructions := instructions_of default_instructions inputs in
  match List.filter (fun input => negb (is_system input)) inputs with
  | [] => bubble_id ← new_uuid supply; mret (instructions, from_single (empty_human bubble_id), [])
  | chat_inputs =>
      _ ← base_uuid_new start;
      messages ← convert_inputs (user_first chat_inputs) messages_new;
      mret (instructions, messages, match last_message messages with Some m => cm_external_links m | None => [] end)
  end.
End adapter.

Section encode.
Context (b64_decode : bytes -> option bytes) (load_image : ImageFormat -> bytes -> option (Z * Z)).
Context (second_frame : bool -> bytes -> bool) (guess_format : bytes -> option ImageFormat).
Context (http_get : bytes -> option (option bytes)) (url_scheme : bytes -> option bytes).
Context (supply : nat -> bytes) (g : AppConfig) (fill_mode : ContextFillMode) (default_instructions : bytes) (start : Z).

Definition openai_request (model : ExtModel) (msg_id : bytes) (environment_info : EnvironmentInfo)
    (disable_vision enable_slow_pool : bool) (inputs : list OpenAiMessage) : adapt StreamUnifiedChatRequest :=
  '(instructions, messages, external_links) ←
    process_chat_inputs b64_decode load_image second_frame guess_format http_get url_scheme supply (vision_ability g)
      (negb disable_vision && x_is_image model) default_instructions start inputs;
  explicit_context ← of_outcome (create_explicit_context fill_mode instructions);
  mret (mkRequest (inner messages) (headers messages) explicit_context (Some (details_of model enable_slow_pool))
    (if web model then Some WEB_SEARCH_MODE else None) external_links (Some true) (Some no_file) (Some true) false
    msg_id (Some environment_info) false [] [] (to_opt (long_context_of g model)) (Some false) (Some MODE_CHAT) (Some true)
    (Some (if x_is_thinking model then THINKING_HIGH else THINKING_UNSPECIFIED)) (Some false) (Some ASK_MODE_NAME)).

Definition encode_create_params `{Prost StreamUnifiedChatRequest} `{Gzip} (model : ExtModel) (msg_id : bytes)
    (environment_info : EnvironmentInfo) (disable_vision enable_slow_pool : bool) (inputs : list OpenAiMessage)
    : adapt bytes :=
  request ← openai_request model msg_id environment_info disable_vision enable_slow_pool inputs;
  encode_framed request.
End encode.

(** ** What becomes of the messages (specification) *)

Definition chat_of (inputs : list OpenAiMessage) : list OpenAiMessage := List.filter (fun i => negb (is_system i)) inputs.
Definition type_of (input : OpenAiMessage) : Z := if bool_decide (m_role input = User) then MESSAGE_HUMAN else MESSAGE_AI.
(** The types of the messages that are sent: one for each that is not the system's,
    behind one of the user where it is missing. *)
Definition types_of (inputs : list OpenAiMessage) : list Z :=
  match chat_of inputs with [] => [MESSAGE_HUMAN] | chat => type_of <$> user_first chat end.
(** The images in the messages of the user, in order. *)
Definition url_of (c : MessageContentObject) : option bytes :=
  match c with CImageUrl url => Some (as_bytes url) | CText _ => None end.
Definition input_urls (input : OpenAiMessage) : list bytes :=
  match m_role input, m_content input with User, CArray contents => omap url_of contents | _, _ => [] end.
Definition image_urls (inputs : list OpenAiMessage) : list bytes := List.concat (input_urls <$> chat_of inputs).

(** ** Lemmas *)

Section conversions.
Context (b64_decode : bytes -> option bytes) (load_image : ImageFormat -> bytes -> option (Z * Z)).
Context (second_frame : bool -> bytes -> bool) (guess_format : bytes -> option ImageFormat).
Context (http_get : bytes -> option (option bytes)) (url_scheme : bytes -> option bytes).
Context (supply : nat -> bytes) (vision : VisionAbility) (image_support : bool).

Abbreviation convert := (convert_input b64_decode load_image second_frame guess_format http_get url_scheme supply vision image_support).
Abbreviation convert_all :=
  (convert_inputs b64_decode load_image second_frame guess_format http_get url_scheme supply vision image_support).

(** What the images come to, when they are looked at. *)
Definition look (url : bytes) : result AdapterError (bytes * option Dimension) :=
  image_result load_image second_frame guess_format http_get vision (data_url b64_decode load_image second_frame url) url.
Definition looks (urls : list bytes) : list (result AdapterError (bytes * option Dimension)) :=
  if image_support then look <$> urls else [].
Lemma looks_app a b : looks (a ++ b) = looks a ++ looks b.
Proof using. unfold looks. destruct image_support; [apply fmap_app|done]. Qed.

Lemma spec_user_parts contents : forall f,
  fails_first (looks (omap url_of contents))
    (user_parts b64_decode load_image second_frame guess_format http_get vision image_support contents) f
    (fun _ f' => same_uuids f f').
Proof using.
  induction contents as [|[text|url] contents IH]; intros f; cbn [user_parts].
  - unfold looks. destruct image_support; by apply fails_ret.
  - apply fails_bind_l. eapply fails_weaken; [apply IH|]. by intros [texts images] f' H E.
  - change (omap url_of (CImageUrl url :: contents)) with ([as_bytes url] ++ omap url_of contents). rewrite looks_app.
    unfold looks at 1. destruct image_support eqn:Es; [|apply IH]. apply fails_bind.
    eapply fails_weaken; [apply spec_see_image|].
    intros i f1 H1. cbn beta. apply fails_bind_l. eapply fails_weaken; [apply IH|]. intros [texts images] f2 H2 E.
    apply spec_ret. unfold same_uuids in *. congruence.
Qed.
Lemma spec_text_and_images input f :
  fails_first (looks (input_urls input))
    (text_and_images b64_decode load_image second_frame guess_format http_get vision image_support input) f
    (fun r f' => same_uuids f f' /\ (m_role input <> User -> r.2 = [])).
Proof using.
  unfold text_and_images, input_urls. assert (looks [] = []) as Hn by (unfold looks; by destruct image_support).
  destruct (m_content input) as [s|l]; [destruct (m_role input); rewrite Hn; by apply fails_ret|].
  case_bool_decide as Hu; [rewrite Hu|destruct (m_role input); [rewrite Hn; by apply fails_ret|done|rewrite Hn; by apply fails_ret]].
  apply fails_bind_l. eapply fails_weaken; [apply spec_user_parts|].
  by intros [texts images] f' Hf E.
Qed.

Lemma spec_convert input f : m_role input <> System ->
  fails_first (looks (input_urls input)) (convert input) f (fun m f' => message_ok m /\ cm_type m = type_of input /\
    (uuids f <= uuids f')%nat /\ ids_of m ≡ₚ supply <$> seq (uuids f) (uuids f' - uuids f)).
Proof using.
  intros Hr. unfold convert_input. apply fails_bind_l. eapply fails_weaken; [apply spec_text_and_images|].
  intros [text images] f1 [H1 Hi] E. apply spec_bind. eapply spec_weaken; [by apply spec_text_parts|].
  intros [[[ft refs] uw] links] f2 [H2 Hp]. apply spec_bind, spec_new_uuid. unfold same_uuids in *.
  unfold type_of. destruct (m_role input) eqn:Er; [done| |].
  - rewrite bool_decide_eq_true_2 by done. apply spec_bind, spec_ret, spec_ret. destruct Hp as [ls [= -> -> -> ->]].
    split_and!; [by left|done|cbn; lia|]. cbn. replace (S (uuids f2) - uuids f)%nat with 1%nat by lia. by rewrite H2, H1.
  - rewrite bool_decide_eq_false_2 by done. apply spec_bind, spec_bind, spec_new_uuid, spec_ret, spec_ret.
    destruct (extract_web_references_info text) as [[t rs] has] eqn:Ex. injection Hp as -> -> -> ->.
    split_and!; [|done|cbn; lia|].
    + right. split_and!; [done|by eexists|done|by apply Hi|done|]. cbn. by rewrite to_opt_true, (extract_has _ _ _ _ Ex).
    + cbn. replace (S (S (uuids f2)) - uuids f)%nat with 2%nat by lia. by rewrite H2, H1.
Qed.
Lemma spec_convert_all inputs : forall ms f, Forall (fun i => m_role i <> System) inputs ->
  conversation_so_far supply ms f ->
  fails_first (looks (List.concat (input_urls <$> inputs))) (convert_all inputs ms) f (fun ms' f' =>
    conversation_so_far supply ms' f' /\ cm_type <$> inner ms' = (cm_type <$> inner ms) ++ (type_of <$> inputs)).
Proof using.
  induction inputs as [|input inputs IH]; intros ms f Hr Hc; cbn [convert_inputs].
  - unfold looks. destruct image_support; apply fails_ret; by rewrite app_nil_r.
  - apply Forall_cons in Hr as [Hr Hrs]. rewrite fmap_cons. cbn [List.concat]. rewrite looks_app. apply fails_bind.
    eapply fails_weaken; [by apply spec_convert|].
    intros m f1 (Hm & Ht & Hle & Hids). cbn beta.
    assert (conversation_so_far supply (push m ms) f1) as Hp.
    { apply (push_list_so_far supply ms [m] f f1 Hc); [by constructor|done|]. cbn. by rewrite app_nil_r. }
    eapply fails_weaken; [by apply IH|].
    intros ms' f2 [H1 H2]. split; [done|]. rewrite H2. cbn [push inner]. rewrite fmap_app, <- app_assoc. cbn. by rewrite Ht.
Qed.

Lemma user_first_urls chat : List.concat (input_urls <$> user_first chat) = List.concat (input_urls <$> chat).
Proof using. destruct chat as [|i chat]; [done|]. cbn [user_first]. by case_bool_decide. Qed.

Lemma process_spec default_instructions start inputs base :
  fails_first (looks (image_urls inputs))
    (process_chat_inputs b64_decode load_image second_frame guess_format http_get url_scheme supply vision
       image_support default_instructions start inputs) (mkFresh 0 base)
    (fun '(instructions, ms, links) f' => instructions = instructions_of default_instructions inputs /\
      conversation_ok supply ms f' /\ cm_type <$> inner ms = types_of inputs /\
      links = default [] (cm_external_links <$> last (inner ms))).
Proof using.
  unfold process_chat_inputs, types_of, image_urls. fold (chat_of inputs).
  assert (Forall (fun i => m_role i <> System) (chat_of inputs)) as Hs.
  { apply Forall_forall. intros i Hi. apply list_elem_of_In, List.filter_In in Hi as [_ Hi]. unfold is_system in Hi.
    by case_bool_decide. }
  destruct (chat_of inputs) as [|i more] eqn:Ec.
  - unfold looks. destruct image_support; apply fails_none; intros E;
      apply spec_bind, spec_new_uuid, spec_ret; (split_and!; [done|by apply first_single|done|done]).
  - rewrite <- user_first_urls. apply fails_bind_r. intros E. unfold base_uuid_new, spec. cbn beta iota.
    apply fails_bind_l. eapply fails_weaken; [apply spec_convert_all|].
    + cbn [user_first]. case_bool_decide; [constructor|]; done.
    + split_and!; [done|constructor|done].
    + intros ms f' [Hc Ht] E'. cbn [app fmap list_fmap inner messages_new] in Ht. apply spec_ret.
      split_and!; [done| |done|apply last_links].
      assert (exists ts, type_of <$> user_first (i :: more) = MESSAGE_HUMAN :: ts) as [ts Ets].
      { cbn [user_first]. case_bool_decide as Ha; [by eexists|]. eexists. cbn. f_equal. unfold type_of.
        apply Forall_cons in Hs as [Hi _]. rewrite bool_decide_eq_true_2; [done|]. by destruct (m_role i). }
      rewrite Ets in Ht. by eapply conversation_started.
Qed.
End conversions.

(** ** The conversation that is sent *)

