(* ===== verification/AdapterAnthropic.v ===== *)
(** * Requests of the Anthropic interface

    [src/src/core/adapter/anthropic.rs] and the request records of
    [src/src/core/model/anthropic.rs]: the messages of a request, with tools, thoughts
    and tool results, become instructions, a conversation and external links, and
    these the framed protobuf request.  The records are those of [Adapter]; the
    default instructions, the settings, the codecs and the supply of UUIDs are
    given. *)
From S2P Require Import Prelude Strings Settings ProtoEncode ResponseDecoder LogManager Auth Models ChatModels Adapter.

(** ** The request *)

Inductive MediaType : Type := ImagePng | ImageJpeg | ImageGif | ImageWebp.
Definition from_mime (mime : bytes) : option MediaType :=
  if eq_str mime "image/jpeg" then Some ImageJpeg
  else if eq_str mime "image/png" then Some ImagePng
  else if eq_str mime "image/gif" then Some ImageGif
  else if eq_str mime "image/webp" then Some ImageWebp
  else None.
Inductive ImageSource : Type := SBase64 (media_type : MediaType) (data : bytes) | SUrl (url : bytes).
Inductive ToolResultContentBlock : Type := RText (text : bytes) | RImage (source : ImageSource).
Inductive ToolResultContent : Type := RString (text : bytes) | RArray (contents : list ToolResultContentBlock).
Inductive ContentBlockParam : Type :=
| PText (text : bytes)
| PImage (source : ImageSource)
| PThinking (thinking signature : bytes)
| PRedactedThinking (data : bytes)
| PToolUse (id name : bytes) (input : list (string * json))
| PToolResult (tool_use_id : bytes) (content : option ToolResultContent) (is_error : bool).
Inductive ParamContent : Type := PString (text : bytes) | PArray (contents : list ContentBlockParam).
Record MessageParam : Type := mkParam { pm_role : Role; pm_content : ParamContent }.
(** [deserialize_anthropic_role]. *)
Definition anthropic_role (s : bytes) : option Role :=
  if eq_str s "user" then Some User else if eq_str s "assistant" then Some Assistant else None.
Inductive SystemContent : Type := SysString (text : bytes) | SysArray (contents : list bytes).
Record Tool : Type := mkTool { t_input_schema : list (string * json); t_name : bytes; t_description : option bytes }.
Record MessageCreateParams : Type := mkCreateParams
  { cp_model : bytes; cp_messages : list MessageParam; cp_stream : bool; cp_system : option SystemContent;
    cp_thinking : bool; cp_tools : list Tool }.

(** [ToolId::parse]. *)
Definition tool_id_parse (s : bytes) : bytes * option bytes :=
  match split_once_at (as_bytes TOOL_DELIMITER) s with
  | Some (tool_call_id, model_call_id) => (tool_call_id, Some model_call_id)
  | None => (s, None)
  end.

Definition instructions_of (default_instructions : bytes) (system : option SystemContent) : bytes :=
  match system with
  | Some (SysString text) => text
  | Some (SysArray contents) => join_with NEWLINE contents
  | None => default_instructions
  end.
(** A conversation starts with the user. *)
Definition user_first (inputs : list MessageParam) : list MessageParam :=
  match inputs with
  | input :: _ => if bool_decide (pm_role input = Assistant) then mkParam User (PString []) :: inputs else inputs
  | [] => []
  end.
Definition mode_of (is_agentic : bool) : Z := if is_agentic then MODE_AGENT else MODE_CHAT.

(** Thoughts, one or several as one. *)
Definition thought_of (c : ContentBlockParam) : option ConvThinking :=
  match c with
  | PThinking thinking signature => Some (mkConvThinking thinking signature [])
  | PRedactedThinking data => Some (mkConvThinking [] [] data)
  | _ => None
  end.
Definition join_thoughts (thinking : list ConvThinking) : option ConvThinking :=
  match thinking with
  | [] => None
  | [t] => Some t
  | _ => Some (mkConvThinking (List.concat (List.filter (fun s => negb (length s =? 0)%nat) (ct_text <$> thinking))) [] [])
  end.
Definition text_of (c : ContentBlockParam) : option bytes := match c with PText text => Some text | _ => None end.

(** A last block that asks for a tool, and the blocks before it. *)
Definition pop_tool_use (contents : list ContentBlockParam)
    : list ContentBlockParam * option (bytes * bytes * list (string * json)) :=
  match rev contents with
  | PToolUse id name input :: contents => (rev contents, Some (id, name, input))
  | _ => (contents, None)
  end.
(** A following message that is nothing but the result of a tool. *)
Definition lone_result (input : MessageParam) : option (bytes * option ToolResultContent * bool) :=
  match pm_role input, pm_content input with
  | User, PArray [PToolResult tool_use_id content is_error] => Some (tool_use_id, content, is_error)
  | _, _ => None
  end.
Definition next_result (inputs : list MessageParam)
    : option (bytes * option ToolResultContent * bool * list MessageParam) :=
  match inputs with
  | input :: inputs => match lone_result input with Some r => Some (r, inputs) | None => None end
  | [] => None
  end.

Section adapter.
Context (b64_decode : bytes -> option bytes) (load_image : ImageFormat -> bytes -> option (Z * Z)).
Context (second_frame : bool -> bytes -> bool) (guess_format : bytes -> option ImageFormat).
Context (http_get : bytes -> option (option bytes)) (url_scheme : bytes -> option bytes).
Context (print : json -> bytes) (supply : nat -> bytes) (vision : VisionAbility) (image_support is_agentic : bool).

Definition format_of (media_type : MediaType) : ImageFormat :=
  match media_type with ImagePng => FPng | ImageJpeg => FJpeg | ImageGif => FGif | ImageWebp => FWebP end.
Definition image_of (source : ImageSource) : adapt ImageProto :=
  see_image load_image second_frame guess_format http_get vision
    (match source with
     | SBase64 media_type data => Some (process_base64_image b64_decode load_image second_frame (format_of media_type) data)
     | SUrl _ => None
     end)
    (match source with SUrl url => url | SBase64 _ _ => [] end).

(** Texts and images, in order; [classify] says which an element is. *)
Fixpoint parts_of {A} (classify : A -> option (bytes + ImageSource)) (contents : list A)
    : adapt (list bytes * list ImageProto) :=
  match contents with
  | [] => mret ([], [])
  | content :: contents =>
      match classify content with
      | Some (inl text) => '(texts, images) ← parts_of classify contents; mret (text :: texts, images)
      | Some (inr source) =>
          if image_support then
            image ← image_of source;
            '(texts, images) ← parts_of classify contents;
            mret (texts, image :: images)
          else parts_of classify contents
      | None => parts_of classify contents
      end
  end.
Definition user_part (c : ContentBlockParam) : option (bytes + ImageSource) :=
  match c with PText text => Some (inl text) | PImage source => Some (inr source) | _ => None end.
Definition result_part (c : ToolResultContentBlock) : option (bytes + ImageSource) :=
  match c with RText text => Some (inl text) | RImage source => Some (inr source) end.
Definition result_content (content : option ToolResultContent) : adapt (bytes * list ImageProto) :=
  match content with
  | None => mret ([], [])
  | Some (RString text) => mret (text, [])
  | Some (RArray contents) =>
      '(texts, images) ← parts_of result_part contents; mret (join_with NEWLINE texts, images)
  end.

(** The message a tool call and its result become. *)
Definition tool_message (call : bytes * bytes * list (string * json)) (r : bytes * option ToolResultContent * bool)
    : adapt ConversationMessage :=
  let '(id, name, input) := call in
  let '(tool_use_id, content, is_error) := r in
  let tool_name := as_bytes "mcp_" ++ sanitize_tool_name name ++ [95] ++ name in
  '(text, images) ← result_content content;
  let '(tool_call_id, model_call_id) := tool_id_parse tool_use_id in
  let error := if is_error : bool then Some text else None in
  let result := mkToolV2Result TOOL_MCP tool_call_id error model_call_id (Some 1) (Some (mkMcpResult name text)) in
  let raw_args := print (JObj input) in
  let tool_call := mkToolV2Call TOOL_MCP id tool_name (Some 1) [mkToolParams name [] raw_args []] in
  bubble_id ← new_uuid supply;
  server_bubble_id ← new_uuid supply;
  mret (mkConversation [] MESSAGE_AI [] bubble_id (Some server_bubble_id)
    [mkConvToolResult tool_call_id tool_name 1 model_call_id raw_args (Some result) error images (Some tool_call)]
    false [] None (Some (mode_of is_agentic)) [] [] None).

(** What a message contains: text, images, thoughts, the message of a tool call,
    and the inputs that are left. *)
Definition contents_of (input : MessageParam) (inputs : list MessageParam)
    : adapt (bytes * list ImageProto * list ConvThinking * option ConversationMessage * list MessageParam) :=
  match pm_content input, pm_role input with
  | PString text, _ => mret (text, [], [], None, inputs)
  | PArray contents, User =>
      '(texts, images) ← parts_of user_part contents;
      mret (join_with NEWLINE texts, images, [], None, inputs)
  | PArray contents, Assistant =>
      let '(contents, call) := pop_tool_use contents in
      '(next, inputs) ← (match call, next_result inputs with
                         | Some call, Some (r, inputs) => m ← tool_message call r; mret (Some m, inputs)
                         | _, _ => mret (None, inputs)
                         end : adapt (option ConversationMessage * list MessageParam));
      mret (join_with NEWLINE (omap text_of contents), [], omap thought_of contents, next, inputs)
  | PArray _, System => unreachable
  end.

(** One turn of the loop: the message and, behind it, that of a tool call. *)
Definition convert_input (input : MessageParam) (inputs : list MessageParam)
    : adapt (ConversationMessage * option ConversationMessage * list MessageParam) :=
  '(text, images, thinking, next, inputs) ← contents_of input inputs;
  '(final_text, web_references, use_web, external_links) ← text_parts url_scheme (pm_role input) text;
  let is_user := bool_decide (pm_role input = User) in
  bubble_id ← new_uuid supply;
  server_bubble_id ← (if is_user then mret None else id ← new_uuid supply; mret (Some id) : adapt (option bytes));
  mret (mkConversation final_text (if is_user then MESSAGE_HUMAN else MESSAGE_AI) images bubble_id server_bubble_id []
          (is_agentic && is_user) web_references (join_thoughts thinking) (Some (mode_of is_agentic)) [] external_links
          use_web, next, inputs).
(** The loop takes one or two inputs at a time: [fuel] is their number. *)
Fixpoint convert_inputs (fuel : nat) (inputs : list MessageParam) (messages : Messages) : adapt Messages :=
  match inputs with
  | [] => mret messages
  | input :: inputs =>
      match fuel with
      | O => unreachable
      | S fuel =>
          '(m, next, inputs) ← convert_input input inputs;
          let messages := push m messages in
          convert_inputs fuel inputs (match next with Some next => push next messages | None => messages end)
      end
  end.

Definition set_supported_tools (tools : list Z) (m : ConversationMessage) : ConversationMessage :=
  mkConversation (cm_text m) (cm_type m) (cm_images m) (cm_bubble_id m) (cm_server_bubble_id m) (cm_tool_results m)
    (cm_is_agentic m) (cm_web_references m) (cm_thinking m) (cm_unified_mode m) tools (cm_external_links m) (cm_use_web m).

Definition process_message_params (default_instructions : bytes) (start : Z) (system : option SystemContent)
    (supported_tools : list Z) (inputs : list MessageParam)
    : adapt (bytes * Messages * list ComposerExternalLink) :=
  let instructions := instructions_of default_instructions system in
  match inputs with
  | [] => bubble_id ← new_uuid supply; mret (instructions, from_single (empty_human bubble_id), [])
  | _ =>
      _ ← base_uuid_new start;
      let inputs := user_first inputs in
      messages ← convert_inputs (length inputs) inputs messages_new;
      mret (instructions, last_mut (set_supported_tools supported_tools) messages,
            match last_message messages with Some m => cm_external_links m | None => [] end)
  end.
End adapter.

Section encode.
Context (b64_decode : bytes -> option bytes) (load_image : ImageFormat -> bytes -> option (Z * Z)).
Context (second_frame : bool -> bytes -> bool) (guess_format : bytes -> option ImageFormat).
Context (http_get : bytes -> option (option bytes)) (url_scheme : bytes -> option bytes).
Context (print : json -> bytes) (supply : nat -> bytes) (g : AppConfig) (fill_mode : ContextFillMode).
Context (default_instructions : bytes) (start : Z).

Definition tool_params (t : Tool) : ToolParams :=
  mkToolParams (t_name t) (default [] (t_description t)) (print (JObj (t_input_schema t))) (sanitize_tool_name (t_name t)).

Definition anthropic_request (model : ExtModel) (msg_id : bytes) (environment_info : EnvironmentInfo)
    (disable_vision enable_slow_pool : bool) (params : MessageCreateParams) : adapt StreamUnifiedChatRequest :=
  let is_chat := (length (cp_tools params) =? 0)%nat in
  let is_agentic := negb is_chat in
  let supported_tools := if is_agentic then [TOOL_MCP] else [] in
  '(instructions, messages, external_links) ←
    process_message_params b64_decode load_image second_frame guess_format http_get url_scheme print supply
      (vision_ability g) (negb disable_vision && x_is_image model) is_agentic default_instructions start
      (cp_system params) supported_tools (cp_messages params);
  explicit_context ← of_outcome (create_explicit_context fill_mode instructions);
  mret (mkRequest (inner messages) (headers messages) explicit_context (Some (details_of model enable_slow_pool))
    (if web model then Some WEB_SEARCH_MODE else None) external_links (Some true) (Some no_file) (Some true) is_chat
    msg_id (Some environment_info) is_agentic supported_tools (tool_params <$> cp_tools params)
    (to_opt (long_context_of g model)) (Some false) (Some (mode_of is_agentic)) (Some is_chat)
    (Some (if x_is_thinking model then THINKING_HIGH else THINKING_UNSPECIFIED)) (Some false)
    (Some (if is_chat then ASK_MODE_NAME else AGENT_MODE_NAME))).

Definition encode_create_params `{Prost StreamUnifiedChatRequest} `{Gzip} (model : ExtModel) (msg_id : bytes)
    (environment_info : EnvironmentInfo) (disable_vision enable_slow_pool : bool) (params : MessageCreateParams)
    : adapt bytes :=
  request ← anthropic_request model msg_id environment_info disable_vision enable_slow_pool params;
  encode_framed request.
End encode.

(** ** What becomes of the messages *)

Definition type_of (input : MessageParam) : Z := if bool_decide (pm_role input = User) then MESSAGE_HUMAN else MESSAGE_AI.
(** A message of the model that ends with a call of a tool: the identifier of the call. *)
Definition asks_tool (input : MessageParam) : option bytes :=
  match pm_role input, pm_content input with
  | Assistant, PArray contents => match last contents with Some (PToolUse id _ _) => Some id | _ => None end
  | _, _ => None
  end.
(** The type of a message that is sent, and for its tool results the identifiers of
    the call and of the result. *)
Definition turn_of (m : ConversationMessage) : Z * list (option bytes * bytes) :=
  (cm_type m, (fun r => (tv_tool_call_id <$> cr_tool_call r, cr_tool_call_id r)) <$> cm_tool_results m).
(** One message for each input: the result of a tool if the input is nothing else and
    comes directly behind the call [asked], whichever call it names. *)
Fixpoint turns (asked : option bytes) (inputs : list MessageParam) : list (Z * list (option bytes * bytes)) :=
  match inputs with
  | [] => []
  | input :: inputs =>
      match asked, lone_result input with
      | Some id, Some (tool_use_id, _, _) =>
          (MESSAGE_AI, [(Some id, (tool_id_parse tool_use_id).1)]) :: turns None inputs
      | _, _ => (type_of input, []) :: turns (asks_tool input) inputs
      end
  end.
Definition turns_of (inputs : list MessageParam) : list (Z * list (option bytes * bytes)) :=
  match inputs with [] => [(MESSAGE_HUMAN, [])] | _ => turns None (user_first inputs) end.

(** The images that are looked at, in order: those of the user, and those of the
    results of tools that are sent. *)
Definition image_source (c : ContentBlockParam) : option ImageSource := match c with PImage source => Some source | _ => None end.
Definition result_source (c : ToolResultContentBlock) : option ImageSource := match c with RImage source => Some source | _ => None end.
Definition input_sources (input : MessageParam) : list ImageSource :=
  match pm_role input, pm_content input with User, PArray contents => omap image_source contents | _, _ => [] end.
Definition result_sources (content : option ToolResultContent) : list ImageSource :=
  match content with Some (RArray contents) => omap result_source contents | _ => [] end.
Fixpoint sources (asked : option bytes) (inputs : list MessageParam) : list ImageSource :=
  match inputs with
  | [] => []
  | input :: inputs =>
      match asked, lone_result input with
      | Some _, Some (_, content, _) => result_sources content ++ sources None inputs
      | _, _ => input_sources input ++ sources (asks_tool input) inputs
      end
  end.

(** ** Lemmas *)

Lemma pop_tool_use_asks contents input :
  pm_content input = PArray contents -> pm_role input = Assistant ->
  asks_tool input = (fun call => call.1.1) <$> (pop_tool_use contents).2.
Proof.
  intros Hc Hr. unfold asks_tool, pop_tool_use. rewrite Hr, Hc.
  destruct contents as [|c l _] using rev_ind; [done|]. rewrite last_snoc, rev_app_distr. by destruct c.
Qed.
(** What a call takes of the inputs behind it. *)
Lemma next_result_turns id inputs :
  match next_result inputs with
  | Some (tool_use_id, content, _, inputs') =>
      turns (Some id) inputs = (MESSAGE_AI, [(Some id, (tool_id_parse tool_use_id).1)]) :: turns None inputs' /\
      sources (Some id) inputs = result_sources content ++ sources None inputs' /\ inputs' `suffix_of` inputs
  | None => turns (Some id) inputs = turns None inputs /\ sources (Some id) inputs = sources None inputs
  end.
Proof.
  destruct inputs as [|i inputs]; [done|]. cbn [next_result turns sources].
  destruct (lone_result i) as [[[tool_use_id content] is_error]|]; [|done]. split_and!; [done..|by exists [i]].
Qed.

Section conversions.
Context (b64_decode : bytes -> option bytes) (load_image : ImageFormat -> bytes -> option (Z * Z)).
Context (second_frame : bool -> bytes -> bool) (guess_format : bytes -> option ImageFormat).
Context (http_get : bytes -> option (option bytes)).
Context (print : json -> bytes) (supply : nat -> bytes) (vision : VisionAbility) (image_support is_agentic : bool).

Abbreviation parts := (parts_of b64_decode load_image second_frame guess_format http_get vision image_support).
Abbreviation with_library f := (f b64_decode load_image second_frame guess_format http_get) (only parsing).

(** What the images come to, when they are looked at. *)
Definition look (source : ImageSource) : result AdapterError (bytes * option Dimension) :=
  image_result load_image second_frame guess_format http_get vision
    (match source with
     | SBase64 media_type data => Some (process_base64_image b64_decode load_image second_frame (format_of media_type) data)
     | SUrl _ => None
     end)
    (match source with SUrl url => url | SBase64 _ _ => [] end).
Definition looks (sources : list ImageSource) : list (result AdapterError (bytes * option Dimension)) :=
  if image_support then look <$> sources else [].
Lemma block_looks_app a b : looks (a ++ b) = looks a ++ looks b.
Proof using. unfold looks. destruct image_support; [apply fmap_app|done]. Qed.
Lemma looks_nil : looks [] = [].
Proof using. unfold looks. by destruct image_support. Qed.

Definition source_in {A} (classify : A -> option (bytes + ImageSource)) (a : A) : option ImageSource :=
  match classify a with Some (inr source) => Some source | _ => None end.
Lemma spec_parts {A} (classify : A -> option (bytes + ImageSource)) contents : forall f,
  fails_first (looks (omap (source_in classify) contents)) (parts classify contents) f (fun _ f' => same_uuids f f').
Proof using.
  induction contents as [|content contents IH]; intros f; cbn [parts_of omap list_omap]; [rewrite looks_nil; by apply fails_ret|].
  unfold source_in at 1. destruct (classify content) as [[text|source]|]; [| |apply IH].
  - apply fails_bind_l. eapply fails_weaken; [apply IH|]. by intros [texts images] f' H E.
  - change (source :: ?l) with ([source] ++ l). rewrite block_looks_app. unfold looks at 1.
    destruct image_support eqn:Es; [|apply IH]. apply fails_bind. eapply fails_weaken; [apply spec_see_image|].
    intros i f1 H1. cbn beta. apply fails_bind_l. eapply fails_weaken; [apply IH|]. intros [texts images] f2 H2 E.
    apply spec_ret. unfold same_uuids in *. congruence.
Qed.
Lemma spec_result_content content f :
  fails_first (looks (result_sources content))
    (with_library result_content vision image_support content) f (fun _ f' => same_uuids f f').
Proof using.
  destruct content as [[text|contents]|]; cbn [result_content result_sources];
    [rewrite looks_nil; by apply fails_ret| |rewrite looks_nil; by apply fails_ret].
  replace (omap result_source contents) with (omap (source_in result_part) contents)
    by (apply list_omap_ext, Forall_Forall2_diag, Forall_true; by intros []).
  apply fails_bind_l. eapply fails_weaken; [apply spec_parts|]. by intros [texts images] f' H E.
Qed.

(** A message by itself: its identifiers are the next ones. *)
Definition fresh_message (f f' : Fresh) (m : ConversationMessage) : Prop :=
  message_ok m /\ (uuids f <= uuids f')%nat /\ ids_of m = supply <$> seq (uuids f) (uuids f' - uuids f).

Lemma spec_tool_message call r f :
  fails_first (looks (result_sources r.1.2)) (with_library tool_message print supply vision image_support is_agentic call r) f
    (fun m f' => fresh_message f f' m /\ turn_of m = (MESSAGE_AI, [(Some call.1.1, (tool_id_parse r.1.1).1)])).
Proof using.
  destruct call as [[id name] input], r as [[tool_use_id content] is_error]. unfold tool_message. cbn [fst snd].
  apply fails_bind_l. eapply fails_weaken; [apply spec_result_content|].
  intros [text images] f1 H1 E. destruct (tool_id_parse tool_use_id) as [tool_call_id model_call_id].
  apply spec_bind, spec_new_uuid, spec_bind, spec_new_uuid, spec_ret. unfold same_uuids in H1. cbn [uuids] in *.
  split; [split_and!|done].
  - right. split_and!; [done|by eexists|done..].
  - cbn. lia.
  - cbn [uuids]. replace (S (S (uuids f1)) - uuids f)%nat with 2%nat by lia. cbn. by rewrite <- H1.
Qed.

(** What [contents_of] takes out of a message, and what it leaves. *)
Definition taken (input : MessageParam) (inputs : list MessageParam) (f f' : Fresh)
    (next : option ConversationMessage) (rest : list MessageParam) : Prop :=
  rest `suffix_of` inputs /\
  match next with
  | Some m => fresh_message f f' m /\ turns (asks_tool input) inputs = turn_of m :: turns None rest
  | None => same_uuids f f' /\ turns (asks_tool input) inputs = turns None rest
  end.
(** The images that are looked at with a message. *)
Definition own_sources (input : MessageParam) (inputs : list MessageParam) : list ImageSource :=
  input_sources input ++
  match asks_tool input, next_result inputs with Some _, Some (r, _) => result_sources r.1.2 | _, _ => [] end.
Lemma own_sources_rest input inputs rest :
  rest = match asks_tool input, next_result inputs with Some _, Some (_, rest) => rest | _, _ => inputs end ->
  sources None (input :: inputs) = own_sources input inputs ++ sources None rest.
Proof using.
  intros ->. cbn [sources]. unfold own_sources. rewrite <- app_assoc. f_equal.
  destruct (asks_tool input) as [id|]; [|done]. pose proof (next_result_turns id inputs) as H.
  destruct (next_result inputs) as [[[[tool_use_id content] is_error] rest]|]; by destruct H as (_ & H & _) || destruct H as [_ H].
Qed.

Lemma spec_contents input inputs f : pm_role input <> System ->
  fails_first (looks (own_sources input inputs))
    (with_library contents_of print supply vision image_support is_agentic input inputs) f
    (fun r f' => let '(text, images, thinking, next, rest) := r in
      (pm_role input = User -> thinking = [] /\ next = None) /\ (pm_role input = Assistant -> images = []) /\
      taken input inputs f f' next rest /\
      rest = match asks_tool input, next_result inputs with Some _, Some (_, rest) => rest | _, _ => inputs end).
Proof using.
  intros Hr. unfold contents_of, own_sources, input_sources. destruct (pm_content input) as [text|contents] eqn:Ec.
  - assert (asks_tool input = None) as Ha by (unfold asks_tool; rewrite Ec; by destruct (pm_role input)).
    rewrite Ha. destruct (pm_role input); cbn [app]; rewrite looks_nil; apply fails_ret; (split_and!; [done..| |done]);
      (split; [done|by rewrite Ha]).
  - destruct (pm_role input) eqn:Er; [done| |].
    + assert (asks_tool input = None) as Ha by (unfold asks_tool; by rewrite Er). rewrite Ha, app_nil_r.
      replace (omap image_source contents) with (omap (source_in user_part) contents)
        by (apply list_omap_ext, Forall_Forall2_diag, Forall_true; by intros []).
      apply fails_bind_l. eapply fails_weaken; [apply spec_parts|]. intros [texts images] f' Hf E. apply spec_ret.
      split_and!; [done..| |done]. split; [done|]. by rewrite Ha.
    + pose proof (pop_tool_use_asks _ _ Ec Er) as Ha. destruct (pop_tool_use contents) as [before call].
      cbn [snd fmap option_fmap option_map app] in *. rewrite Ha.
      apply fails_bind_l. apply fails_weaken with (fun r f' => taken input inputs f f' r.1 r.2 /\
        r.2 = match asks_tool input, next_result inputs with Some _, Some (_, rest) => rest | _, _ => inputs end);
        [|intros [next rest] f' H E; apply spec_ret; rewrite <- Ha; split_and!; [done..|apply H|apply H]].
      unfold taken. rewrite Ha. destruct call as [call|]; cbn [fmap option_fmap option_map]; [|rewrite looks_nil; by apply fails_ret].
      pose proof (next_result_turns call.1.1 inputs) as Hn.
      destruct (next_result inputs) as [[[[tool_use_id content] is_error] rest]|]; [|rewrite looks_nil; apply fails_ret].
      * destruct Hn as (Ht & _ & Hl). apply fails_bind_l. eapply fails_weaken; [apply spec_tool_message|]. intros m f' [Hm Hturn] E.
        apply spec_ret. cbn [fst snd]. by rewrite Ht, Hturn.
      * destruct Hn as [Ht _]. cbn [fst snd]. by rewrite Ht.
Qed.

Context (url_scheme : bytes -> option bytes).

(** The message itself, behind that of a tool call in the order of the identifiers. *)
Lemma taken_messages input inputs f f1 f' next rest m :
  taken input inputs f f1 next rest -> fresh_message f1 f' m -> turn_of m = (type_of input, []) ->
  let l := m :: option_list next in
  Forall message_ok l /\ (uuids f <= uuids f')%nat /\
  List.concat (ids_of <$> l) ≡ₚ supply <$> seq (uuids f) (uuids f' - uuids f) /\
  rest `suffix_of` inputs /\ (turn_of <$> l) ++ turns None rest = turns None (input :: inputs).
Proof using.
  clear is_agentic second_frame. intros [Hl Hn] (Hm & Hle & Hids) Ht l. cbn [turns]. subst l. destruct next as [n|].
  - destruct Hn as [(Hok & Hle' & Hids') Hturn]. change (option_list (Some n)) with [n].
    cbn [fmap list_fmap List.concat app].
    rewrite app_nil_r, Hids, Hids', Hturn, Ht, Permutation_app_comm, <- fmap_app.
    split_and!; [by rewrite !Forall_cons|lia| |done|done].
    apply fmap_Permutation. replace (uuids f' - uuids f)%nat with ((uuids f1 - uuids f) + (uuids f' - uuids f1))%nat by lia.
    rewrite seq_app. by replace (uuids f + (uuids f1 - uuids f))%nat with (uuids f1) by lia.
  - destruct Hn as [Hs Hturn]. unfold same_uuids in Hs. change (option_list None) with (@nil ConversationMessage).
    cbn [fmap list_fmap List.concat app].
    rewrite app_nil_r, Hids, Hturn, Ht, Hs. split_and!; [by rewrite Forall_cons|lia|done..].
Qed.

Lemma spec_convert_param input inputs f : pm_role input <> System ->
  fails_first (looks (own_sources input inputs))
    (with_library convert_input url_scheme print supply vision image_support is_agentic input inputs) f
    (fun r f' => let '(m, next, rest) := r in
      let l := m :: option_list next in
      Forall message_ok l /\ (uuids f <= uuids f')%nat /\
      List.concat (ids_of <$> l) ≡ₚ supply <$> seq (uuids f) (uuids f' - uuids f) /\
      rest `suffix_of` inputs /\ (turn_of <$> l) ++ turns None rest = turns None (input :: inputs) /\
      sources None (input :: inputs) = own_sources input inputs ++ sources None rest).
Proof using.
  intros Hr. unfold convert_input. apply fails_bind_l. eapply fails_weaken; [by apply spec_contents|].
  intros [[[[text images] thinking] next] rest] f1 (Ht & Hi & Hn & Hrest) E. apply spec_bind.
  eapply spec_weaken; [by apply spec_text_parts|]. intros [[[ft refs] uw] links] f2 [H2 Hp].
  apply spec_bind, spec_new_uuid. unfold same_uuids in *.
  assert (forall m f', fresh_message f2 f' m -> fresh_message f1 f' m) as Hf.
  { unfold fresh_message. by rewrite H2. }
  pose proof (own_sources_rest _ _ _ Hrest) as Hsrc. clear Hrest.
  assert (forall m f', fresh_message f1 f' m -> turn_of m = (type_of input, []) ->
    let l := m :: option_list next in
    Forall message_ok l /\ (uuids f <= uuids f')%nat /\
    List.concat (ids_of <$> l) ≡ₚ supply <$> seq (uuids f) (uuids f' - uuids f) /\
    rest `suffix_of` inputs /\ (turn_of <$> l) ++ turns None rest = turns None (input :: inputs) /\
    sources None (input :: inputs) = own_sources input inputs ++ sources None rest) as Hall.
  { intros m f' Hm Htm l. destruct (taken_messages _ _ _ _ _ _ _ _ Hn Hm Htm) as (A1 & A2 & A3 & A4 & A5). by split_and!. }
  destruct (pm_role input) eqn:Er; [done| |].
  - rewrite bool_decide_eq_true_2 by done. apply spec_bind, spec_ret, spec_ret. destruct Hp as [ls [= -> -> -> ->]].
    destruct Ht as [-> ->]; [done|]. apply Hall; [apply Hf; split_and!|].
    + by left.
    + cbn. lia.
    + cbn. by replace (S (uuids f2) - uuids f2)%nat with 1%nat by lia.
    + unfold type_of, turn_of. by rewrite Er.
  - rewrite bool_decide_eq_false_2 by done. apply spec_bind, spec_bind, spec_new_uuid, spec_ret, spec_ret.
    rewrite (Hi eq_refl). destruct (extract_web_references_info text) as [[t rs] has] eqn:Ex.
    injection Hp as -> -> -> ->. apply Hall; [apply Hf; split_and!|].
    + right. split_and!; [done|by eexists|done|done|by rewrite andb_false_r|]. cbn.
      by rewrite to_opt_true, (extract_has _ _ _ _ Ex).
    + cbn. lia.
    + cbn. by replace (S (S (uuids f2)) - uuids f2)%nat with 2%nat by lia.
    + unfold type_of, turn_of. by rewrite Er.
Qed.

Lemma spec_convert_params fuel : forall inputs ms f, (length inputs <= fuel)%nat ->
  Forall (fun i => pm_role i <> System) inputs -> conversation_so_far supply ms f ->
  fails_first (looks (sources None inputs))
    (with_library convert_inputs url_scheme print supply vision image_support is_agentic fuel inputs ms) f
    (fun ms' f' => conversation_so_far supply ms' f' /\
      turn_of <$> inner ms' = (turn_of <$> inner ms) ++ turns None inputs).
Proof using.
  induction fuel as [|fuel IH]; intros [|input inputs] ms f Hl Hr Hc; cbn [convert_inputs];
    try (cbn [sources]; rewrite looks_nil; apply fails_ret; by rewrite app_nil_r); [cbn in Hl; lia|].
  apply Forall_cons in Hr as [Hr Hrs].
  rewrite (own_sources_rest input inputs _ eq_refl), block_looks_app. apply fails_bind.
  eapply fails_weaken; [by apply spec_convert_param|].
  intros [[m next] rest] f1 (Hok & Hle & Hids & Hrest & Ht & Hsrc). rewrite (own_sources_rest input inputs _ eq_refl) in Hsrc.
  apply app_inv_head in Hsrc as ->. pose proof (suffix_length _ _ Hrest). cbn in Hl.
  assert (Forall (fun i => pm_role i <> System) rest) by (destruct Hrest as [p ->]; by apply Forall_app in Hrs as [_ Hrs]).
  assert (match next with Some n => push n (push m ms) | None => push m ms end =
    push_list (m :: option_list next) ms) as -> by (by destruct next).
  eapply fails_weaken; [apply IH; [lia|done|by eapply push_list_so_far]|].
  intros ms' f2 [H1 H2]. split; [done|]. rewrite H2, push_list_eq. cbn [inner].
  by rewrite fmap_app, <- app_assoc, Ht.
Qed.

Lemma supported_ok tools m : message_ok m -> message_ok (set_supported_tools tools m).
Proof using. by destruct m. Qed.
Lemma turns_human inputs : inputs <> [] -> Forall (fun i => pm_role i <> System) inputs ->
  exists ts, turns None (user_first inputs) = (MESSAGE_HUMAN, []) :: ts.
Proof using.
  intros Hne Hs. destruct inputs as [|i more]; [done|]. apply Forall_cons in Hs as [Hi _]. cbn [user_first].
  case_bool_decide as Ha; [by eexists|]. eexists. cbn [turns]. unfold type_of.
  rewrite bool_decide_eq_true_2; [done|]. by destruct (pm_role i).
Qed.

Lemma user_first_sources inputs : sources None (user_first inputs) = sources None inputs.
Proof using. destruct inputs as [|i inputs]; [done|]. cbn [user_first]. by case_bool_decide. Qed.

Lemma process_params_spec default_instructions start system supported_tools inputs base :
  Forall (fun i => pm_role i <> System) inputs ->
  fails_first (looks (sources None inputs))
    (with_library process_message_params url_scheme print supply vision image_support is_agentic
       default_instructions start system supported_tools inputs) (mkFresh 0 base)
    (fun '(instructions, ms, links) f' => instructions = instructions_of default_instructions system /\
      conversation_ok supply ms f' /\ turn_of <$> inner ms = turns_of inputs /\
      links = default [] (cm_external_links <$> last (inner ms)) /\
      (inputs <> [] -> cm_supported_tools <$> last (inner ms) = Some supported_tools)).
Proof using.
  intros Hs. unfold process_message_params, turns_of. destruct inputs as [|i more] eqn:Ei.
  - cbn [sources]. rewrite looks_nil. apply fails_none. intros E. apply spec_bind, spec_new_uuid, spec_ret.
    split_and!; [done|by apply first_single|done..].
  - rewrite <- Ei in *. apply fails_bind_r. intros E. unfold base_uuid_new, spec. rewrite <- user_first_sources.
    apply fails_bind_l. eapply fails_weaken; [apply spec_convert_params; [done| |]|].
    + rewrite Ei. cbn [user_first]. case_bool_decide; [constructor; [done|]|]; by rewrite <- Ei.
    + split_and!; [done|constructor|done].
    + intros ms f' [Hc Ht] E'. cbn [app fmap list_fmap inner messages_new] in Ht. apply spec_ret. rewrite last_links.
      destruct (turns_human inputs) as [ts Ets]; [by subst|done|]. rewrite Ets in *.
      assert (turn_of <$> inner (last_mut (set_supported_tools supported_tools) ms) = (MESSAGE_HUMAN, []) :: ts) as Ht'.
      { cbn [last_mut inner]. rewrite fmap_alter_last; [done|]. by intros []. }
      assert (is_Some (last (inner ms))) as [m Hm] by (apply last_is_Some; by intros E0; rewrite E0 in Ht).
      split_and!; [done| |done| |].
      * eapply conversation_started; [apply last_mut_so_far; [by intros []|apply supported_ok|done]|].
        assert (cm_type <$> inner (last_mut (set_supported_tools supported_tools) ms) = fst <$> (MESSAGE_HUMAN, []) :: ts) as ->.
        { by rewrite <- Ht', <- list_fmap_compose. }
        done.
      * cbn [last_mut inner]. rewrite last_alter_last, Hm. by destruct m.
      * intros _. cbn [last_mut inner]. rewrite last_alter_last, Hm. done.
Qed.
End conversions.

(** ** The conversation that is sent *)

(** C28: the request made of the messages of the Anthropic interface, on every branch.
    Its making ends.  It fails exactly when the model sees images, this is not
    disabled, and some image that is looked at, of the user or in the result of a tool
    that is sent, comes to an error: then with the first such error.  Otherwise the
    instructions are those of the request, or the default ones, and there is one
    message for each input, in order, behind an empty one of the user if the model
    speaks first or there are none.  An input becomes the result of a tool exactly if
    it is nothing else and comes directly behind a call: the message carries the
    identifiers of the call and of the result, which are not compared.  Each message
    has identifiers of its own and a header that repeats them; the last one carries
    the supported tools, and its links are those of the request: none if it is the
    model's or the result of a tool, whatever the last message of the user links to. *)
Theorem anthropic_conversation b64_decode load_image second_frame guess_format http_get url_scheme print supply g
    fill_mode default_instructions start base model msg_id environment_info disable_vision enable_slow_pool params :
  Forall (fun i => pm_role i <> System) (cp_messages params) ->
  let request := anthropic_request b64_decode load_image second_frame guess_format http_get url_scheme print supply g
    fill_mode default_instructions start model msg_id environment_info disable_vision enable_slow_pool params (mkFresh 0 base) in
  let seen := if negb disable_vision && x_is_image model then sources None (cp_messages params) else [] in
  match first_error (look b64_decode load_image second_frame guess_format http_get (vision_ability g) <$> seen) with
  | Some e => request = Ret (Err e)
  | None => exists rq f, request = Ret (Ok (rq, f)) /\
      conversation_ok supply (mkMessages (rq_conversation rq) (rq_headers rq)) f /\
      turn_of <$> rq_conversation rq = turns_of (cp_messages params) /\
      rq_external_links rq = default [] (cm_external_links <$> last (rq_conversation rq)) /\
      (last (turns_of (cp_messages params)).*1 = Some MESSAGE_AI -> rq_external_links rq = []) /\
      (cp_messages params <> [] -> cm_supported_tools <$> last (rq_conversation rq) = Some (rq_supported_tools rq)) /\
      create_explicit_context fill_mode (instructions_of default_instructions (cp_system params)) =
        Ret (rq_explicit_context rq)
  end.
Proof.
  intros Hs. cbv zeta.
  assert (look b64_decode load_image second_frame guess_format http_get (vision_ability g) <$>
      (if negb disable_vision && x_is_image model then sources None (cp_messages params) else []) =
    looks b64_decode load_image second_frame guess_format http_get (vision_ability g)
      (negb disable_vision && x_is_image model) (sources None (cp_messages params))) as ->.
  { unfold looks. by destruct (negb disable_vision && x_is_image model). }
  apply fails_first_cases. unfold anthropic_request. apply fails_bind_l.
  eapply fails_weaken; [by apply process_params_spec|].
  intros [[instructions ms] links] f (-> & Hc & Ht & -> & Hl) E. apply spec_bind, spec_explicit_context. intros c Ec.
  apply spec_ret. split_and!; [by destruct ms|done|done| |done|done]. intros Hm. cbn [rq_external_links].
  rewrite <- Ht, <- list_fmap_compose in Hm. by apply (model_links supply ms f).
Qed.

Definition example_model : ExtModel := mkExtModel (as_bytes "m") true false false false.
Definition example_environment : EnvironmentInfo := mkEnvironmentInfo None None [] [].
(** A call of a tool, the result of another one, and one that comes too late. *)
Definition example_inputs : list MessageParam :=
  let use := PToolUse (as_bytes "call") (as_bytes "search") [] in
  let result := PToolResult (as_bytes "other") (Some (RString (as_bytes "found"))) false in
  [mkParam Assistant (PArray [PText (as_bytes "Let me see."); use]);
   mkParam User (PArray [result]);
   mkParam User (PArray [result; PText (as_bytes "Thanks.")])].
Definition example_params : MessageCreateParams :=
  mkCreateParams (as_bytes "m") example_inputs false None false [mkTool [] (as_bytes "search") None].

Lemma anthropic_conversation_witness :
  Forall (fun i => pm_role i <> System) example_inputs /\
  exists rq f, anthropic_request (fun _ => None) (fun _ _ => None) (fun _ _ => false) (fun _ => None) (fun _ => None)
      (fun _ => None) compact (fun n => [Z.of_nat n]) config_default (from_bits 1) (as_bytes "Be brief.") 256 example_model
      [] example_environment true false example_params (mkFresh 0 0) = Ret (Ok (rq, f)) /\
    turn_of <$> rq_conversation rq =
      [(1, []); (2, []); (2, [(Some (as_bytes "call"), as_bytes "other")]); (1, [])].
Proof.
  assert (Forall (fun i => pm_role i <> System) example_inputs) as Hs by (by repeat constructor).
  split; [done|].
  pose proof (anthropic_conversation (fun _ => None) (fun _ _ => None) (fun _ _ => false) (fun _ => None) (fun _ => None)
      (fun _ => None) compact (fun n => [Z.of_nat n]) config_default (from_bits 1) (as_bytes "Be brief.") 256 0 example_model
      [] example_environment true false example_params Hs) as H.
  cbv zeta in H. cbn [negb andb] in H. destruct H as (rq & f & E & _ & Ht & _). exists rq, f. split; [exact E|]. rewrite Ht. reflexivity.
Defined.
