(* ===== verification/Adapters.v ===== *)
(** * The two request interfaces agree

    Requests of the OpenAI interface that have a counterpart in the Anthropic
    interface: [src/src/core/adapter/openai.rs] and
    [src/src/core/adapter/anthropic.rs] turn them into the same request, the mark of
    a chat apart. *)
From S2P Require Import Prelude Strings Settings ProtoEncode ResponseDecoder LogManager Auth Models ChatModels Adapter.
From S2P Require Import AdapterOpenai AdapterAnthropic.

(** ** The counterpart of a request *)

Definition media_of (format : ImageFormat) : option MediaType :=
  match format with
  | FPng => Some ImagePng | FJpeg => Some ImageJpeg | FGif => Some ImageGif | FWebP => Some ImageWebp | FOther => None
  end.
(** A data URL is an inline image if its format and its shape are known. *)
Definition source_of (url : bytes) : option ImageSource :=
  match strip_prefix DATA_IMAGE_PREFIX url with
  | Some rest =>
      '(name, data) ← split_once_at BASE64_SEPARATOR rest;
      format ← format_of_name name;
      media_type ← media_of format;
      Some (SBase64 media_type data)
  | None => Some (SUrl url)
  end.
Definition block_of (c : MessageContentObject) : option ContentBlockParam :=
  match c with
  | CText text => Some (PText (as_bytes text))
  | CImageUrl url => PImage <$> source_of (as_bytes url)
  end.
Definition param_of (input : OpenAiMessage) : option MessageParam :=
  match m_content input with
  | CString text => Some (mkParam (m_role input) (PString (as_bytes text)))
  | CArray contents => (fun blocks => mkParam (m_role input) (PArray blocks)) <$> mapM block_of contents
  end.
(** The instructions of the system messages; empty ones are none. *)
Definition system_of (inputs : list OpenAiMessage) : option SystemContent :=
  let instructions := join_with DOUBLE_NEWLINE (system_text <$> List.filter is_system inputs) in
  if (length instructions =? 0)%nat then None else Some (SysString instructions).
Definition params_of (inputs : list OpenAiMessage) : option MessageCreateParams :=
  (fun messages => mkCreateParams [] messages false (system_of inputs) false []) <$> mapM param_of (chat_of inputs).
(** The OpenAI interface does not mark its requests as chats. *)
Definition not_chat (rq : StreamUnifiedChatRequest) : StreamUnifiedChatRequest :=
  mkRequest (rq_conversation rq) (rq_headers rq) (rq_explicit_context rq) (rq_model_details rq) (rq_use_web rq)
    (rq_external_links rq) (rq_should_cache rq) (rq_current_file rq) (rq_use_new_compression_scheme rq) false
    (rq_conversation_id rq) (rq_environment_info rq) (rq_is_agentic rq) (rq_supported_tools rq) (rq_mcp_tools rq)
    (rq_use_full_inputs_context rq) (rq_allow_model_fallbacks rq) (rq_unified_mode rq) (rq_should_disable_tools rq)
    (rq_thinking_level rq) (rq_uses_rules rq) (rq_unified_mode_name rq).

(** ** Lemmas *)

Lemma adapt_bind_ext {A B} (m m' : adapt A) (k k' : A -> adapt B) f :
  m f = m' f -> (forall a f', m f = Ret (Ok (a, f')) -> k a f' = k' a f') -> (m ≫= k) f = (m' ≫= k') f.
Proof. unfold mbind, adapt_bind. intros <-. destruct (m f) as [[[a f']|e]| |]; eauto. Qed.

Section agreement.
Context (b64_decode : bytes -> option bytes) (load_image : ImageFormat -> bytes -> option (Z * Z)).
Context (second_frame : bool -> bytes -> bool) (guess_format : bytes -> option ImageFormat).
Context (http_get : bytes -> option (option bytes)) (vision : VisionAbility) (image_support : bool).

Lemma image_agrees url source : source_of url = Some source ->
  AdapterOpenai.image_of b64_decode load_image second_frame guess_format http_get vision url =
  AdapterAnthropic.image_of b64_decode load_image second_frame guess_format http_get vision source.
Proof.
  unfold AdapterOpenai.image_of, AdapterAnthropic.image_of, source_of, data_url.
  destruct (strip_prefix DATA_IMAGE_PREFIX url) as [rest|]; cbn [fmap option_fmap option_map].
  - unfold process_data_url. destruct (split_once_at BASE64_SEPARATOR rest) as [[name data]|]; cbn [mbind option_bind]; [|discriminate].
    destruct (format_of_name name) as [format|] eqn:En; cbn [mbind option_bind]; [|discriminate].
    intros H. assert (exists t, media_of format = Some t /\ source = SBase64 t data /\ format_of t = format) as (t & _ & -> & <-).
    { destruct format; cbn in H; [..|discriminate]; injection H as <-; by eexists. }
    unfold see_image. cbn [ok_or mbind result_bind]. rewrite En. by destruct vision.
  - intros [= <-]. done.
Qed.

Lemma parts_agree contents : forall blocks f, mapM block_of contents = Some blocks ->
  user_parts b64_decode load_image second_frame guess_format http_get vision image_support contents f =
  parts_of b64_decode load_image second_frame guess_format http_get vision image_support user_part blocks f.
Proof.
  induction contents as [|[text|url] contents IH]; intros blocks f; cbn [mapM user_parts].
  - by intros [= <-].
  - cbn [block_of mbind option_bind]. destruct (mapM block_of contents) as [bs|]; [|done]. intros [= <-].
    cbn [parts_of user_part]. apply adapt_bind_ext; [by apply IH|done].
  - cbn [block_of]. destruct (source_of (as_bytes url)) as [source|] eqn:Es; [|done].
    cbn [fmap option_fmap option_map mbind option_bind]. destruct (mapM block_of contents) as [bs|]; [|done].
    intros [= <-]. cbn [parts_of user_part]. destruct image_support; [|by apply IH].
    apply adapt_bind_ext; [by rewrite (image_agrees _ _ Es)|]. intros image f1 _.
    apply adapt_bind_ext; [by apply IH|done].
Qed.

(** Blocks that are texts and images. *)
Lemma plain_blocks contents : forall blocks, mapM block_of contents = Some blocks ->
  omap text_of blocks = as_bytes <$> omap into_text contents /\ omap thought_of blocks = [] /\
  Forall (fun b => match b with PToolUse _ _ _ => False | _ => True end) blocks.
Proof.
  induction contents as [|c contents IH]; intros blocks; cbn [mapM]; [by intros [= <-]|].
  destruct (block_of c) as [b|] eqn:Eb; [|done]. cbn [mbind option_bind].
  destruct (mapM block_of contents) as [bs|]; [|done]. intros [= <-]. destruct (IH bs eq_refl) as (H1 & H2 & H3).
  destruct c as [text|url]; cbn in Eb.
  - injection Eb as <-. split_and!; [|done|by constructor]. cbn. by rewrite <- H1.
  - destruct (source_of (as_bytes url)); [|done]. injection Eb as <-. split_and!; [done..|by constructor].
Qed.
Lemma pop_plain blocks : Forall (fun b => match b with PToolUse _ _ _ => False | _ => True end) blocks ->
  pop_tool_use blocks = (blocks, None).
Proof.
  intros H. unfold pop_tool_use. destruct blocks as [|b l _] using rev_ind; [done|].
  apply Forall_app in H as [_ H]. apply Forall_cons in H as [H _]. rewrite rev_app_distr. by destruct b.
Qed.

Context (url_scheme : bytes -> option bytes) (print : json -> bytes) (supply : nat -> bytes).

Abbreviation with_library g := (g b64_decode load_image second_frame guess_format http_get) (only parsing).

Lemma contents_agree input param params f : m_role input <> System -> param_of input = Some param ->
  pm_role param = m_role input /\
  with_library contents_of print supply vision image_support false param params f =
  ('(text, images) ← with_library text_and_images vision image_support input; mret (text, images, [], None, params)) f.
Proof using.
  intros Hr. unfold param_of, contents_of, text_and_images. destruct (m_content input) as [text|contents].
  - by intros [= <-].
  - destruct (mapM block_of contents) as [blocks|] eqn:Eb; [|discriminate]. intros [= <-]. split; [done|].
    cbn [pm_content pm_role]. destruct (m_role input); [done| |].
    + rewrite bool_decide_eq_true_2 by done. unfold mbind, adapt_bind. rewrite (parts_agree contents blocks f Eb).
      by destruct (parts_of _ _ _ _ _ _ _ _ blocks f) as [[[[texts images] f']|e]| |].
    + rewrite bool_decide_eq_false_2 by done. destruct (plain_blocks _ _ Eb) as (H1 & H2 & H3).
      rewrite pop_plain by done. unfold mbind, adapt_bind, mret, adapt_ret. by rewrite H1, H2.
Qed.

Lemma convert_agrees input param params f : m_role input <> System -> param_of input = Some param ->
  with_library AdapterAnthropic.convert_input url_scheme print supply vision image_support false param params f =
  (m ← with_library AdapterOpenai.convert_input url_scheme supply vision image_support input; mret (m, None, params)) f.
Proof using.
  intros Hr Hp. destruct (contents_agree input param params f Hr Hp) as [Er Ec].
  unfold AdapterAnthropic.convert_input, AdapterOpenai.convert_input. unfold mbind at 1, adapt_bind at 1.
  rewrite Ec, Er. unfold mbind, adapt_bind.
  destruct (text_and_images _ _ _ _ _ _ _ input f) as [[[[text images] f1]|e]| |]; [|done..].
  cbn [mret adapt_ret]. destruct (text_parts url_scheme (m_role input) text f1) as [[[[[[ft refs] uw] links] f2]|e]| |]; [|done..].
  cbn. by destruct (bool_decide (m_role input = User)).
Qed.
Lemma convert_all_agrees inputs : forall params fuel ms f, (length params <= fuel)%nat ->
  Forall (fun i => m_role i <> System) inputs -> mapM param_of inputs = Some params ->
  with_library AdapterAnthropic.convert_inputs url_scheme print supply vision image_support false fuel params ms f =
  with_library AdapterOpenai.convert_inputs url_scheme supply vision image_support inputs ms f.
Proof using.
  induction inputs as [|input inputs IH]; intros params fuel ms f Hl Hr Hp; cbn [mapM] in Hp.
  - injection Hp as <-. by destruct fuel.
  - destruct (param_of input) as [param|] eqn:E1; [|discriminate]. cbn [mbind option_bind] in Hp.
    destruct (mapM param_of inputs) as [ps|] eqn:E2; [|discriminate]. injection Hp as <-.
    apply Forall_cons in Hr as [Hr Hrs]. destruct fuel as [|fuel]; [cbn in Hl; lia|].
    cbn [AdapterAnthropic.convert_inputs AdapterOpenai.convert_inputs]. unfold mbind at 1 2, adapt_bind at 1 2.
    rewrite convert_agrees with (input := input) by done. unfold mbind, adapt_bind.
    destruct (AdapterOpenai.convert_input _ _ _ _ _ _ _ _ _ input f) as [[[m f1]|e]| |]; [|done..].
    cbn [mret adapt_ret]. apply IH; [cbn in Hl; lia|done..].
Qed.
Lemma convert_unsupported input f m f' :
  with_library AdapterOpenai.convert_input url_scheme supply vision image_support input f = Ret (Ok (m, f')) ->
  cm_supported_tools m = [].
Proof using.
  unfold AdapterOpenai.convert_input, mbind, adapt_bind.
  destruct (text_and_images _ _ _ _ _ _ _ input f) as [[[[text images] f1]|e]| |]; [|discriminate..].
  destruct (text_parts url_scheme (m_role input) text f1) as [[[[[[ft refs] uw] links] f2]|e]| |]; [|discriminate..].
  cbn. destruct (bool_decide _); by intros [= <- _].
Qed.
Lemma convert_all_unsupported inputs : forall ms f ms' f',
  with_library AdapterOpenai.convert_inputs url_scheme supply vision image_support inputs ms f = Ret (Ok (ms', f')) ->
  Forall (fun m => cm_supported_tools m = []) (inner ms) -> Forall (fun m => cm_supported_tools m = []) (inner ms').
Proof using.
  induction inputs as [|input inputs IH]; intros ms f ms' f'; cbn [AdapterOpenai.convert_inputs]; [by intros [= <- _]|].
  unfold mbind, adapt_bind. destruct (AdapterOpenai.convert_input _ _ _ _ _ _ _ _ _ input f) as [[[m f1]|e]| |] eqn:E;
    [|discriminate..].
  intros Hrun Hms. eapply IH; [exact Hrun|]. cbn [push inner]. apply Forall_app. split; [done|].
  constructor; [by eapply convert_unsupported|done].
Qed.
Lemma alter_last_same {A} (h : A -> A) l : Forall (fun a => h a = a) l -> alter_last h l = l.
Proof using.
  induction 1 as [|a l Ha _ IH]; [done|]. destruct l as [|a' l]; cbn [alter_last]; [by rewrite Ha|].
  by f_equal.
Qed.

Lemma user_first_agrees chat params : mapM param_of chat = Some params ->
  mapM param_of (AdapterOpenai.user_first chat) = Some (AdapterAnthropic.user_first params).
Proof using.
  destruct chat as [|input chat]; cbn [mapM]; [by intros [= <-]|].
  destruct (param_of input) as [param|] eqn:E1; cbn [mbind option_bind]; [|discriminate].
  destruct (mapM param_of chat) as [ps|] eqn:E2; cbn [mbind option_bind]; [|discriminate]. intros [= <-].
  assert (pm_role param = m_role input) as Er.
  { unfold param_of in E1. destruct (m_content input) as [text|contents]; [by injection E1 as <-|].
    by destruct (mapM block_of contents); [injection E1 as <-|]. }
  cbn [AdapterOpenai.user_first AdapterAnthropic.user_first]. rewrite Er.
  assert (mapM param_of (input :: chat) = Some (param :: ps)) as Em by (cbn [mapM]; by rewrite E1; cbn [mbind option_bind]; rewrite E2).
  case_bool_decide; [|done]. change (mapM param_of (mkMessage User (CString EmptyString) :: input :: chat)) with
    (x ← mapM param_of (input :: chat); Some (mkParam User (PString []) :: x)). by rewrite Em.
Qed.

Lemma chat_roles inputs : Forall (fun i => m_role i <> System) (chat_of inputs).
Proof using.
  apply Forall_forall. intros i Hi. apply list_elem_of_In, List.filter_In in Hi as [_ Hi]. unfold is_system in Hi.
  by case_bool_decide.
Qed.
Lemma instructions_agree default_instructions inputs :
  AdapterAnthropic.instructions_of default_instructions (system_of inputs) =
  AdapterOpenai.instructions_of default_instructions inputs.
Proof using. unfold system_of, AdapterOpenai.instructions_of. by destruct (length _ =? 0)%nat. Qed.

Lemma process_agrees default_instructions start inputs params f : mapM param_of (chat_of inputs) = Some params ->
  with_library process_message_params url_scheme print supply vision image_support false default_instructions start
    (system_of inputs) [] params f =
  with_library process_chat_inputs url_scheme supply vision image_support default_instructions start inputs f.
Proof using.
  intros Hp. unfold process_message_params, process_chat_inputs. rewrite instructions_agree. fold (chat_of inputs).
  pose proof (chat_roles inputs) as Hr. pose proof (user_first_agrees _ _ Hp) as Hu.
  destruct (chat_of inputs) as [|input chat] eqn:Ec; [by injection Hp as <-|].
  destruct params as [|param params].
  { cbn [mapM] in Hp. destruct (param_of input); cbn [mbind option_bind] in Hp; [|discriminate].
    destruct (mapM param_of chat); discriminate. }
  apply adapt_bind_ext; [done|]. intros u f1 _.
  symmetry. apply adapt_bind_ext; [|intros ms f2 Hrun; cbn beta].
  - symmetry. apply convert_all_agrees; [done| |done]. cbn [AdapterOpenai.user_first]. case_bool_decide; [by constructor|done].
  - apply convert_all_unsupported in Hrun; [|constructor]. unfold last_mut. rewrite alter_last_same; [by destruct ms|].
    eapply Forall_impl; [exact Hrun|]. intros [] Hm. cbn in Hm. by subst.
Qed.
End agreement.

(** ** One request *)

(** C29: a request of the OpenAI interface whose images are URLs or well-formed data
    URLs of a known format becomes exactly the request the Anthropic interface makes
    of its counterpart, identifiers and errors included; only the mark of a chat is
    missing. *)
Theorem adapters_agree b64_decode load_image second_frame guess_format http_get url_scheme print supply g fill_mode
    default_instructions start f model msg_id environment_info disable_vision enable_slow_pool inputs params :
  params_of inputs = Some params ->
  openai_request b64_decode load_image second_frame guess_format http_get url_scheme supply g fill_mode
    default_instructions start model msg_id environment_info disable_vision enable_slow_pool inputs f =
  (rq ← anthropic_request b64_decode load_image second_frame guess_format http_get url_scheme print supply g fill_mode
          default_instructions start model msg_id environment_info disable_vision enable_slow_pool params;
   mret (not_chat rq)) f.
Proof.
  unfold params_of. destruct (mapM param_of (chat_of inputs)) as [messages|] eqn:Ep; [|discriminate].
  intros [= <-]. unfold openai_request, anthropic_request. cbn [cp_tools length Nat.eqb negb cp_system cp_messages].
  unfold mbind, adapt_bind. rewrite <- (process_agrees _ _ _ _ _ _ _ _ print _ _ _ _ _ f Ep).
  destruct (process_message_params _ _ _ _ _ _ _ _ _ _ _ _ _ _ _ _ f) as [[[[[instructions ms] links] f1]|e]| |]; [|done..].
  by destruct (of_outcome (create_explicit_context fill_mode instructions) f1) as [[[c f2]|e]| |].
Qed.

Definition example_chat : list OpenAiMessage :=
  [mkMessage System (CString "Be kind."); mkMessage Assistant (CString "Hello!");
   mkMessage User (CArray [CText "What is this?"; CImageUrl "data:image/png;base64,AAAA"; CImageUrl "https://a.b/c.png"])]%string.
Lemma adapters_agree_witness :
  exists params, params_of example_chat = Some params /\
    forall b64_decode load_image second_frame guess_format http_get,
      openai_request b64_decode load_image second_frame guess_format http_get (fun _ => None) (fun n => [Z.of_nat n])
        config_default (from_bits 1) [] 256 example_model [] example_environment false false example_chat (mkFresh 0 0) =
      (rq ← anthropic_request b64_decode load_image second_frame guess_format http_get (fun _ => None) compact
              (fun n => [Z.of_nat n]) config_default (from_bits 1) [] 256 example_model [] example_environment false false params;
       mret (not_chat rq)) (mkFresh 0 0).
Proof.
  eexists. split; [vm_compute; reflexivity|]. intros. apply adapters_agree. vm_compute. reflexivity.
Defined.
