(* ===== verification/ChatService.v ===== *)
(** * A chat request, from its acceptance to the answer

    The first half of [handle_chat_completions] and [handle_messages] of
    [src/src/core/service.rs], with the counters of [src/src/app/model/state.rs]: a
    request is counted and entered in the log, converted, sent upstream and
    answered; every way out updates the entry and the counters.

    The two handlers share this code but for the forms of errors, the conversion
    and the answer, which are the interface [Interface] with its law
    [InterfaceLaws]; the instances are made of [AdapterOpenai] and [AnswerOpenai],
    [AdapterAnthropic] and [AnswerAnthropic].  The updates of a streamed answer are
    made when the stream is read; here they follow at once.  The HTTP client is the
    parameter [send]: the chunks of a response, or an error with its text and
    whether it is a timeout. *)
From S2P Require Import Prelude Strings Floats Base62 TokenKey RawToken TokenInfo StringBuilder GrpcStream ResponseDecoder.
From S2P Require Import Settings ProtoEncode LogManager UpstreamErrors Auth Models ChatModels AnswerStream Adapter.
From S2P Require AnswerOpenai AnswerAnthropic AdapterOpenai AdapterAnthropic.

(** ** The state *)

Record Counters : Type := mkCounters { total_requests : Z; active_requests : Z; error_requests : Z }.
(** [AppState::load]. *)
Definition counters_load (mgr : LogManager) : Counters := mkCounters (total_count mgr) 0 (error_count mgr).
Definition increment_total (c : Counters) : Counters :=
  mkCounters (wrap 64 (total_requests c + 1)) (active_requests c) (error_requests c).
Definition increment_active (c : Counters) : Counters :=
  mkCounters (total_requests c) (wrap 64 (active_requests c + 1)) (error_requests c).
Definition decrement_active (c : Counters) : Counters :=
  mkCounters (total_requests c) (wrap 64 (active_requests c - 1)) (error_requests c).
Definition increment_error (c : Counters) : Counters :=
  mkCounters (total_requests c) (active_requests c) (wrap 64 (error_requests c + 1)).

Record AppState : Type := mkApp { counters : Counters; request_log : LogManager }.
Definition count (f : Counters -> Counters) (s : AppState) : AppState := mkApp (f (counters s)) (request_log s).
(** [log_manager::update_log], several times. *)
Definition note (i : Z) (us : list LogUpdate) (s : AppState) : AppState :=
  mkApp (counters s) (foldl (fun mgr u => update_log i u mgr) (request_log s) us).

Definition count_errors (n : Z) (s : AppState) : AppState := Nat.iter (Z.to_nat n) (count increment_error) s.

(** ** The interface *)

Record SendError : Type := mkSendError { is_timeout : bool; send_text : bytes }.

Record Interface : Type := mkInterface
  { adapter_tuple : AdapterError -> Z * ErrorBody;
    chat_body : ChatError -> ErrorBody;
    encode : bool -> bool -> outcome (result AdapterError bytes);
    answer : bool -> list Chunk -> outcome (Effects Body) }.

(** What an update makes of the status of the entry. *)
Definition update_status (u : LogUpdate) : option LogStatus :=
  match u with UFailure _ | Failure2 _ _ => Some Failure | USuccess => Some Success | _ => None end.
(** An answer leaves the status of the entry alone; an error fails it and counts
    once, unless the response could not be read. *)
Definition answer_accounted (to_body : ChatError -> ErrorBody) (e : Effects Body) : Prop :=
  match reply e with
  | Ok _ => errors e = 0 /\ Forall (fun u => update_status u = None) (updates e)
  | Err r => (errors e = 1 /\ exists u, updates e = [u] /\ update_status u = Some Failure) \/
             (errors e = 0 /\ updates e = [] /\ exists x, r = (500, to_body (read_error x)))
  end.
Class InterfaceLaws (i : Interface) : Prop := {
  answer_law : forall convert chunks e, answer i convert chunks = Ret e -> answer_accounted (chat_body i) e;
}.

(** ** One request *)

Section request.
Context (i : Interface) (fuel : nat) (limit : LogsLimit) (config : KeyConfig) (ext_token : ExtToken).
Context (model_id : string) (stream : bool) (request_time : Z) (checks_usage : bool).
Context (send : bytes -> result SendError (list Chunk)).

(** The entry of the log, if the log is kept. *)
Definition register (s : AppState) : option (outcome (Z * AppState)) :=
  if should_log limit then
    match start_request fuel limit (request_log s) request_time model_id ext_token stream with
    | Some (Ret (next_id, mgr)) => Some (Ret (next_id, mkApp (counters s) mgr))
    | Some Panic => Some Panic
    | Some Undef => Some Undef
    | None => None
    end
  else Some (Ret (0, s)).

Definition fail_request (current_id : Z) (error : ErrorInfo) (s : AppState) : AppState :=
  count increment_error (count decrement_active (note current_id [UFailure error] s)).

(** The reply, and whether the check of the usage is started, which is done behind
    the last event of a stream. *)
Definition respond (current_id : Z) (s : AppState) : outcome (result (Z * ErrorBody) Body * bool * AppState) :=
  '(disable_vision, enable_slow_pool) ← encode_flags config;
  encoded ← encode i disable_vision enable_slow_pool;
  match encoded with
  | Err e => Ret (Err (adapter_tuple i e), false, fail_request current_id (Adapter.to_log_error e) s)
  | Ok hex_data =>
      match send hex_data with
      | Err e =>
          let status_code := if is_timeout e then 504 else 500 in
          Ret (Err (status_code, chat_body i (RequestFailed (send_text e))), false,
               fail_request current_id (Simple (from_bytes (send_text e))) s)
      | Ok chunks =>
          let s := count decrement_active (note current_id [USuccess] s) in
          convert ← convert_web_ref config;
          e ← answer i convert chunks;
          Ret (reply e,
               match reply e with Ok (Whole _) => should_log limit && checks_usage | _ => false end,
               count_errors (errors e) (note current_id (updates e) s))
      end
  end.

Definition serve (s : AppState) : option (outcome (result (Z * ErrorBody) Body * bool * AppState)) :=
  let s := count increment_active (count increment_total s) in
  match register s with
  | Some (Ret (current_id, s)) => Some (respond current_id s)
  | Some Panic => Some Panic
  | Some Undef => Some Undef
  | None => None
  end.
End request.

(** ** The two handlers *)

Definition CHATCMPL_PREFIX : string := "chatcmpl-".
Definition MSG01_PREFIX : string := "msg_01".
(** [MessageId::to_str] of the identifier of the request. *)
Definition message_id (msg_id : Z) : string := from_bytes (encode_fixed msg_id (repeat 0 22)).

(** [openai::ChatRequest]. *)
Record ChatRequest : Type := mkChatRequest
  { q_model : bytes; q_messages : list OpenAiMessage; q_stream : bool; q_include_usage : option bool }.

Definition without_state {A} (m : adapt A) (f : Fresh) : outcome (result AdapterError A) :=
  r ← m f; Ret (match r with Ok (a, _) => Ok a | Err e => Err e end).

Section handlers.
Context (b64_decode : bytes -> option bytes) (load_image : ImageFormat -> bytes -> option (Z * Z)).
Context (second_frame : bool -> bytes -> bool) (guess_format : bytes -> option ImageFormat).
Context (http_get : bytes -> option (option bytes)) (url_scheme : bytes -> option bytes).
Context (gunzip : bytes -> option bytes) (decode_wrapper : bytes -> option (option Response)).
Context (cursor_error : bytes -> option CursorError) (delay : nat -> Z) (print : json -> bytes).
Context (parse_input : string -> option (list (string * json))).
Context `{Prost StreamUnifiedChatRequest} `{Gzip}.
(** The settings, the registry of models, and the values drawn for the request. *)
Context (g : AppConfig) (fill_mode : ContextFillMode) (default_instructions : bytes) (tags : string * string).
Context (ext_model : bytes -> outcome (option ExtModel)) (find_id : bytes -> option bytes).
Context (supply : nat -> bytes) (start msg_id created : Z) (msg_uuid : bytes) (time : f64) (usage : option ChainUsage).

Definition openai_interface (request : ChatRequest) (model : ExtModel) (environment_info : EnvironmentInfo) : Interface :=
  mkInterface adapter_openai_tuple chat_to_openai
    (fun disable_vision enable_slow_pool =>
       without_state (AdapterOpenai.encode_create_params b64_decode load_image second_frame guess_format http_get url_scheme
         supply g fill_mode default_instructions start model msg_uuid environment_info disable_vision enable_slow_pool
         (q_messages request)) (mkFresh 0 0))
    (fun convert chunks =>
       let cx := AnswerOpenai.mkSettings (CHATCMPL_PREFIX +:+ message_id msg_id) (from_bytes (x_id model)) created
                   (default false (q_include_usage request)) tags.1 tags.2 in
       (if q_stream request then AnswerOpenai.answer_stream else AnswerOpenai.answer_once)
         gunzip decode_wrapper cursor_error delay print convert cx time usage chunks).

Definition anthropic_interface (params : AdapterAnthropic.MessageCreateParams) (model : ExtModel)
    (environment_info : EnvironmentInfo) : Interface :=
  mkInterface adapter_anthropic_tuple chat_to_anthropic
    (fun disable_vision enable_slow_pool =>
       without_state (AdapterAnthropic.encode_create_params b64_decode load_image second_frame guess_format http_get
         url_scheme print supply g fill_mode default_instructions start model msg_uuid environment_info disable_vision
         enable_slow_pool params) (mkFresh 0 0))
    (fun convert chunks =>
       let cx := AnswerAnthropic.mkNames (MSG01_PREFIX +:+ message_id msg_id) (from_bytes (x_id model)) in
       if AdapterAnthropic.cp_stream params
       then AnswerAnthropic.answer_stream gunzip decode_wrapper cursor_error delay print convert cx time usage chunks
       else AnswerAnthropic.answer_once gunzip decode_wrapper cursor_error delay print parse_input convert cx time usage chunks).

Context (fuel : nat) (limit : LogsLimit) (request_time : Z) (send : bool -> bytes -> result SendError (list Chunk)).

Definition checks_usage (model : ExtModel) (config : KeyConfig) : bool :=
  is_usage_check model (usage_check g) (usage_from_proto find_id <$> c_usage_check_models config).

Definition handle_chat_completions (x : Extensions) (request : ChatRequest) (s : AppState)
    : option (outcome (result (Z * ErrorBody) Body * bool * AppState)) :=
  match chat_completions_inputs ext_model x (q_model request) (length (q_messages request)) with
  | Ret (Ok ((ext_token, use_pri, model, config, environment_info), _)) =>
      serve (openai_interface request model environment_info) fuel limit config ext_token (from_bytes (x_id model))
        (q_stream request) request_time (checks_usage model config) (send use_pri) s
  | Ret (Err e) => Some (Ret (Err e, false, s))
  | Panic => Some Panic
  | Undef => Some Undef
  end.
Definition handle_messages (x : Extensions) (params : AdapterAnthropic.MessageCreateParams) (s : AppState)
    : option (outcome (result (Z * ErrorBody) Body * bool * AppState)) :=
  match messages_inputs ext_model x (AdapterAnthropic.cp_model params) (AdapterAnthropic.cp_thinking params)
          (length (AdapterAnthropic.cp_messages params)) with
  | Ret (Ok ((ext_token, use_pri, model, config, environment_info), _)) =>
      serve (anthropic_interface params model environment_info) fuel limit config ext_token (from_bytes (x_id model))
        (AdapterAnthropic.cp_stream params) request_time (checks_usage model config) (send use_pri) s
  | Ret (Err e) => Some (Ret (Err e, false, s))
  | Panic => Some Panic
  | Undef => Some Undef
  end.
End handlers.

(** ** The law of the interface, for both services *)

Definition keeps_status (us : list LogUpdate) : Prop := Forall (fun u => update_status u = None) us.

Section accounted.
Context (gunzip : bytes -> option bytes) (decode_wrapper : bytes -> option (option Response)).
Context (cursor_error : bytes -> option CursorError) (delay : nat -> Z).
Context (convert_web_ref : bool) (time : f64) {S W : Type} (r : Renderer S W).

Lemma first_accounted chunks : forall d e,
  first_result gunzip decode_wrapper cursor_error delay convert_web_ref time r d chunks = Ret (Err e) ->
  answer_accounted (to_body r) e.
Proof using.
  induction chunks as [|[c|x] chunks IH]; intros d e; cbn [first_result]; destruct (is_first_result_ready d); try discriminate.
  - intros [= <-]. left. split; [done|]. by eexists.
  - destruct (decode _ _ _ _ d c convert_web_ref) as [[[ms|[error|]] d']| |]; cbn [mbind outcome_bind];
      try discriminate; try apply IH.
    intros (ce & _ & E)%bind_Ret. apply bind_Ret in E as (st & _ & E). apply bind_Ret in E as (b & _ & E).
    injection E as <-. left. split; [done|]. by eexists.
  - intros [= <-]. right. split_and!; [done..|]. by exists x.
Qed.
Lemma collect_accounted {A} (take : bool -> A -> list StreamMessage -> A) chunks : forall d acc e,
  collect_chunks gunzip decode_wrapper cursor_error delay convert_web_ref r take d acc chunks = Ret (Err e) ->
  answer_accounted (to_body r) e.
Proof using.
  induction chunks as [|[c|x] chunks IH]; intros d acc e; cbn [collect_chunks]; try discriminate.
  - destruct (decode _ _ _ _ d c convert_web_ref) as [[[ms|[error|]] d']| |]; cbn [mbind outcome_bind];
      try discriminate; try apply IH.
    intros (ce & _ & E)%bind_Ret. apply bind_Ret in E as (st & _ & E). apply bind_Ret in E as (b & _ & E).
    injection E as <-. left. split; [done|]. by eexists.
  - intros [= <-]. right. split_and!; [done..|]. by exists x.
Qed.

Context (render_keeps : forall st ms, keeps_status (process_messages r st ms).1.2).
Context (upstream_keeps : forall st c res, on_upstream r st c = Ret res -> keeps_status res.1.2).

Lemma later_chunk_keeps st d c res :
  later_chunk gunzip decode_wrapper cursor_error delay convert_web_ref r st d c = Ret (Some res) -> keeps_status res.1.1.1.2.
Proof using render_keeps upstream_keeps.
  destruct c as [c|x]; cbn [later_chunk]; [|intros [= <-]; constructor].
  destruct (decode _ _ _ _ d c convert_web_ref) as [[[ms|[error|]] d']| |]; cbn [mbind outcome_bind]; try discriminate.
  - destruct (take_first_result d') as [first d2].
    pose proof (render_keeps st (default [] first)) as H1.
    destruct (process_messages r st (default [] first)) as [[r1 u1] st1]. pose proof (render_keeps st1 ms) as H2.
    destruct (process_messages r st1 ms) as [[r2 u2] st2]. intros [= <-]. by apply Forall_app.
  - intros (ce & _ & E)%bind_Ret. apply bind_Ret in E as ([[rs us] st'] & Eu & E). injection E as <-.
    by apply upstream_keeps in Eu.
Qed.
Lemma later_keeps chunks : forall st d rs us d',
  later_responses gunzip decode_wrapper cursor_error delay convert_web_ref r st d chunks = Ret (rs, us, d') ->
  keeps_status us.
Proof using render_keeps upstream_keeps.
  induction chunks as [|c chunks IH]; intros st d rs us d'; cbn [later_responses].
  - intros [= <- <- <-]. constructor.
  - intros ([[[[[rs1 us1] st1] d1] dropped]|] & E1 & E)%bind_Ret; [|injection E as <- <- <-; constructor]. apply later_chunk_keeps in E1. cbn [fst snd] in E1.
    destruct dropped; [by injection E as <- <- <-|]. apply bind_Ret in E as ([[rs2 us2] d2] & E2 & E).
    injection E as <- <- <-. apply IH in E2. by apply Forall_app.
Qed.
End accounted.

Lemma render_messages_keeps cx t ms : forall st, keeps_status (AnswerOpenai.render_messages cx t st ms).1.2.
Proof.
  induction ms as [|m ms IH]; intros st; [constructor|]. destruct m as [w|[x|x|x]|x|c|]; cbn [AnswerOpenai.render_messages];
    try apply IH.
  - destruct (AnswerOpenai.thinking_chunks cx st x) as [rs st1]. pose proof (IH st1).
    by destruct (AnswerOpenai.render_messages cx t st1 ms) as [[rs' us] st2].
  - destruct (AnswerOpenai.content_chunks cx st x) as [rs st1]. pose proof (IH st1).
    by destruct (AnswerOpenai.render_messages cx t st1 ms) as [[rs' us] st2].
  - by repeat constructor.
Qed.
Lemma render_events_keeps cx t ms : forall st, keeps_status (AnswerAnthropic.render_events cx t st ms).1.2.
Proof.
  induction ms as [|m ms IH]; intros st; [constructor|].
  destruct m as [w|x|x|c|]; cbn [AnswerAnthropic.render_events]; try apply IH.
  1-3: match goal with |- context [let '(_, _) := ?p in _] => destruct p as [es st1] end;
    pose proof (IH st1); by destruct (AnswerAnthropic.render_events cx t st1 ms) as [[es' us] st2].
  by repeat constructor.
Qed.

Section answers.
Context (gunzip : bytes -> option bytes) (decode_wrapper : bytes -> option (option Response)).
Context (cursor_error : bytes -> option CursorError) (delay : nat -> Z) (print : json -> bytes).
Context (parse_input : string -> option (list (string * json))).
Context (convert : bool) (time : f64) (usage : option ChainUsage).

(** The updates behind the answer. *)
Lemma usage_keeps delays think :
  keeps_status (Delays delays think :: match usage with Some usage => [Usage usage] | None => [] end).
Proof using. destruct usage; by repeat constructor. Qed.

Lemma openai_stream_accounted cx chunks e :
  AnswerOpenai.answer_stream gunzip decode_wrapper cursor_error delay print convert cx time usage chunks = Ret e ->
  answer_accounted chat_to_openai e.
Proof using.
  unfold AnswerOpenai.answer_stream. intros (first & Ef & E)%bind_Ret. destruct first as [[d chunks']|e'].
  - apply bind_Ret in E as ([[rs us] d'] & El & E). apply later_keeps in El.
    + apply bind_Ret in E as (b & _ & E). destruct d' as [d'|]; [|by injection E as <-].
      unfold AnswerOpenai.last_responses in E. destruct (take_content_delays d') as [ds d1].
      destruct (take_thinking_content d1) as [th d2]. apply bind_Ret in E as (l & _ & E). injection E as <-.
      split; [done|]. apply Forall_app. split; [done|apply usage_keeps].
    + intros st ms. apply render_messages_keeps.
    + intros st c res (b & _ & E')%bind_Ret. apply bind_Ret in E' as (m & _ & E'). injection E' as <-.
      by repeat constructor.
  - injection E as <-. exact (first_accounted _ _ _ _ _ _ _ _ _ _ Ef).
Qed.
Lemma openai_once_accounted cx chunks e :
  AnswerOpenai.answer_once gunzip decode_wrapper cursor_error delay print convert cx time usage chunks = Ret e ->
  answer_accounted chat_to_openai e.
Proof using.
  unfold AnswerOpenai.answer_once. intros (c & Ec & E)%bind_Ret. destruct c as [[[th text] d]|e'].
  - apply bind_Ret in E as (t & _ & E). destruct (String.eqb t EmptyString).
    + injection E as <-. left. split; [done|]. by eexists.
    + destruct (take_content_delays d) as [ds d1]. destruct (take_thinking_content d1) as [tc d2].
      apply bind_Ret in E as (j & _ & E). injection E as <-. split; [done|by repeat constructor].
  - injection E as <-. exact (collect_accounted _ _ _ _ _ _ _ _ _ _ _ Ec).
Qed.
Lemma anthropic_stream_accounted cx chunks e :
  AnswerAnthropic.answer_stream gunzip decode_wrapper cursor_error delay print convert cx time usage chunks = Ret e ->
  answer_accounted chat_to_anthropic e.
Proof using.
  unfold AnswerAnthropic.answer_stream. intros (first & Ef & E)%bind_Ret. destruct first as [[d chunks']|e'].
  - apply bind_Ret in E as ([[es us] d'] & El & E). apply later_keeps in El.
    + apply bind_Ret in E as (b & _ & E). destruct d' as [d'|]; [|by injection E as <-].
      unfold AnswerAnthropic.last_events in E. destruct (take_content_delays d') as [ds d1].
      destruct (take_thinking_content d1) as [th d2]. apply bind_Ret in E as (l & _ & E). injection E as <-.
      split; [done|]. apply Forall_app. split; [done|apply usage_keeps].
    + intros st ms. apply render_events_keeps.
    + intros st c res (b & _ & E')%bind_Ret. injection E' as <-. constructor.
  - injection E as <-. exact (first_accounted _ _ _ _ _ _ _ _ _ _ Ef).
Qed.
Lemma anthropic_once_accounted cx chunks e :
  AnswerAnthropic.answer_once gunzip decode_wrapper cursor_error delay print parse_input convert cx time usage chunks = Ret e ->
  answer_accounted chat_to_anthropic e.
Proof using.
  unfold AnswerAnthropic.answer_once. intros (c & Ec & E)%bind_Ret. destruct c as [[content d]|e'].
  - destruct (take_content_delays d) as [ds d1]. destruct (take_thinking_content d1) as [tc d2].
    apply bind_Ret in E as (j & _ & E). injection E as <-. split; [done|by repeat constructor].
  - injection E as <-. exact (collect_accounted _ _ _ _ _ _ _ _ _ _ _ Ec).
Qed.
End answers.

#[export] Instance openai_interface_laws a b c d e f g h i j k `{HP : Prost StreamUnifiedChatRequest} `{HG : Gzip}
    cfg fm di tags sup st mid cr uuid time us q model env :
  InterfaceLaws (openai_interface a b c d e f g h i j k cfg fm di tags sup st mid cr uuid time us q model env).
Proof.
  split. intros convert chunks r. cbn [openai_interface answer chat_body]. destruct (q_stream q).
  - apply openai_stream_accounted.
  - apply openai_once_accounted.
Qed.
#[export] Instance anthropic_interface_laws a b c d e f g h i j k l `{HP : Prost StreamUnifiedChatRequest} `{HG : Gzip}
    cfg fm di sup st mid uuid time us params model env :
  InterfaceLaws (anthropic_interface a b c d e f g h i j k l cfg fm di sup st mid uuid time us params model env).
Proof.
  split. intros convert chunks r. cbn [anthropic_interface answer chat_body]. destruct (AdapterAnthropic.cp_stream params).
  - apply anthropic_stream_accounted.
  - apply anthropic_once_accounted.
Qed.

(** ** The account of a request *)

(** The fields that no update but those of the profile and the answer change. *)
Definition status_after (us : list LogUpdate) (s : LogStatus) : LogStatus :=
  foldl (fun s u => default s (update_status u)) s us.
Lemma apply_status u l : log_status (apply_update u l) = default (log_status l) (update_status u).
Proof. by destruct u. Qed.
Definition noted (us : list LogUpdate) (l : RequestLog) : RequestLog := foldl (fun l u => apply_update u l) l us.
Lemma noted_status us : forall l, log_status (noted us l) = status_after us (log_status l).
Proof.
  induction us as [|u us IH]; intros l; [done|].
  change (noted (u :: us) l) with (noted us (apply_update u l)). by rewrite IH, apply_status.
Qed.
Lemma noted_id us : forall l, log_id (noted us l) = log_id l.
Proof.
  induction us as [|u us IH]; intros l; [done|].
  change (noted (u :: us) l) with (noted us (apply_update u l)). rewrite IH. by destruct u.
Qed.
Lemma status_kept us s : keeps_status us -> status_after us s = s.
Proof.
  intros H. revert s. induction H as [|u us Hu _ IH]; intros s; [done|].
  change (status_after (u :: us) s) with (status_after us (default s (update_status u))). by rewrite Hu, IH.
Qed.

(** Updates of the newest entry. *)
Lemma note_newest old l i us mgr c : Forall (fun x => log_id x < i) old -> log_id l = i -> ids_sorted (old ++ [l]) ->
  logs mgr = old ++ [l] ->
  logs (request_log (note i us (mkApp c mgr))) = old ++ [noted us l].
Proof.
  intros Ho Hi Hs El. unfold note. cbn [request_log]. revert l mgr Hi Hs El.
  induction us as [|u us IH]; intros l mgr Hi Hs El; [done|].
  change (noted (u :: us) l) with (noted us (apply_update u l)). cbn [foldl].
  assert (logs (update_log i u mgr) = old ++ [apply_update u l]) as E.
  { rewrite update_sorted by (by rewrite El). rewrite El, fmap_app. cbn [fmap list_fmap].
    rewrite Hi, Z.eqb_refl. f_equal. rewrite <- (list_fmap_id old) at 2. apply list_fmap_ext. intros n x Hx.
    apply list_elem_of_lookup_2 in Hx. rewrite Forall_forall in Ho. specialize (Ho x Hx).
    by rewrite (proj2 (Z.eqb_neq _ _)) by lia. }
  assert (log_id (apply_update u l) = log_id l) as Eid by (by destruct u).
  apply IH; [congruence| |done]. unfold ids_sorted in *. rewrite fmap_app in *. cbn [fmap list_fmap] in *. by rewrite Eid.
Qed.

Lemma note_note i us1 us2 f s :
  request_log (note i us2 (count f (note i us1 s))) = request_log (note i (us1 ++ us2) s).
Proof. cbn. by rewrite foldl_app. Qed.
Lemma noted_fixed us : forall l, let l' := noted us l in
  log_id l' = log_id l /\ timestamp l' = timestamp l /\ model l' = model l /\ LogManager.stream l' = LogManager.stream l /\
  log_token_key l' = log_token_key l.
Proof.
  induction us as [|u us IH]; intros l; [done|]. cbv zeta.
  change (noted (u :: us) l) with (noted us (apply_update u l)). destruct (IH (apply_update u l)) as (-> & -> & -> & -> & ->).
  by destruct u.
Qed.

(** The counters and the log before a request. *)
Record ready (fuel : nat) (n : Z) (s : AppState) : Prop := {
  rd_limit : 1 <= n < 2 ^ 64;
  rd_log : log_wf (request_log s);
  rd_fuel : (length (logs (request_log s)) < fuel)%nat;
  rd_sorted : ids_sorted (logs (request_log s));
  rd_ids : Forall (fun log => 0 <= log_id log < 2 ^ 64 - 1) (logs (request_log s));
  rd_total : 0 <= total_requests (counters s) < 2 ^ 64 - 1;
  rd_active : 0 <= active_requests (counters s) < 2 ^ 64 - 1;
  rd_error : 0 <= error_requests (counters s) < 2 ^ 64 - 1;
}.

(** What a reply goes with: whether the usage is checked, the errors that are counted
    and the status of the entry. *)
Definition accounted (to_body : ChatError -> ErrorBody) (checks : bool) (reply : result (Z * ErrorBody) Body)
    (spawned : bool) (e : Z) (status : LogStatus) : Prop :=
  match reply with
  | Ok body => e = 0 /\ status = Success /\ spawned = match body with Whole _ => checks | Unfinished _ => false end
  | Err r => spawned = false /\
      ((e = 1 /\ status = Failure) \/ (e = 0 /\ status = Success /\ exists x, r = (500, to_body (read_error x))))
  end.

Section account.
Context (i : Interface) `{!InterfaceLaws i} (fuel : nat) (limit : LogsLimit) (config : KeyConfig) (token : ExtToken).
Context (model_id : string) (stream : bool) (time : Z) (checks : bool) (send : bytes -> result SendError (list Chunk)).

Lemma respond_accounted id s reply spawned s' :
  respond i limit config checks send id s = Ret (reply, spawned, s') ->
  exists us e, request_log s' = request_log (note id us s) /\
    counters s' = counters (count_errors e (count decrement_active s)) /\
    accounted (chat_body i) (should_log limit && checks) reply spawned e (status_after us Pending).
Proof using InterfaceLaws0.
  unfold respond. intros ([v p] & Ef & E)%bind_Ret. apply bind_Ret in E as ([hex|err] & _ & E).
  - destruct (send hex) as [chunks|err].
    + apply bind_Ret in E as (conv & _ & E). apply bind_Ret in E as (eff & Ea & E). injection E as <- <- <-.
      apply answer_law in Ea. unfold answer_accounted in Ea.
      exists (USuccess :: updates eff), (errors eff). destruct (reply eff) as [bs|r] eqn:Er.
      * destruct Ea as [-> Hk]. split_and!; [done|done|]. split_and!; [done| |by destruct bs].
        by apply (status_kept _ Success) in Hk.
      * destruct Ea as [(-> & u & -> & Hu)|(-> & -> & x & ->)].
        -- split_and!; [done|done|]. split; [done|]. left. split; [done|]. cbn. by rewrite Hu.
        -- split_and!; [done|done|]. split; [done|]. right. split_and!; [done|done|]. by exists x.
    + injection E as <- <- <-. exists [UFailure (Simple (from_bytes (send_text err)))], 1. split_and!; [done|done|]. split; [done|by left].
  - injection E as <- <- <-. exists [UFailure (Adapter.to_log_error err)], 1. split_and!; [done|done|]. split; [done|by left].
Qed.

(** What a request needs to be answered: the settings it reads, a conversion that
    returns, and an answer that returns for what the upstream service sends. *)
Definition answerable : Prop :=
  exists v p encoded, encode_flags config = Ret (v, p) /\ encode i v p = Ret encoded /\
    forall hex_data chunks, encoded = Ok hex_data -> send hex_data = Ok chunks ->
      exists convert, convert_web_ref config = Ret convert /\ returns (answer i convert chunks).

Lemma respond_returns id s : returns (respond i limit config checks send id s) <-> answerable.
Proof using.
  unfold respond. split.
  - intros [r ([v p] & Ef & E)%bind_Ret]. apply bind_Ret in E as (encoded & Ee & E). exists v, p, encoded.
    split_and!; [done..|]. intros hex chunks -> Hs. rewrite Hs in E. apply bind_Ret in E as (c & Ec & E).
    apply bind_Ret in E as (eff & Ea & _). exists c. split; [done|by exists eff].
  - intros (v & p & encoded & -> & Ee & H). cbn [mbind outcome_bind]. rewrite Ee. cbn [mbind outcome_bind].
    destruct encoded as [hex|err]; [|by eexists]. destruct (send hex) as [chunks|err] eqn:Es; [|by eexists].
    destruct (H hex chunks eq_refl Es) as (c & -> & [e Ea]). cbn [mbind outcome_bind]. rewrite Ea. by eexists.
Qed.
End account.

Lemma counters_accounted c mgr e : e = 0 \/ e = 1 ->
  0 <= total_requests c < 2 ^ 64 - 1 -> 0 <= active_requests c < 2 ^ 64 - 1 -> 0 <= error_requests c < 2 ^ 64 - 1 ->
  counters (count_errors e (count decrement_active (mkApp (increment_active (increment_total c)) mgr))) =
    mkCounters (total_requests c + 1) (active_requests c) (error_requests c + e).
Proof.
  intros He Ht Ha Hr. destruct c as [t a r]. cbn -[wrap] in *.
  assert (wrap 64 (t + 1) = t + 1) as Et by (apply wrap_small; unfold in_uint; lia).
  assert (wrap 64 (wrap 64 (a + 1) - 1) = a) as Ea.
  { rewrite (wrap_small 64 (a + 1)) by (unfold in_uint; lia). replace (a + 1 - 1) with a by lia.
    apply wrap_small. unfold in_uint. lia. }
  destruct He as [-> | ->]; unfold count_errors; [change (Z.to_nat 0) with O|change (Z.to_nat 1) with 1%nat]; cbn -[wrap];
    unfold increment_error, decrement_active, increment_active, increment_total;
    cbn [total_requests active_requests error_requests]; rewrite Et, Ea; f_equal; [lia|].
  apply wrap_small. unfold in_uint. lia.
Qed.

(** C30: the account of a request that the log takes on.  The handler always ends, and
    it comes to a reply exactly when the request is [answerable]: the settings it reads
    are there, its conversion returns, and so does its answer for what the upstream
    service sends; else it panics or is undefined.  With a reply the request has counted once, the number of
    active requests is what it was before, and the log has exactly one entry more,
    behind those the limit keeps, for its model, time and token.  A body, complete or
    cut off by a stream that hangs, leaves the entry a success and counts no error;
    the check of the usage is started behind a complete body only.  An error fails the
    entry and counts once, except that a response that cannot be read is answered with
    status 500 while the entry stays a success and nothing is counted. *)
Theorem request_accounted i `{!InterfaceLaws i} fuel n config token model_id stream time checks send s :
  ready fuel n s ->
  (exists o, serve i fuel (Limited n) config token model_id stream time checks send s = Some o /\
     (returns o <-> answerable i config send)) /\
  (forall reply spawned s',
     serve i fuel (Limited n) config token model_id stream time checks send s = Some (Ret (reply, spawned, s')) ->
     exists entry e,
       counters s' = mkCounters (total_requests (counters s) + 1) (active_requests (counters s))
                       (error_requests (counters s) + e) /\
       logs (request_log s') = kept n (logs (request_log s)) entry /\
       log_id entry = next_log_id (request_log s) /\ timestamp entry = time /\ model entry = model_id /\
       LogManager.stream entry = stream /\ log_token_key entry = token_key (primary_token token) /\
       accounted (chat_body i) checks reply spawned e (log_status entry)).
Proof.
  intros [Hn Hw Hf Hs Hi Ht Ha He].
  destruct (start_request_spec fuel n (request_log s) time model_id token stream Hn Hw Hf Hs Hi)
    as (mgr' & Es & _ & El & Hs' & Hlt).
  unfold serve, register. cbn [should_log request_log count]. rewrite Es. cbn [counters].
  split.
  - eexists. split; [reflexivity|]. apply respond_returns.
  - intros reply spawned s' [= Er]. apply respond_accounted in Er as (us & e & Elog & Ec & Hacc); [|done].
    set (new := new_log (next_log_id (request_log s)) time model_id token stream) in *.
    assert (e = 0 \/ e = 1) as Hez by (destruct reply; [destruct Hacc as [-> _]|destruct Hacc as [_ [[-> _]|[-> _]]]]; auto).
    exists (noted us new), e. cbn [should_log andb] in Hacc. destruct (noted_fixed us new) as (E1 & E2 & E3 & E4 & E5). split_and!.
    + rewrite Ec. by apply counters_accounted.
    + rewrite Elog. unfold kept in El |- *.
      apply (note_newest _ new); [by apply Forall_drop|done|by rewrite <- El|done].
    + by rewrite E1.
    + by rewrite E2.
    + by rewrite E3.
    + by rewrite E4.
    + by rewrite E5.
    + by rewrite noted_status.
Qed.

Definition example_interface : Interface :=
  mkInterface adapter_openai_tuple chat_to_openai (fun _ _ => Ret (Ok []))
    (fun convert chunks => AnswerOpenai.answer_once no_gzip thinking_wrapper no_error no_delay compact convert
       (AnswerOpenai.example_settings false) (S754_zero false) None chunks).
#[export] Instance example_interface_laws : InterfaceLaws example_interface.
Proof. split. intros convert chunks e. cbn [example_interface answer chat_body]. apply openai_once_accounted. Qed.
Definition example_app : AppState := mkApp (counters_load log_manager_new) log_manager_new.
Definition example_config : KeyConfig := mkKeyConfig None (Some false) (Some false) (Some false).
(** An upstream answer without content, and one that cannot be read. *)
Definition example_send (hex_data : bytes) : result SendError (list Chunk) := Ok [Ok (chunk_of [end_frame])].

Lemma request_accounted_witness :
  exists reply spawned s' entry,
    serve example_interface 1 (Limited 5) example_config (bundle (sample 1)) "default" false 7 true example_send example_app =
      Some (Ret (reply, spawned, s')) /\
    counters s' = mkCounters 1 0 1 /\ logs (request_log s') = [entry] /\ log_status entry = Failure.
Proof.
  assert (ready 1 5 example_app) as Hr by (split; [lia|apply log_wf_new|cbn; lia|exact (Sorted.SSorted_nil _)|exact (Forall_nil_2 _)|by_decision..]).
  destruct (request_accounted example_interface 1 5 example_config (bundle (sample 1)) "default" false 7 true example_send
    example_app Hr) as [_ H].
  destruct (serve example_interface 1 (Limited 5) example_config (bundle (sample 1)) "default" false 7 true example_send
    example_app) as [[[[reply spawned] s']| |]|] eqn:E; [|vm_compute in E; discriminate..].
  exists reply, spawned, s'. destruct (H _ _ _ eq_refl) as (entry & e & Hc & Hl & _ & _ & _ & _ & _ & Ha).
  exists entry. split; [done|]. vm_compute in E. injection E as <- <- <-. destruct Ha as [_ [[-> Hs]|(_ & _ & x & Hx)]].
  - by split_and!.
  - vm_compute in Hx. discriminate.
Defined.

(** ** Counting tokens *)

(** [GetPromptDryRunResponse]: the number of tokens of each optional count. *)
Record DryRun : Type := mkDryRun
  { user_message_token_count : option (option Z); full_conversation_token_count : option (option Z) }.
Definition counted_tokens (response : DryRun) : Z :=
  match full_conversation_token_count response with
  | Some (Some t) => t
  | _ => match user_message_token_count response with Some (Some t) => t | _ => 0 end
  end.
Definition count_tokens_json (input_tokens : Z) : outcome json := object (field "input_tokens" input_tokens).
Definition UPSTREAM_FAILURE : Z := 533.

Section count_tokens.
Context (b64_decode : bytes -> option bytes) (load_image : ImageFormat -> bytes -> option (Z * Z)).
Context (second_frame : bool -> bytes -> bool) (guess_format : bytes -> option ImageFormat).
Context (http_get : bytes -> option (option bytes)) (url_scheme : bytes -> option bytes).
Context (dry_run_decode : bytes -> option DryRun) (is_valid_utf8 : bytes -> bool) (cursor_error : bytes -> option CursorError).
Context (print : json -> bytes) `{Prost StreamUnifiedChatRequest} `{Gzip}.
Context (g : AppConfig) (fill_mode : ContextFillMode) (default_instructions : bytes).
Context (ext_model : bytes -> outcome (option ExtModel)) (supply : nat -> bytes) (start : Z) (msg_uuid : bytes).
Context (send : bool -> bytes -> result SendError bytes).

(** What the collected bytes of the response become. *)
Definition count_tokens_reply (response : result SendError bytes) : outcome (result (Z * ErrorBody) bytes) :=
  match response with
  | Ok resp =>
      match dry_run_decode resp with
      | Some response => j ← count_tokens_json (counted_tokens response); Ret (Ok (print j))
      | None =>
          match (if is_valid_utf8 resp then cursor_error resp else None) with
          | Some error =>
              canonical ← canonical error;
              status ← c_http_status canonical;
              e ← canonical_into_anthropic print canonical;
              Ret (Err (status, wrapped e))
          | None => Ret (Err (UPSTREAM_FAILURE, chat_to_anthropic EmptyMessages))
          end
      end
  | Err e => Ret (Err (if is_timeout e then 504 else 500, chat_to_anthropic (RequestFailed (send_text e))))
  end.

Definition handle_messages_count_tokens (x : Extensions) (params : AdapterAnthropic.MessageCreateParams)
    : outcome (result (Z * ErrorBody) bytes) :=
  r ← count_tokens_inputs ext_model x (AdapterAnthropic.cp_model params) (AdapterAnthropic.cp_thinking params)
        (length (AdapterAnthropic.cp_messages params));
  match r with
  | Err e => Ret (Err e)
  | Ok ((_, use_pri, model, _, environment_info), (disable_vision, enable_slow_pool)) =>
      encoded ← without_state (AdapterAnthropic.encode_create_params b64_decode load_image second_frame guess_format
                  http_get url_scheme print supply g fill_mode default_instructions start model msg_uuid environment_info
                  disable_vision enable_slow_pool params) (mkFresh 0 0);
      match encoded with
      | Err e => Ret (Err (adapter_anthropic_tuple e))
      | Ok hex_data => count_tokens_reply (send use_pri hex_data)
      end
  end.
End count_tokens.

(** The reply to a count, on every branch; a body that is neither a count nor an
    error of the upstream service is answered with the text of an empty request. *)
Theorem count_tokens_outcome dry_run_decode is_valid_utf8 cursor_error print response :
  let reply := count_tokens_reply dry_run_decode is_valid_utf8 cursor_error print response in
  match response with
  | Err e => reply = Ret (Err (if is_timeout e then 504 else 500, chat_to_anthropic (RequestFailed (send_text e))))
  | Ok resp =>
      match dry_run_decode resp, is_valid_utf8 resp, cursor_error resp with
      | Some r, _, _ => reply = Ret (Ok (print (JObj [("input_tokens"%string, JInt (counted_tokens r))])))
      | None, true, Some error => exists ce e, canonical error = Ret ce /\ canonical_into_anthropic print ce = Ret e /\
          reply = Ret (Err (c_status_code ce, AnthropicBody (ae_type e) (ae_message e)))
      | None, _, _ => reply = Ret (Err (533, AnthropicBody "empty_messages" "Message array cannot be empty"))
      end
  end.
Proof.
  cbv zeta. destruct response as [resp|e]; [|done]. unfold count_tokens_reply.
  destruct (dry_run_decode resp) as [r|]; [done|]. destruct (is_valid_utf8 resp); [|done].
  destruct (cursor_error resp) as [error|]; [|done]. destruct (canonical_total error) as [ce Ec].
  destruct (AnswerAnthropic.anthropic_error_total print ce) as [e Ee]. exists ce, e.
  rewrite Ec. cbn [mbind outcome_bind]. rewrite (canonical_http _ _ Ec). cbn [mbind outcome_bind]. by rewrite Ee.
Qed.
