(* ===== verification/UsageTask.v ===== *)
(** * What a chat request leaves running

    The task that both chat handlers of [src/src/core/service.rs] start behind an
    answer: it fetches the profile of the token, puts it into the entry of the log
    and into the token, and names an unnamed token after its user.  The manager is
    locked anew for each step; what other requests do between the steps is the
    argument [between], a run of the operations of [TokenManager] each time.

    And the counters of [src/src/app/model/state.rs] as a state machine of requests that
    begin, end or are dropped by the server because their connection closes. *)
From S2P Require Import Prelude Strings TokenKey RawToken TokenInfo Profile TokenQueue TokenManager LogManager TokenRoutes.
From S2P Require Import ChatService.

(** ** The check of the usage *)

(** The update of the entry of the log. *)
Definition profile_update (n : NetProfile) : LogUpdate :=
  let '(usage, stripe, user, _) := get_token_profile false n in TokenProfile user usage stripe.

(** Under the read lock: the index of the token, its alias. *)
Definition find_token (key : TokenKey) (m : TokenManager) : option nat := id_map m !! key.
Definition alias_is_unnamed (id : nat) (m : TokenManager) : outcome bool :=
  slot ← get_unchecked (id_to_alias m) id;
  alias ← unchecked slot;
  Ret (is_unnamed alias).
(** Under the write lock: the profile, and the alias to give. *)
Definition store_profile (id : nat) (unnamed : bool) (n : NetProfile) (m : TokenManager)
    : outcome (TokenManager * option (nat * string)) :=
  let p := get_token_profile false n in
  let alias_updater :=
    if unnamed then user ← p.1.2; alias ← user_alias user; Some (id, alias) else None in
  m ← update_token m id (with_profile p);
  Ret (m, alias_updater).
Definition rename_token (alias_updater : option (nat * string)) (m : TokenManager) : outcome TokenManager :=
  match alias_updater with
  | Some (id, alias) => r ← set_alias m id alias; Ret (snd r)
  | None => Ret m
  end.

Definition usage_task (key : TokenKey) (n : NetProfile) (between : nat -> list op) (w : World) : outcome World :=
  match find_token key (mgr w) with
  | None => Ret w
  | Some id =>
      w ← exec_all (between 0%nat) w;
      unnamed ← alias_is_unnamed id (mgr w);
      w ← exec_all (between 1%nat) w;
      '(m, alias_updater) ← store_profile id unnamed n (mgr w);
      w ← exec_all (between 2%nat) (mkWorld m (TokenManager.heads w));
      m ← rename_token alias_updater (mgr w);
      Ret (mkWorld m (TokenManager.heads w))
  end.

(** The alias the token has afterwards, if nothing comes between. *)
Definition new_alias (id : nat) (alias : string) (n : NetProfile) (m : TokenManager) : string :=
  match (if is_unnamed alias then user ← (get_token_profile false n).1.2; user_alias user else None) with
  | Some name => if decide (is_Some (alias_map m !! resolve_alias name id)) then alias else resolve_alias name id
  | None => alias
  end.

(** ** Requests under way *)

(** [begun] requests have increased the counter and not yet reached the end; of
    these [dropped] never will: the server drops the handler where it waits. *)
Record Traffic : Type := mkTraffic { tr_counters : Counters; begun : nat; dropped : nat }.
Inductive traffic_step : Traffic -> Traffic -> Prop :=
| step_begin c b d : traffic_step (mkTraffic c b d) (mkTraffic (increment_active (increment_total c)) (S b) d)
| step_end c b d : (d < b)%nat -> traffic_step (mkTraffic c b d) (mkTraffic (decrement_active c) (pred b) d)
| step_fail c b d : (d < b)%nat ->
    traffic_step (mkTraffic c b d) (mkTraffic (increment_error (decrement_active c)) (pred b) d)
| step_drop c b d : (d < b)%nat -> traffic_step (mkTraffic c b d) (mkTraffic c b (S d)).

(** ** Lemmas *)

Lemma with_profile_key p t : info_key (with_profile p t) = info_key t.
Proof. by destruct p as [[[usage stripe] user] sess]. Qed.

Lemma found_entry m key id : manager_wf m -> find_token key m = Some id ->
  exists a t, entry m id = Some (a, t) /\ info_key t = key.
Proof.
  intros Hm H. apply (mw_ids m Hm) in H as (t & Ht & Hk). destruct (live_entry m id t Hm Ht) as [a Ha]. eauto.
Qed.
Lemma unnamed_of m id a t : entry m id = Some (a, t) -> alias_is_unnamed id m = Ret (is_unnamed a).
Proof.
  intros H. apply entry_Some in H as [_ Ha]. unfold alias_is_unnamed, get_unchecked. by rewrite Ha.
Qed.
Lemma store_spec m id a t n unnamed : manager_wf m -> entry m id = Some (a, t) ->
  exists m', store_profile id unnamed n m =
      Ret (m', if unnamed then user ← (get_token_profile false n).1.2; alias ← user_alias user; Some (id, alias) else None) /\
    manager_wf m' /\ alias_map m' = alias_map m /\
    forall i, entry m' i = if decide (i = id) then Some (a, with_profile (get_token_profile false n) t) else entry m i.
Proof.
  intros Hm E. destruct (update_token_spec m id a t (with_profile (get_token_profile false n)) Hm E) as (m' & Eu & Hm' & He);
    [apply with_profile_key|].
  exists m'. unfold store_profile. rewrite Eu. split_and!; [done|done| |done].
  unfold update_token in Eu. apply bind_Ret in Eu as (slot & _ & Eu). apply bind_Ret in Eu as (t' & _ & Eu).
  by injection Eu as <-.
Qed.
Lemma rename_spec m id a t name : manager_wf m -> entry m id = Some (a, t) ->
  exists m', rename_token (Some (id, name)) m = Ret m' /\ manager_wf m' /\
    forall i, entry m' i = if decide (i = id)
                           then Some (if decide (is_Some (alias_map m !! resolve_alias name id)) then a else resolve_alias name id, t)
                           else entry m i.
Proof.
  intros Hm E. pose proof (set_alias_spec m id name Hm) as H. rewrite E in H. cbn [rename_token].
  assert (forall i, entry m i = if decide (i = id) then Some (a, t) else entry m i) as Hsame.
  { intros i. case_decide; [by subst|done]. }
  destruct (alias_map m !! resolve_alias name id) as [j|].
  - rewrite H. exists m. split_and!; [done|done|]. rewrite decide_True by eauto. done.
  - destruct H as (m' & -> & Hm' & He & _). exists m'. split_and!; [done|done|].
    rewrite decide_False by (by intros [? ?]). done.
Qed.

Lemma task_alone w key n : world_wf w ->
  match find_token key (mgr w) with
  | None => usage_task key n (fun _ => []) w = Ret w
  | Some id => exists w' a t, entry (mgr w) id = Some (a, t) /\ info_key t = key /\
      usage_task key n (fun _ => []) w = Ret w' /\ world_wf w' /\
      forall i, entry (mgr w') i =
        if decide (i = id) then Some (new_alias id a n (mgr w), with_profile (get_token_profile false n) t)
        else entry (mgr w) i
  end.
Proof.
  intros Hw. pose proof (ww_mgr w Hw) as Hm. unfold usage_task. destruct (find_token key (mgr w)) as [id|] eqn:Ef; [|done].
  destruct (found_entry _ _ _ Hm Ef) as (a & t & E & Hk). cbn [exec_all mbind outcome_bind].
  rewrite (unnamed_of _ _ _ _ E). cbn [mbind outcome_bind].
  destruct (store_spec (mgr w) id a t n (is_unnamed a) Hm E) as (m1 & -> & Hm1 & Ea & He1). cbn [mbind outcome_bind mgr TokenManager.heads].
  assert (entry m1 id = Some (a, with_profile (get_token_profile false n) t)) as E1 by (by rewrite He1, decide_True).
  assert (forall m2 x, manager_wf m2 -> (forall i, entry m2 i = if decide (i = id) then Some x else entry m1 i) ->
    world_wf (mkWorld m2 (TokenManager.heads w)) /\ forall i, entry m2 i = if decide (i = id) then Some x else entry (mgr w) i) as Hfin.
  { intros m2 x Hm2 He2. assert (forall i, entry m2 i = if decide (i = id) then Some x else entry (mgr w) i) as He3.
    { intros i. rewrite He2, He1. by case_decide. }
    split; [|done]. apply world_update; [done|done|]. eapply entry_override_some; [by eexists|exact He3]. }
  assert (match (if is_unnamed a then user ← (get_token_profile false n).1.2; alias ← user_alias user; Some (id, alias) else None) with
    | Some p => exists name, p = (id, name) /\ new_alias id a n (mgr w) =
        (if decide (is_Some (alias_map m1 !! resolve_alias name id)) then a else resolve_alias name id)
    | None => new_alias id a n (mgr w) = a end) as Hnew.
  { unfold new_alias. rewrite Ea. destruct (is_unnamed a); [|done].
    destruct ((get_token_profile false n).1.2) as [u|]; [|done]. cbn [mbind option_bind].
    destruct (user_alias u) as [name|]; [|done]. cbn [mbind option_bind]. by exists name. }
  destruct (if is_unnamed a then _ else None) as [[id' name]|].
  - destruct Hnew as (name' & [= -> ->] & Hnew).
    destruct (rename_spec m1 id a _ name' Hm1 E1) as (m2 & E2 & Hm2 & He2). rewrite E2. cbn [mbind outcome_bind].
    destruct (Hfin m2 _ Hm2 He2) as [Hw2 He]. exists (mkWorld m2 (TokenManager.heads w)), a, t. rewrite Hnew. by split_and!.
  - cbn [rename_token mbind outcome_bind]. destruct (Hfin m1 (a, with_profile (get_token_profile false n) t) Hm1) as [Hw2 He].
    { intros i. case_decide; [by subst|done]. }
    exists (mkWorld m1 (TokenManager.heads w)), a, t. rewrite Hnew. by split_and!.
Qed.

(** ** The theorems *)

(** C31: the check of the usage, with nothing between its steps, ends within defined
    behaviour in every state of the manager.  Without the token it changes nothing;
    otherwise exactly the entry of the token changes: it has the fetched profile and
    keeps its alias, except that an unnamed token is named after its user if that
    name is free. *)
Theorem usage_check_alone w key n :
  world_wf w ->
  match find_token key (mgr w) with
  | None => usage_task key n (fun _ => []) w = Ret w
  | Some id => exists w' a t, entry (mgr w) id = Some (a, t) /\ info_key t = key /\
      usage_task key n (fun _ => []) w = Ret w' /\ world_wf w' /\
      forall i, entry (mgr w') i =
        if decide (i = id) then Some (new_alias id a n (mgr w), with_profile (get_token_profile false n) t)
        else entry (mgr w) i
  end.
Proof. apply task_alone. Qed.

Definition example_user : UserProfile :=
  mkUserProfile 7 (Some "ann@example.com"%string) None None None None None false false (mkPrivacyModeInfo PUnspecified false).
Definition example_net : NetProfile := mkNetProfile None None (Some example_user) None None None.
Lemma usage_check_alone_witness :
  exists w', usage_task (info_key (sample 2)) example_net (fun _ => []) sample_world = Ret w' /\
    world_wf w' /\ (fun e => user e.2) <$> entry (mgr w') 1 <> None.
Proof.
  pose proof (usage_check_alone sample_world (info_key (sample 2)) example_net sample_world_wf) as H.
  replace (find_token (info_key (sample 2)) (mgr sample_world)) with (Some 1%nat) in H by (vm_compute; reflexivity).
  destruct H as (w' & a & t & _ & _ & E & Hw & He). exists w'. split_and!; [exact E|exact Hw|].
  rewrite He. discriminate.
Defined.

(** What may come between the steps of the check.  If the token is removed
    behind the first or the second step, the next one is undefined behaviour, in
    every state; and if another token is added by then it can get the index of the
    removed one, and with it the profile and the name of the other user. *)
Theorem usage_check_race :
  (forall w key n id k, world_wf w -> find_token key (mgr w) = Some id -> k = 0%nat \/ k = 1%nat ->
     usage_task key n (fun i => if (i =? k)%nat then [OpRemove id] else []) w = Undef) /\
  (exists w' t, usage_task (info_key (sample 2)) example_net
      (fun i => if (i =? 0)%nat then [OpRemove 1; OpAdd (sample 9) UNNAMED] else []) sample_world = Ret w' /\
     entry (mgr w') 1 = Some ("ann@example.com"%string, t) /\ info_key t = info_key (sample 9) /\ user t = user
       (with_profile (get_token_profile false example_net) (sample 9))).
Proof.
  split.
  - intros w key n id k Hw Hf Hk. pose proof (ww_mgr w Hw) as Hm. unfold usage_task. rewrite Hf.
    destruct (found_entry _ _ _ Hm Hf) as (a & t & E & _).
    pose proof (remove_spec (mgr w) (TokenManager.heads w) id Hm) as Hrm. rewrite E in Hrm.
    destruct Hrm as (m' & h' & Er & [Hm' He _ _ Hlen]).
    assert (TokenManager.tokens m' !! id = Some None) as Hnone.
    { assert (entry m' id = None) as En by (by rewrite He, decide_True).
      destruct (TokenManager.tokens m' !! id) as [[t'|]|] eqn:Et; [|done|].
      - destruct (live_entry m' id t' Hm' Et) as [a' Ha']. congruence.
      - apply lookup_ge_None in Et. apply entry_Some in E as [Ht _]. apply live_lt in Ht. lia. }
    assert (exec_all [OpRemove id] w = Ret (mkWorld m' h')) as Ex by (cbn; by rewrite Er).
    destruct Hk as [-> | ->]; cbn [Nat.eqb].
    + rewrite Ex. cbn [mbind outcome_bind mgr]. unfold alias_is_unnamed, get_unchecked.
      assert (exists o, id_to_alias m' !! id = Some o) as [o Eo].
      { apply lookup_lt_is_Some_2. rewrite (mw_len m' Hm'). by eapply lookup_lt_Some. }
      rewrite Eo. destruct o as [a'|]; [|done].
      exfalso. destruct (proj1 (mw_slot m' Hm' id) (ex_intro _ a' Eo)) as [t' Ht']. unfold live in Ht'. congruence.
    + change (exec_all [] w) with (Ret w). cbn [mbind outcome_bind]. rewrite (unnamed_of _ _ _ _ E). cbn [mbind outcome_bind].
      rewrite Ex. cbn [mbind outcome_bind mgr]. unfold store_profile, update_token, get_unchecked. by rewrite Hnone.
  - eexists _, _. split; [vm_compute; reflexivity|]. split; [vm_compute; reflexivity|].
    split; vm_compute; reflexivity.
Qed.

Lemma usage_check_race_witness :
  usage_task (info_key (sample 2)) example_net (fun i => if (i =? 1)%nat then [OpRemove 1] else []) sample_world = Undef.
Proof.
  apply (proj1 usage_check_race sample_world (info_key (sample 2)) example_net 1%nat 1%nat sample_world_wf);
    [vm_compute; reflexivity|by right].
Defined.

(** The counter of active requests is the number of requests that have begun and
    not reached their end; a request that the server drops, because its connection
    closes while the handler waits, is counted as active for ever. *)
Theorem dropped_stay_active c t :
  active_requests c = 0 -> rtc traffic_step (mkTraffic c 0 0) t ->
  active_requests (tr_counters t) = wrap 64 (Z.of_nat (begun t)) /\ (dropped t <= begun t)%nat /\
  forall t', rtc traffic_step t t' -> (dropped t <= begun t')%nat.
Proof.
  intros Hc Hr.
  assert (forall x y, traffic_step x y -> (dropped x <= begun x)%nat -> active_requests (tr_counters x) = wrap 64 (Z.of_nat (begun x)) ->
    active_requests (tr_counters y) = wrap 64 (Z.of_nat (begun y)) /\ (dropped y <= begun y)%nat /\ (dropped x <= dropped y)%nat) as Hstep.
  { intros x y [c' b d|c' b d Hd|c' b d Hd|c' b d Hd]; cbn -[wrap]; intros Hle Ha; unfold increment_active, decrement_active;
      cbn -[wrap]; rewrite ?Ha; split_and!; try lia; try done.
    - unfold wrap. rewrite Zplus_mod_idemp_l. f_equal. lia.
    - unfold wrap. rewrite Zminus_mod_idemp_l. f_equal. lia.
    - unfold wrap. rewrite Zminus_mod_idemp_l. f_equal. lia. }
  assert (forall x y, rtc traffic_step x y -> (dropped x <= begun x)%nat -> active_requests (tr_counters x) = wrap 64 (Z.of_nat (begun x)) ->
    active_requests (tr_counters y) = wrap 64 (Z.of_nat (begun y)) /\ (dropped y <= begun y)%nat /\ (dropped x <= dropped y)%nat) as Hrun.
  { induction 1 as [x|x y z Hxy _ IH]; intros Hle Ha; [by split_and!|].
    destruct (Hstep x y Hxy Hle Ha) as (Ha' & Hle' & Hm). destruct (IH Hle' Ha') as (? & ? & ?). split_and!; [done..|lia]. }
  destruct (Hrun _ _ Hr) as (Ha & Hd & _); [done|cbn; by rewrite Hc|].
  split_and!; [done|done|]. intros t' Ht. destruct (Hrun _ _ Ht Hd Ha) as (_ & ? & ?). lia.
Qed.

Lemma dropped_stay_active_witness :
  exists t, rtc traffic_step (mkTraffic (mkCounters 0 0 0) 0 0) t /\ begun t = 1%nat /\ dropped t = 1%nat /\
    active_requests (tr_counters t) = 1.
Proof.
  set (c := increment_active (increment_total (mkCounters 0 0 0))).
  assert (rtc traffic_step (mkTraffic (mkCounters 0 0 0) 0 0) (mkTraffic c 1 1)) as H.
  { eapply rtc_l; [apply step_begin|]. eapply rtc_l; [apply step_drop; lia|]. apply rtc_refl. }
  exists (mkTraffic c 1 1). split_and!; [exact H|reflexivity|reflexivity|].
  exact (proj1 (dropped_stay_active (mkCounters 0 0 0) _ eq_refl H)).
Defined.
