(* ===== verification/Chars.v ===== *)
(** * Texts as characters

    A [str] as the sequence of its characters, for the code that goes through a text
    character by character; [Strings] has the operations on its bytes.  A character
    is its Unicode scalar value. *)
From S2P Require Import Prelude.

Abbreviation text := (list Z) (only parsing).

(** [char::is_whitespace]. *)
Definition is_whitespace (c : Z) : bool :=
  ((9 <=? c) && (c <=? 13)) || (c =? 32) || (c =? 133) || (c =? 160) || (c =? 5760) ||
  ((8192 <=? c) && (c <=? 8202)) || (c =? 8232) || (c =? 8233) || (c =? 8239) || (c =? 8287) || (c =? 12288).

(** [char::len_utf8], and the length of a text in bytes. *)
Definition len_utf8 (c : Z) : Z := if c <? 128 then 1 else if c <? 2048 then 2 else if c <? 65536 then 3 else 4.
Fixpoint text_len (s : text) : Z := match s with [] => 0 | c :: s => len_utf8 c + text_len s end.

(** [String::truncate], at the boundary of a character. *)
Fixpoint truncate (n : Z) (s : text) : text :=
  match s with
  | [] => []
  | c :: s => if n <? len_utf8 c then [] else c :: truncate (n - len_utf8 c) s
  end.

Fixpoint trim_start (s : text) : text :=
  match s with c :: s' => if is_whitespace c then trim_start s' else s | [] => [] end.
Definition trim_end (s : text) : text := rev (trim_start (rev s)).

(** [starts_with] and [ends_with] a character. *)
Definition starts_with (c : Z) (s : text) : bool := match s with c' :: _ => c' =? c | [] => false end.
Definition ends_with (c : Z) (s : text) : bool := starts_with c (rev s).
Definition pop (s : text) : text := rev (tail (rev s)).

(** [split_whitespace]: [word] is the word being read, backwards. *)
Fixpoint words (word s : text) : list text :=
  let flush := match word with [] => [] | _ => [rev word] end in
  match s with
  | [] => flush
  | c :: s => if is_whitespace c then flush ++ words [] s else words (c :: word) s
  end.
Definition split_whitespace (s : text) : list text := words [] s.

(** [split_once] at a character. *)
Fixpoint split_once (sep : Z) (s : text) : option (text * text) :=
  match s with
  | [] => None
  | c :: s => if c =? sep then Some ([], s) else p ← split_once sep s; Some (c :: p.1, p.2)
  end.

(** ** Lemmas *)

Lemma trim_start_nonspace c s : is_whitespace c = false -> trim_start (c :: s) = c :: s.
Proof. cbn. by intros ->. Qed.
Lemma trim_end_nonspace s c : is_whitespace c = false -> trim_end (s ++ [c]) = s ++ [c].
Proof. intros H. unfold trim_end. rewrite rev_app_distr. cbn [rev app]. rewrite trim_start_nonspace by done. cbn [rev]. by rewrite rev_involutive. Qed.
Lemma ends_with_snoc s c d : ends_with d (s ++ [c]) = (c =? d).
Proof. unfold ends_with. by rewrite rev_app_distr. Qed.
Lemma pop_snoc s c : pop (s ++ [c]) = s.
Proof. unfold pop. rewrite rev_app_distr. cbn. apply rev_involutive. Qed.

Lemma words_word w : Forall (fun c => is_whitespace c = false) w -> forall acc s,
  words acc (w ++ s) = words (rev w ++ acc) s.
Proof.
  induction 1 as [|c w Hc _ IH]; intros acc s; [done|]. cbn [app words]. rewrite Hc, IH. cbn [rev]. by rewrite <- app_assoc.
Qed.
(** One word per argument is the case of a shell that splits at spaces. *)
Lemma split_one_word w : w <> [] -> Forall (fun c => is_whitespace c = false) w -> split_whitespace w = [w].
Proof.
  intros Hne Hw. unfold split_whitespace. rewrite <- (app_nil_r w) at 1. rewrite words_word by done. cbn [words].
  rewrite app_nil_r, rev_involutive. destruct (rev w) eqn:E; [|done]. apply (f_equal (@rev Z)) in E. rewrite rev_involutive in E. done.
Qed.
Lemma split_once_char sep a b : Forall (fun c => c <> sep) a -> split_once sep (a ++ sep :: b) = Some (a, b).
Proof.
  induction 1 as [|c a Hc _ IH]; cbn [app split_once]; [by rewrite Z.eqb_refl|].
  rewrite (proj2 (Z.eqb_neq _ _)) by done. by rewrite IH.
Qed.
Lemma split_once_absent sep s : Forall (fun c => c <> sep) s -> split_once sep s = None.
Proof. induction 1 as [|c s Hc _ IH]; [done|]. cbn [split_once]. rewrite (proj2 (Z.eqb_neq _ _)) by done. by rewrite IH. Qed.

(** ** UTF-8 *)

Definition encode_utf8 (c : Z) : bytes :=
  if c <? 128 then [c]
  else if c <? 2048 then [192 + c / 64; 128 + c mod 64]
  else if c <? 65536 then [224 + c / 4096; 128 + (c / 64) mod 64; 128 + c mod 64]
  else [240 + c / 262144; 128 + (c / 4096) mod 64; 128 + (c / 64) mod 64; 128 + c mod 64].
Definition utf8 (s : text) : bytes := s ≫= encode_utf8.

Lemma utf8_ascii s : Forall (fun c => c < 128) s -> utf8 s = s.
Proof.
  induction 1 as [|c s Hc _ IH]; [done|]. unfold utf8 in *. cbn [mbind list_bind]. rewrite IH. unfold encode_utf8.
  by rewrite (proj2 (Z.ltb_lt _ _)).
Qed.
