(* ===== verification/DotEnv.v ===== *)
(** * Files of environment variables

    [src/patch/dotenvy-0.15.7], the project's copy of dotenvy: [parse.rs] (one line),
    [iter.rs] (the lines of a file and loading them into the environment).  The search
    of the file and reading it are left out: a [Reader] is what the calls of
    [read_line] give, one character per scalar value, [None] for a line that is not
    UTF-8.

    The environment maps a name to its value, [None] for a value that is not UTF-8.
    [char::is_alphanumeric] is the parameter of the section: the tables of Unicode. *)
From S2P Require Import Prelude Strings Chars.

Inductive Error : Type := LineParse (line : text) (index : Z) | Io.

Abbreviation Environment := (gmap text (option text)) (only parsing).
(** [env::var]; a name that is empty is never there. *)
Definition var (env : Environment) (key : text) : option text :=
  match key with [] => None | _ => v ← env !! key; v end.
(** [env::set_var] panics on an empty name, [=] in the name and NUL. *)
Definition set_var (key value : text) (env : Environment) : outcome Environment :=
  if (length key =? 0)%nat || existsb (fun c => (c =? 0) || (c =? 61)) key || existsb (Z.eqb 0) value
  then Panic else Ret (<[key := Some value]> env).

Abbreviation SubstitutionData := (gmap text (option text)) (only parsing).

Section parse.
Context (is_alphanumeric : Z -> bool) (env : Environment).

(** ** A value *)

Inductive SubstitutionMode : Type := NoSubstitution | Block | EscapedBlock.
Record ValueState : Type := mkValue
  { strong_quote : bool; weak_quote : bool; escaped : bool; expecting_end : bool;
    output : text; substitution_mode : SubstitutionMode; substitution_name : text }.
Definition value_start : ValueState := mkValue false false false false [] NoSubstitution [].

Definition apply_substitution (data : SubstitutionData) (name output : text) : text :=
  match var env name with
  | Some environment_value => output ++ environment_value
  | None => output ++ default [] (default None (data !! name))
  end.

Definition push (c : Z) (v : ValueState) : ValueState :=
  mkValue (strong_quote v) (weak_quote v) (escaped v) (expecting_end v) (output v ++ [c]) (substitution_mode v) (substitution_name v).
Definition set_strong (b : bool) (v : ValueState) : ValueState :=
  mkValue b (weak_quote v) (escaped v) (expecting_end v) (output v) (substitution_mode v) (substitution_name v).
Definition set_weak (b : bool) (v : ValueState) : ValueState :=
  mkValue (strong_quote v) b (escaped v) (expecting_end v) (output v) (substitution_mode v) (substitution_name v).
Definition set_escaped (b : bool) (v : ValueState) : ValueState :=
  mkValue (strong_quote v) (weak_quote v) b (expecting_end v) (output v) (substitution_mode v) (substitution_name v).
Definition set_end (v : ValueState) : ValueState :=
  mkValue (strong_quote v) (weak_quote v) (escaped v) true (output v) (substitution_mode v) (substitution_name v).
Definition set_mode (m : SubstitutionMode) (v : ValueState) : ValueState :=
  mkValue (strong_quote v) (weak_quote v) (escaped v) (expecting_end v) (output v) m (substitution_name v).
Definition push_name (c : Z) (v : ValueState) : ValueState :=
  mkValue (strong_quote v) (weak_quote v) (escaped v) (expecting_end v) (output v) (substitution_mode v) (substitution_name v ++ [c]).
(** The substitution of the name read so far, which is drained. *)
Definition substitute (data : SubstitutionData) (v : ValueState) : ValueState :=
  mkValue (strong_quote v) (weak_quote v) (escaped v) (expecting_end v)
    (apply_substitution data (substitution_name v) (output v)) (substitution_mode v) [].
Definition dollar_mode (v : ValueState) : SubstitutionMode :=
  if negb (strong_quote v) && negb (escaped v) then Block else NoSubstitution.

(** One character of a value: the error, the end at a comment, or the next state. *)
Inductive ValueStep : Type := Fault | Stop | Next (v : ValueState).
Definition value_step (data : SubstitutionData) (v : ValueState) (c : Z) : ValueStep :=
  if expecting_end v then
    if (c =? 32) || (c =? 9) then Next v else if c =? 35 then Stop else Fault
  else if escaped v then
    if (c =? 92) || (c =? 39) || (c =? 34) || (c =? 36) || (c =? 32) then Next (set_escaped false (push c v))
    else if c =? 110 then Next (set_escaped false (push 10 v)) else Fault
  else if strong_quote v then
    Next (if c =? 39 then set_strong false v else push c v)
  else match substitution_mode v with
  | Block =>
      Next (if is_alphanumeric c then push_name c v
            else if (c =? 123) && (length (substitution_name v) =? 0)%nat then set_mode EscapedBlock v
            else let v := substitute data v in
                 if c =? 36 then set_mode (dollar_mode v) v else push c (set_mode NoSubstitution v))
  | EscapedBlock =>
      Next (if is_alphanumeric c then push_name c v
            else if c =? 125 then substitute data (set_mode NoSubstitution v) else push_name c v)
  | NoSubstitution =>
      Next (if c =? 36 then set_mode (dollar_mode v) v
            else if weak_quote v then
              if c =? 34 then set_weak false v else if c =? 92 then set_escaped true v else push c v
            else if c =? 39 then set_strong true v
            else if c =? 34 then set_weak true v
            else if c =? 92 then set_escaped true v
            else if (c =? 32) || (c =? 9) then set_end v
            else push c v)
  end.

Fixpoint value_loop (input : text) (data : SubstitutionData) (index : Z) (v : ValueState) (chars : text)
    : result Error ValueState :=
  match chars with
  | [] => Ok v
  | c :: chars =>
      match value_step data v c with
      | Fault => Err (LineParse input index)
      | Stop => Ok v
      | Next v => value_loop input data (index + 1) v chars
      end
  end.
Definition in_block (m : SubstitutionMode) : bool := match m with EscapedBlock => true | _ => false end.
Definition parse_value (input : text) (data : SubstitutionData) : result Error text :=
  v ← value_loop input data 0 value_start input;
  if in_block (substitution_mode v) || strong_quote v || weak_quote v then
    let value_length := text_len input in
    Err (LineParse input (if value_length =? 0 then 0 else value_length - 1))
  else Ok (apply_substitution data (substitution_name v) (output v)).

(** ** A line *)

Record LineParser : Type := mkParser { original_line : text; line : text; pos : Z }.
Definition parser_new (l : text) : LineParser := mkParser l (trim_end l) 0.
Definition parse_error (p : LineParser) : Error := LineParse (original_line p) (pos p).
Definition skip_whitespace (p : LineParser) : LineParser :=
  let rest := trim_start (line p) in mkParser (original_line p) rest (pos p + (text_len (line p) - text_len rest)).
Definition expect_equal (p : LineParser) : result Error LineParser :=
  match line p with
  | 61 :: rest => Ok (mkParser (original_line p) rest (pos p + 1))
  | _ => Err (parse_error p)
  end.

Definition key_start (c : Z) : bool := is_ascii_alphabetic c || (c =? 95).
Definition key_char (c : Z) : bool := is_ascii_alphanumeric c || (c =? 95) || (c =? 46).
Fixpoint split_key (s : text) : text * text :=
  match s with
  | c :: s' => if key_char c then let '(key, rest) := split_key s' in (c :: key, rest) else ([], s)
  | [] => ([], [])
  end.
Definition parse_key (p : LineParser) : result Error (text * LineParser) :=
  match line p with
  | c :: _ =>
      if key_start c then
        let '(key, rest) := split_key (line p) in
        Ok (key, mkParser (original_line p) rest (pos p + text_len key))
      else Err (parse_error p)
  | [] => Err (parse_error p)
  end.

Definition EXPORT : text := [101; 120; 112; 111; 114; 116].
Definition is_blank (s : text) : bool := (length s =? 0)%nat || starts_with 35 s.

Definition parse_line (l : text) (data : SubstitutionData)
    : result Error (option (text * text)) * SubstitutionData :=
  let p := skip_whitespace (parser_new l) in
  if is_blank (line p) then (Ok None, data) else
  let keyed :=
    '(key, p) ← parse_key p;
    let p := skip_whitespace p in
    '(key, p) ← (if bool_decide (key = EXPORT) then
                   match expect_equal p with
                   | Ok p => Ok (key, p)
                   | Err _ => '(key, p) ← parse_key p; p ← expect_equal (skip_whitespace p); Ok (key, p)
                   end
                 else p ← expect_equal p; Ok (key, p));
    Ok (key, skip_whitespace p) in
  match keyed with
  | Err e => (Err e, data)
  | Ok (key, p) =>
      if is_blank (line p) then (Ok (Some (key, [])), <[key := None]> data)
      else match parse_value (line p) data with
           | Err e => (Err e, data)
           | Ok parsed_value => (Ok (Some (key, parsed_value)), <[key := Some parsed_value]> data)
           end
  end.
End parse.

(** ** The lines of a file *)

Inductive ParseState : Type :=
| Complete | Escape | StrongOpen | StrongOpenEscape | WeakOpen | WeakOpenEscape | Comment | WhiteSpace.

(** One character in [eval_end_state]; the state [Comment] returns before the next. *)
Definition next_state (cur_state : ParseState) (c : Z) : outcome ParseState :=
  match cur_state with
  | WhiteSpace =>
      Ret (if c =? 35 then Comment else if c =? 92 then Escape else if c =? 34 then WeakOpen
           else if c =? 39 then StrongOpen else Complete)
  | Escape => Ret Complete
  | Complete =>
      Ret (if is_whitespace c && negb (c =? 10) && negb (c =? 13) then WhiteSpace
           else if c =? 92 then Escape else if c =? 34 then WeakOpen else if c =? 39 then StrongOpen else Complete)
  | WeakOpen => Ret (if c =? 92 then WeakOpenEscape else if c =? 34 then Complete else WeakOpen)
  | WeakOpenEscape => Ret WeakOpen
  | StrongOpen => Ret (if c =? 92 then StrongOpenEscape else if c =? 39 then Complete else StrongOpen)
  | StrongOpenEscape => Ret StrongOpen
  | Comment => Panic
  end.
Fixpoint eval_loop (cur_state : ParseState) (cur_pos pos : Z) (buf : text) : outcome (Z * ParseState) :=
  match buf with
  | [] => Ret (cur_pos, cur_state)
  | c :: buf =>
      cur_state' ← next_state cur_state c;
      match cur_state, cur_state' with
      | WhiteSpace, Comment => Ret (pos, Comment)
      | _, _ => eval_loop cur_state' pos (pos + len_utf8 c) buf
      end
  end.
Definition eval_end_state (prev_state : ParseState) (buf : text) : outcome (Z * ParseState) :=
  eval_loop prev_state 0 0 buf.

Definition Reader : Type := list (option text).
Definition strip_newline (buf : text) : text :=
  if ends_with 10 buf then let buf := pop buf in if ends_with 13 buf then pop buf else buf else buf.

(** [QuotedLines::next]: the loop with the lines read so far in [buf]. *)
Fixpoint next_line (lines : Reader) (buf : text) (cur_state : ParseState)
    : outcome (option (result Error text) * Reader) :=
  match lines with
  | [] =>
      Ret (match cur_state with Complete => None | _ => Some (Err (LineParse buf (text_len buf))) end, [])
  | None :: lines => Ret (Some (Err Io), lines)
  | Some l :: lines =>
      let buf_pos := text_len buf in
      let buf := buf ++ l in
      if starts_with 35 (trim_start buf) then Ret (Some (Ok []), lines) else
      '(cur_pos, cur_state) ← eval_end_state cur_state l;
      match cur_state with
      | Complete => Ret (Some (Ok (strip_newline buf)), lines)
      | Comment => Ret (Some (Ok (truncate (buf_pos + cur_pos) buf)), lines)
      | _ => next_line lines buf cur_state
      end
  end.

Record Iter : Type := mkIter { lines : Reader; substitution_data : SubstitutionData }.

Section load.
Context (is_alphanumeric : Z -> bool).

(** [Iter::next]: [fuel] is more than the number of lines. *)
Fixpoint iter_next (fuel : nat) (env : Environment) (it : Iter)
    : option (outcome (option (result Error (text * text)) * Iter)) :=
  match fuel with
  | O => None
  | S fuel =>
      match next_line (lines it) [] Complete with
      | Ret (Some (Ok l), rest) =>
          match parse_line is_alphanumeric env l (substitution_data it) with
          | (Ok (Some r), data) => Some (Ret (Some (Ok r), mkIter rest data))
          | (Ok None, data) => iter_next fuel env (mkIter rest data)
          | (Err e, data) => Some (Ret (Some (Err e), mkIter rest data))
          end
      | Ret (Some (Err e), rest) => Some (Ret (Some (Err e), mkIter rest (substitution_data it)))
      | Ret (None, rest) => Some (Ret (None, mkIter rest (substitution_data it)))
      | Panic => Some Panic
      | Undef => Some Undef
      end
  end.

Record LoadResult : Type := mkLoad { loaded : Z; skipped_or_overridden : Z }.

(** The loop of [load] and, with [override], of [load_override]; an error leaves the
    variables that were set before it. *)
Fixpoint load_loop (override : bool) (fuel : nat) (env : Environment) (it : Iter) (n : LoadResult)
    : option (outcome (result Error LoadResult * Environment)) :=
  match fuel with
  | O => None
  | S fuel =>
      match iter_next (S (length (lines it))) env it with
      | Some (Ret (None, _)) => Some (Ret (Ok n, env))
      | Some (Ret (Some (Err e), _)) => Some (Ret (Err e, env))
      | Some (Ret (Some (Ok (key, value)), it)) =>
          let present := bool_decide (is_Some (var env key)) in
          if override then
            match set_var key value env with
            | Ret env' =>
                load_loop override fuel env' it
                  (mkLoad (loaded n + 1) (if present then skipped_or_overridden n + 1 else skipped_or_overridden n))
            | Panic => Some Panic
            | Undef => Some Undef
            end
          else if present then load_loop override fuel env it (mkLoad (loaded n) (skipped_or_overridden n + 1))
          else match set_var key value env with
               | Ret env' => load_loop override fuel env' it (mkLoad (loaded n + 1) (skipped_or_overridden n))
               | Panic => Some Panic
               | Undef => Some Undef
               end
      | Some Panic => Some Panic
      | Some Undef => Some Undef
      | None => None
      end
  end.

Definition remove_bom (r : Reader) : Reader :=
  match r with
  | Some (65279 :: []) :: r => r
  | Some (65279 :: l) :: r => Some l :: r
  | _ => r
  end.
(** [Iter::new] and [load] or [load_override]. *)
Definition load (override : bool) (file : Reader) (env : Environment)
    : option (outcome (result Error LoadResult * Environment)) :=
  load_loop override (S (length file)) env (mkIter (remove_bom file) ∅) (mkLoad 0 0).
End load.

(** A file in UTF-8: [read_line] gives a line with its line feed. *)
Fixpoint read_lines (l s : text) : Reader :=
  match s with
  | [] => match l with [] => [] | _ => [Some (rev l)] end
  | c :: s => if c =? 10 then Some (rev (c :: l)) :: read_lines [] s else read_lines (c :: l) s
  end.

(** ** A file of quoted values *)

Definition quote_char (c : Z) : text :=
  if (c =? 92) || (c =? 34) || (c =? 36) then [92; c] else if c =? 10 then [92; 110] else [c].
Definition quoted (value : text) : text := [34] ++ (value ≫= quote_char) ++ [34].
Definition entry_line (kv : text * text) : text := kv.1 ++ [61] ++ quoted kv.2 ++ [10].

Definition is_key (key : text) : bool :=
  match key with c :: _ => key_start c && forallb key_char key | [] => false end.

(** ** Lemmas *)

Lemma key_char_plain c : key_char c = true ->
  is_whitespace c = false /\ 46 <= c <= 122 /\ c <> 61 /\ c <> 92 /\ c <> 34 /\ c <> 39 /\ c <> 35 /\ c <> 36.
Proof.
  unfold key_char, is_ascii_alphanumeric, is_ascii_alphabetic, is_ascii_lower, is_ascii_upper, is_ascii_digit, is_whitespace.
  rewrite !orb_true_iff, !andb_true_iff, !Z.leb_le, !Z.eqb_eq. intros H.
  assert (46 <= c <= 122 /\ c <> 61 /\ c <> 92) as Hr by lia. split_and!; try lia.
Qed.
Lemma key_start_char c : key_start c = true -> key_char c = true.
Proof. unfold key_start, key_char, is_ascii_alphanumeric. rewrite !orb_true_iff. tauto. Qed.
Lemma is_key_chars key : is_key key = true -> Forall (fun c => key_char c = true) key /\ exists c rest, key = c :: rest /\ key_start c = true.
Proof.
  destruct key as [|c rest]; [done|]. unfold is_key. rewrite andb_true_iff. intros [H1 H2].
  split; [by apply Strings.forallb_Forall in H2|eauto].
Qed.

Section values.
Context (is_alphanumeric : Z -> bool) (env : Environment).

(** Inside double quotes. *)
Definition in_quotes (out : text) : ValueState := mkValue false true false false out NoSubstitution [].

Lemma quote_char_loop input data i out c rest : exists j,
  value_loop is_alphanumeric env input data i (in_quotes out) (quote_char c ++ rest) =
  value_loop is_alphanumeric env input data j (in_quotes (out ++ [c])) rest.
Proof using.
  unfold quote_char. destruct ((c =? 92) || (c =? 34) || (c =? 36)) eqn:E.
  - exists (i + 1 + 1). cbn [app value_loop value_step in_quotes expecting_end escaped strong_quote substitution_mode weak_quote].
    change (92 =? 36) with false. change (92 =? 34) with false. change (92 =? 92) with true. cbv iota.
    unfold value_step. cbn [set_escaped expecting_end escaped].
    assert ((c =? 92) || (c =? 39) || (c =? 34) || (c =? 36) || (c =? 32) = true) as ->; [|done].
    rewrite !orb_true_iff in *. tauto.
  - rewrite !orb_false_iff in E. destruct E as [[E1 E2] E3]. destruct (c =? 10) eqn:En.
    + apply Z.eqb_eq in En as ->. by exists (i + 1 + 1).
    + exists (i + 1). cbn [app value_loop]. unfold value_step, in_quotes.
      cbn [expecting_end escaped strong_quote substitution_mode weak_quote]. by rewrite E3, E2, E1.
Qed.
Lemma quoted_loop input data value rest : forall i out, exists j,
  value_loop is_alphanumeric env input data i (in_quotes out) ((value ≫= quote_char) ++ rest) =
  value_loop is_alphanumeric env input data j (in_quotes (out ++ value)) rest.
Proof using.
  induction value as [|c value IH]; intros i out.
  - exists i. by rewrite app_nil_r.
  - cbn [mbind list_bind]. rewrite <- app_assoc. destruct (quote_char_loop input data i out c ((value ≫= quote_char) ++ rest)) as [j ->].
    destruct (IH j (out ++ [c])) as [k ->]. exists k. by rewrite <- app_assoc.
Qed.
Lemma quoted_value_loop input data value :
  value_loop is_alphanumeric env input data 0 value_start (quoted value) = Ok (set_weak false (in_quotes value)).
Proof using.
  unfold quoted. cbn [app value_loop].
  change (value_step is_alphanumeric env data value_start 34) with (Next (in_quotes [])). cbv iota.
  destruct (quoted_loop input data value [34] (0 + 1) []) as [j ->]. done.
Qed.
Lemma parse_quoted data value : data !! [] = None -> parse_value is_alphanumeric env (quoted value) data = Ok value.
Proof using.
  intros Hd. unfold parse_value. rewrite quoted_value_loop. cbn. unfold apply_substitution. cbn [var].
  by rewrite Hd, app_nil_r.
Qed.

Lemma split_key_app key rest : Forall (fun c => key_char c = true) key ->
  split_key (key ++ 61 :: rest) = (key, 61 :: rest).
Proof using. induction 1 as [|c key Hc _ IH]; [done|]. cbn [app split_key]. by rewrite Hc, IH. Qed.

(** The line of a key and a value, behind the removal of the line feed. *)
Lemma parse_entry data key value rest :
  is_key key = true -> trim_end (key ++ 61 :: value) = key ++ 61 :: value ->
  trim_start value = value -> is_blank value = false ->
  parse_value is_alphanumeric env value data = Ok rest ->
  parse_line is_alphanumeric env (key ++ 61 :: value) data = (Ok (Some (key, rest)), <[key := Some rest]> data).
Proof using.
  intros Hk Ht Hs Hb Hv. destruct (is_key_chars key Hk) as [Hc (c & key' & Ekey & Hst)].
  pose proof (key_char_plain c (key_start_char c Hst)) as Hp.
  unfold parse_line, parser_new. rewrite Ht.
  assert (forall o q, skip_whitespace (mkParser o (key ++ 61 :: value) q) = mkParser o (key ++ 61 :: value) q) as Hs1.
  { intros o q. unfold skip_whitespace. cbn [line original_line pos]. rewrite Ekey. cbn [app].
    rewrite trim_start_nonspace by apply Hp. f_equal. lia. }
  rewrite Hs1. cbn [line].
  assert (is_blank (key ++ 61 :: value) = false) as ->.
  { rewrite Ekey. unfold is_blank. cbn. rewrite (proj2 (Z.eqb_neq c 35)) by lia. done. }
  assert (forall o q, parse_key (mkParser o (key ++ 61 :: value) q) = Ok (key, mkParser o (61 :: value) (q + text_len key))) as Hpk.
  { intros o q. unfold parse_key. cbn [line original_line pos]. rewrite split_key_app by done. rewrite Ekey. cbn [app]. by rewrite Hst. }
  rewrite Hpk. cbn [mbind result_bind].
  assert (forall o q, skip_whitespace (mkParser o (61 :: value) q) = mkParser o (61 :: value) q) as Hs2.
  { intros o q. unfold skip_whitespace. cbn [line original_line pos]. rewrite trim_start_nonspace by done. f_equal. lia. }
  rewrite Hs2.
  assert (forall o q, skip_whitespace (mkParser o value q) = mkParser o value q) as Hs3.
  { intros o q. unfold skip_whitespace. cbn [line original_line pos]. rewrite Hs. f_equal. lia. }
  case_bool_decide; cbn [expect_equal line original_line pos mbind result_bind]; rewrite Hs3; cbn [line]; by rewrite Hb, Hv.
Qed.
End values.

(** ** The states of a line *)

(** Reading [a] takes the state from [s] to [s']. *)
Definition walks (s : ParseState) (a : text) (s' : ParseState) : Prop :=
  forall cp p b, exists cp' p', eval_loop s cp p (a ++ b) = eval_loop s' cp' p' b.
Lemma walks_nil s : walks s [] s.
Proof. intros cp p b. by exists cp, p. Qed.
Lemma walks_app s a s' b s'' : walks s a s' -> walks s' b s'' -> walks s (a ++ b) s''.
Proof.
  intros H1 H2 cp p r. rewrite <- app_assoc. destruct (H1 cp p (b ++ r)) as (cp' & p' & ->). apply H2.
Qed.
Lemma walks_char s c s' : next_state s c = Ret s' -> s' <> Comment -> walks s [c] s'.
Proof. intros H Hc cp p b. cbn [app eval_loop]. rewrite H. cbn [mbind outcome_bind]. exists p, (p + len_utf8 c). by destruct s, s'. Qed.
Lemma walks_end s a s' : walks s a s' -> exists cp, eval_end_state s a = Ret (cp, s').
Proof. intros H. destruct (H 0 0 []) as (cp & p & E). rewrite app_nil_r in E. by exists cp. Qed.

Lemma walks_key key : Forall (fun c => key_char c = true) key -> walks Complete key Complete.
Proof.
  induction 1 as [|c key Hc _ IH]; [apply walks_nil|]. apply (walks_app _ [c] Complete); [|done]. apply walks_char; [|done].
  apply key_char_plain in Hc as (Hw & _ & _ & H1 & H2 & H3 & _). cbn [next_state]. rewrite Hw. cbn [andb].
  by rewrite !(proj2 (Z.eqb_neq _ _)) by done.
Qed.
Lemma walks_quoted value : walks WeakOpen (value ≫= quote_char) WeakOpen.
Proof.
  induction value as [|c value IH]; [apply walks_nil|]. cbn [mbind list_bind]. eapply walks_app; [|done].
  unfold quote_char. destruct ((c =? 92) || (c =? 34) || (c =? 36)) eqn:E; [|destruct (c =? 10) eqn:En].
  - apply (walks_app _ [92] WeakOpenEscape); by apply walks_char.
  - apply (walks_app _ [92] WeakOpenEscape); by apply walks_char.
  - rewrite !orb_false_iff in E. destruct E as [[E1 E2] E3]. apply walks_char; [|done]. cbn [next_state]. by rewrite E1, E2.
Qed.
Lemma walks_entry kv : is_key kv.1 = true -> walks Complete (entry_line kv) Complete.
Proof.
  intros [Hk _]%is_key_chars. unfold entry_line, quoted. eapply walks_app; [by apply walks_key|].
  apply (walks_app _ [61] Complete); [by apply walks_char|]. rewrite <- !app_assoc.
  apply (walks_app _ [34] WeakOpen); [by apply walks_char|]. eapply walks_app; [apply walks_quoted|].
  apply (walks_app _ [34] Complete); by apply walks_char.
Qed.

(** ** The lines of a written file *)

Lemma read_line_app l s : Forall (fun c => c <> 10) l -> forall acc,
  read_lines acc (l ++ 10 :: s) = Some (rev acc ++ l ++ [10]) :: read_lines [] s.
Proof.
  induction 1 as [|c l Hc _ IH]; intros acc; cbn [app read_lines].
  - rewrite Z.eqb_refl. cbn [rev]. done.
  - rewrite (proj2 (Z.eqb_neq c 10)) by done. rewrite IH. cbn [rev]. by rewrite <- app_assoc.
Qed.
Lemma quoted_one_line value : Forall (fun c => c <> 10) (value ≫= quote_char).
Proof.
  induction value as [|c value IH]; [constructor|]. cbn [mbind list_bind]. apply Forall_app. split; [|done].
  unfold quote_char. destruct ((c =? 92) || (c =? 34) || (c =? 36)) eqn:E; [|destruct (c =? 10) eqn:En].
  - rewrite !orb_true_iff, !Z.eqb_eq in E. rewrite !Forall_cons. split_and!; [done|lia|done].
  - rewrite !Forall_cons. split_and!; [done|done|done].
  - apply Z.eqb_neq in En. by rewrite Forall_singleton.
Qed.
Lemma entry_shape kv : is_key kv.1 = true ->
  exists l, entry_line kv = l ++ [10] /\ Forall (fun c => c <> 10) l /\ l = kv.1 ++ 61 :: quoted kv.2.
Proof.
  intros [Hk _]%is_key_chars. exists (kv.1 ++ 61 :: quoted kv.2). unfold entry_line. split_and!; [|..|done].
  - rewrite <- !app_assoc. done.
  - apply Forall_app. split.
    + eapply Forall_impl; [exact Hk|]. cbn. intros c Hc%key_char_plain. lia.
    + unfold quoted. cbn [app]. rewrite !Forall_cons. split_and!; [done|done|].
      apply Forall_app. split; [apply quoted_one_line|by rewrite Forall_singleton].
Qed.
Lemma read_entries kvs : Forall (fun kv => is_key kv.1 = true) kvs ->
  read_lines [] (kvs ≫= entry_line) = (fun kv => Some (entry_line kv)) <$> kvs.
Proof.
  induction 1 as [|kv kvs Hk _ IH]; [done|]. cbn [mbind list_bind fmap list_fmap].
  destruct (entry_shape kv Hk) as (l & -> & Hl & _). rewrite <- app_assoc. cbn [app].
  rewrite read_line_app by done. by rewrite <- IH.
Qed.

(** One line of a written file through [next_line] and [parse_line]. *)
Lemma next_entry kv rest : is_key kv.1 = true ->
  next_line (Some (entry_line kv) :: rest) [] Complete = Ret (Some (Ok (kv.1 ++ 61 :: quoted kv.2)), rest).
Proof.
  intros Hk. cbn [next_line app]. destruct (entry_shape kv Hk) as (l & El & Hl & Es). destruct (walks_end _ _ _ (walks_entry kv Hk)) as [cp Ew].
  destruct (is_key_chars _ Hk) as [_ (c & key' & Ekey & Hst)]. pose proof (key_char_plain c (key_start_char c Hst)) as Hp.
  assert (starts_with 35 (trim_start (entry_line kv)) = false) as ->.
  { unfold entry_line. rewrite Ekey. cbn [app]. rewrite trim_start_nonspace by apply Hp. cbn. apply Z.eqb_neq. lia. }
  rewrite Ew. cbn [mbind outcome_bind]. rewrite El. unfold strip_newline. rewrite ends_with_snoc, pop_snoc. cbv iota zeta.
  assert (ends_with 13 l = false) as ->.
  { rewrite Es. unfold quoted. replace (kv.1 ++ 61 :: [34] ++ (kv.2 ≫= quote_char) ++ [34])
      with ((kv.1 ++ [61; 34] ++ (kv.2 ≫= quote_char)) ++ [34]) by (by rewrite <- !app_assoc).
    by rewrite ends_with_snoc. }
  by rewrite Es.
Qed.
Lemma parse_entry_line is_alphanumeric env data kv : is_key kv.1 = true -> data !! [] = None ->
  parse_line is_alphanumeric env (kv.1 ++ 61 :: quoted kv.2) data = (Ok (Some kv), <[kv.1 := Some kv.2]> data).
Proof.
  intros Hk Hd. rewrite parse_entry with (rest := kv.2); [by destruct kv|done| |done|done|by apply parse_quoted].
  unfold quoted. replace (kv.1 ++ 61 :: [34] ++ (kv.2 ≫= quote_char) ++ [34])
    with ((kv.1 ++ [61; 34] ++ (kv.2 ≫= quote_char)) ++ [34]) by (by rewrite <- !app_assoc).
  by apply trim_end_nonspace.
Qed.
Lemma iter_entry is_alphanumeric fuel env data kv rest : is_key kv.1 = true -> data !! [] = None ->
  iter_next is_alphanumeric (S fuel) env (mkIter (Some (entry_line kv) :: rest) data) =
    Some (Ret (Some (Ok kv), mkIter rest (<[kv.1 := Some kv.2]> data))).
Proof.
  intros Hk Hd. cbn [iter_next DotEnv.lines substitution_data]. rewrite next_entry by done. by rewrite parse_entry_line.
Qed.

(** ** Loading a written file *)

(** The names of the file that the environment does not have. *)
Definition new_keys (env : Environment) (kvs : list (text * text)) : gset text :=
  filter (fun k => var env k = None) (list_to_set kvs.*1).
(** A name keeps the value it has, or with [override] loses it; the first value of
    the file counts, or with [override] the last. *)
Definition loaded_value (override : bool) (env : Environment) (kvs : list (text * text)) (x : text) : option (option text) :=
  let file : gmap text text := list_to_map (if override then rev kvs else kvs) in
  match (if override then None else var env x), file !! x with
  | None, Some v => Some (Some v)
  | _, _ => env !! x
  end.

Lemma var_insert env k v x : k <> [] -> var (<[k := Some v]> env) x = if decide (x = k) then Some v else var env x.
Proof.
  intros Hk. unfold var. case_decide as E.
  - subst. destruct k; [done|]. by rewrite lookup_insert_eq.
  - destruct x; [done|]. by rewrite lookup_insert_ne by done.
Qed.
Lemma elem_new_keys env kvs x : x ∈ new_keys env kvs <-> var env x = None /\ x ∈ kvs.*1.
Proof. unfold new_keys. by rewrite elem_of_filter, elem_of_list_to_set. Qed.
Lemma new_keys_present env kv kvs : is_Some (var env kv.1) -> new_keys env (kv :: kvs) = new_keys env kvs.
Proof.
  intros [v Hv]. apply set_eq. intros x. rewrite !elem_new_keys, fmap_cons, elem_of_cons. split; [|tauto].
  intros [Hx [-> | Hin]]; [congruence|done].
Qed.
Lemma new_keys_updated env k v kvs : k <> [] -> is_Some (var env k) -> new_keys (<[k := Some v]> env) kvs = new_keys env kvs.
Proof.
  intros Hk [w Hw]. apply set_eq. intros x. rewrite !elem_new_keys, var_insert by done. case_decide; [|tauto]. subst.
  split; intros [? _]; congruence.
Qed.
Lemma new_keys_absent env k v kvs : k <> [] -> var env k = None ->
  size (new_keys env ((k, v) :: kvs)) = S (size (new_keys (<[k := Some v]> env) kvs)).
Proof.
  intros Hk Hn. replace (new_keys env ((k, v) :: kvs)) with ({[k]} ∪ new_keys (<[k := Some v]> env) kvs).
  - rewrite size_union; [by rewrite size_singleton|]. intros x Hx Hin. apply elem_of_singleton in Hx as ->.
    apply elem_new_keys in Hin as [Hin _]. rewrite var_insert, decide_True in Hin by done. done.
  - apply set_eq. intros x. rewrite elem_of_union, elem_of_singleton, !elem_new_keys, fmap_cons, elem_of_cons, var_insert by done.
    cbn [fst]. case_decide; [subst; tauto|]. tauto.
Qed.

Lemma set_var_ok key value env : is_key key = true -> ~ In 0 value -> set_var key value env = Ret (<[key := Some value]> env).
Proof.
  intros Hk Hv. destruct (is_key_chars key Hk) as [Hc (c & rest & E & _)]. unfold set_var.
  assert ((length key =? 0)%nat = false) as -> by (by rewrite E).
  assert (existsb (fun c => (c =? 0) || (c =? 61)) key = false) as ->.
  { apply not_true_is_false. rewrite existsb_exists. intros (x & Hin & Hx). rewrite Forall_forall in Hc.
    apply list_elem_of_In, Hc, key_char_plain in Hin. rewrite orb_true_iff, !Z.eqb_eq in Hx. lia. }
  assert (existsb (Z.eqb 0) value = false) as ->; [|done].
  apply not_true_is_false. rewrite existsb_exists. intros (x & Hin & <-%Z.eqb_eq). done.
Qed.

Definition storable (kv : text * text) : Prop := is_key kv.1 = true /\ ~ In 0 kv.2.

Lemma last_value (kvs : list (text * text)) k v x :
  (list_to_map (rev ((k, v) :: kvs)) : gmap text text) !! x =
    match (list_to_map (rev kvs) : gmap text text) !! x with
    | Some w => Some w
    | None => if decide (x = k) then Some v else None
    end.
Proof.
  cbn [rev]. rewrite list_to_map_app, lookup_union.
  change (list_to_map [(k, v)] : gmap text text) with (<[k := v]> (∅ : gmap text text)).
  destruct (list_to_map (rev kvs) !! x) as [w|]; [by destruct (_ !! x)|].
  case_decide; [subst; by rewrite lookup_insert_eq|by rewrite lookup_insert_ne].
Qed.

Lemma load_entries is_alphanumeric override kvs : Forall storable kvs -> forall fuel env data n,
  (length kvs < fuel)%nat -> data !! [] = None ->
  exists env', load_loop is_alphanumeric override fuel env (mkIter ((fun kv => Some (entry_line kv)) <$> kvs) data) n =
      Some (Ret (Ok (mkLoad
        (loaded n + (if override then zlen kvs else Z.of_nat (size (new_keys env kvs))))
        (skipped_or_overridden n + (zlen kvs - Z.of_nat (size (new_keys env kvs))))), env')) /\
    forall x, env' !! x = loaded_value override env kvs x.
Proof.
  induction 1 as [|[k v] kvs [Hk Hv] _ IH]; intros [|fuel] env data n Hf Hd; cbn [length] in Hf; try lia.
  - exists env. split; [|by intros x; unfold loaded_value; destruct override; cbn; destruct (var env x)].
    cbn -[zlen]. destruct n as [l s]. cbn [loaded skipped_or_overridden].
    replace (new_keys env []) with (∅ : gset text) by (symmetry; apply set_eq; intros x; rewrite elem_new_keys; set_solver).
    rewrite size_empty. destruct override; by rewrite !Z.add_0_r.
  - assert (k <> []) as Hne by (by destruct k). cbn [fst snd] in *.
    assert (<[k := Some v]> data !! [] = None) as Hd' by (by rewrite lookup_insert_ne).
    assert (zlen ((k, v) :: kvs) = zlen kvs + 1) as Hz by (unfold zlen; cbn; lia).
    cbn [load_loop fmap list_fmap DotEnv.lines]. rewrite iter_entry by done. cbv iota zeta.
    rewrite !set_var_ok by done. cbn [fst].
    destruct (decide (is_Some (var env k))) as [Hp|Hp].
    + rewrite (bool_decide_eq_true_2 _ Hp). rewrite (new_keys_present env (k, v)) by done. destruct override.
      * edestruct (IH fuel (<[k := Some v]> env)) as (env' & E & He); [lia|exact Hd'|]. exists env'. split.
        -- rewrite E. rewrite (new_keys_updated env k v kvs) by done. cbn [loaded skipped_or_overridden]. do 5 f_equal; lia.
        -- intros x. rewrite He. unfold loaded_value. rewrite last_value.
           destruct (list_to_map (rev kvs) !! x) as [w|]; [done|]. case_decide as Hx.
           ++ subst. by rewrite lookup_insert_eq.
           ++ by rewrite lookup_insert_ne.
      * edestruct (IH fuel env) as (env' & E & He); [lia|exact Hd'|]. exists env'. split.
        -- rewrite E. cbn [loaded skipped_or_overridden]. do 5 f_equal; lia.
        -- intros x. rewrite He. unfold loaded_value. cbn. destruct (decide (x = k)) as [->|Hx].
           ++ destruct Hp as [w Hw]. by rewrite Hw.
           ++ by rewrite lookup_insert_ne.
    + rewrite (bool_decide_eq_false_2 _ Hp). apply eq_None_not_Some in Hp.
      rewrite (new_keys_absent env k v kvs) by done.
      assert (forall n', loaded n' = loaded n + 1 -> skipped_or_overridden n' = skipped_or_overridden n ->
        exists env', load_loop is_alphanumeric override fuel (<[k:=Some v]> env)
          (mkIter ((fun kv => Some (entry_line kv)) <$> kvs) (<[k := Some v]> data)) n' =
        Some (Ret (Ok (mkLoad
          (loaded n + (if override then zlen ((k, v) :: kvs) else Z.of_nat (S (size (new_keys (<[k:=Some v]> env) kvs)))))
          (skipped_or_overridden n + (zlen ((k, v) :: kvs) - Z.of_nat (S (size (new_keys (<[k:=Some v]> env) kvs)))))), env')) /\
        forall x, env' !! x = loaded_value override env ((k, v) :: kvs) x) as Hgo; [|destruct override; by apply Hgo].
      intros n' Hl Hs. edestruct (IH fuel (<[k := Some v]> env)) as (env' & E & He); [lia|exact Hd'|]. exists env'. split.
      * rewrite E, Hl, Hs, Hz. destruct override; do 5 f_equal; lia.
      * intros x. rewrite He. unfold loaded_value. destruct override.
        -- rewrite last_value. destruct (list_to_map (rev kvs) !! x) as [w|]; [done|].
           case_decide as Hx; [subst; by rewrite lookup_insert_eq|by rewrite lookup_insert_ne].
        -- rewrite var_insert by done. cbn. case_decide as Hx.
           ++ subst. rewrite Hp. by rewrite !lookup_insert_eq.
           ++ by rewrite !lookup_insert_ne.
Qed.

(** ** The theorems *)

(** The text of a file of quoted values, which may start with a byte order mark. *)
Definition env_file (bom : bool) (kvs : list (text * text)) : text := (if bom then [65279] else []) ++ (kvs ≫= entry_line).

Lemma remove_bom_key c l r : key_start c = true -> remove_bom (Some (c :: l) :: r) = Some (c :: l) :: r.
Proof.
  intros Hp%key_start_char%key_char_plain. cbn [remove_bom]. destruct (decide (c = 65279)) as [->|Hc]; [lia|].
  by repeat (destruct c as [|c|c]; try done).
Qed.
Lemma remove_bom_entries bom kvs : Forall (fun kv => is_key kv.1 = true) kvs ->
  remove_bom (read_lines [] (env_file bom kvs)) = (fun kv => Some (entry_line kv)) <$> kvs.
Proof.
  intros Hk. unfold env_file. destruct bom.
  - destruct Hk as [|kv kvs Hk Hks]; [done|]. cbn [mbind list_bind app fmap list_fmap].
    destruct (entry_shape kv Hk) as (l & -> & Hl & _). rewrite <- app_assoc. cbn [app read_lines].
    change (65279 =? 10) with false. cbv iota. rewrite read_line_app by done. cbn [rev app remove_bom].
    destruct (l ++ [10]) eqn:E; [by destruct l|]. by rewrite <- read_entries.
  - cbn [app]. rewrite read_entries by done. destruct Hk as [|kv kvs Hk Hks]; [done|]. cbn [fmap list_fmap].
    destruct (is_key_chars _ Hk) as [_ (c & key' & Ekey & Hst)]. unfold entry_line. rewrite Ekey. cbn [app].
    by apply remove_bom_key.
Qed.
(** A last line without a line feed. *)
Lemma read_last_line l : Forall (fun c => c <> 10) l -> forall acc, (acc <> [] \/ l <> []) ->
  read_lines acc l = [Some (rev acc ++ l)].
Proof.
  induction 1 as [|x l Hx _ IH]; intros acc Ha; cbn [read_lines].
  - destruct acc; [by destruct Ha|]. by rewrite app_nil_r.
  - rewrite (proj2 (Z.eqb_neq x 10)) by done. rewrite IH by (by left). cbn [rev]. by rewrite <- app_assoc.
Qed.

(** C32: a file of names and quoted values round-trips into the environment.  Any text
    without NUL can be a value (quotes, dollar signs, line feeds, comments included).
    Loading ends within defined behaviour without an error: a name keeps the value
    the environment has, and otherwise gets the first value of the file; with
    [override] it gets the last value of the file.  The counts are the names that
    were new and the lines that were skipped or, with [override], all lines and
    those whose name had a value. *)
Theorem env_file_loaded is_alphanumeric override bom kvs env :
  Forall storable kvs ->
  exists env', load is_alphanumeric override (read_lines [] (env_file bom kvs)) env =
      Some (Ret (Ok (mkLoad (if override then zlen kvs else Z.of_nat (size (new_keys env kvs)))
                            (zlen kvs - Z.of_nat (size (new_keys env kvs)))), env')) /\
    forall x, env' !! x = loaded_value override env kvs x.
Proof.
  intros Hs. assert (Forall (fun kv => is_key kv.1 = true) kvs) as Hk by (eapply Forall_impl; [exact Hs|by intros ? []]).
  unfold load. rewrite remove_bom_entries by done.
  destruct (load_entries is_alphanumeric override kvs Hs (S (length (read_lines [] (env_file bom kvs)))) env ∅ (mkLoad 0 0))
    as (env' & E & He); [|done|by exists env'].
  assert (length (remove_bom (read_lines [] (env_file bom kvs))) <= length (read_lines [] (env_file bom kvs)))%nat as Hl.
  { unfold remove_bom. destruct (read_lines _ _) as [|[l|] r]; [done| |done]. destruct l as [|c l]; [done|].
    repeat (destruct c as [|c|c]; try done). by destruct l; cbn; lia. }
  rewrite remove_bom_entries, length_fmap in Hl by done. lia.
Qed.

Definition example_vars : list (text * text) :=
  [(as_bytes "HOST", as_bytes "a b#c"); (as_bytes "PORT", as_bytes "$1\"); (as_bytes "HOST", [34; 10])].
Lemma env_file_loaded_witness :
  Forall storable example_vars /\
  exists env', load is_ascii_alphanumeric true (read_lines [] (env_file true example_vars)) ∅ =
      Some (Ret (Ok (mkLoad 3 1), env')) /\ env' !! as_bytes "HOST" = Some (Some [34; 10]).
Proof.
  assert (Forall storable example_vars) as Hs.
  { unfold example_vars. rewrite !Forall_cons. split_and!; [..|done]; (split; [reflexivity|vm_compute; intuition discriminate]). }
  split; [exact Hs|].
  destruct (env_file_loaded is_ascii_alphanumeric true true example_vars ∅ Hs) as (env' & E & He). exists env'.
  split; [rewrite E; vm_compute; reflexivity|]. rewrite He. vm_compute. reflexivity.
Defined.

(** The name of a variable behind a dollar sign, in double quotes. *)
Lemma name_loop is_alphanumeric env input data name rest :
  Forall (fun c => is_alphanumeric c = true) name -> forall i seen, exists j,
  value_loop is_alphanumeric env input data i (mkValue false true false false [] Block seen) (name ++ rest) =
  value_loop is_alphanumeric env input data j (mkValue false true false false [] Block (seen ++ name)) rest.
Proof.
  induction 1 as [|c name Hc _ IH]; intros i seen.
  - exists i. by rewrite app_nil_r.
  - cbn [app value_loop]. unfold value_step. cbn [expecting_end escaped strong_quote substitution_mode]. rewrite Hc.
    destruct (IH (i + 1) (seen ++ [c])) as [j E]. exists j. unfold push_name. cbn. rewrite E. by rewrite <- app_assoc.
Qed.

(** What is wrong with the reader of these files.  A value in double quotes that
    ends with a variable, such as ["$A"], is an error whatever the variable holds:
    the quote behind the name is taken into the value and the value does not end.  A
    file that ends with a blank behind an entry, without a line feed, is an error.
    And a NUL in a value aborts the program. *)
Theorem env_file_faults is_alphanumeric env :
  (forall data name, is_alphanumeric 34 = false -> Forall (fun c => is_alphanumeric c = true) name ->
     exists e, parse_value is_alphanumeric env ([34; 36] ++ name ++ [34]) data = Err e) /\
  (forall key value, is_key key = true -> Forall (fun c => key_char c = true) value ->
     load is_alphanumeric false (read_lines [] (key ++ [61] ++ value ++ [32])) env =
       Some (Ret (Err (LineParse (key ++ [61] ++ value ++ [32]) (text_len (key ++ [61] ++ value ++ [32]))), env))) /\
  (forall override key value, is_key key = true -> In 0 value -> var env key = None ->
     load is_alphanumeric override (read_lines [] (entry_line (key, value))) env = Some Panic).
Proof.
  split_and!.
  - intros data name Hq Hn. unfold parse_value. set (input := [34; 36] ++ name ++ [34]) at 1 3 4. cbn [app value_loop].
    change (value_step is_alphanumeric env data value_start 34) with (Next (in_quotes [])). cbv iota.
    change (value_step is_alphanumeric env data (in_quotes []) 36) with (Next (mkValue false true false false [] Block [])). cbv iota.
    destruct (name_loop is_alphanumeric env input data name [34] Hn (0 + 1 + 1) []) as [j Ej]. rewrite Ej. cbn [value_loop].
    unfold value_step. cbn [expecting_end escaped strong_quote substitution_mode]. rewrite Hq. cbn. by eexists.
  - intros key value Hk Hv. destruct (is_key_chars key Hk) as [Hc (c & key' & Ekey & Hst)].
    pose proof (key_char_plain c (key_start_char c Hst)) as Hp.
    set (l := key ++ [61] ++ value ++ [32]).
    assert (read_lines [] l = [Some l]) as ->.
    { apply (read_last_line l) with (acc := []); [|right; unfold l; by rewrite Ekey].
      unfold l. rewrite !Forall_app, !Forall_singleton. split_and!; try done;
        (eapply Forall_impl; [eassumption|]); cbn; intros x Hx%key_char_plain; lia. }
    assert (walks Complete l WhiteSpace) as Hw.
    { unfold l. eapply walks_app; [by apply walks_key|]. apply (walks_app _ [61] Complete); [by apply walks_char|].
      eapply walks_app; [by apply walks_key|]. by apply walks_char. }
    apply walks_end in Hw as [cp Ew].
    unfold load. assert (remove_bom [Some l] = [Some l]) as ->.
    { unfold l. rewrite Ekey. by apply remove_bom_key. }
    cbn [load_loop DotEnv.lines iter_next next_line app].
    assert (starts_with 35 (trim_start l) = false) as ->.
    { unfold l. rewrite Ekey. cbn [app]. rewrite trim_start_nonspace by apply Hp. cbn. apply Z.eqb_neq. lia. }
    rewrite Ew. cbn [mbind outcome_bind next_line]. done.
  - intros override key value Hk Hv Hn. pose proof (read_entries [(key, value)]) as Hr. cbn [mbind list_bind app] in Hr.
    rewrite app_nil_r in Hr. rewrite Hr by (by constructor).
    destruct (is_key_chars key Hk) as [_ (c & key' & Ekey & Hst)]. unfold load.
    assert (remove_bom [Some (entry_line (key, value))] = [Some (entry_line (key, value))]) as E.
    { unfold entry_line. cbn [fst]. rewrite Ekey. by apply remove_bom_key. }
    cbn [fmap list_fmap]. rewrite E. cbn [load_loop length fmap list_fmap DotEnv.lines]. rewrite iter_entry by done. cbv iota zeta.
    cbn [fst snd]. rewrite Hn. rewrite bool_decide_eq_false_2 by (by intros [? ?]).
    assert (set_var key value env = Panic) as ->; [|by destruct override].
    unfold set_var. assert (existsb (Z.eqb 0) value = true) as ->; [|by rewrite orb_true_r].
    apply existsb_exists. by exists 0.
Qed.

Lemma env_file_faults_witness :
  exists e, parse_value is_ascii_alphanumeric ∅ [34; 36; 65; 34] ∅ = Err e.
Proof.
  exact (proj1 (env_file_faults is_ascii_alphanumeric ∅) ∅ [65] eq_refl ltac:(repeat constructor)).
Defined.
(** The same entry with a line feed is read. *)
Example blank_before_line_feed :
  match load is_ascii_alphanumeric false (read_lines [] (as_bytes "A=b " ++ [10])) ∅ with
  | Some (Ret (Ok n, env)) => n = mkLoad 1 0 /\ env !! as_bytes "A" = Some (Some (as_bytes "b"))
  | _ => False
  end.
Proof. split; vm_compute; reflexivity. Qed.

(** ** Termination, and what loading keeps *)

#[export] Instance parse_state_eq_dec : EqDecision ParseState.
Proof. solve_decision. Defined.
Lemma eval_returns s cp p b : s <> Comment -> exists x, eval_loop s cp p b = Ret x.
Proof.
  revert s cp p. induction b as [|c b IH]; intros s cp p Hs; cbn [eval_loop]; [by eexists|].
  assert (exists s', next_state s c = Ret s' /\ (s' = Comment -> s = WhiteSpace)) as (s' & -> & Hc).
  { destruct s; cbn [next_state]; try done; eexists; (split; [done|]); repeat case_match; done. }
  cbn [mbind outcome_bind]. destruct (decide (s' = Comment)) as [->|Hne].
  - rewrite Hc by done. by eexists.
  - destruct s; try done; destruct s'; try done; apply IH; done.
Qed.
Lemma next_line_progress ls : forall buf st, st <> Comment -> exists r rest, next_line ls buf st = Ret (r, rest) /\
  (ls <> [] -> (length rest < length ls)%nat) /\ (ls = [] -> rest = [] /\ (st = Complete -> r = None)).
Proof.
  induction ls as [|[l|] ls IH]; intros buf st Hst; cbn [next_line].
  - eexists _, []. split_and!; [done..|]. intros _. split; [done|]. by intros ->.
  - destruct (starts_with _ _); [eexists _, ls; split_and!; [done|cbn; lia|done]|].
    destruct (eval_returns st 0 0 l Hst) as [[cp st'] E]. unfold eval_end_state. rewrite E. cbn [mbind outcome_bind].
    destruct (decide (st' = Comment \/ st' = Complete)) as [Hd|Hd].
    + destruct Hd as [-> | ->]; (eexists _, ls; split_and!; [done|cbn; lia|done]).
    + destruct (IH (buf ++ l) st') as (r & rest & E' & H1 & H2); [tauto|].
      exists r, rest. split_and!; [|intros _|done].
      * destruct st'; try done; tauto.
      * destruct ls; [destruct H2 as [-> _]; [done|cbn; lia]|]. cbn [length] in *. specialize (H1 ltac:(done)). lia.
  - eexists _, ls. split_and!; [done|cbn; lia|done].
Qed.
Lemma iter_progress is_alphanumeric env fuel : forall it, (length (lines it) < fuel)%nat ->
  exists r it', iter_next is_alphanumeric fuel env it = Some (Ret (r, it')) /\
    (is_Some r -> (length (lines it') < length (lines it))%nat).
Proof.
  induction fuel as [|fuel IH]; intros [ls data] Hf; cbn [DotEnv.lines] in *; [lia|]. cbn [iter_next DotEnv.lines substitution_data].
  destruct (next_line_progress ls [] Complete) as (r & rest & -> & H1 & H2); [done|].
  assert (is_Some r -> (length rest < length ls)%nat) as Hlt.
  { intros [x ->]. apply H1. intros ->. by destruct H2 as [_ H2]; [|specialize (H2 eq_refl)]. }
  destruct r as [[l|e]|].
  - specialize (Hlt ltac:(done)). destruct (parse_line is_alphanumeric env l data) as [[[r|]|e] data'].
    + eexists _, _. split; [reflexivity|]. intros _. exact Hlt.
    + destruct (IH (mkIter rest data')) as (r & it' & E & H); [cbn; lia|]. exists r, it'. split; [done|].
      intros Hr. specialize (H Hr). cbn in H. lia.
    + eexists _, _. split; [reflexivity|]. intros _. exact Hlt.
  - eexists _, _. split; [reflexivity|]. intros _. by apply Hlt.
  - eexists _, _. split; [done|]. by intros [? ?].
Qed.

Lemma load_loop_total is_alphanumeric override fuel : forall env it n, (length (lines it) < fuel)%nat ->
  exists o, load_loop is_alphanumeric override fuel env it n = Some o /\ o <> Undef /\
    forall r env', o = Ret (r, env') -> override = false ->
      forall k v, var env k = Some v -> var env' k = Some v.
Proof.
  induction fuel as [|fuel IH]; intros env it n Hf; [lia|]. cbn [load_loop].
  destruct (iter_progress is_alphanumeric env (S (length (lines it))) it) as (r & it' & -> & Hlt); [lia|].
  destruct r as [[[key value]|e]|].
  - specialize (Hlt ltac:(done)). case_bool_decide as Hp; destruct override.
    + unfold set_var. destruct (_ || _); [by eexists|]. edestruct IH as (o & E & Hu & _); [|exists o; split_and!; [exact E|done|done]]. lia.
    + apply IH. lia.
    + unfold set_var. destruct (_ || _); [by eexists|]. edestruct IH as (o & E & Hu & _); [|exists o; split_and!; [exact E|done|done]]. lia.
    + unfold set_var. destruct ((length key =? 0)%nat || _ || _) eqn:Eb; [by eexists|].
      edestruct IH as (o & E & Hu & Hk); [|exists o; split_and!; [exact E|done|]]; [lia|].
      intros r env' Ho _ k v Hv. apply (Hk r env' Ho eq_refl). rewrite var_insert by (by destruct key).
      case_decide; [subst; by destruct Hp|done].
  - eexists. split_and!; [done..|]. by intros r env' [= <- <-].
  - eexists. split_and!; [done..|]. by intros r env' [= <- <-].
Qed.
(** Loading any file ends, without undefined behaviour, and without [override] keeps
    every value the environment has, even if it stops at an error. *)
Lemma load_total is_alphanumeric override file env :
  exists o, load is_alphanumeric override file env = Some o /\ o <> Undef /\
    forall r env', o = Ret (r, env') -> override = false -> forall k v, var env k = Some v -> var env' k = Some v.
Proof.
  apply load_loop_total. cbn [DotEnv.lines]. unfold remove_bom. destruct file as [|[l|] r]; try (cbn; lia).
  destruct l as [|c l]; [cbn; lia|]. repeat (destruct c as [|c|c]; try (cbn; lia)). destruct l; cbn; lia.
Qed.
