(* ===== verification/NaturalArgs.v ===== *)
(** * The command line

    [src/src/natural_args.rs]: the arguments of the program as sentences ("import env
    from prod.env overriding existing", "listen on localhost port 3000"), their
    tokens, the actions they stand for, and the environment the actions leave.

    Arguments are texts of characters; the files that [dotenvy] searches for are the
    parameter [find], with the text of an error of the file system in [io_text]. *)
From S2P Require Import Prelude Strings Chars DotEnv.

Definition chars (s : string) : text := as_bytes s.

Definition WORD_ME : text := chars "me".
Definition DEFAULT_ENV_FILE : text := chars ".env".
Definition DEFAULT_LISTEN_HOST : text := chars "0.0.0.0".
Definition DEFAULT_LISTEN_PORT : text := chars "3000".
Definition ENV_HOST : text := chars "HOST".
Definition ENV_PORT : text := chars "PORT".

Inductive Token : Type :=
| Import | Env | From | Listen | On | Port | Help | Question | Override | Overriding | And | Existing
| TString (s : text) | TNumber (s : text).

Inductive Action : Type :=
| ImportEnv (file : option text) (override_existing : bool)
| ListenOn (host port : option text)
| HelpAction.

(** [word.parse::<u16>().is_ok()]. *)
Definition is_u16 (word : text) : bool :=
  match word with
  | [] => false
  | 43 :: ((_ :: _) as digits) => bool_decide (is_Some (parse_digits 16 0 digits))
  | _ => bool_decide (is_Some (parse_digits 16 0 word))
  end.

Definition KEYWORDS : list (text * Token) :=
  [(chars "import", Import); (chars "env", Env); (chars "from", From); (chars "listen", Listen); (chars "on", On);
   (chars "port", Port); (chars "help", Help); (chars "?", Question); (chars "override", Override);
   (chars "overriding", Overriding); (chars "and", And); (chars "existing", Existing)].
Fixpoint keyword (word : text) (ks : list (text * Token)) : option Token :=
  match ks with
  | [] => None
  | (k, t) :: ks => if bool_decide (word = k) then Some t else keyword word ks
  end.
Definition token_of (word : text) : Token :=
  match keyword word KEYWORDS with
  | Some t => t
  | None => if is_u16 word then TNumber word else TString word
  end.
Definition from_args (args : list text) : list Token := args ≫= (fun arg => token_of <$> split_whitespace arg).

(** "listen on <address>": [number] tells that the token is a number. *)
Definition listen_address (addr : text) (number : bool) : Action :=
  match split_once 58 addr with
  | Some (host, port) => ListenOn (Some host) (Some port)
  | None => if number then ListenOn None (Some addr) else ListenOn (Some addr) None
  end.

(** One turn of the loop of [parse]: the action if there is one, and how many tokens
    are passed. *)
Definition parse_step (tokens : list Token) : list Action * nat :=
  match tokens with
  | Import :: Env :: From :: TString file :: And :: Override :: Existing :: _ => ([ImportEnv (Some file) true], 7)
  | Import :: Env :: And :: Override :: Existing :: _ => ([ImportEnv None true], 5)
  | Import :: Env :: Overriding :: Existing :: _ => ([ImportEnv None true], 4)
  | Import :: Env :: From :: TString file :: Overriding :: Existing :: _ => ([ImportEnv (Some file) true], 6)
  | Import :: Env :: From :: TString file :: _ => ([ImportEnv (Some file) false], 4)
  | Import :: Env :: _ => ([ImportEnv None false], 2)
  | Listen :: On :: TString host :: Port :: TNumber port_str :: _ => ([ListenOn (Some host) (Some port_str)], 5)
  | Listen :: On :: Port :: TNumber port_str :: _ => ([ListenOn None (Some port_str)], 4)
  | Listen :: On :: TString addr :: _ => ([listen_address addr false], 3)
  | Listen :: On :: TNumber addr :: _ => ([listen_address addr true], 3)
  | Help :: TString s :: _ => ([HelpAction], if bool_decide (s = WORD_ME) then 2 else 1)
  | Help :: _ => ([HelpAction], 1)
  | Question :: _ => ([HelpAction], 1)
  | TString w1 :: TString w2 :: TString w3 :: TString w4 :: _ =>
      if bool_decide ([w1; w2; w3; w4] = [chars "what"; chars "can"; chars "you"; chars "do"])
      then ([HelpAction], 4) else ([], 1)
  | _ => ([], 1)
  end%nat.
(** [fuel] is the number of tokens: every turn passes at least one. *)
Fixpoint parse_loop (fuel : nat) (tokens : list Token) : list Action :=
  match fuel with
  | O => []
  | S fuel =>
      match tokens with
      | [] => []
      | _ => let '(actions, n) := parse_step tokens in actions ++ parse_loop fuel (drop n tokens)
      end
  end.
Definition parse (tokens : list Token) : list Action := parse_loop (length tokens) tokens.

(** ** Running the actions *)

Record World : Type := mkWorld { vars : Environment; printed : text; complained : text; exited : bool }.
Definition print (s : text) (w : World) : World := mkWorld (vars w) (printed w ++ s) (complained w) (exited w).
Definition eprint (s : text) (w : World) : World := mkWorld (vars w) (printed w) (complained w ++ s) (exited w).
Definition set_vars (env : Environment) (w : World) : World := mkWorld env (printed w) (complained w) (exited w).

Definition number (n : Z) : text := chars (to_dec n).
(** [Display] for the errors of [dotenvy]. *)
Definition error_text (io_text : text) (e : Error) : text :=
  match e with
  | LineParse line index =>
      chars "Error parsing line: '" ++ line ++ chars "', error at line index: " ++ number index
  | Io => io_text
  end.

(** The help text, split where the name of the program stands. *)
Definition HELP : list string :=
  ["
Hi! I'm "%string;
   ", and here's what I understand:

📦 Environment stuff:
   "%string;
   " import env                                      Load from default .env file
   "%string;
   " import env from config.env                      Load environment from a specific file
   "%string;
   " import env and override existing                Override existing vars from .env
   "%string;
   " import env overriding existing                  Alternative syntax for override
   "%string;
   " import env from prod.env and override existing  Override from specific file
   "%string;
   " import env from prod.env overriding existing    Alternative syntax

🌐 Server stuff:  
   "%string;
   " listen on 127.0.0.1 port 8080                   Listen on specific IP and port
   "%string;
   " listen on localhost port 3000                   Listen on localhost with port
   "%string;
   " listen on port 8080                             Listen on all interfaces (0.0.0.0)
   "%string;
   " listen on 192.168.1.1:8080                      IP:port format
   "%string;
   " listen on 8080                                  Just the port (defaults to 0.0.0.0)
   "%string;
   " listen on localhost                             Just the host (defaults to port 3000)

❓ Getting help:  
   "%string;
   " help                                            Show this message
   "%string;
   " help me                                         Same thing, but more polite
   "%string;
   " ?                                               Quick help
   "%string;
   " what can you do                                 Natural language help

Examples:
   "%string;
   " import env from .env.prod and override existing listen on 10.0.0.1 port 8080
   "%string;
   " listen on localhost:5000 import env overriding existing
"%string].
Definition print_help (program : text) (w : World) : World :=
  print (join_with program (chars <$> HELP) ++ [10]) w.

Section run.
Context (is_alphanumeric : Z -> bool) (find : text -> option Reader) (io_text : text).

Definition load_message (filename : text) (override_existing : bool) (r : LoadResult) : text :=
  chars "Importing environment from " ++ filename ++ chars " (loaded: " ++ number (loaded r) ++
  (if skipped_or_overridden r >? 0 then
     chars (if override_existing then ", overridden: " else ", skipped: ") ++ number (skipped_or_overridden r)
   else []) ++ chars ")" ++ [10].
Definition load_env_file (filename : text) (override_existing : bool) (w : World) : outcome World :=
  match find filename with
  | None => Ret (eprint (chars "Failed to load " ++ filename ++ chars ": " ++ error_text io_text Io ++ [10]) w)
  | Some file =>
      r ← default Undef (load is_alphanumeric override_existing file (vars w));
      match r with
      | (Ok result, env) => Ret (print (load_message filename override_existing result) (set_vars env w))
      | (Err e, env) => Ret (eprint (chars "Failed to load " ++ filename ++ chars ": " ++ error_text io_text e ++ [10]) (set_vars env w))
      end
  end.

Definition run_action (program_name : text) (action : Action) (w : World) : outcome World :=
  match action with
  | ImportEnv file override_existing => load_env_file (default DEFAULT_ENV_FILE file) override_existing w
  | ListenOn host port =>
      let h := default DEFAULT_LISTEN_HOST host in
      let p := default DEFAULT_LISTEN_PORT port in
      let w := print (chars "Starting server on " ++ h ++ chars ":" ++ p ++ [10]) w in
      env ← set_var ENV_HOST h (vars w);
      env ← set_var ENV_PORT p env;
      Ret (set_vars env w)
  | HelpAction =>
      let w := print_help program_name w in Ret (mkWorld (vars w) (printed w) (complained w) true)
  end.
Fixpoint run_actions (program_name : text) (actions : list Action) (w : World) : outcome World :=
  match actions with
  | [] => Ret w
  | action :: actions =>
      w ← run_action program_name action w;
      if exited w then Ret w else run_actions program_name actions w
  end.

(** [__process_args_impl]. *)
Definition process_args (program_name : text) (args : list text) (w : World) : outcome World :=
  match args with
  | [] => load_env_file DEFAULT_ENV_FILE false w
  | _ =>
      match parse (from_args args) with
      | [] =>
          Ret (eprint (chars "I don't understand '" ++ join_with [32] args ++ chars "'" ++ [10] ++ chars "Try '" ++
                       program_name ++ chars " help' to see what I can do" ++ [10; 10]) w)
      | actions => run_actions program_name actions w
      end
  end.
End run.

(** ** The sentences of the help text *)

Inductive Importing : Type := KeepExisting | AndOverride | OverridingExisting.
Inductive Helping : Type := JustHelp | HelpMe | QuestionMark | WhatCanYouDo.
Inductive Sentence : Type :=
| SImport (file : option text) (how : Importing)
| SListenHostPort (host port : text)
| SListenPort (port : text)
| SListenColon (host port : text)
| SListenNumber (port : text)
| SListenHost (host : text)
| SHelp (how : Helping).

Definition sentence_words (s : Sentence) : list text :=
  match s with
  | SImport file how =>
      [chars "import"; chars "env"] ++ match file with Some f => [chars "from"; f] | None => [] end ++
      match how with
      | KeepExisting => []
      | AndOverride => [chars "and"; chars "override"; chars "existing"]
      | OverridingExisting => [chars "overriding"; chars "existing"]
      end
  | SListenHostPort host port => [chars "listen"; chars "on"; host; chars "port"; port]
  | SListenPort port => [chars "listen"; chars "on"; chars "port"; port]
  | SListenColon host port => [chars "listen"; chars "on"; host ++ [58] ++ port]
  | SListenNumber port => [chars "listen"; chars "on"; port]
  | SListenHost host => [chars "listen"; chars "on"; host]
  | SHelp JustHelp => [chars "help"]
  | SHelp HelpMe => [chars "help"; chars "me"]
  | SHelp QuestionMark => [chars "?"]
  | SHelp WhatCanYouDo => [chars "what"; chars "can"; chars "you"; chars "do"]
  end.
Definition meaning (s : Sentence) : Action :=
  match s with
  | SImport file how => ImportEnv file (match how with KeepExisting => false | _ => true end)
  | SListenHostPort host port | SListenColon host port => ListenOn (Some host) (Some port)
  | SListenPort port | SListenNumber port => ListenOn None (Some port)
  | SListenHost host => ListenOn (Some host) None
  | SHelp _ => HelpAction
  end.
(** A name is a word that is neither a keyword nor a number. *)
Definition is_name (w : text) : Prop := token_of w = TString w.
Definition sentence_wf (s : Sentence) : Prop :=
  match s with
  | SImport (Some file) _ => is_name file
  | SListenHostPort host port => is_name host /\ token_of port = TNumber port
  | SListenPort port | SListenNumber port => token_of port = TNumber port
  | SListenColon host _ => Forall (fun c => c <> 58) host
  | SListenHost host => is_name host /\ Forall (fun c => c <> 58) host
  | _ => True
  end.

(** ** Lemmas *)

Lemma keyword_in word ks t : keyword word ks = Some t -> In (word, t) ks.
Proof.
  induction ks as [|[k t'] ks IH]; [done|]. cbn [keyword]. case_bool_decide as E; [intros [= <-]; left; by subst|right; auto].
Qed.
Lemma parse_digits_all w acc ds : is_Some (parse_digits w acc ds) -> Forall (fun c => is_ascii_digit c = true) ds.
Proof.
  revert acc. induction ds as [|c ds IH]; intros acc [v H]; [constructor|]. cbn [parse_digits] in H.
  destruct (is_ascii_digit c) eqn:E; [|done]. destruct (_ <? _); [|done]. constructor; [done|]. eapply IH. by eexists.
Qed.
Lemma is_u16_chars w : is_u16 w = true -> Forall (fun c => c = 43 \/ is_ascii_digit c = true) w.
Proof.
  assert (forall ds, bool_decide (is_Some (parse_digits 16 0 ds)) = true -> Forall (fun c => c = 43 \/ is_ascii_digit c = true) ds) as H.
  { intros ds Hd%bool_decide_eq_true%parse_digits_all. eapply Forall_impl; [exact Hd|]. cbn. auto. }
  unfold is_u16. destruct w as [|c w]; [done|]. destruct (decide (c = 43)) as [->|Hc].
  - destruct w as [|d w]; [apply H|]. intros Hd%H. constructor; [by left|done].
  - intros Hw. apply H. by repeat (destruct c as [|c|c]; try done).
Qed.
(** A word with a colon is a name, and a number has none. *)
Lemma colon_name w : In 58 w -> is_name w.
Proof.
  intros Hin. unfold is_name, token_of. destruct (keyword w KEYWORDS) as [t|] eqn:E.
  - apply keyword_in in E. exfalso. cbn in E. repeat (destruct E as [[= <- _]|E]; [vm_compute in Hin; lia|]). done.
  - destruct (is_u16 w) eqn:Eu; [|done]. apply is_u16_chars in Eu. rewrite Forall_forall in Eu. exfalso.
    apply list_elem_of_In, Eu in Hin as [?|?]; done.
Qed.
Lemma number_no_colon w : token_of w = TNumber w -> split_once 58 w = None.
Proof.
  unfold token_of. destruct (keyword w KEYWORDS) as [t|] eqn:E.
  - intros ->. apply keyword_in in E. cbn in E. by repeat (destruct E as [E|E]; [discriminate|]).
  - destruct (is_u16 w) eqn:Eu; [|done]. intros _. apply split_once_absent.
    apply is_u16_chars in Eu. eapply Forall_impl; [exact Eu|]. cbn. intros c [?|?]; [lia|by intros ->].
Qed.

Lemma parse_loop_nil fuel : parse_loop fuel [] = [].
Proof. by destruct fuel. Qed.
Lemma step_progress ts : (1 <= (parse_step ts).2)%nat.
Proof. unfold parse_step. repeat case_match; cbn; lia. Qed.
Lemma parse_loop_enough f1 : forall f2 ts, (length ts <= f1)%nat -> (length ts <= f2)%nat -> parse_loop f1 ts = parse_loop f2 ts.
Proof.
  induction f1 as [|f1 IH]; intros f2 [|t ts] H1 H2; cbn [length] in *; try lia.
  - by rewrite (parse_loop_nil f2).
  - by rewrite !parse_loop_nil.
  - destruct f2 as [|f2]; [lia|]. cbn [parse_loop]. pose proof (step_progress (t :: ts)) as Hp.
    destruct (parse_step (t :: ts)) as [acts n]. cbn [snd] in Hp. f_equal. apply IH; rewrite length_drop; cbn [length]; lia.
Qed.
Lemma parse_one ts rest a : parse_step (ts ++ rest) = ([a], length ts) -> parse (ts ++ rest) = a :: parse rest.
Proof.
  intros E. pose proof (step_progress (ts ++ rest)) as Hp. rewrite E in Hp. cbn [snd] in Hp.
  unfold parse. destruct ts as [|t ts]; [cbn in Hp; lia|]. cbn [app length parse_loop] in *. rewrite E.
  replace (drop (S (length ts)) (t :: ts ++ rest)) with rest by (cbn; by rewrite drop_app_length). cbn [app]. f_equal.
  apply parse_loop_enough; rewrite ?length_app; lia.
Qed.

(** What can stand behind a sentence: the end or the first word of another. *)
Definition starter (ts : list Token) : Prop :=
  match ts with
  | [] | Import :: _ | Listen :: _ | Help :: _ | Question :: _ => True
  | TString w :: _ => w = chars "what"
  | _ => False
  end.
Lemma sentence_starter s rest : starter ((token_of <$> sentence_words s) ++ rest).
Proof. destruct s as [file how|host port|port|host port|port|host|[]]; done. Qed.

Ltac keyword_tokens :=
  repeat match goal with
  | |- context [token_of (chars ?w)] =>
      let t := eval vm_compute in (token_of (chars w)) in change (token_of (chars w)) with t
  end.
Ltac keyword_words :=
  repeat match goal with
  | |- context [split_whitespace (chars ?w)] =>
      replace (split_whitespace (chars w)) with [chars w] by (vm_compute; reflexivity)
  end.
Lemma sentence_step s rest : sentence_wf s -> starter rest ->
  parse_step ((token_of <$> sentence_words s) ++ rest) = ([meaning s], length (token_of <$> sentence_words s)).
Proof.
  intros Hs Hr. destruct s as [file how|host port|port|host port|port|host|how]; cbn [sentence_wf] in Hs.
  - destruct file as [file|]; [unfold is_name in Hs|]; destruct how; cbn [sentence_words app fmap list_fmap length];
      keyword_tokens; rewrite ?Hs; destruct rest as [|[] rest]; done.
  - destruct Hs as [Hh Hp]. unfold is_name in Hh. cbn [sentence_words fmap list_fmap app]. keyword_tokens. by rewrite Hh, Hp.
  - cbn [sentence_words fmap list_fmap app]. keyword_tokens. by rewrite Hs.
  - cbn [sentence_words fmap list_fmap app]. keyword_tokens. rewrite colon_name by (apply in_app_iff; right; by left).
    assert (listen_address (host ++ 58 :: port) false = meaning (SListenColon host port)) as <-.
    { unfold listen_address. by rewrite split_once_char. }
    destruct rest as [|[] rest]; done.
  - cbn [sentence_words fmap list_fmap app]. keyword_tokens. rewrite Hs.
    assert (listen_address port true = meaning (SListenNumber port)) as <-.
    { unfold listen_address. by rewrite number_no_colon. }
    destruct rest as [|[] rest]; done.
  - destruct Hs as [Hh Hc]. unfold is_name in Hh. cbn [sentence_words fmap list_fmap app]. keyword_tokens. rewrite Hh.
    assert (listen_address host false = meaning (SListenHost host)) as <-.
    { unfold listen_address. by rewrite split_once_absent. }
    destruct rest as [|[] rest]; done.
  - destruct how; cbn [sentence_words fmap list_fmap app]; keyword_tokens; destruct rest as [|[] rest]; try done.
    cbn in Hr. by subst.
Qed.

Lemma parse_sentences ss : Forall sentence_wf ss -> parse (token_of <$> (ss ≫= sentence_words)) = meaning <$> ss.
Proof.
  induction 1 as [|s ss Hs _ IH]; [done|]. cbn [mbind list_bind fmap list_fmap]. rewrite fmap_app, (parse_one _ _ (meaning s)).
  - by rewrite <- IH.
  - apply sentence_step; [done|]. destruct ss as [|s' ss]; [done|]. cbn [mbind list_bind]. rewrite fmap_app. apply sentence_starter.
Qed.
Lemma from_args_words args : from_args args = token_of <$> (args ≫= split_whitespace).
Proof.
  unfold from_args. induction args as [|a args IH]; [done|]. cbn [mbind list_bind] in *. by rewrite fmap_app, <- IH.
Qed.

(** ** The theorems *)

(** Every sequence of sentences of the help text is understood as the actions they
    stand for, in order, whatever the names of files and hosts are and however the
    shell cuts the words into arguments. *)
Theorem commands_understood ss args :
  Forall sentence_wf ss -> args ≫= split_whitespace = ss ≫= sentence_words ->
  parse (from_args args) = meaning <$> ss.
Proof. intros Hs E. rewrite from_args_words, E. by apply parse_sentences. Qed.

Definition example_sentences : list Sentence :=
  [SImport (Some (chars "prod.env")) OverridingExisting; SListenColon (chars "localhost") (chars "5000"); SHelp JustHelp].
Definition example_args : list text :=
  [chars "import env from prod.env"; chars "overriding"; chars "existing listen on localhost:5000"; chars "help"].
Lemma commands_understood_witness :
  parse (from_args example_args) =
    [ImportEnv (Some (chars "prod.env")) true; ListenOn (Some (chars "localhost")) (Some (chars "5000")); HelpAction].
Proof.
  apply (commands_understood example_sentences); [|vm_compute; reflexivity].
  unfold example_sentences. rewrite !Forall_cons. split_and!; [vm_compute; reflexivity| |done|done].
  cbn [sentence_wf]. vm_compute. repeat (constructor; [discriminate|]). constructor.
Defined.

(** Words that look like sentences and are read as something else, without a
    word to the user.  A file whose name is a number is not loaded, but the default
    file is; a port beyond 65535 is left out, and the default port is used; an IPv6
    address is cut at its first colon. *)
Theorem commands_misread :
  (forall n, split_whitespace n = [n] -> token_of n = TNumber n ->
     parse (from_args [chars "import"; chars "env"; chars "from"; n]) = [ImportEnv None false]) /\
  (forall h p, split_whitespace h = [h] -> split_whitespace p = [p] -> is_name h -> is_name p ->
     Forall (fun c => c <> 58) h ->
     parse (from_args [chars "listen"; chars "on"; h; chars "port"; p]) = [ListenOn (Some h) None]) /\
  parse (from_args [chars "listen on [::1]:8080"]) = [ListenOn (Some (chars "[")) (Some (chars ":1]:8080"))].
Proof.
  split_and!.
  - intros n Hw Hn. rewrite from_args_words. cbn [mbind list_bind]. rewrite Hw. keyword_words.
    cbn [app fmap list_fmap]. keyword_tokens. by rewrite Hn.
  - intros h p Hh Hp Ht Hq Hc. unfold is_name in *. rewrite from_args_words. cbn [mbind list_bind].
    rewrite Hh, Hp. keyword_words. cbn [app fmap list_fmap]. keyword_tokens. rewrite Ht, Hq.
    unfold parse. cbn [length parse_loop parse_step drop app]. unfold listen_address. by rewrite split_once_absent.
  - vm_compute. reflexivity.
Qed.
Lemma commands_misread_witness :
  parse (from_args [chars "listen"; chars "on"; chars "localhost"; chars "port"; chars "70000"]) =
    [ListenOn (Some (chars "localhost")) None].
Proof.
  apply (proj1 (proj2 commands_misread)); [vm_compute; reflexivity..|].
  vm_compute. repeat (constructor; [discriminate|]). constructor.
Defined.

(** ** The environment the actions leave *)

Section environment.
Context (is_alphanumeric : Z -> bool) (find : text -> option Reader) (io_text : text) (program : text).

Lemma load_env_file_spec filename override_existing w :
  load_env_file is_alphanumeric find io_text filename override_existing w <> Undef /\
  forall w', load_env_file is_alphanumeric find io_text filename override_existing w = Ret w' ->
    exited w' = exited w /\
    (override_existing = false -> forall k v, var (vars w) k = Some v -> var (vars w') k = Some v).
Proof using.
  unfold load_env_file. destruct (find filename) as [file|].
  - destruct (load_total is_alphanumeric override_existing file (vars w)) as (o & -> & Hu & Hk). cbn [default].
    destruct o as [[[r|e] env]| |]; cbn [mbind outcome_bind default option_union]; try done.
    + split; [done|]. intros w' [= <-]. split; [done|]. cbn. by eapply Hk.
    + split; [done|]. intros w' [= <-]. split; [done|]. cbn. by eapply Hk.
  - split; [done|]. by intros w' [= <-].
Qed.

Lemma set_var_defined key value env : set_var key value env <> Undef.
Proof using. unfold set_var. by destruct (_ || _). Qed.

(** Actions that leave the address alone. *)
Definition keeps_address (a : Action) : Prop :=
  match a with ListenOn _ _ | ImportEnv _ true => False | _ => True end.

Lemma run_action_spec a w :
  run_action is_alphanumeric find io_text program a w <> Undef /\
  forall w', run_action is_alphanumeric find io_text program a w = Ret w' ->
    (keeps_address a -> forall k v, var (vars w) k = Some v -> var (vars w') k = Some v).
Proof using.
  destruct a as [file over|host port|]; cbn [run_action].
  - destruct (load_env_file_spec (default DEFAULT_ENV_FILE file) over w) as [Hu Hk]. split; [done|].
    intros w' E. apply Hk in E as [_ E]. destruct over; [by intros []|]. intros _. by apply E.
  - split; [|by intros w' _ []]. intros E.
    destruct (set_var ENV_HOST _ _) as [e1| |] eqn:E1; cbn [mbind outcome_bind] in E; [|done|by apply set_var_defined in E1].
    destruct (set_var ENV_PORT _ e1) as [e2| |] eqn:E2; cbn [mbind outcome_bind] in E; [done|done|by apply set_var_defined in E2].
  - split; [done|]. by intros w' [= <-].
Qed.
Lemma run_listen host port w w' :
  run_action is_alphanumeric find io_text program (ListenOn host port) w = Ret w' ->
  var (vars w') ENV_HOST = Some (default DEFAULT_LISTEN_HOST host) /\
  var (vars w') ENV_PORT = Some (default DEFAULT_LISTEN_PORT port).
Proof using.
  cbn [run_action]. intros (e1 & E1 & E)%bind_Ret. apply bind_Ret in E as (e2 & E2 & E). injection E as <-. cbn [vars set_vars].
  unfold set_var in E1, E2. destruct (_ || _) in E1; [done|]. destruct (_ || _) in E2; [done|].
  injection E1 as <-. injection E2 as <-. split; (rewrite var_insert by done).
  - rewrite decide_False by done. rewrite var_insert by done. by rewrite decide_True.
  - by rewrite decide_True.
Qed.

Lemma run_actions_spec actions : forall w,
  run_actions is_alphanumeric find io_text program actions w <> Undef /\
  forall w', run_actions is_alphanumeric find io_text program actions w = Ret w' ->
    Forall keeps_address actions -> forall k v, var (vars w) k = Some v -> var (vars w') k = Some v.
Proof using.
  induction actions as [|a actions IH]; intros w; cbn [run_actions]; [split; [done|by intros w' [= <-]]|].
  destruct (run_action_spec a w) as [Hu Hk]. destruct (run_action _ _ _ _ a w) as [w1| |]; try done. cbn [mbind outcome_bind].
  destruct (exited w1).
  - split; [done|]. intros w' [= <-] Hf. apply Forall_cons in Hf as [Ha _]. by apply Hk.
  - destruct (IH w1) as [Hu1 Hk1]. split; [done|]. intros w' E Hf k v Hv. apply Forall_cons in Hf as [Ha Hf].
    eapply Hk1; [done|done|]. by eapply Hk.
Qed.
Lemma run_actions_app a1 a2 : forall w w', exited w = false ->
  run_actions is_alphanumeric find io_text program (a1 ++ a2) w = Ret w' -> exited w' = false ->
  exists w1, run_actions is_alphanumeric find io_text program a1 w = Ret w1 /\ exited w1 = false /\
    run_actions is_alphanumeric find io_text program a2 w1 = Ret w'.
Proof using.
  induction a1 as [|a a1 IH]; intros w w' Hw E Hx; [by exists w|]. cbn [app run_actions] in *.
  destruct (run_action _ _ _ _ a w) as [w1| |]; try done. cbn [mbind outcome_bind] in *. destruct (exited w1) eqn:Ex.
  - congruence.
  - by apply IH.
Qed.
Lemma address_kept pre host port post w w' : exited w = false ->
  run_actions is_alphanumeric find io_text program (pre ++ ListenOn host port :: post) w = Ret w' ->
  exited w' = false -> Forall keeps_address post ->
  var (vars w') ENV_HOST = Some (default DEFAULT_LISTEN_HOST host) /\
  var (vars w') ENV_PORT = Some (default DEFAULT_LISTEN_PORT port).
Proof using.
  intros Hw E Hx Hp. apply run_actions_app in E as (w1 & _ & Hw1 & E); [|done|done]. cbn [run_actions] in E.
  destruct (run_action _ _ _ _ (ListenOn host port) w1) as [w2| |] eqn:El; try done. cbn [mbind outcome_bind] in E.
  apply run_listen in El as [Hh Hpt]. destruct (exited w2); [by injection E as <-|].
  split; by (eapply (proj2 (run_actions_spec post w2)); eauto).
Qed.
End environment.

(** Running the arguments, and the address they settle. *)
Lemma process_args_defined is_alphanumeric find io_text program args w :
  process_args is_alphanumeric find io_text program args w <> Undef.
Proof.
  destruct args as [|a args]; cbn [process_args]; [apply load_env_file_spec|].
  destruct (parse _) as [|x l]; [done|apply run_actions_spec].
Qed.
Lemma process_args_address is_alphanumeric find io_text program args w pre host port post w' : exited w = false ->
  parse (from_args args) = pre ++ ListenOn host port :: post -> Forall keeps_address post ->
  process_args is_alphanumeric find io_text program args w = Ret w' -> exited w' = false ->
  var (vars w') ENV_HOST = Some (default DEFAULT_LISTEN_HOST host) /\
  var (vars w') ENV_PORT = Some (default DEFAULT_LISTEN_PORT port).
Proof.
  intros Hw Ep Hp E Hx. destruct args as [|a args]; [exfalso; destruct pre; discriminate Ep|].
  cbn [process_args] in E. rewrite Ep in E.
  apply (address_kept is_alphanumeric find io_text program pre host port post w w' Hw); [|exact Hx|exact Hp].
  destruct pre; exact E.
Qed.

(** The address the server is told.  Running the arguments never is undefined
    behaviour, whatever the files hold.  If the program is not left for the help,
    the last sentence about listening settles [HOST] and [PORT], with the defaults
    for what it leaves open, and imports behind it do not change them unless they
    override. *)
Theorem listening_address is_alphanumeric find io_text program args w :
  process_args is_alphanumeric find io_text program args w <> Undef /\
  forall pre host port post w', exited w = false ->
    parse (from_args args) = pre ++ ListenOn host port :: post -> Forall keeps_address post ->
    process_args is_alphanumeric find io_text program args w = Ret w' -> exited w' = false ->
    var (vars w') ENV_HOST = Some (default DEFAULT_LISTEN_HOST host) /\
    var (vars w') ENV_PORT = Some (default DEFAULT_LISTEN_PORT port).
Proof. split; [apply process_args_defined|]. intros *. apply process_args_address. Qed.

Definition example_find (filename : text) : option Reader := Some (read_lines [] (as_bytes "HOST=elsewhere" ++ [10])).
Definition example_run : outcome World :=
  process_args is_ascii_alphanumeric example_find [] (chars "api") [chars "listen on localhost import env"]
    (mkWorld ∅ [] [] false).
Lemma listening_address_witness :
  exists w', example_run = Ret w' /\ var (vars w') ENV_HOST = Some (chars "localhost") /\
    var (vars w') ENV_PORT = Some (chars "3000").
Proof.
  eexists. split; [vm_compute; reflexivity|].
  eapply (proj2 (listening_address is_ascii_alphanumeric example_find [] (chars "api") [chars "listen on localhost import env"]
    (mkWorld ∅ [] [] false)) [] (Some (chars "localhost")) None [ImportEnv None false]);
    [reflexivity|vm_compute; reflexivity|by repeat constructor|vm_compute; reflexivity|reflexivity].
Defined.
