(* ===== verification/IpAddr.v ===== *)
(** * Parsing of IP addresses

    [IpAddr::parse_ascii] of the standard library, which [main] gives the host to
    listen on: a parser takes the rest of the text and gives its value with what it
    leaves, or nothing, and then the text is as before. *)
From S2P Require Import Prelude.

Inductive Ip : Type := V4 (octets : list Z) | V6 (segments : list Z).

Definition to_digit (radix b : Z) : option Z :=
  let d := if is_ascii_digit b then b - 48
           else if is_ascii_lower b then b - 87
           else if is_ascii_upper b then b - 55 else 99 in
  if d <? radix then Some d else None.
(** The digits of [read_number]: the value, how many, and the rest. *)
Fixpoint read_digits (radix : Z) (max_digits count : nat) (acc : Z) (s : bytes) : option (Z * nat * bytes) :=
  match s with
  | [] => Some (acc, count, [])
  | b :: s' =>
      match to_digit radix b with
      | Some d => if (max_digits <=? count)%nat then None else read_digits radix max_digits (S count) (acc * radix + d) s'
      | None => Some (acc, count, s)
      end
  end.
Definition read_number (radix : Z) (max_digits : nat) (allow_zero_prefix : bool) (width : Z) (s : bytes) : option (Z * bytes) :=
  let has_leading_zero := match s with 48 :: _ => true | _ => false end in
  '(n, count, rest) ← read_digits radix max_digits 0 0 s;
  if (count =? 0)%nat then None
  else if negb allow_zero_prefix && has_leading_zero && (1 <? count)%nat then None
  else if n <? 2 ^ width then Some (n, rest) else None.
Definition read_given_char (c : Z) (s : bytes) : option bytes :=
  match s with b :: s => if b =? c then Some s else None | [] => None end.
Definition read_separator {A} (sep : Z) (index : nat) (inner : bytes -> option (A * bytes)) (s : bytes) : option (A * bytes) :=
  match index with O => inner s | S _ => s ← read_given_char sep s; inner s end.

Fixpoint read_octets (n index : nat) (s : bytes) : option (list Z * bytes) :=
  match n with
  | O => Some ([], s)
  | S n =>
      '(o, s) ← read_separator 46 index (read_number 10 3 false 8) s;
      '(os, s) ← read_octets n (S index) s;
      Some (o :: os, s)
  end.
Definition read_ipv4_addr (s : bytes) : option (list Z * bytes) := read_octets 4 0 s.

(** [read_groups] for at most [n] more groups behind [index]: the groups, whether an
    IPv4 address ended them, and the rest. *)
Fixpoint read_groups (n index : nat) (s : bytes) : list Z * bool * bytes :=
  match n with
  | O => ([], false, s)
  | S n' =>
      match (if (1 <? n)%nat then read_separator 58 index read_ipv4_addr s else None) with
      | Some ([a; b; c; d], s) => ([a * 256 + b; c * 256 + d], true, s)
      | _ =>
          match read_separator 58 index (read_number 16 4 true 16) s with
          | Some (g, s) => let '(gs, ipv4, s) := read_groups n' (S index) s in (g :: gs, ipv4, s)
          | None => ([], false, s)
          end
      end
  end.
Definition read_ipv6_addr (s : bytes) : option (list Z * bytes) :=
  let '(head, head_ipv4, s) := read_groups 8 0 s in
  let head_size := length head in
  if (head_size =? 8)%nat then Some (head, s)
  else if head_ipv4 then None
  else
    s ← read_given_char 58 s;
    s ← read_given_char 58 s;
    let '(tail, _, s) := read_groups (8 - (head_size + 1)) 0 s in
    Some (head ++ repeat 0 (8 - head_size - length tail) ++ tail, s).

Definition parse_ascii (s : bytes) : option Ip :=
  let parsed :=
    match read_ipv4_addr s with
    | Some (octets, rest) => Some (V4 octets, rest)
    | None => '(segments, rest) ← read_ipv6_addr s; Some (V6 segments, rest)
    end in
  match parsed with Some (ip, []) => Some ip | _ => None end.

(** ** Lemmas *)

Lemma no_groups n s : read_ipv4_addr s = None -> read_number 16 4 true 16 s = None -> read_groups (S n) 0 s = ([], false, s).
Proof. intros H4 Hn. cbn [read_groups read_separator]. rewrite H4, Hn. by destruct (1 <? S n)%nat. Qed.
(** A text that starts with neither a hexadecimal digit nor a colon is no address. *)
Lemma not_an_address c s : to_digit 16 c = None -> c <> 58 -> parse_ascii (c :: s) = None.
Proof.
  intros Hd Hc. assert (to_digit 10 c = None) as Hd10.
  { unfold to_digit in *. destruct (_ <? 16) eqn:E in Hd; [done|]. apply Z.ltb_ge in E.
    by rewrite (proj2 (Z.ltb_ge _ _)) by lia. }
  assert (forall radix m z w, to_digit radix c = None -> read_number radix m z w (c :: s) = None) as Hn.
  { intros radix m z w H. unfold read_number. cbn [read_digits]. by rewrite H. }
  assert (read_ipv4_addr (c :: s) = None) as E4.
  { unfold read_ipv4_addr. cbn [read_octets read_separator]. by rewrite Hn. }
  unfold parse_ascii. rewrite E4. unfold read_ipv6_addr. rewrite (no_groups 7) by (done || by rewrite Hn).
  cbn [length Nat.eqb read_given_char]. rewrite (proj2 (Z.eqb_neq c 58)) by exact Hc. reflexivity.
Qed.

Example parse_v4 : parse_ascii (as_bytes "192.168.1.10") = Some (V4 [192; 168; 1; 10]).
Proof. vm_compute. reflexivity. Qed.
Example parse_v4_octal : parse_ascii (as_bytes "192.168.01.10") = None.
Proof. vm_compute. reflexivity. Qed.
Example parse_v6 : parse_ascii (as_bytes "2001:db8::8A2e:370:7334") = Some (V6 [8193; 3512; 0; 0; 0; 35374; 880; 29492]).
Proof. vm_compute. reflexivity. Qed.
Example parse_v6_mapped : parse_ascii (as_bytes "::ffff:1.2.3.4") = Some (V6 [0; 0; 0; 0; 0; 65535; 258; 772]).
Proof. vm_compute. reflexivity. Qed.
Example parse_v6_two_gaps : parse_ascii (as_bytes "1::2::3") = None.
Proof. vm_compute. reflexivity. Qed.
