(* ===== verification/Launch.v ===== *)
(** * The start of the program

    [main] of [src/src/main.rs]: the command line ([NaturalArgs]), the token of the
    administrator, the check of the data's version ([Version]), the settings
    ([Settings]) and the address to listen on ([IpAddr]); then the task that renews
    the timestamp header ([Hex]) every thousand seconds and the client keys
    ([TokenManager]) every thirty rounds.

    Loading the saved state is the parameter [app_load]: [None] is the panic of
    [__unwrap_panic]. *)
From S2P Require Import Prelude Strings Hex TokenManager Version Settings Chars DotEnv NaturalArgs IpAddr.

Definition MIN_COMPAT_VERSION : Version := preview 0 4 0 13.

(** [std::env::var] by a name, for the settings. *)
Definition env_of (vars : Environment) : Settings.Env := fun key => utf8 <$> var vars (chars key).

Definition listen_port (env : Settings.Env) : Z :=
  default 3000 (v ← env "PORT"%string; parse_uint 16 (from_bytes (Strings.trim v))).
Definition listen_ip (env : Settings.Env) : Ip :=
  default (V4 [0; 0; 0; 0]) (parse_ascii (parse_str_from_env env "HOST" DEFAULT_LISTEN_HOST)).

Record Server (S : Type) : Type := mkServer
  { ip : Ip; port : Z; AUTH_TOKEN : bytes; globals : Globals; new_version_file : option bytes; app_state : S }.
Arguments mkServer {S}.
Arguments ip {S}.
Arguments port {S}.
Arguments AUTH_TOKEN {S}.
Arguments globals {S}.
Arguments app_state {S}.
Inductive Launch (S : Type) : Type := Stopped (status : Z) | Serving (server : Server S).
Arguments Stopped {S}.
Arguments Serving {S}.

Section main.
Context (is_alphanumeric : Z -> bool) (find : text -> option Reader) (io_text : text).
Context (find_id : bytes -> option bytes) {S : Type} (app_load : Settings.Env -> option S).

(** [version_file]: the bytes of version.bin, or [None] if it cannot be opened. *)
Definition main (program : text) (args : list text) (version_file : option bytes) (can_create : bool) (w : World)
    : outcome (Launch S) :=
  w ← process_args is_alphanumeric find io_text program args w;
  if exited w then Ret (Stopped 0) else
  let env := env_of (vars w) in
  let token := parse_str_from_env env "AUTH_TOKEN" [] in
  if (length token =? 0)%nat then Ret (Stopped 1) else
  match check_data_version MIN_COMPAT_VERSION version_file can_create with
  | Exit => Ret (Stopped 1)
  | Continue written =>
      let globals := config_init find_id env in
      match app_load env with
      | None => Panic
      | Some state => Ret (Serving (mkServer (listen_ip env) (listen_port env) token globals written state))
      end
  end.
End main.

(** ** The renewal of the header and the keys *)

Record Reload : Type := mkReload { header : Z; counter : Z; manager : TokenManager }.
Definition reload_start (m : TokenManager) (h : Z) : Reload := mkReload h 29 m.
(** A round of the task up to its sleep, which lasts for the second component. *)
Definition reload_round (now : Z) (r : Reload) : Reload * Z :=
  let current_kilo := now / 1000 in
  let wait_duration := wrap 64 ((current_kilo + 1) * 1000 - now) in
  (mkReload (update_global_with current_kilo (header r)) (counter r) (manager r), wait_duration).
(** And behind the sleep; the arguments are the values drawn for the keys. *)
Definition reload_wake (client_keys : nat -> Hash) (session_ids : nat -> Z) (r : Reload) : Reload :=
  let counter := wrap 8 (counter r + 1) in
  if 30 <=? counter then mkReload (header r) 0 (update_client_key client_keys session_ids (manager r))
  else mkReload (header r) counter (manager r).

(** The first [n] rounds: [nows] is the time at the start of each. *)
Fixpoint reload_rounds (nows : nat -> Z) (keys : nat -> nat -> Hash) (ids : nat -> nat -> Z) (n : nat) (r : Reload) : Reload :=
  match n with
  | O => r
  | S n => let r := reload_rounds nows keys ids n r in reload_wake (keys n) (ids n) (reload_round (nows n) r).1
  end.

(** ** Lemmas *)

Lemma env_text_spec env key default : parse_str_from_env env key default =
  match env key with Some v => match Strings.trim v with [] => default | t => t end | None => default end.
Proof. apply parse_str_from_env_spec. Qed.

Lemma serving_inv is_alphanumeric find io_text find_id {S} (app_load : Settings.Env -> option S)
    program args version_file can_create w s :
  main is_alphanumeric find io_text find_id app_load program args version_file can_create w = Ret (Serving s) ->
  exists w', process_args is_alphanumeric find io_text program args w = Ret w' /\ exited w' = false /\
    AUTH_TOKEN s = parse_str_from_env (env_of (vars w')) "AUTH_TOKEN" [] /\ AUTH_TOKEN s <> [] /\
    check_data_version MIN_COMPAT_VERSION version_file can_create <> Exit /\
    ip s = listen_ip (env_of (vars w')) /\ port s = listen_port (env_of (vars w')).
Proof.
  unfold main. intros (w' & Ew & E)%bind_Ret. exists w'. destruct (exited w'); [done|].
  destruct (_ =? 0)%nat eqn:Et in E; [done|]. apply Nat.eqb_neq in Et.
  destruct (check_data_version _ _ _) as [|written] eqn:Ev; [done|].
  destruct (app_load _) as [st|]; [|done]. injection E as <-. cbn [AUTH_TOKEN ip port]. split_and!; try done.
  intros H. by rewrite H in Et.
Qed.

(** Texts of printable characters are not trimmed. *)
Definition printable (s : bytes) : Prop := Forall (fun b => 33 <= b <= 126) s.
Lemma strip_first_none ps s : Forall (fun p => match p with b :: _ => b < 33 \/ 126 < b | [] => False end) ps ->
  printable s -> strip_first Some ps s = None.
Proof.
  intros Hp Hs. induction Hp as [|p ps Hb _ IH]; [done|]. cbn [strip_first]. rewrite bool_decide_eq_false_2, IH; [done|].
  destruct p as [|b p]; [done|]. destruct Hs as [|c s Hc Hs]; [done|]. cbn [length take]. intros [= -> _]. lia.
Qed.
Lemma trim_loop_none ps fuel s : strip_first Some ps s = None -> trim_loop ps fuel s = s.
Proof. intros H. destruct fuel; [done|]. cbn [trim_loop]. by rewrite H. Qed.
Lemma trim_printable s : printable s -> Strings.trim s = s.
Proof.
  intros Hs. unfold Strings.trim, Strings.trim_start, Strings.trim_end.
  assert (forall n, trim_loop WHITE_SPACE n s = s) as ->.
  { intros n. apply trim_loop_none, strip_first_none; [|done]. unfold WHITE_SPACE. repeat (constructor; [lia|]). constructor. }
  rewrite trim_loop_none; [apply rev_involutive|]. apply strip_first_none; [|by apply Forall_rev].
  unfold WHITE_SPACE. cbn. repeat (constructor; [lia|]). constructor.
Qed.

Lemma env_of_var vars key v : var vars (chars key) = Some v -> env_of vars key = Some (utf8 v).
Proof. unfold env_of. by intros ->. Qed.
Lemma listen_spec vars h p : var vars ENV_HOST = Some h -> var vars ENV_PORT = Some p -> h <> [] -> printable h -> printable p ->
  listen_ip (env_of vars) = default (V4 [0; 0; 0; 0]) (parse_ascii h) /\
  listen_port (env_of vars) = default 3000 (parse_uint 16 (from_bytes p)).
Proof.
  intros Hh Hp Hne Hph Hpp. unfold listen_ip, listen_port. rewrite env_text_spec.
  rewrite (env_of_var vars "HOST" h Hh), (env_of_var vars "PORT" p Hp). cbn [mbind option_bind].
  rewrite !utf8_ascii by (eapply Forall_impl; [eassumption|]; cbn; lia). rewrite !trim_printable by done. by destruct h.
Qed.

(** A program that serves.  It has the token of an administrator, and the data it
    found were not written by an older version.  It listens on the address of the
    last sentence about listening, if no later import overrides it; but a host that
    is not an IP address, such as [localhost], makes it listen on every interface. *)
Theorem serving_safe is_alphanumeric find io_text find_id S (app_load : Settings.Env -> option S)
    program args version_file can_create w s :
  main is_alphanumeric find io_text find_id app_load program args version_file can_create w = Ret (Serving s) ->
  AUTH_TOKEN s <> [] /\
  (forall f v rest, version_file = Some f -> read_from f = Ok (v, rest) -> version_lt v MIN_COMPAT_VERSION = false) /\
  (forall pre host port' post, exited w = false ->
     parse (from_args args) = pre ++ ListenOn host port' :: post -> Forall keeps_address post ->
     let h := default DEFAULT_LISTEN_HOST host in let p := default DEFAULT_LISTEN_PORT port' in
     h <> [] -> printable h -> printable p ->
     ip s = default (V4 [0; 0; 0; 0]) (parse_ascii h) /\ port s = default 3000 (parse_uint 16 (from_bytes p)) /\
     (forall c r, h = c :: r -> to_digit 16 c = None -> c <> 58 -> ip s = V4 [0; 0; 0; 0])).
Proof.
  intros E. apply serving_inv in E as (w' & Ew & Hx & _ & Ht & Hv & -> & ->). split_and!; [done| |].
  - intros f v rest -> Hf. unfold check_data_version in Hv. rewrite Hf in Hv. by destruct (version_lt v MIN_COMPAT_VERSION).
  - intros pre host port' post Hw Ep Hk h p Hne Hh Hp.
    destruct (process_args_address is_alphanumeric find io_text program args w pre host port' post w' Hw Ep Hk Ew Hx) as [E1 E2].
    destruct (listen_spec (vars w') h p E1 E2 Hne Hh Hp) as [-> ->]. split_and!; [done|done|].
    intros c r -> Hc Hd. by rewrite not_an_address.
Qed.

Abbreviation example_main :=
  (main is_ascii_alphanumeric (fun _ => Some (read_lines [] (as_bytes "AUTH_TOKEN=secret" ++ [10]))) [] Some (fun _ => Some ())
    (chars "api") [chars "import env listen on localhost port 8080"] None true (mkWorld ∅ [] [] false)).
Lemma serving_safe_witness :
  exists s, example_main = Ret (Serving s) /\ ip s = V4 [0; 0; 0; 0] /\ port s = 8080 /\ AUTH_TOKEN s = as_bytes "secret".
Proof.
  assert (exists s, example_main = Ret (Serving s) /\ AUTH_TOKEN s = as_bytes "secret") as (s & E & Et)
    by (eexists; split; [vm_compute; reflexivity|vm_compute; reflexivity]).
  exists s. split; [exact E|]. apply serving_safe in E as (_ & _ & H).
  destruct (H [ImportEnv None false] (Some (chars "localhost")) (Some (chars "8080")) []) as (_ & Hp & Hip);
    [reflexivity|vm_compute; reflexivity|constructor|discriminate| | |].
  - vm_compute. repeat (constructor; [split; discriminate|]). constructor.
  - vm_compute. repeat (constructor; [split; discriminate|]). constructor.
  - split; [|split; [rewrite Hp; vm_compute; reflexivity|exact Et]].
    apply (Hip 108 (chars "ocalhost")); [reflexivity|reflexivity|discriminate].
Defined.

(** The rounds at whose end the keys are renewed: the first, and every thirtieth
    behind it. *)
Definition renewing (n : nat) : list nat := List.filter (fun k => (k mod 30 =? 0)%nat) (seq 0 n).

Lemma renewing_S n : renewing (S n) = renewing n ++ if (n mod 30 =? 0)%nat then [n] else [].
Proof. unfold renewing. rewrite seq_S, List.filter_app. cbn. by destruct (n mod 30 =? 0)%nat. Qed.

Lemma rounds_spec nows keys ids m h n :
  let r := reload_rounds nows keys ids n (reload_start m h) in
  counter r = Z.of_nat ((29 + n) mod 30) /\
  manager r = foldl (fun m k => update_client_key (keys k) (ids k) m) m (renewing n) /\
  header r = match n with O => h | S k => update_global_with (nows k / 1000) h end.
Proof.
  cbv zeta. induction n as [|n (Hc & Hm & Hh)]; [done|]. cbn [reload_rounds]. unfold reload_round, reload_wake.
  cbn [fst counter header manager]. rewrite Hc, renewing_S, foldl_app, <- Hm.
  assert ((29 + n) mod 30 < 30)%nat as Hlt by (apply Nat.mod_upper_bound; lia).
  rewrite wrap_small by (unfold in_uint; lia).
  destruct (n mod 30 =? 0)%nat eqn:En.
  - apply Nat.eqb_eq in En. assert ((29 + n) mod 30 = 29)%nat as E by (rewrite Nat.Div0.add_mod, En; done).
    rewrite E. change (30 <=? Z.of_nat 29 + 1) with true. cbn [counter manager header foldl]. split_and!; [|done|done].
    replace (29 + S n)%nat with (30 + n)%nat by lia. rewrite Nat.Div0.add_mod, En. done.
  - apply Nat.eqb_neq in En. assert (S ((29 + n) mod 30) = (29 + S n) mod 30)%nat as E.
    { replace (29 + S n)%nat with (S (29 + n)) by lia. pose proof (Nat.div_mod_eq (29 + n) 30).
      assert ((29 + n) mod 30 <> 29)%nat as Hn.
      { intros E. apply En. assert (29 + n = 30 * ((29 + n) / 30) + 29)%nat by lia.
        replace n with ((29 + n) / 30 * 30)%nat by lia. apply Nat.Div0.mod_mul. }
      apply (Nat.mod_unique _ _ ((29 + n) / 30)); lia. }
    assert ((29 + S n) mod 30 < 30)%nat by (apply Nat.mod_upper_bound; lia).
    rewrite (proj2 (Z.leb_gt _ _)) by lia. cbn [counter manager header foldl]. split_and!; [lia|done|done].
Qed.

(** C33: the renewal task.  Whatever the times of its rounds are, the header in force
    behind a round is that of its thousand seconds; it stays right until the sleep
    of the round ends, which takes between one second and a thousand.  The counter
    stays below its limit, and the keys of all tokens are renewed at the end of the
    first round and of every thirtieth round behind it, and never else. *)
Theorem renewal_schedule nows keys ids m h n :
  let r := reload_rounds nows keys ids n (reload_start m h) in
  let '(r', wait) := reload_round (nows n) r in
  0 <= nows n < 2 ^ 63 ->
  1 <= wait <= 1000 /\
  (forall t, nows n <= t < nows n + wait -> header r' = update_global_with (t / 1000) h) /\
  0 <= counter r < 30 /\
  manager r = foldl (fun m k => update_client_key (keys k) (ids k) m) m (renewing n).
Proof.
  cbv zeta. destruct (rounds_spec nows keys ids m h n) as (Hc & Hm & Hh). unfold reload_round. intros Hn.
  assert (wrap 64 ((nows n / 1000 + 1) * 1000 - nows n) = (nows n / 1000 + 1) * 1000 - nows n) as ->.
  { apply wrap_small. unfold in_uint. lia. }
  split_and!; [lia|lia| | | |done].
  - intros t Ht. cbn [header]. unfold update_global_with. f_equal. lia.
  - rewrite Hc. lia.
  - rewrite Hc. assert ((29 + n) mod 30 < 30)%nat by (apply Nat.mod_upper_bound; lia). lia.
Qed.

Lemma renewal_schedule_witness :
  let '(r', wait) := reload_round 1999 (reload_rounds (fun _ => 1999) (fun _ _ => []) (fun _ _ => 0) 2 (reload_start manager_new 0)) in
  1 <= wait <= 1000.
Proof.
  pose proof (renewal_schedule (fun _ => 1999) (fun _ _ => []) (fun _ _ => 0) manager_new 0 2) as H. cbv zeta in H.
  destruct (reload_round 1999 _) as [r' wait]. apply H. lia.
Defined.
