(* ===== verification/DurationFmt.v ===== *)
(** * Formatting of durations

    [src/src/common/utils/duration_fmt.rs]: the time the program has run, in nine
    styles and five languages.  [random_format] and [random_language] draw a number;
    the draws are the arguments [draw_format] and [draw_language].  Texts are in
    UTF-8.  A [Duration] is its seconds, a [u64], and nanoseconds below a thousand
    million. *)
From S2P Require Import Prelude Strings Numerals Settings.

Record Duration : Type := mkDuration { as_secs : Z; subsec_nanos : Z }.
Definition duration_wf (d : Duration) : Prop := in_uint 64 (as_secs d) /\ 0 <= subsec_nanos d < 1000000000.

Inductive DurationFormat : Type :=
| Auto | Compact | Standard | Detailed | ISO8601 | Fuzzy | Numeric | Verbose | RandomFormat.
Inductive Language : Type := English | Chinese | Japanese | Spanish | German | RandomLanguage.
Inductive TimeUnit : Type := Day | Hour | Minute | Second | Millisecond | Microsecond.

Definition SECONDS_PER_MINUTE : Z := 60.
Definition SECONDS_PER_HOUR : Z := 3600.
Definition SECONDS_PER_DAY : Z := 86400.
Definition NANOS_PER_MILLI : Z := 1000000.
Definition NANOS_PER_MICRO : Z := 1000.

Record UnitLocale : Type := mkUnit { singular : string; plural : string; short : string; fuzzy_prefix : string }.
Definition same (word short fuzzy_prefix : string) : UnitLocale := mkUnit word word short fuzzy_prefix.

Open Scope string_scope.
Definition FUZZY_EMPTY : string := EmptyString.
Definition english (unit : TimeUnit) : UnitLocale :=
  match unit with
  | Day => mkUnit "day" "days" "d" "about "
  | Hour => mkUnit "hour" "hours" "h" "about "
  | Minute => mkUnit "minute" "minutes" "m" "about "
  | Second => mkUnit "second" "seconds" "s" "about "
  | Millisecond => mkUnit "millisecond" "milliseconds" "ms" FUZZY_EMPTY
  | Microsecond => mkUnit "microsecond" "microseconds" "μs" FUZZY_EMPTY
  end.
Definition chinese (unit : TimeUnit) : UnitLocale :=
  match unit with
  | Day => same "天" "天" "大约"
  | Hour => same "小时" "时" "大约"
  | Minute => same "分钟" "分" "大约"
  | Second => same "秒" "秒" "大约"
  | Millisecond => same "毫秒" "毫秒" FUZZY_EMPTY
  | Microsecond => same "微秒" "微秒" FUZZY_EMPTY
  end.
Definition japanese (unit : TimeUnit) : UnitLocale :=
  match unit with
  | Day => same "日" "日" "約"
  | Hour => same "時間" "時" "約"
  | Minute => same "分" "分" "約"
  | Second => same "秒" "秒" "約"
  | Millisecond => same "ミリ秒" "ミリ秒" FUZZY_EMPTY
  | Microsecond => same "マイクロ秒" "μ秒" FUZZY_EMPTY
  end.
Definition spanish (unit : TimeUnit) : UnitLocale :=
  match unit with
  | Day => mkUnit "día" "días" "d" "alrededor de "
  | Hour => mkUnit "hora" "horas" "h" "alrededor de "
  | Minute => mkUnit "minuto" "minutos" "m" "alrededor de "
  | Second => mkUnit "segundo" "segundos" "s" "alrededor de "
  | Millisecond => mkUnit "milisegundo" "milisegundos" "ms" FUZZY_EMPTY
  | Microsecond => mkUnit "microsegundo" "microsegundos" "μs" FUZZY_EMPTY
  end.
Definition german (unit : TimeUnit) : UnitLocale :=
  match unit with
  | Day => mkUnit "Tag" "Tage" "T" "etwa "
  | Hour => mkUnit "Stunde" "Stunden" "Std" "etwa "
  | Minute => mkUnit "Minute" "Minuten" "Min" "etwa "
  | Second => mkUnit "Sekunde" "Sekunden" "s" "etwa "
  | Millisecond => mkUnit "Millisekunde" "Millisekunden" "ms" FUZZY_EMPTY
  | Microsecond => mkUnit "Mikrosekunde" "Mikrosekunden" "μs" FUZZY_EMPTY
  end.

Record TimeParts : Type := mkParts
  { days : Z; hours : Z; minutes : Z; seconds : Z; millis : Z; micros : Z; nanos : Z }.
Definition get_parts (d : Duration) : TimeParts :=
  let secs := as_secs d in
  let days := (secs / SECONDS_PER_DAY)%Z in
  let secs := (secs mod SECONDS_PER_DAY)%Z in
  let hours := wrap 8 (secs / SECONDS_PER_HOUR) in
  let secs := (secs mod SECONDS_PER_HOUR)%Z in
  let minutes := wrap 8 (secs / SECONDS_PER_MINUTE) in
  let seconds := wrap 8 (secs mod SECONDS_PER_MINUTE) in
  let nanos := subsec_nanos d in
  mkParts days hours minutes seconds (wrap 16 (nanos / NANOS_PER_MILLI))
    (wrap 16 ((nanos mod NANOS_PER_MILLI) / NANOS_PER_MICRO)) nanos.

Definition LANGUAGES : list Language := [English; Chinese; Japanese; Spanish; German].
Definition CANDIDATES : list DurationFormat := [Compact; Standard; Detailed; ISO8601; Fuzzy; Numeric; Verbose].

Section format.
Context (draw_format draw_language : nat) (d : Duration) (language : Language).

Definition random_language : outcome Language := unchecked (LANGUAGES !! (draw_language mod length LANGUAGES)%nat).
Definition random_format : outcome DurationFormat := unchecked (CANDIDATES !! (draw_format mod length CANDIDATES)%nat).
Definition get_actual_language : outcome Language :=
  match language with RandomLanguage => random_language | other => Ret other end.
Definition get_unit_locale (unit : TimeUnit) : outcome UnitLocale :=
  language ← get_actual_language;
  match language with
  | English => Ret (english unit)
  | Chinese => Ret (chinese unit)
  | Japanese => Ret (japanese unit)
  | Spanish => Ret (spanish unit)
  | German => Ret (german unit)
  | RandomLanguage => Undef
  end.
Definition get_unit_str (unit : TimeUnit) (count : Z) (abbreviated : bool) : outcome string :=
  locale ← get_unit_locale unit;
  Ret (if abbreviated then short locale else if (1 <? count)%Z then plural locale else singular locale).

Definition write_padded (value : Z) (width : nat) : string :=
  let s := to_dec value in from_bytes (repeat 48%Z (width - String.length s)) +:+ s.
Definition three_digits (millis : Z) : string :=
  write_padded (wrap 8 (millis / 100)) 1 +:+ write_padded (wrap 8 ((millis / 10) mod 10)) 1 +:+
  write_padded (wrap 8 (millis mod 10)) 1.

(** A component of the styles in words: the separator unless it is the first, the
    number, [gap] and the unit. *)
Definition component (sep gap : string) (value : Z) (unit : TimeUnit) (abbreviated : bool) (out : string) (first : bool)
    : outcome (string * bool) :=
  if (0 <? value)%Z then
    u ← get_unit_str unit value abbreviated;
    Ret (out +:+ (if first then EmptyString else sep) +:+ to_dec value +:+ gap +:+ u, false)
  else Ret (out, first).

Definition fmt_compact : outcome string :=
  let parts := get_parts d in
  '(s, first) ← component EmptyString EmptyString (days parts) Day true EmptyString true;
  '(s, first) ← component EmptyString EmptyString (hours parts) Hour true s first;
  '(s, first) ← component EmptyString EmptyString (minutes parts) Minute true s first;
  if (0 <? seconds parts)%Z || first then
    u ← get_unit_str Second (seconds parts) true; Ret (s +:+ to_dec (seconds parts) +:+ u)
  else Ret s.

Definition fmt_standard : outcome string :=
  let parts := get_parts d in
  '(s, first) ← component " " " " (days parts) Day false EmptyString true;
  '(s, first) ← component " " " " (hours parts) Hour false s first;
  '(s, first) ← component " " " " (minutes parts) Minute false s first;
  if (0 <? seconds parts)%Z || first then
    u ← get_unit_str Second (seconds parts) false;
    Ret (s +:+ (if first then EmptyString else " ") +:+ to_dec (seconds parts) +:+ " " +:+ u)
  else Ret s.

Definition fmt_detailed : outcome string :=
  let parts := get_parts d in
  l ← get_actual_language;
  let separator := match l with Chinese | Japanese => "、" | _ => ", " end in
  '(s, first) ← component separator " " (days parts) Day false EmptyString true;
  '(s, first) ← component separator " " (hours parts) Hour false s first;
  '(s, first) ← component separator " " (minutes parts) Minute false s first;
  u ← get_unit_str Second (seconds parts) false;
  Ret (s +:+ (if negb first then separator else EmptyString) +:+ to_dec (seconds parts) +:+ "." +:+
       three_digits (millis parts) +:+ " " +:+ u).

Definition designated (value : Z) (designator : string) : string :=
  if (0 <? value)%Z then to_dec value +:+ designator else EmptyString.
Definition fmt_iso8601 : string :=
  let parts := get_parts d in
  "P" +:+ designated (days parts) "D" +:+
  (if (0 <? hours parts)%Z || (0 <? minutes parts)%Z || (0 <? seconds parts)%Z then
     "T" +:+ designated (hours parts) "H" +:+ designated (minutes parts) "M" +:+ designated (seconds parts) "S"
   else EmptyString).

Definition fmt_fuzzy : outcome string :=
  let total_secs := as_secs d in
  locale ← get_unit_locale Second;
  let write (number : string) (unit : TimeUnit) (count : Z) :=
    u ← get_unit_str unit count false; Ret (fuzzy_prefix locale +:+ number +:+ " " +:+ u) in
  if (total_secs <? 2)%Z then write "1" Second 1%Z
  else if (total_secs <? 60)%Z then write (to_dec total_secs) Second total_secs
  else if (total_secs <? 120)%Z then write "1" Minute 1%Z
  else if (total_secs <? SECONDS_PER_HOUR)%Z then
    let minutes := (wrap 64 (total_secs + 30) / 60)%Z in write (to_dec minutes) Minute minutes
  else if (total_secs <? SECONDS_PER_HOUR * 2)%Z then write "1" Hour 1%Z
  else if (total_secs <? SECONDS_PER_DAY)%Z then
    let hours := (wrap 64 (total_secs + 1800) / 3600)%Z in write (to_dec hours) Hour hours
  else let days := (wrap 64 (total_secs + 43200) / 86400)%Z in write (to_dec days) Day days.

Definition fmt_numeric : string :=
  let parts := get_parts d in
  (if (0 <? days parts)%Z then to_dec (days parts) +:+ ":" else EmptyString) +:+
  write_padded (hours parts) 2 +:+ ":" +:+ write_padded (minutes parts) 2 +:+ ":" +:+
  write_padded (seconds parts) 2 +:+ "." +:+ three_digits (millis parts).

Definition write_component (value : Z) (label : string) (p : string * bool) : string * bool :=
  if (0 <? value)%Z then (p.1 +:+ (if p.2 then EmptyString else " ") +:+ label +:+ ":" +:+ to_dec value, false) else p.
Definition fmt_verbose : string :=
  let parts := get_parts d in
  let p := write_component (nanos parts) "ns" (write_component (micros parts) "μs" (write_component (millis parts) "ms"
    (write_component (seconds parts) "S" (write_component (minutes parts) "M" (write_component (hours parts) "H"
    (write_component (days parts) "D" (EmptyString, true))))))) in
  if p.2 then p.1 +:+ "0s" else p.1.

Definition fmt_auto : outcome string :=
  let parts := get_parts d in
  if (0 <? days parts)%Z then fmt_detailed
  else if (0 <? hours parts)%Z || (0 <? minutes parts)%Z then fmt_compact
  else if (0 <? seconds parts)%Z then
    u ← get_unit_str Second (seconds parts) false;
    Ret (to_dec (seconds parts) +:+ "." +:+ three_digits (millis parts) +:+ u)
  else if (0 <? millis parts)%Z then
    u ← get_unit_str Millisecond (millis parts) false; Ret (to_dec (millis parts) +:+ u)
  else if (0 <? micros parts)%Z then
    u ← get_unit_str Microsecond (micros parts) false; Ret (to_dec (micros parts) +:+ u)
  else u ← get_unit_str Second 0%Z false; Ret ("0" +:+ u).

(** The path of [Display] without a random part. *)
Definition fmt_plain (format : DurationFormat) : outcome string :=
  match format with
  | Auto => fmt_auto
  | Compact => fmt_compact
  | Standard => fmt_standard
  | Detailed => fmt_detailed
  | ISO8601 => Ret fmt_iso8601
  | Fuzzy => fmt_fuzzy
  | Numeric => Ret fmt_numeric
  | Verbose => Ret fmt_verbose
  | RandomFormat => Panic
  end.
End format.

(** [Display], which resolves the random parts first. *)
Definition display (draw_format draw_language : nat) (d : Duration) (format : DurationFormat) (language : Language) : outcome string :=
  format ← match format with RandomFormat => random_format draw_format | f => Ret f end;
  language ← match language with RandomLanguage => random_language draw_language | l => Ret l end;
  fmt_plain draw_language d language format.
Close Scope string_scope.

(** ** Lemmas *)

Lemma parts_wf d : duration_wf d ->
  let p := get_parts d in
  days p * 86400 + hours p * 3600 + minutes p * 60 + seconds p = as_secs d /\
  nanos p = subsec_nanos d /\ millis p = subsec_nanos d / 1000000 /\
  0 <= days p < 2 ^ 64 /\ 0 <= hours p < 24 /\ 0 <= minutes p < 60 /\ 0 <= seconds p < 60 /\
  0 <= millis p < 1000 /\ 0 <= micros p < 1000.
Proof.
  intros [Hs Hn]. unfold in_uint in Hs. unfold get_parts, SECONDS_PER_DAY, SECONDS_PER_HOUR, SECONDS_PER_MINUTE, NANOS_PER_MILLI, NANOS_PER_MICRO.
  cbn [days hours minutes seconds nanos millis micros].
  rewrite !(wrap_small 8), !(wrap_small 16) by (unfold in_uint; change (2 ^ 8) with 256; change (2 ^ 16) with 65536; lia).
  change (2 ^ 64) with 18446744073709551616 in *. split_and!; lia.
Qed.

Lemma two_digits_check :
  forallb (fun v => bool_decide (parse_uint 64 (write_padded v 2) = Some v) &&
    forallb (fun b => negb (b =? 58) && negb (b =? 46)) (as_bytes (write_padded v 2))) (seqZ 0 100) = true.
Proof. vm_compute. reflexivity. Qed.
Lemma three_digits_check :
  forallb (fun v => bool_decide (parse_uint 64 (three_digits v) = Some v) &&
    forallb (fun b => negb (b =? 58) && negb (b =? 46)) (as_bytes (three_digits v))) (seqZ 0 1000) = true.
Proof. vm_compute. reflexivity. Qed.

Definition separate (bs : bytes) : Prop := Forall (fun b => b <> 58) bs /\ Forall (fun b => b <> 46) bs.
Lemma separate_check bs : forallb (fun b => negb (b =? 58) && negb (b =? 46)) bs = true -> separate bs.
Proof.
  intros H. split; apply Forall_forall; intros b Hb; apply list_elem_of_In in Hb; rewrite forallb_forall in H;
    specialize (H b Hb); apply andb_true_iff in H as [H1 H2]; apply negb_true_iff in H1, H2; apply Z.eqb_neq in H1, H2; done.
Qed.
Lemma checked {f : Z -> string} {n} v :
  forallb (fun v => bool_decide (parse_uint 64 (f v) = Some v) &&
    forallb (fun b => negb (b =? 58) && negb (b =? 46)) (as_bytes (f v))) (seqZ 0 n) = true ->
  0 <= v < n -> parse_uint 64 (f v) = Some v /\ separate (as_bytes (f v)).
Proof.
  intros H Hv. rewrite forallb_forall in H. assert (In v (seqZ 0 n)) as Hin by (apply list_elem_of_In, elem_of_seqZ; lia).
  apply H, andb_true_iff in Hin as [H1 H2]. split; [by apply bool_decide_eq_true in H1|by apply separate_check].
Qed.
Lemma two_digits v : 0 <= v < 100 -> parse_uint 64 (write_padded v 2) = Some v /\ separate (as_bytes (write_padded v 2)).
Proof. apply (checked (f := fun v => write_padded v 2)), two_digits_check. Qed.
Lemma milli_digits v : 0 <= v < 1000 -> parse_uint 64 (three_digits v) = Some v /\ separate (as_bytes (three_digits v)).
Proof. apply (checked (f := three_digits)), three_digits_check. Qed.
Lemma decimal_separate n : separate (as_bytes (to_dec n)).
Proof.
  rewrite as_bytes_to_dec. unfold dec_bytes. split; apply Forall_fmap; (eapply Forall_impl; [apply dec_digits_range|]); cbn; lia.
Qed.

(** A reader of the numeric style: the milliseconds. *)
Definition numeric_value (d h m : Z) (rest : bytes) : option Z :=
  '(s, ms) ← split_once 46 rest;
  s ← parse_uint 64 (from_bytes s);
  ms ← parse_uint 64 (from_bytes ms);
  Some ((((d * 24 + h) * 60 + m) * 60 + s) * 1000 + ms).
Definition read_numeric (text : string) : option Z :=
  match split_on 58 (as_bytes text) with
  | [h; m; rest] =>
      h ← parse_uint 64 (from_bytes h); m ← parse_uint 64 (from_bytes m); numeric_value 0 h m rest
  | [d; h; m; rest] =>
      d ← parse_uint 64 (from_bytes d); h ← parse_uint 64 (from_bytes h); m ← parse_uint 64 (from_bytes m);
      numeric_value d h m rest
  | _ => None
  end.

Lemma numeric_reads d : duration_wf d -> read_numeric (fmt_numeric d) = Some (as_secs d * 1000 + subsec_nanos d / 1000000).
Proof.
  intros Hd. destruct (parts_wf d Hd) as (Hs & _ & Hm & Hrd & Hrh & Hrm & Hrs & Hrms & _). rewrite <- Hs, <- Hm.
  unfold fmt_numeric. destruct (get_parts d) as [dd hh mm ss ms us ns]. cbn [days hours minutes seconds millis] in *.
  destruct (two_digits hh) as [Eh Sh]; [lia|]. destruct (two_digits mm) as [Em Sm]; [lia|].
  destruct (two_digits ss) as [Es Ss]; [lia|]. destruct (milli_digits ms) as [Ems Sms]; [lia|].
  set (H := write_padded hh 2) in *. set (M := write_padded mm 2) in *. set (S := write_padded ss 2) in *. set (T := three_digits ms) in *.
  assert (forall d, numeric_value d hh mm (as_bytes S ++ 46 :: as_bytes T) = Some ((((d * 24 + hh) * 60 + mm) * 60 + ss) * 1000 + ms)) as Hv.
  { intros x. unfold numeric_value. rewrite split_once_app by apply Ss. cbn [mbind option_bind].
    by rewrite !from_bytes_as_bytes, Es, Ems. }
  assert (as_bytes ":" = [58]) as Ec by reflexivity. assert (as_bytes "." = [46]) as Ep by reflexivity.
  unfold read_numeric. destruct (0 <? dd) eqn:Ed.
  - rewrite !as_bytes_app, Ec, Ep. rewrite <- !app_assoc. cbn [app]. rewrite !split_on_app by (apply decimal_separate || apply Sh || apply Sm).
    rewrite split_on_none by (apply Forall_app; split; [apply Ss|constructor; [done|apply Sms]]).
    rewrite !from_bytes_as_bytes, parse_to_dec, Eh, Em by lia. cbn [mbind option_bind]. rewrite Hv. f_equal. lia.
  - rewrite !as_bytes_app, Ec, Ep. cbn [as_bytes app].
    rewrite !split_on_app by (apply Sh || apply Sm).
    rewrite split_on_none by (apply Forall_app; split; [apply Ss|constructor; [done|apply Sms]]).
    rewrite !from_bytes_as_bytes, Eh, Em. cbn [mbind option_bind]. rewrite Hv. apply Z.ltb_ge in Ed. f_equal. lia.
Qed.

(** Every style gives a text. *)
Lemma returns_bind {A B} (m : outcome A) (f : A -> outcome B) : returns m -> (forall a, returns (f a)) -> returns (m ≫= f).
Proof. intros [a ->] H. apply H. Qed.
Lemma draw_returns {A} (l : list A) n : l <> [] -> returns (unchecked (l !! (n mod length l)%nat)).
Proof.
  intros Hl. assert (n mod length l < length l)%nat as Hlt by (apply Nat.mod_upper_bound; by destruct l).
  apply lookup_lt_is_Some in Hlt as [a ->]. by exists a.
Qed.
Lemma actual_language n l : exists l', get_actual_language n l = Ret l' /\ l' <> RandomLanguage.
Proof.
  destruct l; try (eexists; split; [reflexivity|discriminate]). cbn [get_actual_language]. unfold random_language.
  assert (n mod length LANGUAGES < 5)%nat as Hk by (apply (Nat.mod_upper_bound n 5); lia).
  revert Hk. generalize (n mod length LANGUAGES)%nat. intros k Hk.
  do 5 (destruct k as [|k]; [eexists; split; [reflexivity|discriminate]|]). lia.
Qed.
Lemma unit_str_returns n l unit count abbreviated : returns (get_unit_str n l unit count abbreviated).
Proof.
  unfold get_unit_str, get_unit_locale. destruct (actual_language n l) as (l' & -> & Hl). cbn [mbind outcome_bind].
  destruct l'; try done; by eexists.
Qed.
Lemma component_returns n l sep gap value unit abbreviated out first :
  returns (component n l sep gap value unit abbreviated out first).
Proof.
  unfold component. destruct (_ <? _); [|by eexists]. apply returns_bind; [apply unit_str_returns|]. intros u. by eexists.
Qed.
Ltac show :=
  repeat first
  [ apply returns_bind; [first [apply unit_str_returns | apply component_returns]|intros]
  | match goal with |- returns (match ?p with (_, _) => _ end) => destruct p end
  | match goal with |- returns (if ?b then _ else _) => destruct b end
  | by eexists ].
Lemma plain_returns n d l format : format <> RandomFormat -> returns (fmt_plain n d l format).
Proof.
  assert (returns (fmt_detailed n d l)) as Hdet.
  { unfold fmt_detailed. destruct (actual_language n l) as (l' & E & _). rewrite E. cbn [mbind outcome_bind]. show. }
  assert (returns (fmt_compact n d l)) as Hcom by (unfold fmt_compact; show).
  intros Hf. destruct format; cbn [fmt_plain]; try done; try (by eexists).
  - unfold fmt_auto. destruct (_ <? _); [done|]. destruct (_ || _); [done|]. show.
  - unfold fmt_standard. show.
  - unfold fmt_fuzzy, get_unit_locale. destruct (actual_language n l) as (l' & E & Hl). rewrite E. cbn [mbind outcome_bind].
    destruct l'; try done; cbn [mbind outcome_bind]; show.
Qed.
Lemma display_returns draw_format draw_language d format language :
  returns (display draw_format draw_language d format language).
Proof.
  unfold display. assert (forall f, f <> RandomFormat -> returns
    (language ← match language with RandomLanguage => random_language draw_language | l => Ret l end;
     fmt_plain draw_language d language f)) as H.
  { intros f Hf. apply returns_bind; [destruct language; try (by eexists); by apply draw_returns|]. intros l. by apply plain_returns. }
  destruct format; try (by apply H). unfold random_format.
  destruct (draw_returns CANDIDATES draw_format ltac:(done)) as [f Ef]. rewrite Ef. cbn [mbind outcome_bind]. apply H.
  apply unchecked_Ret, list_elem_of_lookup_2 in Ef. intros ->. cbn in Ef.
  repeat (apply elem_of_cons in Ef as [E|Ef]; [discriminate|]). by apply elem_of_nil in Ef.
Qed.

(** Every duration is shown in every style and language, within defined
    behaviour, whatever is drawn; and the numeric style can be read back: it loses
    nothing but what is below a millisecond. *)
Theorem durations_shown draw_format draw_language d format language :
  returns (display draw_format draw_language d format language) /\
  (duration_wf d -> read_numeric (fmt_numeric d) = Some (as_secs d * 1000 + subsec_nanos d / 1000000)).
Proof. split; [apply display_returns|apply numeric_reads]. Qed.
Lemma durations_shown_witness :
  read_numeric (fmt_numeric (mkDuration 90061 5000000)) = Some 90061005.
Proof.
  apply (proj2 (durations_shown 0 0 (mkDuration 90061 5000000) Numeric English)). split; cbn; [by_decision|lia].
Defined.

(** What the styles do not show as they say: the ISO style drops the fraction and is
    the invalid [P] below a second; the vague style says sixty minutes and 24 hours;
    the verbose style shows the fraction twice, against the test in the source. *)
Theorem duration_faults :
  (forall secs n1 n2, fmt_iso8601 (mkDuration secs n1) = fmt_iso8601 (mkDuration secs n2)) /\
  (forall n, fmt_iso8601 (mkDuration 0 n) = "P"%string) /\
  (forall secs n, 3570 <= secs < 3600 -> fmt_fuzzy 0 (mkDuration secs n) English = Ret "about 60 minutes"%string) /\
  (forall secs n, 84600 <= secs < 86400 -> fmt_fuzzy 0 (mkDuration secs n) English = Ret "about 24 hours"%string) /\
  fmt_verbose (mkDuration 3662 567000000) = "H:1 M:1 S:2 ms:567 ns:567000000"%string.
Proof.
  split_and!; [done|done| | |vm_compute; reflexivity].
  - intros secs n H. unfold fmt_fuzzy, SECONDS_PER_HOUR. cbn [as_secs]. cbn [mbind outcome_bind get_unit_locale get_actual_language].
    rewrite !(proj2 (Z.ltb_ge secs _)), (proj2 (Z.ltb_lt secs 3600)) by lia.
    rewrite wrap_small by (unfold in_uint; change (2 ^ 64) with 18446744073709551616; lia).
    replace ((secs + 30) / 60) with 60 by lia. reflexivity.
  - intros secs n H. unfold fmt_fuzzy, SECONDS_PER_HOUR, SECONDS_PER_DAY. cbn [as_secs]. cbn [mbind outcome_bind get_unit_locale get_actual_language].
    rewrite !(proj2 (Z.ltb_ge secs _)), (proj2 (Z.ltb_lt secs 86400)) by lia.
    rewrite wrap_small by (unfold in_uint; change (2 ^ 64) with 18446744073709551616; lia).
    replace ((secs + 1800) / 3600) with 24 by lia. reflexivity.
Qed.
(** The examples of the tests in the source. *)
Example compact_test : fmt_compact 0 (mkDuration 3662 0) English = Ret "1h1m2s"%string. Proof. vm_compute. reflexivity. Qed.
Example standard_test : fmt_standard 0 (mkDuration 65 0) Chinese = Ret "1 分钟 5 秒"%string. Proof. vm_compute. reflexivity. Qed.
Example detailed_test : fmt_detailed 0 (mkDuration 3662 0) English = Ret "1 hour, 1 minute, 2.000 seconds"%string.
Proof. vm_compute. reflexivity. Qed.
Example numeric_test : fmt_numeric (mkDuration 90061 0) = "1:01:01:01.000"%string. Proof. vm_compute. reflexivity. Qed.

(** ** The builder and the settings *)

Record HumanDuration : Type := mkHuman { hd_duration : Duration; hd_format : DurationFormat; hd_language : Language }.
Definition human (d : Duration) : HumanDuration := mkHuman d Auto Chinese.
Definition with_format (f : DurationFormat) (h : HumanDuration) : HumanDuration := mkHuman (hd_duration h) f (hd_language h).
Definition with_language (l : Language) (h : HumanDuration) : HumanDuration := mkHuman (hd_duration h) (hd_format h) l.
Definition fmt (draw_format draw_language : nat) (h : HumanDuration) : outcome string :=
  display draw_format draw_language (hd_duration h) (hd_format h) (hd_language h).

(** The values of the settings by their names. *)
Definition FORMAT_NAMES : list (string * DurationFormat) :=
  [("auto", Auto); ("compact", Compact); ("standard", Standard); ("detailed", Detailed); ("iso8601", ISO8601);
   ("fuzzy", Fuzzy); ("numeric", Numeric); ("verbose", Verbose); ("random", RandomFormat)]%string.
Definition LANGUAGE_NAMES : list (string * Language) :=
  [("english", English); ("chinese", Chinese); ("japanese", Japanese); ("spanish", Spanish); ("german", German);
   ("random", RandomLanguage)]%string.
Definition named {A} (names : list (string * A)) (s : bytes) (default : A) : A :=
  match List.find (fun p => bool_decide (as_bytes p.1 = s)) names with Some (_, v) => v | None => default end.
Definition format_from_env (env : Settings.Env) (key : string) (default : DurationFormat) : DurationFormat :=
  named FORMAT_NAMES (parse_str_from_env env key []) default.
Definition language_from_env (env : Settings.Env) (key : string) (default : Language) : Language :=
  named LANGUAGE_NAMES (parse_str_from_env env key []) default.

(** The running time that [main] writes when it ends. *)
Definition running_time (env : Settings.Env) (draw_format draw_language : nat) (d : Duration) : outcome string :=
  fmt draw_format draw_language
    (with_language (language_from_env env "DURATION_LANGUAGE" RandomLanguage)
       (with_format (format_from_env env "DURATION_FORMAT" RandomFormat) (human d))).

Example running_time_named :
  running_time (fun key => if bool_decide (key = "DURATION_FORMAT"%string) then Some (as_bytes " numeric ") else None) 5 6
    (mkDuration 90061 0) = Ret "1:01:01:01.000"%string.
Proof. vm_compute. reflexivity. Qed.
