(* ===== verification/Frontend.v ===== *)
(** * The web pages

    [src/src/app/frontend.rs] and [src/src/app/model/exchange_map.rs]: a directory or
    an archive holds pages and a registry that says which path serves which file,
    which path answers without a body, and which path takes the place of a path of
    the program.  The loader reads every file once and builds the services; the two
    globals [ROUTE_SERVICES] and [ROUTE_REGISTRY] are explicit.

    A hash map is the list of its entries in the order of its iteration, which
    [hash_order] chooses.  The file system, the archive reader, the reader of JSON
    and the checks of status codes and headers are parameters.  Texts and paths are
    bytes. *)
From stdpp Require Import gmap.
From S2P Require Import Prelude Strings Settings.

(** ** Content types ([src/src/app/constant/header.rs]) *)

Inductive ContentType : Type :=
  | TextHtmlUtf8 | TextPlainUtf8 | TextCssUtf8 | ApplicationJavascriptUtf8 | TextCsvUtf8 | TextXmlUtf8
  | TextMarkdownUtf8 | ImageJpeg | ImagePng | ImageGif | ImageWebp | ImageSvgXml | ImageBmp | ImageIco
  | ImageTiff | ImageAvif | AudioMpeg | AudioMp4 | AudioWav | AudioOgg | AudioWebm | AudioAac | AudioFlac
  | AudioM4a | VideoMp4 | VideoMpeg | VideoWebm | VideoOgg | VideoAvi | VideoQuicktime | VideoXFlv
  | ApplicationPdf | ApplicationMsword | ApplicationWordDocx | ApplicationExcelXls | ApplicationExcelXlsx
  | ApplicationPowerpointPpt | ApplicationPowerpointPptx | ApplicationZip | ApplicationRar | Application7z
  | ApplicationGzip | ApplicationTar | FontTtf | FontOtf | FontWoff | FontWoff2 | ApplicationOctetStream.
(** The texts of [From<ContentType>]. *)
Definition content_type_text (ty : ContentType) : string :=
  match ty with
  | TextHtmlUtf8 => "text/html;charset=utf-8"
  | TextPlainUtf8 => "text/plain;charset=utf-8"
  | TextCssUtf8 => "text/css;charset=utf-8"
  | ApplicationJavascriptUtf8 => "application/javascript;charset=utf-8"
  | TextCsvUtf8 => "text/csv;charset=utf-8"
  | TextXmlUtf8 => "text/xml;charset=utf-8"
  | TextMarkdownUtf8 => "text/markdown;charset=utf-8"
  | ImageJpeg => "image/jpeg"
  | ImagePng => "image/png"
  | ImageGif => "image/gif"
  | ImageWebp => "image/webp"
  | ImageSvgXml => "image/svg+xml"
  | ImageBmp => "image/bmp"
  | ImageIco => "image/x-icon"
  | ImageTiff => "image/tiff"
  | ImageAvif => "image/avif"
  | AudioMpeg => "audio/mpeg"
  | AudioMp4 => "audio/mp4"
  | AudioWav => "audio/wav"
  | AudioOgg => "audio/ogg"
  | AudioWebm => "audio/webm"
  | AudioAac => "audio/aac"
  | AudioFlac => "audio/flac"
  | AudioM4a => "audio/m4a"
  | VideoMp4 => "video/mp4"
  | VideoMpeg => "video/mpeg"
  | VideoWebm => "video/webm"
  | VideoOgg => "video/ogg"
  | VideoAvi => "video/x-msvideo"
  | VideoQuicktime => "video/quicktime"
  | VideoXFlv => "video/x-flv"
  | ApplicationPdf => "application/pdf"
  | ApplicationMsword => "application/msword"
  | ApplicationWordDocx => "application/vnd.openxmlformats-officedocument.wordprocessingml.document"
  | ApplicationExcelXls => "application/vnd.ms-excel"
  | ApplicationExcelXlsx => "application/vnd.openxmlformats-officedocument.spreadsheetml.sheet"
  | ApplicationPowerpointPpt => "application/vnd.ms-powerpoint"
  | ApplicationPowerpointPptx => "application/vnd.openxmlformats-officedocument.presentationml.presentation"
  | ApplicationZip => "application/zip"
  | ApplicationRar => "application/x-rar-compressed"
  | Application7z => "application/x-7z-compressed"
  | ApplicationGzip => "application/gzip"
  | ApplicationTar => "application/x-tar"
  | FontTtf => "font/ttf"
  | FontOtf => "font/otf"
  | FontWoff => "font/woff"
  | FontWoff2 => "font/woff2"
  | ApplicationOctetStream => "application/octet-stream"
  end.
Definition EXTENSION_TO_MIME : list (string * string) :=
  [("html", "text/html;charset=utf-8");
   ("htm", "text/html;charset=utf-8");
   ("txt", "text/plain;charset=utf-8");
   ("css", "text/css;charset=utf-8");
   ("js", "application/javascript;charset=utf-8");
   ("mjs", "application/javascript;charset=utf-8");
   ("csv", "text/csv;charset=utf-8");
   ("xml", "text/xml;charset=utf-8");
   ("md", "text/markdown;charset=utf-8");
   ("markdown", "text/markdown;charset=utf-8");
   ("jpg", "image/jpeg");
   ("jpeg", "image/jpeg");
   ("png", "image/png");
   ("gif", "image/gif");
   ("webp", "image/webp");
   ("svg", "image/svg+xml");
   ("bmp", "image/bmp");
   ("ico", "image/x-icon");
   ("tiff", "image/tiff");
   ("tif", "image/tiff");
   ("avif", "image/avif");
   ("mp3", "audio/mpeg");
   ("mp4a", "audio/mp4");
   ("wav", "audio/wav");
   ("ogg", "audio/ogg");
   ("oga", "audio/ogg");
   ("weba", "audio/webm");
   ("aac", "audio/aac");
   ("flac", "audio/flac");
   ("m4a", "audio/m4a");
   ("mp4", "video/mp4");
   ("mpeg", "video/mpeg");
   ("mpg", "video/mpeg");
   ("webm", "video/webm");
   ("ogv", "video/ogg");
   ("avi", "video/x-msvideo");
   ("mov", "video/quicktime");
   ("qt", "video/quicktime");
   ("flv", "video/x-flv");
   ("pdf", "application/pdf");
   ("doc", "application/msword");
   ("docx", "application/vnd.openxmlformats-officedocument.wordprocessingml.document");
   ("xls", "application/vnd.ms-excel");
   ("xlsx", "application/vnd.openxmlformats-officedocument.spreadsheetml.sheet");
   ("ppt", "application/vnd.ms-powerpoint");
   ("pptx", "application/vnd.openxmlformats-officedocument.presentationml.presentation");
   ("zip", "application/zip");
   ("rar", "application/x-rar-compressed");
   ("7z", "application/x-7z-compressed");
   ("gz", "application/gzip");
   ("gzip", "application/gzip");
   ("tar", "application/x-tar");
   ("ttf", "font/ttf");
   ("otf", "font/otf");
   ("woff", "font/woff");
   ("woff2", "font/woff2")].

Definition APPLICATION_OCTET_STREAM : string := "application/octet-stream".
Definition is_plain (b : Z) : bool := is_ascii_lower b || is_ascii_digit b.
Definition mime_of (ext : bytes) : option string :=
  snd <$> List.find (fun p => bool_decide (as_bytes p.1 = ext)) EXTENSION_TO_MIME.
Definition get_content_type_by_extension (extension : bytes) : string :=
  let extension := if forallb is_plain extension then extension else to_ascii_lowercase extension in
  default APPLICATION_OCTET_STREAM (mime_of extension).

(** ** Paths of the standard library *)

(** The components of a path behind its root, without the current directory. *)
Definition components (path : bytes) : list bytes :=
  List.filter (fun c => negb (bool_decide (c = []) || bool_decide (c = as_bytes "."))) (split_on 47 path).
Definition file_name (path : bytes) : option bytes :=
  c ← last (components path); if bool_decide (c = as_bytes "..") then None else Some c.
(** [Path::extension]: what is behind the last dot, if something is before it. *)
Definition extension (path : bytes) : option bytes :=
  name ← file_name path;
  match split_once 46 (rev name) with
  | Some (after, before) => if bool_decide (before = []) then None else Some (rev after)
  | None => None
  end.
(** [Path::join]: an absolute path takes the place of the base. *)
Definition path_join (base path : bytes) : bytes :=
  match path with
  | 47 :: _ => path
  | _ => match last base with None | Some 47 => base ++ path | Some _ => base ++ [47] ++ path end
  end.

(** ** The registry of the pages *)

Inductive RouteDef : Type :=
| DFile (content_type : option ContentType) (path : bytes)
| DEmpty (status : Z) (headers : list (bytes * bytes))
| DExchange (from : bytes).
Inductive RouteDefinition : Type := SString (file_path : bytes) | SObject (def : RouteDef).
Record Metadata : Type := mkMetadata
  { m_name : option bytes; m_version : option bytes; m_description : option bytes; m_author : option bytes; m_license : option bytes }.
Record RouteRegistry : Type := mkRegistry { meta : Metadata; routes : list (bytes * RouteDef) }.

Inductive RouteService : Type :=
| SFile (content_type : bytes) (content : bytes)
| SEmpty (status : Z) (headers : list (bytes * bytes)).
Record Response : Type := mkResponse { s_status : Z; s_headers : list (bytes * bytes); s_body : bytes }.
Definition into_response (s : RouteService) : Response :=
  match s with
  | SFile content_type content => mkResponse 200 [(as_bytes "content-type", content_type)] content
  | SEmpty status headers => mkResponse status headers []
  end.

Inductive FrontendError : Type :=
| PathNotFound (path : bytes)
| NotZipOrDirectory (path : bytes)
| RegistryNotFound (searched_at : bytes)
| FileMissing (path : bytes) (referenced_by : list bytes)
| InvalidJson (context : bytes) (source : bytes)
| InvalidHeader (route name value reason : bytes)
| InvalidStatus (route : bytes) (status : Z)
| NoExtension (route path : bytes)
| IoError (e : bytes)
| ZipError (e : bytes).
Definition frontend_error_text (e : FrontendError) : bytes :=
  match e with
  | PathNotFound path => as_bytes "路径不存在: " ++ path
  | NotZipOrDirectory path => as_bytes "路径必须是目录或 .zip 文件: " ++ path
  | RegistryNotFound at' => as_bytes "找不到 route_registry.json，查找位置: " ++ at'
  | FileMissing path refs =>
      as_bytes "文件不存在: " ++ path ++ [10] ++ as_bytes "  被以下路由引用: " ++ join_with (as_bytes ", ") refs
  | InvalidJson context source => as_bytes "JSON 解析失败 (" ++ context ++ as_bytes "): " ++ source
  | InvalidHeader route name value reason =>
      as_bytes "路由 '" ++ route ++ as_bytes "' 的 header 无效: " ++ name ++ as_bytes " = " ++ value ++ as_bytes " (" ++
      reason ++ as_bytes ")"
  | InvalidStatus route status => as_bytes "路由 '" ++ route ++ as_bytes "' 的状态码无效: " ++ as_bytes (to_dec status)
  | NoExtension route path =>
      as_bytes "路由 '" ++ route ++ as_bytes "' 的文件 '" ++ path ++ as_bytes "' 缺少扩展名，无法推断 Content-Type"
  | IoError e => as_bytes "IO 错误: " ++ e
  | ZipError e => as_bytes "ZIP 错误: " ++ e
  end.

(** ** The table of replaced paths *)

Record ExchangeMap : Type := mkExchange { e_cache : list bytes; e_map : gmap bytes bytes }.
Definition exchange_default : ExchangeMap := mkExchange [] ∅.
(** [HashSet::insert]: whether the value was new. *)
Definition set_insert (x : bytes) (set : list bytes) : bool * list bytes :=
  if bool_decide (x ∈ set) then (false, set) else (true, x :: set).
Fixpoint distinct_loop (entries : list (bytes * bytes)) (set : list bytes) : bool :=
  match entries with
  | [] => true
  | (k, v) :: entries =>
      let '(fresh, set) := set_insert k set in
      if fresh then let '(fresh, set) := set_insert v set in if fresh then distinct_loop entries set else false
      else false
  end.
Definition exchange_try_from (map : gmap bytes bytes) : option ExchangeMap :=
  if distinct_loop (map_to_list map) [] then Some (mkExchange [] map) else None.
Definition resolve (path : bytes) (m : ExchangeMap) : bytes * ExchangeMap :=
  match e_map m !! path with
  | None => (path, mkExchange (set_insert path (e_cache m)).2 (e_map m))
  | Some path => (path, mkExchange (set_insert path (e_cache m)).2 (e_map m))
  end.
Definition finish (m : ExchangeMap) : list bytes := e_cache m.

(** ** The loader *)

(** What the file system or an archive gives for a path. *)
Inductive Read : Type := Content (data : bytes) | Missing (e : bytes) | Failed (e : bytes).
Inductive ZipRead : Type := ZEntry (data : result bytes bytes) | ZMissing | ZFailed (e : bytes).

(** The globals: the services, by the index that a [RouteServiceFn] holds, and the
    paths that are served. *)
Record Served : Type := mkServed { ROUTE_SERVICES : list RouteService; ROUTE_REGISTRY : list bytes }.
Definition call_once (g : Served) (idx : nat) : outcome RouteService := unchecked (ROUTE_SERVICES g !! idx).
Definition paths (g : Served) : list bytes := ROUTE_REGISTRY g.

Section loader.
Context (exists_ is_dir is_file : bytes -> bool) (fs_read : bytes -> Read).
(** [read_to_string]: the data, or the error that they are no text. *)
Context (to_text : bytes -> result bytes bytes).
Context (parse_json : bytes -> result bytes (Metadata * list (bytes * RouteDefinition))).
Context {Archive : Type} (zip_new : bytes -> result bytes Archive) (by_name : Archive -> bytes -> ZipRead).
Context (hash_order : list (bytes * RouteDef) -> list (bytes * RouteDef)) (path_order : list bytes -> list bytes).
Context (status_from_u16 : Z -> option Z) (header_name header_value : bytes -> result bytes bytes).

Definition deserialize_definition (d : RouteDefinition) : RouteDef :=
  match d with SString file_path => DFile None file_path | SObject def => def end.
Definition deserialize_routes (raw_routes : list (bytes * RouteDefinition)) : list (bytes * RouteDef) :=
  hash_order ((fun p => (p.1, deserialize_definition p.2)) <$> raw_routes).
Definition from_json (json : bytes) : result bytes RouteRegistry :=
  (fun p => mkRegistry p.1 (deserialize_routes p.2)) <$> parse_json json.

Inductive Provider : Type := PDirectory (base_path : bytes) | PZip (archive : Archive).
Definition read_file (p : Provider) (relative_path : bytes) : result FrontendError bytes :=
  match p with
  | PDirectory base_path =>
      match fs_read (path_join base_path relative_path) with
      | Content data => Ok data
      | Missing _ => Err (FileMissing relative_path [])
      | Failed e => Err (IoError e)
      end
  | PZip archive =>
      match by_name archive relative_path with
      | ZEntry data => map_err IoError data
      | ZMissing => Err (FileMissing relative_path [])
      | ZFailed e => Err (ZipError e)
      end
  end.

Record FrontendLoader : Type := mkLoader { provider : Provider; registry : RouteRegistry }.
Definition REGISTRY_NAME : bytes := as_bytes "route_registry.json".
Definition from_directory (dir_path : bytes) : result FrontendError FrontendLoader :=
  let registry_path := path_join dir_path REGISTRY_NAME in
  json ← match fs_read registry_path with
         | Content data => map_err IoError (to_text data)
         | Missing _ => Err (RegistryNotFound registry_path)
         | Failed e => Err (IoError e)
         end;
  registry ← map_err (InvalidJson (as_bytes "route_registry.json at " ++ registry_path)) (from_json json);
  Ok (mkLoader (PDirectory dir_path) registry).
Definition from_zip_file (zip_path : bytes) : result FrontendError FrontendLoader :=
  file ← match fs_read zip_path with
         | Content data => Ok data
         | Missing e | Failed e => Err (IoError e)
         end;
  archive ← map_err ZipError (zip_new file);
  json ← match by_name archive REGISTRY_NAME with
         | ZEntry data => map_err IoError (data ≫= to_text)
         | ZMissing => Err (RegistryNotFound (zip_path ++ [47] ++ REGISTRY_NAME))
         | ZFailed e => Err (ZipError e)
         end;
  registry ← map_err (InvalidJson (as_bytes "route_registry.json in " ++ zip_path)) (from_json json);
  Ok (mkLoader (PZip archive) registry).
Definition from_path (path : bytes) : result FrontendError FrontendLoader :=
  if negb (exists_ path) then Err (PathNotFound path)
  else if is_dir path then from_directory path
  else if is_file path && bool_decide (extension path = Some (as_bytes "zip")) then from_zip_file path
  else Err (NotZipOrDirectory path).

(** The paths of the files, each once, and the routes that refer to each. *)
Fixpoint collect_paths (entries : list (bytes * RouteDef)) (unique : list bytes) (refs : gmap bytes (list bytes))
    : list bytes * gmap bytes (list bytes) :=
  match entries with
  | [] => (unique, refs)
  | (route_path, DFile _ path) :: entries =>
      collect_paths entries (set_insert path unique).2 (<[path := default [] (refs !! path) ++ [route_path]]> refs)
  | _ :: entries => collect_paths entries unique refs
  end.
Definition name_references (refs : gmap bytes (list bytes)) (e : FrontendError) : outcome FrontendError :=
  match e with
  | FileMissing path _ => routes ← unchecked (refs !! path); Ret (FileMissing path routes)
  | other => Ret other
  end.
Fixpoint read_files (p : Provider) (refs : gmap bytes (list bytes)) (unique : list bytes) (file_cache : gmap bytes bytes)
    : outcome (result FrontendError (gmap bytes bytes)) :=
  match unique with
  | [] => Ret (Ok file_cache)
  | path :: unique =>
      match read_file p path with
      | Err e => e ← name_references refs e; Ret (Err e)
      | Ok data => read_files p refs unique (<[path := data]> file_cache)
      end
  end.

Definition resolve_content_type (content_type : option ContentType) (file_path route_path : bytes) : result FrontendError bytes :=
  match content_type with
  | Some ct => Ok (as_bytes (content_type_text ct))
  | None =>
      ext ← ok_or (extension file_path) (NoExtension route_path file_path);
      Ok (as_bytes (get_content_type_by_extension ext))
  end.
Fixpoint build_header_map (route_path : bytes) (headers : list (bytes * bytes)) (map : list (bytes * bytes))
    : result FrontendError (list (bytes * bytes)) :=
  match headers with
  | [] => Ok map
  | (name, value) :: headers =>
      match header_name name with
      | Err e => Err (InvalidHeader route_path name value (as_bytes "invalid header name: " ++ e))
      | Ok n =>
          match header_value value with
          | Err e => Err (InvalidHeader route_path name value (as_bytes "invalid header value: " ++ e))
          | Ok v => build_header_map route_path headers (map ++ [(n, v)])
          end
      end
  end.

(** One route: its service, or the path it takes the place of. *)
Inductive Built : Type := BService (service : RouteService) | BExchange (from : bytes).
Definition build_route (file_cache : gmap bytes bytes) (route_path : bytes) (def : RouteDef)
    : outcome (result FrontendError Built) :=
  match def with
  | DFile content_type path =>
      content ← unchecked (file_cache !! path);
      Ret (ct ← resolve_content_type content_type path route_path; Ok (BService (SFile ct content)))
  | DEmpty status headers =>
      Ret match status_from_u16 status with
          | None => Err (InvalidStatus route_path status)
          | Some status => headers ← build_header_map route_path headers []; Ok (BService (SEmpty status headers))
          end
  | DExchange from => Ret (Ok (BExchange from))
  end.
(** [ROUTE_REGISTRY]'s entry, with the [unreachable!] of a path that is there. *)
Definition register (route_path : bytes) (service : RouteService) (g : Served) : outcome (Served * nat) :=
  let '(vacant, set) := set_insert route_path (ROUTE_REGISTRY g) in
  if vacant then Ret (mkServed (ROUTE_SERVICES g ++ [service]) set, length (ROUTE_SERVICES g)) else Panic.

Abbreviation RouteFns := (gmap bytes nat) (only parsing).
Fixpoint build_loop (file_cache : gmap bytes bytes) (entries : list (bytes * RouteDef)) (g : Served)
    (fns : RouteFns) (exchange_map : gmap bytes bytes) : outcome (Served * result FrontendError (RouteFns * gmap bytes bytes)) :=
  match entries with
  | [] => Ret (g, Ok (fns, exchange_map))
  | (route_path, def) :: entries =>
      opt ← build_route file_cache route_path def;
      match opt with
      | Err e => Ret (g, Err e)
      | Ok (BExchange from) => build_loop file_cache entries g fns (<[from := route_path]> exchange_map)
      | Ok (BService service) =>
          '(g, idx) ← register route_path service g;
          build_loop file_cache entries g (<[route_path := idx]> fns) exchange_map
      end
  end.
Definition build_routes (l : FrontendLoader) (g : Served) : outcome (Served * result FrontendError (RouteFns * ExchangeMap)) :=
  let entries := routes (registry l) in
  let '(unique, refs) := collect_paths entries [] ∅ in
  files ← read_files (provider l) refs (path_order unique) ∅;
  match files with
  | Err e => Ret (g, Err e)
  | Ok file_cache =>
      '(g, r) ← build_loop file_cache entries g ∅ ∅;
      Ret (g, '(fns, exchange_map) ← r; Ok (fns, default exchange_default (exchange_try_from exchange_map)))
  end.

Definition init_frontend (env : Settings.Env) (services : list RouteService)
    : outcome (Served * result FrontendError (RouteFns * ExchangeMap)) :=
  let g := mkServed services [] in
  match from_path (parse_str_from_env env "FRONTEND_PATH" (as_bytes "frontend.zip")) with
  | Err e => Ret (g, Err e)
  | Ok loader => build_routes loader g
  end.
End loader.

(** ** Lemmas *)

Lemma set_insert_spec x y set : y ∈ (set_insert x set).2 <-> y = x \/ y ∈ set.
Proof. unfold set_insert. case_bool_decide; cbn; [set_solver|apply elem_of_cons]. Qed.
Lemma set_insert_fresh x set : x ∉ set -> set_insert x set = (true, x :: set).
Proof. intros H. unfold set_insert. by rewrite bool_decide_eq_false_2. Qed.

Lemma distinct_loop_spec entries set : distinct_loop entries set = true -> NoDup set ->
  NoDup (concat ((fun p : bytes * bytes => [p.1; p.2]) <$> entries) ++ set).
Proof.
  revert set. induction entries as [|[k v] entries IH]; intros set; cbn [distinct_loop]; [done|].
  unfold set_insert. case_bool_decide as Hk; [done|]. case_bool_decide as Hv; [done|]. intros E Hs.
  specialize (IH (v :: k :: set) E ltac:(by repeat constructor)).
  revert IH. apply NoDup_Permutation_proper. cbn. solve_Permutation.
Qed.

(** What an accepted table of replaced paths is: no path is named twice. *)
Lemma exchange_spec map m : exchange_try_from map = Some m ->
  e_map m = map /\ e_cache m = [] /\
  (forall k v k' v', map !! k = Some v -> map !! k' = Some v' -> k <> v' /\ (v = v' -> k = k')).
Proof.
  unfold exchange_try_from. destruct (distinct_loop _ _) eqn:E; [|done]. intros [= <-]. split_and!; [done|done|].
  apply distinct_loop_spec in E; [|constructor]. rewrite app_nil_r in E.
  intros k v k' v' Hk Hk'. apply elem_of_map_to_list in Hk, Hk'.
  revert E Hk Hk'. generalize (map_to_list map). intros l E Hk Hk'.
  induction l as [|[a b] l IH]; [set_solver|]. cbn in E. apply NoDup_cons in E as [Ha E]. apply NoDup_cons in E as [Hb E].
  assert (forall k v, (k, v) ∈ l -> k ∈ concat ((fun p : bytes * bytes => [p.1; p.2]) <$> l) /\
    v ∈ concat ((fun p : bytes * bytes => [p.1; p.2]) <$> l)) as Hin.
  { clear. intros k v H. induction l as [|[a b] l IH]; [set_solver|]. cbn. set_solver. }
  apply elem_of_cons in Hk as [[= -> ->]|Hk], Hk' as [[= -> ->]|Hk'].
  - set_solver.
  - apply Hin in Hk' as [??]. set_solver.
  - apply Hin in Hk as [??]. set_solver.
  - by apply IH.
Qed.

Lemma distinct_loop_accepts entries set :
  NoDup (concat ((fun p : bytes * bytes => [p.1; p.2]) <$> entries) ++ set) -> distinct_loop entries set = true.
Proof.
  revert set. induction entries as [|[k v] entries IH]; intros set; cbn [distinct_loop]; [done|].
  cbn. intros H. pose proof H as [Hk [Hv Hd]%NoDup_cons]%NoDup_cons.
  rewrite set_insert_fresh by set_solver. rewrite set_insert_fresh by set_solver.
  apply IH. revert H. apply NoDup_Permutation_proper. solve_Permutation.
Qed.
Lemma pairs_elem (l : list (bytes * bytes)) x :
  x ∈ concat ((fun p : bytes * bytes => [p.1; p.2]) <$> l) -> exists k v, (k, v) ∈ l /\ (x = k \/ x = v).
Proof.
  induction l as [|[a b] l IH]; [by intros ?%elem_of_nil|]. cbn.
  intros [->|[->|(k & v & Hk & Hx)%IH]%elem_of_cons]%elem_of_cons; [exists a, b|exists a, b|exists k, v]; set_solver.
Qed.
Lemma exchange_accepts map :
  (forall k v k' v', map !! k = Some v -> map !! k' = Some v' -> k <> v' /\ (v = v' -> k = k')) ->
  exchange_try_from map = Some (mkExchange [] map).
Proof.
  intros H. unfold exchange_try_from. rewrite distinct_loop_accepts; [done|]. rewrite app_nil_r.
  assert (forall k v k' v', (k, v) ∈ map_to_list map -> (k', v') ∈ map_to_list map -> k <> v' /\ (v = v' -> k = k')) as Hm.
  { intros k v k' v' Hk%elem_of_map_to_list Hk'%elem_of_map_to_list. by apply H. }
  pose proof (NoDup_fst_map_to_list map) as Hd. revert Hm Hd. generalize (map_to_list map). intros l Hm Hd.
  induction l as [|[a b] l IH]; [constructor|]. cbn in Hd |- *. apply NoDup_cons in Hd as [Ha Hd].
  assert (forall k v, (k, v) ∈ l -> k <> a /\ k <> b /\ v <> a /\ v <> b) as Hne.
  { intros k v Hk. destruct (Hm k v a b) as [H1 H2]; [by right|by left|]. destruct (Hm a b k v) as [H3 _]; [by left|by right|].
    assert (k <> a) as Hka by (intros ->; apply Ha, list_elem_of_fmap; by exists (a, v)). split_and!; [done|done|done|]. intros ->. by apply Hka, H2. }
  destruct (Hm a b a b) as [Hab _]; [by left|by left|].
  constructor; [|constructor].
  - intros [?|(k & v & Hk & Hx)%pairs_elem]%elem_of_cons; [done|]. destruct (Hne k v Hk). naive_solver.
  - intros (k & v & Hk & Hx)%pairs_elem. destruct (Hne k v Hk). naive_solver.
  - apply IH; [|done]. intros k v k' v' Hk Hk'. apply Hm; by right.
Qed.

Lemma NoDup_keys_eq {A} (l : list (bytes * A)) k v w : NoDup l.*1 -> (k, v) ∈ l -> (k, w) ∈ l -> v = w.
Proof.
  induction l as [|[a b] l IH]; [by intros _ ?%elem_of_nil|]. cbn. intros [Hn Hd]%NoDup_cons.
  intros [Hv|Hv]%elem_of_cons [Hw|Hw]%elem_of_cons; [congruence| | |by apply IH].
  - injection Hv as -> ->. destruct Hn. apply list_elem_of_fmap. by exists (a, w).
  - injection Hw as -> ->. destruct Hn. apply list_elem_of_fmap. by exists (a, v).
Qed.

(** ** What the loader promises *)

(** The routes that serve the file [path], in the order of the registry. *)
Definition referring (path : bytes) (entries : list (bytes * RouteDef)) : list bytes :=
  omap (fun p => match p.2 with DFile _ q => if bool_decide (q = path) then Some p.1 else None | _ => None end) entries.

(** The paths that are replaced, with the path that takes their place: of several
    routes for the same path the last one. *)
Definition exchanged (entries : list (bytes * RouteDef)) : gmap bytes bytes :=
  foldl (fun ex p => match p.2 with DExchange from => <[from := p.1]> ex | _ => ex end) ∅ entries.
(** A path is both replaced and a replacement. *)
Definition crossed (entries : list (bytes * RouteDef)) : Prop :=
  exists path from, is_Some (exchanged entries !! path) /\ exchanged entries !! from = Some path.

Lemma exchanged_snoc entries path def : exchanged (entries ++ [(path, def)]) =
  match def with DExchange from => <[from := path]> (exchanged entries) | _ => exchanged entries end.
Proof. unfold exchanged. by rewrite foldl_app. Qed.
Lemma exchanged_spec entries : (forall from to, exchanged entries !! from = Some to -> (to, DExchange from) ∈ entries) /\
  (forall from to, (to, DExchange from) ∈ entries -> is_Some (exchanged entries !! from)).
Proof.
  induction entries as [|[path def] entries [He Ht]] using rev_ind; [split; [done|by intros ?? ?%elem_of_nil]|].
  rewrite exchanged_snoc. split; intros from to.
  - destruct def as [ct f|st hs|g]; [intros H%He; set_solver..|].
    intros [[<- <-]|[_ H%He]]%lookup_insert_Some; set_solver.
  - intros [H%Ht|H%list_elem_of_singleton]%elem_of_app.
    + destruct def as [ct f|st hs|g]; [done..|]. apply lookup_insert_is_Some'. by right.
    + injection H as <- <-. rewrite lookup_insert_eq. by eexists.
Qed.
Lemma exchange_table entries : NoDup entries.*1 ->
  (crossed entries -> exchange_try_from (exchanged entries) = None) /\
  (~ crossed entries -> exchange_try_from (exchanged entries) = Some (mkExchange [] (exchanged entries))).
Proof.
  intros Hd. destruct (exchanged_spec entries) as [He _]. split; intros Hc.
  - destruct Hc as (path & from & [to Ht] & Hf). destruct (exchange_try_from _) as [m|] eqn:E; [|done].
    apply exchange_spec in E as (_ & _ & E). by destruct (E _ _ _ _ Ht Hf).
  - apply exchange_accepts. intros k v k' v' Hk Hk'. split.
    + intros ->. apply Hc. by exists v', k'; rewrite Hk.
    + intros <-. apply He in Hk, Hk'. pose proof (NoDup_keys_eq _ _ _ _ Hd Hk Hk') as E. by injection E.
Qed.

Section served.
Context {Archive : Type} (fs_read : bytes -> Read) (by_name : Archive -> bytes -> ZipRead).
Context (path_order : list bytes -> list bytes) (path_order_perm : forall l, path_order l ≡ₚ l).
Context (status_from_u16 : Z -> option Z) (header_name header_value : bytes -> result bytes bytes).

Abbreviation file := (read_file fs_read by_name).
Abbreviation building := (build_loop status_from_u16 header_name header_value).

Definition header_ok (p q : bytes * bytes) : Prop := header_name p.1 = Ok q.1 /\ header_value p.2 = Ok q.2.
(** The service of a route by its definition. *)
Inductive describes (p : Provider) (route_path : bytes) : RouteDef -> RouteService -> Prop :=
| describes_file ct path content t :
    file p path = Ok content -> resolve_content_type ct path route_path = Ok t ->
    describes p route_path (DFile ct path) (SFile t content)
| describes_empty status headers s hs :
    status_from_u16 status = Some s -> Forall2 header_ok headers hs ->
    describes p route_path (DEmpty status headers) (SEmpty s hs).
(** What is wrong with a registry, by the error that says so. *)
Inductive fault (p : Provider) (entries : list (bytes * RouteDef)) : FrontendError -> Prop :=
| fault_missing path refs : file p path = Err (FileMissing path []) -> referring path entries = refs -> refs <> [] ->
    fault p entries (FileMissing path refs)
| fault_read path e : file p path = Err e -> referring path entries <> [] -> (forall q refs, e <> FileMissing q refs) -> fault p entries e
| fault_extension route_path path : (route_path, DFile None path) ∈ entries -> extension path = None ->
    fault p entries (NoExtension route_path path)
| fault_status route_path status headers : (route_path, DEmpty status headers) ∈ entries -> status_from_u16 status = None ->
    fault p entries (InvalidStatus route_path status)
| fault_header route_path status headers name value reason : (route_path, DEmpty status headers) ∈ entries -> (name, value) ∈ headers ->
    (exists e, header_name name = Err e \/ header_value value = Err e) ->
    fault p entries (InvalidHeader route_path name value reason).

Lemma header_map_spec route_path headers map :
  match build_header_map header_name header_value route_path headers map with
  | Ok hs => exists hs', hs = map ++ hs' /\ Forall2 header_ok headers hs'
  | Err e => exists name value reason, e = InvalidHeader route_path name value reason /\ (name, value) ∈ headers /\
      (exists e, header_name name = Err e \/ header_value value = Err e)
  end.
Proof.
  revert map. induction headers as [|[name value] headers IH]; intros map; cbn [build_header_map].
  { exists []. by rewrite app_nil_r. }
  destruct (header_name name) as [n|e] eqn:En; [|do 3 eexists; split; [done|split; [left|by eauto]]].
  destruct (header_value value) as [v|e] eqn:Ev; [|do 3 eexists; split; [done|split; [left|by eauto]]].
  specialize (IH (map ++ [(n, v)])). destruct (build_header_map _ _ _ _ _).
  - destruct IH as (hs' & -> & H). exists ((n, v) :: hs'). rewrite <- app_assoc. split; [done|by constructor].
  - destruct IH as (name' & value' & reason & -> & Hin & H). do 3 eexists. split; [done|]. split; [by right|done].
Qed.

Lemma referring_spec path entries r : r ∈ referring path entries <-> exists ct, (r, DFile ct path) ∈ entries.
Proof.
  unfold referring. rewrite list_elem_of_omap. split.
  - intros ([q [ct f|s h|g]] & Hin & H); cbn in H; try done. case_bool_decide as E; [|done]. injection H as <-. subst f. by exists ct.
  - intros [ct H]. exists (r, DFile ct path). split; [done|]. cbn. by rewrite bool_decide_eq_true_2.
Qed.

Lemma collect_paths_spec entries unique refs unique' refs' : collect_paths entries unique refs = (unique', refs') ->
  (forall path, path ∈ unique' <-> path ∈ unique \/ referring path entries <> []) /\
  (forall path, refs' !! path = match referring path entries with [] => refs !! path | l => Some (default [] (refs !! path) ++ l) end).
Proof.
  revert unique refs. induction entries as [|[r def] entries IH]; intros unique refs.
  { cbn. intros [= <- <-]. split; [|done]. intros path. split; [by left|]. by intros [|]. }
  destruct def as [ct f|s h|g]; cbn [collect_paths]; intros E; apply IH in E as [H1 H2]; [|done|done].
  unfold referring. cbn [omap list_omap snd fst]. fold (referring). split.
  - intros path. rewrite H1, set_insert_spec. unfold referring. case_bool_decide as Ef.
    + subst f. split; [|by intros _; left; left]. intros _. by right.
    + split; [intros [[->|?]|?]; [done|by left|by right]|intros [?|?]; [by left; right|by right]].
  - intros path. rewrite H2. unfold referring. case_bool_decide as Ef.
    + subst f. rewrite lookup_insert_eq. case_match; cbn; [by f_equal|]. f_equal. by rewrite <- app_assoc.
    + by rewrite lookup_insert_ne by done.
Qed.

(** The cache of the files holds what the provider gives. *)
Definition cached (p : Provider) (cache : gmap bytes bytes) : Prop := forall path d, cache !! path = Some d -> file p path = Ok d.

Lemma missing_path p path q refs : file p path = Err (FileMissing q refs) -> q = path /\ refs = [].
Proof.
  destruct p as [base|archive]; cbn.
  - by destruct (fs_read _); intros [= <- <-].
  - destruct (by_name archive path) as [[]| |]; cbn; by intros [= <- <-].
Qed.
Lemma read_files_spec p entries refs unique cache :
  (forall path, refs !! path = match referring path entries with [] => None | l => Some l end) ->
  (forall path, path ∈ unique -> referring path entries <> []) -> cached p cache ->
  exists r, read_files fs_read by_name p refs unique cache = Ret r /\
    match r with
    | Err e => fault p entries e
    | Ok cache' => cached p cache' /\ (forall path, path ∈ unique \/ is_Some (cache !! path) -> is_Some (cache' !! path))
    end.
Proof.
  intros Hr. revert cache. induction unique as [|path unique IH]; intros cache Hu Hc; cbn [read_files].
  { exists (Ok cache). split; [done|]. split; [done|]. by intros path [H%elem_of_nil|]. }
  destruct (file p path) as [d|e] eqn:E.
  - destruct (IH (<[path:=d]> cache)) as (r & -> & H).
    { intros q Hq. apply Hu. by right. }
    { intros q d' [[<- <-]|[_ Hq]]%lookup_insert_Some; [done|by apply Hc]. }
    exists r. split; [done|]. destruct r as [cache'|e]; [|done]. destruct H as [H1 H2]. split; [done|].
    intros q [[->|Hq]%elem_of_cons|Hq]; apply H2; [right; rewrite lookup_insert_eq; by eexists|by left|].
    right. destruct (decide (path = q)) as [<-|Hne]; [rewrite lookup_insert_eq; by eexists|by rewrite lookup_insert_ne].
  - specialize (Hu path ltac:(by left)).
    assert ((forall q refs, e <> FileMissing q refs) \/ e = FileMissing path []) as [He|He].
    { destruct e; try (left; by intros). right. by destruct (missing_path _ _ _ _ E) as [-> ->]. }
    + exists (Err e). split; [|by eapply fault_read]. destruct e; cbn; done || by destruct (He path0 referenced_by).
    + subst e. cbn [name_references]. rewrite Hr. destruct (referring path entries) as [|a l] eqn:El; [done|].
      eexists. split; [done|]. by eapply fault_missing.
Qed.

(** The state of the loop behind the routes [done]. *)
Record loaded (p : Provider) (done : list (bytes * RouteDef)) (g : Served) (fns : gmap bytes nat) (ex : gmap bytes bytes) : Prop := {
  loaded_fns : forall path idx, fns !! path = Some idx ->
    exists def s, (path, def) ∈ done /\ describes p path def s /\ ROUTE_SERVICES g !! idx = Some s;
  loaded_all : forall path def, (path, def) ∈ done -> (exists from, def = DExchange from) \/ is_Some (fns !! path);
  loaded_paths : forall path, path ∈ ROUTE_REGISTRY g <-> is_Some (fns !! path);
  loaded_once : NoDup (ROUTE_REGISTRY g);
  loaded_ex : ex = exchanged done }.

Lemma loaded_step_service p done g fns ex path def s : loaded p done g fns ex -> path ∉ done.*1 -> describes p path def s ->
  exists g', register path s g = Ret (g', length (ROUTE_SERVICES g)) /\
    loaded p (done ++ [(path, def)]) g' (<[path := length (ROUTE_SERVICES g)]> fns) ex.
Proof.
  intros [Hf Ha Hp Ho He] Hn Hd. assert (fns !! path = None) as Hfn.
  { apply eq_None_not_Some. intros [idx H]. apply Hf in H as (d & t & H & _). apply Hn. apply list_elem_of_fmap. by exists (path, d). }
  unfold register. rewrite set_insert_fresh by (rewrite Hp, Hfn; by intros [? [=]]). eexists. split; [done|]. split; cbn [ROUTE_SERVICES ROUTE_REGISTRY].
  - intros q idx [[<- <-]|[Hne H]]%lookup_insert_Some.
    + exists def, s. split_and!; [set_solver|done|]. apply list_lookup_middle. done.
    + apply Hf in H as (d & t & H1 & H2 & H3). exists d, t. split_and!; [set_solver|done|by apply lookup_app_l_Some].
  - intros q d [H|H%list_elem_of_singleton]%elem_of_app.
    + destruct (Ha q d H) as [|[idx Hi]]; [by left|right]. rewrite lookup_insert_ne; [by eexists|]. intros <-. by rewrite Hi in Hfn.
    + injection H as -> ->. right. rewrite lookup_insert_eq. by eexists.
  - intros q. rewrite elem_of_cons, Hp. destruct (decide (path = q)) as [<-|Hne].
    + rewrite lookup_insert_eq. split; [by eexists|by left].
    + rewrite lookup_insert_ne by done. split; [by intros [->|]|by right].
  - constructor; [|done]. rewrite Hp, Hfn. by intros [? [=]].
  - rewrite exchanged_snoc. by destruct Hd.
Qed.
Lemma loaded_step_exchange p done g fns ex path from : loaded p done g fns ex ->
  loaded p (done ++ [(path, DExchange from)]) g fns (<[from := path]> ex).
Proof.
  intros [Hf Ha Hp Ho ->]. split; [| |done|done|by rewrite exchanged_snoc].
  - intros q idx H. apply Hf in H as (d & t & H1 & H2). exists d, t. split; [set_solver|done].
  - intros q d [H|H%list_elem_of_singleton]%elem_of_app; [by apply Ha|]. injection H as -> ->. left. by eexists.
Qed.

Lemma build_route_spec p cache path def entries : (path, def) ∈ entries -> cached p cache ->
  (forall ct f, def = DFile ct f -> is_Some (cache !! f)) ->
  exists r, build_route status_from_u16 header_name header_value cache path def = Ret r /\
    match r with
    | Err e => fault p entries e
    | Ok (BService s) => describes p path def s
    | Ok (BExchange from) => def = DExchange from
    end.
Proof.
  intros Hin Hc Hf. destruct def as [ct f|status headers|from]; cbn [build_route].
  - destruct (Hf ct f eq_refl) as [content E]. rewrite E. cbn [unchecked mbind outcome_bind]. apply Hc in E.
    eexists. split; [done|]. destruct (resolve_content_type ct f path) as [t|e] eqn:Et; cbn; [by constructor|].
    destruct ct as [ct|]; [done|]. cbn in Et. destruct (extension f) eqn:Ee; [done|]. injection Et as <-. by apply fault_extension.
  - eexists. split; [done|]. destruct (status_from_u16 status) as [st|] eqn:Es; [|by eapply fault_status].
    pose proof (header_map_spec path headers []) as H. destruct (build_header_map _ _ path headers []) as [hs|e]; cbn.
    + destruct H as (hs' & -> & H). by constructor.
    + destruct H as (n & v & reason & -> & H1 & H2). by eapply fault_header.
  - by eexists.
Qed.

Lemma build_loop_spec p cache entries all done g fns ex : all = done ++ entries -> NoDup all.*1 -> cached p cache ->
  (forall path ct f, (path, DFile ct f) ∈ entries -> is_Some (cache !! f)) -> loaded p done g fns ex ->
  exists g' r, building cache entries g fns ex = Ret (g', r) /\
    match r with Err e => fault p all e | Ok (fns', ex') => loaded p all g' fns' ex' end.
Proof.
  intros -> Hd Hc. revert done g fns ex Hd. induction entries as [|[path def] entries IH]; intros done g fns ex Hd Hf Hl; cbn [build_loop].
  { rewrite app_nil_r. by exists g, (Ok (fns, ex)). }
  assert ((path, def) ∈ done ++ (path, def) :: entries) as Hin by set_solver.
  destruct (build_route_spec p cache path def _ Hin Hc) as (r & -> & H).
  { intros ct f ->. apply (Hf path ct). by left. }
  cbn [mbind outcome_bind]. destruct r as [r|e]; [|by eauto]. rewrite cons_middle, app_assoc in Hd |- *. destruct r as [s|from].
  - assert (path ∉ done.*1) as Hn.
    { rewrite !fmap_app in Hd. apply NoDup_app in Hd as [Hd _]. apply NoDup_app in Hd as (_ & Hd & _). intros Hq. apply (Hd _ Hq). set_solver. }
    destruct (loaded_step_service _ _ _ _ _ _ _ _ Hl Hn H) as (g' & -> & Hl'). cbn [mbind outcome_bind].
    apply IH; [done| |done]. intros q ct f Hq. apply (Hf q ct). by right.
  - subst def. apply IH; [done| |by apply loaded_step_exchange]. intros q ct f Hq. apply (Hf q ct). by right.
Qed.

Lemma build_routes_spec p entries meta services : NoDup entries.*1 ->
  exists g r, build_routes fs_read by_name path_order status_from_u16 header_name header_value (mkLoader p (mkRegistry meta entries)) (mkServed services []) = Ret (g, r) /\
    match r with
    | Err e => fault p entries e
    | Ok (fns, m) => loaded p entries g fns (exchanged entries) /\
        m = default exchange_default (exchange_try_from (exchanged entries))
    end.
Proof using path_order_perm.
  intros Hd. unfold build_routes. cbn [registry routes provider].
  destruct (collect_paths entries [] ∅) as [unique refs] eqn:Ec. apply collect_paths_spec in Ec as [Hu Hr].
  destruct (read_files_spec p entries refs (path_order unique) ∅) as (r & -> & H).
  { intros path. rewrite Hr. case_match; [done|]. by rewrite lookup_empty. }
  { intros path. rewrite path_order_perm, Hu. by intros [H%elem_of_nil|]. }
  { by intros ???. }
  cbn [mbind outcome_bind]. destruct r as [cache|e]; [|by eauto]. destruct H as [Hc Hall].
  destruct (build_loop_spec p cache entries entries [] (mkServed services []) ∅ ∅ eq_refl Hd Hc) as (g & r & -> & H).
  { intros path ct f Hin. apply Hall. left. rewrite path_order_perm, Hu. right. intros E.
    assert (path ∈ referring f entries) as H by (apply referring_spec; by eauto). rewrite E in H. by apply elem_of_nil in H. }
  { split; try done; [by intros ?? ?%elem_of_nil| |constructor].
    intros path. cbn. rewrite lookup_empty. split; [by intros ?%elem_of_nil|by intros [? [=]]]. }
  cbn [mbind outcome_bind]. exists g. destruct r as [[fns ex]|e]; cbn; eexists; split; try done.
  pose proof (loaded_ex _ _ _ _ _ H) as ->. done.
Qed.
End served.

(** Why nothing is loaded, by the error that says so. *)
Section load_faults.
Context (exists_ is_dir is_file : bytes -> bool) (fs_read : bytes -> Read) (to_text : bytes -> result bytes bytes).
Context (parse_json : bytes -> result bytes (Metadata * list (bytes * RouteDefinition))).
Context {Archive : Type} (zip_new : bytes -> result bytes Archive) (by_name : Archive -> bytes -> ZipRead).
Context (hash_order : list (bytes * RouteDef) -> list (bytes * RouteDef)).

Inductive load_fault (path : bytes) : FrontendError -> Prop :=
| fault_absent : exists_ path = false -> load_fault path (PathNotFound path)
| fault_kind : is_dir path = false -> is_file path = false \/ extension path <> Some (as_bytes "zip") ->
    load_fault path (NotZipOrDirectory path)
| fault_no_registry e : is_dir path = true -> fs_read (path_join path REGISTRY_NAME) = Missing e ->
    load_fault path (RegistryNotFound (path_join path REGISTRY_NAME))
| fault_registry_read e : is_dir path = true -> fs_read (path_join path REGISTRY_NAME) = Failed e -> load_fault path (IoError e)
| fault_registry_text data e : is_dir path = true -> fs_read (path_join path REGISTRY_NAME) = Content data ->
    to_text data = Err e -> load_fault path (IoError e)
| fault_registry_json data json e : is_dir path = true -> fs_read (path_join path REGISTRY_NAME) = Content data ->
    to_text data = Ok json -> parse_json json = Err e ->
    load_fault path (InvalidJson (as_bytes "route_registry.json at " ++ path_join path REGISTRY_NAME) e)
| fault_zip_read e : is_dir path = false -> fs_read path = Missing e \/ fs_read path = Failed e -> load_fault path (IoError e)
| fault_zip data e : is_dir path = false -> fs_read path = Content data -> zip_new data = Err e -> load_fault path (ZipError e)
| fault_zip_entry data archive e : is_dir path = false -> fs_read path = Content data -> zip_new data = Ok archive ->
    by_name archive REGISTRY_NAME = ZFailed e -> load_fault path (ZipError e)
| fault_zip_no_registry data archive : is_dir path = false -> fs_read path = Content data -> zip_new data = Ok archive ->
    by_name archive REGISTRY_NAME = ZMissing -> load_fault path (RegistryNotFound (path ++ [47] ++ REGISTRY_NAME))
| fault_zip_text data archive r e : is_dir path = false -> fs_read path = Content data -> zip_new data = Ok archive ->
    by_name archive REGISTRY_NAME = ZEntry r -> (r ≫= to_text) = Err e -> load_fault path (IoError e)
| fault_zip_json data archive r json e : is_dir path = false -> fs_read path = Content data -> zip_new data = Ok archive ->
    by_name archive REGISTRY_NAME = ZEntry r -> (r ≫= to_text) = Ok json -> parse_json json = Err e ->
    load_fault path (InvalidJson (as_bytes "route_registry.json in " ++ path) e).

Lemma from_path_faults path e :
  from_path exists_ is_dir is_file fs_read to_text parse_json zip_new by_name hash_order path = Err e -> load_fault path e.
Proof using.
  unfold from_path. destruct (exists_ path) eqn:Ee; cbn [negb]; [|intros [= <-]; by constructor].
  destruct (is_dir path) eqn:Ed.
  - unfold from_directory, from_json. destruct (fs_read (path_join path REGISTRY_NAME)) as [data|x|x] eqn:Er;
      cbn [mbind result_bind map_err fmap result_fmap].
    + destruct (to_text data) as [json|x] eqn:Et; cbn [mbind result_bind map_err fmap result_fmap]; [|intros [= <-]; by eapply fault_registry_text].
      destruct (parse_json json) as [[m raw]|x] eqn:Ej; cbn [mbind result_bind map_err fmap result_fmap]; [done|]. intros [= <-]. by eapply fault_registry_json.
    + intros [= <-]. by eapply fault_no_registry.
    + intros [= <-]. by eapply fault_registry_read.
  - destruct (is_file path) eqn:Ef; cbn [andb]; [|intros [= <-]; apply fault_kind; auto].
    case_bool_decide as Hx; [|intros [= <-]; apply fault_kind; auto].
    unfold from_zip_file, from_json. destruct (fs_read path) as [data|x|x] eqn:Er; cbn [mbind result_bind map_err fmap result_fmap]; [|intros [= <-]; apply fault_zip_read; auto..].
    destruct (zip_new data) as [archive|x] eqn:Ez; cbn [mbind result_bind map_err fmap result_fmap]; [|intros [= <-]; by eapply fault_zip].
    destruct (by_name archive REGISTRY_NAME) as [r| |x] eqn:En; cbn [mbind result_bind map_err fmap result_fmap].
    all: try (intros [= <-]).
    + destruct (r ≫= to_text) as [json|x] eqn:Et; cbn [mbind result_bind map_err fmap result_fmap]; [|intros [= <-]; by eapply fault_zip_text].
      destruct (parse_json json) as [[m raw]|x] eqn:Ej; cbn [mbind result_bind map_err fmap result_fmap]; [done|]. intros [= <-]. by eapply fault_zip_json.
    + by eapply fault_zip_no_registry.
    + by eapply fault_zip_entry.
Qed.
End load_faults.

(** The paths of a registry are the keys of a map. *)
Lemma from_path_distinct exists_ is_dir is_file fs_read to_text parse_json {Archive} zip_new by_name hash_order path
    (l : FrontendLoader (Archive := Archive)) :
  (forall l, hash_order l ≡ₚ l) -> (forall json m raw, parse_json json = Ok (m, raw) -> NoDup raw.*1) ->
  from_path exists_ is_dir is_file fs_read to_text parse_json zip_new by_name hash_order path = Ok l ->
  NoDup (routes (registry l)).*1.
Proof.
  intros Hp Hj. assert (forall json r, from_json parse_json hash_order json = Ok r -> NoDup (routes r).*1) as H.
  { intros json r. unfold from_json. destruct (parse_json json) as [[m raw]|] eqn:E; [|done]. intros [= <-]. cbn.
    unfold deserialize_routes. rewrite Hp, <- list_fmap_compose. by apply (Hj _ _ _ E). }
  unfold from_path, from_directory, from_zip_file. case_match; [done|]. case_match; [|case_match; [|done]].
  - intros (json & _ & (r & E & [= <-])%bind_Ok)%bind_Ok. apply map_err_Ok in E. by apply (H json).
  - intros (f & _ & (a & _ & (json & _ & (r & E & [= <-])%bind_Ok)%bind_Ok)%bind_Ok)%bind_Ok. apply map_err_Ok in E. by apply (H json).
Qed.

(** C34: the pages at the start.  Whatever the orders of the hash maps are, loading
    ends within defined behaviour.  An error names what is wrong: with the path, the
    archive or the registry ([load_fault]), or with a route of the registry ([fault]).
    Without one, every path of the registry that is not in place of another is
    served, by the index it holds, the service its definition describes, and the
    listed paths are those served.  The table of replaced paths is exactly the one the
    registry asks for ([exchanged]), each path going to a route that names it, unless
    a path is both replaced and a replacement ([crossed]): then, and only then, it is
    empty. *)
Theorem pages_served exists_ is_dir is_file fs_read to_text parse_json {Archive} zip_new (by_name : Archive -> bytes -> ZipRead)
    hash_order path_order status_from_u16 header_name header_value env services :
  let from_path := from_path exists_ is_dir is_file fs_read to_text parse_json zip_new by_name hash_order
    (parse_str_from_env env "FRONTEND_PATH" (as_bytes "frontend.zip")) in
  (forall l, hash_order l ≡ₚ l) -> (forall l, path_order l ≡ₚ l) ->
  (forall json m raw, parse_json json = Ok (m, raw) -> NoDup raw.*1) ->
  exists g r, init_frontend exists_ is_dir is_file fs_read to_text parse_json zip_new by_name hash_order path_order
      status_from_u16 header_name header_value env services = Ret (g, r) /\
    match r with
    | Err e => (from_path = Err e /\ load_fault exists_ is_dir is_file fs_read to_text parse_json zip_new by_name
                  (parse_str_from_env env "FRONTEND_PATH" (as_bytes "frontend.zip")) e) \/
        exists l, from_path = Ok l /\
        fault fs_read by_name status_from_u16 header_name header_value (provider l) (routes (registry l)) e
    | Ok (fns, m) => exists l, from_path = Ok l /\ let entries := routes (registry l) in
        NoDup (paths g) /\ (forall path, path ∈ paths g <-> is_Some (fns !! path)) /\
        (forall path, is_Some (fns !! path) -> path ∈ entries.*1) /\
        (forall path def, (path, def) ∈ entries ->
           match fns !! path with
           | Some idx => exists s, call_once g idx = Ret s /\
               describes fs_read by_name status_from_u16 header_name header_value (provider l) path def s
           | None => exists from, def = DExchange from
           end) /\
        (crossed entries -> m = exchange_default) /\
        (~ crossed entries -> m = mkExchange [] (exchanged entries) /\
           forall from to, (to, DExchange from) ∈ entries -> ((resolve from m).1, DExchange from) ∈ entries)
    end.
Proof.
  cbv zeta. intros Hp Hq Hj. unfold init_frontend.
  destruct (from_path _ _ _ _ _ _ _ _ _ _) as [[p [me entries]]|e] eqn:El;
    [|do 2 eexists; split; [done|left; split; [done|by eapply from_path_faults]]].
  assert (NoDup entries.*1) as Hd by exact (from_path_distinct _ _ _ _ _ _ _ _ _ _ _ Hp Hj El).
  destruct (build_routes_spec fs_read by_name path_order Hq status_from_u16 header_name header_value p entries me services Hd)
    as (g & r & -> & H).
  exists g, r. split; [done|]. destruct r as [[fns m]|e]; [|right; by eexists].
  destruct H as [[Hf Ha Hpa Ho _] ->]. eexists. split; [done|]. cbv zeta. cbn [registry routes provider].
  destruct (exchange_table entries Hd) as [Hx Hy]. destruct (exchanged_spec entries) as [He Ht].
  split_and!; [done|done| | |by intros ->%Hx|].
  - intros path [idx Hi]. apply Hf in Hi as (d & s & H & _). apply list_elem_of_fmap. by exists (path, d).
  - intros path def Hin. destruct (fns !! path) as [idx|] eqn:Ei.
    + apply Hf in Ei as (d & s & H1 & H2 & H3). exists s. split; [by apply unchecked_Ret|].
      by rewrite (NoDup_keys_eq entries path def d).
    + destruct (Ha path def Hin) as [|[idx H]]; [done|]. by rewrite H in Ei.
  - intros ->%Hy. split; [done|]. intros from to Hin. destruct (Ht _ _ Hin) as [to' E]. unfold resolve. cbn. rewrite E. by apply He.
Qed.

(** A directory with a page, an answer without a body and a replaced path. *)
Definition sample_file (path : bytes) : Read :=
  if bool_decide (path = as_bytes "site/route_registry.json") then Content [1]
  else if bool_decide (path = as_bytes "site/index.html") then Content (as_bytes "hi") else Missing (as_bytes "no file").
Definition sample_json (json : bytes) : result bytes (Metadata * list (bytes * RouteDefinition)) :=
  match json with
  | [1] => Ok (mkMetadata None None None None None,
      [(as_bytes "/", SString (as_bytes "index.html"));
       (as_bytes "/old", SObject (DEmpty 301 [(as_bytes "location", as_bytes "/")]));
       (as_bytes "/status", SObject (DExchange (as_bytes "/health")))])
  | _ => Err []
  end.
Definition sample_env : Settings.Env := fun key => if bool_decide (key = "FRONTEND_PATH"%string) then Some (as_bytes "site") else None.
Abbreviation sample_frontend :=
  (init_frontend (fun _ => true) (fun _ => true) (fun _ => false) sample_file Ok sample_json (fun _ => Ok ()) (fun _ _ => ZMissing) id id
    Some Ok Ok sample_env []).
Lemma sample_json_distinct json m raw : sample_json json = Ok (m, raw) -> NoDup raw.*1.
Proof. unfold sample_json. repeat case_match; try done. intros [= _ <-]. by_decision. Qed.

Lemma pages_served_witness : exists g fns m, sample_frontend = Ret (g, Ok (fns, m)) /\ NoDup (paths g) /\
  (forall path, path ∈ paths g <-> is_Some (fns !! path)) /\ resolve (as_bytes "/health") m = (as_bytes "/status", mkExchange [as_bytes "/status"] (e_map m)) /\
  call_once g 0 = Ret (SFile (as_bytes "text/html;charset=utf-8") (as_bytes "hi")).
Proof.
  destruct (pages_served (fun _ => true) (fun _ => true) (fun _ => false) sample_file Ok sample_json (fun _ => Ok ()) (fun (_ : ()) _ => ZMissing)
    id id Some Ok Ok sample_env [] (fun l => reflexivity l) (fun l => reflexivity l) sample_json_distinct) as (g & r & E & H).
  destruct r as [[fns m]|e]; [|vm_compute in E; discriminate E]. exists g, fns, m. split; [exact E|].
  destruct H as (l & _ & H1 & H2 & _). split; [exact H1|]. split; [exact H2|].
  vm_compute in E. injection E as <- <- <-. split; vm_compute; reflexivity.
Defined.

(** A path that is both replaced and a replacement, as when two paths are exchanged
    for each other, makes the program drop the whole table. *)
Theorem exchange_dropped map k v w : map !! k = Some v -> map !! v = Some w ->
  default exchange_default (exchange_try_from map) = exchange_default.
Proof.
  intros Hk Hv. destruct (exchange_try_from map) as [m|] eqn:E; [|done]. apply exchange_spec in E as (_ & _ & E).
  by destruct (E v w k v Hv Hk).
Qed.
