(* ===== verification/Router.v ===== *)
(** * The routes

    [create_router] of [src/src/app/route.rs] and [init_endpoints] of
    [src/src/core/route/health.rs]: the handlers of the program under the paths that
    the table of replaced paths gives, with the checks of their callers; then the
    pages ([Frontend]).

    The router of axum is the interface [Axum]: a router holds, for a path and a
    method, a handler and the layers around it, the innermost first.  A second
    handler for the same path and method is a panic, and so is a path that is not
    valid or whose captures overlap with those of a path that is there under other
    names; a layer of [route_layer] is around the routes that are there. *)
From stdpp Require Import gmap.
From S2P Require Import Prelude Strings Settings Auth Frontend.

Inductive Method : Type := Get | Post.
#[export] Instance method_eq_dec : EqDecision Method.
Proof. solve_decision. Defined.
#[export] Instance method_countable : Countable Method.
Proof.
  refine (inj_countable' (fun m => match m with Get => true | Post => false end) (fun b => if b then Get else Post) _).
  by intros [].
Defined.
Inductive Layer : Type := AdminAuth | CppAuth | V1Auth | V1Auth2 | BodyLimit (limit : Z) | CorsPermissive.

Inductive Handler : Type :=
  | HandleHealth | HandleGetTokens | HandleSetTokens | HandleAddTokens | HandleDeleteTokens | HandleMergeTokens
  | HandleSetTokensAlias | HandleUpdateTokensProfile | HandleUpdateTokensConfigVersion | HandleRefreshTokens
  | HandleSetTokensStatus | HandleSetTokensProxy | HandleSetTokensTimezone | HandleGetProxies
  | HandleSetProxies | HandleAddProxy | HandleDeleteProxies | HandleSetGeneralProxy | HandleNtpSyncOnce
  | HandleCppConfig | HandleCppModels | HandleUploadFile | HandleSyncFile | HandleStreamCpp | HandleRawModels
  | HandleModels | HandleMessages | HandleChatCompletions | HandleMessagesCountTokens | HandleGetLogs
  | HandleGetLogsTokens | HandleEnvExample | HandleConfigUpdate | HandleLicense | HandleReadme | HandleGenUuid
  | HandleGenHash | HandleGenChecksum | HandleGetChecksumHeader | HandleBuildKey | HandleGetConfigVersion
  | HandleGetTokenProfile 
| Page (idx : nat).
Abbreviation Row := (string * Method * Handler * list Layer)%type (only parsing).
Definition HEALTH_ROUTES : list (Row) :=
  [("/health", Get, HandleHealth, [])].
Definition ADMIN_ROUTES : list (Row) :=
  [("/tokens/get", Post, HandleGetTokens, []);
   ("/tokens/set", Post, HandleSetTokens, []);
   ("/tokens/add", Post, HandleAddTokens, []);
   ("/tokens/del", Post, HandleDeleteTokens, []);
   ("/tokens/merge", Post, HandleMergeTokens, []);
   ("/tokens/alias/set", Post, HandleSetTokensAlias, []);
   ("/tokens/profile/update", Post, HandleUpdateTokensProfile, []);
   ("/tokens/config-version/update", Post, HandleUpdateTokensConfigVersion, []);
   ("/tokens/refresh", Post, HandleRefreshTokens, []);
   ("/tokens/status/set", Post, HandleSetTokensStatus, []);
   ("/tokens/proxy/set", Post, HandleSetTokensProxy, []);
   ("/tokens/timezone/set", Post, HandleSetTokensTimezone, []);
   ("/proxies/get", Post, HandleGetProxies, []);
   ("/proxies/set", Post, HandleSetProxies, []);
   ("/proxies/add", Post, HandleAddProxy, []);
   ("/proxies/del", Post, HandleDeleteProxies, []);
   ("/proxies/set-general", Post, HandleSetGeneralProxy, []);
   ("/ntp/sync-once", Get, HandleNtpSyncOnce, [])].
Definition CPP_ROUTES : list (Row) :=
  [("/cpp/config", Post, HandleCppConfig, []);
   ("/cpp/models", Post, HandleCppModels, []);
   ("/file/upload", Post, HandleUploadFile, []);
   ("/file/sync", Post, HandleSyncFile, []);
   ("/cpp/stream", Post, HandleStreamCpp, [])].
Definition OTHER_ROUTES : list (Row) :=
  [("/raw/models", Get, HandleRawModels, []);
   ("/v1/models", Get, HandleModels, []);
   ("/v1/messages", Post, HandleMessages, [V1Auth]);
   ("/v1/chat/completions", Post, HandleChatCompletions, [V1Auth]);
   ("/v1/messages/count_tokens", Post, HandleMessagesCountTokens, [V1Auth2]);
   ("/logs/get", Post, HandleGetLogs, []);
   ("/logs/tokens/get", Post, HandleGetLogsTokens, []);
   ("/env-example", Get, HandleEnvExample, []);
   ("/config", Post, HandleConfigUpdate, []);
   ("/license", Get, HandleLicense, []);
   ("/readme", Get, HandleReadme, []);
   ("/gen-uuid", Get, HandleGenUuid, []);
   ("/gen-hash", Get, HandleGenHash, []);
   ("/gen-checksum", Get, HandleGenChecksum, []);
   ("/get-checksum-header", Get, HandleGetChecksumHeader, []);
   ("/build-key", Post, HandleBuildKey, []);
   ("/config-version/get", Post, HandleGetConfigVersion, []);
   ("/token-profile/get", Post, HandleGetTokenProfile, [])].

Abbreviation Entry := (Handler * list Layer)%type (only parsing).
Abbreviation Contents := (gmap (bytes * Method) (Handler * list Layer)) (only parsing).
(** A path without captures. *)
Definition plain_path (path : bytes) : bool :=
  match path with 47 :: _ => forallb (fun b => negb ((b =? 123) || (b =? 125))) path | _ => false end.

(** A path that a router with these contents can take for a method. *)
Definition free (overlaps : bytes -> bytes -> bool) (c : Contents) (k : bytes * Method) : Prop :=
  c !! k = None /\ map_Forall (fun k' _ => overlaps k.1 k'.1 = false) c.

Class Axum (Router : Type) : Type := {
  router_new : Router;
  contents : Router -> Contents;
  valid_path : bytes -> bool;
  (** Captures of the first path overlap with those of the second under other names. *)
  overlaps : bytes -> bytes -> bool;
  (** [Router::route] of a handler with its own layers; [None] is a panic. *)
  route : bytes -> Method -> Entry -> Router -> option Router;
  route_layer : Layer -> Router -> Router;
  merge : Router -> Router -> option Router;
  layer : Layer -> Router -> Router;
  contents_new : contents router_new = ∅;
  plain_valid : forall path, plain_path path = true -> valid_path path = true;
  plain_overlaps : forall path path', plain_path path = true -> overlaps path path' = false;
  route_none : forall path m e r, route path m e r = None <-> ~ (valid_path path = true /\ free overlaps (contents r) (path, m));
  route_some : forall path m e r r', route path m e r = Some r' -> contents r' = <[(path, m) := e]> (contents r);
  contents_route_layer : forall l r, contents (route_layer l r) = (fun e => (e.1, e.2 ++ [l])) <$> contents r;
  merge_none : forall r1 r2, merge r1 r2 = None <-> ~ map_Forall (fun k _ => free overlaps (contents r1) k) (contents r2);
  merge_some : forall r1 r2 r, merge r1 r2 = Some r -> contents r = contents r1 ∪ contents r2;
  contents_layer : forall l r, contents (layer l r) = (fun e => (e.1, e.2 ++ [l])) <$> contents r }.

Section router.
Context {Router : Type} {axum : Axum Router}.

Definition add_route (row : Row) (s : Router * ExchangeMap) : outcome (Router * ExchangeMap) :=
  let '(path, m, h, ls) := row in
  let '(path, x) := resolve (as_bytes path) s.2 in
  r ← unwrap (route path m (h, ls) s.1); Ret (r, x).
Fixpoint add_routes (rows : list (Row)) (s : Router * ExchangeMap)
    : outcome (Router * ExchangeMap) :=
  match rows with [] => Ret s | row :: rows => s ← add_route row s; add_routes rows s end.
(** A router of its own whose routes get a layer, merged into the first. *)
Definition merge_routes (rows : list (Row)) (l : Layer) (s : Router * ExchangeMap)
    : outcome (Router * ExchangeMap) :=
  '(r, x) ← add_routes rows (router_new, s.2);
  r ← unwrap (merge s.1 (route_layer l r)); Ret (r, x).
Fixpoint add_pages (pages : list (bytes * nat)) (r : Router) : outcome Router :=
  match pages with
  | [] => Ret r
  | (path, idx) :: pages => r ← unwrap (route path Get (Page idx, []) r); add_pages pages r
  end.

(** The listed paths: those of the program, then the other ones of the registry. *)
Definition init_endpoints (resolved registry : list bytes) : list bytes :=
  resolved ++ List.filter (fun p => negb (bool_decide (p ∈ resolved))) registry.

(** [pages_order] is the order of the map of the pages. *)
Definition create_router (env : Settings.Env) (pages_order : gmap bytes nat -> list (bytes * nat))
    (g : Served) (frontend : result FrontendError (gmap bytes nat * ExchangeMap)) : outcome (Router * list bytes) :=
  let '(routes, exchange_map) := default (∅, exchange_default) (to_option frontend) in
  s ← add_routes HEALTH_ROUTES (router_new, exchange_map);
  s ← merge_routes ADMIN_ROUTES AdminAuth s;
  s ← merge_routes CPP_ROUTES CppAuth s;
  '(backend, exchange_map) ← add_routes OTHER_ROUTES s;
  let endpoints := init_endpoints (finish exchange_map) (paths g) in
  backend ← add_pages (pages_order routes) backend;
  Ret (layer CorsPermissive (layer (BodyLimit (parse_num_from_env 64 env "REQUEST_BODY_LIMIT" 2000000)) backend), endpoints).
End router.

(** ** What the routes are *)

Definition layered (l : Layer) (row : Row) : Row :=
  (row.1, row.2 ++ [l]).
Definition BACKEND_ROUTES : list (Row) :=
  HEALTH_ROUTES ++ (layered AdminAuth <$> ADMIN_ROUTES) ++ (layered CppAuth <$> CPP_ROUTES) ++ OTHER_ROUTES.
(** The path of a route with the replaced paths. *)
Definition target (x : ExchangeMap) (path : string) : bytes := (resolve (as_bytes path) x).1.
Definition registered (x : ExchangeMap) (row : Row) : bytes * Method * Entry :=
  (target x row.1.1.1, row.1.1.2, (row.1.2, row.2)).
Definition registered_page (page : bytes * nat) : bytes * Method * Entry := (page.1, Get, (Page page.2, [])).
Definition after (x : ExchangeMap) (rows : list (Row)) : ExchangeMap :=
  foldl (fun x row => (resolve (as_bytes row.1.1.1) x).2) x rows.

Lemma resolve_map p x : e_map (resolve p x).2 = e_map x.
Proof. unfold resolve. by destruct (e_map x !! p). Qed.
Lemma resolve_target p x y : e_map x = e_map y -> (resolve p x).1 = (resolve p y).1.
Proof. unfold resolve. intros ->. by destruct (e_map y !! p). Qed.
Lemma after_map rows x : e_map (after x rows) = e_map x.
Proof. revert x. induction rows as [|row rows IH]; intros x; [done|]. cbn [after foldl]. unfold after in IH. by rewrite IH, resolve_map. Qed.
Lemma registered_map x y (rows : list (Row)) : e_map x = e_map y -> registered x <$> rows = registered y <$> rows.
Proof. intros H. apply list_fmap_ext. intros _ [[[p m] h] ls] _. unfold registered, target. by rewrite (resolve_target _ x y). Qed.
Lemma after_app x rows1 rows2 : after x (rows1 ++ rows2) = after (after x rows1) rows2.
Proof. apply foldl_app. Qed.
Lemma after_layered x l rows : after x (layered l <$> rows) = after x rows.
Proof. unfold after. revert x. induction rows as [|[[[p m] h] ls] rows IH]; intros x; [done|]. cbn. apply IH. Qed.

(** The layers around everything. *)
Abbreviation outer env := [BodyLimit (parse_num_from_env 64 env "REQUEST_BODY_LIMIT" 2000000); CorsPermissive] (only parsing).

Section outcome.
Context {Router : Type} {axum : Axum Router}.

(** What can be added, in this order, to a router with the contents [c]. *)
Fixpoint accepted (c : Contents) (l : list (bytes * Method * Entry)) : Prop :=
  match l with
  | [] => True
  | (k, e) :: l => (valid_path k.1 = true /\ free overlaps c k) /\ accepted (<[k := e]> c) l
  end.
#[export] Instance accepted_dec c l : Decision (accepted c l).
Proof. revert c. induction l as [|[k e] l IH]; intros c; cbn [accepted]; unfold free; apply _. Defined.

(** What it says of the keys. *)
Definition apart (k k' : bytes * Method) : Prop := k <> k' /\ overlaps k'.1 k.1 = false.
Definition addable (ks : list (bytes * Method)) : Prop :=
  Forall (fun k => valid_path k.1 = true) ks /\ ForallOrdPairs apart ks.
Lemma free_empty k : free overlaps (∅ : Contents) k.
Proof. split; [done|]. apply map_Forall_empty. Qed.
Lemma free_insert (c : Contents) k k' e : free overlaps c k -> free overlaps (<[k := e]> c) k' <-> apart k k' /\ free overlaps c k'.
Proof. intros [Hk _]. unfold free, apart. rewrite lookup_insert_None, map_Forall_insert by done. tauto. Qed.
Lemma accepted_keys c l : accepted c l <-> addable l.*1 /\ Forall (free overlaps c) l.*1.
Proof.
  revert c. induction l as [|[k e] l IH]; intros c; cbn [accepted fmap list_fmap fst].
  { split; [|done]. intros _. repeat constructor. }
  rewrite IH. unfold addable. rewrite !Forall_cons. split.
  - intros [[Hv Hf] [[Hvs Hp] Ha]]. rewrite (Forall_iff _ _ _ (fun k' => free_insert c k k' e Hf)), Forall_and in Ha.
    destruct Ha as [Ha Hfs]. split_and!; try done. by constructor.
  - intros [[[Hv Hvs] Hp] [Hf Hfs]]. inversion_clear Hp as [|? ? Ha Hp']. split_and!; try done.
    rewrite (Forall_iff _ _ _ (fun k' => free_insert c k k' e Hf)), Forall_and. done.
Qed.
Lemma accepted_empty_keys l : accepted ∅ l <-> addable l.*1.
Proof. rewrite accepted_keys. split; [tauto|]. intros H. split; [done|]. apply Forall_true, free_empty. Qed.
Lemma addable_NoDup ks : addable ks -> NoDup ks.
Proof.
  intros [_ H]. induction H as [|k ks Ha _ IH]; constructor; [|done]. rewrite Forall_forall in Ha. intros Hk. by destruct (Ha k Hk).
Qed.
Definition insert_all (c : Contents) (l : list (bytes * Method * Entry)) : Contents := foldl (fun c e => <[e.1 := e.2]> c) c l.

Lemma accepted_app c l1 l2 : accepted c (l1 ++ l2) <-> accepted c l1 /\ accepted (insert_all c l1) l2.
Proof.
  revert c. induction l1 as [|[k e] l1 IH]; intros c; cbn [app insert_all foldl].
  - cbn [accepted]. tauto.
  - cbn [accepted]. rewrite IH. tauto.
Qed.
Lemma insert_all_lookup c l k e : accepted c l -> insert_all c l !! k = Some e <-> (k, e) ∈ l \/ c !! k = Some e.
Proof.
  revert c. induction l as [|[k' e'] l IH]; intros c.
  - intros _. cbn. split; [by right|]. by intros [?%elem_of_nil|].
  - cbn [accepted]. intros [[_ [Hn _]] Ha]. unfold insert_all. cbn [foldl]. cbn [fst snd] in *. fold (insert_all (<[k' := e']> c) l).
    rewrite (IH _ Ha), elem_of_cons, lookup_insert_Some. split.
    + intros [H|[[<- <-]|[_ H]]]; [by left; right|by left; left|by right].
    + intros [[[= -> ->]|H]|H]; [by right; left|by left|]. right; right. split; [|done]. intros ->. by rewrite Hn in H.
Qed.

(** A list of routes under a layer. *)
Definition under (l : Layer) (e : bytes * Method * Entry) : bytes * Method * Entry := (e.1, (e.2.1, e.2.2 ++ [l])).
Lemma under_keys l (es : list (bytes * Method * Entry)) : (under l <$> es).*1 = es.*1.
Proof. rewrite <- list_fmap_compose. by apply list_fmap_ext. Qed.
Lemma accepted_under l c es : accepted c (under l <$> es) <-> accepted c es.
Proof. by rewrite !accepted_keys, under_keys. Qed.
Lemma registered_layered x l (rows : list (Row)) : registered x <$> (layered l <$> rows) = under l <$> (registered x <$> rows).
Proof. rewrite <- !list_fmap_compose. by apply list_fmap_ext. Qed.

Lemma accepted_empty c l : accepted c l -> accepted ∅ l.
Proof. rewrite accepted_empty_keys, accepted_keys. tauto. Qed.
(** Merging a router of its own is adding its routes. *)
Lemma merge_inserts c r l es : contents r = insert_all ∅ es -> accepted ∅ es ->
  (accepted c es <-> map_Forall (fun k _ => free overlaps c k) (contents (route_layer l r))) /\
  (accepted c es -> c ∪ contents (route_layer l r) = insert_all c (under l <$> es)).
Proof.
  intros Hr Ha. rewrite contents_route_layer, Hr.
  assert (forall k e, (fun e : Entry => (e.1, e.2 ++ [l])) <$> insert_all ∅ es !! k = Some e <-> (k, e) ∈ under l <$> es) as H.
  { intros k e. rewrite fmap_Some, list_elem_of_fmap. split.
    - intros (e' & Hk & ->). apply insert_all_lookup in Hk as [Hk|Hk]; [|by rewrite lookup_empty in Hk|done]. by exists (k, e').
    - intros ([k' e'] & [= -> ->] & Hk). exists e'. split; [|done]. apply insert_all_lookup; [done|by left]. }
  assert (forall k, is_Some (((fun e : Entry => (e.1, e.2 ++ [l])) <$> insert_all ∅ es) !! k) <-> k ∈ es.*1) as Hd.
  { intros k. rewrite lookup_fmap, <- (under_keys l). split.
    - intros [e He]. apply H in He. apply list_elem_of_fmap. by exists (k, e).
    - intros ([k' e] & -> & He)%list_elem_of_fmap. exists e. by apply H. }
  assert (accepted c es <-> map_Forall (fun k _ => free overlaps c k) ((fun e : Entry => (e.1, e.2 ++ [l])) <$> insert_all ∅ es)) as Hc.
  { rewrite accepted_keys, Forall_forall. apply accepted_empty_keys in Ha. split.
    - intros [_ Hf] k e He. apply Hf, Hd. by exists e.
    - intros Hf. split; [done|]. intros k [e He]%Hd. by apply (Hf k e). }
  split; [done|]. intros Hac. apply map_eq. intros k. apply option_eq. intros e.
  rewrite insert_all_lookup by by apply accepted_under. rewrite lookup_union_Some.
  2:{ apply map_disjoint_spec. intros k' e1 e2 H1 H2. apply Hc in Hac. destruct (Hac k' e2 H2) as [Hn _]. by rewrite Hn in H1. }
  rewrite lookup_fmap, H. tauto.
Qed.

(** Adding routes, in a form that composes. *)
Definition adds (o : outcome (Router * ExchangeMap)) (c : Contents) (x : ExchangeMap) (rows : list (Row)) : Prop :=
  if decide (accepted c (registered x <$> rows)) then exists r, o = Ret (r, after x rows) /\ contents r = insert_all c (registered x <$> rows)
  else o = Panic.

Lemma adds_bind o f c x rows1 rows2 : adds o c x rows1 ->
  (forall r, contents r = insert_all c (registered x <$> rows1) -> adds (f (r, after x rows1)) (contents r) (after x rows1) rows2) ->
  adds (o ≫= f) c x (rows1 ++ rows2).
Proof.
  unfold adds. intros H Hf. rewrite fmap_app. destruct (decide (accepted c (registered x <$> rows1))) as [Ha|Ha].
  - destruct H as (r & -> & Hr). specialize (Hf r Hr). rewrite (registered_map (after x rows1) x) in Hf by apply after_map.
    cbn [mbind outcome_bind]. destruct (decide (accepted (contents r) _)) as [Hb|Hb].
    + rewrite decide_True by (apply accepted_app; by rewrite <- Hr). destruct Hf as (r' & -> & Hr'). exists r'.
      rewrite after_app. split; [done|]. rewrite Hr', Hr. unfold insert_all. by rewrite foldl_app.
    + rewrite decide_False; [done|]. rewrite accepted_app, <- Hr. tauto.
  - rewrite H, decide_False; [done|]. rewrite accepted_app. tauto.
Qed.
Lemma adds_route row r x : adds (add_route row (r, x)) (contents r) x [row].
Proof.
  destruct row as [[[p m] h] ls]. unfold adds, add_route. cbn [snd fst fmap list_fmap].
  destruct (resolve (as_bytes p) x) as [path y] eqn:Er.
  assert (registered x (p, m, h, ls) = (path, m, (h, ls))) as -> by (unfold registered, target; cbn; by rewrite Er).
  assert (after x [(p, m, h, ls)] = y) as -> by (unfold after; cbn; by rewrite Er).
  assert (accepted (contents r) [(path, m, (h, ls))] <-> route path m (h, ls) r <> None) as H.
  { rewrite route_none. cbn [accepted fst]. split; [tauto|]. intros H. apply dec_stable. unfold free in *. tauto. }
  destruct (route path m (h, ls) r) as [r'|] eqn:E; cbn.
  - rewrite decide_True by by apply H. exists r'. split; [done|]. by apply route_some in E.
  - rewrite decide_False by (rewrite H; tauto). done.
Qed.
Lemma adds_routes rows r x : adds (add_routes rows (r, x)) (contents r) x rows.
Proof.
  revert r x. induction rows as [|row rows IH]; intros r x; cbn [add_routes].
  - unfold adds. rewrite decide_True by done. by exists r.
  - apply (adds_bind _ _ _ _ [row]); [apply adds_route|]. intros r' _. apply IH.
Qed.
Lemma adds_merge rows l r x : adds (merge_routes rows l (r, x)) (contents r) x (layered l <$> rows).
Proof.
  unfold merge_routes, adds. cbn [snd fst]. pose proof (adds_routes rows router_new x) as H. unfold adds in H. rewrite contents_new in H.
  rewrite registered_layered, after_layered.
  destruct (decide (accepted ∅ _)) as [Ha|Ha].
  - destruct H as (r' & -> & Hr). cbn [mbind outcome_bind].
    destruct (merge_inserts (contents r) r' l _ Hr Ha) as [H1 H2].
    destruct (merge r (route_layer l r')) as [r''|] eqn:E; cbn.
    + assert (accepted (contents r) (registered x <$> rows)) as Hac.
      { apply dec_stable. rewrite H1. intros Hd. apply merge_none in Hd. by rewrite Hd in E. }
      rewrite decide_True by by apply accepted_under. exists r''. split; [done|]. by rewrite (merge_some _ _ _ E), H2.
    + rewrite decide_False; [done|]. rewrite accepted_under, H1. by apply merge_none.
  - rewrite H, decide_False; [done|]. rewrite accepted_under. intros Hc. by apply Ha, (accepted_empty (contents r)).
Qed.
Lemma add_pages_spec pages r :
  if decide (accepted (contents r) (registered_page <$> pages))
  then exists r', add_pages pages r = Ret r' /\ contents r' = insert_all (contents r) (registered_page <$> pages)
  else add_pages pages r = Panic.
Proof.
  revert r. induction pages as [|[path idx] pages IH]; intros r; cbn [add_pages].
  { rewrite decide_True by done. by exists r. }
  change (registered_page <$> (path, idx) :: pages) with ((path, Get, (Page idx, [])) :: (registered_page <$> pages)).
  assert (valid_path path = true /\ free overlaps (contents r) (path, Get) <-> route path Get (Page idx, []) r <> None) as H.
  { rewrite route_none. split; [tauto|]. intros H. apply dec_stable. unfold free in *. tauto. }
  destruct (route path Get (Page idx, []) r) as [r'|] eqn:E; cbn [unwrap mbind outcome_bind].
  - specialize (IH r'). rewrite (route_some _ _ _ _ _ E) in IH.
    destruct (decide (accepted (<[_:=_]> _) _)) as [Ha|Ha].
    + rewrite decide_True by (split; [by apply H|done]). done.
    + rewrite decide_False by (intros [_ ?]; tauto). done.
  - rewrite decide_False; [done|]. intros [[??] _]. by apply H.
Qed.

(** Everything that is added, in order. *)
Definition all_routes (x : ExchangeMap) (pages : list (bytes * nat)) : list (bytes * Method * Entry) :=
  (registered x <$> BACKEND_ROUTES) ++ (registered_page <$> pages).

Lemma create_router_spec env pages_order g frontend :
  let '(fns, x) := default (∅, exchange_default) (to_option frontend) in
  if decide (accepted ∅ (all_routes x (pages_order fns)))
  then exists r, create_router env pages_order g frontend = Ret (r, init_endpoints (e_cache (after x BACKEND_ROUTES)) (paths g)) /\
    contents r = (fun e => (e.1, e.2 ++ outer env)) <$> insert_all ∅ (all_routes x (pages_order fns))
  else create_router env pages_order g frontend = Panic.
Proof.
  unfold create_router. destruct (default _ _) as [fns x]. cbn [mbind outcome_bind]. unfold all_routes.
  match goal with |- context [add_routes HEALTH_ROUTES ?s ≫= ?f] => set (start := add_routes HEALTH_ROUTES s); set (cont := f) end.
  assert (adds (s ← start; s ← merge_routes ADMIN_ROUTES AdminAuth s; s ← merge_routes CPP_ROUTES CppAuth s; add_routes OTHER_ROUTES s)
    ∅ x BACKEND_ROUTES) as H.
  { rewrite <- contents_new. unfold BACKEND_ROUTES. apply adds_bind; [apply adds_routes|]. intros r1 _.
    apply adds_bind; [apply adds_merge|]. intros r2 _. apply adds_bind; [apply adds_merge|]. intros r3 _. apply adds_routes. }
  unfold adds in H.
  assert (start ≫= cont = (s ← start; s ← merge_routes ADMIN_ROUTES AdminAuth s; s ← merge_routes CPP_ROUTES CppAuth s; add_routes OTHER_ROUTES s)
    ≫= (fun '(backend, exchange_map) => backend ← add_pages (pages_order fns) backend;
         Ret (layer CorsPermissive (layer (BodyLimit (parse_num_from_env 64 env "REQUEST_BODY_LIMIT" 2000000)) backend),
              init_endpoints (finish exchange_map) (paths g)))) as ->.
  { unfold cont. destruct start as [s| |]; [|done|done]. cbn [mbind outcome_bind]. destruct (merge_routes ADMIN_ROUTES _ _) as [s1| |]; [|done|done].
    cbn [mbind outcome_bind]. destruct (merge_routes CPP_ROUTES _ _) as [s2| |]; [|done|done]. cbn [mbind outcome_bind]. done. }
  destruct (decide (accepted ∅ (registered x <$> BACKEND_ROUTES))) as [Ha|Ha].
  - destruct H as (r & -> & Hr). cbn [mbind outcome_bind]. pose proof (add_pages_spec (pages_order fns) r) as Hp. rewrite Hr in Hp.
    destruct (decide (accepted (insert_all _ _) _)) as [Hb|Hb].
    + rewrite decide_True by by apply accepted_app. destruct Hp as (r' & -> & Hr'). eexists. split; [done|].
      rewrite !contents_layer, Hr', <- map_fmap_compose. unfold insert_all. rewrite foldl_app. apply map_fmap_ext.
      intros k [h ls] _. cbn. by rewrite <- app_assoc.
    + rewrite decide_False by (rewrite accepted_app; tauto). by rewrite Hp.
  - rewrite decide_False by (rewrite accepted_app; tauto). by rewrite H.
Qed.
End outcome.

(** The checks that each handler is behind. *)
Definition guards (h : Handler) : list Layer :=
  match h with
  | HandleGetTokens | HandleSetTokens | HandleAddTokens | HandleDeleteTokens | HandleMergeTokens | HandleSetTokensAlias
  | HandleUpdateTokensProfile | HandleUpdateTokensConfigVersion | HandleRefreshTokens | HandleSetTokensStatus | HandleSetTokensProxy
  | HandleSetTokensTimezone | HandleGetProxies | HandleSetProxies | HandleAddProxy | HandleDeleteProxies | HandleSetGeneralProxy
  | HandleNtpSyncOnce => [AdminAuth]
  | HandleCppConfig | HandleCppModels | HandleUploadFile | HandleSyncFile | HandleStreamCpp => [CppAuth]
  | HandleMessages | HandleChatCompletions => [V1Auth]
  | HandleMessagesCountTokens => [V1Auth2]
  | _ => []
  end.
Lemma backend_guards : Forall (fun row : Row => row.2 = guards row.1.2) BACKEND_ROUTES.
Proof. unfold BACKEND_ROUTES. cbn. repeat (constructor; [reflexivity|]). constructor. Qed.
Lemma backend_complete h : (exists idx, h = Page idx) \/ exists row, row ∈ BACKEND_ROUTES /\ row.1.2 = h.
Proof.
  destruct h; try (left; by eexists); right; (eexists (_, _, _, _); split; [|cbn; reflexivity]);
    unfold BACKEND_ROUTES; cbn; repeat (apply elem_of_cons; first [left; reflexivity|right]).
Qed.

Lemma after_cache p x rows : p ∈ e_cache (after x rows) <-> p ∈ e_cache x \/ exists row, row ∈ rows /\ p = target x row.1.1.1.
Proof.
  revert x. induction rows as [|row rows IH]; intros x.
  { cbn. split; [by left|]. by intros [|(r & ?%elem_of_nil & _)]. }
  change (after x (row :: rows)) with (after (resolve (as_bytes row.1.1.1) x).2 rows). rewrite IH.
  assert (p ∈ e_cache (resolve (as_bytes row.1.1.1) x).2 <-> p = target x row.1.1.1 \/ p ∈ e_cache x) as ->.
  { unfold target, resolve. destruct (e_map x !! as_bytes row.1.1.1); cbn; apply set_insert_spec. }
  assert (forall row', target (resolve (as_bytes row.1.1.1) x).2 row' = target x row') as Ht.
  { intros row'. apply resolve_target, resolve_map. }
  split.
  - intros [[->|H]|(r & H & ->)]; [right; exists row; split; [by left|done]|by left|right; exists r; split; [by right|apply Ht]].
  - intros [H|(r & [->|H]%elem_of_cons & ->)]; [by left; right|by left; left|right; exists r; by rewrite Ht].
Qed.
Lemma set_insert_NoDup p set : NoDup set -> NoDup (set_insert p set).2.
Proof. intros H. unfold set_insert. case_bool_decide; [done|by constructor]. Qed.
Lemma after_NoDup x rows : NoDup (e_cache x) -> NoDup (e_cache (after x rows)).
Proof.
  revert x. induction rows as [|row rows IH]; intros x H; [done|]. cbn [after foldl]. apply IH.
  unfold resolve. destruct (e_map x !! _); by apply set_insert_NoDup.
Qed.
Lemma init_endpoints_spec resolved registry : NoDup resolved -> NoDup registry ->
  NoDup (init_endpoints resolved registry) /\ (forall p, p ∈ init_endpoints resolved registry <-> p ∈ resolved \/ p ∈ registry).
Proof.
  intros H1 H2. unfold init_endpoints. split.
  - apply NoDup_app. split_and!; [done| |].
    + intros p Hp (_ & Hn)%list_elem_of_In%filter_In. by rewrite bool_decide_eq_true_2 in Hn.
    + apply NoDup_ListNoDup, List.NoDup_filter. by apply NoDup_ListNoDup.
  - intros p. rewrite elem_of_app, !list_elem_of_In, filter_In, <- !list_elem_of_In. destruct (bool_decide_reflect (p ∈ resolved)); cbn; naive_solver.
Qed.

Section properties.
Context {Router : Type} {axum : Axum Router}.
Context (env : Settings.Env) (pages_order : gmap bytes nat -> list (bytes * nat)).
Context (pages_order_perm : forall fns, pages_order fns ≡ₚ map_to_list fns).

Lemma pages_keys (fns : gmap bytes nat) path idx : (path, Get, (Page idx, [])) ∈ registered_page <$> pages_order fns <-> fns !! path = Some idx.
Proof using pages_order_perm.
  rewrite list_elem_of_fmap. rewrite <- elem_of_map_to_list, <- pages_order_perm. split.
  - by intros ([p i] & [= -> ->] & H).
  - intros H. by exists (path, idx).
Qed.
Lemma backend_starts : accepted ∅ (registered exchange_default <$> BACKEND_ROUTES).
Proof.
  apply accepted_empty_keys.
  assert (Forall (fun k : bytes * Method => plain_path k.1 = true) (registered exchange_default <$> BACKEND_ROUTES).*1) as Hp by by_decision.
  assert (NoDup (registered exchange_default <$> BACKEND_ROUTES).*1) as Hn by by_decision.
  split; [by eapply Forall_impl; [|intros k; apply plain_valid]|].
  induction Hn as [|k ks Hk _ IH]; [constructor|]. apply Forall_cons in Hp as [_ Hp]. constructor; [|by apply IH].
  apply Forall_forall. intros k' Hin. rewrite Forall_forall in Hp. split; [by intros ->|by apply plain_overlaps, Hp].
Qed.
End properties.

Lemma pair_Ret {A B} (a a' : A) (b b' : B) : Ret (a, b) = Ret (a', b') -> a = a' /\ b = b'.
Proof. by intros [= -> ->]. Qed.

(** C35: the guards.  If the program starts, then whatever pages and replaced paths
    there are, a handler is only reached through the checks that belong to it, so no
    page and no replaced path opens the administration; every handler and every page
    is served; and the listed endpoints are the paths that are served, each once. *)
Theorem routes_guarded {Router} {axum : Axum Router} env pages_order g fns x r endpoints :
  (forall fns, pages_order fns ≡ₚ map_to_list fns) -> e_cache x = [] ->
  NoDup (paths g) -> (forall path, path ∈ paths g <-> is_Some (fns !! path)) ->
  create_router env pages_order g (Ok (fns, x)) = Ret (r, endpoints) ->
  (forall p m h ls, contents r !! (p, m) = Some (h, ls) -> ls = guards h ++ outer env) /\
  (forall h, (forall idx, h <> Page idx) -> exists p m, contents r !! (p, m) = Some (h, guards h ++ outer env)) /\
  (forall path idx, fns !! path = Some idx -> contents r !! (path, Get) = Some (Page idx, outer env)) /\
  NoDup endpoints /\ (forall p, p ∈ endpoints <-> exists m, is_Some (contents r !! (p, m))).
Proof.
  intros Hperm Hx Hg Hpaths E. pose proof (create_router_spec (Router := Router) env pages_order g (Ok (fns, x))) as H. cbv beta iota delta [to_option from_option id] in H.
  destruct (decide (accepted ∅ (all_routes x (pages_order fns)))) as [Ha|Ha]; [|by rewrite H in E]. destruct H as (r' & E' & Hr).
  destruct (pair_Ret _ _ _ _ (eq_trans (eq_sym E) E')) as [<- ->]. clear E E'.
  assert (forall p m h ls, contents r !! (p, m) = Some (h, ls) <->
    exists ls', ls = ls' ++ outer env /\ ((exists row, row ∈ BACKEND_ROUTES /\ p = target x row.1.1.1 /\ m = row.1.1.2 /\ h = row.1.2 /\ ls' = row.2) \/
      (exists idx, m = Get /\ h = Page idx /\ ls' = [] /\ fns !! p = Some idx))) as Hc.
  { intros p m h ls. rewrite Hr, lookup_fmap, fmap_Some. unfold all_routes.
    setoid_rewrite (insert_all_lookup _ _ _ _ Ha). setoid_rewrite (fun e => elem_of_app (registered x <$> BACKEND_ROUTES) (registered_page <$> pages_order fns) e). split.
    - intros ([h' ls'] & [[Hin|Hin]|Hin] & [= -> ->]); [| |by rewrite lookup_empty in Hin]; exists ls'; (split; [done|]).
      + left. apply list_elem_of_fmap in Hin as ([[[p2 m2] h2] l2] & [= -> -> -> ->] & Hin). exists (p2, m2, h2, l2). by split_and!.
      + right. pose proof Hin as Hp. apply list_elem_of_fmap in Hp as ([p' i] & [= -> -> -> ->] & _). exists i. split_and!; try done.
        by apply (pages_keys pages_order).
    - intros (ls' & -> & [([[[p' m'] h'] l'] & Hin & -> & -> & -> & ->)|(idx & -> & -> & -> & Hf)]).
      + exists (h', l'). split; [|done]. left. left. apply list_elem_of_fmap. by exists (p', m', h', l').
      + exists (Page idx, []). split; [|done]. left. right. by apply (pages_keys pages_order). }
  split_and!.
  - intros p m h ls (ls' & -> & [(row & Hin & _ & _ & -> & ->)|(idx & _ & -> & -> & _)])%Hc; [|done].
    f_equal. pose proof backend_guards as Hb. rewrite Forall_forall in Hb. by apply Hb.
  - intros h Hh. destruct (backend_complete h) as [[idx ->]|(row & Hin & <-)]; [by destruct (Hh idx)|].
    exists (target x row.1.1.1), row.1.1.2. apply Hc. exists (guards row.1.2). split; [done|]. left. exists row. split_and!; try done.
    pose proof backend_guards as Hb. rewrite Forall_forall in Hb. symmetry. by apply Hb.
  - intros path idx Hp. apply Hc. exists []. split; [done|]. right. by exists idx.
  - apply init_endpoints_spec; [|done]. apply after_NoDup. rewrite Hx. constructor.
  - intros p. rewrite (proj2 (init_endpoints_spec _ _ ltac:(apply after_NoDup; rewrite Hx; constructor) Hg)), after_cache, Hx, Hpaths. split.
    + intros [[?%elem_of_nil|(row & Hin & ->)]|[idx Hi]]; [done| |].
      * exists row.1.1.2, (row.1.2, row.2 ++ outer env). apply Hc. exists row.2. split; [done|]. left. by exists row.
      * exists Get, (Page idx, outer env). apply Hc. exists []. split; [done|]. right. by exists idx.
    + intros (m & [h ls] & (ls' & _ & [(row & Hin & -> & _)|(idx & _ & _ & _ & Hf)])%Hc); [left; right; by exists row|right; by exists idx].
Qed.

(** Whether the program starts.  It does exactly if every path is valid, none is
    there twice for one method and no captures overlap under other names; so it starts
    if the pages cannot be loaded, and a page under a path that a handler answers for
    the same method stops it. *)
Theorem router_starts {Router} {axum : Axum Router} env pages_order g frontend :
  (forall fns, pages_order fns ≡ₚ map_to_list fns) ->
  let '(fns, x) := default (∅, exchange_default) (to_option frontend) in
  let all := all_routes x (pages_order fns) in
  (returns (create_router (Router := Router) env pages_order g frontend) <-> addable all.*1) /\
  (~ returns (create_router (Router := Router) env pages_order g frontend) -> create_router (Router := Router) env pages_order g frontend = Panic) /\
  (forall e, frontend = Err e -> returns (create_router (Router := Router) env pages_order g frontend)) /\
  (forall row idx, row ∈ BACKEND_ROUTES -> row.1.1.2 = Get -> fns !! target x row.1.1.1 = Some idx ->
     create_router (Router := Router) env pages_order g frontend = Panic).
Proof.
  intros Hperm. pose proof (create_router_spec (Router := Router) env pages_order g frontend) as H.
  destruct (default _ _) as [fns x] eqn:Ef. cbv zeta.
  assert (returns (create_router (Router := Router) env pages_order g frontend) <-> accepted ∅ (all_routes x (pages_order fns))) as Hr.
  { case_decide as Ha.
    - destruct H as (r & -> & _). split; [done|]. intros _. by eexists.
    - rewrite H. split; [by intros [? [=]]|done]. }
  assert (~ returns (create_router (Router := Router) env pages_order g frontend) -> create_router (Router := Router) env pages_order g frontend = Panic) as Hp.
  { rewrite Hr. intros Hn. by rewrite decide_False in H. }
  split_and!.
  - by rewrite Hr, accepted_empty_keys.
  - done.
  - intros e ->. injection Ef as <- <-. apply Hr. unfold all_routes.
    assert (pages_order ∅ = []) as -> by (apply Permutation_nil_r; by rewrite Hperm, map_to_list_empty).
    rewrite app_nil_r. apply backend_starts.
  - intros [[[p m] h] ls] idx Hin [= ->] Hf. cbn in Hf. apply Hp. rewrite Hr, accepted_empty_keys. unfold all_routes. rewrite fmap_app.
    intros (_ & Hd & _)%addable_NoDup%NoDup_app. apply (Hd (target x p, Get)).
    + apply list_elem_of_fmap. exists (registered x (p, Get, h, ls)). split; [done|]. apply list_elem_of_fmap. by eexists.
    + apply list_elem_of_fmap. exists (target x p, Get, (Page idx, [])). split; [done|]. by apply (pages_keys pages_order).
Qed.

(** A router that is its contents, for the examples. *)
#[local] Instance axum_map : Axum (gmap (bytes * Method) (Handler * list Layer)).
Proof.
  refine {| router_new := ∅; contents := id;
    valid_path := fun p => match p with 47 :: _ => true | _ => false end;
    overlaps := fun _ _ => false;
    route := fun p m e r =>
      match p with 47 :: _ => match r !! (p, m) with Some _ => None | None => Some (<[(p, m) := e]> r) end | _ => None end;
    route_layer := fun l r => (fun e => (e.1, e.2 ++ [l])) <$> r;
    merge := fun r1 r2 => if decide (map_Forall (fun k _ => free (fun _ _ => false) r1 k) r2) then Some (r1 ∪ r2) else None;
    layer := fun l r => (fun e => (e.1, e.2 ++ [l])) <$> r |}.
  - done.
  - intros path. unfold plain_path. by repeat case_match.
  - done.
  - intros path m e r. unfold free. cbn [id]. assert (map_Forall (fun _ _ => false = false) r) by by intros ? ? _.
    repeat case_match; naive_solver.
  - intros path m e r r'. cbn [id]. repeat case_match; try done. by intros [= <-].
  - done.
  - intros r1 r2. cbn [id]. by case_decide.
  - intros r1 r2 r. case_decide; [by intros [= <-]|done].
  - done.
  Unshelve. all: intros; unfold free; apply _.
Defined.

Definition sample_pages : gmap bytes nat := <[as_bytes "/" := 0%nat]> (<[as_bytes "/old" := 1%nat]> ∅).
Definition sample_served : Served := mkServed [SFile [] []; SEmpty 301 []] [as_bytes "/"; as_bytes "/old"].
Definition sample_exchange : ExchangeMap := mkExchange [] (<[as_bytes "/health" := as_bytes "/status"]> ∅).
Abbreviation sample_router := (create_router (fun _ => None) map_to_list sample_served (Ok (sample_pages, sample_exchange))).

Lemma sample_paths path : path ∈ paths sample_served <-> is_Some (sample_pages !! path).
Proof.
  unfold sample_pages, sample_served. cbn [paths ROUTE_REGISTRY]. rewrite !lookup_insert_is_Some, lookup_empty, !elem_of_cons. split.
  - intros [->|[->|?%elem_of_nil]]; [by left|right; split; [|by left]|done]. discriminate.
  - intros [<-|[_ [<-|[_ [? [=]]]]]]; [by left|by right; left].
Qed.

Lemma routes_guarded_witness :
  exists r endpoints, sample_router = Ret (r, endpoints) /\ as_bytes "/status" ∈ endpoints /\ as_bytes "/health" ∉ endpoints /\
    forall ls, contents r !! (as_bytes "/tokens/get", Post) = Some (HandleGetTokens, ls) ->
      ls = [AdminAuth; BodyLimit 2000000; CorsPermissive].
Proof.
  assert (match sample_router with
          | Ret (r, _) => match contents r !! (as_bytes "/status", Get), contents r !! (as_bytes "/health", Get), contents r !! (as_bytes "/health", Post) with
              | Some _, None, None => True | _, _, _ => False end
          | _ => False
          end) as Hc by (vm_compute; exact I).
  destruct sample_router as [[r endpoints]| |] eqn:E; [|destruct Hc|destruct Hc].
  exists r, endpoints. split; [reflexivity|].
  apply routes_guarded in E as (Hls & _ & _ & _ & He); [|reflexivity|reflexivity|by_decision|apply sample_paths].
  split; [|split; [|intros ls Hl; exact (Hls _ _ _ _ Hl)]].
  - apply He. exists Get. destruct (contents r !! (as_bytes "/status", Get)) as [e|]; [by exists e|done].
  - intros H. apply He in H as (m & e & H). destruct (contents r !! (as_bytes "/status", Get)); [|done].
    destruct (contents r !! (as_bytes "/health", Get)) eqn:E1; [done|]. destruct (contents r !! (as_bytes "/health", Post)) eqn:E2; [done|].
    destruct m; [by rewrite E1 in H|by rewrite E2 in H].
Defined.
Lemma router_starts_witness :
  returns (create_router (fun _ => None) map_to_list (mkServed [] []) (Err (PathNotFound (as_bytes "frontend.zip")))) /\
  create_router (fun _ => None) map_to_list sample_served (Ok (<[as_bytes "/readme" := 0%nat]> ∅, sample_exchange)) = Panic.
Proof.
  split.
  - apply (router_starts (fun _ => None) map_to_list (mkServed [] []) (Err (PathNotFound (as_bytes "frontend.zip"))) (fun _ => reflexivity _)) with (1 := eq_refl).
  - apply (router_starts (fun _ => None) map_to_list sample_served (Ok (<[as_bytes "/readme" := 0%nat]> ∅, sample_exchange)) (fun _ => reflexivity _))
      with (row := ("/readme"%string, Get, HandleReadme, [])) (idx := 0%nat); [|reflexivity|vm_compute; reflexivity].
    unfold BACKEND_ROUTES. cbn. repeat (apply elem_of_cons; first [left; reflexivity|right]).
Defined.
