(* ===== verification/Requests.v ===== *)
(** * Requests to the upstream service

    [src/src/common/client.rs]: the builders of all requests, with the buffer that
    the header values of a chat request are written into one after the other; the
    addresses of [src/src/app/lazy.rs] and [get_url] of [src/src/app/model/cpp.rs];
    and the version headers of [src/src/app/constant/header/version.rs].

    A builder is [None] after an error, as that of reqwest, which keeps the error for
    the sending; its headers are appended.  [from_bytes] is the check of a header
    value and [url_ok] the one of an address; [hyphenated] writes a UUID. *)
From S2P Require Import Prelude Strings Hex TokenInfo Profile Settings Auth.

(** ** Addresses *)

Definition CURSOR_API2_HOST : string := "api2.cursor.sh".
Definition CURSOR_HOST : string := "cursor.com".
Definition CURSOR_API4_HOST : string := "api4.cursor.sh".

Inductive Api : Type :=
| chat_url | chat_models_url | stripe_url | token_poll_url | token_refresh_url | server_config_url | dry_chat_url
| usage_api_url | user_api_url | token_upgrade_url | filtered_usage_events_url | sessions_url | is_on_new_pricing_url
| get_privacy_mode_url
| cpp_config_url | cpp_models_url
| asia_upload_file_url | asia_sync_file_url | asia_stream_cpp_url
| eu_upload_file_url | eu_sync_file_url | eu_stream_cpp_url
| us_upload_file_url | us_sync_file_url | us_stream_cpp_url.
Definition api_host (a : Api) : string :=
  match a with
  | chat_url | chat_models_url | stripe_url | token_poll_url | token_refresh_url | server_config_url | dry_chat_url => CURSOR_API2_HOST
  | usage_api_url | user_api_url | token_upgrade_url | filtered_usage_events_url | sessions_url | is_on_new_pricing_url
  | get_privacy_mode_url => CURSOR_HOST
  | cpp_config_url => CURSOR_API4_HOST
  | cpp_models_url => CURSOR_API2_HOST
  | asia_upload_file_url | asia_sync_file_url | asia_stream_cpp_url => CURSOR_GCPP_ASIA_HOST
  | eu_upload_file_url | eu_sync_file_url | eu_stream_cpp_url => CURSOR_GCPP_EU_HOST
  | us_upload_file_url | us_sync_file_url | us_stream_cpp_url => CURSOR_GCPP_US_HOST
  end.
Definition api_path (a : Api) : string :=
  match a with
  | chat_url => "/aiserver.v1.ChatService/StreamUnifiedChatWithTools"
  | chat_models_url => "/aiserver.v1.AiService/AvailableModels"
  | stripe_url => "/auth/full_stripe_profile"
  | token_poll_url => "/auth/poll"
  | token_refresh_url => "/oauth/token"
  | server_config_url => "/aiserver.v1.ServerConfigService/GetServerConfig"
  | dry_chat_url => "/aiserver.v1.ChatService/GetPromptDryRun"
  | usage_api_url => "/api/usage-summary"
  | user_api_url => "/api/dashboard/get-me"
  | token_upgrade_url => "/api/auth/loginDeepCallbackControl"
  | filtered_usage_events_url => "/api/dashboard/get-filtered-usage-events"
  | sessions_url => "/api/auth/sessions"
  | is_on_new_pricing_url => "/api/dashboard/is-on-new-pricing"
  | get_privacy_mode_url => "/api/dashboard/get-user-privacy-mode"
  | cpp_config_url => "/aiserver.v1.AiService/CppConfig"
  | cpp_models_url => "/aiserver.v1.CppService/AvailableModels"
  | asia_upload_file_url | eu_upload_file_url | us_upload_file_url => "/aiserver.v1.FileSyncService/FSUploadFile"
  | asia_sync_file_url | eu_sync_file_url | us_sync_file_url => "/aiserver.v1.FileSyncService/FSSyncFile"
  | asia_stream_cpp_url | eu_stream_cpp_url | us_stream_cpp_url => "/aiserver.v1.AiService/StreamCpp"
  end%string.

Inductive CppService : Type := FSUploadFile | FSSyncFile | StreamCpp.
Definition get_url (h : GcppHost) (i : CppService) : Api :=
  match h, i with
  | Asia, FSUploadFile => asia_upload_file_url | Asia, FSSyncFile => asia_sync_file_url | Asia, StreamCpp => asia_stream_cpp_url
  | EU, FSUploadFile => eu_upload_file_url | EU, FSSyncFile => eu_sync_file_url | EU, StreamCpp => eu_stream_cpp_url
  | US, FSUploadFile => us_upload_file_url | US, FSSyncFile => us_sync_file_url | US, StreamCpp => us_stream_cpp_url
  end.

(** The hosts of the reverse proxies; an empty one is not used. *)
Record ReverseProxies : Type := mkReverse { PRI_REVERSE_PROXY_HOST : bytes; PUB_REVERSE_PROXY_HOST : bytes }.
Definition reverse_proxies (env : Settings.Env) : ReverseProxies :=
  mkReverse (parse_str_from_env env "PRI_REVERSE_PROXY_HOST" []) (parse_str_from_env env "PUB_REVERSE_PROXY_HOST" []).
Definition USE_PRI_REVERSE_PROXY (p : ReverseProxies) : bool := negb (bool_decide (PRI_REVERSE_PROXY_HOST p = [])).
Definition USE_PUB_REVERSE_PROXY (p : ReverseProxies) : bool := negb (bool_decide (PUB_REVERSE_PROXY_HOST p = [])).

(** [init_all_cursor_urls] and the getters. *)
Definition init_url (p : ReverseProxies) (a : Api) : bytes * bytes :=
  let with_host host := as_bytes HTTPS_PREFIX ++ host ++ as_bytes (api_path a) in
  (with_host (if USE_PRI_REVERSE_PROXY p then PRI_REVERSE_PROXY_HOST p else as_bytes (api_host a)),
   with_host (if USE_PUB_REVERSE_PROXY p then PUB_REVERSE_PROXY_HOST p else as_bytes (api_host a))).
Definition api_url (p : ReverseProxies) (a : Api) (use_pri : bool) : bytes :=
  if use_pri then (init_url p a).1 else (init_url p a).2.

(** ** Limits of the client *)

Definition at_most_600 (v : Z) : Z := Z.min v 600.
Definition TCP_KEEPALIVE (env : Settings.Env) : Z := at_most_600 (parse_num_from_env 64 env "TCP_KEEPALIVE" 90).
Definition SERVICE_TIMEOUT (env : Settings.Env) : Z := at_most_600 (parse_num_from_env 64 env "SERVICE_TIMEOUT" 30).

(** ** Header values *)

Definition UA : string :=
  "Mozilla/5.0 (Macintosh; Intel Mac OS X 10_15_7) AppleWebKit/537.36 (KHTML, like Gecko) Chrome/137.0.0.0 Safari/537.36".
Definition DEFAULT_CLIENT_VERSION : string := "1.0.0".
Definition CHROME_VERSION_INFO : string := " Chrome/132.0.6834.210 Electron/34.3.4 Safari/537.36".
Definition UA_PREFIX_UNIX : string :=
  "Mozilla/5.0 (Macintosh; Intel Mac OS X 10_15_7) AppleWebKit/537.36 (KHTML, like Gecko) Cursor/".
Definition DEFAULT_UA_UNIX : string :=
  "Mozilla/5.0 (Macintosh; Intel Mac OS X 10_15_7) AppleWebKit/537.36 (KHTML, like Gecko) Cursor/1.0.0 Chrome/132.0.6834.210 Electron/34.3.4 Safari/537.36".

Record VersionHeaders : Type := mkVersionHeaders { CLIENT_VERSION : bytes; HEADER_VALUE_UA_CURSOR_LATEST : bytes }.
(** [HeaderValue::from_str] takes visible characters only. *)
Definition initialize_cursor_version (env : Settings.Env) : VersionHeaders :=
  let version := parse_str_from_env env "CURSOR_CLIENT_VERSION" (as_bytes DEFAULT_CLIENT_VERSION) in
  let version_header := default (as_bytes DEFAULT_CLIENT_VERSION) (header_to_str version) in
  let ua_string := as_bytes UA_PREFIX_UNIX ++ version ++ as_bytes CHROME_VERSION_INFO in
  let ua_header := default (as_bytes DEFAULT_UA_UNIX) (header_to_str ua_string) in
  mkVersionHeaders version_header ua_header.

(** ** Builders *)

Inductive Verb : Type := GET | POST.
Inductive HttpVersion : Type := HTTP_11 | HTTP_2.
Record Request : Type := mkRequest
  { q_method : Verb; q_url : bytes; q_version : option HttpVersion; q_headers : list (string * bytes);
    q_query : list (string * bytes); q_body : option bytes }.
Abbreviation Builder := (option Request) (only parsing).

Definition with_header (q : Request) (h : string * bytes) : Request :=
  mkRequest (q_method q) (q_url q) (q_version q) (q_headers q ++ [h]) (q_query q) (q_body q).
(** [header] with a header value, and with a text that is checked. *)
Definition header (k : string) (v : bytes) (b : Builder) : Builder := (fun q => with_header q (k, v)) <$> b.
Definition header_str (k : string) (v : bytes) (b : Builder) : Builder := q ← b; v ← header_to_str v; Some (with_header q (k, v)).
Definition const (k v : string) (b : Builder) : Builder := header k (as_bytes v) b.
Definition opt_header (k : string) (v : option bytes) (b : Builder) : Builder :=
  match v with Some v => header k v b | None => b end.
Definition header_if (k v : string) (condition : bool) (b : Builder) : Builder := if condition then const k v b else b.
Definition version (v : HttpVersion) (b : Builder) : Builder :=
  (fun q => mkRequest (q_method q) (q_url q) (Some v) (q_headers q) (q_query q) (q_body q)) <$> b.
Definition query (l : list (string * bytes)) (b : Builder) : Builder :=
  (fun q => mkRequest (q_method q) (q_url q) (q_version q) (q_headers q) (q_query q ++ l) (q_body q)) <$> b.
Definition body (data : bytes) (b : Builder) : Builder :=
  (fun q => mkRequest (q_method q) (q_url q) (q_version q) (q_headers q) (q_query q) (Some data)) <$> b.

(** Writing into a buffer, as [copy_nonoverlapping]. *)
Definition write_at (off : nat) (data buf : bytes) : bytes := take off buf ++ data ++ drop (off + length data) buf.

Record AiServiceRequest : Type := mkAiRequest
  { r_ext_token : ExtToken; r_fs_client_key : option bytes; r_url : bytes; r_stream : bool; r_compressed : bool;
    r_trace_id : bytes; r_use_pri : bool; r_cookie : option bytes }.

Section builders.
Context (p : ReverseProxies) (v : VersionHeaders) (url_ok : bytes -> bool) (from_bytes : bytes -> option bytes).
Context (hyphenated : Z -> bytes) (GENERAL_TIMEZONE : string) (timestamp : Z).

Definition client_request (m : Verb) (url : bytes) : Builder :=
  if url_ok url then Some (mkRequest m url None [] [] None) else None.
Definition get_client_and_host (m : Verb) (url : bytes) (use_pri : bool) (real_host : string) : Builder * bytes :=
  if use_pri && USE_PRI_REVERSE_PROXY p then (header_str "x-co" (as_bytes real_host) (client_request m url), PRI_REVERSE_PROXY_HOST p)
  else if negb use_pri && USE_PUB_REVERSE_PROXY p then
    (header_str "x-co" (as_bytes real_host) (client_request m url), PUB_REVERSE_PROXY_HOST p)
  else (client_request m url, as_bytes real_host).

Definition build_client_request (r : AiServiceRequest) : outcome Builder :=
  let e := r_ext_token r in
  let '(b, host) := get_client_and_host POST (r_url r) (r_use_pri r) CURSOR_API2_HOST in
  let buf := replicate 137 0 in
  let b := header_str "host" host (version HTTP_2 b) in
  let b := header_if "accept-encoding" "gzip" (negb (r_stream r)) b in
  let b := header_if "content-encoding" "gzip" (negb (r_stream r) && r_compressed r) b in
  let b := header "authorization" (format_bearer_token (store_unext e)) b in
  let b := header_if "connect-accept-encoding" "gzip" (r_stream r) b in
  let b := header_if "connect-content-encoding" "gzip" (r_stream r) b in
  let b := const "connect-protocol-version" "1" b in
  let b := const "content-type" (if r_stream r then "application/connect+proto" else "application/proto") b in
  let b := header "cookie" (default [] (r_cookie r)) b in
  let b := const "user-agent" "connect-es/1.6.1" b in
  let buf := write_at 5 (r_trace_id r) (write_at 0 (as_bytes "Root=") buf) in
  trace ← unchecked (from_bytes (take 41 buf));
  let b := header "x-amzn-trace-id" trace b in
  let buf := hash_to_str (client_key e) 0 0 buf in
  key ← unchecked (from_bytes (take 64 buf));
  let b := header "x-client-key" key b in
  let buf := checksum_to_str timestamp (checksum e) buf in
  sum ← unchecked (from_bytes buf);
  let b := header "x-cursor-checksum" sum b in
  let b := header "x-cursor-client-version" (CLIENT_VERSION v) b in
  '(b, buf) ← match config_version e with
              | None => Ret (b, buf)
              | Some u =>
                  let buf := write_at 0 (hyphenated u) buf in
                  t ← unchecked (from_bytes (take 36 buf)); Ret (header "x-cursor-config-version" t b, buf)
              end;
  let b := const "x-cursor-streaming" "true" b in
  let b := header_str "x-cursor-timezone" (as_bytes (get_timezone GENERAL_TIMEZONE e)) b in
  let b := opt_header "x-fs-client-key" (r_fs_client_key r) b in
  let b := const "x-ghost-mode" "true" b in
  let b := const "x-new-onboarding-completed" "false" b in
  request_id ← unchecked (from_bytes (r_trace_id r));
  let b := header "x-request-id" request_id b in
  let buf := write_at 0 (hyphenated (session_id e)) buf in
  session ← unchecked (from_bytes (take 36 buf));
  Ret (header "x-session-id" session b).

Definition build_stripe_request (bearer_token : bytes) (use_pri : bool) : Builder :=
  let '(b, host) := get_client_and_host GET (api_url p stripe_url use_pri) use_pri CURSOR_API2_HOST in
  let b := header_str "host" host (version HTTP_2 b) in
  let b := const "accept-language" "en-US" b in
  let b := const "accept-encoding" "gzip, deflate" b in
  let b := header "authorization" bearer_token b in
  let b := const "x-ghost-mode" "true" b in
  let b := const "x-new-onboarding-completed" "false" b in
  let b := header "user-agent" (HEADER_VALUE_UA_CURSOR_LATEST v) b in
  let b := const "accept" "*/*" b in
  const "origin" "vscode-file://vscode-app" b.

Definition build_usage_request (cookie : bytes) (use_pri : bool) : Builder :=
  let '(b, host) := get_client_and_host GET (api_url p usage_api_url use_pri) use_pri CURSOR_HOST in
  let b := header_str "host" host b in
  let b := const "user-agent" UA b in
  let b := const "accept" "*/*" b in
  let b := const "accept-language" "en-US" b in
  let b := const "accept-encoding" "gzip, deflate" b in
  let b := const "referer" "https://cursor.com/dashboard" b in
  let b := const "dnt" "1" b in
  let b := const "sec-gpc" "1" b in
  let b := const "connection" "keep-alive" b in
  let b := header "cookie" cookie b in
  let b := const "sec-fetch-dest" "empty" b in
  let b := const "sec-fetch-mode" "cors" b in
  let b := const "sec-fetch-site" "same-origin" b in
  let b := const "priority" "u=0" b in
  let b := const "pragma" "no-cache" b in
  const "cache-control" "no-cache" b.

(** The body and the referer of an upgrade; a quote is byte 34. *)
Definition upgrade_body (uuid challenge : bytes) : bytes :=
  let q := [34] in
  as_bytes "{" ++ q ++ as_bytes "uuid" ++ q ++ as_bytes ":" ++ q ++ uuid ++
  q ++ as_bytes "," ++ q ++ as_bytes "challenge" ++ q ++ as_bytes ":" ++ q ++ challenge ++ q ++ as_bytes "}".
Definition upgrade_referer (uuid challenge : bytes) : bytes :=
  as_bytes "https://cursor.com/loginDeepControl?challenge=" ++ challenge ++ as_bytes "&uuid=" ++ uuid ++ as_bytes "&mode=login".
Definition build_token_upgrade_request (uuid challenge cookie : bytes) (use_pri : bool) : Builder :=
  let '(b, host) := get_client_and_host POST (api_url p token_upgrade_url use_pri) use_pri CURSOR_HOST in
  let data := upgrade_body uuid challenge in
  let b := header_str "host" host b in
  let b := const "user-agent" UA b in
  let b := const "accept" "*/*" b in
  let b := const "accept-language" "en-US" b in
  let b := const "accept-encoding" "gzip, deflate" b in
  let b := header_str "referer" (upgrade_referer uuid challenge) b in
  let b := const "content-type" "application/json" b in
  let b := header "content-length" (as_bytes (to_dec (zlen data))) b in
  let b := const "dnt" "1" b in
  let b := const "sec-gpc" "1" b in
  let b := const "connection" "keep-alive" b in
  let b := header "cookie" cookie b in
  let b := const "sec-fetch-dest" "empty" b in
  let b := const "sec-fetch-mode" "cors" b in
  let b := const "sec-fetch-site" "same-origin" b in
  let b := const "pragma" "no-cache" b in
  let b := const "cache-control" "no-cache" b in
  let b := const "te" "trailers" b in
  let b := const "priority" "u=0" b in
  body data b.

Definition build_token_poll_request (uuid verifier : bytes) (use_pri : bool) : Builder :=
  let '(b, host) := get_client_and_host GET (api_url p token_poll_url use_pri) use_pri CURSOR_API2_HOST in
  let b := header_str "host" host (version HTTP_11 b) in
  let b := const "accept-encoding" "gzip, deflate" b in
  let b := const "accept-language" "en-US" b in
  let b := header "user-agent" (HEADER_VALUE_UA_CURSOR_LATEST v) b in
  let b := const "origin" "vscode-file://vscode-app" b in
  let b := const "x-ghost-mode" "true" b in
  let b := const "accept" "*/*" b in
  query [("uuid"%string, uuid); ("verifier"%string, verifier)] b.

Definition build_token_refresh_request (use_pri : bool) (data : bytes) : Builder :=
  let '(b, host) := get_client_and_host POST (api_url p token_refresh_url use_pri) use_pri CURSOR_API2_HOST in
  let b := header_str "host" host b in
  let b := const "accept-encoding" "gzip, deflate" b in
  let b := const "accept-language" "en-US" b in
  let b := const "content-type" "application/json" b in
  let b := header "content-length" (as_bytes (to_dec (zlen data))) b in
  let b := header "user-agent" (HEADER_VALUE_UA_CURSOR_LATEST v) b in
  let b := const "origin" "vscode-file://vscode-app" b in
  let b := const "x-ghost-mode" "true" b in
  let b := const "accept" "*/*" b in
  body data b.

Definition build_proto_web_request (cookie url : bytes) (use_pri : bool) (data : bytes) : Builder :=
  let '(b, host) := get_client_and_host POST url use_pri CURSOR_HOST in
  let b := header_str "host" host b in
  let b := const "user-agent" UA b in
  let b := const "accept" "*/*" b in
  let b := const "accept-language" "en-US" b in
  let b := const "accept-encoding" "gzip, deflate" b in
  let b := const "referer" "https://cursor.com/dashboard" b in
  let b := const "content-type" "application/json" b in
  let b := header "content-length" (as_bytes (to_dec (zlen data))) b in
  let b := const "origin" "https://cursor.com" b in
  let b := const "dnt" "1" b in
  let b := const "sec-gpc" "1" b in
  let b := const "connection" "keep-alive" b in
  let b := header "cookie" cookie b in
  let b := const "sec-fetch-dest" "empty" b in
  let b := const "sec-fetch-mode" "cors" b in
  let b := const "sec-fetch-site" "same-origin" b in
  let b := const "priority" "u=0" b in
  let b := const "pragma" "no-cache" b in
  let b := const "cache-control" "no-cache" b in
  let b := const "te" "trailers" b in
  body data b.

Definition build_sessions_request (cookie : bytes) (use_pri : bool) : Builder :=
  let '(b, host) := get_client_and_host GET (api_url p sessions_url use_pri) use_pri CURSOR_HOST in
  let b := header_str "host" host b in
  let b := const "user-agent" UA b in
  let b := const "accept" "*/*" b in
  let b := const "accept-language" "en-US" b in
  let b := const "accept-encoding" "gzip, deflate" b in
  let b := const "referer" "https://cursor.com/dashboard" b in
  let b := const "dnt" "1" b in
  let b := const "sec-gpc" "1" b in
  let b := const "connection" "keep-alive" b in
  let b := header "cookie" cookie b in
  let b := const "sec-fetch-dest" "empty" b in
  let b := const "sec-fetch-mode" "cors" b in
  let b := const "sec-fetch-site" "same-origin" b in
  let b := const "pragma" "no-cache" b in
  let b := const "cache-control" "no-cache" b in
  let b := const "te" "trailers" b in
  const "priority" "u=0" b.
End builders.

(** ** Lemmas *)

Lemma write_at_length off data buf : (off + length data <= length buf)%nat -> length (write_at off data buf) = length buf.
Proof. intros H. unfold write_at. rewrite !length_app, length_take, length_drop. lia. Qed.
Lemma write_at_take off data buf : (off <= length buf)%nat -> take (off + length data) (write_at off data buf) = take off buf ++ data.
Proof.
  intros H. unfold write_at. rewrite app_assoc. apply take_app_length'. rewrite length_app, length_take. lia.
Qed.

Lemma visible_app s t : forallb visible (s ++ t) = forallb visible s && forallb visible t.
Proof. apply forallb_app. Qed.
Lemma visible_weaken (f : Z -> bool) s : (forall b, f b = true -> visible b = true) -> Forall (fun b => f b = true) s -> forallb visible s = true.
Proof. intros H Hs. apply forallb_Forall. eapply Forall_impl; [exact Hs|]. cbn. exact H. Qed.
Lemma alphanumeric_visible b : is_ascii_alphanumeric b = true -> visible b = true.
Proof.
  unfold is_ascii_alphanumeric, is_ascii_alphabetic, is_ascii_lower, is_ascii_upper, is_ascii_digit, visible.
  rewrite !orb_true_iff, !andb_true_iff, !Z.leb_le, Z.ltb_lt, Z.eqb_eq. lia.
Qed.
Lemma hex_visible h : is_bytes h -> forallb visible (hex_of h) = true.
Proof. intros H. apply (visible_weaken is_ascii_hexdigit); [|by apply hex_of_digits]. intros b Hb. by apply alphanumeric_visible, hexdigit_alphanumeric. Qed.
Lemma timestamp_visible ks h : forallb visible (timestamp_read (update_global_with ks h)) = true.
Proof.
  rewrite timestamp_read_new. destruct (rfc4648_chars (obfuscate_bytes (timestamp_bytes ks) 0 165)) as (_ & Hv & _).
  revert Hv. generalize (rfc4648_url_6 (obfuscate_bytes (timestamp_bytes ks) 0 165)). intros l Hv.
  unfold is_valid_timestamp in Hv. apply forallb_Forall in Hv. apply (visible_weaken _ _ (fun b H => H)).
  eapply Forall_impl; [exact Hv|]. cbn. intros b Hb. apply orb_true_iff in Hb as [Hb|Hb]; [apply orb_true_iff in Hb as [Hb|Hb]|].
  - by apply alphanumeric_visible.
  - apply Z.eqb_eq in Hb as ->. reflexivity.
  - apply Z.eqb_eq in Hb as ->. reflexivity.
Qed.
Lemma header_to_str_visible s : forallb visible s = true -> header_to_str s = Some s.
Proof. unfold header_to_str. by intros ->. Qed.
Lemma ascii_visible (s : string) : forallb visible (as_bytes s) = true -> header_to_str (as_bytes s) = Some (as_bytes s).
Proof. apply header_to_str_visible. Qed.

(** The host that a request goes to, and the header that tells a reverse proxy where
    it belongs. *)
Definition proxied (p : ReverseProxies) (use_pri : bool) : bool := if use_pri then USE_PRI_REVERSE_PROXY p else USE_PUB_REVERSE_PROXY p.
Definition host_used (p : ReverseProxies) (use_pri : bool) (real_host : string) : bytes :=
  if proxied p use_pri then if use_pri then PRI_REVERSE_PROXY_HOST p else PUB_REVERSE_PROXY_HOST p else as_bytes real_host.
Definition proxy_header (p : ReverseProxies) (use_pri : bool) (real_host : string) : list (string * bytes) :=
  if proxied p use_pri then [("x-co"%string, as_bytes real_host)] else [].
Lemma client_and_host_spec p url_ok m url use_pri real_host : url_ok url = true -> forallb visible (as_bytes real_host) = true ->
  get_client_and_host p url_ok m url use_pri real_host =
    (Some (mkRequest m url None (proxy_header p use_pri real_host) [] None), host_used p use_pri real_host).
Proof.
  intros Hu Hv. unfold get_client_and_host, client_request, host_used, proxy_header, proxied. rewrite Hu.
  destruct use_pri; cbn [andb negb]; [destruct (USE_PRI_REVERSE_PROXY p)|destruct (USE_PUB_REVERSE_PROXY p)]; try done;
    unfold header_str; cbn [mbind option_bind]; by rewrite header_to_str_visible.
Qed.
Lemma api_url_host p a use_pri : api_url p a use_pri = as_bytes HTTPS_PREFIX ++ host_used p use_pri (api_host a) ++ as_bytes (api_path a).
Proof.
  unfold api_url, init_url, host_used, proxied. destruct use_pri; cbn [fst snd].
  - by destruct (USE_PRI_REVERSE_PROXY p).
  - by destruct (USE_PUB_REVERSE_PROXY p).
Qed.

Definition field (k : string) (x : bytes) : string * bytes := (k, x).
Definition when (b : bool) (k x : string) : list (string * bytes) := if b then [field k (as_bytes x)] else [].
(** The headers of a request for the chat service, each with the value it is for. *)
Definition chat_headers (p : ReverseProxies) (v : VersionHeaders) (hyphenated : Z -> bytes) (GENERAL_TIMEZONE : string) (timestamp : bytes)
    (r : AiServiceRequest) : list (string * bytes) :=
  let e := r_ext_token r in
  proxy_header p (r_use_pri r) CURSOR_API2_HOST ++ [field "host" (host_used p (r_use_pri r) CURSOR_API2_HOST)] ++
  when (negb (r_stream r)) "accept-encoding" "gzip" ++ when (negb (r_stream r) && r_compressed r) "content-encoding" "gzip" ++
  [field "authorization" (as_bytes "Bearer " ++ as_bytes (str (primary_token e)))] ++
  when (r_stream r) "connect-accept-encoding" "gzip" ++ when (r_stream r) "connect-content-encoding" "gzip" ++
  [field "connect-protocol-version" (as_bytes "1");
   field "content-type" (as_bytes (if r_stream r then "application/connect+proto" else "application/proto"));
   field "cookie" (default [] (r_cookie r)); field "user-agent" (as_bytes "connect-es/1.6.1");
   field "x-amzn-trace-id" (as_bytes "Root=" ++ r_trace_id r); field "x-client-key" (hex_of (client_key e));
   field "x-cursor-checksum" (timestamp ++ hex_of (first (checksum e)) ++ 47 :: hex_of (second (checksum e)));
   field "x-cursor-client-version" (CLIENT_VERSION v)] ++
  match config_version e with Some u => [field "x-cursor-config-version" (hyphenated u)] | None => [] end ++
  [field "x-cursor-streaming" (as_bytes "true"); field "x-cursor-timezone" (as_bytes (get_timezone GENERAL_TIMEZONE e))] ++
  match r_fs_client_key r with Some k => [field "x-fs-client-key" (k)] | None => [] end ++
  [field "x-ghost-mode" (as_bytes "true"); field "x-new-onboarding-completed" (as_bytes "false"); field "x-request-id" (r_trace_id r);
   field "x-session-id" (hyphenated (session_id e))].

(** What each step of a builder appends. *)
Lemma header_mk k x m u ver hs q d : header k x (Some (mkRequest m u ver hs q d)) = Some (mkRequest m u ver (hs ++ [field k x]) q d).
Proof. done. Qed.
Lemma const_mk k x m u ver hs q d : const k x (Some (mkRequest m u ver hs q d)) = Some (mkRequest m u ver (hs ++ [field k (as_bytes x)]) q d).
Proof. done. Qed.
Lemma header_str_mk k x m u ver hs q d : forallb visible x = true ->
  header_str k x (Some (mkRequest m u ver hs q d)) = Some (mkRequest m u ver (hs ++ [field k x]) q d).
Proof. intros H. unfold header_str. cbn [mbind option_bind]. by rewrite header_to_str_visible. Qed.
Lemma header_if_mk k x c m u ver hs q d :
  header_if k x c (Some (mkRequest m u ver hs q d)) = Some (mkRequest m u ver (hs ++ when c k x) q d).
Proof. destruct c; [done|]. cbn. by rewrite app_nil_r. Qed.
Lemma opt_header_mk k x m u ver hs q d :
  opt_header k x (Some (mkRequest m u ver hs q d)) = Some (mkRequest m u ver (hs ++ match x with Some x => [field k x] | None => [] end) q d).
Proof. destruct x; [done|]. cbn. by rewrite app_nil_r. Qed.
Lemma version_mk x m u ver hs q d : version x (Some (mkRequest m u ver hs q d)) = Some (mkRequest m u (Some x) hs q d).
Proof. done. Qed.
Lemma query_mk x m u ver hs q d : query x (Some (mkRequest m u ver hs q d)) = Some (mkRequest m u ver hs (q ++ x) d).
Proof. done. Qed.
Lemma body_mk x m u ver hs q d : body x (Some (mkRequest m u ver hs q d)) = Some (mkRequest m u ver hs q (Some x)).
Proof. done. Qed.
Ltac build :=
  repeat first [ rewrite header_mk | rewrite const_mk | rewrite header_if_mk | rewrite opt_header_mk | rewrite version_mk
               | rewrite query_mk | rewrite body_mk | rewrite header_str_mk by assumption ].

Section chat.
Context (p : ReverseProxies) (v : VersionHeaders) (url_ok : bytes -> bool) (from_bytes : bytes -> option bytes).
Context (hyphenated : Z -> bytes) (GENERAL_TIMEZONE : string) (ks h : Z) (r : AiServiceRequest).
Context (from_visible : forall s, forallb visible s = true -> from_bytes s = Some s).
Context (hyphenated_text : forall u, length (hyphenated u) = 36%nat /\ forallb visible (hyphenated u) = true).
Context (trace_text : length (r_trace_id r) = 36%nat /\ forallb visible (r_trace_id r) = true).
Context (key_wf : hash_wf (client_key (r_ext_token r))) (sum_wf : checksum_wf (checksum (r_ext_token r))).

Abbreviation timestamp := (update_global_with ks h).
(** The values that are written into the buffer. *)
Definition buffered : list bytes :=
  let e := r_ext_token r in
  [as_bytes "Root=" ++ r_trace_id r; hex_of (client_key e);
   timestamp_read timestamp ++ hex_of (first (checksum e)) ++ 47 :: hex_of (second (checksum e))].
Lemma buffered_visible : Forall (fun s => forallb visible s = true) buffered.
Proof using trace_text key_wf sum_wf.
  unfold buffered. destruct key_wf as [Hk _], sum_wf as [[H1 _] [H2 _]]. rewrite !Forall_cons. split_and!; [| | |constructor].
  - rewrite visible_app. by rewrite (proj2 trace_text).
  - by apply hex_visible.
  - rewrite visible_app, timestamp_visible, visible_app, hex_visible by done. cbn. by rewrite hex_visible.
Qed.
Lemma length_checksum_text : length (timestamp_read timestamp ++ hex_of (first (checksum (r_ext_token r))) ++ 47 :: hex_of (second (checksum (r_ext_token r)))) = 137%nat.
Proof using sum_wf.
  destruct sum_wf as [H1 H2]. rewrite !length_app, timestamp_read_length. cbn [length]. by rewrite !length_hex_hash.
Qed.

(** The builder with its buffer gone: what is appended in which order. *)
Definition unbuffered : Builder :=
  let e := r_ext_token r in
  let '(b, host) := get_client_and_host p url_ok POST (r_url r) (r_use_pri r) CURSOR_API2_HOST in
  let b := header_str "host" host (version HTTP_2 b) in
  let b := header_if "accept-encoding" "gzip" (negb (r_stream r)) b in
  let b := header_if "content-encoding" "gzip" (negb (r_stream r) && r_compressed r) b in
  let b := header "authorization" (format_bearer_token (store_unext e)) b in
  let b := header_if "connect-accept-encoding" "gzip" (r_stream r) b in
  let b := header_if "connect-content-encoding" "gzip" (r_stream r) b in
  let b := const "connect-protocol-version" "1" b in
  let b := const "content-type" (if r_stream r then "application/connect+proto" else "application/proto") b in
  let b := header "cookie" (default [] (r_cookie r)) b in
  let b := const "user-agent" "connect-es/1.6.1" b in
  let b := header "x-amzn-trace-id" (as_bytes "Root=" ++ r_trace_id r) b in
  let b := header "x-client-key" (hex_of (client_key e)) b in
  let b := header "x-cursor-checksum" (timestamp_read timestamp ++ hex_of (first (checksum e)) ++ 47 :: hex_of (second (checksum e))) b in
  let b := header "x-cursor-client-version" (CLIENT_VERSION v) b in
  let b := opt_header "x-cursor-config-version" (hyphenated <$> config_version e) b in
  let b := const "x-cursor-streaming" "true" b in
  let b := header_str "x-cursor-timezone" (as_bytes (get_timezone GENERAL_TIMEZONE e)) b in
  let b := opt_header "x-fs-client-key" (r_fs_client_key r) b in
  let b := const "x-ghost-mode" "true" b in
  let b := const "x-new-onboarding-completed" "false" b in
  let b := header "x-request-id" (r_trace_id r) b in
  header "x-session-id" (hyphenated (session_id e)) b.

Lemma build_unbuffered : build_client_request p v url_ok from_bytes hyphenated GENERAL_TIMEZONE timestamp r = Ret unbuffered.
Proof using from_visible hyphenated_text trace_text key_wf sum_wf.
  unfold build_client_request, unbuffered. destruct (get_client_and_host _ _ _ _ _ _) as [b host]. cbv zeta.
  destruct trace_text as [Lt Vt]. pose proof buffered_visible as Hv. unfold buffered in Hv. rewrite !Forall_cons in Hv. destruct Hv as (V1 & V2 & V3 & _).
  set (buf := write_at 0 (as_bytes "Root=") (replicate 137 0)).
  assert (length buf = 137%nat) as Lb by reflexivity.
  assert (take 41 (write_at 5 (r_trace_id r) buf) = as_bytes "Root=" ++ r_trace_id r) as ->.
  { replace 41%nat with (5 + length (r_trace_id r))%nat by lia. rewrite write_at_take by lia. reflexivity. }
  assert (length (write_at 5 (r_trace_id r) buf) = 137%nat) as Lb2 by (rewrite write_at_length; lia).
  rewrite (from_visible _ V1). cbn [unchecked mbind outcome_bind].
  set (buf2 := write_at 5 (r_trace_id r) buf) in *. clearbody buf2. clear buf Lb.
  assert (length (hash_to_str (client_key (r_ext_token r)) 0 0 buf2) = 137%nat) as Lb3 by by rewrite length_hash_to_str.
  assert (take 64 (hash_to_str (client_key (r_ext_token r)) 0 0 buf2) = hex_of (client_key (r_ext_token r))) as ->.
  { destruct key_wf as [Hk Lk]. rewrite hash_to_str_spec by (rewrite Lk; lia).
    change (take (0 + 2 * 0) buf2) with (@nil Z). rewrite app_nil_l. apply take_app_length'. by rewrite length_hex_hash. }
  rewrite (from_visible _ V2). cbn [unchecked mbind outcome_bind].
  rewrite checksum_to_str_spec by done. rewrite (from_visible _ V3). cbn [unchecked mbind outcome_bind].
  pose proof length_checksum_text as L3. set (buf3 := timestamp_read timestamp ++ _) in *. clearbody buf3.
  assert (forall u buf, length buf = 137%nat -> from_bytes (take 36 (write_at 0 (hyphenated u) buf)) = Some (hyphenated u)) as Hu.
  { intros u buf Lb. destruct (hyphenated_text u) as [Lh Vh]. pose proof (write_at_take 0 (hyphenated u) buf ltac:(lia)) as E.
    rewrite Nat.add_0_l, Lh in E. rewrite E. cbn [take app]. by apply from_visible. }
  assert (forall u buf, length buf = 137%nat -> length (write_at 0 (hyphenated u) buf) = 137%nat) as Lu.
  { intros u buf Lb. destruct (hyphenated_text u) as [Lh _]. rewrite write_at_length; lia. }
  destruct (config_version (r_ext_token r)) as [u|]; cbn [mbind outcome_bind fmap option_fmap option_map opt_header].
  - rewrite (Hu u buf3 L3). cbn [unchecked mbind outcome_bind]. rewrite (from_visible _ Vt). cbn [unchecked mbind outcome_bind].
    rewrite (Hu _ _ (Lu u buf3 L3)). reflexivity.
  - rewrite (from_visible _ Vt). cbn [unchecked mbind outcome_bind]. rewrite (Hu _ _ L3). reflexivity.
Qed.
Lemma unbuffered_spec : url_ok (r_url r) = true -> forallb visible (host_used p (r_use_pri r) CURSOR_API2_HOST) = true ->
  forallb visible (as_bytes (get_timezone GENERAL_TIMEZONE (r_ext_token r))) = true ->
  unbuffered = Some (mkRequest POST (r_url r) (Some HTTP_2) (chat_headers p v hyphenated GENERAL_TIMEZONE (timestamp_read timestamp) r) [] None).
Proof.
  intros Hu Hh Hz. unfold unbuffered. rewrite (client_and_host_spec p url_ok POST _ _ CURSOR_API2_HOST Hu) by reflexivity.
  build. unfold chat_headers. cbv zeta.
  rewrite <- !app_assoc. destruct (config_version (r_ext_token r)), (r_fs_client_key r); reflexivity.
Qed.
End chat.

(** C36: a request for the chat service.  Whatever the earlier contents of the shared
    buffer are, no header holds bytes of another: building is within defined
    behaviour, and the request has exactly the headers of [chat_headers], if the
    address, the host and the name of the time zone can be sent. *)
Theorem client_request_built p v url_ok from_bytes hyphenated GENERAL_TIMEZONE ks h r :
  (forall s, forallb visible s = true -> from_bytes s = Some s) ->
  (forall u, length (hyphenated u) = 36%nat /\ forallb visible (hyphenated u) = true) ->
  length (r_trace_id r) = 36%nat /\ forallb visible (r_trace_id r) = true ->
  hash_wf (client_key (r_ext_token r)) -> checksum_wf (checksum (r_ext_token r)) ->
  exists b, build_client_request p v url_ok from_bytes hyphenated GENERAL_TIMEZONE (update_global_with ks h) r = Ret b /\
    (url_ok (r_url r) = true -> forallb visible (host_used p (r_use_pri r) CURSOR_API2_HOST) = true ->
     forallb visible (as_bytes (get_timezone GENERAL_TIMEZONE (r_ext_token r))) = true ->
     b = Some (mkRequest POST (r_url r) (Some HTTP_2)
           (chat_headers p v hyphenated GENERAL_TIMEZONE (timestamp_read (update_global_with ks h)) r) [] None)).
Proof.
  intros Hf Hh Ht Hk Hs. exists (unbuffered p v url_ok hyphenated GENERAL_TIMEZONE ks h r). split; [by apply build_unbuffered|].
  by apply unbuffered_spec.
Qed.

Definition no_proxies : ReverseProxies := mkReverse [] [].
Definition sample_versions : VersionHeaders := initialize_cursor_version (fun _ => None).
Definition sample_uuid : bytes := as_bytes "00000000-0000-0000-0000-000000000000".
Definition sample_request : AiServiceRequest :=
  mkAiRequest (bundle (sample 1)) None (api_url no_proxies chat_url true) true true sample_uuid true None.
Lemma client_request_built_witness : exists q,
  build_client_request no_proxies sample_versions (fun _ => true) header_to_str (fun _ => sample_uuid) "UTC" (update_global_with 5 0) sample_request
    = Ret (Some q) /\ List.In ("x-amzn-trace-id"%string, as_bytes "Root=00000000-0000-0000-0000-000000000000") (q_headers q).
Proof.
  destruct (client_request_built no_proxies sample_versions (fun _ => true) header_to_str (fun _ => sample_uuid) "UTC" 5 0 sample_request)
    as (b & E & H).
  - exact header_to_str_visible.
  - intros _. split; vm_compute; reflexivity.
  - split; vm_compute; reflexivity.
  - split; [by_decision|reflexivity].
  - split; (split; [by_decision|reflexivity]).
  - eexists. split; [rewrite E, H by (vm_compute; reflexivity); reflexivity|]. vm_compute. tauto.
Defined.

(** The values of a header. *)
Definition values (k : string) (q : Request) : list bytes :=
  omap (fun e => if bool_decide (e.1 = k) then Some e.2 else None) (q_headers q).
(** Where a request goes: the address, the host it names, and the host that a
    reverse proxy is to send it to. *)
Definition addressed (p : ReverseProxies) (use_pri : bool) (a : Api) (q : Request) : Prop :=
  q_url q = as_bytes HTTPS_PREFIX ++ host_used p use_pri (api_host a) ++ as_bytes (api_path a) /\
  values "host" q = [host_used p use_pri (api_host a)] /\
  values "x-co" q = if proxied p use_pri then [as_bytes (api_host a)] else [].

(** The start of every builder: nothing, or the headers about the host. *)
Lemma start_spec p url_ok m u use_pri (a : Api) (ver : option HttpVersion) :
  let '(b, host) := get_client_and_host p url_ok m u use_pri (api_host a) in
  let start := header_str "host" host (match ver with Some x => version x b | None => b end) in
  start = None \/ start = Some (mkRequest m u ver (proxy_header p use_pri (api_host a) ++ [field "host" (host_used p use_pri (api_host a))]) [] None).
Proof.
  assert (forallb visible (as_bytes (api_host a)) = true) as Hv by by destruct a.
  destruct (url_ok u) eqn:Hu.
  - rewrite (client_and_host_spec p url_ok m u use_pri _ Hu Hv). cbv zeta. destruct (forallb visible (host_used p use_pri (api_host a))) eqn:Hh.
    + right. destruct ver; build; done.
    + left. destruct ver; unfold header_str; cbn [version fmap option_fmap option_map mbind option_bind]; unfold header_to_str; by rewrite Hh.
  - unfold get_client_and_host, client_request. rewrite Hu. destruct use_pri, (USE_PRI_REVERSE_PROXY p), (USE_PUB_REVERSE_PROXY p), ver; left; reflexivity.
Qed.

Ltac addressed m u use_pri a ver :=
  match goal with |- context [get_client_and_host ?p ?ok _ _ _ _] =>
    generalize (start_spec p ok m u use_pri a ver); cbn [api_host];
    destruct (get_client_and_host p ok m u use_pri _) as [b host]; cbv zeta; intros [->| ->]; [discriminate|]
  end; build.
Ltac addressed_done := intros [= <-]; split; [apply api_url_host|]; unfold values, proxy_header; cbn [q_headers]; split; by destruct (proxied _ _).

Section addressed.
Context (p : ReverseProxies) (v : VersionHeaders) (url_ok : bytes -> bool) (use_pri : bool) (q : Request).

Lemma stripe_addressed bearer : build_stripe_request p v url_ok bearer use_pri = Some q -> addressed p use_pri stripe_url q.
Proof. unfold build_stripe_request. addressed GET (api_url p stripe_url use_pri) use_pri stripe_url (Some HTTP_2). addressed_done. Qed.
Lemma usage_addressed cookie : build_usage_request p url_ok cookie use_pri = Some q -> addressed p use_pri usage_api_url q.
Proof. unfold build_usage_request. addressed GET (api_url p usage_api_url use_pri) use_pri usage_api_url (@None HttpVersion). addressed_done. Qed.
Lemma upgrade_addressed uuid challenge cookie : build_token_upgrade_request p url_ok uuid challenge cookie use_pri = Some q ->
  addressed p use_pri token_upgrade_url q.
Proof.
  unfold build_token_upgrade_request. addressed POST (api_url p token_upgrade_url use_pri) use_pri token_upgrade_url (@None HttpVersion).
  destruct (forallb visible (upgrade_referer uuid challenge)) eqn:Hr; [build; addressed_done|].
  unfold header_str. cbn [mbind option_bind]. unfold header_to_str. rewrite Hr. discriminate.
Qed.
Lemma poll_addressed uuid verifier : build_token_poll_request p v url_ok uuid verifier use_pri = Some q -> addressed p use_pri token_poll_url q.
Proof. unfold build_token_poll_request. addressed GET (api_url p token_poll_url use_pri) use_pri token_poll_url (Some HTTP_11). addressed_done. Qed.
Lemma refresh_addressed data : build_token_refresh_request p v url_ok use_pri data = Some q -> addressed p use_pri token_refresh_url q.
Proof.
  unfold build_token_refresh_request. addressed POST (api_url p token_refresh_url use_pri) use_pri token_refresh_url (@None HttpVersion). addressed_done.
Qed.
Lemma sessions_addressed cookie : build_sessions_request p url_ok cookie use_pri = Some q -> addressed p use_pri sessions_url q.
Proof. unfold build_sessions_request. addressed GET (api_url p sessions_url use_pri) use_pri sessions_url (@None HttpVersion). addressed_done. Qed.
Lemma proto_web_addressed a cookie data : api_host a = CURSOR_HOST ->
  build_proto_web_request p url_ok cookie (api_url p a use_pri) use_pri data = Some q -> addressed p use_pri a q.
Proof.
  intros Ha. unfold build_proto_web_request, addressed. rewrite Ha.
  addressed POST (api_url p a use_pri) use_pri usage_api_url (@None HttpVersion). intros [= <-].
  split; [cbn [q_url]; by rewrite api_url_host, Ha|]. unfold values, proxy_header; cbn [q_headers]. split; by destruct (proxied _ _).
Qed.
End addressed.

(** Where the requests go.  A request for an account names the host of its
    address, and with a reverse proxy the host behind it. *)
Theorem requests_addressed p v url_ok use_pri q :
  (forall bearer, build_stripe_request p v url_ok bearer use_pri = Some q -> addressed p use_pri stripe_url q) /\
  (forall cookie, build_usage_request p url_ok cookie use_pri = Some q -> addressed p use_pri usage_api_url q) /\
  (forall uuid challenge cookie, build_token_upgrade_request p url_ok uuid challenge cookie use_pri = Some q ->
     addressed p use_pri token_upgrade_url q) /\
  (forall uuid verifier, build_token_poll_request p v url_ok uuid verifier use_pri = Some q -> addressed p use_pri token_poll_url q) /\
  (forall data, build_token_refresh_request p v url_ok use_pri data = Some q -> addressed p use_pri token_refresh_url q) /\
  (forall cookie, build_sessions_request p url_ok cookie use_pri = Some q -> addressed p use_pri sessions_url q) /\
  (forall a cookie data, a ∈ [user_api_url; is_on_new_pricing_url; get_privacy_mode_url; filtered_usage_events_url] ->
     build_proto_web_request p url_ok cookie (api_url p a use_pri) use_pri data = Some q -> addressed p use_pri a q).
Proof.
  split_and!; intros *; eauto using stripe_addressed, usage_addressed, upgrade_addressed, poll_addressed, refresh_addressed, sessions_addressed.
  intros Ha. apply proto_web_addressed. rewrite !elem_of_cons, elem_of_nil in Ha. naive_solver.
Qed.
Lemma requests_addressed_witness :
  exists q, build_sessions_request (mkReverse (as_bytes "proxy.example") []) (fun _ => true) [] true = Some q /\
    addressed (mkReverse (as_bytes "proxy.example") []) true sessions_url q.
Proof.
  eexists. split; [reflexivity|].
  by apply (requests_addressed (mkReverse (as_bytes "proxy.example") []) sample_versions (fun _ => true) true) with (cookie := []).
Defined.

(** The requests for code completions go to hosts of their own, but name the host of
    the chat service, and so does the header for the reverse proxy. *)
Theorem completion_requests_misaddressed p v hyphenated tz timestamp r a :
  api_host a <> CURSOR_API2_HOST -> proxied p (r_use_pri r) = false ->
  let q := mkRequest POST (api_url p a (r_use_pri r)) (Some HTTP_2) (chat_headers p v hyphenated tz timestamp r) [] None in
  values "host" q = [as_bytes "api2.cursor.sh"] /\
  q_url q = as_bytes HTTPS_PREFIX ++ as_bytes (api_host a) ++ as_bytes (api_path a) /\ as_bytes (api_host a) <> as_bytes "api2.cursor.sh".
Proof.
  intros Ha Hp. cbv zeta. split_and!.
  - unfold values, chat_headers, proxy_header, host_used. cbn [q_headers]. rewrite Hp.
    destruct (r_stream r), (r_compressed r), (config_version (r_ext_token r)), (r_fs_client_key r); reflexivity.
  - cbn [q_url]. rewrite api_url_host. unfold host_used. by rewrite Hp.
  - intros H. by apply Ha, as_bytes_inj.
Qed.

(** The version headers can always be sent, and the version is the configured one
    whenever that can be. *)
Theorem version_headers_visible env :
  forallb visible (CLIENT_VERSION (initialize_cursor_version env)) = true /\
  forallb visible (HEADER_VALUE_UA_CURSOR_LATEST (initialize_cursor_version env)) = true /\
  (forall version, parse_str_from_env env "CURSOR_CLIENT_VERSION" (as_bytes DEFAULT_CLIENT_VERSION) = version ->
     forallb visible version = true -> CLIENT_VERSION (initialize_cursor_version env) = version /\
       HEADER_VALUE_UA_CURSOR_LATEST (initialize_cursor_version env) = as_bytes UA_PREFIX_UNIX ++ version ++ as_bytes CHROME_VERSION_INFO).
Proof.
  unfold initialize_cursor_version. cbn [CLIENT_VERSION HEADER_VALUE_UA_CURSOR_LATEST].
  set (version := parse_str_from_env _ _ _). unfold header_to_str. rewrite !visible_app.
  change (forallb visible (as_bytes UA_PREFIX_UNIX)) with true. change (forallb visible (as_bytes CHROME_VERSION_INFO)) with true.
  rewrite andb_true_r. cbn [andb]. destruct (forallb visible version) eqn:Hv; cbn [default from_option id].
  - split_and!; [done| |by intros ? <-]. rewrite !visible_app. change (forallb visible (as_bytes UA_PREFIX_UNIX)) with true. by rewrite Hv.
  - split_and!; [reflexivity|reflexivity|]. intros ? <-. by rewrite Hv.
Qed.
