(* ===== verification/Upstream.v ===== *)
(** * Conversations with the upstream service

    The requests of [src/src/common/utils.rs]: a new token by refresh or by upgrade,
    the profile of an account, the usage of a request, the configuration and the
    models.

    A function that sends requests is a term of type [net]: it asks, with what it
    does for every answer, it sleeps, or it gives its value; [run] lets it talk to a
    [server], which answers by the whole conversation so far.  [tokio::join!] is
    [join], with the order in which the two sides get on as an argument.

    External: reqwest ([builder_error] is the error of a builder that holds one),
    [sha256], the base-64 code of the [base64] crate, the text of a UUID, [print] (the
    JSON printer) and the readers of the answers. *)
From S2P Require Import Prelude Strings Numerals TokenKey RawToken TokenInfo Profile RepMove LogManager Auth Requests.
From S2P Require Import ChatModels ChatService.
From S2P Require TokenRoutes.

(** ** Conversations *)

Record HttpReply : Type := mkReply
  { reply_status : Z; reply_headers : list (string * bytes); reply_body : result SendError bytes }.
Abbreviation Answered := (result SendError HttpReply) (only parsing).

Inductive net (A : Type) : Type :=
| Give (a : A)
| Crash (undefined : bool)
| Send (q : Builder) (k : Answered -> net A)
| Sleep (secs : Z) (k : net A).
Arguments Give {A} a.
Arguments Crash {A} undefined.
Arguments Send {A} q k.
Arguments Sleep {A} secs k.

#[export] Instance net_ret : MRet net := fun A a => Give a.
#[export] Instance net_bind : MBind net := fun A B f =>
  fix bind m :=
    match m with
    | Give a => f a
    | Crash u => Crash u
    | Send q k => Send q (fun r => bind (k r))
    | Sleep s k => Sleep s (bind k)
    end.
(** A panic or undefined behaviour in the middle of a conversation. *)
Definition lift {A} (o : outcome A) : net A := match o with Ret a => Give a | Panic => Crash false | Undef => Crash true end.
Definition ask (q : Builder) : net (option HttpReply) := Send q (fun r => Give (to_option r)).
(** [response.json().await.ok()]. *)
Definition body_of (r : HttpReply) : option bytes := to_option (reply_body r).
Definition read_body {A} (parse : bytes -> option A) (r : HttpReply) : option A := b ← body_of r; parse b.
(** [request.send().await.ok()?.json().await.ok()]. *)
Definition fetch {A} (parse : bytes -> option A) (q : Builder) : net (option A) :=
  r ← ask q; Give (x ← r; read_body parse x).

Inductive event : Type := Asked (q : Request) (r : Answered) | Slept (secs : Z).
Definition Server : Type := list event -> Request -> Answered.

Section run.
Context (builder_error : SendError) (server : Server).

Fixpoint run {A} (m : net A) (h : list event) : outcome A * list event :=
  match m with
  | Give a => (Ret a, h)
  | Crash undefined => (if undefined then Undef else Panic, h)
  | Send None k => run (k (Err builder_error)) h
  | Send (Some q) k => let r := server h q in run (k r) (h ++ [Asked q r])
  | Sleep s k => run k (h ++ [Slept s])
  end.
End run.

Definition asked (h : list event) : list Request := omap (fun e => match e with Asked q _ => Some q | Slept _ => None end) h.
Definition waited (h : list event) : Z := foldr (fun e n => match e with Asked _ _ => n | Slept s => s + n end) 0 h.

(** ** Two conversations at once *)

(** [order] says which side gets on, as long as both have something to do. *)
Fixpoint join {A B} (m : net A) : net B -> list bool -> net (A * B) :=
  fix join_right n order :=
    match m, n with
    | Crash u, _ => Crash u
    | _, Crash u => Crash u
    | Give a, Give b => Give (a, b)
    | Give _, Send q k => Send q (fun r => join_right (k r) order)
    | Give _, Sleep s k => Sleep s (join_right k order)
    | Send q k, Give _ => Send q (fun r => join (k r) n order)
    | Sleep s k, Give _ => Sleep s (join k n order)
    | _, _ =>
        if default true (head order) then
          match m with
          | Send q k => Send q (fun r => join (k r) n (tail order))
          | Sleep s k => Sleep s (join k n (tail order))
          | _ => Crash true
          end
        else
          match n with
          | Send q k => Send q (fun r => join_right (k r) (tail order))
          | Sleep s k => Sleep s (join_right k (tail order))
          | _ => Crash true
          end
    end.

(** ** Requests *)

Definition POLL_MAX_ATTEMPTS : Z := 5.
Definition POLL_INTERVAL : Z := 1.

(** The clone that [RepMove] makes for all turns but the last: [try_clone] gives
    nothing for a builder that holds an error. *)
Definition RequestBuilderClone (v : outcome Builder) : outcome Builder := b ← v; q ← unchecked b; Ret (Some q).
Definition polls (b : Builder) : RepMove.State (outcome Builder) unit := rep_new (Ret b) tt POLL_MAX_ATTEMPTS.
Definition next_poll (it : RepMove.State (outcome Builder) unit) : option (outcome Builder) * RepMove.State (outcome Builder) unit :=
  next (simple (fun r v => (RequestBuilderClone v, r))) it.

(** The arguments of a search for events of use; times are nanoseconds since 1970,
    within the range of the calendar. *)
Record FilteredUsageArgs : Type := mkFilteredArgs
  { fa_start : option Z; fa_end : option Z; fa_model_id : option string; fa_size : option Z }.
Record GetFilteredUsageEventsRequest : Type := mkFilteredRequest
  { fr_team_id : Z; fr_start_date : option Z; fr_end_date : option Z; fr_user_id : option Z; fr_model_id : option string;
    fr_page : Z; fr_page_size : Z }.
Definition timestamp_millis (ns : Z) : Z := ns / 1000000.
Definition DAY_MS : Z := 86400000.
(** [TZ], sixteen hours west. *)
Definition WEST_MS : Z := 16 * 3600 * 1000.
(** [now] as midnight of the date in that zone, then back to UTC. *)
Definition local_midnight (naive_now : Z) : Z := (timestamp_millis naive_now - WEST_MS) / DAY_MS * DAY_MS.
Definition to_utc (local : Z) : Z := local + WEST_MS.
Definition filtered_request (naive_now : Z) (args : FilteredUsageArgs) : GetFilteredUsageEventsRequest :=
  let now := local_midnight naive_now in
  let start := match fa_start args with Some a => timestamp_millis a | None => to_utc (now - 7 * DAY_MS) end in
  let stop := match fa_end args with Some b => timestamp_millis b | None => to_utc (now + 86399999) end in
  mkFilteredRequest 0 (Some start) (Some stop) None (fa_model_id args) 1 (default 100 (fa_size args)).
Definition stringified (n : option Z) : option string := to_dec_signed <$> n.
Definition filtered_request_json (r : GetFilteredUsageEventsRequest) : outcome json :=
  object (field "teamId" (fr_team_id r) ++ field_unless is_none "startDate" (stringified (fr_start_date r)) ++
          field_unless is_none "endDate" (stringified (fr_end_date r)) ++ field_unless is_none "userId" (fr_user_id r) ++
          field_unless is_none "modelId" (fr_model_id r) ++ field "page" (fr_page r) ++ field "pageSize" (fr_page_size r)).

Definition CLIENT_ID : string := "KbZUR41cY7W6zRSdpSUJ7I7mLYBKOCmB".
Definition refresh_token_json (refresh_token : string) : outcome json :=
  object (field "grant_type" "refresh_token"%string ++ field "client_id" CLIENT_ID ++ field "refresh_token" refresh_token).
Definition EMPTY_JSON : bytes := as_bytes "{}".

Section requests.
Context (p : ReverseProxies) (v : VersionHeaders) (url_ok : bytes -> bool) (from_bytes : bytes -> option bytes).
Context (hyphenated : Z -> bytes) (GENERAL_TIMEZONE : string) (timestamp : Z) (print : json -> bytes).

(** [serde_json::to_vec]. *)
Definition to_vec (j : outcome json) : outcome bytes := j ← j; Ret (print j).

(** *** New tokens *)

Context (sha256 url_safe_no_pad : bytes -> bytes).
(** [encode_slice] into 43 bytes of memory that is not initialised. *)
Definition encode_slice_43 (data : bytes) : outcome bytes :=
  let code := url_safe_no_pad data in if (length code =? 43)%nat then Ret code else Undef.
(** The verifier and the challenge, of 32 random bytes. *)
Definition generate_pkce_pair (verifier_bytes : bytes) : outcome (bytes * bytes) :=
  code_verifier ← encode_slice_43 verifier_bytes;
  code_challenge ← encode_slice_43 (sha256 code_verifier);
  Ret (code_verifier, code_challenge).

(** [access_token] reads a token out of a member of an answer. *)
Context (access_token : string -> bytes -> option Token).

Fixpoint upgrade_poll (fuel : nat) (it : RepMove.State (outcome Builder) unit) : net (option Token) :=
  match fuel with
  | O => Crash true
  | S fuel =>
      match next_poll it with
      | (None, _) => Give None
      | (Some request, it) =>
          request ← lift request;
          poll_response ← ask request;
          match poll_response with
          | None => Give None
          | Some poll_response =>
              if reply_status poll_response =? 200 then Give (read_body (access_token "accessToken") poll_response)
              else if reply_status poll_response =? 404 then Sleep POLL_INTERVAL (upgrade_poll fuel it)
              else Give None
          end
      end
  end.
Definition is_success (status : Z) : bool := (200 <=? status) && (status <? 300).
(** [seed]: the random bytes of the verifier, and the UUID. *)
Definition upgrade_token (e : ExtToken) (use_pri : bool) (seed : bytes * Z) : net (option Token) :=
  '(verifier, challenge) ← lift (generate_pkce_pair seed.1);
  let uuid := hyphenated seed.2 in
  upgrade_response ← ask (build_token_upgrade_request p url_ok uuid challenge (format_workos_cursor_session_token (store_unext e)) use_pri);
  match upgrade_response with
  | None => Give None
  | Some upgrade_response =>
      if negb (is_success (reply_status upgrade_response)) then Give None else
      upgrade_poll (S (Z.to_nat POLL_MAX_ATTEMPTS)) (polls (build_token_poll_request p v url_ok uuid verifier use_pri))
  end.

Definition refresh_token (e : ExtToken) (use_pri : bool) : net (option Token) :=
  match to_vec (refresh_token_json (str (primary_token e))) with
  | Ret body => fetch (access_token "access_token") (build_token_refresh_request p v url_ok use_pri body)
  | _ => Give None
  end.

Definition with_tokens (e : ExtToken) (primary : Token) (secondary : option Token) : ExtToken :=
  mkExtToken primary secondary (checksum e) (client_key e) (config_version e) (session_id e) (proxy e) (timezone e) (gcpp_host e).
Definition get_new_token (e : ExtToken) (use_pri : bool) (seed : bytes * Z) : net (bool * ExtToken) :=
  let session := is_session (raw (primary_token e)) in
  answer ← (if session then refresh_token e use_pri else upgrade_token e use_pri seed);
  match answer with
  | Some new_token =>
      if negb session && is_none (secondary_token e) then Give (true, with_tokens e new_token (Some (primary_token e)))
      else Give (true, with_tokens e new_token (secondary_token e))
  | None =>
      if session && negb (is_none (secondary_token e)) then
        answer ← upgrade_token e use_pri seed;
        match answer with
        | Some new_token => Give (true, with_tokens e new_token (secondary_token e))
        | None => Give (false, e)
        end
      else Give (false, e)
  end.

(** *** The usage of a request *)

(** The members of an event that are read: [token_usage]. *)
Context (usage_events : bytes -> option (list (option ChainUsage))).
Definition get_filtered_usage_events (request : Builder) : net (option (list (option ChainUsage))) := fetch usage_events request.
Definition first_usage (events : list (option ChainUsage)) : option ChainUsage := mjoin (head events).
Fixpoint usage_poll (fuel : nat) (it : RepMove.State (outcome Builder) unit) : net (option ChainUsage) :=
  match fuel with
  | O => Crash true
  | S fuel =>
      match next_poll it with
      | (None, _) => Give None
      | (Some request, it) =>
          request ← lift request;
          Sleep POLL_INTERVAL (
            res ← get_filtered_usage_events request;
            match res with
            | None => Give None
            | Some events =>
                match first_usage events with
                | Some usage => Give (Some usage)
                | None => usage_poll fuel it
                end
            end)
      end
  end.
Definition usage_request (e : ExtToken) (use_pri : bool) (naive_now time : Z) (model_id : string) : outcome Builder :=
  body ← to_vec (filtered_request_json (filtered_request naive_now (mkFilteredArgs (Some time) None (Some model_id) (Some 10))));
  Ret (build_proto_web_request p url_ok (format_workos_cursor_session_token (store_unext e))
         (api_url p filtered_usage_events_url use_pri) use_pri body).
Definition get_token_usage (e : ExtToken) (use_pri : bool) (naive_now time : Z) (model_id : string) : net (option ChainUsage) :=
  b ← lift (usage_request e use_pri naive_now time model_id);
  usage_poll (S (Z.to_nat POLL_MAX_ATTEMPTS)) (polls b).

(** *** The profile of an account *)

Context (usage_profile : bytes -> option UsageProfile) (stripe_profile : bytes -> option StripeProfile).
Context (user_profile : bytes -> option UserProfile) (on_new_pricing : bytes -> option bool).
Context (privacy : bytes -> option PrivacyModeInfo) (session_list : bytes -> option (list Session)).

Section profile.
Context (u : UnextToken) (use_pri : bool).
Definition dashboard_request (a : Api) : Builder :=
  build_proto_web_request p url_ok (format_workos_cursor_session_token u) (api_url p a use_pri) use_pri EMPTY_JSON.
Definition usage_profile_request : Builder := build_usage_request p url_ok (format_workos_cursor_session_token u) use_pri.
Definition stripe_request : Builder := build_stripe_request p v url_ok (format_bearer_token u) use_pri.
Definition sessions_request : Builder := build_sessions_request p url_ok (format_workos_cursor_session_token u) use_pri.

Definition get_usage_profile : net (option UsageProfile) := fetch usage_profile usage_profile_request.
Definition get_stripe_profile : net (option StripeProfile) := fetch stripe_profile stripe_request.
Definition get_user_profile : net (option UserProfile) := fetch user_profile (dashboard_request user_api_url).
Definition get_is_on_new_pricing : net (option bool) := fetch on_new_pricing (dashboard_request is_on_new_pricing_url).
Definition get_user_privacy_mode : net (option PrivacyModeInfo) := fetch privacy (dashboard_request get_privacy_mode_url).
Definition get_sessions : net (option (list Session)) := fetch session_list sessions_request.

Definition Answers : Type :=
  (option UsageProfile * (option StripeProfile * (option UserProfile * (option bool *
    (option PrivacyModeInfo * option (list Session))))))%type.
(** [order i]: how the [i]-th of the requests gets on beside those after it. *)
Definition all_answers (sessions : net (option (list Session))) (order : nat -> list bool) : net Answers :=
  join get_usage_profile
    (join get_stripe_profile
      (join get_user_profile
        (join get_is_on_new_pricing (join get_user_privacy_mode sessions (order 4%nat)) (order 3%nat))
        (order 2%nat)) (order 1%nat)) (order 0%nat).
Definition put_together (answers : Answers)
    : option UsageProfile * option StripeProfile * option UserProfile * option (list Session) :=
  let '(usage, (stripe, (user, (is_on_new_pricing, (privacy_mode, sessions))))) := answers in
  let user := (fun u =>
    mkUserProfile (profile_user_id u) (email u) (first_name u) (last_name u) (workos_id u) (team_id u) (created_at u)
      (is_enterprise_user u) (default true is_on_new_pricing) (default (mkPrivacyModeInfo PUnspecified false) privacy_mode)) <$> user in
  (usage, stripe, user, sessions).
Definition get_token_profile (include_sessions : bool) (order : nat -> list bool)
    : net (option UsageProfile * option StripeProfile * option UserProfile * option (list Session)) :=
  answers ← all_answers (if include_sessions then get_sessions else Give None) order;
  Give (put_together answers).
End profile.
End requests.

(** ** What a conversation may look like *)

Section shapes.
Context (p : ReverseProxies) (v : VersionHeaders) (url_ok : bytes -> bool) (hyphenated : Z -> bytes) (print : json -> bytes).
Context (sha256 url_safe_no_pad : bytes -> bytes) (access_token : string -> bytes -> option Token).
Context (usage_events : bytes -> option (list (option ChainUsage))).

(** The polls for an upgraded token: at most [n], as long as the answer is 404,
    with a second after each. *)
Inductive upgrade_polls (q : Request) : nat -> option Token -> list event -> Prop :=
| up_out : upgrade_polls q 0 None []
| up_failed n e : upgrade_polls q (S n) None [Asked q (Err e)]
| up_refused n x : reply_status x <> 200 -> reply_status x <> 404 -> upgrade_polls q (S n) None [Asked q (Ok x)]
| up_found n x : reply_status x = 200 -> upgrade_polls q (S n) (read_body (access_token "accessToken") x) [Asked q (Ok x)]
| up_wait n x o h : reply_status x = 404 -> upgrade_polls q n o h ->
    upgrade_polls q (S n) o (Asked q (Ok x) :: Slept POLL_INTERVAL :: h).
(** An upgrade: the challenge first, of which only the polls show the verifier. *)
Inductive upgrading (e : ExtToken) (use_pri : bool) (uuid verifier : bytes) : option Token -> list event -> Prop :=
| upgrading_unbuilt :
    build_token_upgrade_request p url_ok uuid (url_safe_no_pad (sha256 verifier)) (format_workos_cursor_session_token (store_unext e)) use_pri = None ->
    upgrading e use_pri uuid verifier None []
| upgrading_failed q r :
    build_token_upgrade_request p url_ok uuid (url_safe_no_pad (sha256 verifier)) (format_workos_cursor_session_token (store_unext e)) use_pri = Some q ->
    match r with Ok x => is_success (reply_status x) = false | Err _ => True end ->
    upgrading e use_pri uuid verifier None [Asked q r]
| upgrading_polled q x poll o h :
    build_token_upgrade_request p url_ok uuid (url_safe_no_pad (sha256 verifier)) (format_workos_cursor_session_token (store_unext e)) use_pri = Some q ->
    is_success (reply_status x) = true -> build_token_poll_request p v url_ok uuid verifier use_pri = Some poll ->
    upgrade_polls poll 5 o h -> upgrading e use_pri uuid verifier o (Asked q (Ok x) :: h).
(** A refresh: one request with the primary token. *)
Inductive refreshing (e : ExtToken) (use_pri : bool) : option Token -> list event -> Prop :=
| refreshing_asked b o h body : to_vec print (refresh_token_json (str (primary_token e))) = Ret body ->
    b = build_token_refresh_request p v url_ok use_pri body ->
    match b with
    | None => o = None /\ h = []
    | Some q => exists r, h = [Asked q r] /\ o = (x ← to_option r; read_body (access_token "access_token") x)
    end -> refreshing e use_pri o h.
(** The whole: a session token is refreshed, and upgraded when that fails and there
    is a web token; any other token is upgraded. *)
Definition renewing (e : ExtToken) (use_pri : bool) (uuid verifier : bytes) (refreshed upgraded : option Token) (h : list event) : Prop :=
  if is_session (raw (primary_token e)) then
    exists h1 h2, h = h1 ++ h2 /\ refreshing e use_pri refreshed h1 /\
      (if is_none refreshed && negb (is_none (secondary_token e)) then upgrading e use_pri uuid verifier upgraded h2 else h2 = [])
  else upgrading e use_pri uuid verifier upgraded h.

(** The polls for the usage: at most [n], a second before each, until an answer
    shows it or fails. *)
Inductive usage_polls (q : Request) : nat -> option ChainUsage -> list event -> Prop :=
| us_out : usage_polls q 0 None []
| us_failed n r : (x ← to_option r; read_body usage_events x) = None -> usage_polls q (S n) None [Slept POLL_INTERVAL; Asked q r]
| us_found n r l u : (x ← to_option r; read_body usage_events x) = Some l -> first_usage l = Some u ->
    usage_polls q (S n) (Some u) [Slept POLL_INTERVAL; Asked q r]
| us_wait n r l o h : (x ← to_option r; read_body usage_events x) = Some l -> first_usage l = None -> usage_polls q n o h ->
    usage_polls q (S n) o (Slept POLL_INTERVAL :: Asked q r :: h).
End shapes.

(** ** Lemmas *)

Section conversation.
Context (builder_error : SendError) (server : Server).
#[local] Abbreviation talk := (run builder_error server).

Lemma run_bind {A B} (m : net A) (f : A -> net B) h :
  talk (m ≫= f) h = match talk m h with (Ret a, h1) => talk (f a) h1 | (Panic, h1) => (Panic, h1) | (Undef, h1) => (Undef, h1) end.
Proof.
  revert h. induction m as [a|[]|q k IH|s k IH]; intros h; [done|done|done| |apply IH].
  destruct q as [q|]; apply IH.
Qed.
Lemma run_bind_Ret {A B} (m : net A) (f : A -> net B) h a h1 : talk m h = (Ret a, h1) -> talk (m ≫= f) h = talk (f a) h1.
Proof. intros E. by rewrite run_bind, E. Qed.
Lemma run_ask {B} q (f : option HttpReply -> net B) h :
  talk (ask (Some q) ≫= f) h = talk (f (to_option (server h q))) (h ++ [Asked q (server h q)]).
Proof. done. Qed.
Lemma run_fetch {A} (parse : bytes -> option A) q h :
  talk (fetch parse (Some q)) h = (Ret (x ← to_option (server h q); read_body parse x), h ++ [Asked q (server h q)]).
Proof. unfold fetch. by rewrite run_ask. Qed.

Lemma lift_bind {A B} (a : A) (f : A -> net B) : lift (Ret a) ≫= f = f a.
Proof. done. Qed.
Lemma run_sleep {A} s (k : net A) h : talk (Sleep s k) h = talk k (h ++ [Slept s]).
Proof. done. Qed.

(** A good builder is given again and again, and nothing after the last turn. *)
Definition poll_state (q : Request) (n : nat) : RepMove.State (outcome Builder) unit :=
  match n with O => Done | S n => Active (Ret (Some q)) (Z.of_nat n) tt end.
Lemma next_poll_spec q n : next_poll (poll_state q (S n)) = (Some (Ret (Some q)), poll_state q n).
Proof.
  unfold next_poll, poll_state, next. destruct n as [|n]; [done|].
  rewrite (proj2 (Z.ltb_lt _ _)) by lia. unfold simple, saturating_sub. cbn [RequestBuilderClone mbind outcome_bind unchecked].
  replace (Z.max 0 (Z.of_nat (S n) - 1)) with (Z.of_nat n) by lia. done.
Qed.

Lemma upgrade_poll_run access_token q n : forall fuel h, (n < fuel)%nat ->
  exists o h', talk (upgrade_poll access_token fuel (poll_state q n)) h = (Ret o, h ++ h') /\ upgrade_polls access_token q n o h'.
Proof.
  induction n as [|n IH]; intros [|fuel] h Hf; [lia| |lia|].
  - exists None, []. split; [by rewrite app_nil_r|constructor].
  - cbn [upgrade_poll]. rewrite next_poll_spec, lift_bind, run_ask. destruct (server h q) as [x|e]; cbn [to_option].
    2:{ exists None, [Asked q (Err e)]. split; [done|constructor]. }
    destruct (Z.eqb_spec (reply_status x) 200) as [H2|H2].
    { eexists _, [Asked q (Ok x)]. split; [done|by constructor]. }
    destruct (Z.eqb_spec (reply_status x) 404) as [H4|H4].
    + destruct (IH fuel (h ++ [Asked q (Ok x)] ++ [Slept POLL_INTERVAL])) as (o & h' & E & Hs); [lia|].
      exists o, (Asked q (Ok x) :: Slept POLL_INTERVAL :: h'). split; [|by constructor].
      cbn [run]. rewrite <- app_assoc, E, <- app_assoc. done.
    + exists None, [Asked q (Ok x)]. split; [done|by constructor].
Qed.
Lemma usage_poll_run usage_events q n : forall fuel h, (n < fuel)%nat ->
  exists o h', talk (usage_poll usage_events fuel (poll_state q n)) h = (Ret o, h ++ h') /\ usage_polls usage_events q n o h'.
Proof.
  induction n as [|n IH]; intros [|fuel] h Hf; [lia| |lia|].
  - exists None, []. split; [by rewrite app_nil_r|constructor].
  - cbn [usage_poll]. rewrite next_poll_spec, lift_bind, run_sleep. unfold get_filtered_usage_events.
    rewrite (run_bind_Ret _ _ _ _ _ (run_fetch usage_events q _)). set (r := server _ q). rewrite <- app_assoc. cbn [app].
    destruct (x ← to_option r; read_body usage_events x) as [l|] eqn:El.
    2:{ exists None, [Slept POLL_INTERVAL; Asked q r]. split; [done|by constructor]. }
    destruct (first_usage l) as [u|] eqn:Eu.
    { exists (Some u), [Slept POLL_INTERVAL; Asked q r]. split; [done|by econstructor]. }
    destruct (IH fuel (h ++ [Slept POLL_INTERVAL; Asked q r])) as (o & h' & E & Hs); [lia|].
    exists o, (Slept POLL_INTERVAL :: Asked q r :: h'). split; [|by econstructor]. by rewrite E, <- app_assoc.
Qed.
End conversation.

(** A request that only names its host can be built. *)
Definition host_ok (p : ReverseProxies) (url_ok : bytes -> bool) (use_pri : bool) (a : Api) : Prop :=
  url_ok (api_url p a use_pri) = true /\ forallb visible (host_used p use_pri (api_host a)) = true.
Lemma poll_builds p v url_ok use_pri uuid verifier : host_ok p url_ok use_pri token_poll_url ->
  exists q, build_token_poll_request p v url_ok uuid verifier use_pri = Some q.
Proof.
  intros [Hu Hh]. unfold build_token_poll_request. rewrite (client_and_host_spec p url_ok GET _ _ CURSOR_API2_HOST Hu) by reflexivity.
  cbn [api_host] in Hh. build. eauto.
Qed.
Lemma proto_web_builds p url_ok use_pri a cookie data : host_ok p url_ok use_pri a -> api_host a = CURSOR_HOST ->
  exists q, build_proto_web_request p url_ok cookie (api_url p a use_pri) use_pri data = Some q /\ q_body q = Some data.
Proof.
  intros [Hu Hh] Ha. unfold build_proto_web_request. rewrite (client_and_host_spec p url_ok POST _ _ CURSOR_HOST Hu) by reflexivity.
  rewrite Ha in Hh. build. eauto.
Qed.

Section renewal.
Context (builder_error : SendError) (server : Server) (p : ReverseProxies) (v : VersionHeaders) (url_ok : bytes -> bool).
Context (hyphenated : Z -> bytes) (print : json -> bytes) (sha256 url_safe_no_pad : bytes -> bytes).
Context (access_token : string -> bytes -> option Token) (use_pri : bool).
Context (Hsha : forall d, length (sha256 d) = 32%nat) (Hcode : forall d, length d = 32%nat -> length (url_safe_no_pad d) = 43%nat).
Context (Hpoll : host_ok p url_ok use_pri token_poll_url).
#[local] Abbreviation talk := (run builder_error server).
#[local] Abbreviation upgrading := (upgrading p v url_ok sha256 url_safe_no_pad access_token).
#[local] Abbreviation refreshing := (refreshing p v url_ok print access_token).

Lemma pkce_pair d : length d = 32%nat ->
  generate_pkce_pair sha256 url_safe_no_pad d = Ret (url_safe_no_pad d, url_safe_no_pad (sha256 (url_safe_no_pad d))).
Proof using Hsha Hcode.
  intros Hd. unfold generate_pkce_pair, encode_slice_43. rewrite (Hcode d Hd), Nat.eqb_refl. cbn [mbind outcome_bind].
  by rewrite (Hcode _ (Hsha _)), Nat.eqb_refl.
Qed.

Lemma upgrade_run e seed h : length seed.1 = 32%nat ->
  exists o h', talk (upgrade_token p v url_ok hyphenated sha256 url_safe_no_pad access_token e use_pri seed) h = (Ret o, h ++ h') /\
    upgrading e use_pri (hyphenated seed.2) (url_safe_no_pad seed.1) o h'.
Proof using All.
  intros Hd. unfold upgrade_token. rewrite (pkce_pair _ Hd), lift_bind. cbv zeta.
  destruct (build_token_upgrade_request _ _ _ _ _ _) as [q|] eqn:Eq.
  2:{ exists None, []. split; [by rewrite app_nil_r|by constructor]. }
  rewrite run_ask. destruct (server h q) as [x|err] eqn:Er; cbn [to_option].
  2:{ exists None, [Asked q (Err err)]. split; [done|by constructor]. }
  destruct (is_success (reply_status x)) eqn:Es; cbn [negb].
  2:{ exists None, [Asked q (Ok x)]. split; [done|by constructor]. }
  destruct (poll_builds p v url_ok use_pri (hyphenated seed.2) (url_safe_no_pad seed.1) Hpoll) as [poll Ep]. rewrite Ep.
  destruct (upgrade_poll_run builder_error server access_token poll 5 6 (h ++ [Asked q (Ok x)])) as (o & h' & E & Hs); [lia|].
  exists o, (Asked q (Ok x) :: h'). split; [|by econstructor].
  change (polls (Some poll)) with (poll_state poll 5). change (S (Z.to_nat POLL_MAX_ATTEMPTS)) with 6%nat. by rewrite E, <- app_assoc.
Qed.
Lemma refresh_run e h :
  exists o h', talk (refresh_token p v url_ok print access_token e use_pri) h = (Ret o, h ++ h') /\ refreshing e use_pri o h'.
Proof.
  unfold refresh_token. change (to_vec print (refresh_token_json (str (primary_token e)))) with
    (Ret (print (JObj [("grant_type"%string, JStr "refresh_token"); ("client_id"%string, JStr CLIENT_ID);
                       ("refresh_token"%string, JStr (str (primary_token e)))]))).
  set (data := print _). destruct (build_token_refresh_request p v url_ok use_pri data) as [q|] eqn:Eq.
  - eexists _, [Asked q (server h q)]. split; [rewrite Eq; apply run_fetch|].
    eapply (refreshing_asked _ _ _ _ _ _ _ (Some q) _ _ data); [done|done|eauto].
  - exists None, []. split; [by rewrite Eq, app_nil_r|]. by eapply (refreshing_asked _ _ _ _ _ _ _ None _ _ data).
Qed.

Lemma renewal_run e seed : length seed.1 = 32%nat ->
  exists refreshed upgraded h,
    talk (get_new_token p v url_ok hyphenated print sha256 url_safe_no_pad access_token e use_pri seed) [] =
      (Ret (TokenRoutes.get_new_token (fun _ => refreshed) (fun _ => upgraded) e), h) /\
    renewing p v url_ok print sha256 url_safe_no_pad access_token e use_pri (hyphenated seed.2) (url_safe_no_pad seed.1) refreshed upgraded h.
Proof using All.
  intros Hd. unfold get_new_token, renewing, TokenRoutes.get_new_token.
  destruct (is_session (raw (primary_token e))); cbn [negb andb].
  - destruct (refresh_run e []) as (o & h1 & E1 & H1). cbn [app] in E1. rewrite (run_bind_Ret _ _ _ _ _ _ _ E1).
    destruct o as [t|]; cbn [is_none andb].
    { exists (Some t), None, h1. split; [done|]. exists h1, []. by rewrite app_nil_r. }
    destruct (is_none (secondary_token e)) eqn:En; cbn [negb].
    { exists None, None, h1. split; [done|]. exists h1, []. by rewrite app_nil_r. }
    destruct (upgrade_run e seed h1 Hd) as (o & h2 & E2 & H2). rewrite (run_bind_Ret _ _ _ _ _ _ _ E2).
    exists None, o, (h1 ++ h2). split; [by destruct o|]. by exists h1, h2.
  - destruct (upgrade_run e seed [] Hd) as (o & h1 & E1 & H1). cbn [app] in E1. rewrite (run_bind_Ret _ _ _ _ _ _ _ E1).
    exists None, o, h1. split; [|done]. destruct o as [t|]; [|done]. by destruct (is_none (secondary_token e)).
Qed.
End renewal.

(** *** Consequences of the shapes *)

Section consequences.
Context (p : ReverseProxies) (v : VersionHeaders) (url_ok : bytes -> bool) (print : json -> bytes).
Context (sha256 url_safe_no_pad : bytes -> bytes) (access_token : string -> bytes -> option Token) (use_pri : bool).

Lemma asked_app h1 h2 : asked (h1 ++ h2) = asked h1 ++ asked h2.
Proof. apply omap_app. Qed.
Lemma waited_app h1 h2 : waited (h1 ++ h2) = waited h1 + waited h2.
Proof. induction h1 as [|[] h1 IH]; cbn [app waited foldr] in *; unfold waited in *; lia. Qed.

(** Some answer in [h] holds the token [t]. *)
Definition given (h : list event) (t : Token) : Prop :=
  exists q x member, Asked q (Ok x) ∈ h /\ read_body (access_token member) x = Some t.
Definition asks (l : list Api) (h : list event) : Prop := Forall (fun q => exists a, a ∈ l /\ addressed p use_pri a q) (asked h).
Definition says (n : nat) (s : Z) (l : list Api) (o : option Token) (h : list event) : Prop :=
  (length (asked h) <= n)%nat /\ 0 <= waited h <= s /\ asks l h /\ (forall t, o = Some t -> given h t).

Lemma given_weaken h1 h h2 t : given h t -> given (h1 ++ h ++ h2) t.
Proof. intros (q & x & m & Hin & Hp). exists q, x, m. split; [|done]. rewrite !elem_of_app. auto. Qed.
Lemma given_one q r m t : (x ← to_option r; read_body (access_token m) x) = Some t -> given [Asked q r] t.
Proof. destruct r as [x|]; [|done]. cbn. intros H. exists q, x, m. split; [by left|done]. Qed.

Lemma asks_cons a l q r h : a ∈ l -> addressed p use_pri a q -> asks l h -> asks l (Asked q r :: h).
Proof. intros Ha Hq Hh. constructor; [by exists a|done]. Qed.
Lemma asks_nil l : asks l [].
Proof. constructor. Qed.
#[local] Hint Resolve asks_cons asks_nil list_elem_of_here : core.
Lemma polls_say q n o h : upgrade_polls access_token q n o h -> addressed p use_pri token_poll_url q -> says n (Z.of_nat n) [token_poll_url] o h.
Proof.
  intros H Hq. induction H as [|n e|n x|n x H2|n x o h H4 H IH].
  - repeat split; [cbn; lia..|constructor|done].
  - repeat split; [cbn; lia..|eauto|done].
  - repeat split; [cbn; lia..|eauto|done].
  - repeat split; [cbn; lia..|eauto|]. intros t Ht. by apply (given_one _ (Ok x) "accessToken").
  - destruct IH as (Hn & Hw & Ha & Hg). unfold says, asks. cbn [asked waited foldr omap list_omap length].
    fold (asked h). change (foldr _ 0 h) with (waited h). unfold POLL_INTERVAL. repeat split; [lia..| |].
    + constructor; [|done]. by eauto.
    + intros t Ht. specialize (Hg t Ht). apply (given_weaken [Asked q (Ok x); Slept 1] h []) in Hg. by rewrite app_nil_r in Hg.
Qed.
Lemma asks_weaken l l' h : l ⊆ l' -> asks l h -> asks l' h.
Proof. intros Hl H. eapply Forall_impl; [exact H|]. intros q (a & Ha & Hq). eauto. Qed.
Lemma upgrading_says e uuid verifier o h :
  upgrading p v url_ok sha256 url_safe_no_pad access_token e use_pri uuid verifier o h ->
  says 6 5 [token_upgrade_url; token_poll_url] o h.
Proof.
  intros [Hb|q r Hb Hr|q x poll o' h' Hb Hx Hp Hs].
  - repeat split; [cbn; lia..|constructor|done].
  - repeat split; [cbn; lia..| |done]. eauto using upgrade_addressed.
  - apply polls_say in Hs as (Hn & Hw & Ha & Hg); [|by eapply poll_addressed].
    unfold says. change (asked (_ :: h')) with (q :: asked h'). change (waited (_ :: h')) with (waited h'). repeat split; [cbn; lia|lia..| |].
    + constructor; [exists token_upgrade_url; split; [by left|by eapply upgrade_addressed]|].
      eapply asks_weaken; [|exact Ha]. set_solver.
    + intros t Ht. specialize (Hg t Ht). apply (given_weaken [Asked q (Ok x)] h' []) in Hg. by rewrite app_nil_r in Hg.
Qed.
Lemma refreshing_says e o h : refreshing p v url_ok print access_token e use_pri o h -> says 1 0 [token_refresh_url] o h.
Proof.
  intros [b o' h' body Hb -> H]. destruct (build_token_refresh_request _ _ _ _ _) as [q|] eqn:Eq.
  - destruct H as (r & -> & ->). repeat split; [cbn; lia..| |].
    + eauto using refresh_addressed.
    + intros t Ht. by eapply given_one.
  - destruct H as [-> ->]. repeat split; [cbn; lia..|constructor|done].
Qed.
Lemma says_app n1 n2 s1 s2 l1 l2 o1 o2 h1 h2 :
  says n1 s1 l1 o1 h1 -> says n2 s2 l2 o2 h2 ->
  (length (asked (h1 ++ h2)) <= n1 + n2)%nat /\ 0 <= waited (h1 ++ h2) <= s1 + s2 /\ asks (l1 ++ l2) (h1 ++ h2) /\
  (forall t, o1 = Some t \/ o2 = Some t -> given (h1 ++ h2) t).
Proof.
  intros (Hn1 & Hw1 & Ha1 & Hg1) (Hn2 & Hw2 & Ha2 & Hg2). rewrite asked_app, waited_app, length_app. split_and!; [lia..| |].
  - unfold asks. rewrite asked_app, Forall_app. split; (eapply asks_weaken; [|done]); set_solver.
  - intros t [Ht|Ht].
    + apply (given_weaken [] h1 h2), Hg1, Ht.
    + apply Hg2, (given_weaken h1 h2 []) in Ht. by rewrite app_nil_r in Ht.
Qed.
Definition token_urls : list Api := [token_refresh_url; token_upgrade_url; token_poll_url].
Lemma renewing_says e uuid verifier refreshed upgraded h :
  renewing p v url_ok print sha256 url_safe_no_pad access_token e use_pri uuid verifier refreshed upgraded h ->
  let '(ok, e') := TokenRoutes.get_new_token (fun _ => refreshed) (fun _ => upgraded) e in
  (length (asked h) <= 7)%nat /\ 0 <= waited h <= 5 /\ asks token_urls h /\
  (if ok : bool then given h (primary_token e') else e' = e).
Proof.
  unfold renewing, TokenRoutes.get_new_token. destruct (is_session (raw (primary_token e))); cbn [negb andb].
  - intros (h1 & h2 & -> & H1 & H2). apply refreshing_says in H1.
    assert (says 6 5 [token_upgrade_url; token_poll_url]
              (if is_none refreshed && negb (is_none (secondary_token e)) then upgraded else None) h2) as H2'.
    { destruct (is_none refreshed && _); [by eapply upgrading_says|]. subst h2. repeat split; [cbn; lia..|constructor|done]. }
    destruct (says_app _ _ _ _ _ _ _ _ _ _ H1 H2') as (Hn & Hw & Ha & Hg).
    destruct refreshed as [t|]; cbn [is_none andb] in *.
    { split_and!; [lia..|done|]. apply Hg. by left. }
    destruct (is_none (secondary_token e)); cbn [negb] in *; [split_and!; [lia..|done|done]|].
    destruct upgraded as [t|]; split_and!; try lia; try done. apply Hg. by right.
  - intros H. apply upgrading_says in H as (Hn & Hw & Ha & Hg).
    assert (asks token_urls h) by (eapply asks_weaken; [|exact Ha]; set_solver).
    destruct upgraded as [t|]; [|split_and!; [lia..|done|done]].
    destruct (is_none (secondary_token e)); split_and!; try lia; try done; by apply Hg.
Qed.
End consequences.

(** *** The usage *)

Lemma usage_polls_say usage_events q n o h : usage_polls usage_events q n o h ->
  exists k, (k <= n)%nat /\ asked h = replicate k q /\ waited h = Z.of_nat k /\
    match o with
    | Some u => exists x l, Asked q (Ok x) ∈ h /\ read_body usage_events x = Some l /\ first_usage l = Some u
    | None => True
    end.
Proof.
  intros H. induction H as [|n r _|n r l u Hl Hu|n r l o h Hl Hu H (k & Hk & Ha & Hw & Ho)].
  - by exists 0%nat.
  - exists 1%nat. split_and!; [lia|done|done|done].
  - exists 1%nat. split_and!; [lia|done|done|]. destruct r as [x|]; [|done]. exists x, l. split_and!; [set_solver|done|done].
  - exists (S k). cbn [asked waited omap list_omap foldr replicate]. fold (asked h). change (foldr _ 0 h) with (waited h).
    rewrite Ha, Hw. unfold POLL_INTERVAL. split_and!; [lia|done|lia|].
    destruct o as [u|]; [|done]. destruct Ho as (x & l' & Hin & Hp). exists x, l'. split; [set_solver|done].
Qed.
(** The end of a search without an end: the last millisecond of a day around now. *)
Lemma window_end now : let stop := to_utc (local_midnight now + 86399999) in timestamp_millis now <= stop < timestamp_millis now + DAY_MS.
Proof. unfold to_utc, local_midnight, WEST_MS, DAY_MS. cbv zeta. generalize (timestamp_millis now). intros t. lia. Qed.
Lemma window_start now : let start := to_utc (local_midnight now - 7 * DAY_MS) in
  timestamp_millis now - 8 * DAY_MS < start <= timestamp_millis now - 7 * DAY_MS.
Proof. unfold to_utc, local_midnight, WEST_MS, DAY_MS. cbv zeta. generalize (timestamp_millis now). intros t. lia. Qed.
Lemma millis_le a b : a <= b -> timestamp_millis a <= timestamp_millis b.
Proof. intros. unfold timestamp_millis. by apply Z.div_le_mono. Qed.

Lemma usage_run builder_error server p url_ok print usage_events e use_pri naive_now time model_id :
  host_ok p url_ok use_pri filtered_usage_events_url ->
  exists q o h, run builder_error server (get_token_usage p url_ok print usage_events e use_pri naive_now time model_id) [] = (Ret o, h) /\
    usage_polls usage_events q 5 o h /\ addressed p use_pri filtered_usage_events_url q /\
    exists stop, timestamp_millis naive_now <= stop < timestamp_millis naive_now + DAY_MS /\
      q_body q = Some (print (JObj [("teamId", JInt 0); ("startDate", JStr (to_dec_signed (timestamp_millis time)));
        ("endDate", JStr (to_dec_signed stop)); ("modelId", JStr model_id); ("page", JInt 1); ("pageSize", JInt 10)]%string)).
Proof.
  intros Hok. unfold get_token_usage, usage_request. cbn [filtered_request fa_start fa_end fa_model_id fa_size default].
  set (stop := to_utc (local_midnight naive_now + 86399999)).
  match goal with |- context [to_vec print ?j] => change (to_vec print j) with (Ret (print (JObj
    [("teamId", JInt 0); ("startDate", JStr (to_dec_signed (timestamp_millis time)));
     ("endDate", JStr (to_dec_signed stop)); ("modelId", JStr model_id); ("page", JInt 1); ("pageSize", JInt 10)]%string))) end.
  set (data := print _). cbn [mbind outcome_bind].
  destruct (proto_web_builds p url_ok use_pri filtered_usage_events_url (format_workos_cursor_session_token (store_unext e)) data Hok) as (q & Eq & Hd); [done|].
  rewrite Eq, lift_bind. change (polls (Some q)) with (poll_state q 5). change (S (Z.to_nat POLL_MAX_ATTEMPTS)) with 6%nat.
  destruct (usage_poll_run builder_error server usage_events q 5 6 []) as (o & h & E & Hs); [lia|].
  exists q, o, h. cbn [app] in E. split_and!; [done|done|by eapply proto_web_addressed|]. exists stop. split; [apply window_end|done].
Qed.

(** *** The profile *)

Section settles.
Context (builder_error : SendError) (answers : Request -> Answered).

(** A conversation with a server that only looks at the request. *)
Inductive settles {A} : net A -> A -> list event -> Prop :=
| settles_give a : settles (Give a) a []
| settles_unbuilt k a l : settles (k (Err builder_error)) a l -> settles (Send None k) a l
| settles_send q k a l : settles (k (answers q)) a l -> settles (Send (Some q) k) a (Asked q (answers q) :: l)
| settles_sleep s k a l : settles k a l -> settles (Sleep s k) a (Slept s :: l).

Lemma settles_run {A} (m : net A) a l : settles m a l -> forall h, run builder_error (fun _ q => answers q) m h = (Ret a, h ++ l).
Proof.
  intros H. induction H as [a|k a l H IH|q k a l H IH|s k a l H IH]; intros h; cbn [run].
  - by rewrite app_nil_r.
  - apply IH.
  - rewrite IH, <- app_assoc. done.
  - rewrite IH, <- app_assoc. done.
Qed.
#[local] Hint Constructors settles : core.

(** One side gets on by a step. *)
Ltac gets_on IH order :=
  let l := fresh "l" in let H := fresh "H" in let Hp := fresh "Hp" in
  destruct (IH order) as (l & H & Hp); eexists; split;
  [first [apply settles_unbuilt; exact H | apply settles_send; exact H | apply settles_sleep; exact H]
  | rewrite ?Hp; first [reflexivity | apply Permutation_middle] ].
(** Whoever gets on first, both get the answers they would get alone. *)
Lemma settles_join {A B} (m : net A) a l : settles m a l -> forall (n : net B) b l', settles n b l' -> forall order,
  exists l'', settles (join m n order) (a, b) l'' /\ l'' ≡ₚ l ++ l'.
Proof.
  intros Hm. induction Hm as [a|k a l Hm IHm|q k a l Hm IHm|s k a l Hm IHm]; intros n b l' Hn.
  1: induction Hn as [b|k b l' Hn IHn|q k b l' Hn IHn|s k b l' Hn IHn]; intros order; [by exists []; split; [constructor|]|gets_on IHn order..].
  all: induction Hn as [b|k' b l' Hn IHn|q' k' b l' Hn IHn|s' k' b l' Hn IHn]; intros order;
    [gets_on (IHm (Give b) b [] (settles_give b)) order
    |destruct order as [|[] order]; cbn -[app]..].
  all: try gets_on IHn order.
  all: match goal with |- context [join _ ?n ?o] => match goal with |- context [_ ≡ₚ _ ++ ?rest] =>
         let H := fresh in assert (settles n b rest) as H by (econstructor; exact Hn); gets_on (IHm n b rest H) o end end.
Qed.
End settles.

Section profile_lemmas.
Context (builder_error : SendError) (answers : Request -> Answered).

Definition fetched {A} (parse : bytes -> option A) (b : Builder) : option A :=
  x ← to_option (match b with Some q => answers q | None => Err builder_error end); read_body parse x.
Definition fetch_log (b : Builder) : list event := match b with Some q => [Asked q (answers q)] | None => [] end.
Lemma settles_fetch {A} (parse : bytes -> option A) b : settles builder_error answers (fetch parse b) (fetched parse b) (fetch_log b).
Proof. destruct b as [q|]; [apply settles_send|apply settles_unbuilt]; constructor. Qed.
Lemma asked_log b : asked (fetch_log b) = omap id [b].
Proof. by destruct b. Qed.
Lemma asked_permute h1 h2 : h1 ≡ₚ h2 -> asked h1 ≡ₚ asked h2.
Proof. intros H. unfold asked. by rewrite H. Qed.

Context (p : ReverseProxies) (v : VersionHeaders) (url_ok : bytes -> bool).
Context (usage_profile : bytes -> option UsageProfile) (stripe_profile : bytes -> option StripeProfile).
Context (user_profile : bytes -> option UserProfile) (on_new_pricing : bytes -> option bool).
Context (privacy : bytes -> option PrivacyModeInfo) (session_list : bytes -> option (list Session)).
Context (u : UnextToken) (use_pri : bool).

(** What each request gets by itself, and the requests. *)
Definition profile_answers : TokenRoutes.NetProfile :=
  TokenRoutes.mkNetProfile
    (fetched usage_profile (usage_profile_request p url_ok u use_pri)) (fetched stripe_profile (stripe_request p v url_ok u use_pri))
    (fetched user_profile (dashboard_request p url_ok u use_pri user_api_url))
    (fetched on_new_pricing (dashboard_request p url_ok u use_pri is_on_new_pricing_url))
    (fetched privacy (dashboard_request p url_ok u use_pri get_privacy_mode_url)) (fetched session_list (sessions_request p url_ok u use_pri)).
Definition profile_requests (include_sessions : bool) : list Builder :=
  [usage_profile_request p url_ok u use_pri; stripe_request p v url_ok u use_pri; dashboard_request p url_ok u use_pri user_api_url;
   dashboard_request p url_ok u use_pri is_on_new_pricing_url; dashboard_request p url_ok u use_pri get_privacy_mode_url] ++
  (if include_sessions then [sessions_request p url_ok u use_pri] else []).

Lemma profile_settles include_sessions order : exists h,
  run builder_error (fun _ q => answers q)
    (get_token_profile p v url_ok usage_profile stripe_profile user_profile on_new_pricing privacy session_list u use_pri
       include_sessions order) [] = (Ret (TokenRoutes.get_token_profile include_sessions profile_answers), h) /\
  asked h ≡ₚ omap id (profile_requests include_sessions).
Proof.
  unfold get_token_profile, all_answers.
  set (last := if include_sessions then get_sessions _ _ _ _ _ else Give None).
  assert (settles builder_error answers last
    (if include_sessions then fetched session_list (sessions_request p url_ok u use_pri) else None)
    (if include_sessions then fetch_log (sessions_request p url_ok u use_pri) else [])) as H6.
  { subst last. destruct include_sessions; [apply settles_fetch|constructor]. }
  edestruct (settles_join _ _ _ _ _ (settles_fetch privacy (dashboard_request p url_ok u use_pri get_privacy_mode_url)) _ _ _ H6 (order 4%nat))
    as (l5 & H5 & P5).
  edestruct (settles_join _ _ _ _ _ (settles_fetch on_new_pricing (dashboard_request p url_ok u use_pri is_on_new_pricing_url)) _ _ _ H5 (order 3%nat))
    as (l4 & H4 & P4).
  edestruct (settles_join _ _ _ _ _ (settles_fetch user_profile (dashboard_request p url_ok u use_pri user_api_url)) _ _ _ H4 (order 2%nat))
    as (l3 & H3 & P3).
  edestruct (settles_join _ _ _ _ _ (settles_fetch stripe_profile (stripe_request p v url_ok u use_pri)) _ _ _ H3 (order 1%nat)) as (l2 & H2 & P2).
  edestruct (settles_join _ _ _ _ _ (settles_fetch usage_profile (usage_profile_request p url_ok u use_pri)) _ _ _ H2 (order 0%nat)) as (l1 & H1 & P1).
  exists l1. split.
  - erewrite run_bind_Ret; [|eapply settles_run, H1]. by destruct include_sessions.
  - rewrite P5 in P4. rewrite P4 in P3. rewrite P3 in P2. rewrite P2 in P1. rewrite (asked_permute _ _ P1), !asked_app, !asked_log.
    unfold profile_requests. destruct include_sessions; [|change (asked []) with (omap id (@nil Builder))]; by rewrite ?asked_log, <- !omap_app.
Qed.
End profile_lemmas.

(** ** Properties *)

(** C37: The conversation for a new token, whatever the service answers: it ends
    within seven requests and five seconds of waiting, all of them to the addresses
    for tokens; its shape is that of a refresh, then an upgrade where one is due,
    whose verifier is shown only after the challenge was accepted; what becomes of the
    tokens is what the specification in [TokenRoutes] says for the tokens received;
    and the new primary token is one that an answer held, or nothing has changed. *)
Theorem new_token_conversation builder_error server p v url_ok hyphenated print sha256 url_safe_no_pad access_token use_pri e seed :
  (forall d, length (sha256 d) = 32%nat) -> (forall d, length d = 32%nat -> length (url_safe_no_pad d) = 43%nat) ->
  length seed.1 = 32%nat -> host_ok p url_ok use_pri token_poll_url ->
  exists refreshed upgraded h ok e',
    run builder_error server (get_new_token p v url_ok hyphenated print sha256 url_safe_no_pad access_token e use_pri seed) [] = (Ret (ok, e'), h) /\
    (ok, e') = TokenRoutes.get_new_token (fun _ => refreshed) (fun _ => upgraded) e /\
    renewing p v url_ok print sha256 url_safe_no_pad access_token e use_pri (hyphenated seed.2) (url_safe_no_pad seed.1) refreshed upgraded h /\
    (length (asked h) <= 7)%nat /\ 0 <= waited h <= 5 /\ asks p use_pri token_urls h /\
    (if ok : bool then given access_token h (primary_token e') else e' = e).
Proof.
  intros Hs Hc Hd Hp.
  destruct (renewal_run builder_error server p v url_ok hyphenated print sha256 url_safe_no_pad access_token use_pri Hs Hc Hp e seed Hd)
    as (refreshed & upgraded & h & E & Hr).
  pose proof (renewing_says _ _ _ _ _ _ _ _ _ _ _ _ _ _ Hr) as H.
  destruct (TokenRoutes.get_new_token _ _ e) as [ok e'] eqn:Eg. destruct H as (Hn & Hw & Ha & Hg).
  exists refreshed, upgraded, h, ok, e'. by rewrite Eg.
Qed.

(** The search for the usage of a request, whatever the service answers: at most
    five times the same request, a second before each, until an answer shows a usage
    or fails, and the usage is the one the last answer shows; the request asks for the
    events from the start of the request to a moment that is not past and less than a
    day away. *)
Theorem usage_polled builder_error server p url_ok print usage_events e use_pri naive_now time model_id :
  host_ok p url_ok use_pri filtered_usage_events_url -> time <= naive_now ->
  exists q o h k stop,
    run builder_error server (get_token_usage p url_ok print usage_events e use_pri naive_now time model_id) [] = (Ret o, h) /\
    usage_polls usage_events q 5 o h /\ asked h = replicate k q /\ (k <= 5)%nat /\ waited h = Z.of_nat k /\
    match o with
    | Some u => exists x l, Asked q (Ok x) ∈ h /\ read_body usage_events x = Some l /\ first_usage l = Some u
    | None => True
    end /\
    addressed p use_pri filtered_usage_events_url q /\
    q_body q = Some (print (JObj [("teamId", JInt 0); ("startDate", JStr (to_dec_signed (timestamp_millis time)));
      ("endDate", JStr (to_dec_signed stop)); ("modelId", JStr model_id); ("page", JInt 1); ("pageSize", JInt 10)]%string)) /\
    timestamp_millis time <= timestamp_millis naive_now <= stop /\ stop < timestamp_millis naive_now + DAY_MS.
Proof.
  intros Hok Ht.
  destruct (usage_run builder_error server p url_ok print usage_events e use_pri naive_now time model_id Hok)
    as (q & o & h & E & Hs & Ha & stop & Hw & Hb).
  destruct (usage_polls_say _ _ _ _ _ Hs) as (k & Hk & Hq & Hl & Ho). apply millis_le in Ht.
  exists q, o, h, k, stop. split_and!; try done; lia.
Qed.

(** C38: The profile of an account.  Whatever the order in which the requests get on
    beside each other, with a service that answers each for itself the result is that
    of the specification in [TokenRoutes], from the answer to each request, and each
    is sent exactly once. *)
Theorem profile_any_order builder_error answers p v url_ok usage_profile stripe_profile user_profile on_new_pricing privacy session_list
    u use_pri include_sessions order :
  exists h,
    run builder_error (fun _ q => answers q)
      (get_token_profile p v url_ok usage_profile stripe_profile user_profile on_new_pricing privacy session_list u use_pri
         include_sessions order) [] =
      (Ret (TokenRoutes.get_token_profile include_sessions
        (profile_answers builder_error answers p v url_ok usage_profile stripe_profile user_profile on_new_pricing privacy session_list u use_pri)), h) /\
    asked h ≡ₚ omap id (profile_requests p v url_ok u use_pri include_sessions).
Proof. apply profile_settles. Qed.

(** A service that refuses a refresh and lets the upgrade wait for a second. *)
Definition sample_error : SendError := mkSendError false [].
Definition sample_reply (status : Z) (data : bytes) : Answered := Ok (mkReply status [] (Ok data)).
Definition sample_server : Server := fun h q =>
  match length h with 0%nat => sample_reply 500 [] | 1%nat => sample_reply 200 [] | 2%nat => sample_reply 404 [] | _ => sample_reply 200 [7] end.
Definition sample_pair : ExtToken := with_tokens (bundle (sample 1)) (sample_token 1) (Some (sample_token 3)).
Definition sample_code (d : bytes) : bytes := (fun b => 65 + b mod 26) <$> take 43 (d ++ replicate 43 0).
Definition sample_access (member : string) (data : bytes) : option Token :=
  if bool_decide (data = [7]) then Some (sample_token 2) else None.
Lemma new_token_conversation_witness :
  exists h, run sample_error sample_server
      (get_new_token no_proxies sample_versions (fun _ => true) (fun _ => sample_uuid) (fun _ => []) (fun _ => replicate 32 0) sample_code
         sample_access sample_pair true (replicate 32 1, 0)) [] =
      (Ret (true, with_tokens sample_pair (sample_token 2) (Some (sample_token 3))), h) /\
    length (asked h) = 4%nat /\ waited h = 1 /\ asks no_proxies true token_urls h.
Proof.
  destruct (new_token_conversation sample_error sample_server no_proxies sample_versions (fun _ => true) (fun _ => sample_uuid) (fun _ => [])
    (fun _ => replicate 32 0) sample_code sample_access true sample_pair (replicate 32 1, 0)) as (r & u & h & ok & e' & E & _ & _ & _ & _ & Ha & _).
  - reflexivity.
  - intros d Hd. unfold sample_code. rewrite length_fmap, length_take, length_app, Hd. reflexivity.
  - reflexivity.
  - split; reflexivity.
  - exists h. assert (h = (run sample_error sample_server
      (get_new_token no_proxies sample_versions (fun _ => true) (fun _ => sample_uuid) (fun _ => []) (fun _ => replicate 32 0) sample_code
         sample_access sample_pair true (replicate 32 1, 0)) []).2) as Eh by by rewrite E.
    split_and!; [|subst h; vm_compute; reflexivity..|done].
    subst h. vm_compute. reflexivity.
Defined.
Lemma usage_polled_witness :
  exists q o h, run sample_error (fun _ _ => sample_reply 200 []) (get_token_usage no_proxies (fun _ => true) (fun _ => []) (fun _ => Some [])
      (bundle (sample 1)) true 2000000 1000000 "gpt-4") [] = (Ret o, h) /\ o = None /\ asked h = replicate 5 q /\ waited h = 5.
Proof.
  destruct (usage_polled sample_error (fun _ _ => sample_reply 200 []) no_proxies (fun _ => true) (fun _ => []) (fun _ => Some [])
      (bundle (sample 1)) true 2000000 1000000 "gpt-4") as (q & o & h & k & stop & E & _ & Hq & Hk & Hw & _).
  - split; reflexivity.
  - lia.
  - assert (waited h = 5 /\ o = None) as [H5 ->].
    { change h with (Ret o, h).2. change o with (match (Ret o, h).1 with Ret x => x | _ => None end) at 2. rewrite <- E. split; vm_compute; reflexivity. }
    exists q, None, h. split_and!; [done|done| |done]. rewrite Hq. f_equal. lia.
Defined.
