(* ===== verification/Completions.v ===== *)
(** * The code completion handlers

    [src/src/core/service/cpp.rs]: the configuration and the models of code
    completions, the upload and the synchronisation of a file, and the stream of
    completions; with [get_available_models] and [get_server_config] of
    [src/src/common/utils.rs], the two other requests built by
    [build_client_request].

    A handler is a conversation ([Upstream.net]); the extensions of a request are the
    token that the middleware has put in.  The body of a stream is read when the
    client is sent it; here it follows at once, cut by the network as [chunks] says.
    External: the protobuf messages (the interface [Prost]), gzip, the check for
    UTF-8, the JSON texts of messages. *)
From S2P Require Import Prelude Strings Numerals Hex TokenInfo Profile TokenRoutes Auth Requests ChatModels ChatService Upstream.
From S2P Require Import GrpcStream ProtoEncode UpstreamErrors CompletionDecoder.

(** ** Answers *)

Inductive Served (T : Type) : Type :=
| JsonData (data : T)
| JsonError (status : Z) (error : ErrorBody)
| Whole (status : Z) (headers : list (string * bytes)) (data : bytes).
Arguments JsonData {T} data.
Arguments JsonError {T} status error.
Arguments Whole {T} status headers data.

Definition SIZE_LIMIT_MSG : string := "Message exceeds 4 MiB size limit".
(** [ExceedSizeLimit::into_response_tuple]. *)
Definition size_limit_status : Z := 413.
Definition size_limit_error : ErrorBody := GenericBody (Some 413) "resource_exhausted" SIZE_LIMIT_MSG.

(** The errors of the request, and of the decoding. *)
Definition request_failed {T} (e : SendError) : Served T :=
  JsonError (if is_timeout e then 504 else 500) (chat_to_generic (RequestFailed (send_text e))).
Definition processing_failed {T} (e : DecoderError) : Served T :=
  match e with Internal e => JsonError 502 (chat_to_generic (ProcessingFailed (as_bytes e))) end.
Definition text_answer {T} (s : bytes) : Served T :=
  Whole 200 [("content-type", as_bytes "application/json"); ("content-length", as_bytes (to_dec (zlen s)))]%string s.

(** [CollectBytes] and [CollectBytesParts]. *)
Definition CollectBytes (req : Builder) : net (result SendError bytes) :=
  Send req (fun r => Give (match r with Ok x => reply_body x | Err e => Err e end)).
Definition CollectBytesParts (req : Builder) : net (result SendError (HttpReply * bytes)) :=
  Send req (fun r => Give (match r with
    | Ok x => match reply_body x with Ok data => Ok (x, data) | Err e => Err e end
    | Err e => Err e
    end)).

Definition TO_REMOVE_HEADERS : list string :=
  ["content-type"; "content-length"; "vary"; "access-control-allow-credentials"; "access-control-allow-headers"]%string.
Definition remove_headers (h : list (string * bytes)) : list (string * bytes) :=
  foldl (fun h key => filter (fun e => e.1 <> key) h) h TO_REMOVE_HEADERS.

(** ** Events *)

#[local] Instance serialize_bool : Serialize bool := fun b => Ret (JBool b).
Definition cpp_error_json (e : CppError) : outcome json :=
  object (field "code" (pe_code e) ++ field "type" (pe_type e) ++ field "details" (pe_details e)).
#[local] Instance serialize_CppError : Serialize CppError := cpp_error_json.
Definition members (m : StreamMessage) : list (string * outcome json) :=
  match m with
  | ModelInfo fused multidiff => field "is_fused_cursor_prediction_model" fused ++ field "is_multidiff_model" multidiff
  | RangeReplace start stop binding eol =>
      field "start_line_number" start ++ field "end_line_number_inclusive" stop ++
      field_unless is_none "binding_id" binding ++ field_unless is_none "should_remove_leading_eol" eol
  | Text text => field "text" text
  | CursorPrediction path line content retrigger binding =>
      field "relative_path" path ++ field "line_number_one_indexed" line ++ field "expected_content" content ++
      field "should_retrigger_cpp" retrigger ++ field_unless is_none "binding_id" binding
  | Debug d =>
      field_unless is_none "model_input" (model_input d) ++ field_unless is_none "model_output" (model_output d) ++
      field_unless is_none "stream_time" (stream_time d) ++ field_unless is_none "total_time" (total_time d) ++
      field_unless is_none "ttft_time" (ttft_time d) ++ field_unless is_none "server_timing" (server_timing d)
  | Error error => field "error" error
  | BeginEdit | DoneEdit | DoneStream | StreamEnd => []
  end.
(** The tag of the variant in snake case is its name. *)
Definition stream_message_json (m : StreamMessage) : outcome json := object (field "type" (type_name m) ++ members m).

Section events.
Context (print : json -> bytes).
Definition format_sse_event (message : StreamMessage) : outcome bytes :=
  data ← stream_message_json message;
  Ret (as_bytes "event: " ++ as_bytes (type_name message) ++ [10] ++ as_bytes "data: " ++ print data ++ [10; 10]).

(** The message of an empty stream; a quote is byte 34. *)
Definition quoted (s : string) : bytes := [34] ++ as_bytes s ++ [34].
Definition EMPTY_STREAM_DATA : bytes :=
  as_bytes "{" ++ quoted "type" ++ as_bytes ":" ++ quoted "error" ++ as_bytes "," ++ quoted "error" ++ as_bytes ":{" ++
  quoted "code" ++ as_bytes ":533," ++ quoted "type" ++ as_bytes ":" ++ quoted "unknown" ++ as_bytes "," ++
  quoted "details" ++ as_bytes ":{" ++ quoted "title" ++ as_bytes ":" ++ quoted "Empty" ++ as_bytes "," ++
  quoted "detail" ++ as_bytes ":" ++ quoted "Empty stream" ++ as_bytes "}}}".
Definition EMPTY_STREAM_EVENT : bytes := as_bytes "event: error" ++ [10] ++ as_bytes "data: " ++ EMPTY_STREAM_DATA ++ [10; 10].
Definition sent_bytes (s : Sent) : outcome bytes :=
  match s with Event m => format_sse_event m | EmptyStreamError => Ret EMPTY_STREAM_EVENT end.
End events.

(** ** Handlers *)

Section handlers.
Context (p : ReverseProxies) (v : VersionHeaders) (url_ok : bytes -> bool) (from_bytes : bytes -> option bytes).
Context (hyphenated : Z -> bytes) (GENERAL_TIMEZONE : string) (GENERAL_GCPP_HOST : GcppHost) (timestamp : Z).
Context (print : json -> bytes) (gunzip : bytes -> option bytes) (is_valid_utf8 : bytes -> bool) `{Gzip}.
#[local] Abbreviation client_request := (build_client_request p v url_ok from_bytes hyphenated GENERAL_TIMEZONE timestamp).

(** What the handlers put into a request. *)
Definition cpp_request (headers : HeaderMap) (e : ExtToken) (a : Api) (stream compressed : bool) (trace_id : bytes) (use_pri : bool)
    : AiServiceRequest :=
  mkAiRequest e (headers "x-client-key"%string) (api_url p a use_pri) stream compressed trace_id use_pri (headers "cookie"%string).
Definition cpp_api (e : ExtToken) (s : CppService) : Api := get_url (get_gcpp_host GENERAL_GCPP_HOST e) s.

Section single.
Context {T : Type} (decode : bytes -> option T).
(** The answer to the bytes of a response. *)
Definition answer_data (data : bytes) : outcome (Served T) :=
  m ← direct_decode gunzip decode is_valid_utf8 data;
  Ret (match m with
       | Ok (Protobuf data) => JsonData data
       | Ok (TextMessage s) => text_answer s
       | Err e => processing_failed e
       end).
Definition answer_bytes (r : result SendError bytes) : outcome (Served T) :=
  match r with Ok data => answer_data data | Err e => Ret (request_failed e) end.

Definition handle_cpp_config {M} `{Prost M} (headers : HeaderMap) (token : option (ExtToken * bool)) (trace_id : bytes) (request : M)
    : net (Served T) :=
  '(ext_token, use_pri) ← lift (unchecked token);
  match encode_message request with
  | Err _ => Give (JsonError size_limit_status size_limit_error)
  | Ok (data, compressed) =>
      req ← lift (client_request (cpp_request headers ext_token cpp_config_url false compressed trace_id use_pri));
      r ← CollectBytes (body data req);
      lift (answer_bytes r)
  end.
Definition handle_cpp_models (headers : HeaderMap) (token : option (ExtToken * bool)) (trace_id : bytes) : net (Served T) :=
  '(ext_token, use_pri) ← lift (unchecked token);
  req ← lift (client_request (cpp_request headers ext_token cpp_models_url false false trace_id use_pri));
  r ← CollectBytes req;
  lift (answer_bytes r).

(** Of a response with its head; [to_json] is [serde_json::to_vec]. *)
Context (to_json : T -> bytes).
Definition answer_parts (r : result SendError (HttpReply * bytes)) : outcome (Served T) :=
  match r with
  | Ok (parts, data) =>
      m ← direct_decode gunzip decode is_valid_utf8 data;
      Ret (match m with
           | Ok (Protobuf data) => Whole (reply_status parts) (remove_headers (reply_headers parts)) (to_json data)
           | Ok (TextMessage s) => text_answer s
           | Err e => processing_failed e
           end)
  | Err e => Ret (request_failed e)
  end.
Definition handle_file {M} `{Prost M} (s : CppService) (headers : HeaderMap) (token : option (ExtToken * bool)) (trace_id : bytes) (request : M)
    : net (Served T) :=
  '(ext_token, use_pri) ← lift (unchecked token);
  match encode_message request with
  | Err _ => Give (JsonError size_limit_status size_limit_error)
  | Ok (data, compressed) =>
      req ← lift (client_request (cpp_request headers ext_token (cpp_api ext_token s) false compressed trace_id use_pri));
      r ← CollectBytesParts (body data req);
      lift (answer_parts r)
  end.
Definition handle_upload_file {M} `{Prost M} := handle_file (M := M) FSUploadFile.
Definition handle_sync_file {M} `{Prost M} := handle_file (M := M) FSSyncFile.
End single.

(** *** The stream *)

Context (decode_response : bytes -> option StreamCppResponse) (cursor_error : bytes -> option CursorError).
Context (chunks : HttpReply -> list (result SendError bytes)).
Definition STREAM_HEADERS : list (string * bytes) :=
  [("cache-control", as_bytes "no-cache, must-revalidate"); ("connection", as_bytes "keep-alive");
   ("content-type", as_bytes "text/event-stream"); ("transfer-encoding", as_bytes "chunked")]%string.
(** A chunk that cannot be read is left out. *)
Definition stream_body (x : HttpReply) : outcome bytes :=
  r ← serve_cpp gunzip decode_response cursor_error cpp_decoder_new (omap to_option (chunks x));
  bs ← mapM (sent_bytes print) r.1;
  Ret (List.concat bs).
Definition handle_stream_cpp {M} `{Prost M} (headers : HeaderMap) (token : option (ExtToken * bool)) (trace_id : bytes) (request : M)
    : net (Served unit) :=
  '(ext_token, use_pri) ← lift (unchecked token);
  data ← lift (encode_message_framed request);
  match data with
  | Err _ => Give (JsonError size_limit_status size_limit_error)
  | Ok data =>
      req ← lift (client_request (cpp_request headers ext_token (cpp_api ext_token StreamCpp) true true trace_id use_pri));
      Send (body data req) (fun res =>
        match res with
        | Err e => Give (request_failed e)
        | Ok x => data ← lift (stream_body x); Give (Whole 200 STREAM_HEADERS data)
        end)
  end.

(** *** The models and the configuration *)

Context {T : Type} (decode : bytes -> option T).
Definition plain_request (e : ExtToken) (a : Api) (compressed : bool) (trace_id : bytes) (use_pri : bool) : AiServiceRequest :=
  mkAiRequest e None (api_url p a use_pri) false compressed trace_id use_pri None.
Definition get_available_models {M} `{Prost M} (e : ExtToken) (use_pri : bool) (trace_id : bytes) (request : M) : net (option T) :=
  match encode_message request with
  | Err _ => Give None
  | Ok (data, compressed) =>
      req ← lift (client_request (plain_request e chat_models_url compressed trace_id use_pri));
      fetch decode (body data req)
  end.
(** [config_version] decodes the answer, [try_parse] reads a UUID. *)
Context (config_version : bytes -> option bytes) (try_parse : bytes -> option Z).
Definition get_server_config (e : ExtToken) (use_pri : bool) (trace_id : bytes) : net (option Z) :=
  req ← lift (client_request (plain_request e server_config_url false trace_id use_pri));
  fetch (fun data => s ← config_version data; try_parse s) req.
End handlers.

(** ** Lemmas *)

Lemma stream_message_returns m : returns (stream_message_json m).
Proof.
  assert (forall b : bool, returns (serialize b)) as Hb by (intros b; by eexists).
  assert (forall e : CppError, returns (serialize e)) as He.
  { intros e. unfold serialize, serialize_CppError, cpp_error_json. fields. }
  unfold stream_message_json. destruct m; unfold members; fields; auto.
Qed.
Lemma cpp_name_quiet m : quiet (as_bytes (type_name m)).
Proof. destruct m; by_decision. Qed.

Lemma direct_total {T} gunzip (decode : bytes -> option T) valid data : returns (direct_decode gunzip decode valid data).
Proof.
  unfold direct_decode, returns. destruct data as [|b0 [|b1 [|b2 [|b3 [|b4 payload]]]]]; eauto.
  destruct (b0 <=? 1); [|eauto]. destruct (_ =? _); [|eauto].
  assert (exists o, (if b0 =? 1 then decompress_gzip gunzip payload else Ret (Some payload)) = Ret o) as [o ->].
  { destruct (b0 =? 1); [rewrite decompress_gzip_spec|]; eauto. }
  cbn [mbind outcome_bind]. destruct o as [d|]; [|eauto]. destruct (decode_bytes decode valid d); eauto.
Qed.

(** An answer that is one frame with a message, compressed or not. *)
Lemma direct_framed {M} `{HP : Prost M, !ProstLaws M, HG : Gzip, !GzipLaws} valid (m : M) payload c :
  encode_message m = Ok (payload, c) ->
  direct_decode gz_decode proto_decode valid (frame (mkRawMessage (if c : bool then 1 else 0) payload)) = Ret (Ok (Protobuf m)).
Proof.
  intros E. destruct (payload_ok m payload c E) as (Hok & _ & Hp). pose proof (be_value_len4 _ Hok) as Hl.
  unfold frame. cbn [rm_type rm_data] in *. remember (be_bytes 4 (zlen payload)) as len eqn:Elen.
  assert (length len = 4%nat) as H4 by (subst len; apply length_be_bytes).
  destruct len as [|b1 [|b2 [|b3 [|b4 [|]]]]]; try discriminate H4. cbn [app direct_decode].
  rewrite (proj2 (Z.leb_le _ _)) by (destruct c; lia). rewrite Hl.
  rewrite (proj2 (Z.eqb_eq _ _)) by (unfold zlen; cbn [length]; lia).
  unfold default_processor, decode_compressed_message in Hp. cbn [rm_type rm_data] in Hp.
  destruct c; cbn [Z.eqb Pos.eqb] in *.
  - apply bind_Ret in Hp as (o & -> & Hp). cbn [mbind outcome_bind]. destruct o as [d|]; [|done].
    injection Hp as Hp. unfold decode_message in Hp. unfold decode_bytes. by rewrite Hp.
  - injection Hp as Hp. unfold decode_message in Hp. cbn [mbind outcome_bind]. unfold decode_bytes. by rewrite Hp.
Qed.

(** The client reads back what is sent. *)
Section read_back.
Context (print : json -> bytes) (Hprint : forall j, quiet (print j)).
Definition shown (s : Sent) (e : SseEvent) : Prop :=
  match s with
  | Event m => exists j, stream_message_json m = Ret j /\ e = mkSseEvent (as_bytes (type_name m)) (print j)
  | EmptyStreamError => e = mkSseEvent (as_bytes "error") EMPTY_STREAM_DATA
  end.
Lemma sent_reads l : exists bs es, mapM (sent_bytes print) l = Ret bs /\ Forall2 shown l es /\
  sse_events (List.concat bs) = es.
Proof using Hprint.
  induction l as [|s l (bs & es & E & Hs & Hes)].
  { exists [], []. split_and!; [done|constructor|done]. }
  destruct s as [m|].
  - destruct (stream_message_returns m) as [j Ej].
    eexists (_ :: bs), (mkSseEvent (as_bytes (type_name m)) (print j) :: es). cbn [mapM sent_bytes]. unfold format_sse_event. rewrite Ej.
    cbn [mbind outcome_bind]. rewrite E. cbn [mbind outcome_bind]. split; [reflexivity|]. split; [constructor; [by exists j|done]|].
    cbn [List.concat]. rewrite <- !app_assoc. rewrite sse_named by (apply cpp_name_quiet || apply Hprint). by rewrite Hes.
  - exists (EMPTY_STREAM_EVENT :: bs), (mkSseEvent (as_bytes "error") EMPTY_STREAM_DATA :: es). cbn [mapM sent_bytes mbind outcome_bind].
    rewrite E. cbn [mbind outcome_bind]. split; [reflexivity|]. split; [by constructor|].
    cbn [List.concat]. unfold EMPTY_STREAM_EVENT. rewrite <- !app_assoc.
    change (as_bytes "event: error" ++ ?x) with (as_bytes "event: " ++ as_bytes "error" ++ x).
    rewrite sse_named by by_decision. by rewrite Hes.
Qed.
End read_back.

(** What building a request needs: the checks of header values and addresses, and
    well-formed identifiers. *)
Record Sendable (p : ReverseProxies) (url_ok : bytes -> bool) (from_bytes : bytes -> option bytes) (hyphenated : Z -> bytes)
    (GENERAL_TIMEZONE : string) (r : AiServiceRequest) : Prop := mkSendable
  { sendable_values : forall s, forallb visible s = true -> from_bytes s = Some s;
    sendable_uuids : forall u, length (hyphenated u) = 36%nat /\ forallb visible (hyphenated u) = true;
    sendable_trace : length (r_trace_id r) = 36%nat /\ forallb visible (r_trace_id r) = true;
    sendable_key : hash_wf (client_key (r_ext_token r)); sendable_sum : checksum_wf (checksum (r_ext_token r));
    sendable_url : url_ok (r_url r) = true; sendable_host : forallb visible (host_used p (r_use_pri r) CURSOR_API2_HOST) = true;
    sendable_zone : forallb visible (as_bytes (get_timezone GENERAL_TIMEZONE (r_ext_token r))) = true }.
Definition sent_request (p : ReverseProxies) (v : VersionHeaders) (hyphenated : Z -> bytes) (GENERAL_TIMEZONE : string) (timestamp : Z)
    (r : AiServiceRequest) (data : option bytes) : Request :=
  mkRequest POST (r_url r) (Some HTTP_2) (chat_headers p v hyphenated GENERAL_TIMEZONE (timestamp_read timestamp) r) [] data.
Lemma body_sent p v hyphenated tz timestamp r data :
  body data (Some (sent_request p v hyphenated tz timestamp r None)) = Some (sent_request p v hyphenated tz timestamp r (Some data)).
Proof. done. Qed.
Lemma sendable_built p v url_ok from_bytes hyphenated tz ks h r : Sendable p url_ok from_bytes hyphenated tz r ->
  build_client_request p v url_ok from_bytes hyphenated tz (update_global_with ks h) r =
    Ret (Some (sent_request p v hyphenated tz (update_global_with ks h) r None)).
Proof.
  intros []. rewrite (build_unbuffered p v url_ok from_bytes hyphenated tz ks h r) by done. by rewrite unbuffered_spec.
Qed.

(** What a client may be answered for one answer of the service, where [wrap] is the
    form of a message: an error of the transport by its kind, a framed message as the
    message, and else a message, the text, or the error of the decoder. *)
Definition well_answered {T} `{Prost T, Gzip} (wrap : HttpReply -> T -> Served T) (r : Answered) (out : Served T) : Prop :=
  let failed e := out = JsonError (if is_timeout e then 504 else 500) (chat_to_generic (RequestFailed (send_text e))) in
  match r with
  | Err e => failed e
  | Ok x =>
      match reply_body x with
      | Err e => failed e
      | Ok data =>
          (forall m payload c, encode_message m = Ok (payload, c) ->
             data = frame (mkRawMessage (if c : bool then 1 else 0) payload) -> out = wrap x m) /\
          ((exists m, out = wrap x m) \/ (exists s, out = text_answer s) \/ exists e, out = JsonError 502 (chat_to_generic (ProcessingFailed e)))
      end
  end.

Lemma remove_headers_spec h : remove_headers h = filter (fun e => e.1 ∉ TO_REMOVE_HEADERS) h.
Proof.
  assert (forall keys h, foldl (fun (h : list (string * bytes)) key => filter (fun e => e.1 <> key) h) h keys = filter (fun e : string * bytes => e.1 ∉ keys) h) as H.
  { induction keys as [|key keys IH]; intros h'; cbn [foldl].
    - induction h' as [|e h' IH]; [done|]. rewrite filter_cons_True by apply not_elem_of_nil. by f_equal.
    - rewrite IH, list_filter_filter. apply list_filter_iff. intros e. rewrite not_elem_of_cons. tauto. }
  apply H.
Qed.

Section answers.
Context {T : Type} `{HT : Prost T, !ProstLaws T, HG : Gzip, !GzipLaws} (valid : bytes -> bool).
Lemma data_answered wrap x data (form : T -> Served T) :
  (forall m, form m = wrap x m) -> reply_body x = Ok data ->
  exists out, (m ← direct_decode gz_decode proto_decode valid data;
     Ret (match m with Ok (Protobuf m) => form m | Ok (TextMessage s) => text_answer s | Err e => processing_failed e end)) = Ret out /\
    well_answered wrap (Ok x) out.
Proof using All.
  intros Hf Hx. destruct (direct_total gz_decode proto_decode valid data) as [m E]. rewrite E. cbn [mbind outcome_bind].
  eexists. split; [reflexivity|]. unfold well_answered. rewrite Hx. split.
  - intros m' payload c Hm ->. rewrite (direct_framed valid m' payload c Hm) in E. injection E as <-. by rewrite Hf.
  - destruct m as [[m|s]|[e]]; [left|right; left|right; right]; eexists; try reflexivity. by rewrite Hf.
Qed.
Lemma bytes_answered (r : Answered) :
  exists out, answer_bytes (T := T) gz_decode valid proto_decode (match r with Ok x => reply_body x | Err e => Err e end) = Ret out /\
    well_answered (fun _ m => JsonData m) r out.
Proof using All.
  destruct r as [x|e]; [|by eexists]. destruct (reply_body x) as [data|e] eqn:Ex; cbn [answer_bytes].
  - by apply (data_answered (fun _ m => JsonData m)).
  - eexists. split; [done|]. unfold well_answered. by rewrite Ex.
Qed.
Context (to_json : T -> bytes).
Definition parts_form (x : HttpReply) (m : T) : Served T :=
  Whole (reply_status x) (filter (fun e => e.1 ∉ TO_REMOVE_HEADERS) (reply_headers x)) (to_json m).
Lemma parts_answered (r : Answered) :
  exists out, answer_parts (T := T) gz_decode valid proto_decode to_json
      (match r with Ok x => match reply_body x with Ok data => Ok (x, data) | Err e => Err e end | Err e => Err e end) = Ret out /\
    well_answered parts_form r out.
Proof using All.
  destruct r as [x|e]; [|by eexists]. destruct (reply_body x) as [data|e] eqn:Ex; cbn [answer_parts].
  - apply (data_answered parts_form x data); [|done]. intros m. unfold parts_form. by rewrite remove_headers_spec.
  - eexists. split; [done|]. unfold well_answered. by rewrite Ex.
Qed.
End answers.

(** One request and its answer. *)
Lemma lift_answer {A B} (o : outcome A) (a : A) (f : A -> net B) : o = Ret a -> lift o ≫= f = f a.
Proof. by intros ->. Qed.
Lemma run_lift {A} builder_error server (o : outcome A) a h : o = Ret a -> run builder_error server (lift o) h = (Ret a, h).
Proof. by intros ->. Qed.
Lemma run_collect {A B} builder_error server q (g : Answered -> A) (f : A -> net B) h :
  run builder_error server (Send (Some q) (fun r => Give (g r)) ≫= f) h =
  run builder_error server (f (g (server h q))) (h ++ [Asked q (server h q)]).
Proof. done. Qed.

Section handled.
Context {T : Type} `{HT : Prost T, !ProstLaws T, HG : Gzip, !GzipLaws}.
Context (builder_error : SendError) (server : Server) (p : ReverseProxies) (v : VersionHeaders) (url_ok : bytes -> bool).
Context (from_bytes : bytes -> option bytes) (hyphenated : Z -> bytes) (GENERAL_TIMEZONE : string).
Context (ks clock : Z) (valid : bytes -> bool).
Context (headers : HeaderMap) (e : ExtToken) (use_pri : bool) (trace_id : bytes).
#[local] Abbreviation timestamp := (update_global_with ks clock).
#[local] Abbreviation sendable r := (Sendable p url_ok from_bytes hyphenated GENERAL_TIMEZONE r).
#[local] Abbreviation to_send r := (sent_request p v hyphenated GENERAL_TIMEZONE timestamp r).

(** The end of a handler, for the request [q] and the form [wrap] of a message. *)
Definition ends_well (wrap : HttpReply -> T -> Served T) (q : Request) (m : net (Served T)) : Prop :=
  exists out, run builder_error server m [] = (Ret out, [Asked q (server [] q)]) /\ well_answered wrap (server [] q) out.

Lemma models_ends :
  let r := cpp_request p headers e cpp_models_url false false trace_id use_pri in
  sendable r ->
  ends_well (fun _ m => JsonData m) (to_send r None)
    (handle_cpp_models p v url_ok from_bytes hyphenated GENERAL_TIMEZONE timestamp gz_decode valid proto_decode headers (Some (e, use_pri)) trace_id).
Proof using All.
  intros r Hs. destruct (bytes_answered valid (server [] (to_send r None))) as (out & Eo & Ho).
  exists out. split; [|exact Ho]. unfold handle_cpp_models. cbn [unchecked]. rewrite lift_bind.
  erewrite lift_answer by (apply sendable_built, Hs). unfold CollectBytes. rewrite ?body_sent, run_collect. by erewrite run_lift by exact Eo.
Qed.
Context {M : Type} `{HM : Prost M}.
Lemma config_ends (request : M) data compressed :
  let r := cpp_request p headers e cpp_config_url false compressed trace_id use_pri in
  encode_message request = Ok (data, compressed) -> sendable r ->
  ends_well (fun _ m => JsonData m) (to_send r (Some data))
    (handle_cpp_config p v url_ok from_bytes hyphenated GENERAL_TIMEZONE timestamp gz_decode valid proto_decode headers (Some (e, use_pri)) trace_id request).
Proof using All.
  intros r E Hs. destruct (bytes_answered valid (server [] (to_send r (Some data)))) as (out & Eo & Ho).
  exists out. split; [|exact Ho]. unfold handle_cpp_config. cbn [unchecked]. rewrite lift_bind, E.
  erewrite lift_answer by (apply sendable_built, Hs). unfold CollectBytes. rewrite ?body_sent, run_collect. by erewrite run_lift by exact Eo.
Qed.
Context (GENERAL_GCPP_HOST : GcppHost) (to_json : T -> bytes).
Lemma file_ends s (request : M) data compressed :
  let r := cpp_request p headers e (cpp_api GENERAL_GCPP_HOST e s) false compressed trace_id use_pri in
  encode_message request = Ok (data, compressed) -> sendable r ->
  ends_well (parts_form to_json) (to_send r (Some data))
    (handle_file p v url_ok from_bytes hyphenated GENERAL_TIMEZONE GENERAL_GCPP_HOST timestamp gz_decode valid proto_decode to_json s headers
       (Some (e, use_pri)) trace_id request).
Proof using All.
  intros r E Hs. destruct (parts_answered valid to_json (server [] (to_send r (Some data)))) as (out & Eo & Ho).
  exists out. split; [|exact Ho]. unfold handle_file. cbn [unchecked]. rewrite lift_bind, E.
  erewrite lift_answer by (apply sendable_built, Hs). unfold CollectBytesParts. rewrite body_sent, run_collect. by erewrite run_lift by exact Eo.
Qed.
End handled.

(** ** Properties *)

(** C39: The handlers of code completions with one answer.  A message that is too large
    is refused and nothing is sent; otherwise exactly one request is sent, with the
    headers of [chat_headers] and the encoded message, and whatever the service
    answers, the client gets an answer: the message of a frame, compressed or not, in
    the form of the handler (for a file with the status and the headers of the
    service, but for five), the text of an answer that is not a message, or an error
    whose status tells a timeout, a failure and bad data apart. *)
Theorem completion_answered {T M} `{HT : Prost T, !ProstLaws T, HM : Prost M, HG : Gzip, !GzipLaws}
    builder_error server p v url_ok from_bytes hyphenated GENERAL_TIMEZONE GENERAL_GCPP_HOST ks clock valid (to_json : T -> bytes)
    headers e use_pri trace_id (request : M) service :
  let now := update_global_with ks clock in
  let sendable := Sendable p url_ok from_bytes hyphenated GENERAL_TIMEZONE in
  let to_send := sent_request p v hyphenated GENERAL_TIMEZONE now in
  let config := handle_cpp_config p v url_ok from_bytes hyphenated GENERAL_TIMEZONE now gz_decode valid (proto_decode (M := T)) headers
    (Some (e, use_pri)) trace_id request in
  let file := handle_file p v url_ok from_bytes hyphenated GENERAL_TIMEZONE GENERAL_GCPP_HOST now gz_decode valid proto_decode to_json service
    headers (Some (e, use_pri)) trace_id request in
  let models := handle_cpp_models p v url_ok from_bytes hyphenated GENERAL_TIMEZONE now gz_decode valid (proto_decode (M := T)) headers
    (Some (e, use_pri)) trace_id in
  (let r := cpp_request p headers e cpp_models_url false false trace_id use_pri in
   sendable r -> ends_well builder_error server (fun _ m => JsonData m) (to_send r None) models) /\
  match encode_message request with
  | Err _ => run builder_error server config [] = (Ret (JsonError 413 size_limit_error), []) /\
             run builder_error server file [] = (Ret (JsonError 413 size_limit_error), [])
  | Ok (data, compressed) =>
      (let r := cpp_request p headers e cpp_config_url false compressed trace_id use_pri in
       sendable r -> ends_well builder_error server (fun _ m => JsonData m) (to_send r (Some data)) config) /\
      (let r := cpp_request p headers e (get_url (get_gcpp_host GENERAL_GCPP_HOST e) service) false compressed trace_id use_pri in
       sendable r -> ends_well builder_error server (parts_form to_json) (to_send r (Some data)) file)
  end.
Proof.
  cbv zeta. split; [intros Hs; by apply models_ends|]. destruct (encode_message request) as [[data compressed]|err] eqn:E.
  - split; intros Hs; [by apply config_ends|by eapply file_ends].
  - split; [unfold handle_cpp_config|unfold handle_file]; cbn [unchecked]; by rewrite lift_bind, E.
Qed.

(** C40: The stream of completions.  The request is one frame with the message; a
    failure to send is an error; otherwise the client that reads the events of the
    body finds exactly what is [Told], each event named by its type and with its JSON
    text: for each chunk of the upstream stream, in order, the events of the frames
    that it completes, and for a chunk that comes right after another too short to
    hold a header, and is too short itself, the message that the stream is empty.  So
    the events are those of the frames of the stream however the network cuts it,
    and when no chunk is shorter than a header nothing but these events is sent.
    (Chunks that the network fails to deliver are left out of the stream, and the
    chunks are fewer than [2 ^ 64].) *)
Theorem completion_stream_served {M} `{HM : Prost M, !ProstLaws M, HG : Gzip}
    builder_error server p v url_ok from_bytes hyphenated GENERAL_TIMEZONE GENERAL_GCPP_HOST ks clock print gunzip
    decode_response cursor_error chunks headers e use_pri trace_id (request : M) data compressed :
  let now := update_global_with ks clock in
  let r := cpp_request p headers e (get_url (get_gcpp_host GENERAL_GCPP_HOST e) StreamCpp) true true trace_id use_pri in
  let q := sent_request p v hyphenated GENERAL_TIMEZONE now r
             (Some (frame (mkRawMessage (if compressed : bool then 1 else 0) data))) in
  let talk := run builder_error server (handle_stream_cpp p v url_ok from_bytes hyphenated GENERAL_TIMEZONE GENERAL_GCPP_HOST now print gunzip
    decode_response cursor_error chunks headers (Some (e, use_pri)) trace_id request) [] in
  (forall j, quiet (print j)) -> encode_message request = Ok (data, compressed) ->
  Sendable p url_ok from_bytes hyphenated GENERAL_TIMEZONE r ->
  match server [] q with
  | Err err => talk = (Ret (JsonError (if is_timeout err then 504 else 500) (chat_to_generic (RequestFailed (send_text err)))), [Asked q (Err err)])
  | Ok x =>
      let received := omap to_option (chunks x) in
      let stream := List.concat received in
      buf_ok stream -> zlen received < 2 ^ 64 ->
      exists ms rest sents body, splits stream ms rest /\ talk = (Ret (Whole 200 STREAM_HEADERS body), [Asked q (Ok x)]) /\
        Forall2 (shown print) sents (sse_events body) /\
        Told gunzip decode_response cursor_error [] false received sents rest /\
        omap event_of sents = frame_events gunzip decode_response cursor_error ms /\
        (Forall (fun chunk => 5 <= zlen chunk) received ->
         sents = Event <$> frame_events gunzip decode_response cursor_error ms)
  end.
Proof.
  intros now r q talk Hp E Hs.
  assert (talk = run builder_error server (match server [] q with
    | Err e => Give (request_failed e)
    | Ok x => data ← lift (stream_body print gunzip decode_response cursor_error chunks x); Give (Whole 200 STREAM_HEADERS data)
    end) [Asked q (server [] q)]) as ->.
  { subst talk. unfold handle_stream_cpp. cbn [unchecked]. rewrite lift_bind, framed_encode, E, lift_bind.
    erewrite lift_answer by (apply sendable_built, Hs). by rewrite body_sent. }
  destruct (server [] q) as [x|err]; [|done]. intros received stream Hok Hl.
  destruct (splits_total _ (proj1 Hok)) as (ms & rest & Hsp).
  destruct (serve_cpp_new gunzip decode_response cursor_error received ms rest Hl Hok Hsp) as (sents & d & Ed & _ & Ht & Hev & Hall).
  destruct (sent_reads print Hp sents) as (bs & es & Eb & Hes & Hread).
  exists ms, rest, sents, (List.concat bs). split_and!; [done| |by rewrite Hread|done..].
  erewrite lift_answer; [reflexivity|]. unfold stream_body. fold received. rewrite Ed. cbn [mbind outcome_bind fst]. by rewrite Eb.
Qed.

(** *** Concrete inputs *)

#[local] Existing Instances bits_prost bits_laws zeros_gzip zeros_laws.
Definition no_headers : HeaderMap := fun _ => None.
Lemma sample_sendable a stream compressed :
  Sendable no_proxies (fun _ => true) header_to_str (fun _ => sample_uuid) "UTC"
    (cpp_request no_proxies no_headers (bundle (sample 1)) a stream compressed sample_uuid true).
Proof.
  split; try (vm_compute; reflexivity); try (split; vm_compute; reflexivity).
  - exact header_to_str_visible.
  - split; [by_decision|reflexivity].
  - split; (split; [by_decision|reflexivity]).
Qed.
Definition reply_with (data : bytes) : Server := fun _ _ => Ok (mkReply 200 [] (Ok data)).
Lemma completion_answered_witness : exists h,
  run sample_error (reply_with (sent long_message)) (handle_cpp_config no_proxies sample_versions (fun _ => true) header_to_str (fun _ => sample_uuid) "UTC"
    (update_global_with 5 0) gz_decode (fun _ => true) (proto_decode (M := list bool)) no_headers (Some (bundle (sample 1), true)) sample_uuid
    short_message) [] = (Ret (JsonData long_message), h) /\ length h = 1%nat.
Proof.
  destruct (completion_answered (T := list bool) sample_error (reply_with (sent long_message)) no_proxies sample_versions (fun _ => true) header_to_str
    (fun _ => sample_uuid) "UTC" US 5 0 (fun _ => true) (fun _ => []) no_headers (bundle (sample 1)) true sample_uuid short_message FSSyncFile)
    as [_ H].
  destruct H as [H _]. destruct (H (sample_sendable _ _ _)) as (out & E & Hw & _).
  assert (out = JsonData long_message) as ->.
  { apply (Hw long_message (gz_encode (encode_raw long_message)) true); vm_compute; reflexivity. }
  eexists. split; [exact E|reflexivity].
Defined.
Definition sample_stream : bytes := [0; 0; 0; 0; 1; 97; 2; 0; 0; 0; 2; 123; 125].
Lemma completion_stream_served_witness : exists sents body h,
  run sample_error (reply_with []) (handle_stream_cpp no_proxies sample_versions (fun _ => true) header_to_str (fun _ => sample_uuid) "UTC" US
    (update_global_with 5 0) (fun _ => []) (fun _ => None) text_response (fun _ => None)
    (fun _ => [Ok (take 4 sample_stream); Err sample_error; Ok (drop 4 sample_stream)])
    no_headers (Some (bundle (sample 1), true)) sample_uuid short_message) [] = (Ret (Whole 200 STREAM_HEADERS body), h) /\
  Forall2 (shown (fun _ => [])) sents (sse_events body) /\ omap event_of sents = [Text "a"; DoneEdit; StreamEnd].
Proof.
  destruct (completion_stream_served sample_error (reply_with []) no_proxies sample_versions (fun _ => true) header_to_str
    (fun _ => sample_uuid) "UTC" US 5 0 (fun _ => []) (fun _ => None) text_response (fun _ => None)
    (fun _ => [Ok (take 4 sample_stream); Err sample_error; Ok (drop 4 sample_stream)])
    no_headers (bundle (sample 1)) true sample_uuid short_message [1; 0; 1] false) as (ms & rest & sents & body & Hs & E & Hr & _ & Ho & _).
  - intros _. constructor.
  - vm_compute. reflexivity.
  - apply sample_sendable.
  - split; [by_decision|vm_compute; reflexivity].
  - reflexivity.
  - destruct (splits_unique _ _ _ _ _ Hs (splits_frames [mkRawMessage 0 [97]; mkRawMessage 2 [123; 125]] ltac:(by_decision))) as [-> ->].
    exists sents, body. eexists. split; [exact E|]. split; [exact Hr|]. rewrite Ho. vm_compute. reflexivity.
Defined.
