(* ===== verification/ProjectAge.v ===== *)
(** * The age of the project and of the build

    [src/src/common/time.rs]: the time since the project began, in years, months and
    days, the time since the program was built, and their texts.

    The date of the present is given: converting a duration to a date is chrono's.
    A [u32] is an integer; a [NonZeroU32] made without a check from zero is undefined
    behaviour. *)
From S2P Require Import Prelude Numerals.

(** ** The calendar *)

Definition is_leap (y : Z) : bool := (y mod 4 =? 0) && (negb (y mod 100 =? 0) || (y mod 400 =? 0)).
Definition month_length (y m : Z) : Z :=
  if m =? 2 then if is_leap y then 29 else 28
  else if (m =? 4) || (m =? 6) || (m =? 9) || (m =? 11) then 30 else 31.
(** The year and the month before. *)
Definition month_before (y m : Z) : Z * Z := if m =? 1 then (y - 1, 12) else (y, m - 1).
(** [NaiveDate::from_ymd_opt(y, m, 1)], [pred_opt] and [day]. *)
Definition day_before_first (y m : Z) : Z := let '(y, m) := month_before y m in month_length y m.

(** ** Ages *)

Record ProjectAge : Type := mkProjectAge { years : Z; months : Z; days : Z }.

(** [from_duration], from the current date on. *)
Definition from_date (current_year current_month current_day : Z) : outcome ProjectAge :=
  if current_year <? 2025 then Undef else
  let years := current_year - 2024 in
  let months := current_month - 12 in
  let days := current_day - 23 in
  let '(months, days) :=
    if days <? 0 then
      let '(year, month) := month_before current_year current_month in
      (months - 1, days + day_before_first year month)
    else (months, days) in
  let '(years, months) := if months <? 0 then (years - 1, months + 12) else (years, months) in
  Ret (mkProjectAge (wrap 32 years) (wrap 32 months) (wrap 32 days)).

(** [BuildAge::since_build], of the seconds since the build. *)
Definition since_build (secs : Z) : Z := secs / 60.

(** ** Texts *)

Definition unit_text (word : string) (n : Z) : outcome string :=
  if n =? 0 then Undef else
  let plural := if 1 <? n then "s"%string else EmptyString in
  Ret (to_dec n +:+ " " +:+ word +:+ plural)%string.
Definition join_and (a b : outcome string) : outcome string := a ← a; b ← b; Ret (a +:+ " and " +:+ b)%string.
Definition project_age_text (age : ProjectAge) : outcome string :=
  let y := years age in let m := months age in let d := days age in
  if y =? 0 then
    if m =? 0 then if d =? 0 then Ret "less than 1 day"%string else unit_text "day" d
    else if d =? 0 then unit_text "month" m else join_and (unit_text "month" m) (unit_text "day" d)
  else
    if m =? 0 then if d =? 0 then unit_text "year" y else join_and (unit_text "year" y) (unit_text "day" d)
    else if d =? 0 then join_and (unit_text "year" y) (unit_text "month" m)
    else a ← unit_text "year" y; b ← unit_text "month" m; c ← unit_text "day" d; Ret (a +:+ ", " +:+ b +:+ ", and " +:+ c)%string.
Definition build_age_text (m : Z) : outcome string :=
  if m =? 0 then Ret "just now"%string
  else if m <? 60 then unit_text "minute" (wrap 32 m)
  else if m <? 120 then
    let m := wrap 32 (m mod 60) in if m =? 0 then unit_text "hour" 1 else join_and (unit_text "hour" 1) (unit_text "minute" m)
  else if m <? 1440 then
    let h := wrap 32 (m / 60) in
    let m := wrap 32 (m mod 60) in
    if m =? 0 then unit_text "hour" h else join_and (unit_text "hour" h) (unit_text "minute" m)
  else
    let d := wrap 32 (m / 1440) in
    let h := wrap 32 (m mod 1440 / 60) in
    if h =? 0 then unit_text "day" d else join_and (unit_text "day" d) (unit_text "hour" h).

(** ** The specification

    Whole months since 23 December 2024, and the days since the last time the month
    had its 23rd. *)
Definition true_months (y m d : Z) : Z := (y - 2024) * 12 + (m - 12) - (if d <? 23 then 1 else 0).
Definition true_days (y m d : Z) : Z :=
  if d <? 23 then let '(y, m) := month_before y m in d + month_length y m - 23 else d - 23.
(** By how much the days are wrong: the code takes the length of the month before. *)
Definition days_error (y m d : Z) : Z :=
  if d <? 23 then let '(y, m) := month_before y m in day_before_first y m - month_length y m else 0.

(** ** Lemmas *)

Lemma month_length_bounds y m : 28 <= month_length y m <= 31.
Proof. unfold month_length. repeat case_match; lia. Qed.

Lemma unit_text_returns word n : n <> 0 -> returns (unit_text word n).
Proof. intros H. unfold unit_text. rewrite (proj2 (Z.eqb_neq _ _)) by done. by eexists. Qed.
Lemma join_returns a b : returns a -> returns b -> returns (join_and a b).
Proof. intros [x ->] [y ->]. by eexists. Qed.

Create HintDb ages discriminated.
#[export] Hint Resolve unit_text_returns join_returns : ages.

Lemma project_text_returns age : returns (project_age_text age).
Proof.
  unfold project_age_text. destruct (Z.eqb_spec (years age) 0), (Z.eqb_spec (months age) 0), (Z.eqb_spec (days age) 0); eauto with ages.
  - by eexists.
  - destruct (unit_text_returns "year" _ n) as [a ->], (unit_text_returns "month" _ n0) as [b ->], (unit_text_returns "day" _ n1) as [c ->].
    by eexists.
Qed.
Lemma build_text_returns m : 0 <= m < 1440 * 2 ^ 32 -> returns (build_age_text m).
Proof.
  intros Hm. unfold build_age_text. destruct (Z.eqb_spec m 0) as [|H0]; [by eexists|].
  assert (forall n, 0 <= n < 2 ^ 32 -> wrap 32 n = n) as W by (intros n Hn; apply wrap_small; unfold in_uint; lia).
  assert (0 <= m / 1440 < 2 ^ 32) by (split; [lia|apply Z.div_lt_upper_bound; lia]).
  pose proof (Z.mod_pos_bound m 1440 ltac:(lia)). pose proof (Z.mod_pos_bound m 60 ltac:(lia)).
  destruct (Z.ltb_spec m 60); [|destruct (Z.ltb_spec m 120); [|destruct (Z.ltb_spec m 1440)]]; rewrite ?W by lia.
  - by apply unit_text_returns.
  - destruct (Z.eqb_spec (m mod 60) 0); eauto with ages.
  - assert (m / 60 <> 0) by lia. destruct (Z.eqb_spec (m mod 60) 0); eauto with ages.
  - assert (m / 1440 <> 0) by lia. destruct (Z.eqb_spec (m mod 1440 / 60) 0); eauto with ages.
Qed.

Lemma from_date_spec y m d : 2025 <= y < 2 ^ 32 -> 1 <= m <= 12 -> 1 <= d <= 31 ->
  from_date y m d = Ret (mkProjectAge (true_months y m d / 12) (true_months y m d mod 12) (true_days y m d + days_error y m d)).
Proof.
  intros Hy Hm Hd. unfold from_date, true_months, true_days, days_error.
  rewrite (proj2 (Z.ltb_ge _ _)) by lia.
  assert (forall n, 0 <= n < 2 ^ 32 -> wrap 32 n = n) as W by (intros n Hn; apply wrap_small; unfold in_uint; lia).
  destruct (Z.ltb_spec (d - 23) 0), (Z.ltb_spec d 23); try lia.
  - destruct (month_before y m) as [y' m'] eqn:Eb. unfold day_before_first. destruct (month_before y' m') as [y2 m2].
    pose proof (month_length_bounds y2 m2). destruct (Z.ltb_spec (m - 12 - 1) 0); [|lia].
    rewrite !W by lia. f_equal. f_equal; lia.
  - destruct (Z.ltb_spec (m - 12) 0); rewrite !W by lia; f_equal; f_equal; lia.
Qed.

(** ** Properties *)

(** The age of the project.  From 2025 on the years and months are right for every
    date, and the days too from the 23rd of a month on; before it they are off by the
    difference of the lengths of the two months before, so on 10 March 2025 the
    program claims 18 days since 23 February.  The texts of both ages exist whatever
    the numbers are, for a build within the range of a [u32] of days. *)
Theorem project_age_exact :
  (forall y m d, 2025 <= y < 2 ^ 32 -> 1 <= m <= 12 -> 1 <= d <= 31 ->
     exists age, from_date y m d = Ret age /\ 12 * years age + months age = true_months y m d /\ 0 <= months age < 12 /\
       days age = true_days y m d + days_error y m d /\ 0 <= days age <= 30 /\ (23 <= d -> days age = true_days y m d)) /\
  (forall age, returns (project_age_text age)) /\ (forall m, 0 <= m < 1440 * 2 ^ 32 -> returns (build_age_text m)) /\
  (true_days 2025 3 10 = 15 /\ (age ← from_date 2025 3 10; project_age_text age) = Ret "2 months and 18 days"%string).
Proof.
  split; [|split; [exact project_text_returns|split; [exact build_text_returns|split; [reflexivity|vm_compute; reflexivity]]]].
  intros y m d Hy Hm Hd. eexists. split; [by apply from_date_spec|]. cbn [years months days].
  unfold true_days, days_error, day_before_first. destruct (month_before y m) as [y' m']. destruct (month_before y' m') as [y2 m2].
  pose proof (month_length_bounds y' m'). pose proof (month_length_bounds y2 m2).
  destruct (Z.ltb_spec d 23); split_and!; lia.
Qed.
