(* ===== verification/Services.v ===== *)
(** * Handlers without a state of their own

    The last two handlers of [src/src/core/route/token.rs] (the version of the
    configuration and the profile of a pair of tokens), and those of
    [src/src/core/route/utils.rs] (fresh identifiers, and a synchronisation of the clock
    on demand).

    Random values are given, as are the parser of time zones and the text of an
    input or output error; the pool of tokens is threaded as in [Auth]. *)
From S2P Require Import Prelude Strings Numerals Hex TokenKey RawToken TokenInfo Profile Auth Requests ChatService Upstream Completions Ntp.
From S2P Require Import Settings.
From S2P Require TokenRoutes.

(** ** The guard of the sharing mode *)

Definition share_refused (AUTH_TOKEN : bytes) (g : Globals) (headers : HeaderMap) : bool :=
  let auth_header := bearer (headers AUTHORIZATION ≫= header_to_str) in
  let refused := match auth_header with
                 | None => true
                 | Some h => negb (share_token_eq h g) && negb (bool_decide (h = AUTH_TOKEN))
                 end in
  is_share g && refused.

(** ** The version of the configuration *)

Record GetConfigVersionRequest : Type := mkGetConfigVersion
  { gc_token : RawToken; gc_checksum : Checksum; gc_client_key : Hash; gc_session_id : Z; gc_proxy_name : option string;
    gc_timezone : option string; gc_gcpp_host : option GcppHost }.
Inductive GetConfigVersionResponse : Type := ConfigVersion (version : Z) | ConfigError (message : string).
Definition ERR_NODATA : string := "No data".

Section handlers.
Context (p : ReverseProxies) (v : VersionHeaders) (url_ok : bytes -> bool) (from_bytes : bytes -> option bytes).
Context (hyphenated : Z -> bytes) (GENERAL_TIMEZONE : string) (timestamp : Z) (AUTH_TOKEN : bytes).

Section version.
Context (tz_parse : string -> option string) (raw_to_string : RawToken -> string).
Context (config_version : bytes -> option bytes) (try_parse : bytes -> option Z).
Definition config_token (q : GetConfigVersionRequest) (pool : TokenPool) : ExtToken * TokenPool :=
  let '(token, pool) := token_new raw_to_string (gc_token q) None pool in
  (mkExtToken token None (gc_checksum q) (gc_client_key q) None (gc_session_id q) (gc_proxy_name q) (gc_timezone q ≫= tz_parse)
     (gc_gcpp_host q), pool).
Definition handle_get_config_version (g : Globals) (headers : HeaderMap) (trace_id : bytes) (q : GetConfigVersionRequest) (pool : TokenPool)
    : net (Z * GetConfigVersionResponse * TokenPool) :=
  if share_refused AUTH_TOKEN g headers then Give (401, ConfigError ERROR_UNAUTHORIZED, pool) else
  let '(token, pool) := config_token q pool in
  r ← get_server_config p v url_ok from_bytes hyphenated GENERAL_TIMEZONE timestamp config_version try_parse token false trace_id;
  Give (match r with Some cv => (200, ConfigVersion cv, pool) | None => (403, ConfigError ERR_NODATA, pool) end).
End version.

(** ** The profile of a pair of tokens *)

Record GetTokenProfileRequest : Type := mkGetTokenProfile
  { gp_session_token : Token; gp_web_token : Token; gp_proxy_name : option string; gp_include_sessions : bool }.
Definition ERROR_INVALID_SESSION_TOKEN : string := "Invalid parameter: session_token must be a session token, not a web token".
Definition ERROR_INVALID_WEB_TOKEN : string := "Invalid parameter: web_token must be a web token, not a session token".
Inductive GetTokenProfileResponse : Type :=
| TokenProfile (profile : option UsageProfile * option StripeProfile * option UserProfile * option (list Session))
| ProfileError (message : string).

Context (usage_profile : bytes -> option UsageProfile) (stripe_profile : bytes -> option StripeProfile).
Context (user_profile : bytes -> option UserProfile) (on_new_pricing : bytes -> option bool).
Context (privacy : bytes -> option PrivacyModeInfo) (session_list : bytes -> option (list Session)).
Definition handle_get_token_profile (g : Globals) (headers : HeaderMap) (q : GetTokenProfileRequest) (order : nat -> list bool)
    : net (Z * GetTokenProfileResponse) :=
  if share_refused AUTH_TOKEN g headers then Give (401, ProfileError ERROR_UNAUTHORIZED)
  else if is_web (raw (gp_session_token q)) then Give (400, ProfileError ERROR_INVALID_SESSION_TOKEN)
  else if is_session (raw (gp_web_token q)) then Give (400, ProfileError ERROR_INVALID_WEB_TOKEN)
  else
    profile ← get_token_profile p v url_ok usage_profile stripe_profile user_profile on_new_pricing privacy session_list
      (mkUnextToken (gp_session_token q) (Some (gp_web_token q))) false (gp_include_sessions q) order;
    Give (200, TokenProfile profile).
End handlers.

(** ** Fresh identifiers *)

Definition handle_gen_uuid (hyphenated : Z -> bytes) (uuid : Z) : bytes := hyphenated uuid.
Definition handle_gen_hash (r : Hash) : bytes := hash_to_str r 0 0 (replicate 64 0).
Definition handle_gen_checksum (header : Z) (r1 r2 : Hash) : bytes := checksum_to_str header (checksum_random r1 r2) (replicate 137 0).
Definition handle_get_checksum_header (header : Z) : bytes := timestamp_read header.

(** ** A synchronisation on demand *)

Inductive NtpSyncResult : Type := SyncDelta (text : string) | SyncError (text : string).
Definition ntp_error_text (io : string) (e : NtpError) : string :=
  match e with
  | Protocol msg => "NTP协议错误: " +:+ msg
  | Io => "IO错误: " +:+ io
  | Timeout => "NTP请求超时"
  | TimeParse => "时间解析错误"
  end.
(** With the corrected clock's [DELTA], before and after. *)
Definition handle_ntp_sync_once (io : string) (delta : Z) (exs : list Exchange) : outcome (NtpSyncResult * Z) :=
  r ← sync_once exs;
  Ret (match r with
       | Ok delta_nanos => (SyncDelta (to_dec_signed (Z.quot delta_nanos 1000000) +:+ "ms"), delta_nanos)
       | Err e => (SyncError ("NTP同步失败: " +:+ ntp_error_text io e), delta)
       end).

(** ** Properties *)

(** In the sharing mode a caller without the shared token and without the token of the
    administrator gets the same answer from both handlers, and nothing is asked of the
    service and no token is made. *)
Theorem services_guarded builder_error server p v url_ok from_bytes hyphenated tz timestamp AUTH_TOKEN tz_parse raw_to_string config_version
    try_parse usage_profile stripe_profile user_profile on_new_pricing privacy session_list g headers trace_id q q' order pool :
  is_share g = true ->
  (forall token, headers AUTHORIZATION = Some (AUTHORIZATION_BEARER_PREFIX ++ token) -> forallb visible token = true ->
     share_token_eq token g = false /\ token <> AUTH_TOKEN) ->
  run builder_error server (handle_get_config_version p v url_ok from_bytes hyphenated tz timestamp AUTH_TOKEN tz_parse raw_to_string
    config_version try_parse g headers trace_id q pool) [] = (Ret (401, ConfigError ERROR_UNAUTHORIZED, pool), []) /\
  run builder_error server (handle_get_token_profile p v url_ok AUTH_TOKEN usage_profile stripe_profile user_profile on_new_pricing privacy
    session_list g headers q' order) [] = (Ret (401, ProfileError ERROR_UNAUTHORIZED), []).
Proof.
  intros Hg Hh. assert (share_refused AUTH_TOKEN g headers = true) as Hr.
  { unfold share_refused. rewrite Hg. cbn [andb]. destruct (headers AUTHORIZATION) as [h|] eqn:Eh; [|done].
    cbn [mbind option_bind]. unfold header_to_str. destruct (forallb visible h) eqn:Ev; [|done]. unfold bearer. cbn [mbind option_bind].
    destruct (strip_prefix AUTHORIZATION_BEARER_PREFIX h) as [token|] eqn:Es; [|done].
    apply strip_prefix_Some in Es as ->. rewrite visible_app in Ev. apply andb_true_iff in Ev as [_ Ev].
    destruct (Hh token eq_refl Ev) as [-> Ht]. by rewrite bool_decide_eq_false_2. }
  unfold handle_get_config_version, handle_get_token_profile. by rewrite Hr.
Qed.

(** Generated identifiers are what the readers of such texts accept, and they hold the
    random values that were drawn. *)
Theorem generated_accepted header r1 r2 : hash_wf r1 -> hash_wf r2 ->
  hash_from_str (handle_gen_hash r1) = Ok r1 /\
  checksum_from_str (handle_gen_checksum header r1 r2) = Ok (checksum_random r1 r2) /\
  length (handle_gen_checksum header r1 r2) = 137%nat /\ take 8 (handle_gen_checksum header r1 r2) = handle_get_checksum_header header.
Proof.
  intros H1 H2. assert (checksum_wf (checksum_random r1 r2)) as Hc by done.
  unfold handle_gen_hash, handle_gen_checksum. split_and!.
  - rewrite hash_to_str_spec by (destruct H1 as [_ H1]; rewrite length_replicate; lia).
    destruct H1 as [Hb H1]. rewrite H1. cbn [Nat.mul Nat.add take app]. rewrite drop_ge by (rewrite length_replicate; lia).
    rewrite app_nil_r. by apply hash_from_str_hex.
  - by apply checksum_from_str_text.
  - rewrite checksum_to_str_spec by done. rewrite length_app, length_app. cbn [length first second checksum_random].
    rewrite timestamp_read_length, !length_hex_hash by done. reflexivity.
  - rewrite checksum_to_str_spec by done. rewrite take_app_length'; [done|]. by rewrite timestamp_read_length.
Qed.

(** A synchronisation on demand moves the clock exactly as one in the background. *)
Theorem sync_on_demand io delta exs :
  (r ← handle_ntp_sync_once io delta exs; Ret r.2) = sync_delta delta exs.
Proof. unfold handle_ntp_sync_once, sync_delta. by destruct (sync_once exs) as [[d|e]| |]. Qed.

(** The profile of a pair of tokens is asked with the web token in the cookie and the
    session token as the bearer, and the answer is that of [TokenRoutes]. *)
Theorem token_pair_profile builder_error answers p v url_ok AUTH_TOKEN usage_profile stripe_profile user_profile on_new_pricing privacy
    session_list g headers q order :
  share_refused AUTH_TOKEN g headers = false -> is_session (raw (gp_session_token q)) = true -> is_session (raw (gp_web_token q)) = false ->
  let u := mkUnextToken (gp_session_token q) (Some (gp_web_token q)) in
  format_bearer_token u = as_bytes "Bearer " ++ as_bytes (str (gp_session_token q)) /\ web_token u = gp_web_token q /\
  exists h,
    run builder_error (fun _ q => answers q) (handle_get_token_profile p v url_ok AUTH_TOKEN usage_profile stripe_profile user_profile
      on_new_pricing privacy session_list g headers q order) [] =
      (Ret (200, TokenProfile (TokenRoutes.get_token_profile (gp_include_sessions q)
        (profile_answers builder_error answers p v url_ok usage_profile stripe_profile user_profile on_new_pricing privacy session_list u false))), h) /\
    asked h ≡ₚ omap id (profile_requests p v url_ok u false (gp_include_sessions q)).
Proof.
  intros Hr Hs Hw u. split; [done|]. split; [done|].
  destruct (profile_settles builder_error answers p v url_ok usage_profile stripe_profile user_profile on_new_pricing privacy session_list u false
    (gp_include_sessions q) order) as (h & E & Hp).
  exists h. split; [|exact Hp]. unfold handle_get_token_profile, is_web. rewrite Hr, Hs, Hw. cbn [negb].
  by rewrite (run_bind_Ret _ _ _ _ _ _ _ E).
Qed.
